(* ===== verification/_CoqProject ===== *)
-Q . S2P
Prelude.v
Strings.v
Sse.v
Marshal.v
Hash.v
Json.v
Floats.v
Types.v
Catalog.v
Planner.v
PinStore.v
ForceNames.v
Reasoning.v
Exclusions.v
GlobalExclusions.v
Upstream.v
Failover.v
PinPolicy.v
HmmRoster.v
Resolver.v
Sidecar.v
ForcePins.v
HmmGate.v
TurnTypes.v
TurnResult.v
TurnLoop.v
TurnFacts.v
ThinkTag.v
Lifecycle.v
ToolIds.v
Toolcheck.v
Features.v
Synthetic.v
History.v
Detectors.v
Lru.v
Trackers.v
Escalation.v
StreamState.v
AnthropicStream.v
StreamProto.v
StreamFacts.v
StreamText.v
Bits.v
Bundle.v
Scorer.v
ScorerFacts.v
ClusterRouting.v
KeyCache.v
SemCache.v
CacheTurn.v
Exploration.v
Auth.v
AuthFacts.v
Flags.v
FlagFacts.v
Any.v
CachePolicy.v
Strict.v
Account.v
AccountFacts.v
Schema.v
JsonWriter.v
EmitOpenAI.v
EmitFacts.v
