(* ===== verification/Prelude.v ===== *)
(** * aiand-router: a verification development

    aiand-router is a Go proxy in front of model providers.  A client (Claude Code, an OpenAI or a
    Gemini SDK) sends it a turn of a conversation; the router decides which model and which provider
    serve the turn, keeps the decision for the session in a table of pins, dispatches the turn with
    retries and failover, and translates wire formats on the way.  This library models the decision:
    what a turn may be served, what the session remembers, what happens when an upstream fails, and how
    an Anthropic request becomes a chat completion and its stream the Anthropic stream of the client.

    ** How the program's parts fit together

    A turn enters [runTurnLoop] (internal/proxy/turnloop.go).  Its type is classified; a model the
    user forced with /force-model is looked up; some types are pinned by the operator.  Otherwise the
    session's pin is loaded, checked by a row of guards, and either reused, or weighed against a fresh
    pick of the request's router by the planner (internal/router/planner) or by the cost gate of the HMM
    strategies.  The decision is written back to the pin store (internal/router/sessionpin, implemented
    over Postgres by internal/postgres and internal/sqlc).  The turn is then dispatched over the
    bindings of its model (internal/proxy/fallback.go), and the outcome feeds the strikes that evict a
    pin or bar a provider (pin_eviction.go, provider_overload.go).  The upstream writes its response to a
    translator (internal/translate/stream.go) that frames events (internal/sse), splits inline reasoning
    (think_tag.go), keeps a lifecycle and a ledger of tool calls (stream_lifecycle.go,
    tool_call_ledger.go) and repairs tool arguments (internal/translate/toolcheck).  Around the turn stand the
    detectors of degenerate sessions: they read the history in the request, and rescue a session that loops,
    move one that struggles, or break a turn that repeats itself with a response the router writes itself.
    The catalog (internal/router/catalog) says which models exist, what they cost and who serves them.

    ** The files

    - [Prelude]: results of fallible calls, Go strings as byte strings, machine integers, time, sets
      that may be nil, the tactic [bool_hyps] and the rewrite database [go_str].
    - [Floats]: binary64 and binary32 on the Standard Library's specification floats.
    - [Types]: pins, usage, decisions, requests, strategies (sessionpin/store.go, router/router.go,
      router/strategy.go).
    - [Catalog]: router/catalog: rows, aliases, indexes, bindings, prices, windows.
    - [Planner]: router/planner/policy.go: [Decide] and its expected-value arithmetic.
    - [PinStore]: the contract of the store as a class [PinStore] with the laws [PinStoreLaws], and the
      Postgres repository as the instance [SessionPinRepo] with its proof of the laws.
    - [ForceNames]: force-model names, effort suffixes and the /force-model command parser.
    - [Reasoning]: model capabilities and the clamping of reasoning intents.
    - [Exclusions]: which models a request may be served: allowlists, exclusions, windows, tiers.
    - [Upstream]: the classes of upstream errors.
    - [Failover]: the prelude buffer, the dispatch loop, the order of bindings, the stand-in model.
    - [PinPolicy]: loading and writing pins, evictions, overload strikes, command continuations, as
      programs over any [PinStore].
    - [ForcePins]: the control row of a forced model and the command handlers.
    - [HmmGate]: the cost gate of the HMM strategies, its shadow, effort hysteresis and the band swap.
    - [TurnTypes]: the classification of turns.
    - [TurnResult]: the result record of a turn.
    - [TurnLoop]: [runTurnLoop], stage by stage, over any [PinStore] and any router.
    - [TurnFacts]: a weakest-precondition calculus for the stages and the theorems about whole turns.
    - [Strings]: searching, prefixes and concatenation of byte strings.
    - [Sse]: framing, parsing, JSON text, the keepalive writer (internal/sse).
    - [Json]: the JSON reader and editor as classes, with a small instance the witnesses evaluate on.
    - [Marshal]: the text encoding/json writes of a value, and a reader of it.
    - [Hash]: SHA-1 and SHA-256.
    - [GlobalExclusions]: the cached list of models withdrawn from automatic routing.
    - [HmmRoster]: roster names, effort arms, and the ladder of clusters a struggling session climbs.
    - [Resolver]: the candidates a policy is offered, the identity of an arm, and what a selection means
      (internal/router/policy).
    - [Sidecar]: routing through a policy sidecar: cluster lists, the arm selector, previews
      (internal/router/policyclient, sidecar_router.go and its neighbours).
    - [Features], [History]: what is read of a request body, of its last messages and of the assistant's calls.
    - [Synthetic]: the responses the router writes itself.
    - [Detectors], [Lru], [Trackers]: the detectors as functions of the request, the contract of the expiring
      cache, and the trackers that keep recent dispatches in one.
    - [Escalation]: what the detectors' findings do to the pins and to the stores of events.
    - [ThinkTag], [Lifecycle], [ToolIds], [Toolcheck]: the splitter of inline reasoning; the lifecycle of a
      stream and the ledger of its calls; identifiers of calls; validation and repair of arguments.
    - [StreamState], [AnthropicStream]: the events of an Anthropic stream and their bytes, the state of
      AnthropicSSETranslator, its methods as actions that may fail on a write, and its writer.
    - [StreamProto], [StreamFacts], [StreamText]: the protocol as an automaton with a Hoare logic for the
      actions, and the theorems about whole responses.

    - [Bits], [Bundle], [Scorer]: the bits of integers and floats; the artifacts of the cluster router and their
      loading; its construction, routing, knobs, dial, preview and versions (internal/router/cluster).
    - [ScorerFacts], [ClusterRouting]: the facts about the scorer, and the theorems about whole routes.
    - [Exploration]: the routers around it that randomise its choice, [Explore] (internal/router/banditexplore)
      and [Bandit] (internal/router/bandit).
    - [SemCache], [CacheTurn]: the semantic cache (internal/router/cache) as programs of atomic actions on a shared
      state, and the turns that read and fill it.
    - [KeyCache]: the caches of keys and of cluster lists of the authentication service (internal/auth).
    - [Auth], [AuthFacts]: that service over the rows of its database: keys issued, rotated, deleted and verified,
      the settings of an installation; and what holds after any history of calls.
    - [Account], [AccountFacts]: self-service login with an aiand key, statement by statement (internal/auth/account_login.go).
    - [Flags], [FlagFacts]: the behavioral flags (internal/flags): registry, overrides and their text, what a request reads.
    - [Any], [CachePolicy], [Strict]: decoded JSON; the prompt-cache breakpoints of an Anthropic request, and tool schemas
      in OpenAI's strict mode (internal/translate).
    - [Schema], [JsonWriter], [EmitOpenAI], [EmitFacts]: the request sent to an OpenAI-compatible upstream
      (internal/translate/emit_openai.go): tool schemas with their definitions inlined, the writer of its JSON (jsonw.go),
      messages, tools and parameters built from an Anthropic body or passed on from an OpenAI one; and what the
      conversation it carries keeps.

    A definition has the name of the Go function, method or type it models.  Where the source inlines a
    step the definition is named after it (the stages of [TurnLoop], [conflict_row] for the ON CONFLICT
    clause of an upsert).  State is passed explicitly: a program over a store is a function of the clock
    and of the store.  Handlers read the clock once; a session's rows are changed by one SQL statement
    at a time, so concurrent requests are interleavings of the operations of [PinStore].

    ** What the theorems show

    - Turns ([TurnFacts], [HmmGate], [TurnTypes]): whatever the router answers and the rows hold, a turn
      is served a hard pin, a forced model, the router's pick, a declared fallback or a model that may be
      kept on; a force outranks everything else; hard-pinned turns write nothing; the gate's exact rule.
    - The store ([PinStore]): the instance keeps the contract; evidence survives concurrent writes of the
      same strategy; a continuation is consumed once; the switch mark is latched; rows stay well-formed.
    - Pin policy and forced models ([PinPolicy], [ForcePins]): two strikes evict a pin, repeated overload
      bars a provider and is honoured by the next turn, a command takes effect and keeps its history.
    - Dispatch ([Failover], [Upstream]): the loop ends, retries only while nothing has reached the client,
      and leaves the client untouched when it defers the error; the buffer refines a direct writer.
    - Streams ([StreamFacts], [StreamText]): whatever events the upstream sends and whichever write fails,
      as long as the end marker comes at most once and is followed by its blank line, the client reads a
      prefix of a well-formed message stream, complete when the response ends well; its text and reasoning
      are the upstream's, nothing but blanks being held back, and those until the stream ends; the result does not depend on how the bytes were cut.
    - Parts of a stream ([Sse], [ThinkTag], [Lifecycle], [ToolIds], [Toolcheck]): framing and splitting
      delta by delta equal doing it on the whole text, and for texts that open with the tag or hold no leading blank are
      what the source's comment says; JSON strings and identifiers round-trip; keepalives
      fall between events; the arguments a checked call is served conform to its tool's schema as far as
      the validator can decode them, unless the verdict reports an issue it could not repair or a number the editor
      cannot write was forwarded ([nan_forwarded]).
    - Degenerate sessions ([Detectors], [Trackers], [Escalation], [HmmRoster]): exactly when a session counts as
      looping or repeating since the user's last prompt, and that a stuck one is stopped while its recent dispatches are cached; a rescue happens exactly when it is due and its pin
      is loaded by every later turn until it ends; a lookup of past events that fails, or two turns at once, may add an
      event, and nothing else does; a move stays within its bounds and goes to the ladder's first usable arm, never down;
      breaking a turn ends the pin.  Responses the router writes are read back as written ([Synthetic]).
    - Policies ([Resolver], [Sidecar]): whatever a sidecar answers, a turn is served one of the candidates it was
      offered, inside the operator's cluster lists; while roster names tell the
      candidates apart a preference never makes a request fail; a preview says what its route would be.
    - The cluster router ([ClusterRouting]): what a scorer that is built guarantees; the model served is eligible, and
      none eligible scores above it; when a request is refused; the dial respects the floors, its preview is what
      live traffic does where the knobs it sets validate, and the hash of the knobs keeps different knobs apart.  Around it ([Exploration]): exploration
      and sampling serve only what the scorer could have served, and record the propensity they had.
    - Caches ([SemCache], [CacheTurn], [KeyCache]): however calls interleave, a lookup answers only with what was stored under
      its own key, recently and for a near prompt; a store is found again and leaves other installations alone; a
      change of settings reaches every cached key as long as calls on one key do not overlap.
    - Keys ([AuthFacts]): after any calls, a token is accepted exactly when the database holds an active key of its
      scope under its hash, with the row and the installation as they stand now; the flag overrides of an organization are
      in force at its next request ([FlagFacts]).  However logins interleave and fail, a user has one account, one installation
      and at most one key for aiand, and a session opens them until it expires or is revoked ([AccountFacts]).
    - Rewrites of requests ([CachePolicy], [Strict]): the breakpoints sent are the client's and at most two more, never over the
      provider's capacity; a strict schema is strict at every node that has properties or an object type of its own.  What an
      OpenAI-compatible upstream is sent of an Anthropic conversation keeps every call, in order, and pairs it with its
      answer where the request did ([EmitFacts]); the parameters of its tools hold no pattern and, unless definitions are
      cyclic, no reference ([Schema]).
    - Withdrawn models ([GlobalExclusions]): however requests interleave, the list served is the last answer.
    - Choice ([Planner], [Catalog], [Exclusions], [Reasoning], [ForceNames]): when the planner switches,
      what each exclusion removes, the optimal level, the command parser's shape and round trip.

    ** Bounds and fuel

    The recursions with fuel scan strings; the fuel is the length of the string, which every step
    shortens ([trim_left_fuel], [fields_fuel], [parse_fuel], [after_prefix_fuel], [process_buffer], [signature_bytes],
    [canonicalizeInto], the reader of [Marshal]).  The dispatch loop recurs
    on the list of bindings and on the attempts left; [resolveSchemaRefs] follows at most one reference more than there
    are definitions, since it visits none twice.  Integers that are columns of the database are
    bounded to their width by the statements' casts; Go's [int] counters wrap at 64 bits where the code
    adds to them.  Floats are exact, so no theorem about prices is up to rounding.

    ** What is not modelled

    Third-party code is a parameter: the JSON reader (class [Gjson]), the Unicode tables of ToLower for
    text beyond ASCII (class [GoUnicode]), the JSON editor (class [Sjson]), the schema validator (class
    [JsonSchema]), the expiring cache (class [LRU], and [KeyCache], where it may drop any entry at any time),
    the plain LRU (class [Lru] of [SemCache]), the text of a UUID (class [Uuid] of [Auth]), the database's order of
    strings (class [Collation]), its jsonb column (class [FlagColumn]), decoding and encoding of whole bodies
    (class [JsonCodec]), the text of a float (class [GoFmt]), the encryption of provider keys, the stores of events (class [EventStore]),
    the sidecar's roster, the booster of the band classifier, the order in which Go ranges over a map, the bytes
    drawn at random, the random numbers of exploration, the policy sidecar and the selector of arms.  Routers are a parameter of
    the turn loop: they answer with a decision or an error.  An upstream attempt is a script of the writes
    it makes.  A write to the client either delivers its bytes or delivers none: an event that a failing
    connection cuts short is not modelled.  [VerifyAPIKey] is one step, so a key deleted between its read of the row and its
    write of the cache is outside the model.  Which calls revoke a session is not modelled: revocations are events that
    may come at any time.  Left out: the bodies sent to Anthropic and Gemini upstreams and the streams of
    the other directions, the HTTP server and admin API,
    generated code, logs and metrics, the ONNX embedder (a parameter of the scorer), the decoding of the JSON and YAML files
    of a bundle and of the bandit's posterior, the HTTP client of the sidecar and what it is told of outcomes, and, of
    the authentication service, users and the provider keys an administrator sets. *)

From stdpp Require Import base gmap sets list strings fin_maps.
From Stdlib Require Import ZArith Lia Ascii String.
Open Scope Z_scope.

(** ** Results of fallible Go calls *)

(** A Go call returning [(T, error)]: either a value or an error. *)
Inductive res (E A : Type) : Type :=
| Ok (a : A)
| Err (e : E).
Arguments Ok {E A} a.
Arguments Err {E A} e.

Definition res_bind {E A B} (r : res E A) (f : A -> res E B) : res E B :=
  match r with
  | Ok a => f a
  | Err e => Err e
  end.

Declare Scope go_scope.
Delimit Scope go_scope with go.
Notation "'let!' x ':=' c 'in' k" := (res_bind c (fun x => k))
  (at level 10, x pattern, c at level 100, k at level 200) : go_scope.
Open Scope go_scope.

(** ** Go strings are byte strings *)

(** [len(s)] *)
Definition len (s : string) : Z := Z.of_nat (String.length s).

(** [s[i:]] for [0 <= i <= len s]; the callers keep [i] in range. *)
Fixpoint str_drop (n : nat) (s : string) : string :=
  match n, s with
  | O, _ => s
  | S n', String _ s' => str_drop n' s'
  | S _, EmptyString => EmptyString
  end.

(** [s[:i]] for [0 <= i <= len s]. *)
Fixpoint str_take (n : nat) (s : string) : string :=
  match n, s with
  | O, _ => EmptyString
  | S n', String a s' => String a (str_take n' s')
  | S _, EmptyString => EmptyString
  end.

(** [strings.HasPrefix] *)
Fixpoint HasPrefix (s p : string) : bool :=
  match p, s with
  | EmptyString, _ => true
  | String a p', String b s' => if Ascii.eqb a b then HasPrefix s' p' else false
  | String _ _, EmptyString => false
  end.

(** [strings.HasSuffix] *)
Definition HasSuffix (s p : string) : bool :=
  if Nat.leb (String.length p) (String.length s)
  then String.eqb (str_drop (String.length s - String.length p) s) p
  else false.

(** [strings.Index] (None for -1): the first occurrence of [sub]. *)
Fixpoint Index (s sub : string) : option nat :=
  if HasPrefix s sub then Some O
  else match s with
       | EmptyString => None
       | String _ s' => S <$> Index s' sub
       end.

(** [strings.Contains] *)
Definition Contains (s sub : string) : bool := bool_decide (is_Some (Index s sub)).

(** [strings.LastIndex(s, c)] for a one-byte separator (None for -1). *)
Fixpoint LastIndexByte (s : string) (c : ascii) : option nat :=
  match s with
  | EmptyString => None
  | String a s' =>
      match LastIndexByte s' c with
      | Some i => Some (S i)
      | None => if Ascii.eqb a c then Some O else None
      end
  end.

(** [strings.TrimSuffix] and [strings.CutPrefix] *)
Definition TrimSuffix (s p : string) : string :=
  if HasSuffix s p then str_take (String.length s - String.length p) s else s.

Definition CutPrefix (s p : string) : option string :=
  if HasPrefix s p then Some (str_drop (String.length p) s) else None.

(** The UTF-8 encodings of the runes [unicode.IsSpace] accepts. *)
Definition byte_of (n : nat) : ascii := ascii_of_nat n.
Definition utf8 (l : list nat) : string := String.string_of_list_ascii (byte_of <$> l).
Definition space_runes : list string :=
  (utf8 <$> ([[9]; [10]; [11]; [12]; [13]; [32]; [194; 133]; [194; 160]; [225; 154; 128];
              [226; 128; 128]; [226; 128; 129]; [226; 128; 130]; [226; 128; 131];
              [226; 128; 132]; [226; 128; 133]; [226; 128; 134]; [226; 128; 135];
              [226; 128; 136]; [226; 128; 137]; [226; 128; 138]; [226; 128; 168];
              [226; 128; 169]; [226; 128; 175]; [226; 129; 159]; [227; 128; 128]])%nat).

(** The length of the space rune at the head of [s], if there is one. *)
Definition space_at (s : string) : option nat :=
  String.length <$> List.find (fun r => HasPrefix s r) space_runes.
Definition space_before (s : string) : option nat :=
  String.length <$> List.find (fun r => HasSuffix s r) space_runes.

(** [strings.TrimLeft]/[TrimRight] over [unicode.IsSpace]; the fuel is the length, which every
    step decreases. *)
Fixpoint trim_left_fuel (fuel : nat) (s : string) : string :=
  match fuel with
  | O => s
  | S f => match space_at s with
           | Some n => trim_left_fuel f (str_drop n s)
           | None => s
           end
  end.
Fixpoint trim_right_fuel (fuel : nat) (s : string) : string :=
  match fuel with
  | O => s
  | S f => match space_before s with
           | Some n => trim_right_fuel f (str_take (String.length s - n) s)
           | None => s
           end
  end.

(** [strings.TrimSpace] *)
Definition TrimSpace (s : string) : string :=
  let l := trim_left_fuel (String.length s) s in
  trim_right_fuel (String.length l) l.

(** [strings.Fields]: the maximal runs of bytes that are not part of a space rune. [acc] is the
    field being read, reversed. *)
Definition emit_field (acc : list ascii) : list string :=
  match acc with
  | [] => []
  | _ => [String.string_of_list_ascii (rev acc)]
  end.
Fixpoint fields_fuel (fuel : nat) (s : string) (acc : list ascii) : list string :=
  match fuel with
  | O => emit_field acc
  | S f =>
      match space_at s with
      | Some n => emit_field acc ++ fields_fuel f (str_drop n s) []
      | None => match s with
                | EmptyString => emit_field acc
                | String a s' => fields_fuel f s' (a :: acc)
                end
      end
  end.
Definition Fields (s : string) : list string := fields_fuel (S (String.length s)) s [].

(** [strings.Join] *)
Definition Join (l : list string) (sep : string) : string := String.concat sep l.

(** [strings.ToLower] is exact on ASCII input. For other input Go maps every rune through the
    Unicode tables of its library: that map is a field of this class. *)
Class GoUnicode := { unicode_ToLower : string -> string }.

Definition is_ascii_byte (a : ascii) : bool := Nat.ltb (nat_of_ascii a) 128.
Fixpoint is_ascii (s : string) : bool :=
  match s with
  | EmptyString => true
  | String a s' => if is_ascii_byte a then is_ascii s' else false
  end.
Definition lower_byte (a : ascii) : ascii :=
  let n := nat_of_ascii a in
  if (Nat.leb 65 n && Nat.leb n 90)%bool then ascii_of_nat (n + 32) else a.
Fixpoint ascii_lower (s : string) : string :=
  match s with
  | EmptyString => EmptyString
  | String a s' => String (lower_byte a) (ascii_lower s')
  end.
Definition ToLower `{GoUnicode} (s : string) : string :=
  if is_ascii s then ascii_lower s else unicode_ToLower s.

(** The instance used to evaluate witnesses: non-ASCII text is left as it is. *)
Definition ascii_unicode : GoUnicode := {| unicode_ToLower := fun s => s |}.

(** ** Machine integers *)

(** Go's [int] and [int64] wrap at 64 bits, [int32] at 32. *)
Definition wrapS (w : Z) (z : Z) : Z := (z + 2 ^ (w - 1)) mod 2 ^ w - 2 ^ (w - 1).
Definition wrap64 : Z -> Z := wrapS 64.
Definition wrap32 : Z -> Z := wrapS 32.
Definition max_int32 : Z := 2 ^ 31 - 1.

(** ** Time *)

(** A [time.Time] is its offset in nanoseconds from Go's zero time, so [IsZero] is a test for 0;
    a [time.Duration] is a number of nanoseconds. *)
Definition IsZero (t : Z) : bool := t =? 0.
Definition Before (t u : Z) : bool := t <? u.
Definition After (t u : Z) : bool := u <? t.
Definition Millisecond : Z := 1000000.
Definition Second : Z := 1000 * Millisecond.
Definition Minute : Z := 60 * Second.
Definition Hour : Z := 60 * Minute.
Definition max_duration : Z := 2 ^ 63 - 1.
Definition min_duration : Z := - 2 ^ 63.
(** [t.Sub(u)] saturates. *)
Definition Sub (t u : Z) : Z := Z.max min_duration (Z.min max_duration (t - u)).

(** ** Membership *)

Definition in_strings (s : string) (l : list string) : bool := existsb (String.eqb s) l.

(** ** Nil-able maps used as sets *)

(** [m[k]] of a [map[string]struct{}] that may be nil: a nil map holds nothing. *)
Definition in_set (k : string) (m : gset string) : bool := bool_decide (k ∈ m).
Definition in_opt_set (k : string) (m : option (gset string)) : bool :=
  match m with
  | Some s => in_set k s
  | None => false
  end.

(** ** Facts on strings *)

(** A printable ASCII byte other than the space. *)
Definition word_byte (a : ascii) : bool :=
  (Nat.leb 33 (nat_of_ascii a) && Nat.leb (nat_of_ascii a) 126)%bool.
Fixpoint all_bytes (p : ascii -> bool) (s : string) : bool :=
  match s with
  | EmptyString => true
  | String a s' => (p a && all_bytes p s')%bool
  end.
Fixpoint last_byte (s : string) : option ascii :=
  match s with
  | EmptyString => None
  | String a EmptyString => Some a
  | String _ s' => last_byte s'
  end.

Lemma str_app_cons a (s t : string) : (String a s +:+ t)%string = String a (s +:+ t)%string.
Proof. reflexivity. Qed.
Lemma str_app_nil_l (t : string) : ("" +:+ t)%string = t.
Proof. reflexivity. Qed.
Lemma str_app_nil_r (s : string) : (s +:+ "")%string = s.
Proof. induction s as [|a s IH]; [reflexivity|]. rewrite str_app_cons, IH. reflexivity. Qed.
Lemma str_app_assoc (s t u : string) : ((s +:+ t) +:+ u = s +:+ (t +:+ u))%string.
Proof. induction s as [|a s IH]; [reflexivity|]. rewrite !str_app_cons, IH. reflexivity. Qed.
Lemma str_drop_app (p s : string) : str_drop (String.length p) (p +:+ s)%string = s.
Proof. induction p as [|a p IH]; [reflexivity|]. rewrite str_app_cons. exact IH. Qed.
Lemma str_take_app (p s : string) : str_take (String.length p) (p +:+ s)%string = p.
Proof. induction p as [|a p IH]; [reflexivity|]. rewrite str_app_cons. cbn. f_equal. exact IH. Qed.
Lemma str_take_drop n (s : string) : (str_take n s +:+ str_drop n s)%string = s.
Proof. revert s; induction n as [|n IH]; intros [|a s]; [reflexivity..|]. cbn [str_take str_drop].
  rewrite str_app_cons, IH. reflexivity. Qed.
Lemma str_length_app (p s : string) : String.length (p +:+ s)%string = (String.length p + String.length s)%nat.
Proof. induction p as [|a p IH]; [reflexivity|]. rewrite str_app_cons. cbn. f_equal. exact IH. Qed.
Lemma str_length_drop n (s : string) : String.length (str_drop n s) = (String.length s - n)%nat.
Proof. revert s; induction n as [|n IH]; intros [|a s]; cbn; auto. Qed.
Lemma HasPrefix_spec s p : HasPrefix s p = true <-> exists r, s = (p +:+ r)%string.
Proof.
  revert s; induction p as [|a p IH]; intros s; cbn.
  { split; [intros _; exists s; reflexivity|destruct s; reflexivity]. }
  destruct s as [|b s]; [split; [discriminate|intros [r [=]]]|]. cbn [HasPrefix].
  destruct (Ascii.eqb_spec a b) as [->|N].
  - rewrite IH. split; intros [r E]; exists r; [rewrite E; reflexivity|].
    rewrite str_app_cons in E. injection E. auto.
  - split; [discriminate|]. intros [r E]. rewrite str_app_cons in E. congruence.
Qed.
Lemma CutPrefix_app p s : CutPrefix (p +:+ s)%string p = Some s.
Proof.
  unfold CutPrefix. rewrite (proj2 (HasPrefix_spec _ _)) by eauto. rewrite str_drop_app. reflexivity.
Qed.
Lemma last_byte_drop n s a : last_byte (str_drop n s) = Some a -> last_byte s = Some a.
Proof.
  revert s; induction n as [|n IH]; intros [|b s] E; cbn in *; auto.
  destruct s; [destruct n; discriminate|]. auto.
Qed.
Lemma last_byte_app_word s t : t <> EmptyString -> all_bytes word_byte t = true ->
  exists a, last_byte (s +:+ t)%string = Some a /\ word_byte a = true.
Proof.
  intros N W. induction s as [|b s IH]; rewrite ?str_app_nil_l, ?str_app_cons.
  - induction t as [|a t IH]; [congruence|]. cbn in W. apply andb_prop in W as [Wa W].
    destruct t; [exists a; auto|]. destruct IH as (x & E & Hx); [discriminate|exact W|]. exists x. auto.
  - destruct IH as (x & E & Hx). exists x. split; [|exact Hx].
    destruct (s +:+ t)%string eqn:D; [discriminate|exact E].
Qed.

(** No space rune begins or ends with a printable ASCII byte. *)
Lemma space_runes_heads : forallb (fun r => match r with String b _ => negb (word_byte b) | _ => false end) space_runes = true.
Proof. vm_compute. reflexivity. Qed.
Lemma space_runes_lasts : forallb (fun r => match last_byte r with Some b => negb (word_byte b) | None => false end) space_runes = true.
Proof. vm_compute. reflexivity. Qed.

Lemma find_none_iff {A} (p : A -> bool) l : (forall x, In x l -> p x = false) -> List.find p l = None.
Proof. induction l as [|x l IH]; intros F; cbn; [reflexivity|]. rewrite (F x) by (left; auto). apply IH. intros; apply F; right; auto. Qed.

Lemma space_at_word a s : word_byte a = true -> space_at (String a s) = None.
Proof.
  intros W. unfold space_at. rewrite find_none_iff; [reflexivity|]. intros r Hr.
  pose proof (proj1 (forallb_forall _ _) space_runes_heads r Hr) as H. cbv beta in H.
  destruct r as [|b r]; [discriminate|]. cbn. destruct (Ascii.eqb_spec b a) as [->|]; [|reflexivity].
  rewrite W in H. discriminate.
Qed.
Lemma space_before_word s a : last_byte s = Some a -> word_byte a = true -> space_before s = None.
Proof.
  intros L W. unfold space_before. rewrite find_none_iff; [reflexivity|]. intros r Hr.
  pose proof (proj1 (forallb_forall _ _) space_runes_lasts r Hr) as H. cbv beta in H.
  unfold HasSuffix. destruct (Nat.leb _ _); [|reflexivity].
  destruct (String.eqb_spec (str_drop (String.length s - String.length r) s) r) as [E|]; [|reflexivity].
  destruct (last_byte r) as [b|] eqn:Eb; [|discriminate]. rewrite <- E in Eb.
  apply last_byte_drop in Eb. rewrite L in Eb. injection Eb as <-. rewrite W in H. discriminate.
Qed.

(** Text that starts and ends with printable ASCII is its own trimming. *)
Lemma TrimSpace_word a s b :
  word_byte a = true -> last_byte (String a s) = Some b -> word_byte b = true ->
  TrimSpace (String a s) = String a s.
Proof.
  intros Wa L Wb. unfold TrimSpace.
  assert (E : trim_left_fuel (String.length (String a s)) (String a s) = String a s).
  { cbn [String.length trim_left_fuel]. rewrite (space_at_word a s Wa). reflexivity. }
  cbv zeta. rewrite E. cbn [String.length trim_right_fuel].
  rewrite (space_before_word _ _ L Wb). reflexivity.
Qed.
Lemma TrimSpace_empty : TrimSpace EmptyString = EmptyString.
Proof. reflexivity. Qed.

Lemma fields_fuel_word fuel s acc : all_bytes word_byte s = true -> (String.length s < fuel)%nat ->
  fields_fuel fuel s acc = emit_field (rev (list_ascii_of_string s) ++ acc).
Proof.
  revert s acc; induction fuel as [|f IH]; intros s acc W L; [lia|]. cbn [fields_fuel].
  destruct s as [|a s]; [reflexivity|]. cbn in W, L. apply andb_prop in W as [Wa W].
  rewrite (space_at_word _ _ Wa), IH by (auto; lia). cbn. rewrite <- app_assoc. reflexivity.
Qed.
Lemma Fields_word s : all_bytes word_byte s = true -> s <> EmptyString -> Fields s = [s].
Proof.
  intros W N. unfold Fields. rewrite fields_fuel_word by (auto; lia). rewrite app_nil_r.
  unfold emit_field. rewrite rev_involutive, string_of_list_ascii_of_string.
  destruct (rev (list_ascii_of_string s)) eqn:E; [|reflexivity].
  destruct s; [congruence|]. apply (f_equal (@rev ascii)) in E. rewrite rev_involutive in E. discriminate.
Qed.

(** ** Automation *)

(** Splits the boolean hypotheses into the facts they stand for. *)
Ltac bool_hyps := repeat match goal with
  | H : (_ && _)%bool = true |- _ => let H' := fresh in apply andb_prop in H as [H' H]
  | H : (_ || _)%bool = false |- _ => let H' := fresh in apply orb_false_iff in H as [H' H]
  | H : negb _ = true |- _ => apply negb_true_iff in H
  | H : negb _ = false |- _ => apply negb_false_iff in H
  | H : bool_decide _ = true |- _ => apply bool_decide_eq_true in H
  | H : bool_decide _ = false |- _ => apply bool_decide_eq_false in H
  | H : String.eqb _ _ = true |- _ => apply String.eqb_eq in H
  | H : String.eqb _ _ = false |- _ => apply String.eqb_neq in H
  end.

(** The equations of string operations on a concatenation. *)
Create HintDb go_str.
#[export] Hint Rewrite str_app_nil_l str_app_nil_r str_app_cons str_drop_app str_take_app str_length_app
  CutPrefix_app str_take_drop str_length_drop : go_str.
