(* ===== verification/Strings.v ===== *)
(** Facts on byte strings shared by the parts that scan text: searching, prefixes, splitting and
    concatenation. *)

From stdpp Require Import base gmap sets list strings sorting.
From Stdlib Require Import ZArith Lia Ascii.
From S2P Require Import Prelude.
Open Scope string_scope.

(** ** Concatenation, taking and dropping *)

Lemma str_app_inv_l (s t u : string) : s +:+ t = s +:+ u -> t = u.
Proof. induction s as [|a s IH]; [trivial|]. rewrite !str_app_cons. intros [= E]. auto. Qed.
Lemma str_drop_drop m n (s : string) : str_drop m (str_drop n s) = str_drop (n + m) s.
Proof. revert s; induction n as [|n IH]; intros [|a s]; cbn; auto. destruct m; reflexivity. Qed.
Lemma str_drop_app_le n (s t : string) : (n <= String.length s)%nat -> str_drop n (s +:+ t) = str_drop n s +:+ t.
Proof.
  revert s; induction n as [|n IH]; intros [|a s] L; cbn in L; try reflexivity; [lia|].
  rewrite str_app_cons. cbn. apply IH. lia.
Qed.
Lemma str_take_app_le n (s t : string) : (n <= String.length s)%nat -> str_take n (s +:+ t) = str_take n s.
Proof.
  revert s; induction n as [|n IH]; intros [|a s] L; cbn in L; try reflexivity; [lia|].
  rewrite str_app_cons. cbn. f_equal. apply IH. lia.
Qed.
Lemma str_take_all n (s : string) : (String.length s <= n)%nat -> str_take n s = s.
Proof. revert n; induction s as [|a s IH]; intros [|n] L; cbn in *; try reflexivity; [lia|]. f_equal. apply IH. lia. Qed.
Lemma str_drop_all n (s : string) : (String.length s <= n)%nat -> str_drop n s = "".
Proof. revert n; induction s as [|a s IH]; intros [|n] L; cbn in *; try reflexivity; [lia|]. apply IH. lia. Qed.
Lemma str_length_take n (s : string) : String.length (str_take n s) = Nat.min n (String.length s).
Proof. revert s; induction n as [|n IH]; intros [|a s]; cbn; auto. Qed.
Lemma str_length_0 (s : string) : String.length s = 0%nat -> s = "".
Proof. destruct s; [reflexivity|discriminate]. Qed.
Lemma concat_app (l m : list string) : String.concat "" (l ++ m)%list = String.concat "" l +:+ String.concat "" m.
Proof.
  assert (C : forall x (k : list string), String.concat "" (x :: k) = x +:+ String.concat "" k).
  { intros x [|y k]; cbn; [rewrite str_app_nil_r; reflexivity|reflexivity]. }
  induction l as [|x l IH]; [reflexivity|]. cbn [app]. rewrite !C, IH, str_app_assoc. reflexivity.
Qed.
Lemma concat_cons x (k : list string) : String.concat "" (x :: k) = x +:+ String.concat "" k.
Proof. exact (concat_app [x] k). Qed.

(** ** Prefixes *)

Lemma HasPrefix_app s p t : HasPrefix s p = true -> HasPrefix (s +:+ t) p = true.
Proof. rewrite !HasPrefix_spec. intros [r ->]. exists (r +:+ t). apply str_app_assoc. Qed.
Lemma HasPrefix_length s p : HasPrefix s p = true -> (String.length p <= String.length s)%nat.
Proof. rewrite HasPrefix_spec. intros [r ->]. rewrite str_length_app. lia. Qed.
(** A prefix of [s ++ t] that fits into [s] is one of [s]. *)
Lemma HasPrefix_app_inv s p t : (String.length p <= String.length s)%nat ->
  HasPrefix (s +:+ t) p = true -> HasPrefix s p = true.
Proof.
  rewrite !HasPrefix_spec. intros L [r E]. exists (str_drop (String.length p) s).
  apply (f_equal (str_drop (String.length p))) in E as E'. rewrite str_drop_app, str_drop_app_le in E' by exact L.
  rewrite <- E' in E. clear E' r. revert s L E. induction p as [|a p IH]; intros s L E; [reflexivity|].
  destruct s as [|b s]; cbn in L; [lia|]. cbn in E.
  injection E as -> E. change (String a s = String a (p +:+ str_drop (String.length p) s)). f_equal. apply IH; [lia|exact E].
Qed.

(** ** Searching *)

Lemma Index_nil_l p : Index "" p = if String.eqb p "" then Some 0%nat else None.
Proof. destruct p; reflexivity. Qed.
Lemma Index_cons a s p : Index (String a s) p = if HasPrefix (String a s) p then Some 0%nat else S <$> Index s p.
Proof. reflexivity. Qed.

(** The first occurrence. *)
Lemma Index_some s p i : Index s p = Some i <->
  HasPrefix (str_drop i s) p = true /\ (i <= String.length s)%nat /\ forall j, (j < i)%nat -> HasPrefix (str_drop j s) p = false.
Proof.
  revert i; induction s as [|a s IH]; intros i.
  - rewrite Index_nil_l. split.
    + destruct (String.eqb_spec p ""); [|discriminate]. intros [= <-]. subst. split; [reflexivity|]. split; [cbn; lia|lia].
    + intros (P & L & _). cbn in L. destruct i; [|lia]. destruct p; [reflexivity|discriminate P].
  - rewrite Index_cons. destruct (HasPrefix (String a s) p) eqn:E.
    + split.
      * intros [= <-]. split; [exact E|]. split; [lia|lia].
      * intros (_ & _ & N). destruct i; [reflexivity|]. specialize (N 0%nat ltac:(lia)).
        change (HasPrefix (String a s) p = false) in N. congruence.
    + destruct i as [|i].
      * split; [destruct (Index s p); discriminate|]. intros (P & _). change (HasPrefix (String a s) p = true) in P. congruence.
      * specialize (IH i). split.
        -- destruct (Index s p) as [k|]; [|discriminate]. intros [= ->]. destruct (proj1 IH eq_refl) as (P & L & N).
           split; [exact P|]. split; [cbn; lia|]. intros [|j] Hj; [exact E|]. apply N. lia.
        -- intros (P & L & N). cbn in L. rewrite (proj2 IH); [reflexivity|].
           split; [exact P|]. split; [lia|]. intros j Hj. apply (N (S j)). lia.
Qed.
Lemma Index_none s p : Index s p = None <-> forall j, (j <= String.length s)%nat -> HasPrefix (str_drop j s) p = false.
Proof.
  induction s as [|a s IH].
  - rewrite Index_nil_l. split.
    + intros E j Hj. cbn in Hj. destruct j; [|lia]. destruct p; [discriminate E|reflexivity].
    + intros N. destruct p; [exact (False_ind _ ltac:(specialize (N 0%nat ltac:(cbn; lia)); discriminate N))|reflexivity].
  - rewrite Index_cons. destruct (HasPrefix (String a s) p) eqn:E.
    + split; [discriminate|]. intros N. specialize (N 0%nat ltac:(lia)).
      change (HasPrefix (String a s) p = false) in N. congruence.
    + split.
      * intros F [|j] Hj; [exact E|]. cbn in *. apply IH; [|lia]. destruct (Index s p); [discriminate F|reflexivity].
      * intros N. rewrite (proj2 IH); [reflexivity|]. intros j Hj. apply (N (S j)). cbn. lia.
Qed.
Lemma Index_fits s p i : Index s p = Some i -> (i + String.length p <= String.length s)%nat.
Proof.
  rewrite Index_some. intros (P & L & _). apply HasPrefix_length in P. rewrite str_length_drop in P. lia.
Qed.
Lemma Index_app_some s p t i : Index s p = Some i -> Index (s +:+ t) p = Some i.
Proof.
  intros E. pose proof (Index_fits _ _ _ E) as F. apply Index_some in E as (P & L & N). apply Index_some.
  split; [rewrite str_drop_app_le by lia; apply HasPrefix_app, P|]. split; [rewrite str_length_app; lia|].
  intros j Hj. apply not_true_is_false. intros Q. rewrite str_drop_app_le in Q by lia.
  apply HasPrefix_app_inv in Q; [rewrite (N j Hj) in Q; discriminate Q|]. rewrite str_length_drop. lia.
Qed.
(** An occurrence the text added reaches into it. *)
Lemma Index_app_none s p t i : Index s p = None -> Index (s +:+ t) p = Some i ->
  (String.length s < i + String.length p)%nat.
Proof.
  intros E F. apply Index_some in F as (P & _ & _). destruct (le_lt_dec (i + String.length p) (String.length s)) as [L|L]; [|exact L].
  exfalso. rewrite str_drop_app_le in P by lia. apply HasPrefix_app_inv in P; [|rewrite str_length_drop; lia].
  rewrite (proj1 (Index_none _ _) E) in P by lia. discriminate P.
Qed.

(** ** Bytes *)

Fixpoint str_nth (n : nat) (s : string) : option ascii :=
  match n, s with
  | O, String a _ => Some a
  | S n', String _ s' => str_nth n' s'
  | _, EmptyString => None
  end.
Lemma HasPrefix_nth s p i : HasPrefix s p = true -> (i < String.length p)%nat -> str_nth i s = str_nth i p.
Proof.
  rewrite HasPrefix_spec. intros [r ->]. revert i; induction p as [|a p IH]; intros i L; cbn in L; [lia|].
  rewrite str_app_cons. destruct i; cbn; [reflexivity|]. apply IH. lia.
Qed.
Lemma str_nth_drop i n (s : string) : str_nth i (str_drop n s) = str_nth (n + i) s.
Proof. revert s; induction n as [|n IH]; intros [|a s]; cbn; auto. destruct i; reflexivity. Qed.

(** ** Suffixes *)

Lemma HasSuffix_app s t p : (String.length p <= String.length t)%nat -> HasSuffix (s +:+ t) p = HasSuffix t p.
Proof.
  intros L. unfold HasSuffix. rewrite str_length_app, (proj2 (Nat.leb_le _ _)), (proj2 (Nat.leb_le _ _)) by lia.
  replace (String.length s + String.length t - String.length p)%nat
    with (String.length s + (String.length t - String.length p))%nat by lia.
  rewrite <- str_drop_drop, str_drop_app. reflexivity.
Qed.
Lemma TrimSuffix_app s t p : (String.length p <= String.length t)%nat -> TrimSuffix (s +:+ t) p = s +:+ TrimSuffix t p.
Proof.
  intros L. unfold TrimSuffix. rewrite HasSuffix_app by exact L. destruct (HasSuffix t p); [|reflexivity].
  rewrite str_length_app. replace (String.length s + String.length t - String.length p)%nat
    with (String.length s + (String.length t - String.length p))%nat by lia.
  generalize (String.length t - String.length p)%nat as n. intros n. induction s as [|a s IH]; [reflexivity|].
  rewrite !str_app_cons. cbn [String.length Nat.add str_take]. f_equal. exact IH.
Qed.
Lemma str_take_app_ge n (s t : string) : str_take (String.length s + n) (s +:+ t) = s +:+ str_take n t.
Proof. induction s as [|a s IH]; [reflexivity|]. rewrite !str_app_cons. cbn. f_equal. exact IH. Qed.

(** ** The order of bytes, as [sort.Strings] has it *)

Definition str_le (a b : string) : Prop := String.leb a b = true.
#[export] Instance str_le_dec : RelDecision str_le.
Proof. intros a b. unfold str_le. apply _. Defined.
Definition sort_strings (l : list string) : list string := merge_sort str_le l.
Lemma str_le_cons a b s t : str_le (String a s) (String b t) <-> (nat_of_ascii a < nat_of_ascii b)%nat \/ (a = b /\ str_le s t).
Proof.
  unfold str_le, String.leb. cbn. unfold Ascii.compare, nat_of_ascii. destruct (N.compare_spec (N_of_ascii a) (N_of_ascii b)) as [E|L|L].
  - assert (a = b) as -> by (rewrite <- (ascii_N_embedding a), <- (ascii_N_embedding b), E; reflexivity).
    destruct (String.compare s t); intuition (try discriminate; auto); lia.
  - split; [intros _; left; lia|reflexivity].
  - split; [discriminate|]. intros [X|[-> _]]; lia.
Qed.
#[export] Instance str_le_trans : Transitive str_le.
Proof.
  intros x; induction x as [|a x IH]; intros y z A B; [destruct z; reflexivity|].
  destruct y as [|b y]; [discriminate A|]. destruct z as [|c z]; [discriminate B|]. rewrite str_le_cons in *.
  destruct A as [A|[-> A]], B as [B|[-> B]]; [left; lia|left; exact A|left; exact B|right; split; [reflexivity|exact (IH _ _ A B)]].
Qed.
#[export] Instance str_le_total : Total str_le.
Proof. intros a b. apply String.leb_total. Qed.
Lemma sort_strings_sorted l : StronglySorted str_le (sort_strings l).
Proof. apply StronglySorted_merge_sort; apply _. Qed.
Lemma sort_strings_elem l x : x ∈ sort_strings l <-> x ∈ l.
Proof. unfold sort_strings. rewrite merge_sort_Permutation. reflexivity. Qed.
