(* ===== verification/Sse.v ===== *)
(** Server-sent events: internal/sse.  Framing and parsing of events (parse.go), the JSON text the
    emitters write (json.go) and the keepalive writer (keepalive.go).  Byte slices are strings. *)

From stdpp Require Import base gmap sets list strings.
From Stdlib Require Import ZArith Lia Ascii.
From S2P Require Import Prelude Strings.
Open Scope string_scope.
Open Scope Z_scope.

(** ** Splitting a byte stream into events *)

Definition byte (n : nat) : string := String (ascii_of_nat n) EmptyString.
Definition CR : string := byte 13.
Definition LF : string := byte 10.
Definition LFLF : string := LF +:+ LF.
Definition CRLF2 : string := CR +:+ LF +:+ CR +:+ LF.

(** The event and the bytes consumed; [None] when no event is complete. *)
Definition SplitNext (buf : string) : option (string * nat) :=
  match Index buf CRLF2, Index buf LFLF with
  | Some c, None => Some (str_take c buf, (c + 4)%nat)
  | Some c, Some l => if Nat.ltb c l then Some (str_take c buf, (c + 4)%nat)
                      else Some (str_take l buf, (l + 2)%nat)
  | None, Some l => Some (str_take l buf, (l + 2)%nat)
  | None, None => None
  end.

(** The loop of the translators: all complete events of a buffer and what is left of it.  An event
    takes at least two bytes, so the length of the buffer is enough fuel. *)
Fixpoint split_fuel (fuel : nat) (buf : string) : list string * string :=
  match fuel with
  | O => ([], buf)
  | S f => match SplitNext buf with
           | None => ([], buf)
           | Some (event, n) => let '(events, rest) := split_fuel f (str_drop n buf) in (event :: events, rest)
           end
  end.
Definition split_all (buf : string) : list string * string := split_fuel (String.length buf) buf.

(** [bytes.TrimRight(line, "\r")]. *)
Fixpoint trim_cr_rev (l : list ascii) : list ascii :=
  match l with
  | a :: l' => if Ascii.eqb a (ascii_of_nat 13) then trim_cr_rev l' else l
  | [] => []
  end.
Definition TrimRightCR (s : string) : string :=
  String.string_of_list_ascii (rev (trim_cr_rev (rev (String.list_ascii_of_string s)))).

(** Event type and data of one event.  [bytes.TrimSpace] of blank text is nil, so the empty string
    stands for nil. *)
Definition parse_line (line : string) (p : string * string) : string * string :=
  let '(eventType, data) := p in
  let line := TrimRightCR line in
  match CutPrefix line "event:" with
  | Some v => (TrimSpace v, data)
  | None => if String.eqb data "" then
              match CutPrefix line "data:" with
              | Some v => (eventType, TrimSpace v)
              | None => (eventType, data)
              end
            else (eventType, data)
  end.
Fixpoint parse_fuel (fuel : nat) (remaining : string) (p : string * string) : string * string :=
  match fuel with
  | O => p
  | S f =>
      if String.eqb remaining "" then p
      else match Index remaining LF with
           | Some i => parse_fuel f (str_drop (S i) remaining) (parse_line (str_take i remaining) p)
           | None => parse_line remaining p
           end
  end.
Definition ParseEvent (event : string) : string * string := parse_fuel (S (String.length event)) event ("", "").

(** ** JSON text *)

Definition bval (a : ascii) : Z := Z.of_N (N_of_ascii a).
Definition bchr (z : Z) : ascii := ascii_of_N (Z.to_N z).
Definition RuneError : Z := 65533.
Definition between (lo hi x : Z) : bool := ((lo <=? x) && (x <=? hi))%bool.

(** The rune at the head of [String a s] and how many bytes it takes beyond the first, as a range
    over a Go string decodes it: an invalid byte is [RuneError] of width one. *)
Definition decode_rune (a : ascii) (s : string) : Z * nat :=
  let b0 := bval a in
  let tail (z : Z) := z mod 64 in
  if b0 <? 128 then (b0, 0%nat)
  else match s with
  | String a1 s1 =>
      let b1 := bval a1 in
      if between 194 223 b0 then
        if between 128 191 b1 then (b0 mod 32 * 64 + tail b1, 1%nat) else (RuneError, 0%nat)
      else match s1 with
      | String a2 s2 =>
          let b2 := bval a2 in
          if between 224 239 b0 then
            let lo := if b0 =? 224 then 160 else 128 in
            let hi := if b0 =? 237 then 159 else 191 in
            if (between lo hi b1 && between 128 191 b2)%bool
            then (b0 mod 16 * 4096 + tail b1 * 64 + tail b2, 2%nat) else (RuneError, 0%nat)
          else match s2 with
          | String a3 _ =>
              let b3 := bval a3 in
              let lo := if b0 =? 240 then 144 else 128 in
              let hi := if b0 =? 244 then 143 else 191 in
              if (between 240 244 b0 && between lo hi b1 && between 128 191 b2 && between 128 191 b3)%bool
              then (b0 mod 8 * 262144 + tail b1 * 4096 + tail b2 * 64 + tail b3, 3%nat)
              else (RuneError, 0%nat)
          | EmptyString => (RuneError, 0%nat)
          end
      | EmptyString => (RuneError, 0%nat)
      end
  | EmptyString => (RuneError, 0%nat)
  end.
Fixpoint runes_fuel (fuel : nat) (s : string) : list Z :=
  match fuel, s with
  | S f, String a s' => let '(r, n) := decode_rune a s' in r :: runes_fuel f (str_drop n s')
  | _, _ => []
  end.
(** The runes a range over [s] visits. *)
Definition runes (s : string) : list Z := runes_fuel (String.length s) s.

(** [WriteRune] of a rune below 0x110000. *)
Definition encode_rune (r : Z) : string :=
  if r <? 128 then String (bchr r) ""
  else if r <? 2048 then String (bchr (192 + r / 64)) (String (bchr (128 + r mod 64)) "")
  else if r <? 65536
  then String (bchr (224 + r / 4096)) (String (bchr (128 + r / 64 mod 64)) (String (bchr (128 + r mod 64)) ""))
  else String (bchr (240 + r / 262144)) (String (bchr (128 + r / 4096 mod 64))
         (String (bchr (128 + r / 64 mod 64)) (String (bchr (128 + r mod 64)) ""))).

Definition hex_digit (n : Z) : ascii := bchr (if n <? 10 then 48 + n else 87 + n).
Definition writeJSONUnicodeEscape (c : Z) : string :=
  String (bchr 92) (String (bchr 117)
    (String (hex_digit (Z.land (Z.shiftr c 12) 15)) (String (hex_digit (Z.land (Z.shiftr c 8) 15))
      (String (hex_digit (Z.land (Z.shiftr c 4) 15)) (String (hex_digit (Z.land c 15)) ""))))).
Definition json_rune (c : Z) : string :=
  if c =? 34 then String (bchr 92) (String (bchr 34) "")
  else if c =? 92 then String (bchr 92) (String (bchr 92) "")
  else if ((c <? 32) || (c =? 8232) || (c =? 8233))%bool then writeJSONUnicodeEscape c
  else encode_rune c.
Definition json_body (l : list Z) : string := String.concat "" (json_rune <$> l).
Definition WriteJSONString (s : string) : string := String (bchr 34) (json_body (runes s) +:+ String (bchr 34) "").

(** [strconv.AppendInt(n, 10)]. *)
Fixpoint decimal_fuel (fuel : nat) (n : Z) (acc : string) : string :=
  match fuel with
  | O => acc
  | S f => let acc := String (bchr (48 + n mod 10)) acc in
           if n <? 10 then acc else decimal_fuel f (n / 10) acc
  end.
Definition WriteJSONInt (n : Z) : string :=
  if n <? 0 then "-" +:+ decimal_fuel 20 (- n) "" else decimal_fuel 20 n "".

(** A reader of JSON strings (RFC 8259), for the escapes writers produce: \u has lower-case digits, and a surrogate
    pair is not joined. *)
Definition short_escape (e : Z) : option Z :=
  if ((e =? 34) || (e =? 92) || (e =? 47))%bool then Some e
  else if e =? 98 then Some 8
  else if e =? 102 then Some 12
  else if e =? 110 then Some 10
  else if e =? 114 then Some 13
  else if e =? 116 then Some 9
  else None.
Definition hex_val (a : ascii) : option Z :=
  let b := bval a in
  if between 48 57 b then Some (b - 48) else if between 97 102 b then Some (b - 87) else None.
Fixpoint read_json_fuel (fuel : nat) (s : string) : option (string * string) :=
  match fuel with
  | O => None
  | S f =>
      match s with
      | EmptyString => None
      | String a s' =>
          if bval a =? 34 then Some ("", s')
          else if bval a =? 92 then
            match s' with
            | String e s2 =>
                match short_escape (bval e) with
                | Some c => (fun p => (String (bchr c) p.1, p.2)) <$> read_json_fuel f s2
                | None =>
                    if bval e =? 117 then
                      match s2 with
                      | String h3 (String h2 (String h1 (String h0 s3))) =>
                          match hex_val h3, hex_val h2, hex_val h1, hex_val h0 with
                          | Some d3, Some d2, Some d1, Some d0 =>
                              (fun p => (encode_rune (d3 * 4096 + d2 * 256 + d1 * 16 + d0) +:+ p.1, p.2))
                                <$> read_json_fuel f s3
                          | _, _, _, _ => None
                          end
                      | _ => None
                      end
                    else None
                end
            | EmptyString => None
            end
          else if bval a <? 32 then None
          else (fun p => (String a p.1, p.2)) <$> read_json_fuel f s'
      end
  end.
(** The string a JSON text starts with, and the text after it. *)
Definition read_json_string (s : string) : option (string * string) :=
  match s with
  | String a s' => if bval a =? 34 then read_json_fuel (String.length s) s' else None
  | EmptyString => None
  end.

(** ** The keepalive writer *)

Definition maxRecordSepLen : nat := 4.
Definition trimLineEnd (b : string) : option string :=
  if HasSuffix b LF then Some (TrimSuffix (str_take (String.length b - 1) b) CR) else None.
Definition endsOnBlankLine (b : string) : bool :=
  match trimLineEnd b with
  | None => false
  | Some rest => match trimLineEnd rest with Some _ => true | None => false end
  end.
Definition str_last (n : nat) (s : string) : string := str_drop (String.length s - n) s.

Module Keepalive.
(** What the client has been sent, in order: upstream bytes and keepalive frames. *)
Inductive Sent := Upstream (p : string) | Frame.
Record t := mk { last : Z; tail : string; armed : bool; stopped : bool; closed : bool; sent : list Sent }.
Definition init : t := mk 0 "" false false false [].

Section Writer.
Variable frame : string.
Variable interval : Z.

Definition noteWritten (p : string) (tl : string) : string :=
  if Nat.leb maxRecordSepLen (String.length p) then str_last maxRecordSepLen p
  else let tl := tl +:+ p in
       if Nat.ltb maxRecordSepLen (String.length tl) then str_last maxRecordSepLen tl else tl.
(** [n] of the bytes reach the client. *)
Definition Write (now : Z) (p : string) (n : nat) (k : t) : t :=
  let q := str_take n p in
  {| last := now; tail := noteWritten q k.(tail);
     armed := (k.(armed) || (negb k.(stopped) && (0 <? interval)))%bool;
     stopped := k.(stopped); closed := k.(closed); sent := (k.(sent) ++ [Upstream q])%list |}.
Definition Close (k : t) : t :=
  if k.(closed) then k
  else {| last := k.(last); tail := k.(tail); armed := k.(armed); stopped := true; closed := true; sent := k.(sent) |}.
(** One tick of the loop; [ok] says whether the write of the frame succeeds.  The boolean is
    whether the loop goes on. *)
Definition emitIfSilent (now : Z) (ok : bool) (k : t) : t * bool :=
  if k.(stopped) then (k, false)
  else if (negb (endsOnBlankLine k.(tail)) || (Sub now k.(last) <? interval))%bool then (k, true)
  else if negb ok then ({| last := k.(last); tail := k.(tail); armed := k.(armed); stopped := true;
                           closed := k.(closed); sent := k.(sent) |}, false)
  else ({| last := now; tail := noteWritten frame k.(tail); armed := k.(armed); stopped := k.(stopped);
           closed := k.(closed); sent := (k.(sent) ++ [Frame])%list |}, true).

(** The writer's lock makes each call one step; the loop runs only once armed. *)
Inductive step : t -> t -> Prop :=
| step_write now p n k : step k (Write now p n k)
| step_tick now ok k : k.(armed) = true -> step k (emitIfSilent now ok k).1
| step_close k : step k (Close k).

Definition bytes_of (s : Sent) : string := match s with Upstream p => p | Frame => frame end.
Definition stream (l : list Sent) : string := String.concat "" (bytes_of <$> l).
End Writer.
End Keepalive.

(** * Facts *)

(** ** Framing does not depend on how the stream is cut *)

Ltac sep_lens := change (String.length CRLF2) with 4%nat in *; change (String.length LFLF) with 2%nat in *.

Lemma nth_CRLF2 s c j : HasPrefix (str_drop c s) CRLF2 = true -> (j < 4)%nat -> str_nth (c + j) s = str_nth j CRLF2.
Proof. intros P L. rewrite <- str_nth_drop. apply (HasPrefix_nth _ _ _ P). exact L. Qed.
Lemma nth_LFLF s l j : HasPrefix (str_drop l s) LFLF = true -> (j < 2)%nat -> str_nth (l + j) s = str_nth j LFLF.
Proof. intros P L. rewrite <- str_nth_drop. apply (HasPrefix_nth _ _ _ P). exact L. Qed.
(** The two separators do not begin within a byte of each other. *)
Lemma separators_apart s c l : HasPrefix (str_drop c s) CRLF2 = true -> HasPrefix (str_drop l s) LFLF = true ->
  (c + 2 < l \/ l < c)%nat.
Proof.
  intros C L. destruct (le_lt_dec l (c + 2)) as [H1|]; [|auto]. destruct (le_lt_dec c l) as [H2|]; [|auto]. exfalso.
  assert (Hl : l = c \/ l = (c + 1)%nat \/ l = (c + 2)%nat) by lia.
  destruct Hl as [ -> | [ -> | -> ] ].
  - pose proof (nth_CRLF2 _ _ 0 C ltac:(lia)) as E1. pose proof (nth_LFLF _ _ 0 L ltac:(lia)) as E2.
    rewrite E1 in E2. discriminate E2.
  - pose proof (nth_CRLF2 _ _ 2 C ltac:(lia)) as E1. pose proof (nth_LFLF _ _ 1 L ltac:(lia)) as E2.
    replace (c + 1 + 1)%nat with (c + 2)%nat in E2 by lia. rewrite E1 in E2. discriminate E2.
  - pose proof (nth_CRLF2 _ _ 2 C ltac:(lia)) as E1. pose proof (nth_LFLF _ _ 0 L ltac:(lia)) as E2.
    rewrite Nat.add_0_r in E2. rewrite E1 in E2. discriminate E2.
Qed.

Lemma SplitNext_bounds buf ev n : SplitNext buf = Some (ev, n) -> (2 <= n <= String.length buf)%nat.
Proof.
  unfold SplitNext. destruct (Index buf CRLF2) as [c|] eqn:C; destruct (Index buf LFLF) as [l|] eqn:L;
    try destruct (Nat.ltb c l); intros [= <- <-];
    repeat match goal with X : Index _ _ = Some _ |- _ => apply Index_fits in X end; sep_lens; lia.
Qed.
(** An event that is complete stays the next one when bytes arrive. *)
Lemma SplitNext_app buf t ev n : SplitNext buf = Some (ev, n) -> SplitNext (buf +:+ t) = Some (ev, n).
Proof.
  unfold SplitNext.
  destruct (Index buf CRLF2) as [c|] eqn:C; destruct (Index buf LFLF) as [l|] eqn:L.
  - rewrite (Index_app_some _ _ t _ C), (Index_app_some _ _ t _ L). apply Index_fits in C, L. sep_lens.
    rewrite !str_take_app_le by lia. exact (fun E => E).
  - rewrite (Index_app_some _ _ t _ C). apply Index_fits in C. sep_lens.
    destruct (Index (buf +:+ t) LFLF) as [l|] eqn:L'.
    + apply (Index_app_none _ _ _ _ L) in L'. sep_lens. rewrite (proj2 (Nat.ltb_lt c l)) by lia.
      rewrite str_take_app_le by lia. exact (fun E => E).
    + rewrite str_take_app_le by lia. exact (fun E => E).
  - rewrite (Index_app_some _ _ t _ L). pose proof (Index_fits _ _ _ L) as Fl. sep_lens.
    destruct (Index (buf +:+ t) CRLF2) as [c|] eqn:C'.
    + pose proof (Index_app_none _ _ _ _ C C') as R. sep_lens.
      assert (A : (c + 2 < l \/ l < c)%nat).
      { apply (separators_apart (buf +:+ t)); [exact (proj1 (proj1 (Index_some _ _ _) C'))|].
        exact (proj1 (proj1 (Index_some _ _ _) (Index_app_some _ _ t _ L))). }
      rewrite (proj2 (Nat.ltb_ge c l)) by lia. rewrite str_take_app_le by lia. exact (fun E => E).
    + rewrite str_take_app_le by lia. exact (fun E => E).
  - discriminate.
Qed.

Lemma split_fuel_enough f g buf : (String.length buf <= f)%nat -> (String.length buf <= g)%nat ->
  split_fuel f buf = split_fuel g buf.
Proof.
  revert g buf; induction f as [|f IH]; intros g buf Lf Lg.
  - assert (buf = "") as -> by (apply str_length_0; lia). destruct g; reflexivity.
  - destruct g as [|g].
    + assert (buf = "") as -> by (apply str_length_0; lia). reflexivity.
    + cbn [split_fuel]. destruct (SplitNext buf) as [[ev n]|] eqn:E; [|reflexivity].
      pose proof (SplitNext_bounds _ _ _ E). rewrite (IH g); [reflexivity|rewrite str_length_drop; lia..].
Qed.
Lemma split_all_step buf : split_all buf =
  match SplitNext buf with
  | None => ([], buf)
  | Some (ev, n) => let '(events, rest) := split_all (str_drop n buf) in (ev :: events, rest)
  end.
Proof.
  unfold split_all at 1. destruct (String.length buf) as [|f] eqn:Lb.
  - apply str_length_0 in Lb as ->. reflexivity.
  - cbn [split_fuel]. destruct (SplitNext buf) as [[ev n]|] eqn:E; [|reflexivity].
    pose proof (SplitNext_bounds _ _ _ E). unfold split_all.
    rewrite (split_fuel_enough f (String.length (str_drop n buf))); [reflexivity|rewrite str_length_drop; lia..].
Qed.
Lemma str_len_ind (P : string -> Prop) :
  (forall s, (forall t, (String.length t < String.length s)%nat -> P t) -> P s) -> forall s, P s.
Proof.
  intros H s. assert (G : forall n s, (String.length s < n)%nat -> P s).
  { induction n as [|n IH]; intros t L; [lia|]. apply H. intros u Hu. apply IH. lia. }
  exact (G _ _ (Nat.lt_succ_diag_r _)).
Qed.

Lemma split_all_app (a b : string) :
  split_all (a +:+ b) =
  let '(ea, ra) := split_all a in let '(eb, rb) := split_all (ra +:+ b) in ((ea ++ eb)%list, rb).
Proof.
  induction a as [a IH] using str_len_ind. rewrite (split_all_step a).
  destruct (SplitNext a) as [[ev n]|] eqn:E; [|destruct (split_all (a +:+ b)); reflexivity].
  rewrite (split_all_step (a +:+ b)), (SplitNext_app _ _ _ _ E). pose proof (SplitNext_bounds _ _ _ E).
  rewrite str_drop_app_le, (IH (str_drop n a)) by (rewrite ?str_length_drop; lia).
  destruct (split_all (str_drop n a)) as [ea ra]. destruct (split_all (ra +:+ b)). reflexivity.
Qed.
(** What is left holds no complete event. *)
Lemma split_all_rest a : split_all (split_all a).2 = ([], (split_all a).2).
Proof.
  pose proof (split_all_app a "") as E. rewrite str_app_nil_r in E. destruct (split_all a) as [ea ra].
  rewrite str_app_nil_r in E. cbn [snd]. destruct (split_all ra) as [eb rb]. injection E as E ->. f_equal.
  destruct eb; [reflexivity|]. apply (f_equal length) in E. rewrite length_app in E. cbn in E. lia.
Qed.

(** Reading a stream chunk by chunk: the events so far and what is left of the buffer. *)
Definition read_chunk (p : list string * string) (chunk : string) : list string * string :=
  let '(events, rest) := split_all (p.2 +:+ chunk) in ((p.1 ++ events)%list, rest).
(** The events a translator reads do not depend on how the network cut the stream: reading it chunk
    by chunk, each time with what was left of the buffer, gives the events and the rest of the whole, whichever
    of the two separators the upstream uses and wherever the cuts fall. *)
Lemma framing_chunk_invariant (chunks : list string) :
  fold_left read_chunk chunks ([], "") = split_all (String.concat "" chunks).
Proof.
  assert (G : forall events rest, split_all rest = ([], rest) -> fold_left read_chunk chunks (events, rest) =
    let '(ev, r) := split_all (rest +:+ String.concat "" chunks) in ((events ++ ev)%list, r)).
  { induction chunks as [|c chunks IH]; intros events rest R.
    - cbn. rewrite str_app_nil_r, R, app_nil_r. reflexivity.
    - cbn [fold_left]. unfold read_chunk at 2. cbn [fst snd]. rewrite concat_cons, <- str_app_assoc, (split_all_app (rest +:+ c)).
      pose proof (split_all_rest (rest +:+ c)) as R'. destruct (split_all (rest +:+ c)) as [ec rc]. cbn [snd] in R'.
      rewrite (IH _ _ R'). destruct (split_all (rc +:+ _)) as [eb rb]. rewrite app_assoc. reflexivity. }
  rewrite (G [] "" eq_refl). change ("" +:+ String.concat "" chunks) with (String.concat "" chunks).
  destruct (split_all (String.concat "" chunks)). reflexivity.
Qed.

(** ** The JSON strings the emitters write *)

Lemma bval_bounds a : 0 <= bval a < 256.
Proof. unfold bval. pose proof (N_ascii_bounded a). lia. Qed.
Lemma bval_bchr z : 0 <= z < 256 -> bval (bchr z) = z.
Proof. intros L. unfold bval, bchr. rewrite N_ascii_embedding by lia. lia. Qed.
Lemma hex_val_digit n : 0 <= n < 16 -> hex_val (hex_digit n) = Some n.
Proof.
  intros L. assert (F : Forall (fun z => hex_val (hex_digit z) = Some z) (seqZ 0 16)) by (vm_compute; repeat constructor).
  rewrite Forall_forall in F. apply F, elem_of_seqZ. lia.
Qed.
Lemma nibbles c : 0 <= c < 65536 ->
  Z.land (Z.shiftr c 12) 15 * 4096 + Z.land (Z.shiftr c 8) 15 * 256 + Z.land (Z.shiftr c 4) 15 * 16 + Z.land c 15 = c.
Proof.
  intros L. change 15 with (Z.ones 4). rewrite !Z.land_ones, !Z.shiftr_div_pow2 by lia.
  change (2 ^ 4) with 16. change (2 ^ 8) with 256. change (2 ^ 12) with 4096. Z.to_euclidean_division_equations. lia.
Qed.
Lemma nibble_bounds z : 0 <= Z.land z 15 < 16.
Proof. change 15 with (Z.ones 4). rewrite Z.land_ones by lia. apply Z.mod_pos_bound. lia. Qed.

Definition rune_range (r : Z) : Prop := 0 <= r < 1114112.
Lemma decode_rune_range a s : rune_range (decode_rune a s).1.
Proof.
  pose proof (bval_bounds a) as Ba. unfold decode_rune, rune_range, RuneError, between.
  destruct (Z.ltb_spec (bval a) 128); [cbn; lia|].
  destruct s as [|a1 s]; [cbn; lia|]. pose proof (bval_bounds a1) as B1.
  destruct (_ && _)%bool; [destruct (_ && _)%bool; cbn [fst]; [|lia]; Z.to_euclidean_division_equations; lia|].
  destruct s as [|a2 s]; [cbn; lia|]. pose proof (bval_bounds a2) as B2.
  destruct (_ && _)%bool; [destruct (_ && _ && _)%bool; cbn [fst]; [|lia]; Z.to_euclidean_division_equations; lia|].
  destruct s as [|a3 s]; [cbn; lia|]. pose proof (bval_bounds a3) as B3.
  match goal with |- context [if ?b then (_, 3%nat) else _] => destruct b eqn:E end; cbn [fst]; [|lia].
  bool_hyps. repeat match goal with X : (_ <=? _) = true |- _ => apply Z.leb_le in X end.
  destruct (Z.eqb_spec (bval a) 244) as [E4|N4].
  - rewrite E4 in *. repeat match goal with X : context [244 =? ?n] |- _ => change (244 =? n) with false in X end.
    cbn beta iota in *. Z.to_euclidean_division_equations. lia.
  - assert (bval a < 244) by lia. Z.to_euclidean_division_equations. lia.
Qed.
Lemma runes_range s : Forall rune_range (runes s).
Proof.
  unfold runes. generalize (String.length s) as f. intros f. revert s; induction f as [|f IH]; intros [|a s]; try constructor.
  cbn [runes_fuel]. pose proof (decode_rune_range a s) as R. destruct (decode_rune a s) as [r n]. constructor; [exact R|apply IH].
Qed.

(** A byte the reader takes as it is. *)
Definition plain_byte (a : ascii) : bool := ((32 <=? bval a) && negb (bval a =? 34) && negb (bval a =? 92))%bool.
Lemma encode_plain r : rune_range r -> 32 <= r -> r <> 34 -> r <> 92 -> all_bytes plain_byte (encode_rune r) = true.
Proof.
  intros R L N1 N2. unfold rune_range in R. unfold encode_rune, plain_byte.
  destruct (Z.ltb_spec r 128); [|destruct (Z.ltb_spec r 2048); [|destruct (Z.ltb_spec r 65536)]];
    cbn [all_bytes]; rewrite !bval_bchr by (Z.to_euclidean_division_equations; lia);
    repeat (apply andb_true_intro; split); try reflexivity;
    try apply Z.leb_le; try (apply negb_true_iff, Z.eqb_neq); Z.to_euclidean_division_equations; lia.
Qed.
Lemma read_plain p t f : all_bytes plain_byte p = true ->
  read_json_fuel (String.length p + f) (p +:+ t) = (fun q => (p +:+ q.1, q.2)) <$> read_json_fuel f t.
Proof.
  induction p as [|a p IH]; intros P; cbn [String.length Nat.add].
  { change ("" +:+ t) with t. destruct (read_json_fuel f t) as [[x y]|]; reflexivity. }
  cbn [all_bytes] in P. apply andb_prop in P as [Pa P]. unfold plain_byte in Pa.
  apply andb_prop in Pa as [Pa N2]. apply andb_prop in Pa as [L N1]. apply Z.leb_le in L.
  rewrite str_app_cons. cbn [read_json_fuel]. apply negb_true_iff in N1, N2.
  rewrite N1, N2, (proj2 (Z.ltb_ge _ _)), IH by (assumption || lia).
  destruct (read_json_fuel f t) as [[x y]|]; reflexivity.
Qed.

Lemma all_bytes_app p s t : all_bytes p s = true -> all_bytes p t = true -> all_bytes p (s +:+ t) = true.
Proof.
  intros A B. induction s as [|a s IH]; [exact B|]. rewrite str_app_cons. cbn [all_bytes] in *. apply andb_prop in A as [Aa A]. rewrite Aa. exact (IH A).
Qed.
Lemma all_bytes_impl (p q : ascii -> bool) s : (forall a, p a = true -> q a = true) -> all_bytes p s = true -> all_bytes q s = true.
Proof.
  intros I A. induction s as [|a s IH]; [reflexivity|]. cbn in *. apply andb_prop in A as [Aa A].
  rewrite (I _ Aa). exact (IH A).
Qed.
Lemma hex_digit_printable n : 0 <= n < 16 -> (32 <=? bval (hex_digit n)) = true.
Proof.
  intros L. unfold hex_digit. apply Z.leb_le. destruct (Z.ltb_spec n 10); rewrite bval_bchr; lia.
Qed.
Lemma json_rune_printable r : rune_range r -> all_bytes (fun a => 32 <=? bval a) (json_rune r) = true.
Proof.
  intros R. unfold json_rune. destruct (Z.eqb_spec r 34) as [->|N1]; [reflexivity|].
  destruct (Z.eqb_spec r 92) as [->|N2]; [reflexivity|]. destruct (_ || _ || _)%bool eqn:E.
  - unfold writeJSONUnicodeEscape. cbn [all_bytes]. rewrite !hex_digit_printable by apply nibble_bounds. reflexivity.
  - apply orb_false_iff in E as [E _]. apply orb_false_iff in E as [E _]. apply Z.ltb_ge in E.
    apply (all_bytes_impl plain_byte); [|apply encode_plain; assumption].
    intros a P. unfold plain_byte in P. apply andb_prop in P as [P _]. apply andb_prop in P as [P _]. exact P.
Qed.

(** What a range over [s] decodes, encoded again: [s] itself when it is valid UTF-8. *)
Definition to_valid (s : string) : string := String.concat "" (encode_rune <$> runes s).

(** The text [w] of a JSON string stands for [p]: reading it takes it off the stream. *)
Definition readable (w p : string) : Prop := forall t f, exists k, (k <= String.length w)%nat /\
  read_json_fuel (k + f) (w +:+ t) = (fun q => (p +:+ q.1, q.2)) <$> read_json_fuel f t.
Lemma readable_plain p : all_bytes plain_byte p = true -> readable p p.
Proof. intros P t f. exists (String.length p). split; [lia|]. apply read_plain, P. Qed.
Lemma readable_short e c : short_escape e = Some c -> 0 <= e < 256 ->
  readable (String (bchr 92) (String (bchr e) "")) (String (bchr c) "").
Proof.
  intros E B t f. exists 1%nat. split; [cbn; lia|]. cbn [Nat.add]. rewrite !str_app_cons. cbn [read_json_fuel].
  change (bval (bchr 92) =? 34) with false. change (bval (bchr 92) =? 92) with true. cbn beta iota. rewrite (bval_bchr e B), E. reflexivity.
Qed.
Lemma readable_unicode c : 0 <= c < 65536 -> readable (writeJSONUnicodeEscape c) (encode_rune c).
Proof.
  intros L t f. exists 1%nat. split; [cbn; lia|]. unfold writeJSONUnicodeEscape. rewrite !str_app_cons. cbn [Nat.add read_json_fuel].
  change (bval (bchr 92) =? 34) with false. change (bval (bchr 92) =? 92) with true.
  change (short_escape (bval (bchr 117))) with (@None Z). change (bval (bchr 117) =? 117) with true. cbn beta iota.
  change ("" +:+ t) with t. rewrite !hex_val_digit by apply nibble_bounds. rewrite nibbles by exact L. reflexivity.
Qed.
Lemma readable_rune r : rune_range r -> readable (json_rune r) (encode_rune r).
Proof.
  intros R. unfold json_rune. destruct (Z.eqb_spec r 34) as [->|N1]; [apply (readable_short 34 34); [reflexivity|lia]|].
  destruct (Z.eqb_spec r 92) as [->|N2]; [apply (readable_short 92 92); [reflexivity|lia]|].
  destruct ((r <? 32) || (r =? 8232) || (r =? 8233))%bool eqn:E.
  - apply readable_unicode. unfold rune_range in R. apply orb_prop in E as [E|E]; [apply orb_prop in E as [E|E]|]; lia.
  - apply orb_false_iff in E as [E _]. apply orb_false_iff in E as [E _]. apply Z.ltb_ge in E.
    apply readable_plain, encode_plain; assumption.
Qed.
Lemma read_mono f s x g : read_json_fuel f s = Some x -> (f <= g)%nat -> read_json_fuel g s = Some x.
Proof.
  revert s x g; induction f as [|f IH]; intros s x g E L; [discriminate E|]. destruct g as [|g]; [lia|].
  assert (M : forall (h : string * string -> string * string) u y, h <$> read_json_fuel f u = Some y ->
                h <$> read_json_fuel g u = Some y).
  { intros h u y. destruct (read_json_fuel f u) as [z|] eqn:Ez; [|discriminate].
    rewrite (IH u z g Ez) by lia. exact (fun H => H). }
  cbn [read_json_fuel] in *. destruct s as [|a s]; [exact E|].
  destruct (bval a =? 34); [exact E|]. destruct (bval a =? 92); [|destruct (bval a <? 32); [exact E|auto]].
  destruct s as [|e s]; [exact E|]. destruct (short_escape _); [auto|]. destruct (bval e =? 117); [|exact E].
  repeat (destruct s as [|? s]; [exact E|]).
  destruct (hex_val _); [|exact E]. destruct (hex_val _); [|exact E]. destruct (hex_val _); [|exact E].
  destruct (hex_val _); [auto|exact E].
Qed.
Lemma read_body ws ps t : Forall2 readable ws ps -> exists k, (k <= String.length (String.concat "" ws) + 1)%nat /\
  read_json_fuel k (String.concat "" ws +:+ String (bchr 34) t) = Some (String.concat "" ps, t).
Proof.
  induction 1 as [|w p ws ps R _ IH].
  - exists 1%nat. split; [cbn; lia|reflexivity].
  - destruct IH as (k & Lk & E). rewrite !concat_cons, str_app_assoc.
    destruct (R (String.concat "" ws +:+ String (bchr 34) t) k) as (j & Lj & Er).
    exists (j + k)%nat. split; [rewrite str_length_app; lia|]. rewrite Er, E. reflexivity.
Qed.
(** A string in quotes is read back, whatever follows. *)
Lemma read_quoted ws ps rest : Forall2 readable ws ps ->
  read_json_string (String (bchr 34) (String.concat "" ws +:+ String (bchr 34) "") +:+ rest) = Some (String.concat "" ps, rest).
Proof.
  intros F. unfold read_json_string. rewrite str_app_cons, str_app_assoc.
  change (String (bchr 34) "" +:+ rest) with (String (bchr 34) rest).
  change (bval (bchr 34) =? 34) with true. cbn beta iota.
  destruct (read_body ws ps rest F) as (k & L & E). apply (read_mono k); [exact E|].
  cbn [String.length]. rewrite str_length_app. lia.
Qed.
Lemma runes_readable (enc : Z -> string) l : Forall rune_range l -> (forall r, rune_range r -> readable (enc r) (encode_rune r)) ->
  Forall2 readable (enc <$> l) (encode_rune <$> l).
Proof. intros R E. induction R as [|r l R _ IH]; constructor; auto. Qed.

(** A JSON reader gives back the string an emitter wrote, whatever follows it in the event, with
    invalid UTF-8 replaced as a Go string range replaces it; and the text holds no control byte, so it
    never breaks the line of an event. *)
Lemma json_string_roundtrip (s rest : string) :
  read_json_string (WriteJSONString s +:+ rest) = Some (to_valid s, rest) /\
  all_bytes (fun a => 32 <=? bval a) (WriteJSONString s) = true.
Proof.
  split.
  - apply read_quoted, runes_readable; [apply runes_range|exact readable_rune].
  - unfold WriteJSONString. cbn [all_bytes]. apply all_bytes_app; [|reflexivity].
    unfold json_body. pose proof (runes_range s) as R. induction R as [|r l R _ IH]; [reflexivity|].
    rewrite fmap_cons, concat_cons. apply all_bytes_app; [apply json_rune_printable, R|exact IH].
Qed.

(** ** The keepalive writer *)

Lemma str_last_short n s : (String.length s <= n)%nat -> str_last n s = s.
Proof. intros L. unfold str_last. replace (String.length s - n)%nat with 0%nat by lia. destruct s; reflexivity. Qed.
Lemma str_last_app n s p : (n <= String.length p)%nat -> str_last n (s +:+ p) = str_last n p.
Proof.
  intros L. unfold str_last. rewrite str_length_app.
  replace (String.length s + String.length p - n)%nat with (String.length s + (String.length p - n))%nat by lia.
  rewrite <- str_drop_drop, str_drop_app. reflexivity.
Qed.
Lemma str_last_last n s p : str_last n (str_last n s +:+ p) = str_last n (s +:+ p).
Proof.
  unfold str_last at 2. destruct (le_lt_dec (String.length s) n) as [L|L].
  { replace (String.length s - n)%nat with 0%nat by lia. destruct s; reflexivity. }
  rewrite <- (str_take_drop (String.length s - n) s) at 3. rewrite str_app_assoc.
  symmetry. apply str_last_app. rewrite str_length_app, str_length_drop. lia.
Qed.
Lemma trimLineEnd_app x y : (2 <= String.length y)%nat -> trimLineEnd (x +:+ y) = (fun r => x +:+ r) <$> trimLineEnd y.
Proof.
  intros L. unfold trimLineEnd. rewrite HasSuffix_app by (cbn; lia). destruct (HasSuffix y LF); [|reflexivity]. cbn.
  f_equal. rewrite str_length_app.
  replace (String.length x + String.length y - 1)%nat with (String.length x + (String.length y - 1))%nat by lia.
  rewrite str_take_app_ge, TrimSuffix_app; [reflexivity|]. rewrite str_length_take. cbn. lia.
Qed.
Lemma trimLineEnd_length y r : trimLineEnd y = Some r -> (String.length y <= String.length r + 2)%nat.
Proof.
  unfold trimLineEnd. destruct (HasSuffix y LF); [|discriminate]. intros [= <-]. unfold TrimSuffix.
  destruct (HasSuffix _ CR); rewrite ?str_length_take; cbn; lia.
Qed.
(** The last four bytes decide whether a stream is at a record boundary. *)
Lemma blank_line_last b : endsOnBlankLine (str_last maxRecordSepLen b) = endsOnBlankLine b.
Proof.
  destruct (le_lt_dec (String.length b) 4) as [L|L]; [rewrite str_last_short by exact L; reflexivity|].
  rewrite <- (str_take_drop (String.length b - 4) b) at 2. change (str_last maxRecordSepLen b) with (str_drop (String.length b - 4) b).
  assert (Ly : String.length (str_drop (String.length b - 4) b) = 4%nat) by (rewrite str_length_drop; lia).
  revert Ly. generalize (str_drop (String.length b - 4) b) as y, (str_take (String.length b - 4) b) as x. intros y x Ly.
  unfold endsOnBlankLine. rewrite trimLineEnd_app by lia. destruct (trimLineEnd y) as [r|] eqn:E; [|reflexivity].
  cbn [fmap option_fmap option_map]. apply trimLineEnd_length in E. rewrite trimLineEnd_app by lia.
  destruct (trimLineEnd r); reflexivity.
Qed.

Module KeepaliveFacts.
Import Keepalive.
Section Facts.
Variable frame : string.
Variable interval : Z.

Lemma noteWritten_last s p : noteWritten p (str_last maxRecordSepLen s) = str_last maxRecordSepLen (s +:+ p).
Proof.
  unfold noteWritten. destruct (Nat.leb_spec maxRecordSepLen (String.length p)) as [L|L].
  - symmetry. apply str_last_app, L.
  - rewrite <- (str_last_last maxRecordSepLen s p). generalize (str_last maxRecordSepLen s) as q. intros q. destruct (Nat.ltb_spec maxRecordSepLen (String.length (q +:+ p))) as [M|M];
      [reflexivity|]. symmetry. apply str_last_short, M.
Qed.
Lemma stream_snoc l x : stream frame (l ++ [x])%list = stream frame l +:+ bytes_of frame x.
Proof. unfold stream. rewrite fmap_app, concat_app. reflexivity. Qed.

(** Every frame follows a record boundary, and the upstream has written before it. *)
Definition framed (l : list Sent) : Prop := forall l1 l2, l = (l1 ++ Frame :: l2)%list ->
  endsOnBlankLine (stream frame l1) = true /\ exists p, Upstream p ∈ l1.
Record invariant (k : t) : Prop := {
  inv_tail : k.(tail) = str_last maxRecordSepLen (stream frame k.(sent));
  inv_framed : framed k.(sent);
  inv_armed : k.(armed) = true -> exists p, Upstream p ∈ k.(sent);
  inv_closed : k.(closed) = true -> k.(stopped) = true
}.

Lemma framed_snoc l x : framed l -> (x = Frame -> endsOnBlankLine (stream frame l) = true /\ exists p, Upstream p ∈ l) ->
  framed (l ++ [x])%list.
Proof.
  intros F X l1 l2 E. destruct l2 as [|y l2 _] using rev_ind.
  - apply app_inj_tail in E as [-> ->]. exact (X eq_refl).
  - rewrite app_comm_cons, app_assoc in E. apply app_inj_tail in E as [-> _]. exact (F l1 l2 eq_refl).
Qed.
Lemma step_invariant k k' : step frame interval k k' -> invariant k -> invariant k'.
Proof.
  intros [now p n k0|now ok k0 A|k0] I.
  - split; cbn -[stream framed str_last noteWritten str_take].
    + rewrite (inv_tail _ I), noteWritten_last, stream_snoc. reflexivity.
    + apply framed_snoc; [exact (inv_framed _ I)|discriminate].
    + intros _. exists (str_take n p). apply elem_of_app. right. apply list_elem_of_singleton. reflexivity.
    + exact (inv_closed _ I).
  - unfold emitIfSilent. destruct (stopped k0) eqn:S; [exact I|].
    destruct (negb _ || _)%bool eqn:B; [exact I|]. apply orb_false_iff in B as [B _]. apply negb_false_iff in B.
    destruct ok; cbn [negb fst].
    + split; cbn -[stream framed str_last noteWritten str_take].
      * rewrite (inv_tail _ I), noteWritten_last, stream_snoc. reflexivity.
      * apply framed_snoc; [exact (inv_framed _ I)|]. intros _. split; [|exact (inv_armed _ I A)].
        rewrite (inv_tail _ I), blank_line_last in B. exact B.
      * intros _. destruct (inv_armed _ I A) as [p Hp]. exists p. apply elem_of_app. left. exact Hp.
      * intros C. rewrite (inv_closed _ I C) in S. discriminate S.
    + destruct I as [I1 I2 I3 I4]. split; cbn; auto.
  - unfold Close. destruct (closed k0); [exact I|]. destruct I as [I1 I2 I3 I4]. split; cbn; auto.
Qed.

(** C39: however upstream writes, ticks of the loop and the close interleave, and however much of
    each write reaches the client, a keepalive frame is only ever sent at a record boundary of what the
    client has received, never before the upstream's own first write, and never once the writer is
    closed. *)
Theorem keepalive_at_boundary (k : t) : rtc (step frame interval) init k ->
  framed k.(sent) /\ (k.(closed) = true -> forall now ok, (emitIfSilent frame interval now ok k).1 = k).
Proof.
  intros R. assert (I : invariant k).
  { assert (I0 : invariant init).
    { split; cbn; try discriminate; [reflexivity|]. intros [|? ?] ? E; discriminate E. }
    induction R as [|k1 k2 k3 S _ IH]; [exact I0|]. apply IH, (step_invariant _ _ S I0). }
  split; [exact (inv_framed _ I)|]. intros C now ok. unfold emitIfSilent. rewrite (inv_closed _ I C). reflexivity.
Qed.
End Facts.
End KeepaliveFacts.

(** ** Witnesses *)

Lemma keepalive_at_boundary_witness :
  let k := (Keepalive.emitIfSilent (": ka" +:+ LFLF) 10 30 true
             (Keepalive.Write 10 5 ("data: {}" +:+ LFLF) 10 Keepalive.init)).1 in
  k.(Keepalive.sent) = [Keepalive.Upstream ("data: {}" +:+ LFLF); Keepalive.Frame] /\
  KeepaliveFacts.framed (": ka" +:+ LFLF) k.(Keepalive.sent).
Proof.
  split; [vm_compute; reflexivity|].
  apply (KeepaliveFacts.keepalive_at_boundary (": ka" +:+ LFLF) 10).
  eapply rtc_l; [apply Keepalive.step_write|]. eapply rtc_l; [apply Keepalive.step_tick; reflexivity|]. apply rtc_refl.
Defined.
