(* ===== verification/Marshal.v ===== *)
(** [encoding/json] of the standard library, as far as the source uses it to write: [Marshal] of a tree of values,
    with the escapes of its strings and the order of its keys, and a reader (RFC 8259) that gives the tree back. *)

From stdpp Require Import base list strings sorting.
From Stdlib Require Import ZArith Lia Ascii.
From S2P Require Import Prelude Strings Sse.
Open Scope string_scope.
Open Scope Z_scope.

(** ** Values *)

(** A struct is an object of its fields in their order, a map one of its keys in byte order; floats are left out. *)
Inductive JSON := VNull | VBool (b : bool) | VInt (n : Z) | VString (s : string) | VArray (l : list JSON) | VObject (l : list (string * JSON)).
Fixpoint JSON_rect' (P : JSON -> Prop) (null : P VNull) (bool : forall b, P (VBool b)) (int : forall n, P (VInt n)) (str : forall s, P (VString s))
    (array : forall l, Forall P l -> P (VArray l)) (object : forall l, Forall (fun kv => P kv.2) l -> P (VObject l)) (v : JSON) : P v :=
  let rec := JSON_rect' P null bool int str array object in
  match v with
  | VNull => null
  | VBool b => bool b
  | VInt n => int n
  | VString s => str s
  | VArray l => array l ((fix go l := match l return Forall P l with [] => Forall_nil_2 P | x :: r => Forall_cons_2 P x r (rec x) (go r) end) l)
  | VObject l => object l ((fix go l := match l return Forall (fun kv => P kv.2) l with
                             | [] => Forall_nil_2 _ | x :: r => Forall_cons_2 (fun kv => P kv.2) x r (rec x.2) (go r) end) l)
  end.

Definition key_le (a b : string * JSON) : Prop := String.leb a.1 b.1 = true.
#[export] Instance key_le_dec : RelDecision key_le.
Proof. intros a b. unfold key_le. apply _. Defined.
(** A [map[string]any]. *)
Definition VMap (l : list (string * JSON)) : JSON := VObject (merge_sort key_le l).

(** ** Text *)

(** The runes of a string with how many bytes each takes beyond the first. *)
Fixpoint sized_fuel (fuel : nat) (s : string) : list (Z * nat) :=
  match fuel, s with
  | S f, String a s' => let '(r, n) := decode_rune a s' in (r, n) :: sized_fuel f (str_drop n s')
  | _, _ => []
  end.
Definition sized (s : string) : list (Z * nat) := sized_fuel (String.length s) s.
Definition backslash (e : Z) : string := String (bchr 92) (String (bchr e) "").
(** An invalid byte is a RuneError of one byte. *)
Definition go_rune (cn : Z * nat) : string :=
  let '(c, n) := cn in
  if ((c =? RuneError) && Nat.eqb n 0)%bool then writeJSONUnicodeEscape RuneError
  else if ((c =? 34) || (c =? 92))%bool then backslash c
  else if c =? 8 then backslash 98
  else if c =? 12 then backslash 102
  else if c =? 10 then backslash 110
  else if c =? 13 then backslash 114
  else if c =? 9 then backslash 116
  else if ((c <? 32) || (c =? 60) || (c =? 62) || (c =? 38) || (c =? 8232) || (c =? 8233))%bool then writeJSONUnicodeEscape c
  else encode_rune c.
Definition quote (body : string) : string := String (bchr 34) (body +:+ String (bchr 34) "").
Definition marshal_string (s : string) : string := quote (String.concat "" (go_rune <$> sized s)).
Definition bracket (o c : Z) (l : list string) : string := String (bchr o) (String.concat "," l +:+ String (bchr c) "").
Fixpoint Marshal (v : JSON) : string :=
  match v with
  | VNull => "null"
  | VBool b => if b then "true" else "false"
  | VInt n => WriteJSONInt n
  | VString s => marshal_string s
  | VArray l => bracket 91 93 (map Marshal l)
  | VObject l => bracket 123 125 (map (fun kv => marshal_string kv.1 +:+ ":" +:+ Marshal kv.2) l)
  end.

(** ** A reader *)

Definition digit_val (a : ascii) : option Z := if between 48 57 (bval a) then Some (bval a - 48) else None.
Fixpoint read_digits (acc : Z) (s : string) : Z * string :=
  match s with
  | String a s' => match digit_val a with Some d => read_digits (acc * 10 + d) s' | None => (acc, s) end
  | EmptyString => (acc, s)
  end.
(** Items up to the closing bracket, at least one. *)
Fixpoint read_items {A} (item : string -> option (A * string)) (close : Z) (fuel : nat) (s : string) : option (list A * string) :=
  match fuel with
  | O => None
  | S f =>
      match item s with
      | Some (x, String a t) =>
          if bval a =? 44 then (fun p => (x :: p.1, p.2)) <$> read_items item close f t
          else if bval a =? close then Some ([x], t)
          else None
      | _ => None
      end
  end.
Definition read_list {A} (item : string -> option (A * string)) (close : Z) (fuel : nat) (s : string) : option (list A * string) :=
  match s with
  | String a t => if bval a =? close then Some ([], t) else read_items item close fuel s
  | EmptyString => None
  end.
Definition read_member {A} (value : string -> option (A * string)) (s : string) : option (string * A * string) :=
  match read_json_string s with
  | Some (k, String a t) => if bval a =? 58 then (fun p => (k, p.1, p.2)) <$> value t else None
  | _ => None
  end.
Fixpoint read_value (fuel : nat) (s : string) : option (JSON * string) :=
  match fuel with
  | O => None
  | S f =>
      match s with
      | EmptyString => None
      | String a t =>
          let b := bval a in
          if b =? 34 then (fun p => (VString p.1, p.2)) <$> read_json_string s
          else if b =? 91 then (fun p => (VArray p.1, p.2)) <$> read_list (read_value f) 93 f t
          else if b =? 123 then (fun p => (VObject p.1, p.2)) <$> read_list (read_member (read_value f)) 125 f t
          else if b =? 110 then (fun r => (VNull, r)) <$> CutPrefix s "null"
          else if b =? 116 then (fun r => (VBool true, r)) <$> CutPrefix s "true"
          else if b =? 102 then (fun r => (VBool false, r)) <$> CutPrefix s "false"
          else if b =? 45 then let '(n, r) := read_digits 0 t in Some (VInt (- n), r)
          else if between 48 57 b then let '(n, r) := read_digits 0 s in Some (VInt n, r)
          else None
      end
  end.

(** What is read back: strings with invalid UTF-8 replaced. *)
Fixpoint valid_json (v : JSON) : JSON :=
  match v with
  | VString s => VString (to_valid s)
  | VArray l => VArray (map valid_json l)
  | VObject l => VObject (map (fun kv => (to_valid kv.1, valid_json kv.2)) l)
  | _ => v
  end.
(** Enough fuel to read a value, and the integers that fit an int64. *)
Fixpoint weight (v : JSON) : nat :=
  match v with
  | VArray l => S (length l + list_sum (map weight l))
  | VObject l => S (length l + list_sum (map (fun kv => weight kv.2) l))
  | _ => 1
  end.
Fixpoint ints_fit (v : JSON) : bool :=
  match v with
  | VInt n => ((- 2 ^ 63 <=? n) && (n <? 2 ^ 63))%bool
  | VArray l => forallb ints_fit l
  | VObject l => forallb (fun kv => ints_fit kv.2) l
  | _ => true
  end.

Lemma ints_fit_map l : ints_fit (VMap l) = forallb (fun kv => ints_fit kv.2) l.
Proof.
  unfold VMap. cbn [ints_fit]. apply eq_true_iff_eq. rewrite !forallb_forall.
  assert (P : forall kv, In kv (merge_sort key_le l) <-> In kv l).
  { intros kv. rewrite <- !list_elem_of_In. rewrite (merge_sort_Permutation key_le l). reflexivity. }
  split; intros F kv K; apply F, P, K.
Qed.

(** ** Strings *)

Lemma sized_runes s : fst <$> sized s = runes s.
Proof.
  unfold sized, runes. generalize (String.length s) as f. intros f. revert s. induction f as [|f IH]; intros [|a s]; try reflexivity.
  cbn. destruct (decode_rune a s) as [r n]. cbn. rewrite IH. reflexivity.
Qed.
Lemma readable_go c n : rune_range c -> readable (go_rune (c, n)) (encode_rune c).
Proof.
  intros R. unfold go_rune, backslash.
  destruct (_ && _)%bool eqn:E; [apply andb_prop in E as [E _]; apply Z.eqb_eq in E as ->; apply readable_unicode; unfold RuneError; lia|].
  destruct (_ || _)%bool eqn:Q.
  { assert (c = 34 \/ c = 92) as [-> | ->] by lia; apply readable_short; (reflexivity || lia). }
  destruct (Z.eqb_spec c 8) as [->|N1]; [apply (readable_short 98 8); [reflexivity|lia]|].
  destruct (Z.eqb_spec c 12) as [->|N2]; [apply (readable_short 102 12); [reflexivity|lia]|].
  destruct (Z.eqb_spec c 10) as [->|N3]; [apply (readable_short 110 10); [reflexivity|lia]|].
  destruct (Z.eqb_spec c 13) as [->|N4]; [apply (readable_short 114 13); [reflexivity|lia]|].
  destruct (Z.eqb_spec c 9) as [->|N5]; [apply (readable_short 116 9); [reflexivity|lia]|].
  destruct ((c <? 32) || _ || _ || _ || _ || _)%bool eqn:U; unfold rune_range in R.
  - apply readable_unicode. lia.
  - apply readable_plain, encode_plain; [exact R|lia..].
Qed.
Lemma marshal_string_read s rest : read_json_string (marshal_string s +:+ rest) = Some (to_valid s, rest).
Proof.
  unfold marshal_string, quote, to_valid. rewrite <- (sized_runes s), <- list_fmap_compose. apply read_quoted.
  pose proof (runes_range s) as R. rewrite <- (sized_runes s) in R.
  induction (sized s) as [|[c n] l IH]; [constructor|]. rewrite fmap_cons in R. apply Forall_cons in R as [R1 R2].
  constructor; [exact (readable_go c n R1)|exact (IH R2)].
Qed.

(** ** Integers *)

Definition no_digit (s : string) : Prop := match s with String a _ => digit_val a = None | EmptyString => True end.
Lemma read_digits_stop acc s : no_digit s -> read_digits acc s = (acc, s).
Proof. destruct s as [|a s]; [reflexivity|]. cbn. intros ->. reflexivity. Qed.
Lemma digit_val_chr d : 0 <= d < 10 -> digit_val (bchr (48 + d)) = Some d.
Proof.
  intros L. unfold digit_val. rewrite bval_bchr by lia. unfold between. rewrite (proj2 (Z.leb_le _ _)), (proj2 (Z.leb_le _ _)) by lia.
  cbn. f_equal. lia.
Qed.
Lemma read_decimal fuel n acc t : 0 <= n < 10 ^ Z.of_nat fuel -> (0 < fuel)%nat -> exists k, 0 <= k /\ forall a,
  read_digits a (decimal_fuel fuel n acc +:+ t) = read_digits (a * 10 ^ k + n) (acc +:+ t).
Proof.
  revert n acc. induction fuel as [|f IH]; intros n acc L P; [lia|]. cbn [decimal_fuel].
  pose proof (Z.mod_pos_bound n 10 eq_refl) as M. destruct (Z.ltb_spec n 10) as [S|S].
  - exists 1. split; [lia|]. intros a. rewrite str_app_cons. cbn [read_digits]. rewrite digit_val_chr by lia. rewrite Z.mod_small by lia. reflexivity.
  - assert (Ld : 0 <= n / 10 < 10 ^ Z.of_nat f).
    { rewrite Nat2Z.inj_succ, Z.pow_succ_r in L by lia. split; [apply Z.div_pos; lia|apply Z.div_lt_upper_bound; lia]. }
    assert (Pf : (0 < f)%nat) by (destruct f; [change (10 ^ Z.of_nat 1) with 10 in L; lia|lia]).
    destruct (IH (n / 10) (String (bchr (48 + n mod 10)) acc) Ld Pf) as (k & K & E). exists (k + 1). split; [lia|]. intros a.
    rewrite E, str_app_cons. cbn [read_digits]. rewrite digit_val_chr by lia. f_equal.
    rewrite Z.pow_add_r by lia. pose proof (Z.div_mod n 10 ltac:(lia)). lia.
Qed.
Lemma decimal_head fuel n acc : exists a s, (0 < fuel)%nat -> decimal_fuel fuel n acc = String a s /\ exists d, 0 <= d < 10 /\ a = bchr (48 + d).
Proof.
  revert n acc. induction fuel as [|f IH]; intros n acc; [exists "0"%char, ""; lia|]. cbn [decimal_fuel].
  pose proof (Z.mod_pos_bound n 10 eq_refl). destruct (Z.ltb_spec n 10).
  - eexists _, _. intros _. split; [reflexivity|]. exists (n mod 10). auto.
  - destruct f as [|f]; [eexists _, _; intros _; split; [reflexivity|exists (n mod 10); auto]|].
    destruct (IH (n / 10) (String (bchr (48 + n mod 10)) acc)) as (a & s & E). exists a, s. intros _. apply E. lia.
Qed.
Lemma between_chr d : 0 <= d < 10 -> bval (bchr (48 + d)) = 48 + d.
Proof. intros L. apply bval_bchr. lia. Qed.
Lemma read_int n rest f : - 2 ^ 63 <= n < 2 ^ 63 -> no_digit rest -> read_value (S f) (WriteJSONInt n +:+ rest) = Some (VInt n, rest).
Proof.
  intros L N. unfold WriteJSONInt. assert (P : 2 ^ 63 < 10 ^ Z.of_nat 20) by reflexivity.
  destruct (Z.ltb_spec n 0) as [M|M].
  - destruct (read_decimal 20 (- n) "" rest ltac:(lia) ltac:(lia)) as (k & K & E). rewrite str_app_assoc.
    change ("-" +:+ ?x) with (String "-" x). cbn [read_value].
    change (bval "-" =? 34) with false. change (bval "-" =? 91) with false. change (bval "-" =? 123) with false.
    change (bval "-" =? 110) with false. change (bval "-" =? 116) with false. change (bval "-" =? 102) with false.
    change (bval "-" =? 45) with true. cbn beta iota. rewrite E. change ("" +:+ rest) with rest. rewrite (read_digits_stop _ _ N). do 2 f_equal. f_equal. lia.
  - destruct (read_decimal 20 n "" rest ltac:(lia) ltac:(lia)) as (k & K & E).
    destruct (decimal_head 20 n "") as (a & s & H). destruct (H ltac:(lia)) as (Es & d & Ld & Ea).
    assert (R : read_digits 0 (String a (s +:+ rest)) = (n, rest)).
    { rewrite <- str_app_cons, <- Es, E. change ("" +:+ rest) with rest. rewrite (read_digits_stop _ _ N). f_equal. }
    rewrite Es, str_app_cons. cbn [read_value]. rewrite Ea in *. rewrite (between_chr d Ld).
    repeat match goal with |- context [48 + d =? ?c] => rewrite (proj2 (Z.eqb_neq (48 + d) c)) by lia end.
    unfold between. rewrite (proj2 (Z.leb_le _ _)), (proj2 (Z.leb_le _ _)) by lia. cbn [andb]. rewrite R. reflexivity.
Qed.

(** ** Values *)

Lemma read_items_join {A} (item : string -> option (A * string)) close (ws : list string) (xs : list A) rest f :
  Forall2 (fun w x => forall r, no_digit r -> item (w +:+ r) = Some (x, r)) ws xs -> ws <> [] -> (length ws <= f)%nat ->
  close <> 44 -> 58 < close < 256 ->
  read_items item close f (String.concat "," ws +:+ String (bchr close) rest) = Some (xs, rest).
Proof.
  intros F. revert f. induction F as [|w x ws xs W F IH]; intros f Nw L Nc B; [congruence|]. destruct f as [|f]; [cbn in L; lia|].
  assert (Dc : no_digit (String (bchr close) rest)).
  { cbn. unfold digit_val, between. rewrite bval_bchr by lia. rewrite (proj2 (Z.leb_gt close 57)) by lia. rewrite andb_false_r. reflexivity. }
  cbn [read_items]. destruct ws as [|w2 ws].
  - inversion F; subst. cbn [String.concat]. rewrite (W _ Dc). rewrite bval_bchr by lia. rewrite (proj2 (Z.eqb_neq _ _) Nc), Z.eqb_refl. reflexivity.
  - change (String.concat "," (w :: w2 :: ws)) with (w +:+ "," +:+ String.concat "," (w2 :: ws)). rewrite !str_app_assoc.
    change ("," +:+ ?t) with (String "," t). rewrite W by reflexivity. change (bval "," =? 44) with true. cbn beta iota.
    rewrite IH; [reflexivity|discriminate|cbn in *; lia|exact Nc|exact B].
Qed.
(** The text of a value starts with a byte that closes nothing. *)
Definition opens (w : string) : Prop := exists a s, w = String a s /\ bval a <> 93 /\ bval a <> 125.
Lemma read_list_join {A} (item : string -> option (A * string)) close (ws : list string) (xs : list A) rest f :
  Forall2 (fun w x => forall r, no_digit r -> item (w +:+ r) = Some (x, r)) ws xs -> Forall opens ws -> (length ws <= f)%nat ->
  close = 93 \/ close = 125 ->
  read_list item close f (String.concat "," ws +:+ String (bchr close) rest) = Some (xs, rest).
Proof.
  intros F O L C. assert (B : 58 < close < 256 /\ close <> 44) by lia. destruct ws as [|w ws].
  - inversion F; subst. cbn [String.concat]. change ("" +:+ ?t) with t. cbn [read_list]. rewrite bval_bchr, Z.eqb_refl by lia. reflexivity.
  - pose proof (read_items_join item close (w :: ws) xs rest f F ltac:(discriminate) L (proj2 B) (proj1 B)) as R.
    apply Forall_cons in O as [(a & s & -> & N1 & N2) _].
    assert (H : exists t, String.concat "," (String a s :: ws) +:+ String (bchr close) rest = String a t).
    { destruct ws; cbn [String.concat]; rewrite ?str_app_cons; eauto. }
    destruct H as [t E]. rewrite E in *. cbn [read_list]. rewrite (proj2 (Z.eqb_neq (bval a) close)) by lia. exact R.
Qed.
Lemma marshal_opens v : opens (Marshal v).
Proof.
  destruct v as [|[]|n|s|l|l]; cbn [Marshal]; try (eexists _, _; split; [reflexivity|split; discriminate]).
  unfold WriteJSONInt. destruct (n <? 0); [eexists _, _; split; [reflexivity|split; discriminate]|].
  destruct (decimal_head 20 n "") as (a & s & H). destruct (H ltac:(lia)) as (-> & d & L & ->).
  eexists _, _. split; [reflexivity|]. rewrite (between_chr d L). lia.
Qed.
Lemma sum_bound x l : x ∈ l -> (x <= list_sum l)%nat.
Proof. induction l as [|y l IH]; intros E; [inversion E|]. unfold list_sum in *. cbn [fold_right]. apply elem_of_cons in E as [->|E]; [lia|]. specialize (IH E). lia. Qed.

Lemma read_word w v f rest : (w, v) ∈ [("null", VNull); ("true", VBool true); ("false", VBool false)] ->
  read_value (S f) (w +:+ rest) = Some (v, rest).
Proof.
  intros E. pose proof (CutPrefix_app w rest) as C.
  repeat (apply elem_of_cons in E as [[= -> ->]|E]; [rewrite str_app_cons in *; cbn [read_value] in *; rewrite C; reflexivity|]). inversion E.
Qed.
(** Reading gives a value back, whatever follows it. *)
Lemma marshal_read v : forall rest f, (weight v <= f)%nat -> ints_fit v = true -> no_digit rest ->
  read_value f (Marshal v +:+ rest) = Some (valid_json v, rest).
Proof.
  induction v as [|b|n|s|l IH|l IH] using JSON_rect'; intros rest f L I N; (destruct f as [|f]; [cbn in L; lia|]).
  - exact (read_word "null" VNull f rest ltac:(repeat constructor)).
  - destruct b; [exact (read_word "true" (VBool true) f rest ltac:(repeat constructor))|exact (read_word "false" (VBool false) f rest ltac:(repeat constructor))].
  - cbn in I. apply read_int; [lia|exact N].
  - cbn [Marshal valid_json]. pose proof (marshal_string_read s rest) as R. unfold marshal_string, quote in *.
    rewrite str_app_cons in *. cbn [read_value]. change (bval (bchr 34) =? 34) with true. cbn beta iota. rewrite R. reflexivity.
  - cbn [Marshal valid_json]. unfold bracket. rewrite str_app_cons, str_app_assoc. change (String (bchr 93) "" +:+ rest) with (String (bchr 93) rest).
    cbn [read_value]. change (bval (bchr 91) =? 34) with false. change (bval (bchr 91) =? 91) with true. cbn beta iota.
    cbn [weight ints_fit] in L, I. rewrite forallb_forall in I.
    rewrite (read_list_join (read_value f) 93 (map Marshal l) (map valid_json l)); [reflexivity| | |rewrite length_map; lia|auto].
    + assert (W : forall x, x ∈ l -> (weight x <= f)%nat).
      { intros x E. pose proof (sum_bound (weight x) (map weight l)) as B. rewrite list_elem_of_In in B.
        specialize (B (in_map weight l x (proj1 (list_elem_of_In _ _) E))). lia. }
      clear L N. induction IH as [|x l Hx _ IHl]; constructor.
      * intros r Nr. apply Hx; [apply W; left|apply I; left; reflexivity|exact Nr].
      * apply IHl; [intros y E; apply I; right; exact E|intros y E; apply W; right; exact E].
    + apply Forall_forall. intros w E. apply list_elem_of_In, in_map_iff in E as (x & <- & _). apply marshal_opens.
  - cbn [Marshal valid_json]. unfold bracket. rewrite str_app_cons, str_app_assoc. change (String (bchr 125) "" +:+ rest) with (String (bchr 125) rest).
    cbn [read_value]. change (bval (bchr 123) =? 34) with false. change (bval (bchr 123) =? 91) with false. change (bval (bchr 123) =? 123) with true. cbn beta iota.
    cbn [weight ints_fit] in L, I. rewrite forallb_forall in I.
    rewrite (read_list_join (read_member (read_value f)) 125 _ (map (fun kv => (to_valid kv.1, valid_json kv.2)) l)); [reflexivity| | |rewrite length_map; lia|auto].
    + assert (W : forall x, x ∈ l -> (weight x.2 <= f)%nat).
      { intros x E. pose proof (sum_bound (weight x.2) (map (fun kv => weight kv.2) l)) as B. rewrite list_elem_of_In in B.
        specialize (B (in_map (fun kv : string * JSON => weight kv.2) l x (proj1 (list_elem_of_In _ _) E))). lia. }
      clear L N. induction IH as [|x l Hx _ IHl]; constructor.
      * intros r Nr. unfold read_member. rewrite !str_app_assoc, marshal_string_read. change (":" +:+ ?t) with (String ":" t).
        change (bval ":" =? 58) with true. cbn beta iota.
        rewrite (Hx r f); [reflexivity|apply W; left|apply (I x); left; reflexivity|exact Nr].
      * apply IHl; [intros y E; apply I; right; exact E|intros y E; apply W; right; exact E].
    + apply Forall_forall. intros w E. apply list_elem_of_In, in_map_iff in E as (x & <- & _). unfold marshal_string, quote. rewrite !str_app_cons.
      eexists _, _. split; [reflexivity|split; discriminate].
Qed.

(** A value whose strings are valid UTF-8 and whose integers are int64. *)
Definition json_fits (v : JSON) : Prop := valid_json v = v /\ ints_fit v = true.
(** Distinct values have distinct texts. *)
Lemma Marshal_inj v w : json_fits v -> json_fits w -> Marshal v = Marshal w -> v = w.
Proof.
  intros [V1 V2] [W1 W2] E. pose proof (marshal_read v "" (weight v + weight w) ltac:(lia) V2 I) as Rv.
  pose proof (marshal_read w "" (weight v + weight w) ltac:(lia) W2 I) as Rw. rewrite E, Rw in Rv. congruence.
Qed.

(** The text of a value holds no control byte. *)
Definition printable (a : ascii) : bool := 32 <=? bval a.
Lemma go_rune_printable c n : rune_range c -> all_bytes printable (go_rune (c, n)) = true.
Proof.
  intros R. assert (U : forall c, all_bytes printable (writeJSONUnicodeEscape c) = true).
  { intros z. unfold writeJSONUnicodeEscape. cbn [all_bytes]. unfold printable. rewrite !hex_digit_printable by apply nibble_bounds. reflexivity. }
  unfold go_rune, backslash. destruct (_ && _)%bool; [apply U|].
  destruct (_ || _)%bool eqn:Q. { assert (c = 34 \/ c = 92) as [-> | ->] by lia; reflexivity. }
  repeat (match goal with |- context [c =? ?k] => destruct (Z.eqb_spec c k) as [->|]; [reflexivity|] end).
  destruct (Z.ltb_spec c 32); cbn [orb]; [apply U|].
  apply (all_bytes_impl plain_byte); [|apply encode_plain; [exact R|lia..]].
  intros a P. unfold plain_byte in P. apply andb_prop in P as [P _]. apply andb_prop in P as [P _]. exact P.
Qed.
Lemma join_printable sep l : all_bytes printable sep = true -> Forall (fun w => all_bytes printable w = true) l ->
  all_bytes printable (String.concat sep l) = true.
Proof.
  intros S F. induction F as [|w l W F IH]; [reflexivity|]. destruct l as [|w2 l]; [exact W|].
  change (String.concat sep (w :: w2 :: l)) with (w +:+ sep +:+ String.concat sep (w2 :: l)). auto using all_bytes_app.
Qed.
Lemma marshal_string_printable s : all_bytes printable (marshal_string s) = true.
Proof.
  unfold marshal_string, quote. cbn [all_bytes]. change (printable (bchr 34)) with true. cbn [andb]. apply all_bytes_app; [|reflexivity].
  apply join_printable; [reflexivity|]. pose proof (runes_range s) as R. rewrite <- (sized_runes s) in R.
  induction (sized s) as [|[c n] l IH]; [constructor|]. rewrite fmap_cons in *. apply Forall_cons in R as [R1 R2].
  constructor; [exact (go_rune_printable c n R1)|exact (IH R2)].
Qed.
Lemma decimal_printable fuel n acc : all_bytes printable acc = true -> all_bytes printable (decimal_fuel fuel n acc) = true.
Proof.
  revert n acc. induction fuel as [|f IH]; intros n acc A; [exact A|]. cbn [decimal_fuel].
  assert (B : all_bytes printable (String (bchr (48 + n mod 10)) acc) = true).
  { cbn [all_bytes]. unfold printable at 1. pose proof (Z.mod_pos_bound n 10 eq_refl). rewrite bval_bchr, A by lia.
    rewrite (proj2 (Z.leb_le _ _)) by lia. reflexivity. }
  destruct (n <? 10); auto.
Qed.
Lemma Marshal_printable v : all_bytes printable (Marshal v) = true.
Proof.
  induction v as [|b|n|s|l IH|l IH] using JSON_rect'; cbn [Marshal].
  - reflexivity.
  - destruct b; reflexivity.
  - unfold WriteJSONInt. destruct (n <? 0); [apply all_bytes_app; [reflexivity|]|]; apply decimal_printable; reflexivity.
  - apply marshal_string_printable.
  - unfold bracket. cbn [all_bytes]. change (printable (bchr 91)) with true. cbn [andb]. apply all_bytes_app; [|reflexivity].
    apply join_printable; [reflexivity|]. induction IH; constructor; assumption.
  - unfold bracket. cbn [all_bytes]. change (printable (bchr 123)) with true. cbn [andb]. apply all_bytes_app; [|reflexivity].
    apply join_printable; [reflexivity|]. induction IH as [|kv l K _ IHl]; constructor; [|exact IHl].
    apply all_bytes_app; [apply marshal_string_printable|]. apply all_bytes_app; [reflexivity|exact K].
Qed.

(** Evaluation against the library: [<] escaped, an invalid byte replaced, keys sorted. *)
Example ex_marshal : Marshal (VMap [("text", VString ("a<b" +:+ String (bchr 10) (String (bchr 255) ""))); ("id", VInt (-42)); ("tags", VArray [VNull; VBool true])])
  = "{" +:+ quote "id" +:+ ":-42," +:+ quote "tags" +:+ ":[null,true]," +:+ quote "text" +:+ ":" +:+ quote "a\u003cb\n\ufffd" +:+ "}".
Proof. vm_compute. reflexivity. Qed.
