(* ===== verification/Hash.v ===== *)
(** The hashes of Go's standard library that the router uses, over lists of bytes: SHA-1 (crypto/sha1) and
    SHA-256 (crypto/sha256), with the hexadecimal text of a digest. *)

From stdpp Require Import base gmap sets list strings.
From Stdlib Require Import ZArith Lia Ascii.
From S2P Require Import Prelude Strings Sse.
Open Scope string_scope.
Open Scope Z_scope.

Definition bytes_of (s : string) : list Z := bval <$> String.list_ascii_of_string s.
Definition of_bytes (l : list Z) : string := String.string_of_list_ascii (bchr <$> l).
Lemma bchr_bval a : bchr (bval a) = a.
Proof. unfold bchr, bval. rewrite N2Z.id. apply ascii_N_embedding. Qed.
Lemma bytes_of_range s : Forall (fun z => 0 <= z < 256) (bytes_of s).
Proof. apply Forall_fmap, Forall_forall. intros a _. apply bval_bounds. Qed.
Lemma of_bytes_of s : of_bytes (bytes_of s) = s.
Proof.
  unfold of_bytes, bytes_of. rewrite <- list_fmap_compose.
  rewrite <- (String.string_of_list_ascii_of_string s) at 2. f_equal.
  induction (String.list_ascii_of_string s) as [|a l IH]; [reflexivity|]. rewrite fmap_cons, IH. cbn. rewrite bchr_bval. reflexivity.
Qed.

(** ** SHA-1 *)

Definition w32 (z : Z) : Z := z mod 2 ^ 32.
Definition rotl (n x : Z) : Z := Z.lor (w32 (Z.shiftl x n)) (Z.shiftr x (32 - n)).
Definition pad (msg : list Z) : list Z :=
  let n := Z.of_nat (length msg) in
  let zeros := Z.to_nat ((55 - n) mod 64) in
  (msg ++ [128] ++ repeat 0 zeros ++ List.map (fun i => Z.shiftr (8 * n) (8 * i) mod 256) [7; 6; 5; 4; 3; 2; 1; 0])%list.
Fixpoint words (l : list Z) : list Z :=
  match l with
  | a :: b :: c :: d :: l' => a * 2 ^ 24 + b * 2 ^ 16 + c * 2 ^ 8 + d :: words l'
  | _ => []
  end.
(** The message schedule, newest word first. *)
Fixpoint schedule (k : nat) (w : list Z) : list Z :=
  match k with
  | O => w
  | S k' => schedule k' (rotl 1 (Z.lxor (Z.lxor (nth 2 w 0) (nth 7 w 0)) (Z.lxor (nth 13 w 0) (nth 15 w 0))) :: w)
  end.
Definition round_fk (i b c d : Z) : Z * Z :=
  if i <? 20 then (Z.lor (Z.land b c) (Z.land (Z.lxor b (2 ^ 32 - 1)) d), 1518500249)
  else if i <? 40 then (Z.lxor b (Z.lxor c d), 1859775393)
  else if i <? 60 then (Z.lor (Z.land b c) (Z.lor (Z.land b d) (Z.land c d)), 2400959708)
  else (Z.lxor b (Z.lxor c d), 3395469782).
Record digest := Dig { ha : Z; hb : Z; hc : Z; hd : Z; he : Z }.
Definition round (s : Z * digest) (w : Z) : Z * digest :=
  let '(i, g) := s in
  let '(f, k) := round_fk i g.(hb) g.(hc) g.(hd) in
  (i + 1, Dig (w32 (rotl 5 g.(ha) + f + g.(he) + k + w)) g.(ha) (rotl 30 g.(hb)) g.(hc) g.(hd)).
Definition block (h : digest) (l : list Z) : digest :=
  let g := (fold_left round (rev (schedule 64 (rev (words l)))) (0, h)).2 in
  Dig (w32 (h.(ha) + g.(ha))) (w32 (h.(hb) + g.(hb))) (w32 (h.(hc) + g.(hc))) (w32 (h.(hd) + g.(hd))) (w32 (h.(he) + g.(he))).
Fixpoint blocks (fuel : nat) (h : digest) (l : list Z) : digest :=
  match fuel, l with
  | O, _ | _, [] => h
  | S f, _ => blocks f (block h (firstn 64 l)) (skipn 64 l)
  end.
Definition hex32 (z : Z) : string :=
  String.string_of_list_ascii (List.map (fun i => hex_digit (Z.shiftr z (4 * i) mod 16)) [7; 6; 5; 4; 3; 2; 1; 0]).
(** [hex.EncodeToString(sum[:])] of [sha1.Sum]. *)
Definition sha1_hex (s : string) : string :=
  let l := pad (bytes_of s) in
  let h := blocks (length l) (Dig 1732584193 4023233417 2562383102 271733878 3285377520) l in
  hex32 h.(ha) +:+ hex32 h.(hb) +:+ hex32 h.(hc) +:+ hex32 h.(hd) +:+ hex32 h.(he).
Example sha1_abc : sha1_hex "abc" = "a9993e364706816aba3e25717850c26c9cd0d89d".
Proof. vm_compute. reflexivity. Qed.

(** [hex.EncodeToString] *)
Definition hex_byte (z : Z) : string := String (hex_digit (z / 16)) (String (hex_digit (z mod 16)) "").
Definition HexEncode (s : string) : string := String.concat "" (hex_byte <$> bytes_of s).

(** ** SHA-256 *)

(** The largest [r < 2 ^ k] with [r ^ 3 <= n]. *)
Fixpoint cube_root (k : nat) (r n : Z) : Z :=
  match k with
  | O => r
  | S k' => let r' := r + 2 ^ Z.of_nat k' in cube_root k' (if r' ^ 3 <=? n then r' else r) n
  end.
Definition is_prime (n : nat) : bool := forallb (fun d => negb (Nat.eqb (Nat.modulo n d) 0)) (seq 2 (n - 2)).
Definition primes : list Z := Eval vm_compute in Z.of_nat <$> List.filter is_prime (seq 2 310).
(** The first 32 bits of the fractional parts of the cube roots of the first 64 primes, and of the square roots
    of the first 8. *)
Definition round_constants : list Z := Eval vm_compute in (fun p => w32 (cube_root 36 0 (Z.shiftl p 96))) <$> primes.
Definition initial_hash : list Z := Eval vm_compute in (fun p => w32 (Z.sqrt (Z.shiftl p 64))) <$> firstn 8 primes.

Definition rotr (n x : Z) : Z := rotl (32 - n) x.
Definition xor3 (a b c : Z) : Z := Z.lxor a (Z.lxor b c).
(** The message schedule, newest word first. *)
Fixpoint schedule256 (k : nat) (w : list Z) : list Z :=
  match k with
  | O => w
  | S k' =>
      let s0 := let x := nth 14 w 0 in xor3 (rotr 7 x) (rotr 18 x) (Z.shiftr x 3) in
      let s1 := let x := nth 1 w 0 in xor3 (rotr 17 x) (rotr 19 x) (Z.shiftr x 10) in
      schedule256 k' (w32 (nth 15 w 0 + s0 + nth 6 w 0 + s1) :: w)
  end.
Definition round256 (h : list Z) (kw : Z * Z) : list Z :=
  match h with
  | [a; b; c; d; e; f; g; i] =>
      let t1 := i + xor3 (rotr 6 e) (rotr 11 e) (rotr 25 e) + Z.lxor (Z.land e f) (Z.land (Z.lxor e (2 ^ 32 - 1)) g) + kw.1 + kw.2 in
      let t2 := xor3 (rotr 2 a) (rotr 13 a) (rotr 22 a) + xor3 (Z.land a b) (Z.land a c) (Z.land b c) in
      [w32 (t1 + t2); a; b; c; w32 (d + t1); e; f; g]
  | _ => h
  end.
Definition block256 (h l : list Z) : list Z :=
  let w := rev (schedule256 48 (rev (words l))) in
  zip_with (fun x y => w32 (x + y)) h (fold_left round256 (combine round_constants w) h).
Fixpoint blocks256 (fuel : nat) (h l : list Z) : list Z :=
  match fuel, l with
  | O, _ | _, [] => h
  | S f, _ => blocks256 f (block256 h (firstn 64 l)) (skipn 64 l)
  end.
(** [hex.EncodeToString(sum[:])] of [sha256.Sum256]. *)
Definition sha256_hex (s : string) : string :=
  let l := pad (bytes_of s) in String.concat "" (hex32 <$> blocks256 (length l) initial_hash l).
(** [sha256.Sum256] over bytes. *)
Definition be_word (z : Z) : list Z := List.map (fun i => Z.shiftr z (8 * i) mod 256) [3; 2; 1; 0].
Definition Sum256 (msg : list Z) : list Z :=
  let l := pad msg in List.flat_map be_word (blocks256 (length l) initial_hash l).
Example sha256_abc : sha256_hex "abc" = "ba7816bf8f01cfea414140de5dae2223b00361a396177a9cb410ff61f20015ad".
Proof. vm_compute. reflexivity. Qed.
Example sha256_empty : sha256_hex "" = "e3b0c44298fc1c149afbf4c8996fb92427ae41e4649b934ca495991b7852b855".
Proof. vm_compute. reflexivity. Qed.
