(* ===== verification/Json.v ===== *)
(** JSON values as the code reads them.  The reader is a third-party package (gjson), so it is a parameter,
    the class [Gjson]; so is the editor of JSON text (sjson), the class [Sjson].  [Reader] instantiates the
    reader with a small parser, with which the witnesses of other files evaluate. *)

From stdpp Require Import base gmap sets list strings.
From Stdlib Require Import ZArith Lia Ascii.
From S2P Require Import Prelude Strings Sse.
Open Scope string_scope.
Open Scope Z_scope.

(** The text of the source's literals: a single quote stands for the double quote of JSON. *)
Fixpoint jq (s : string) : string :=
  match s with
  | EmptyString => ""
  | String a s' => String (if Ascii.eqb a "'" then bchr 34 else a) (jq s')
  end.

(** ** gjson *)


(** [gjson.Result.Type]; the zero value, of a path that is not there, is [JNull]. *)
Inductive JType := JNull | JFalse | JNumber | JString | JTrue | JJSON.
#[export] Instance JType_eq_dec : EqDecision JType.
Proof. solve_decision. Defined.

Class Gjson := {
  Result : Type;
  Parse : string -> Result;
  Valid : string -> bool;
  GetPath : Result -> string -> Result;
  Exists : Result -> bool;
  TypeOf : Result -> JType;
  StringOf : Result -> string;     (** [Result.String()] *)
  BoolOf : Result -> bool;         (** [Result.Bool()] *)
  Str : Result -> string;          (** the field [Str]: empty unless a string *)
  IntOf : Result -> Z;             (** [Result.Int()], 64 bits *)
  Raw : Result -> string;
  IsArray : Result -> bool;
  IsObject : Result -> bool;
  elements : Result -> list Result;             (** what [ForEach] visits of an array *)
  members : Result -> list (string * Result)    (** and of an object: the keys as strings *)
}.
Definition GetBytes `{Gjson} (body path : string) : Result := GetPath (Parse body) path.
Definition IsStringType `{Gjson} (r : Result) : bool := bool_decide (TypeOf r = JString).
(** What [ForEach] visits of any result: the elements of an array, the values of an object, another value itself
    and nothing of a path that is not there. *)
Definition visit `{Gjson} (r : Result) : list Result :=
  if IsArray r then elements r else if IsObject r then (members r).*2 else if Exists r then [r] else [].

(** ** sjson: [None] is an error *)

Class Sjson := {
  Number : Type;                   (** a float64 *)
  is_finite : Number -> bool;      (** neither NaN nor an infinity *)
  ParseFloat : string -> option Number;
  Delete : string -> string -> option string;
  SetInt : string -> string -> Z -> option string;
  SetFloat : string -> string -> Number -> option string;
  SetBool : string -> string -> bool -> option string;
  SetString : string -> string -> string -> option string;
  SetRaw : string -> string -> string -> option string
}.

(** ** A reader *)

Module Reader.

(** A value with the text it was read from. *)
Inductive value := V (raw : string) (sh : shape)
with shape := Null | Boolean (b : bool) | Num | Strg (s : string) | Arr (l : list value) | Obj (l : list (string * value)).
Definition raw_of (v : value) : string := match v with V r _ => r end.
Definition shape_of (v : value) : shape := match v with V _ s => s end.

Fixpoint skip_ws (s : string) : string :=
  match s with
  | String a s' => if in_strings (String a "") [" "; byte 9; LF; CR] then skip_ws s' else s
  | EmptyString => ""
  end.
Definition number_byte (a : ascii) : bool :=
  (between 48 57 (bval a) || existsb (Z.eqb (bval a)) [43; 45; 46; 69; 101])%bool.
Fixpoint span_number (s : string) : string * string :=
  match s with
  | String a s' => if number_byte a then let '(n, r) := span_number s' in (String a n, r) else ("", s)
  | EmptyString => ("", "")
  end.
Definition with_raw (s : string) (p : shape * string) : value * string :=
  (V (str_take (String.length s - String.length p.2) s) p.1, p.2).
(** The value a text starts with and the text after it. *)
Fixpoint parse_value (fuel : nat) (s0 : string) : option (value * string) :=
  match fuel with
  | O => None
  | S f =>
      let s := skip_ws s0 in
      match s with
      | EmptyString => None
      | String a s' =>
          if Ascii.eqb a "{" then with_raw s <$> parse_members f s' []
          else if Ascii.eqb a "[" then with_raw s <$> parse_elements f s' []
          else if bval a =? 34 then (fun p => with_raw s (Strg p.1, p.2)) <$> read_json_string s
          else match CutPrefix s "null", CutPrefix s "true", CutPrefix s "false" with
               | Some r, _, _ => Some (with_raw s (Null, r))
               | _, Some r, _ => Some (with_raw s (Boolean true, r))
               | _, _, Some r => Some (with_raw s (Boolean false, r))
               | None, None, None =>
                   let '(n, r) := span_number s in
                   if String.eqb n "" then None else Some (with_raw s (Num, r))
               end
      end
  end
with parse_elements (fuel : nat) (s0 : string) (acc : list value) : option (shape * string) :=
  match fuel with
  | O => None
  | S f =>
      match CutPrefix (skip_ws s0) "]", acc with
      | Some r, [] => Some (Arr [], r)
      | _, _ =>
          match parse_value f s0 with
          | None => None
          | Some (v, r) =>
              let r := skip_ws r in
              match CutPrefix r "]", CutPrefix r "," with
              | Some r', _ => Some (Arr (rev (v :: acc)), r')
              | _, Some r' => parse_elements f r' (v :: acc)
              | None, None => None
              end
          end
      end
  end
with parse_members (fuel : nat) (s0 : string) (acc : list (string * value)) : option (shape * string) :=
  match fuel with
  | O => None
  | S f =>
      match CutPrefix (skip_ws s0) "}", acc with
      | Some r, [] => Some (Obj [], r)
      | _, _ =>
          match read_json_string (skip_ws s0) with
          | None => None
          | Some (k, r) =>
              match CutPrefix (skip_ws r) ":" with
              | None => None
              | Some r1 =>
                  match parse_value f r1 with
                  | None => None
                  | Some (v, r2) =>
                      let r2 := skip_ws r2 in
                      match CutPrefix r2 "}", CutPrefix r2 "," with
                      | Some r', _ => Some (Obj (rev ((k, v) :: acc)), r')
                      | _, Some r' => parse_members f r' ((k, v) :: acc)
                      | None, None => None
                      end
                  end
              end
          end
      end
  end.
Definition parse (s : string) : option value :=
  match parse_value (2 * String.length s + 2) s with
  | Some (v, r) => if String.eqb (skip_ws r) "" then Some v else None
  | None => None
  end.

Fixpoint split_dots_fuel (fuel : nat) (s : string) : list string :=
  match fuel, Index s "." with
  | S f, Some i => str_take i s :: split_dots_fuel f (str_drop (S i) s)
  | _, _ => [s]
  end.
Fixpoint read_nat (acc : nat) (s : string) : option nat :=
  match s with
  | EmptyString => Some acc
  | String a s' => if between 48 57 (bval a) then read_nat (10 * acc + Z.to_nat (bval a - 48)) s' else None
  end.
Definition child (key : string) (v : value) : option value :=
  match shape_of v with
  | Obj l => snd <$> List.find (fun p => String.eqb p.1 key) l
  | Arr l => if String.eqb key "#" then Some (V (WriteJSONInt (Z.of_nat (length l))) Num) else match read_nat 0 key with Some i => nth_error l i | None => None end
  | _ => None
  end.
Definition walk (keys : list string) (v : option value) : option value :=
  fold_left (fun v k => match v with Some v => child k v | None => None end) keys v.
Definition read_int (s : string) : Z :=
  let value s := match read_nat 0 s with Some n => Z.of_nat n | None => 0 end in
  match CutPrefix s "-" with Some r => - value r | None => value s end.
Definition on_shape {A} (d : A) (f : value -> A) (v : option value) : A := match v with Some v => f v | None => d end.

Definition reader : Gjson := {|
  Result := option value;
  Parse := parse;
  Valid := fun s => match parse s with Some _ => true | None => false end;
  GetPath := fun v path => walk (split_dots_fuel (String.length path) path) v;
  Exists := fun v => match v with Some _ => true | None => false end;
  TypeOf := on_shape JNull (fun v => match shape_of v with
              | Null => JNull | Boolean true => JTrue | Boolean false => JFalse | Num => JNumber
              | Strg _ => JString | Arr _ | Obj _ => JJSON end);
  StringOf := on_shape "" (fun v => match shape_of v with Null => "" | Strg s => s | _ => raw_of v end);
  BoolOf := on_shape false (fun v => match shape_of v with
              | Boolean b => b | Strg s => in_strings s ["1"; "t"; "T"; "true"; "TRUE"; "True"] | Num => negb (read_int (raw_of v) =? 0) | _ => false end);
  Str := on_shape "" (fun v => match shape_of v with Strg s => s | _ => "" end);
  IntOf := on_shape 0 (fun v => match shape_of v with Num | Strg _ => read_int (raw_of v) | Boolean true => 1 | _ => 0 end);
  Raw := on_shape "" raw_of;
  IsArray := on_shape false (fun v => match shape_of v with Arr _ => true | _ => false end);
  IsObject := on_shape false (fun v => match shape_of v with Obj _ => true | _ => false end);
  elements := on_shape [] (fun v => match shape_of v with Arr l => Some <$> l | _ => [] end);
  members := on_shape [] (fun v => match shape_of v with Obj l => (fun p => (p.1, Some p.2)) <$> l | _ => [] end)
|}.

(** An editor of the members of an object, whose edits are kept when they parse. *)
Definition guarded (o : option string) : option string :=
  match o with
  | Some s => match parse s with Some _ => Some s | None => None end
  | None => None
  end.
Definition render (l : list (string * string)) : string :=
  "{" +:+ Join ((fun p => WriteJSONString p.1 +:+ ":" +:+ p.2) <$> l) "," +:+ "}".
Definition edit (f : list (string * string) -> list (string * string)) (s : string) : option string :=
  match parse s with
  | Some v => match shape_of v with
              | Obj l => Some (render (f ((fun p => (p.1, raw_of p.2)) <$> l)))
              | _ => None
              end
  | None => None
  end.
Definition set_member (s k raw : string) : option string :=
  guarded (edit (List.map (fun p => if String.eqb p.1 k then (p.1, raw) else p)) s).
Definition editor : Sjson := {|
  Number := Z;
  is_finite := fun _ => true;
  ParseFloat := fun s => match read_nat 0 s with Some n => Some (Z.of_nat n) | None => None end;
  Delete := fun s k => guarded (edit (List.filter (fun p => negb (String.eqb p.1 k))) s);
  SetInt := fun s k n => set_member s k (WriteJSONInt n);
  SetFloat := fun s k n => set_member s k (WriteJSONInt n);
  SetBool := fun s k b => set_member s k (if b then "true" else "false");
  SetString := fun s k t => set_member s k (WriteJSONString t);
  SetRaw := set_member
|}.

(** The reader on a frame of a chat-completion stream. *)
Example reader_path :
  let q := byte 34 in
  let frame := "{" +:+ q +:+ "choices" +:+ q +:+ ":[{" +:+ q +:+ "delta" +:+ q +:+ ":{" +:+ q +:+ "content" +:+ q +:+ ": " +:+ q +:+ "hi" +:+ q +:+ "}}], " +:+ q +:+ "n" +:+ q +:+ ":12}" in
  (@Str reader (@GetPath reader (@Parse reader frame) "choices.0.delta.content"), @IntOf reader (@GetPath reader (@Parse reader frame) "n")) = ("hi", 12).
Proof. vm_compute. reflexivity. Qed.
End Reader.
