(* ===== verification/Floats.v ===== *)
(** Go's [float64] and [float32] as IEEE 754 binary64 and binary32, on the executable
    specification floats of the Standard Library (round to nearest, ties to even).  The Go
    compiler may fuse [x*y + z] on some targets; amd64, the deployment target, does not. *)

From Stdlib Require Import ZArith SpecFloat Lia.
From S2P Require Import Prelude.
Open Scope Z_scope.

Definition f64 : Type := spec_float.
Definition f32 : Type := spec_float.

(** ** binary64 *)

Definition f64_of_Z (z : Z) : f64 := binary_normalize 53 1024 z 0 false.
Definition f64_add : f64 -> f64 -> f64 := SFadd 53 1024.
Definition f64_sub : f64 -> f64 -> f64 := SFsub 53 1024.
Definition f64_mul : f64 -> f64 -> f64 := SFmul 53 1024.
Definition f64_div : f64 -> f64 -> f64 := SFdiv 53 1024.

(** A decimal constant [n/d]: division is correctly rounded, so this is the nearest double
    whenever [n] and [d] are exact, which is how Go converts an untyped constant. *)
Definition f64_lit (n d : Z) : f64 := f64_div (f64_of_Z n) (f64_of_Z d).

(** ** binary32 *)

Definition f32_of_Z (z : Z) : f32 := binary_normalize 24 128 z 0 false.
Definition f32_add : f32 -> f32 -> f32 := SFadd 24 128.
Definition f32_sub : f32 -> f32 -> f32 := SFsub 24 128.
Definition f32_mul : f32 -> f32 -> f32 := SFmul 24 128.
Definition f32_div : f32 -> f32 -> f32 := SFdiv 24 128.
Definition f32_lit (n d : Z) : f32 := f32_div (f32_of_Z n) (f32_of_Z d).
(** [float64(x)] of a [float32]: every binary32 value is a binary64 value. *)
Definition f64_of_f32 (x : f32) : f64 :=
  match x with
  | S754_finite s m e => binary_normalize 53 1024 (if s then Zneg m else Zpos m) e s
  | _ => x
  end.

(** [float32(x)]. *)
Definition f32_of_f64 (x : f64) : f32 :=
  match x with
  | S754_finite s m e => binary_normalize 24 128 (if s then Z.neg m else Z.pos m) e s
  | y => y
  end.

(** ** Comparisons, shared by both widths *)

Definition f_lt : spec_float -> spec_float -> bool := SFltb.
Definition f_le : spec_float -> spec_float -> bool := SFleb.
Definition f_gt (x y : spec_float) : bool := SFltb y x.
Definition f_ge (x y : spec_float) : bool := SFleb y x.
Definition f_eq : spec_float -> spec_float -> bool := SFeqb.
Definition f_zero : spec_float := S754_zero false.
Definition is_nan (x : spec_float) : bool :=
  match x with S754_nan => true | _ => false end.
Definition is_inf (x : spec_float) : bool :=
  match x with S754_infinity _ => true | _ => false end.

(** The predeclared [min] and [max] on floats: NaN if either is NaN, and -0 below +0. *)
Definition neg_zero (x : spec_float) : bool :=
  match x with S754_zero true => true | _ => false end.
Definition f_min (x y : spec_float) : spec_float :=
  if is_nan x then S754_nan else if is_nan y then S754_nan
  else if f_lt x y then x
  else if f_lt y x then y
  else if neg_zero x then x else y.
Definition f_max (x y : spec_float) : spec_float :=
  if is_nan x then S754_nan else if is_nan y then S754_nan
  else if f_lt y x then x
  else if f_lt x y then y
  else if neg_zero x then y else x.

(** ** Conversions to integers *)

Definition min_int64 : Z := - 2 ^ 63.
Definition signed (s : bool) (m : Z) : Z := if s then - m else m.

(** The integer part, towards zero, of a finite float. *)
Definition trunc_abs (m : positive) (e : Z) : Z :=
  if 0 <=? e then Zpos m * 2 ^ e else Zpos m / 2 ^ (- e).
(** [int64(x)]: truncation; NaN, infinities and values out of range give the most negative
    integer, as the amd64 conversion instruction does. *)
Definition int64_of_Z (z : Z) : Z :=
  if ((min_int64 <=? z) && (z <? 2 ^ 63))%bool then z else min_int64.
Definition f64_to_int (x : f64) : Z :=
  match x with
  | S754_zero _ => 0
  | S754_finite s m e => int64_of_Z (signed s (trunc_abs m e))
  | _ => min_int64
  end.

(** [math.Round]: to the nearest integer, ties away from zero. *)
Definition round_abs (m : positive) (e : Z) : Z :=
  if 0 <=? e then Zpos m * 2 ^ e else (2 * Zpos m + 2 ^ (- e)) / (2 * 2 ^ (- e)).
Definition math_Round (x : f64) : f64 :=
  match x with
  | S754_finite s m e => binary_normalize 53 1024 (signed s (round_abs m e)) 0 s
  | _ => x
  end.

(** ** Facts *)

Lemma f_lt_irrefl x : f_lt x x = false.
Proof.
  destruct x as [[]|[]| |[] m e]; try reflexivity; unfold f_lt, SFltb, SFcompare;
    rewrite Z.compare_refl, ?Pos.compare_cont_refl; reflexivity.
Qed.

Lemma f_le_of_lt x y : f_lt x y = true -> f_le x y = true.
Proof. unfold f_lt, f_le, SFltb, SFleb. destruct (SFcompare x y) as [[]|]; congruence. Qed.

Lemma is_nan_false_cases x :
  is_nan x = false -> (exists s, x = S754_zero s) \/ (exists s, x = S754_infinity s) \/
                      (exists s m e, x = S754_finite s m e).
Proof. destruct x; cbn; eauto 7; congruence. Qed.

Lemma int64_of_Z_bounds z : min_int64 <= int64_of_Z z < 2 ^ 63.
Proof.
  unfold int64_of_Z. destruct (_ && _)%bool eqn:E; [|unfold min_int64; lia].
  apply andb_prop in E as [E1 E2]. lia.
Qed.

Lemma f64_to_int_bounds x : min_int64 <= f64_to_int x < 2 ^ 63.
Proof.
  destruct x as [ | | |s m e]; cbn [f64_to_int]; [unfold min_int64; lia | | |apply int64_of_Z_bounds];
    unfold min_int64; lia.
Qed.

(** ** The order on floats is an order on integer triples *)

(** The position of a float that is not NaN on the line: its class, then exponent and mantissa,
    both negated below zero. *)
Definition key (x : spec_float) : Z * Z * Z :=
  match x with
  | S754_infinity true => (-2, 0, 0)
  | S754_finite true m e => (-1, - e, Zneg m)
  | S754_zero _ | S754_nan => (0, 0, 0)
  | S754_finite false m e => (1, e, Zpos m)
  | S754_infinity false => (2, 0, 0)
  end.
Definition key_lt (a b : Z * Z * Z) : Prop :=
  let '(a1, a2, a3) := a in let '(b1, b2, b3) := b in
  a1 < b1 \/ (a1 = b1 /\ (a2 < b2 \/ (a2 = b2 /\ a3 < b3))).
Lemma key_lt_trans a b c : key_lt a b -> key_lt b c -> key_lt a c.
Proof. destruct a as [[]], b as [[]], c as [[]]; cbn; lia. Qed.
Lemma key_lt_total a b : key_lt a b \/ a = b \/ key_lt b a.
Proof.
  destruct a as [[a1 a2] a3], b as [[b1 b2] b3]; cbn.
  destruct (Z.lt_trichotomy a1 b1) as [|[->|]]; [lia| |lia].
  destruct (Z.lt_trichotomy a2 b2) as [|[->|]]; [lia| |lia].
  destruct (Z.lt_trichotomy a3 b3) as [|[->|]]; lia || auto.
Qed.
Lemma f_lt_key x y : f_lt x y = true <-> is_nan x = false /\ is_nan y = false /\ key_lt (key x) (key y).
Proof.
  destruct x as [[]|[]| |[] m e], y as [[]|[]| |[] n d]; unfold f_lt, SFltb, SFcompare; cbn;
    try (split; [discriminate|lia]); try (split; [|reflexivity]; lia); try lia.
  all: change (Pos.compare_cont Eq m n) with (m ?= n)%positive.
  all: destruct (Z.compare_spec e d), (Pos.compare_spec m n); cbn;
    (split; [first [discriminate | intros _; repeat split; lia]
            |first [reflexivity | intros (_ & _ & K); exfalso; lia]]).
Qed.
Lemma f_lt_trans x y z : f_lt x y = true -> f_lt y z = true -> f_lt x z = true.
Proof. rewrite !f_lt_key. intuition eauto using key_lt_trans. Qed.
Lemma f_lt_asym x y : f_lt x y = true -> f_lt y x = false.
Proof.
  intros E1. destruct (f_lt y x) eqn:E2; [|reflexivity].
  pose proof (f_lt_trans _ _ _ E1 E2). rewrite f_lt_irrefl in *. discriminate.
Qed.
(** [x < y], and [z] not below [y]: [x < z]. *)
Lemma f_lt_not_lt_trans x y z : f_lt x y = true -> is_nan z = false -> f_lt z y = false -> f_lt x z = true.
Proof.
  intros E Hz N. destruct (key_lt_total (key z) (key y)) as [T|[T|T]].
  - apply f_lt_key in E as (Hx & Hy & _). exfalso. revert N.
    rewrite (proj2 (f_lt_key z y)); auto. discriminate.
  - apply f_lt_key. apply f_lt_key in E as (? & ? & ?). rewrite T. auto.
  - apply f_lt_key. apply f_lt_key in E as (? & ? & ?). eauto using key_lt_trans.
Qed.

(** [y < z], and [y] not below [x]: [x < z]. *)
Lemma f_not_lt_lt_trans x y z : f_lt y z = true -> is_nan x = false -> f_lt y x = false -> f_lt x z = true.
Proof.
  intros E Hx N. apply f_lt_key in E as (Hy & Hz & K). apply f_lt_key. split; [exact Hx|split; [exact Hz|]].
  destruct (key_lt_total (key x) (key y)) as [T|[T|T]]; [eauto using key_lt_trans|rewrite T; exact K|].
  exfalso. revert N. rewrite (proj2 (f_lt_key y x)); auto. discriminate.
Qed.

(** ** Signs *)

(** A result of rounding whose sign is plus: not negative. *)
Definition plus_signed (x : f64) : Prop :=
  match x with
  | S754_zero s | S754_infinity s | S754_finite s _ _ => s = false
  | S754_nan => True
  end.
Lemma round_aux_plus m e l : plus_signed (binary_round_aux 53 1024 false m e l).
Proof.
  unfold binary_round_aux. destruct (shr_fexp _ _ _ _ _) as [mrs e'].
  destruct (shr_fexp _ _ _ _ _) as [mrs'' e'']. destruct (shr_m mrs''); try reflexivity.
  destruct (e'' <=? _); reflexivity.
Qed.
Lemma mul_plus x y : plus_signed x -> plus_signed y -> plus_signed (f64_mul x y).
Proof.
  destruct x as [[]|[]| |[]], y as [[]|[]| |[]]; cbn; try discriminate; try (intros; exact I);
    intros; try reflexivity. apply round_aux_plus.
Qed.
Lemma div_plus x y : plus_signed x -> plus_signed y -> plus_signed (f64_div x y).
Proof.
  destruct x as [[]|[]| |[]], y as [[]|[]| |[]]; cbn -[SFdiv_core_binary]; try discriminate;
    try (intros; exact I); intros; try reflexivity.
  match goal with |- context [SFdiv_core_binary ?p ?e ?m1 ?e1 ?m2 ?e2] =>
    destruct (SFdiv_core_binary p e m1 e1 m2 e2) as [[? ?] ?] end. apply round_aux_plus.
Qed.
Lemma normalize_plus z s : 0 <= z -> s = false -> plus_signed (binary_normalize 53 1024 z 0 s).
Proof.
  intros Hz ->. destruct z; [reflexivity| |lia]. unfold binary_normalize, binary_round.
  destruct (shl_align _ _ _). apply round_aux_plus.
Qed.
Lemma round_plus x : plus_signed x -> plus_signed (math_Round x).
Proof.
  destruct x as [| | |s m e]; auto. cbn. intros ->. apply normalize_plus; [|reflexivity].
  unfold signed, round_abs. destruct (Z.leb_spec 0 e); [apply Z.mul_nonneg_nonneg; lia|].
  apply Z.div_pos; lia.
Qed.
Lemma to_int_plus x : plus_signed x -> 0 <= f64_to_int x < 2 ^ 63 \/ f64_to_int x = min_int64.
Proof.
  destruct x as [| | |s m e]; cbn; intros P; [left; lia|right; reflexivity|right; reflexivity|].
  subst s. unfold signed, int64_of_Z. destruct (_ && _)%bool eqn:E; [|right; reflexivity].
  left. apply andb_prop in E as [_ E]. split; [|lia]. unfold trunc_abs.
  destruct (Z.leb_spec 0 e); [apply Z.mul_nonneg_nonneg; lia|apply Z.div_pos; lia].
Qed.
Lemma not_lt_zero_plus f : is_nan f = false -> f_lt f f_zero = false ->
  plus_signed f \/ f = S754_zero true.
Proof. destruct f as [[]|[]| |[]]; cbn; auto; discriminate. Qed.


Lemma plus_not_below_zero x : plus_signed x -> f_lt x f_zero = false.
Proof. destruct x as [| | |[]]; cbn; intros; subst; reflexivity || discriminate. Qed.
Lemma f_min_plus x y : plus_signed x -> plus_signed y -> plus_signed (f_min x y).
Proof.
  intros. unfold f_min. destruct (is_nan x), (is_nan y); try exact I.
  destruct (f_lt x y); [assumption|]. destruct (f_lt y x); [assumption|].
  destruct (neg_zero x); assumption.
Qed.
Lemma f_min_not_above_l x y : f_gt (f_min x y) x = false.
Proof.
  change (f_lt x (f_min x y) = false). unfold f_min.
  assert (N : f_lt x S754_nan = false) by (destruct x as [[]|[]| |[]]; reflexivity).
  destruct (is_nan x); [exact N|]. destruct (is_nan y); [exact N|].
  destruct (f_lt x y) eqn:E; [apply f_lt_irrefl|].
  destruct (f_lt y x); [exact E|]. destruct (neg_zero x); [apply f_lt_irrefl|exact E].
Qed.
