(* ===== verification/Types.v ===== *)
(** The data the router's parts exchange: session pins and usage (internal/router/sessionpin),
    routing decisions, their metadata and requests (internal/router/router.go), and the strategy
    names (internal/router/strategy.go).  Each record is a module whose fields keep the names of
    the Go struct; fields the modelled code never reads (raw embeddings, sidecar timings, tool
    descriptors and similar) are left out of [Metadata] and [Request]. *)

From stdpp Require Import base gmap sets list strings.
From Stdlib Require Import ZArith Lia.
From S2P Require Import Prelude Floats.
Open Scope string_scope.
Open Scope Z_scope.

(** A session key is a 16-byte string, an installation id a 16-byte uuid. *)
Definition SessionKeyLen : nat := 16.
Definition zero_bytes (n : nat) : string := utf8 (replicate n 0%nat).
Definition zero_session_key : string := zero_bytes SessionKeyLen.
Definition uuid_Nil : string := zero_bytes 16.
Definition DefaultRole : string := "default".

(** ** Strategies *)
Definition StrategyCluster : string := "cluster".
Definition StrategyRL : string := "rl".
Definition StrategyHMM : string := "hmm".
Definition StrategyHMMEmbedding : string := "hmm_embedding".
Definition StrategyHMMBeta : string := "hmm_beta".
Definition StrategyBandit : string := "bandit".
Definition IsHMMStrategy (s : string) : bool :=
  (String.eqb s StrategyHMM || String.eqb s StrategyHMMEmbedding || String.eqb s StrategyHMMBeta)%bool.

(** The strategy stashed on a request context: [None] when nothing was stashed. *)
Definition WithStrategy (ctx : option string) (s : string) : option string :=
  if String.eqb s "" then ctx else Some s.
Definition StrategyFromContext (ctx : option string) : string :=
  match ctx with
  | Some s => if String.eqb s "" then StrategyCluster else s
  | None => StrategyCluster
  end.

(** [sessionpin.Pin]: one row of the session-pin table. *)
Module Pin.
Record t := mk {
  SessionKey : string;
  Role : string;
  InstallationID : string;
  Provider : string;
  Model : string;
  PairedProvider : string;
  PairedModel : string;
  Reason : string;
  Strategy : string;
  PolicyGroup : string;
  TurnCount : Z;
  PinnedUntil : Z;
  FirstPinnedAt : Z;
  LastSeenAt : Z;
  LastInputTokens : Z;
  LastCachedReadTokens : Z;
  LastCachedWriteTokens : Z;
  LastOutputTokens : Z;
  LastTurnEndedAt : Z;
  ConsecutiveUpstreamErrors : Z;
  LastServedModel : string;
  HasEverSwitched : bool;
  ConsecutiveOverloadErrors : Z;
  DisabledProviders : list string
}.
(** The zero value. *)
Definition zero : t := {|
  SessionKey := zero_session_key; Role := ""; InstallationID := uuid_Nil; Provider := ""; Model :=
  ""; PairedProvider := ""; PairedModel := ""; Reason := ""; Strategy := ""; PolicyGroup := "";
  TurnCount := 0; PinnedUntil := 0; FirstPinnedAt := 0; LastSeenAt := 0; LastInputTokens := 0;
  LastCachedReadTokens := 0; LastCachedWriteTokens := 0; LastOutputTokens := 0; LastTurnEndedAt :=
  0; ConsecutiveUpstreamErrors := 0; LastServedModel := ""; HasEverSwitched := false;
  ConsecutiveOverloadErrors := 0; DisabledProviders := [] |}.
Definition set_Role (v : string) (r : t) : t := {|
  SessionKey := r.(SessionKey); Role := v; InstallationID := r.(InstallationID); Provider :=
  r.(Provider); Model := r.(Model); PairedProvider := r.(PairedProvider); PairedModel :=
  r.(PairedModel); Reason := r.(Reason); Strategy := r.(Strategy); PolicyGroup := r.(PolicyGroup);
  TurnCount := r.(TurnCount); PinnedUntil := r.(PinnedUntil); FirstPinnedAt := r.(FirstPinnedAt);
  LastSeenAt := r.(LastSeenAt); LastInputTokens := r.(LastInputTokens); LastCachedReadTokens :=
  r.(LastCachedReadTokens); LastCachedWriteTokens := r.(LastCachedWriteTokens); LastOutputTokens
  := r.(LastOutputTokens); LastTurnEndedAt := r.(LastTurnEndedAt); ConsecutiveUpstreamErrors :=
  r.(ConsecutiveUpstreamErrors); LastServedModel := r.(LastServedModel); HasEverSwitched :=
  r.(HasEverSwitched); ConsecutiveOverloadErrors := r.(ConsecutiveOverloadErrors);
  DisabledProviders := r.(DisabledProviders) |}.
Definition set_InstallationID (v : string) (r : t) : t := {|
  SessionKey := r.(SessionKey); Role := r.(Role); InstallationID := v; Provider := r.(Provider);
  Model := r.(Model); PairedProvider := r.(PairedProvider); PairedModel := r.(PairedModel); Reason
  := r.(Reason); Strategy := r.(Strategy); PolicyGroup := r.(PolicyGroup); TurnCount :=
  r.(TurnCount); PinnedUntil := r.(PinnedUntil); FirstPinnedAt := r.(FirstPinnedAt); LastSeenAt :=
  r.(LastSeenAt); LastInputTokens := r.(LastInputTokens); LastCachedReadTokens :=
  r.(LastCachedReadTokens); LastCachedWriteTokens := r.(LastCachedWriteTokens); LastOutputTokens
  := r.(LastOutputTokens); LastTurnEndedAt := r.(LastTurnEndedAt); ConsecutiveUpstreamErrors :=
  r.(ConsecutiveUpstreamErrors); LastServedModel := r.(LastServedModel); HasEverSwitched :=
  r.(HasEverSwitched); ConsecutiveOverloadErrors := r.(ConsecutiveOverloadErrors);
  DisabledProviders := r.(DisabledProviders) |}.
Definition set_Provider (v : string) (r : t) : t := {|
  SessionKey := r.(SessionKey); Role := r.(Role); InstallationID := r.(InstallationID); Provider
  := v; Model := r.(Model); PairedProvider := r.(PairedProvider); PairedModel := r.(PairedModel);
  Reason := r.(Reason); Strategy := r.(Strategy); PolicyGroup := r.(PolicyGroup); TurnCount :=
  r.(TurnCount); PinnedUntil := r.(PinnedUntil); FirstPinnedAt := r.(FirstPinnedAt); LastSeenAt :=
  r.(LastSeenAt); LastInputTokens := r.(LastInputTokens); LastCachedReadTokens :=
  r.(LastCachedReadTokens); LastCachedWriteTokens := r.(LastCachedWriteTokens); LastOutputTokens
  := r.(LastOutputTokens); LastTurnEndedAt := r.(LastTurnEndedAt); ConsecutiveUpstreamErrors :=
  r.(ConsecutiveUpstreamErrors); LastServedModel := r.(LastServedModel); HasEverSwitched :=
  r.(HasEverSwitched); ConsecutiveOverloadErrors := r.(ConsecutiveOverloadErrors);
  DisabledProviders := r.(DisabledProviders) |}.
Definition set_Model (v : string) (r : t) : t := {|
  SessionKey := r.(SessionKey); Role := r.(Role); InstallationID := r.(InstallationID); Provider
  := r.(Provider); Model := v; PairedProvider := r.(PairedProvider); PairedModel :=
  r.(PairedModel); Reason := r.(Reason); Strategy := r.(Strategy); PolicyGroup := r.(PolicyGroup);
  TurnCount := r.(TurnCount); PinnedUntil := r.(PinnedUntil); FirstPinnedAt := r.(FirstPinnedAt);
  LastSeenAt := r.(LastSeenAt); LastInputTokens := r.(LastInputTokens); LastCachedReadTokens :=
  r.(LastCachedReadTokens); LastCachedWriteTokens := r.(LastCachedWriteTokens); LastOutputTokens
  := r.(LastOutputTokens); LastTurnEndedAt := r.(LastTurnEndedAt); ConsecutiveUpstreamErrors :=
  r.(ConsecutiveUpstreamErrors); LastServedModel := r.(LastServedModel); HasEverSwitched :=
  r.(HasEverSwitched); ConsecutiveOverloadErrors := r.(ConsecutiveOverloadErrors);
  DisabledProviders := r.(DisabledProviders) |}.
Definition set_Reason (v : string) (r : t) : t := {|
  SessionKey := r.(SessionKey); Role := r.(Role); InstallationID := r.(InstallationID); Provider
  := r.(Provider); Model := r.(Model); PairedProvider := r.(PairedProvider); PairedModel :=
  r.(PairedModel); Reason := v; Strategy := r.(Strategy); PolicyGroup := r.(PolicyGroup);
  TurnCount := r.(TurnCount); PinnedUntil := r.(PinnedUntil); FirstPinnedAt := r.(FirstPinnedAt);
  LastSeenAt := r.(LastSeenAt); LastInputTokens := r.(LastInputTokens); LastCachedReadTokens :=
  r.(LastCachedReadTokens); LastCachedWriteTokens := r.(LastCachedWriteTokens); LastOutputTokens
  := r.(LastOutputTokens); LastTurnEndedAt := r.(LastTurnEndedAt); ConsecutiveUpstreamErrors :=
  r.(ConsecutiveUpstreamErrors); LastServedModel := r.(LastServedModel); HasEverSwitched :=
  r.(HasEverSwitched); ConsecutiveOverloadErrors := r.(ConsecutiveOverloadErrors);
  DisabledProviders := r.(DisabledProviders) |}.
Definition set_Strategy (v : string) (r : t) : t := {|
  SessionKey := r.(SessionKey); Role := r.(Role); InstallationID := r.(InstallationID); Provider
  := r.(Provider); Model := r.(Model); PairedProvider := r.(PairedProvider); PairedModel :=
  r.(PairedModel); Reason := r.(Reason); Strategy := v; PolicyGroup := r.(PolicyGroup); TurnCount
  := r.(TurnCount); PinnedUntil := r.(PinnedUntil); FirstPinnedAt := r.(FirstPinnedAt); LastSeenAt
  := r.(LastSeenAt); LastInputTokens := r.(LastInputTokens); LastCachedReadTokens :=
  r.(LastCachedReadTokens); LastCachedWriteTokens := r.(LastCachedWriteTokens); LastOutputTokens
  := r.(LastOutputTokens); LastTurnEndedAt := r.(LastTurnEndedAt); ConsecutiveUpstreamErrors :=
  r.(ConsecutiveUpstreamErrors); LastServedModel := r.(LastServedModel); HasEverSwitched :=
  r.(HasEverSwitched); ConsecutiveOverloadErrors := r.(ConsecutiveOverloadErrors);
  DisabledProviders := r.(DisabledProviders) |}.
Definition set_TurnCount (v : Z) (r : t) : t := {|
  SessionKey := r.(SessionKey); Role := r.(Role); InstallationID := r.(InstallationID); Provider
  := r.(Provider); Model := r.(Model); PairedProvider := r.(PairedProvider); PairedModel :=
  r.(PairedModel); Reason := r.(Reason); Strategy := r.(Strategy); PolicyGroup := r.(PolicyGroup);
  TurnCount := v; PinnedUntil := r.(PinnedUntil); FirstPinnedAt := r.(FirstPinnedAt); LastSeenAt
  := r.(LastSeenAt); LastInputTokens := r.(LastInputTokens); LastCachedReadTokens :=
  r.(LastCachedReadTokens); LastCachedWriteTokens := r.(LastCachedWriteTokens); LastOutputTokens
  := r.(LastOutputTokens); LastTurnEndedAt := r.(LastTurnEndedAt); ConsecutiveUpstreamErrors :=
  r.(ConsecutiveUpstreamErrors); LastServedModel := r.(LastServedModel); HasEverSwitched :=
  r.(HasEverSwitched); ConsecutiveOverloadErrors := r.(ConsecutiveOverloadErrors);
  DisabledProviders := r.(DisabledProviders) |}.
Definition set_PinnedUntil (v : Z) (r : t) : t := {|
  SessionKey := r.(SessionKey); Role := r.(Role); InstallationID := r.(InstallationID); Provider
  := r.(Provider); Model := r.(Model); PairedProvider := r.(PairedProvider); PairedModel :=
  r.(PairedModel); Reason := r.(Reason); Strategy := r.(Strategy); PolicyGroup := r.(PolicyGroup);
  TurnCount := r.(TurnCount); PinnedUntil := v; FirstPinnedAt := r.(FirstPinnedAt); LastSeenAt :=
  r.(LastSeenAt); LastInputTokens := r.(LastInputTokens); LastCachedReadTokens :=
  r.(LastCachedReadTokens); LastCachedWriteTokens := r.(LastCachedWriteTokens); LastOutputTokens
  := r.(LastOutputTokens); LastTurnEndedAt := r.(LastTurnEndedAt); ConsecutiveUpstreamErrors :=
  r.(ConsecutiveUpstreamErrors); LastServedModel := r.(LastServedModel); HasEverSwitched :=
  r.(HasEverSwitched); ConsecutiveOverloadErrors := r.(ConsecutiveOverloadErrors);
  DisabledProviders := r.(DisabledProviders) |}.
Definition set_ConsecutiveUpstreamErrors (v : Z) (r : t) : t := {|
  SessionKey := r.(SessionKey); Role := r.(Role); InstallationID := r.(InstallationID); Provider
  := r.(Provider); Model := r.(Model); PairedProvider := r.(PairedProvider); PairedModel :=
  r.(PairedModel); Reason := r.(Reason); Strategy := r.(Strategy); PolicyGroup := r.(PolicyGroup);
  TurnCount := r.(TurnCount); PinnedUntil := r.(PinnedUntil); FirstPinnedAt := r.(FirstPinnedAt);
  LastSeenAt := r.(LastSeenAt); LastInputTokens := r.(LastInputTokens); LastCachedReadTokens :=
  r.(LastCachedReadTokens); LastCachedWriteTokens := r.(LastCachedWriteTokens); LastOutputTokens
  := r.(LastOutputTokens); LastTurnEndedAt := r.(LastTurnEndedAt); ConsecutiveUpstreamErrors := v;
  LastServedModel := r.(LastServedModel); HasEverSwitched := r.(HasEverSwitched);
  ConsecutiveOverloadErrors := r.(ConsecutiveOverloadErrors); DisabledProviders :=
  r.(DisabledProviders) |}.
Definition set_LastServedModel (v : string) (r : t) : t := {|
  SessionKey := r.(SessionKey); Role := r.(Role); InstallationID := r.(InstallationID); Provider
  := r.(Provider); Model := r.(Model); PairedProvider := r.(PairedProvider); PairedModel :=
  r.(PairedModel); Reason := r.(Reason); Strategy := r.(Strategy); PolicyGroup := r.(PolicyGroup);
  TurnCount := r.(TurnCount); PinnedUntil := r.(PinnedUntil); FirstPinnedAt := r.(FirstPinnedAt);
  LastSeenAt := r.(LastSeenAt); LastInputTokens := r.(LastInputTokens); LastCachedReadTokens :=
  r.(LastCachedReadTokens); LastCachedWriteTokens := r.(LastCachedWriteTokens); LastOutputTokens
  := r.(LastOutputTokens); LastTurnEndedAt := r.(LastTurnEndedAt); ConsecutiveUpstreamErrors :=
  r.(ConsecutiveUpstreamErrors); LastServedModel := v; HasEverSwitched := r.(HasEverSwitched);
  ConsecutiveOverloadErrors := r.(ConsecutiveOverloadErrors); DisabledProviders :=
  r.(DisabledProviders) |}.
Definition set_ConsecutiveOverloadErrors (v : Z) (r : t) : t := {|
  SessionKey := r.(SessionKey); Role := r.(Role); InstallationID := r.(InstallationID); Provider
  := r.(Provider); Model := r.(Model); PairedProvider := r.(PairedProvider); PairedModel :=
  r.(PairedModel); Reason := r.(Reason); Strategy := r.(Strategy); PolicyGroup := r.(PolicyGroup);
  TurnCount := r.(TurnCount); PinnedUntil := r.(PinnedUntil); FirstPinnedAt := r.(FirstPinnedAt);
  LastSeenAt := r.(LastSeenAt); LastInputTokens := r.(LastInputTokens); LastCachedReadTokens :=
  r.(LastCachedReadTokens); LastCachedWriteTokens := r.(LastCachedWriteTokens); LastOutputTokens
  := r.(LastOutputTokens); LastTurnEndedAt := r.(LastTurnEndedAt); ConsecutiveUpstreamErrors :=
  r.(ConsecutiveUpstreamErrors); LastServedModel := r.(LastServedModel); HasEverSwitched :=
  r.(HasEverSwitched); ConsecutiveOverloadErrors := v; DisabledProviders := r.(DisabledProviders)
  |}.
Definition set_DisabledProviders (v : list string) (r : t) : t := {|
  SessionKey := r.(SessionKey); Role := r.(Role); InstallationID := r.(InstallationID); Provider
  := r.(Provider); Model := r.(Model); PairedProvider := r.(PairedProvider); PairedModel :=
  r.(PairedModel); Reason := r.(Reason); Strategy := r.(Strategy); PolicyGroup := r.(PolicyGroup);
  TurnCount := r.(TurnCount); PinnedUntil := r.(PinnedUntil); FirstPinnedAt := r.(FirstPinnedAt);
  LastSeenAt := r.(LastSeenAt); LastInputTokens := r.(LastInputTokens); LastCachedReadTokens :=
  r.(LastCachedReadTokens); LastCachedWriteTokens := r.(LastCachedWriteTokens); LastOutputTokens
  := r.(LastOutputTokens); LastTurnEndedAt := r.(LastTurnEndedAt); ConsecutiveUpstreamErrors :=
  r.(ConsecutiveUpstreamErrors); LastServedModel := r.(LastServedModel); HasEverSwitched :=
  r.(HasEverSwitched); ConsecutiveOverloadErrors := r.(ConsecutiveOverloadErrors);
  DisabledProviders := v |}.
Definition set_LastTurnEndedAt (v : Z) (r : t) : t := {|
  SessionKey := r.(SessionKey); Role := r.(Role); InstallationID := r.(InstallationID); Provider
  := r.(Provider); Model := r.(Model); PairedProvider := r.(PairedProvider); PairedModel :=
  r.(PairedModel); Reason := r.(Reason); Strategy := r.(Strategy); PolicyGroup :=
  r.(PolicyGroup); TurnCount := r.(TurnCount); PinnedUntil := r.(PinnedUntil); FirstPinnedAt :=
  r.(FirstPinnedAt); LastSeenAt := r.(LastSeenAt); LastInputTokens := r.(LastInputTokens);
  LastCachedReadTokens := r.(LastCachedReadTokens); LastCachedWriteTokens :=
  r.(LastCachedWriteTokens); LastOutputTokens := r.(LastOutputTokens); LastTurnEndedAt := v;
  ConsecutiveUpstreamErrors := r.(ConsecutiveUpstreamErrors); LastServedModel :=
  r.(LastServedModel); HasEverSwitched := r.(HasEverSwitched); ConsecutiveOverloadErrors :=
  r.(ConsecutiveOverloadErrors); DisabledProviders := r.(DisabledProviders) |}.
Definition set_PairedProvider (v : string) (r : t) : t := {|
  SessionKey := r.(SessionKey); Role := r.(Role); InstallationID := r.(InstallationID); Provider
  := r.(Provider); Model := r.(Model); PairedProvider := v; PairedModel := r.(PairedModel);
  Reason := r.(Reason); Strategy := r.(Strategy); PolicyGroup := r.(PolicyGroup); TurnCount :=
  r.(TurnCount); PinnedUntil := r.(PinnedUntil); FirstPinnedAt := r.(FirstPinnedAt); LastSeenAt
  := r.(LastSeenAt); LastInputTokens := r.(LastInputTokens); LastCachedReadTokens :=
  r.(LastCachedReadTokens); LastCachedWriteTokens := r.(LastCachedWriteTokens); LastOutputTokens
  := r.(LastOutputTokens); LastTurnEndedAt := r.(LastTurnEndedAt); ConsecutiveUpstreamErrors :=
  r.(ConsecutiveUpstreamErrors); LastServedModel := r.(LastServedModel); HasEverSwitched :=
  r.(HasEverSwitched); ConsecutiveOverloadErrors := r.(ConsecutiveOverloadErrors);
  DisabledProviders := r.(DisabledProviders) |}.
Definition set_PairedModel (v : string) (r : t) : t := {|
  SessionKey := r.(SessionKey); Role := r.(Role); InstallationID := r.(InstallationID); Provider
  := r.(Provider); Model := r.(Model); PairedProvider := r.(PairedProvider); PairedModel := v;
  Reason := r.(Reason); Strategy := r.(Strategy); PolicyGroup := r.(PolicyGroup); TurnCount :=
  r.(TurnCount); PinnedUntil := r.(PinnedUntil); FirstPinnedAt := r.(FirstPinnedAt); LastSeenAt
  := r.(LastSeenAt); LastInputTokens := r.(LastInputTokens); LastCachedReadTokens :=
  r.(LastCachedReadTokens); LastCachedWriteTokens := r.(LastCachedWriteTokens); LastOutputTokens
  := r.(LastOutputTokens); LastTurnEndedAt := r.(LastTurnEndedAt); ConsecutiveUpstreamErrors :=
  r.(ConsecutiveUpstreamErrors); LastServedModel := r.(LastServedModel); HasEverSwitched :=
  r.(HasEverSwitched); ConsecutiveOverloadErrors := r.(ConsecutiveOverloadErrors);
  DisabledProviders := r.(DisabledProviders) |}.
Definition set_PolicyGroup (v : string) (r : t) : t := {|
  SessionKey := r.(SessionKey); Role := r.(Role); InstallationID := r.(InstallationID); Provider
  := r.(Provider); Model := r.(Model); PairedProvider := r.(PairedProvider); PairedModel :=
  r.(PairedModel); Reason := r.(Reason); Strategy := r.(Strategy); PolicyGroup := v; TurnCount
  := r.(TurnCount); PinnedUntil := r.(PinnedUntil); FirstPinnedAt := r.(FirstPinnedAt);
  LastSeenAt := r.(LastSeenAt); LastInputTokens := r.(LastInputTokens); LastCachedReadTokens :=
  r.(LastCachedReadTokens); LastCachedWriteTokens := r.(LastCachedWriteTokens); LastOutputTokens
  := r.(LastOutputTokens); LastTurnEndedAt := r.(LastTurnEndedAt); ConsecutiveUpstreamErrors :=
  r.(ConsecutiveUpstreamErrors); LastServedModel := r.(LastServedModel); HasEverSwitched :=
  r.(HasEverSwitched); ConsecutiveOverloadErrors := r.(ConsecutiveOverloadErrors);
  DisabledProviders := r.(DisabledProviders) |}.
Definition set_FirstPinnedAt (v : Z) (r : t) : t := {|
  SessionKey := r.(SessionKey); Role := r.(Role); InstallationID := r.(InstallationID); Provider
  := r.(Provider); Model := r.(Model); PairedProvider := r.(PairedProvider); PairedModel :=
  r.(PairedModel); Reason := r.(Reason); Strategy := r.(Strategy); PolicyGroup :=
  r.(PolicyGroup); TurnCount := r.(TurnCount); PinnedUntil := r.(PinnedUntil); FirstPinnedAt :=
  v; LastSeenAt := r.(LastSeenAt); LastInputTokens := r.(LastInputTokens); LastCachedReadTokens
  := r.(LastCachedReadTokens); LastCachedWriteTokens := r.(LastCachedWriteTokens);
  LastOutputTokens := r.(LastOutputTokens); LastTurnEndedAt := r.(LastTurnEndedAt);
  ConsecutiveUpstreamErrors := r.(ConsecutiveUpstreamErrors); LastServedModel :=
  r.(LastServedModel); HasEverSwitched := r.(HasEverSwitched); ConsecutiveOverloadErrors :=
  r.(ConsecutiveOverloadErrors); DisabledProviders := r.(DisabledProviders) |}.
Definition set_LastSeenAt (v : Z) (r : t) : t := {|
  SessionKey := r.(SessionKey); Role := r.(Role); InstallationID := r.(InstallationID); Provider
  := r.(Provider); Model := r.(Model); PairedProvider := r.(PairedProvider); PairedModel :=
  r.(PairedModel); Reason := r.(Reason); Strategy := r.(Strategy); PolicyGroup :=
  r.(PolicyGroup); TurnCount := r.(TurnCount); PinnedUntil := r.(PinnedUntil); FirstPinnedAt :=
  r.(FirstPinnedAt); LastSeenAt := v; LastInputTokens := r.(LastInputTokens);
  LastCachedReadTokens := r.(LastCachedReadTokens); LastCachedWriteTokens :=
  r.(LastCachedWriteTokens); LastOutputTokens := r.(LastOutputTokens); LastTurnEndedAt :=
  r.(LastTurnEndedAt); ConsecutiveUpstreamErrors := r.(ConsecutiveUpstreamErrors);
  LastServedModel := r.(LastServedModel); HasEverSwitched := r.(HasEverSwitched);
  ConsecutiveOverloadErrors := r.(ConsecutiveOverloadErrors); DisabledProviders :=
  r.(DisabledProviders) |}.
Definition set_HasEverSwitched (v : bool) (r : t) : t := {|
  SessionKey := r.(SessionKey); Role := r.(Role); InstallationID := r.(InstallationID); Provider
  := r.(Provider); Model := r.(Model); PairedProvider := r.(PairedProvider); PairedModel :=
  r.(PairedModel); Reason := r.(Reason); Strategy := r.(Strategy); PolicyGroup :=
  r.(PolicyGroup); TurnCount := r.(TurnCount); PinnedUntil := r.(PinnedUntil); FirstPinnedAt :=
  r.(FirstPinnedAt); LastSeenAt := r.(LastSeenAt); LastInputTokens := r.(LastInputTokens);
  LastCachedReadTokens := r.(LastCachedReadTokens); LastCachedWriteTokens :=
  r.(LastCachedWriteTokens); LastOutputTokens := r.(LastOutputTokens); LastTurnEndedAt :=
  r.(LastTurnEndedAt); ConsecutiveUpstreamErrors := r.(ConsecutiveUpstreamErrors);
  LastServedModel := r.(LastServedModel); HasEverSwitched := v; ConsecutiveOverloadErrors :=
  r.(ConsecutiveOverloadErrors); DisabledProviders := r.(DisabledProviders) |}.
Definition set_SessionKey (v : string) (r : t) : t := {|
  SessionKey := v; Role := r.(Role); InstallationID := r.(InstallationID); Provider :=
  r.(Provider); Model := r.(Model); PairedProvider := r.(PairedProvider); PairedModel :=
  r.(PairedModel); Reason := r.(Reason); Strategy := r.(Strategy); PolicyGroup :=
  r.(PolicyGroup); TurnCount := r.(TurnCount); PinnedUntil := r.(PinnedUntil); FirstPinnedAt :=
  r.(FirstPinnedAt); LastSeenAt := r.(LastSeenAt); LastInputTokens := r.(LastInputTokens);
  LastCachedReadTokens := r.(LastCachedReadTokens); LastCachedWriteTokens :=
  r.(LastCachedWriteTokens); LastOutputTokens := r.(LastOutputTokens); LastTurnEndedAt :=
  r.(LastTurnEndedAt); ConsecutiveUpstreamErrors := r.(ConsecutiveUpstreamErrors);
  LastServedModel := r.(LastServedModel); HasEverSwitched := r.(HasEverSwitched);
  ConsecutiveOverloadErrors := r.(ConsecutiveOverloadErrors); DisabledProviders :=
  r.(DisabledProviders) |}.
End Pin.

(** [sessionpin.Usage]: the accounting of a completed turn. *)
Module Usage.
Record t := mk {
  Strategy : string;
  InputTokens : Z;
  CachedReadTokens : Z;
  CachedWriteTokens : Z;
  OutputTokens : Z;
  EndedAt : Z;
  ServedModel : string;
  ServedProvider : string;
  PriorServedModel : string;
  SessionEverSwitched : bool
}.
(** The zero value. *)
Definition zero : t := {|
  Strategy := ""; InputTokens := 0; CachedReadTokens := 0; CachedWriteTokens := 0; OutputTokens :=
  0; EndedAt := 0; ServedModel := ""; ServedProvider := ""; PriorServedModel := "";
  SessionEverSwitched := false |}.
End Usage.

(** [router.RoutingMetadata]. *)
Module Metadata.
Record t := mk {
  ClusterIDs : list Z;
  CandidateModels : list string;
  ChosenScore : f32;
  ClusterRouterVersion : string;
  Strategy : string;
  RouteID : string;
  PolicyRouteKey : string;
  PolicyGroup : string;
  PolicyArtifactID : string;
  PolicyArtifactSHA256 : string;
  RosterVersion : string;
  SelectedArmID : string;
  SelectedRosterArmID : string;
  SelectedUpstreamID : string;
  BindingIndex : Z;
  CandidateArmIDs : list string;
  SidecarSchemaVersion : string;
  DebugRef : string;
  AuthoritativePerTurnSelection : bool;
  DisplayMarker : string;
  EffectiveKnobsHash : Z;
  CandidateScores : gmap string f32;
  CandidateArmScores : gmap string f32;
  CandidateProviders : gmap string string;
  CandidateArmProviders : gmap string string;
  Propensity : f32;
  PairedModel : string;
  PairedProvider : string;
  PairedScore : f32;
  ArmScores : gmap string f32;
  Embedding : list f32
}.
(** The zero value. *)
Definition zero : t := {|
  ClusterIDs := []; CandidateModels := []; ChosenScore := f_zero; ClusterRouterVersion := "";
  Strategy := ""; RouteID := ""; PolicyRouteKey := ""; PolicyGroup := ""; PolicyArtifactID := "";
  PolicyArtifactSHA256 := ""; RosterVersion := ""; SelectedArmID := ""; SelectedRosterArmID := "";
  SelectedUpstreamID := ""; BindingIndex := 0; CandidateArmIDs := []; SidecarSchemaVersion := "";
  DebugRef := ""; AuthoritativePerTurnSelection := false; DisplayMarker := ""; EffectiveKnobsHash
  := 0; CandidateScores := ∅; CandidateArmScores := ∅; CandidateProviders := ∅;
  CandidateArmProviders := ∅; Propensity := f_zero; PairedModel := ""; PairedProvider := "";
  PairedScore := f_zero; ArmScores := ∅; Embedding := [] |}.
Definition set_EffectiveKnobsHash (v : Z) (r : t) : t := {|
  ClusterIDs := r.(ClusterIDs); CandidateModels := r.(CandidateModels); ChosenScore :=
  r.(ChosenScore); ClusterRouterVersion := r.(ClusterRouterVersion); Strategy := r.(Strategy);
  RouteID := r.(RouteID); PolicyRouteKey := r.(PolicyRouteKey); PolicyGroup := r.(PolicyGroup);
  PolicyArtifactID := r.(PolicyArtifactID); PolicyArtifactSHA256 := r.(PolicyArtifactSHA256);
  RosterVersion := r.(RosterVersion); SelectedArmID := r.(SelectedArmID); SelectedRosterArmID :=
  r.(SelectedRosterArmID); SelectedUpstreamID := r.(SelectedUpstreamID); BindingIndex :=
  r.(BindingIndex); CandidateArmIDs := r.(CandidateArmIDs); SidecarSchemaVersion :=
  r.(SidecarSchemaVersion); DebugRef := r.(DebugRef); AuthoritativePerTurnSelection :=
  r.(AuthoritativePerTurnSelection); DisplayMarker := r.(DisplayMarker); EffectiveKnobsHash := v;
  CandidateScores := r.(CandidateScores); CandidateArmScores := r.(CandidateArmScores);
  CandidateProviders := r.(CandidateProviders); CandidateArmProviders :=
  r.(CandidateArmProviders); Propensity := r.(Propensity); PairedModel := r.(PairedModel);
  PairedProvider := r.(PairedProvider); PairedScore := r.(PairedScore); ArmScores := r.(ArmScores); Embedding := r.(Embedding)
  |}.
Definition set_Propensity (v : f32) (r : t) : t := {|
  ClusterIDs := r.(ClusterIDs); CandidateModels := r.(CandidateModels); ChosenScore :=
  r.(ChosenScore); ClusterRouterVersion := r.(ClusterRouterVersion); Strategy := r.(Strategy);
  RouteID := r.(RouteID); PolicyRouteKey := r.(PolicyRouteKey); PolicyGroup := r.(PolicyGroup);
  PolicyArtifactID := r.(PolicyArtifactID); PolicyArtifactSHA256 := r.(PolicyArtifactSHA256);
  RosterVersion := r.(RosterVersion); SelectedArmID := r.(SelectedArmID); SelectedRosterArmID :=
  r.(SelectedRosterArmID); SelectedUpstreamID := r.(SelectedUpstreamID); BindingIndex :=
  r.(BindingIndex); CandidateArmIDs := r.(CandidateArmIDs); SidecarSchemaVersion :=
  r.(SidecarSchemaVersion); DebugRef := r.(DebugRef); AuthoritativePerTurnSelection :=
  r.(AuthoritativePerTurnSelection); DisplayMarker := r.(DisplayMarker); EffectiveKnobsHash :=
  r.(EffectiveKnobsHash); CandidateScores := r.(CandidateScores); CandidateArmScores :=
  r.(CandidateArmScores); CandidateProviders := r.(CandidateProviders); CandidateArmProviders :=
  r.(CandidateArmProviders); Propensity := v; PairedModel := r.(PairedModel); PairedProvider :=
  r.(PairedProvider); PairedScore := r.(PairedScore); ArmScores := r.(ArmScores); Embedding := r.(Embedding) |}.
Definition set_ChosenScore (v : f32) (r : t) : t := {|
  ClusterIDs := r.(ClusterIDs); CandidateModels := r.(CandidateModels); ChosenScore := v;
  ClusterRouterVersion := r.(ClusterRouterVersion); Strategy := r.(Strategy); RouteID :=
  r.(RouteID); PolicyRouteKey := r.(PolicyRouteKey); PolicyGroup := r.(PolicyGroup);
  PolicyArtifactID := r.(PolicyArtifactID); PolicyArtifactSHA256 := r.(PolicyArtifactSHA256);
  RosterVersion := r.(RosterVersion); SelectedArmID := r.(SelectedArmID); SelectedRosterArmID :=
  r.(SelectedRosterArmID); SelectedUpstreamID := r.(SelectedUpstreamID); BindingIndex :=
  r.(BindingIndex); CandidateArmIDs := r.(CandidateArmIDs); SidecarSchemaVersion :=
  r.(SidecarSchemaVersion); DebugRef := r.(DebugRef); AuthoritativePerTurnSelection :=
  r.(AuthoritativePerTurnSelection); DisplayMarker := r.(DisplayMarker); EffectiveKnobsHash :=
  r.(EffectiveKnobsHash); CandidateScores := r.(CandidateScores); CandidateArmScores :=
  r.(CandidateArmScores); CandidateProviders := r.(CandidateProviders); CandidateArmProviders :=
  r.(CandidateArmProviders); Propensity := r.(Propensity); PairedModel := r.(PairedModel);
  PairedProvider := r.(PairedProvider); PairedScore := r.(PairedScore); ArmScores := r.(ArmScores); Embedding := r.(Embedding)
  |}.
Definition set_PairedModel (v : string) (r : t) : t := {|
  ClusterIDs := r.(ClusterIDs); CandidateModels := r.(CandidateModels); ChosenScore :=
  r.(ChosenScore); ClusterRouterVersion := r.(ClusterRouterVersion); Strategy := r.(Strategy);
  RouteID := r.(RouteID); PolicyRouteKey := r.(PolicyRouteKey); PolicyGroup := r.(PolicyGroup);
  PolicyArtifactID := r.(PolicyArtifactID); PolicyArtifactSHA256 := r.(PolicyArtifactSHA256);
  RosterVersion := r.(RosterVersion); SelectedArmID := r.(SelectedArmID); SelectedRosterArmID :=
  r.(SelectedRosterArmID); SelectedUpstreamID := r.(SelectedUpstreamID); BindingIndex :=
  r.(BindingIndex); CandidateArmIDs := r.(CandidateArmIDs); SidecarSchemaVersion :=
  r.(SidecarSchemaVersion); DebugRef := r.(DebugRef); AuthoritativePerTurnSelection :=
  r.(AuthoritativePerTurnSelection); DisplayMarker := r.(DisplayMarker); EffectiveKnobsHash :=
  r.(EffectiveKnobsHash); CandidateScores := r.(CandidateScores); CandidateArmScores :=
  r.(CandidateArmScores); CandidateProviders := r.(CandidateProviders); CandidateArmProviders :=
  r.(CandidateArmProviders); Propensity := r.(Propensity); PairedModel := v; PairedProvider :=
  r.(PairedProvider); PairedScore := r.(PairedScore); ArmScores := r.(ArmScores); Embedding := r.(Embedding) |}.
Definition set_PairedProvider (v : string) (r : t) : t := {|
  ClusterIDs := r.(ClusterIDs); CandidateModels := r.(CandidateModels); ChosenScore :=
  r.(ChosenScore); ClusterRouterVersion := r.(ClusterRouterVersion); Strategy := r.(Strategy);
  RouteID := r.(RouteID); PolicyRouteKey := r.(PolicyRouteKey); PolicyGroup := r.(PolicyGroup);
  PolicyArtifactID := r.(PolicyArtifactID); PolicyArtifactSHA256 := r.(PolicyArtifactSHA256);
  RosterVersion := r.(RosterVersion); SelectedArmID := r.(SelectedArmID); SelectedRosterArmID :=
  r.(SelectedRosterArmID); SelectedUpstreamID := r.(SelectedUpstreamID); BindingIndex :=
  r.(BindingIndex); CandidateArmIDs := r.(CandidateArmIDs); SidecarSchemaVersion :=
  r.(SidecarSchemaVersion); DebugRef := r.(DebugRef); AuthoritativePerTurnSelection :=
  r.(AuthoritativePerTurnSelection); DisplayMarker := r.(DisplayMarker); EffectiveKnobsHash :=
  r.(EffectiveKnobsHash); CandidateScores := r.(CandidateScores); CandidateArmScores :=
  r.(CandidateArmScores); CandidateProviders := r.(CandidateProviders); CandidateArmProviders :=
  r.(CandidateArmProviders); Propensity := r.(Propensity); PairedModel := r.(PairedModel);
  PairedProvider := v; PairedScore := r.(PairedScore); ArmScores := r.(ArmScores); Embedding := r.(Embedding) |}.
Definition set_PairedScore (v : f32) (r : t) : t := {|
  ClusterIDs := r.(ClusterIDs); CandidateModels := r.(CandidateModels); ChosenScore :=
  r.(ChosenScore); ClusterRouterVersion := r.(ClusterRouterVersion); Strategy := r.(Strategy);
  RouteID := r.(RouteID); PolicyRouteKey := r.(PolicyRouteKey); PolicyGroup := r.(PolicyGroup);
  PolicyArtifactID := r.(PolicyArtifactID); PolicyArtifactSHA256 := r.(PolicyArtifactSHA256);
  RosterVersion := r.(RosterVersion); SelectedArmID := r.(SelectedArmID); SelectedRosterArmID :=
  r.(SelectedRosterArmID); SelectedUpstreamID := r.(SelectedUpstreamID); BindingIndex :=
  r.(BindingIndex); CandidateArmIDs := r.(CandidateArmIDs); SidecarSchemaVersion :=
  r.(SidecarSchemaVersion); DebugRef := r.(DebugRef); AuthoritativePerTurnSelection :=
  r.(AuthoritativePerTurnSelection); DisplayMarker := r.(DisplayMarker); EffectiveKnobsHash :=
  r.(EffectiveKnobsHash); CandidateScores := r.(CandidateScores); CandidateArmScores :=
  r.(CandidateArmScores); CandidateProviders := r.(CandidateProviders); CandidateArmProviders :=
  r.(CandidateArmProviders); Propensity := r.(Propensity); PairedModel := r.(PairedModel);
  PairedProvider := r.(PairedProvider); PairedScore := v; ArmScores := r.(ArmScores); Embedding := r.(Embedding) |}.
Definition set_SelectedArmID (v : string) (r : t) : t := {|
  ClusterIDs := r.(ClusterIDs); CandidateModels := r.(CandidateModels); ChosenScore :=
  r.(ChosenScore); ClusterRouterVersion := r.(ClusterRouterVersion); Strategy := r.(Strategy);
  RouteID := r.(RouteID); PolicyRouteKey := r.(PolicyRouteKey); PolicyGroup := r.(PolicyGroup);
  PolicyArtifactID := r.(PolicyArtifactID); PolicyArtifactSHA256 := r.(PolicyArtifactSHA256);
  RosterVersion := r.(RosterVersion); SelectedArmID := v; SelectedRosterArmID :=
  r.(SelectedRosterArmID); SelectedUpstreamID := r.(SelectedUpstreamID); BindingIndex :=
  r.(BindingIndex); CandidateArmIDs := r.(CandidateArmIDs); SidecarSchemaVersion :=
  r.(SidecarSchemaVersion); DebugRef := r.(DebugRef); AuthoritativePerTurnSelection :=
  r.(AuthoritativePerTurnSelection); DisplayMarker := r.(DisplayMarker); EffectiveKnobsHash :=
  r.(EffectiveKnobsHash); CandidateScores := r.(CandidateScores); CandidateArmScores :=
  r.(CandidateArmScores); CandidateProviders := r.(CandidateProviders); CandidateArmProviders :=
  r.(CandidateArmProviders); Propensity := r.(Propensity); PairedModel := r.(PairedModel);
  PairedProvider := r.(PairedProvider); PairedScore := r.(PairedScore); ArmScores := r.(ArmScores); Embedding := r.(Embedding)
  |}.
Definition set_SelectedUpstreamID (v : string) (r : t) : t := {|
  ClusterIDs := r.(ClusterIDs); CandidateModels := r.(CandidateModels); ChosenScore :=
  r.(ChosenScore); ClusterRouterVersion := r.(ClusterRouterVersion); Strategy := r.(Strategy);
  RouteID := r.(RouteID); PolicyRouteKey := r.(PolicyRouteKey); PolicyGroup := r.(PolicyGroup);
  PolicyArtifactID := r.(PolicyArtifactID); PolicyArtifactSHA256 := r.(PolicyArtifactSHA256);
  RosterVersion := r.(RosterVersion); SelectedArmID := r.(SelectedArmID); SelectedRosterArmID :=
  r.(SelectedRosterArmID); SelectedUpstreamID := v; BindingIndex := r.(BindingIndex);
  CandidateArmIDs := r.(CandidateArmIDs); SidecarSchemaVersion := r.(SidecarSchemaVersion);
  DebugRef := r.(DebugRef); AuthoritativePerTurnSelection := r.(AuthoritativePerTurnSelection);
  DisplayMarker := r.(DisplayMarker); EffectiveKnobsHash := r.(EffectiveKnobsHash);
  CandidateScores := r.(CandidateScores); CandidateArmScores := r.(CandidateArmScores);
  CandidateProviders := r.(CandidateProviders); CandidateArmProviders :=
  r.(CandidateArmProviders); Propensity := r.(Propensity); PairedModel := r.(PairedModel);
  PairedProvider := r.(PairedProvider); PairedScore := r.(PairedScore); ArmScores := r.(ArmScores); Embedding := r.(Embedding)
  |}.
Definition set_BindingIndex (v : Z) (r : t) : t := {|
  ClusterIDs := r.(ClusterIDs); CandidateModels := r.(CandidateModels); ChosenScore :=
  r.(ChosenScore); ClusterRouterVersion := r.(ClusterRouterVersion); Strategy := r.(Strategy);
  RouteID := r.(RouteID); PolicyRouteKey := r.(PolicyRouteKey); PolicyGroup := r.(PolicyGroup);
  PolicyArtifactID := r.(PolicyArtifactID); PolicyArtifactSHA256 := r.(PolicyArtifactSHA256);
  RosterVersion := r.(RosterVersion); SelectedArmID := r.(SelectedArmID); SelectedRosterArmID :=
  r.(SelectedRosterArmID); SelectedUpstreamID := r.(SelectedUpstreamID); BindingIndex := v;
  CandidateArmIDs := r.(CandidateArmIDs); SidecarSchemaVersion := r.(SidecarSchemaVersion);
  DebugRef := r.(DebugRef); AuthoritativePerTurnSelection := r.(AuthoritativePerTurnSelection);
  DisplayMarker := r.(DisplayMarker); EffectiveKnobsHash := r.(EffectiveKnobsHash);
  CandidateScores := r.(CandidateScores); CandidateArmScores := r.(CandidateArmScores);
  CandidateProviders := r.(CandidateProviders); CandidateArmProviders :=
  r.(CandidateArmProviders); Propensity := r.(Propensity); PairedModel := r.(PairedModel);
  PairedProvider := r.(PairedProvider); PairedScore := r.(PairedScore); ArmScores := r.(ArmScores); Embedding := r.(Embedding)
  |}.
End Metadata.

(** [router.Decision]: the model and provider a turn is routed to. *)
Module Decision.
Record t := mk {
  Provider : string;
  Model : string;
  Effort : string;
  Reason : string;
  Metadata : option Metadata.t
}.
(** The zero value. *)
Definition zero : t := {|
  Provider := ""; Model := ""; Effort := ""; Reason := ""; Metadata := None |}.
Definition set_Provider (v : string) (r : t) : t := {|
  Provider := v; Model := r.(Model); Effort := r.(Effort); Reason := r.(Reason); Metadata :=
  r.(Metadata) |}.
Definition set_Model (v : string) (r : t) : t := {|
  Provider := r.(Provider); Model := v; Effort := r.(Effort); Reason := r.(Reason); Metadata :=
  r.(Metadata) |}.
Definition set_Effort (v : string) (r : t) : t := {|
  Provider := r.(Provider); Model := r.(Model); Effort := v; Reason := r.(Reason); Metadata :=
  r.(Metadata) |}.
Definition set_Reason (v : string) (r : t) : t := {|
  Provider := r.(Provider); Model := r.(Model); Effort := r.(Effort); Reason := v; Metadata :=
  r.(Metadata) |}.
Definition set_Metadata (v : option Metadata.t) (r : t) : t := {|
  Provider := r.(Provider); Model := r.(Model); Effort := r.(Effort); Reason := r.(Reason);
  Metadata := v |}.
End Decision.

(** [Decision.ServedIdentity] *)
Definition ServedIdentity (d : Decision.t) : string :=
  if String.eqb d.(Decision.Effort) "" then d.(Decision.Model)
  else d.(Decision.Model) +:+ ":" +:+ d.(Decision.Effort).

(** [router.Overrides]. *)
Record Overrides := {
  Alpha : option f64;
  QualityBias : option f64;
  SpeedWeight : option f64;
  OutputCostRatio : option f64;
  ExpectedOutputTokens : option Z;
  PerModelVerbosity : option bool;
  ForceEffort : string
}.
Definition no_overrides : Overrides :=
  {| Alpha := None; QualityBias := None; SpeedWeight := None; OutputCostRatio := None;
     ExpectedOutputTokens := None; PerModelVerbosity := None; ForceEffort := "" |}.

(** [router.Request]. *)
Module Request.
Record t := mk {
  RequestedModel : string;
  ForceModel : string;
  ForceCluster : string;
  EstimatedInputTokens : Z;
  OrganizationID : string;
  InstallationID : string;
  HasTools : bool;
  HasImages : bool;
  PromptText : string;
  HistoryTruncated : bool;
  EnabledProviders : option (gset string);
  ExcludedModels : option (gset string);
  AllowedModels : option (gset string);
  SafetyExcludedModels : option (gset string);
  AutomaticExcludedModels : option (gset string);
  SubsidizedModelCostFactor : gmap string f64
}.
(** The zero value. *)
Definition zero : t := {|
  RequestedModel := ""; ForceModel := ""; ForceCluster := ""; EstimatedInputTokens := 0;
  OrganizationID := ""; InstallationID := ""; HasTools := false; HasImages := false; PromptText :=
  ""; HistoryTruncated := false; EnabledProviders := None; ExcludedModels := None; AllowedModels
  := None; SafetyExcludedModels := None; AutomaticExcludedModels := None;
  SubsidizedModelCostFactor := ∅ |}.
Definition set_EnabledProviders (v : option (gset string)) (r : t) : t := {|
  RequestedModel := r.(RequestedModel); ForceModel := r.(ForceModel); ForceCluster :=
  r.(ForceCluster); EstimatedInputTokens := r.(EstimatedInputTokens); OrganizationID :=
  r.(OrganizationID); InstallationID := r.(InstallationID); HasTools := r.(HasTools); HasImages :=
  r.(HasImages); PromptText := r.(PromptText); HistoryTruncated := r.(HistoryTruncated);
  EnabledProviders := v; ExcludedModels := r.(ExcludedModels); AllowedModels := r.(AllowedModels);
  SafetyExcludedModels := r.(SafetyExcludedModels); AutomaticExcludedModels :=
  r.(AutomaticExcludedModels); SubsidizedModelCostFactor := r.(SubsidizedModelCostFactor) |}.
Definition set_ExcludedModels (v : option (gset string)) (r : t) : t := {|
  RequestedModel := r.(RequestedModel); ForceModel := r.(ForceModel); ForceCluster :=
  r.(ForceCluster); EstimatedInputTokens := r.(EstimatedInputTokens); OrganizationID :=
  r.(OrganizationID); InstallationID := r.(InstallationID); HasTools := r.(HasTools); HasImages :=
  r.(HasImages); PromptText := r.(PromptText); HistoryTruncated := r.(HistoryTruncated);
  EnabledProviders := r.(EnabledProviders); ExcludedModels := v; AllowedModels :=
  r.(AllowedModels); SafetyExcludedModels := r.(SafetyExcludedModels); AutomaticExcludedModels :=
  r.(AutomaticExcludedModels); SubsidizedModelCostFactor := r.(SubsidizedModelCostFactor) |}.
Definition set_SafetyExcludedModels (v : option (gset string)) (r : t) : t := {|
  RequestedModel := r.(RequestedModel); ForceModel := r.(ForceModel); ForceCluster :=
  r.(ForceCluster); EstimatedInputTokens := r.(EstimatedInputTokens); OrganizationID :=
  r.(OrganizationID); InstallationID := r.(InstallationID); HasTools := r.(HasTools); HasImages :=
  r.(HasImages); PromptText := r.(PromptText); HistoryTruncated := r.(HistoryTruncated);
  EnabledProviders := r.(EnabledProviders); ExcludedModels := r.(ExcludedModels); AllowedModels :=
  r.(AllowedModels); SafetyExcludedModels := v; AutomaticExcludedModels :=
  r.(AutomaticExcludedModels); SubsidizedModelCostFactor := r.(SubsidizedModelCostFactor) |}.
End Request.
