(* ===== verification/Catalog.v ===== *)
(** The model catalog: internal/router/catalog (catalog.go, lookup.go, cost.go) and the date-suffix
    rule of internal/router/model.go.  One definition per function; the package's global maps
    [byID] and [byUpstreamID] are built by the definition that mirrors [init]. *)

From stdpp Require Import base gmap sets list strings.
From Stdlib Require Import ZArith Lia Ascii Sorted SpecFloat.
From S2P Require Import Prelude Floats Types.
Open Scope string_scope.
Open Scope Z_scope.

(** ** Data (catalog.go) *)

Inductive Tier := TierUnknown | TierLow | TierMid | TierHigh.
(** Go compares tiers as integers. *)
Definition tier_rank (t : Tier) : Z :=
  match t with TierUnknown => 0 | TierLow => 1 | TierMid => 2 | TierHigh => 3 end.
Definition Tier_String (t : Tier) : string :=
  match t with TierLow => "low" | TierMid => "mid" | TierHigh => "high" | TierUnknown => "unknown" end.
#[export] Instance Tier_eq_dec : EqDecision Tier.
Proof. solve_decision. Defined.

Record Pricing := {
  InputUSDPer1M : f64;
  OutputUSDPer1M : f64;
  CacheWriteMultiplier : f64;
  CacheReadMultiplier : f64
}.
Definition zero_Pricing : Pricing :=
  {| InputUSDPer1M := f_zero; OutputUSDPer1M := f_zero;
     CacheWriteMultiplier := f_zero; CacheReadMultiplier := f_zero |}.
Definition DefaultCacheReadMultiplier : f64 := f64_lit 1 2.
Definition DefaultCacheWriteMultiplier : f64 := f64_lit 5 4.
Definition EffectiveCacheReadMultiplier (p : Pricing) : f64 :=
  if f_gt p.(CacheReadMultiplier) f_zero then p.(CacheReadMultiplier)
  else DefaultCacheReadMultiplier.
Definition EffectiveCacheWriteMultiplier (p : Pricing) : f64 :=
  if f_gt p.(CacheWriteMultiplier) f_zero then p.(CacheWriteMultiplier)
  else DefaultCacheWriteMultiplier.

Record ProviderBinding := {
  Provider : string;
  UpstreamID : string;
  Price : Pricing;
  binding_ContextWindow : Z
}.
Inductive ToolUseQuality := ToolUseUnknown | ToolUseLow.
Inductive AgenticUse := AgenticUnknown | AgenticLow.
Inductive ImageInput := ImageInputUnknown | ImageInputUnsupported.
Record Model := {
  ID : string;
  model_Tier : Tier;
  HMMTarget : bool;
  ContextWindow : Z;
  model_ToolUseQuality : ToolUseQuality;
  model_AgenticUse : AgenticUse;
  model_ImageInput : ImageInput;
  ThinkTagReasoning : bool;
  ReasoningEfforts : list string;
  Providers : list ProviderBinding
}.

Definition ProviderAiand : string := "aiand".
Definition EffortNone := "none".
Definition EffortLow := "low".
Definition EffortMedium := "medium".
Definition EffortHigh := "high".
Definition EffortXHigh := "xhigh".
Definition EffortMax := "max".

Definition PrimaryProvider (m : Model) : string :=
  match m.(Providers) with
  | [] => ""
  | b :: _ => b.(Provider)
  end.

(** A row of the table: one aiand binding, prices as thousandths of a dollar, the cache-read
    multiplier as the exact quotient Go's constant arithmetic computes before rounding. *)
Definition aiand_binding (upstream : string) (input output readn readd : Z) : ProviderBinding :=
  {| Provider := ProviderAiand; UpstreamID := upstream;
     Price := {| InputUSDPer1M := f64_lit input 1000; OutputUSDPer1M := f64_lit output 1000;
                 CacheWriteMultiplier := f_zero; CacheReadMultiplier := f64_lit readn readd |};
     binding_ContextWindow := 0 |}.
Definition row (id : string) (tier : Tier) (cw : Z) (agentic : AgenticUse) (img : ImageInput)
    (efforts : list string) (b : ProviderBinding) : Model :=
  {| ID := id; model_Tier := tier; HMMTarget := false; ContextWindow := cw;
     model_ToolUseQuality := ToolUseUnknown; model_AgenticUse := agentic; model_ImageInput := img;
     ThinkTagReasoning := false; ReasoningEfforts := efforts; Providers := [b] |}.

Definition Models : list Model :=
  [ row "deepseek-ai/deepseek-v4-flash" TierLow 1048576 AgenticLow ImageInputUnsupported
        [EffortNone; EffortHigh; EffortMax]
        (aiand_binding "deepseek-ai/deepseek-v4-flash" 150 250 8 15);
    row "moonshotai/kimi-k2.7" TierHigh 262144 AgenticUnknown ImageInputUnsupported
        [EffortHigh]
        (aiand_binding "moonshotai/kimi-k2.7-code" 750 3500 4 15);
    row "moonshotai/kimi-k3" TierHigh 1048576 AgenticUnknown ImageInputUnknown
        [EffortLow; EffortHigh; EffortMax]
        (aiand_binding "moonshotai/kimi-k3" 3000 12500 1 6);
    row "motif-technologies/motif-3" TierMid 262144 AgenticUnknown ImageInputUnknown
        [EffortLow; EffortMedium; EffortHigh]
        (aiand_binding "motif-technologies/motif-3" 500 2000 2 5);
    row "zai-org/glm-5.3" TierHigh 1048576 AgenticUnknown ImageInputUnsupported
        [EffortNone; EffortLow; EffortXHigh; EffortMax]
        (aiand_binding "zai-org/glm-5.3" 1000 4000 3 10);
    row "qwen/qwen3.8-27b" TierLow 262144 AgenticUnknown ImageInputUnknown
        [EffortNone; EffortLow; EffortMedium; EffortXHigh]
        (aiand_binding "qwen/qwen3.8-27b" 400 3000 1 2) ].

Definition aliases : list (string * string) :=
  [ ("z-ai/glm-5.2", "zai-org/glm-5.3");
    ("zai-org/glm-5.2", "zai-org/glm-5.3");
    ("z-ai/glm-5.3", "zai-org/glm-5.3");
    ("qwen/qwen3.6-27b", "qwen/qwen3.8-27b") ].
Definition alias_map : gmap string string := list_to_map aliases.

(** ** Date suffixes (model.go) *)

Definition is_digit (a : ascii) : bool :=
  let n := nat_of_ascii a in (Nat.leb 48 n && Nat.leb n 57)%bool.
(** [\d{n}] at the head of [s]: what follows it. *)
Fixpoint digits (n : nat) (s : string) : option string :=
  match n, s with
  | O, _ => Some s
  | S n', String a s' => if is_digit a then digits n' s' else None
  | S _, EmptyString => None
  end.
(** [-?]: greedy, and a later [\d] never starts with a dash, so no backtracking is needed. *)
Definition opt_dash (s : string) : string :=
  match s with
  | String a s' => if Ascii.eqb a "-"%char then s' else s
  | EmptyString => s
  end.
(** [-\d{4}-?\d{2}-?\d{2}$] on all of [s]. *)
Definition is_date_stamp (s : string) : bool :=
  match s with
  | String a s1 =>
      if Ascii.eqb a "-"%char then
        match digits 4 s1 with
        | Some s2 => match digits 2 (opt_dash s2) with
                     | Some s3 => match digits 2 (opt_dash s3) with
                                  | Some s4 => String.eqb s4 ""
                                  | None => false
                                  end
                     | None => false
                     end
        | None => false
        end
      else false
  | EmptyString => false
  end.
(** [dateSuffix.ReplaceAllString(model, "")]: the leftmost match, which runs to the end. *)
Fixpoint StripDateSuffix (s : string) : string :=
  if is_date_stamp s then ""
  else match s with
       | EmptyString => ""
       | String a s' => String a (StripDateSuffix s')
       end.

(** ** Indexes (lookup.go) *)

Section Lookup.
Context `{GoUnicode}.

Definition insert_new (k : string) (i : nat) (m : gmap string nat) : gmap string nat :=
  match m !! k with
  | Some _ => m
  | None => <[k := i]> m
  end.

Definition indexUpstreamID (upstreamID : string) (i : nat) (up : gmap string nat) :
    gmap string nat :=
  let up := insert_new upstreamID i up in
  let lower := ToLower upstreamID in
  if String.eqb lower upstreamID then up else insert_new lower i up.

(** [init]: one pass over the table, then the aliases whose canonical id is a row. *)
Fixpoint index_models (i : nat) (ms : list Model) (ix : gmap string nat * gmap string nat) :
    gmap string nat * gmap string nat :=
  match ms with
  | [] => ix
  | m :: ms' =>
      let id := <[m.(ID) := i]> ix.1 in
      let up := foldl (fun up b =>
                  if (String.eqb b.(UpstreamID) "" || String.eqb b.(UpstreamID) m.(ID))%bool then up
                  else indexUpstreamID b.(UpstreamID) i up) ix.2 m.(Providers) in
      index_models (S i) ms' (id, up)
  end.
Definition index_aliases (id : gmap string nat) : gmap string nat :=
  foldl (fun id '(alias, canonical) =>
           match id !! canonical with
           | Some i => insert_new alias i id
           | None => id
           end) id aliases.
Definition indexes : gmap string nat * gmap string nat := index_models 0 Models (∅, ∅).
Definition byID : gmap string nat := index_aliases indexes.1.
Definition byUpstreamID : gmap string nat := indexes.2.

Definition modelIndex (id : string) : option nat :=
  match byID !! id with
  | Some i => Some i
  | None =>
      let base := StripDateSuffix id in
      match (if String.eqb base id then None else byID !! base) with
      | Some i => Some i
      | None =>
          match byUpstreamID !! id with
          | Some i => Some i
          | None =>
              let lower := ToLower id in
              if String.eqb lower id then None else byUpstreamID !! lower
          end
      end
  end.

(** [Models[i]]; every index the maps hold is in range (theorem [byID_in_range]). *)
Definition model_at (i : nat) : option Model := Models !! i.

Definition ByID (id : string) : option Model :=
  match byID !! id with
  | Some i => model_at i
  | None =>
      let base := StripDateSuffix id in
      if String.eqb base id then None
      else match byID !! base with
           | Some i => model_at i
           | None => None
           end
  end.

Definition ByIDOrUpstream (id : string) : option Model :=
  match modelIndex id with
  | Some i => model_at i
  | None => None
  end.
Definition resolveModelForWindow (id : string) : option Model := ByIDOrUpstream id.

Definition ResolveBinding (id : string) (available : option (gset string)) :
    option ProviderBinding :=
  match modelIndex id with
  | Some i => match model_at i with
              | Some m => List.find (fun b => in_opt_set b.(Provider) available) m.(Providers)
              | None => None
              end
  | None => None
  end.

(** [IndexedBinding]: a binding with its position in the row. *)
Definition IndexedBinding : Type := nat * ProviderBinding.
Definition EnumerateBindings (id : string) (available : option (gset string)) :
    list IndexedBinding :=
  match ByID id with
  | None => []
  | Some m => List.filter (fun ib => in_opt_set ib.2.(Provider) available)
                (imap (fun i b => (i, b)) m.(Providers))
  end.
Definition AvailableBindings (id : string) (available : option (gset string)) :
    list ProviderBinding := snd <$> EnumerateBindings id available.

Definition RoutingTargetSet (availableProviders : option (gset string)) : gset string :=
  foldl (fun out m =>
           match m.(model_Tier) with
           | TierUnknown => out
           | _ => match EnumerateBindings m.(ID) availableProviders with
                  | [] => out
                  | _ => {[ m.(ID) ]} ∪ out
                  end
           end) ∅ Models.
Definition HMMRoutingTargetSet (availableProviders : option (gset string)) : gset string :=
  foldl (fun out m =>
           if (negb m.(HMMTarget)
               || bool_decide (EnumerateBindings m.(ID) availableProviders = []))%bool
           then out else {[ m.(ID) ]} ∪ out) (RoutingTargetSet availableProviders) Models.

Definition UpstreamIDFor (catalogID bindingID : string) : string :=
  if String.eqb bindingID "" then catalogID else bindingID.

Definition PriceFor (provider id : string) : option Pricing :=
  match ByIDOrUpstream id with
  | None => None
  | Some m => Price <$> List.find (fun b => String.eqb b.(Provider) provider) m.(Providers)
  end.
Definition PrimaryPriceFor (id : string) : option Pricing :=
  match ByIDOrUpstream id with
  | None => None
  | Some m => match m.(Providers) with
              | [] => None
              | b :: _ => Some b.(Price)
              end
  end.

Definition TierFor (id : string) : Tier :=
  match ByID id with
  | Some m => m.(model_Tier)
  | None => TierUnknown
  end.
Definition ThinkTagReasoningFor (id : string) : bool :=
  match ByID id with
  | Some m => m.(ThinkTagReasoning)
  | None => false
  end.
Definition ReasoningEffortsFor (id : string) : list string :=
  match ByIDOrUpstream id with
  | Some m => m.(ReasoningEfforts)
  | None => []
  end.
Definition IsAtOrBelow (id : string) (ceiling : Tier) : bool :=
  match TierFor id with
  | TierUnknown => false
  | t => tier_rank t <=? tier_rank ceiling
  end.
Definition AllowedAtOrBelow (ceiling : Tier) : gset string :=
  foldl (fun out m =>
           match m.(model_Tier) with
           | TierUnknown => out
           | t => if tier_rank t <=? tier_rank ceiling then {[ m.(ID) ]} ∪ out else out
           end) ∅ Models.

Definition DefaultContextWindow : Z := 128000.
Definition ContextWindowFor (id : string) : Z :=
  match resolveModelForWindow id with
  | None => DefaultContextWindow
  | Some m => if m.(ContextWindow) <=? 0 then DefaultContextWindow else m.(ContextWindow)
  end.
Definition ContextWindowForBinding (modelID provider : string) : Z :=
  match resolveModelForWindow modelID with
  | None => DefaultContextWindow
  | Some m =>
      let cw := if m.(ContextWindow) <=? 0 then DefaultContextWindow else m.(ContextWindow) in
      match List.find (fun b => (String.eqb b.(Provider) provider
                                 && (0 <? b.(binding_ContextWindow)))%bool) m.(Providers) with
      | Some b => b.(binding_ContextWindow)
      | None => cw
      end
  end.

Definition foldAliasesInto (out : gset string) : gset string :=
  foldl (fun out '(alias, canonical) =>
           if in_set canonical out then {[ alias ]} ∪ out else out) out aliases.
Definition flagged_set (flag : Model -> bool) : gset string :=
  foldl (fun out m => if flag m then {[ m.(ID) ]} ∪ out else out) ∅ Models.
Definition ToolUseLowSet : gset string :=
  foldAliasesInto (flagged_set (fun m =>
    match m.(model_ToolUseQuality) with ToolUseLow => true | _ => false end)).
Definition AgenticLowSet : gset string :=
  foldAliasesInto (flagged_set (fun m =>
    match m.(model_AgenticUse) with AgenticLow => true | _ => false end)).
Definition ImageUnsupportedSet : gset string :=
  foldAliasesInto (flagged_set (fun m =>
    match m.(model_ImageInput) with ImageInputUnsupported => true | _ => false end)).
Definition AcceptsImages (id : string) : bool :=
  match ByID id with
  | None => true
  | Some m => match m.(model_ImageInput) with ImageInputUnsupported => false | _ => true end
  end.

Definition AllPrimaryPricing : gmap string Pricing :=
  foldl (fun out m => match m.(Providers) with
                      | [] => out
                      | b :: _ => <[m.(ID) := b.(Price)]> out
                      end) ∅ Models.

(** [ValidateDeployed]: the complaints it would join into its error, before sorting. *)
Definition deployed_complaints (deployed : list string) : list string :=
  foldl (fun missing id =>
           match ByIDOrUpstream id with
           | None => (missing ++ [id +:+ " (not in catalog)"])%list
           | Some m => match m.(model_Tier) with
                       | TierUnknown => (missing ++ [id +:+ " (no tier set)"])%list
                       | _ => missing
                       end
           end) [] deployed.

Definition CanonicalModel (id : string) : string :=
  match byID !! id with
  | Some i => match model_at i with Some m => m.(ID) | None => "" end
  | None =>
      match byUpstreamID !! id with
      | Some _ => id
      | None =>
          let lower := ToLower id in
          let by_lower :=
            if String.eqb lower id then None
            else match byUpstreamID !! lower with
                 | Some _ => Some id
                 | None => alias_map !! lower
                 end in
          match by_lower with
          | Some r => r
          | None => match alias_map !! id with
                    | Some canonical => canonical
                    | None => id
                    end
          end
      end
  end.

End Lookup.

(** ** Costs (cost.go) *)

(** [1_000_000] as a double. *)
Definition million : f64 := f64_of_Z 1000000.

Definition EffectiveInputCost (inputTokens cacheCreation cacheRead : Z) (pricePer1M : f64)
    (p : Pricing) : f64 :=
  let fresh := wrap64 (wrap64 (inputTokens - cacheCreation) - cacheRead) in
  let fresh := if fresh <? 0 then 0 else fresh in
  f64_mul (f64_div (f64_add (f64_add (f64_of_Z fresh)
                       (f64_mul (f64_of_Z cacheCreation) (EffectiveCacheWriteMultiplier p)))
                       (f64_mul (f64_of_Z cacheRead) (EffectiveCacheReadMultiplier p)))
             million) pricePer1M.
Definition EffectiveOutputCost (outputTokens : Z) (pricePer1M : f64) : f64 :=
  f64_mul (f64_div (f64_of_Z outputTokens) million) pricePer1M.
Definition USDToMicros (f : f64) : Z :=
  if (is_nan f || is_inf f || f_lt f f_zero)%bool then 0
  else f64_to_int (math_Round (f64_mul f million)).
Definition SignedUSDToMicros (f : f64) : Z :=
  if (is_nan f || is_inf f)%bool then 0
  else f64_to_int (math_Round (f64_mul f million)).

(** ** The table is well formed *)

Section Facts.
Context `{GoUnicode}.

(** One row of the table, as the lookups rely on it: the index finds it, its canonical name is
    itself, and it has a binding to dispatch to. *)
Definition row_ok (i : nat) (m : Model) : bool :=
  (bool_decide (byID !! m.(ID) = Some i) && negb (String.eqb m.(ID) "")
   && negb (bool_decide (m.(Providers) = [])))%bool.

Lemma models_ok i m : Models !! i = Some m -> row_ok i m = true.
Proof. intros E. repeat (destruct i; [injection E as <-; vm_compute; reflexivity|]). discriminate E. Qed.

(** A check of every entry of a map, by evaluation. *)
Definition entries_ok {A} (check : string -> A -> bool) (m : gmap string A) : bool :=
  forallb (fun kv => check kv.1 kv.2) (map_to_list m).
Lemma entries_ok_lookup {A} (check : string -> A -> bool) (m : gmap string A) k x :
  entries_ok check m = true -> m !! k = Some x -> check k x = true.
Proof.
  intros Hm Hk. unfold entries_ok in Hm. rewrite forallb_forall in Hm. apply (Hm (k, x)).
  apply list_elem_of_In, elem_of_map_to_list, Hk.
Qed.

(** An entry of the indexes names a row of the table. *)
Lemma model_at_in_range i : Nat.ltb i 6 = true -> is_Some (model_at i).
Proof. intros E%Nat.ltb_lt. apply lookup_lt_is_Some. exact E. Qed.
Lemma byID_in_range k i : byID !! k = Some i -> is_Some (model_at i).
Proof.
  intros E. apply model_at_in_range. revert E.
  apply (entries_ok_lookup (fun _ i => Nat.ltb i 6)). vm_compute. reflexivity.
Qed.
Lemma byUpstreamID_in_range k i : byUpstreamID !! k = Some i -> is_Some (model_at i).
Proof.
  intros E. apply model_at_in_range. revert E.
  apply (entries_ok_lookup (fun _ i => Nat.ltb i 6)). vm_compute. reflexivity.
Qed.

Lemma byID_row_ID i m : model_at i = Some m -> byID !! m.(ID) = Some i.
Proof.
  intros E. pose proof (models_ok _ _ E) as R. apply andb_prop in R as [R _].
  apply andb_prop in R as [R _]. exact (bool_decide_eq_true_1 _ R).
Qed.

Lemma CanonicalModel_row i m : model_at i = Some m -> CanonicalModel m.(ID) = m.(ID).
Proof. intros E. unfold CanonicalModel. rewrite (byID_row_ID _ _ E), E. reflexivity. Qed.

Lemma CanonicalModel_alias_target k c : alias_map !! k = Some c -> CanonicalModel c = c.
Proof.
  intros E. apply String.eqb_eq. revert E.
  apply (entries_ok_lookup (fun _ c => String.eqb (CanonicalModel c) c)). vm_compute. reflexivity.
Qed.

(** The canonical name of a canonical name is itself, whatever string the caller holds: a
    catalog id, a legacy alias, an upstream wire name in any case, or an unknown name. *)
Lemma CanonicalModel_idempotent id : CanonicalModel (CanonicalModel id) = CanonicalModel id.
Proof.
  unfold CanonicalModel at 2 3. destruct (byID !! id) as [i|] eqn:E1.
  { destruct (byID_in_range _ _ E1) as [m Em]. rewrite Em. exact (CanonicalModel_row _ _ Em). }
  destruct (byUpstreamID !! id) eqn:E2; [unfold CanonicalModel; rewrite E1, E2; reflexivity|].
  destruct (String.eqb (ToLower id) id) eqn:El.
  - destruct (alias_map !! id) eqn:E3; [exact (CanonicalModel_alias_target _ _ E3)|].
    unfold CanonicalModel. rewrite E1, E2, El, E3. reflexivity.
  - destruct (byUpstreamID !! ToLower id) eqn:E4.
    { unfold CanonicalModel. rewrite E1, E2, El, E4. reflexivity. }
    destruct (alias_map !! ToLower id) eqn:E5; [exact (CanonicalModel_alias_target _ _ E5)|].
    destruct (alias_map !! id) eqn:E3; [exact (CanonicalModel_alias_target _ _ E3)|].
    unfold CanonicalModel. rewrite E1, E2, El, E4, E5, E3. reflexivity.
Qed.

Lemma ByID_modelIndex id m : ByID id = Some m -> ByIDOrUpstream id = Some m.
Proof.
  unfold ByID, ByIDOrUpstream, modelIndex. destruct (byID !! id); [auto|].
  destruct (String.eqb (StripDateSuffix id) id); [discriminate|].
  destruct (byID !! StripDateSuffix id); [auto|discriminate].
Qed.

Lemma find_head_filter {A} (p : A -> bool) (l : list A) k :
  List.find p l = snd <$> head (List.filter (fun ib : nat * A => p ib.2) (imap (fun i b => (k + i, b)%nat) l)).
Proof.
  revert k; induction l as [|x l IH]; intros k; [reflexivity|]. cbn [List.find imap List.filter].
  rewrite Nat.add_0_r. cbn [snd]. destruct (p x); [reflexivity|]. rewrite (IH (S k)).
  do 3 f_equal. apply imap_ext. intros. cbn. f_equal. lia.
Qed.

Lemma StronglySorted_filter {A} (R : A -> A -> Prop) (p : A -> bool) l :
  StronglySorted R l -> StronglySorted R (List.filter p l).
Proof.
  induction 1 as [|x l Hl IH Hx]; cbn; [constructor|]. destruct (p x); [|exact IH].
  constructor; [exact IH|]. rewrite !List.Forall_forall in *. intros y [Hy _]%filter_In. auto.
Qed.

Lemma imap_pairs_sorted {A} (l : list A) k :
  StronglySorted (fun a b : nat * A => (a.1 < b.1)%nat) (imap (fun i b => (k + i, b)%nat) l).
Proof.
  revert k; induction l as [|x l IH]; intros k; [constructor|]. cbn [imap]. constructor.
  - erewrite imap_ext; [exact (IH (S k))|]. intros. cbn. f_equal. lia.
  - apply Forall_lookup_2. intros i [j y] Hi. apply list_lookup_imap_Some in Hi as (z & _ & E).
    cbn in *. injection E as -> _. lia.
Qed.

(** The bindings offered to dispatch are exactly the row's bindings whose provider is
    enabled, in the row's order, and [ResolveBinding] picks the first of them. *)
Lemma EnumerateBindings_spec id available m :
  ByID id = Some m ->
  (forall i b, (i, b) ∈ EnumerateBindings id available <->
               m.(Providers) !! i = Some b /\ in_opt_set b.(Provider) available = true) /\
  StronglySorted (fun a b => (a.1 < b.1)%nat) (EnumerateBindings id available) /\
  ResolveBinding id available = snd <$> head (EnumerateBindings id available).
Proof.
  intros E. unfold EnumerateBindings. rewrite E. split; [|split].
  - intros i b. rewrite list_elem_of_In, filter_In, <- list_elem_of_In, elem_of_lookup_imap.
    cbn. split; [intros [(j & y & [= -> ->] & Hy) Hp]; auto|intros []; split; eauto].
  - apply StronglySorted_filter, (imap_pairs_sorted _ 0).
  - unfold ResolveBinding. pose proof (ByID_modelIndex _ _ E) as E2. unfold ByIDOrUpstream in E2.
    destruct (modelIndex id); [|discriminate]. rewrite E2.
    exact (find_head_filter (fun b => in_opt_set b.(Provider) available) m.(Providers) 0).
Qed.

(** A legacy name and its canonical name agree on what every lookup returns. *)
Definition alias_ok (alias canonical : string) : bool :=
  (bool_decide (byID !! alias = byID !! canonical) && bool_decide (is_Some (byID !! canonical))
   && bool_decide (byUpstreamID !! alias = None))%bool.
Lemma alias_map_ok a c : alias_map !! a = Some c -> alias_ok a c = true.
Proof. apply (entries_ok_lookup alias_ok). vm_compute. reflexivity. Qed.

(** A legacy alias resolves to the row of its canonical id, is renamed to it, and
    offers dispatch the same bindings; no binding it offers carries the legacy name. *)
Lemma alias_resolves alias canonical available :
  alias_map !! alias = Some canonical ->
  CanonicalModel alias = canonical /\
  is_Some (ByID alias) /\ ByID alias = ByID canonical /\
  EnumerateBindings alias available = EnumerateBindings canonical available /\
  byUpstreamID !! alias = None.
Proof.
  intros E. pose proof (alias_map_ok _ _ E) as R. unfold alias_ok in R.
  rewrite !andb_true_iff, !bool_decide_eq_true in R. destruct R as [[Ra [i Rc]] Rn].
  pose proof (CanonicalModel_alias_target _ _ E) as Hc.
  assert (HB : ByID alias = ByID canonical) by (unfold ByID; rewrite Ra, Rc; reflexivity).
  split; [|split; [|split; [|split]]]; [| |exact HB| |exact Rn].
  - unfold CanonicalModel in *. rewrite Ra. rewrite Rc in *. exact Hc.
  - unfold ByID. rewrite Ra, Rc. exact (byID_in_range _ _ Rc).
  - unfold EnumerateBindings. rewrite HB. reflexivity.
Qed.

End Facts.

(** ** Witnesses *)

Lemma EnumerateBindings_spec_witness :
  exists m, @ByID ascii_unicode "zai-org/glm-5.2" = Some m /\
  @ResolveBinding ascii_unicode "zai-org/glm-5.2" (Some {[ ProviderAiand ]}) =
    snd <$> head (@EnumerateBindings ascii_unicode "zai-org/glm-5.2" (Some {[ ProviderAiand ]})).
Proof.
  destruct (@ByID ascii_unicode "zai-org/glm-5.2") as [m|] eqn:E; [|exfalso; revert E; vm_compute; discriminate].
  exists m. split; [reflexivity|].
  exact (proj2 (proj2 (@EnumerateBindings_spec ascii_unicode _ (Some {[ ProviderAiand ]}) _ E))).
Defined.


(** ** Amounts in micro-dollars *)

(** A stored amount is a non-negative 64-bit integer, zero for NaN, infinities and
    negative amounts, except where [f * 1e6] leaves the range of int64: there the conversion
    gives the most negative integer. *)
Lemma USDToMicros_range f :
  ((is_nan f || is_inf f || f_lt f f_zero)%bool = true -> USDToMicros f = 0) /\
  (0 <= USDToMicros f < 2 ^ 63 \/ USDToMicros f = min_int64).
Proof.
  unfold USDToMicros. destruct (is_nan f || is_inf f || f_lt f f_zero)%bool eqn:E.
  { split; [reflexivity|left; lia]. }
  split; [discriminate|]. apply orb_false_elim in E as [E El]. apply orb_false_elim in E as [E _].
  destruct (not_lt_zero_plus _ E El) as [P| ->].
  - apply to_int_plus, round_plus, mul_plus; [exact P|vm_compute; reflexivity].
  - left. vm_compute. split; [discriminate|reflexivity].
Qed.

(** The exception is reached by finite amounts, from ten trillion dollars up. *)
Lemma USDToMicros_overflow :
  is_inf (f64_of_Z (10 ^ 13)) = false /\ USDToMicros (f64_of_Z (10 ^ 13)) = min_int64 /\
  SignedUSDToMicros (f64_of_Z (10 ^ 13)) = min_int64.
Proof. vm_compute. auto. Qed.
