(* ===== verification/Planner.v ===== *)
(** The switch planner: internal/router/planner/policy.go.  [Decide] is a pure function of the
    session's pin, the fresh routing decision and the configuration; its arithmetic is done on
    the exact binary64 floats of [Floats], in the order the source writes it. *)

From stdpp Require Import base gmap sets list strings.
From Stdlib Require Import ZArith Lia SpecFloat.
From S2P Require Import Prelude Floats Types Catalog.
Open Scope string_scope.
Open Scope Z_scope.

Inductive Outcome := OutcomeStay | OutcomeSwitch.
#[export] Instance Outcome_eq_dec : EqDecision Outcome.
Proof. solve_decision. Defined.

(** [planner.Decision]. *)
Module Verdict.
Record t := mk {
  outcome : Outcome;
  Reason : string;
  ExpectedSavingsUSD : f64;
  EvictionCostUSD : f64;
  ThresholdUSD : f64;
  PinPriceFallback : bool;
  FreshPriceFallback : bool;
  ShadowComputed : bool;
  ShadowOutcome : Outcome;
  ShadowExpectedSavingsUSD : f64;
  ShadowStayCostUSD : f64;
  ShadowSwitchCostUSD : f64;
  PinCacheCold : bool
}.
(** The verdicts of the early returns, whose other fields are Go's zero values. *)
Definition early (o : Outcome) (reason : string) (pinFallback freshFallback : bool) : t :=
  {| outcome := o; Reason := reason; ExpectedSavingsUSD := f_zero; EvictionCostUSD := f_zero;
     ThresholdUSD := f_zero; PinPriceFallback := pinFallback; FreshPriceFallback := freshFallback;
     ShadowComputed := false; ShadowOutcome := OutcomeStay; ShadowExpectedSavingsUSD := f_zero;
     ShadowStayCostUSD := f_zero; ShadowSwitchCostUSD := f_zero; PinCacheCold := false |}.
End Verdict.

Record EVConfig := {
  ThresholdUSD : f64;
  ExpectedRemainingTurns : Z;
  TierUpgradeEnabled : bool;
  ColdPinFollowFresh : bool;
  CorrectedEconomics : bool
}.

Record Inputs := {
  in_Pin : Pin.t;
  Fresh : Decision.t;
  EstimatedInputTokens : Z;
  CacheablePrefixTokens : Z;
  CachePrefixKnown : bool;
  PriorOutputTokens : Z;
  AvailableModels : option (gset string);
  in_PinCacheCold : bool;
  SubsidizedCostFactor : gmap string f64
}.

Definition ReasonNoPin := "no_pin".
Definition ReasonSameModel := "same_model".
Definition ReasonPinModelMissing := "pin_model_missing".
Definition ReasonNoPriorUsage := "no_prior_usage".
Definition ReasonPricingMissing := "pricing_missing".
Definition ReasonEVPositive := "ev_positive".
Definition ReasonEVNegative := "ev_negative".
Definition ReasonTierUpgrade := "tier_upgrade".
Definition ReasonColdPinFresh := "cold_pin_follow_fresh".
Definition ReasonSameTierPinned := "same_tier_pinned".

Declare Scope f64_scope.
Delimit Scope f64_scope with f.
Infix "+" := f64_add : f64_scope.
Infix "-" := f64_sub : f64_scope.
Infix "*" := f64_mul : f64_scope.
Infix "/" := f64_div : f64_scope.
Definition one : f64 := f64_of_Z 1.

(** ** The economics *)

Section Economics.
Local Open Scope f64_scope.

Definition legacyEV (pin fresh : Pricing) (tokens : f64) (pinCold : bool) (cfg : EVConfig) :
    f64 * f64 :=
  let '(pinMult, freshMult, eviction) :=
    if pinCold then (one, one, f_zero)
    else let freshMult := EffectiveCacheReadMultiplier fresh in
         (EffectiveCacheReadMultiplier pin, freshMult,
          fresh.(InputUSDPer1M) * tokens * (one - freshMult) / million) in
  let perTurn := (pin.(InputUSDPer1M) * pinMult - fresh.(InputUSDPer1M) * freshMult)
                 * tokens / million in
  (perTurn * f64_of_Z cfg.(ExpectedRemainingTurns), eviction).

Definition effectiveRate (p : Pricing) (k : f64) : f64 :=
  p.(InputUSDPer1M) * (one - k * (one - EffectiveCacheReadMultiplier p)) / million.

Definition cacheableShare (inp : Inputs) : f64 :=
  if negb inp.(CachePrefixKnown) then one
  else if ((inp.(EstimatedInputTokens) <=? 0)%Z || (inp.(CacheablePrefixTokens) <=? 0)%Z)%bool
  then f_zero
  else f_min one (f64_of_Z inp.(CacheablePrefixTokens) / f64_of_Z inp.(EstimatedInputTokens)).

Definition correctedEV (pin fresh : Pricing) (inp : Inputs) (cfg : EVConfig) : f64 * f64 :=
  let tokens := f64_of_Z inp.(EstimatedInputTokens) in
  let k := if inp.(in_PinCacheCold) then f_zero else cacheableShare inp in
  let perTurn := tokens * (effectiveRate pin k - effectiveRate fresh k)
                 + f64_of_Z inp.(PriorOutputTokens)
                   * (pin.(OutputUSDPer1M) - fresh.(OutputUSDPer1M)) / million in
  let eviction :=
    if inp.(in_PinCacheCold) then f_zero
    else tokens * k * fresh.(InputUSDPer1M)
         * (EffectiveCacheWriteMultiplier fresh - EffectiveCacheReadMultiplier fresh) / million in
  (perTurn * f64_of_Z cfg.(ExpectedRemainingTurns), eviction).

Definition shadowCosts (pin fresh : Pricing) (total prefix : f64) (remaining : Z) (pinCold : bool)
    (threshold : f64) : Outcome * f64 * f64 * f64 :=
  let remaining := if (remaining <? 1)%Z then 1%Z else remaining in
  let prefix := f_min (f_max prefix f_zero) total in
  let tail := total - prefix in
  let warm p := (prefix * p.(InputUSDPer1M) * EffectiveCacheReadMultiplier p
                 + tail * p.(InputUSDPer1M)) / million in
  let cold p := (prefix * p.(InputUSDPer1M) * EffectiveCacheWriteMultiplier p
                 + tail * p.(InputUSDPer1M)) / million in
  let pinWarm := warm pin in
  let freshWarm := warm fresh in
  let stayCurrent := if pinCold then cold pin else pinWarm in
  let stay := stayCurrent + f64_of_Z (wrap64 (remaining - 1)) * pinWarm in
  let switchCost := cold fresh + f64_of_Z (wrap64 (remaining - 1)) * freshWarm in
  let savings := stay - switchCost in
  (if f_gt savings threshold then OutcomeSwitch else OutcomeStay, savings, stay, switchCost).

Definition applySubsidy (p : Pricing) (factors : gmap string f64) (model : string) : Pricing :=
  match factors !! model with
  | None => p
  | Some f => {| InputUSDPer1M := p.(InputUSDPer1M) * f; OutputUSDPer1M := p.(OutputUSDPer1M) * f;
                 CacheWriteMultiplier := p.(CacheWriteMultiplier);
                 CacheReadMultiplier := p.(CacheReadMultiplier) |}
  end.
End Economics.

(** ** The decision *)

Section Decide.
Context `{GoUnicode}.

(** The price and whether it is a fallback; [None] is the [ok = false] of the primary price,
    reached only through the fallback. *)
Definition priceForDecision (provider model : string) : option Pricing * bool :=
  match (if String.eqb provider "" then None else PriceFor provider model) with
  | Some price => (Some price, false)
  | None => (PrimaryPriceFor model, true)
  end.

Definition tierUpgrade (pin fresh : string) : bool :=
  match TierFor pin, TierFor fresh with
  | TierUnknown, _ | _, TierUnknown => false
  | pinTier, freshTier => tier_rank pinTier <? tier_rank freshTier
  end.

(** [Decide] past its early returns. *)
Definition Decide_ev (inp : Inputs) (cfg : EVConfig) (pinPrice freshPrice : Pricing)
    (pinPriceFallback freshPriceFallback : bool) : Verdict.t :=
  let pinModel := inp.(in_Pin).(Pin.Model) in
  let freshModel := inp.(Fresh).(Decision.Model) in
  let pinPrice := applySubsidy pinPrice inp.(SubsidizedCostFactor) pinModel in
  let freshPrice := applySubsidy freshPrice inp.(SubsidizedCostFactor) freshModel in
  let tokens := f64_of_Z inp.(EstimatedInputTokens) in
  let '(expectedSavings, evictionCost) :=
    if cfg.(CorrectedEconomics) then correctedEV pinPrice freshPrice inp cfg
    else legacyEV pinPrice freshPrice tokens inp.(in_PinCacheCold) cfg in
  let '(shadow, shadowSavings, shadowStay, shadowSwitch) :=
    shadowCosts pinPrice freshPrice tokens (f64_of_Z inp.(CacheablePrefixTokens))
      cfg.(ExpectedRemainingTurns) inp.(in_PinCacheCold) cfg.(ThresholdUSD) in
  let '(outcome, reason) :=
    if f_gt (f64_sub expectedSavings evictionCost) cfg.(ThresholdUSD)
    then (OutcomeSwitch, ReasonEVPositive)
    else if (cfg.(TierUpgradeEnabled) && tierUpgrade pinModel freshModel)%bool
    then (OutcomeSwitch, ReasonTierUpgrade)
    else if (cfg.(ColdPinFollowFresh) && inp.(in_PinCacheCold))%bool
    then (OutcomeSwitch, ReasonColdPinFresh)
    else (OutcomeStay, ReasonEVNegative) in
  {| Verdict.outcome := outcome; Verdict.Reason := reason;
     Verdict.ExpectedSavingsUSD := expectedSavings; Verdict.EvictionCostUSD := evictionCost;
     Verdict.ThresholdUSD := cfg.(ThresholdUSD);
     Verdict.PinPriceFallback := pinPriceFallback;
     Verdict.FreshPriceFallback := freshPriceFallback;
     Verdict.ShadowComputed := true; Verdict.ShadowOutcome := shadow;
     Verdict.ShadowExpectedSavingsUSD := shadowSavings; Verdict.ShadowStayCostUSD := shadowStay;
     Verdict.ShadowSwitchCostUSD := shadowSwitch; Verdict.PinCacheCold := inp.(in_PinCacheCold) |}.

Definition Decide (inp : Inputs) (cfg : EVConfig) : Verdict.t :=
  let pinModel := inp.(in_Pin).(Pin.Model) in
  let freshModel := inp.(Fresh).(Decision.Model) in
  if String.eqb pinModel "" then Verdict.early OutcomeSwitch ReasonNoPin false false
  else if String.eqb freshModel pinModel then Verdict.early OutcomeStay ReasonSameModel false false
  else if match inp.(AvailableModels) with
          | Some models => negb (in_set pinModel models)
          | None => false
          end
  then Verdict.early OutcomeSwitch ReasonPinModelMissing false false
  else if IsZero inp.(in_Pin).(Pin.LastTurnEndedAt)
  then Verdict.early OutcomeStay ReasonNoPriorUsage false false
  else
    let '(pinPrice, pinFallback) := priceForDecision inp.(in_Pin).(Pin.Provider) pinModel in
    let '(freshPrice, freshFallback) := priceForDecision inp.(Fresh).(Decision.Provider) freshModel in
    match pinPrice, freshPrice with
    | Some pp, Some fp => Decide_ev inp cfg pp fp pinFallback freshFallback
    | _, _ => Verdict.early OutcomeStay ReasonPricingMissing
                (pinFallback && bool_decide (is_Some pinPrice))%bool
                (freshFallback && bool_decide (is_Some freshPrice))%bool
    end.
End Decide.

(** ** Facts *)

Lemma tierUpgrade_spec `{GoUnicode} pin fresh :
  tierUpgrade pin fresh = true <->
  TierFor pin <> TierUnknown /\ TierFor fresh <> TierUnknown /\
  tier_rank (TierFor pin) < tier_rank (TierFor fresh).
Proof.
  unfold tierUpgrade. destruct (TierFor pin), (TierFor fresh); cbn; intuition (discriminate || congruence || lia).
Qed.

Section Facts.
Context `{GoUnicode} (inp : Inputs) (cfg : EVConfig).
Abbreviation pinModel := inp.(in_Pin).(Pin.Model).
Abbreviation freshModel := inp.(Fresh).(Decision.Model).

(** The verdict's own switch test. *)
Definition ev_switches (d : Verdict.t) : Prop :=
  f_gt (f64_sub d.(Verdict.ExpectedSavingsUSD) d.(Verdict.EvictionCostUSD)) cfg.(ThresholdUSD) = true \/
  (cfg.(TierUpgradeEnabled) = true /\ tierUpgrade pinModel freshModel = true) \/
  (cfg.(ColdPinFollowFresh) = true /\ inp.(in_PinCacheCold) = true).

Lemma Decide_ev_switch pp fp b c :
  (Decide_ev inp cfg pp fp b c).(Verdict.outcome) = OutcomeSwitch <->
  ev_switches (Decide_ev inp cfg pp fp b c).
Proof.
  unfold Decide_ev, ev_switches. destruct (if cfg.(CorrectedEconomics) then _ else _) as [sav ev].
  destruct (shadowCosts _ _ _ _ _ _ _) as [[[]]].
  destruct (f_gt _ _) eqn:E; [cbn; tauto|].
  destruct (cfg.(TierUpgradeEnabled) && _)%bool eqn:E2; [apply andb_prop in E2; cbn; tauto|].
  destruct (cfg.(ColdPinFollowFresh) && _)%bool eqn:E3; cbn; rewrite E.
  - apply andb_prop in E3. tauto.
  - apply andb_false_iff in E2, E3. split; [discriminate|].
    intros [|[[]|[]]]; [discriminate| |]; [destruct E2|destruct E3]; congruence.
Qed.

(** The pin may no longer serve: the caller listed the models available and it is not one. *)
Definition unroutable : Prop := exists models, inp.(AvailableModels) = Some models /\ pinModel ∉ models.

(** The planner leaves the pinned model exactly when there is no pin, or the fresh
    model differs and the pin is no longer routable or, both models being priced and a turn
    completed, the expected value exceeds the threshold, an armed tier upgrade applies, or an
    armed cold pin follows the fresh pick. *)
Lemma Decide_switch_iff :
  let d := Decide inp cfg in
  d.(Verdict.outcome) = OutcomeSwitch <->
  pinModel = "" \/
  (freshModel <> pinModel /\
   (unroutable \/
    (inp.(in_Pin).(Pin.LastTurnEndedAt) <> 0 /\
     is_Some (priceForDecision inp.(in_Pin).(Pin.Provider) pinModel).1 /\
     is_Some (priceForDecision inp.(Fresh).(Decision.Provider) freshModel).1 /\ ev_switches d))).
Proof.
  unfold Decide, unroutable. destruct (String.eqb_spec pinModel ""); [cbn; tauto|].
  destruct (String.eqb_spec freshModel pinModel) as [E|E]; [cbn; split; [discriminate|tauto]|].
  destruct (match inp.(AvailableModels) with Some _ => _ | None => _ end) eqn:Ea.
  { destruct inp.(AvailableModels) as [models|]; [|discriminate]. cbn. split; [intros _|reflexivity].
    right. split; [exact E|]. left. exists models. split; [reflexivity|].
    unfold in_set in Ea. apply negb_true_iff, bool_decide_eq_false in Ea. exact Ea. }
  assert (Hu : ~ exists models, inp.(AvailableModels) = Some models /\ pinModel ∉ models).
  { intros (models & Em & Hn). rewrite Em in Ea. unfold in_set in Ea.
    rewrite bool_decide_eq_false_2 in Ea by exact Hn. discriminate. }
  unfold IsZero. destruct (Z.eqb_spec inp.(in_Pin).(Pin.LastTurnEndedAt) 0) as [Ez|Ez].
  { cbn. split; [discriminate|tauto]. }
  destruct (priceForDecision inp.(in_Pin).(Pin.Provider) pinModel) as [[pp|] b1] eqn:E1;
    destruct (priceForDecision inp.(Fresh).(Decision.Provider) freshModel) as [[fp|] b2] eqn:E2;
    try (cbn; split; [discriminate|];
         intros [|(_ & [|(_ & [? ?] & [? ?] & _)])]; [tauto|tauto|discriminate]).
  rewrite Decide_ev_switch. split; [|tauto]. intros D. right. split; [exact E|]. right.
  split; [exact Ez|]. cbn. split; [eexists; reflexivity|]. split; [eexists; reflexivity|exact D].
Qed.

End Facts.

(** [cfg] with another threshold. *)
Definition with_threshold (t : f64) (cfg : EVConfig) : EVConfig :=
  {| ThresholdUSD := t; ExpectedRemainingTurns := cfg.(ExpectedRemainingTurns);
     TierUpgradeEnabled := cfg.(TierUpgradeEnabled);
     ColdPinFollowFresh := cfg.(ColdPinFollowFresh);
     CorrectedEconomics := cfg.(CorrectedEconomics) |}.

Lemma Decide_ev_threshold `{GoUnicode} inp cfg t pp fp b c :
  is_nan t = false -> f_lt cfg.(ThresholdUSD) t = false ->
  (Decide_ev inp cfg pp fp b c).(Verdict.outcome) = OutcomeSwitch ->
  (Decide_ev inp (with_threshold t cfg) pp fp b c).(Verdict.outcome) = OutcomeSwitch.
Proof.
  intros Hn Ht. unfold Decide_ev. cbn [CorrectedEconomics with_threshold].
  change (correctedEV ?a ?b ?i (with_threshold t cfg)) with (correctedEV a b i cfg).
  change (legacyEV ?a ?b ?i ?k (with_threshold t cfg)) with (legacyEV a b i k cfg).
  destruct (if cfg.(CorrectedEconomics) then _ else _) as [sav ev].
  destruct (shadowCosts _ _ _ _ _ _ _) as [[[]]]. destruct (shadowCosts _ _ _ _ _ _ _) as [[[]]].
  cbn [with_threshold ThresholdUSD TierUpgradeEnabled ColdPinFollowFresh Verdict.outcome].
  change (f_gt ?a ?b) with (f_lt b a). destruct (f_lt cfg.(ThresholdUSD) (f64_sub sav ev)) eqn:E.
  { rewrite (f_not_lt_lt_trans t _ _ E Hn Ht). reflexivity. }
  destruct (f_lt t (f64_sub sav ev)); [reflexivity|]. destruct (_ && _)%bool; [reflexivity|].
  destruct (_ && _)%bool; [reflexivity|discriminate].
Qed.

(** Lowering the threshold never turns a switch into a stay. *)
Lemma Decide_threshold_monotone `{GoUnicode} inp cfg t :
  is_nan t = false -> f_lt cfg.(ThresholdUSD) t = false ->
  (Decide inp cfg).(Verdict.outcome) = OutcomeSwitch ->
  (Decide inp (with_threshold t cfg)).(Verdict.outcome) = OutcomeSwitch.
Proof.
  intros Hn Ht. unfold Decide. destruct (String.eqb _ ""); [auto|].
  destruct (String.eqb _ _); [auto|]. destruct (match inp.(AvailableModels) with Some _ => _ | None => _ end); [auto|].
  destruct (IsZero _); [auto|]. destruct (priceForDecision _ _) as [[] ?], (priceForDecision _ _) as [[] ?]; auto.
  apply Decide_ev_threshold; assumption.
Qed.

(** The cacheable share is never above one nor below zero; without telemetry it is one,
    and a measured empty prefix is zero. *)
Lemma cacheableShare_bounds inp :
  f_gt (cacheableShare inp) one = false /\ f_lt (cacheableShare inp) f_zero = false /\
  (inp.(CachePrefixKnown) = false -> cacheableShare inp = one) /\
  (inp.(CachePrefixKnown) = true -> inp.(CacheablePrefixTokens) <= 0 -> cacheableShare inp = f_zero).
Proof.
  unfold cacheableShare. destruct inp.(CachePrefixKnown); cbn [negb];
    [|split; [|split; [|split]]; try reflexivity; discriminate].
  destruct (_ || _)%bool eqn:E.
  { split; [reflexivity|split; [reflexivity|split; [discriminate|reflexivity]]]. }
  apply orb_false_elim in E as [E1 E2]. apply Z.leb_gt in E1, E2.
  split; [|split; [|split; [discriminate|lia]]].
  - apply f_min_not_above_l.
  - apply plus_not_below_zero, f_min_plus; [reflexivity|]. apply div_plus; apply normalize_plus; lia || reflexivity.
Qed.

(** Two prices that differ at most in their cache multipliers. *)
Definition same_rates (p q : Pricing) : Prop :=
  p.(InputUSDPer1M) = q.(InputUSDPer1M) /\ p.(OutputUSDPer1M) = q.(OutputUSDPer1M).

(** While the pin's cache is cold no eviction is charged, and the expected savings do not
    depend on any cache multiplier: what a lapsed cache would have saved cannot hold a session. *)
Lemma legacyEV_cold pin fresh pin' fresh' tokens cfg :
  same_rates pin pin' -> same_rates fresh fresh' ->
  (legacyEV pin fresh tokens true cfg).2 = f_zero /\
  legacyEV pin fresh tokens true cfg = legacyEV pin' fresh' tokens true cfg.
Proof. intros [Ep _] [Ef _]. unfold legacyEV. rewrite Ep, Ef. split; reflexivity. Qed.

(** ** Witnesses: a warm session on glm-5.3 with a fresh pick of deepseek-v4-flash *)

Definition ex_inputs : Inputs :=
  {| in_Pin := Pin.set_LastTurnEndedAt 1 (Pin.set_Model "zai-org/glm-5.3"
       (Pin.set_Provider ProviderAiand Pin.zero));
     Fresh := Decision.set_Model "deepseek-ai/deepseek-v4-flash"
       (Decision.set_Provider ProviderAiand Decision.zero);
     EstimatedInputTokens := 100000; CacheablePrefixTokens := 0; CachePrefixKnown := false;
     PriorOutputTokens := 0; AvailableModels := None; in_PinCacheCold := false;
     SubsidizedCostFactor := ∅ |}.
Definition ex_config : EVConfig :=
  {| ThresholdUSD := f64_lit 1 1000; ExpectedRemainingTurns := 3; TierUpgradeEnabled := true;
     ColdPinFollowFresh := false; CorrectedEconomics := false |}.

Lemma Decide_threshold_monotone_witness :
  (@Decide ascii_unicode ex_inputs ex_config).(Verdict.Reason) = ReasonEVPositive /\
  (@Decide ascii_unicode ex_inputs (with_threshold f_zero ex_config)).(Verdict.outcome) = OutcomeSwitch.
Proof.
  split; [vm_compute; reflexivity|].
  apply (@Decide_threshold_monotone ascii_unicode ex_inputs ex_config f_zero); vm_compute; reflexivity.
Defined.

