(* ===== verification/PinStore.v ===== *)
(** Session pins: the contract of internal/router/sessionpin/store.go as a type class with laws,
    and its Postgres implementation (internal/postgres/session_pin_repo.go over the statements of
    internal/sqlc/session_pins.sql.go, generated from db/queries/session_pins.sql) as an instance.

    A table is a finite map from (session key, role), its primary key, to a row; a row is a
    [Pin.t], the NULL of [last_turn_ended_at] being the zero time.  Every operation is one SQL
    statement, which Postgres runs atomically, so interleaved requests are sequences of these
    steps.  [now] is the clock that CURRENT_TIMESTAMP and [time.Now] read; the database session
    runs in UTC.  Postgres refuses a value that does not fit its column: a varchar(n) with more
    than [n] characters, an int4 past 2^31 - 1. *)

From stdpp Require Import base gmap sets list strings.
From Stdlib Require Import ZArith Lia Ascii.
From S2P Require Import Prelude Types.
Open Scope string_scope.
Open Scope Z_scope.

(** ** The contract (sessionpin.Store) *)

Definition Op (S A : Type) : Type := Z -> S -> S * res string A.

Class PinStore (S : Type) := {
  Get : string -> string -> Op S (option Pin.t);
  Consume : string -> string -> string -> Op S (option Pin.t);
  Upsert : Pin.t -> Op S unit;
  UpdateUsage : string -> string -> Usage.t -> Op S unit;
  IncrementUpstreamErrors : string -> string -> string -> Op S Z;
  IncrementOverloadErrors : string -> string -> string -> Op S Z;
  ResetUpstreamErrors : string -> string -> string -> Op S unit;
  ResetOverloadErrors : string -> string -> string -> Op S unit;
  DisableProvider : string -> string -> string -> string -> Op S unit;
  SweepExpired : Op S unit
}.

(** A row accepts a write made for [expected]: the strategies agree, or the row predates
    strategies and the write is not for the beta. *)
Definition strategy_matches (stored expected : string) : bool :=
  (String.eqb stored expected
   || (String.eqb stored "" && negb (String.eqb expected "hmm_beta")))%bool.

(** ** Postgres values *)

Definition is_continuation (a : ascii) : bool :=
  let n := nat_of_ascii a in (Nat.leb 128 n && Nat.ltb n 192)%bool.
(** The first [n] characters of UTF-8 text, and the rest. *)
Fixpoint split_chars (n : nat) (s : string) : string * string :=
  match s with
  | EmptyString => ("", "")
  | String a s' =>
      if is_continuation a then let '(x, y) := split_chars n s' in (String a x, y)
      else match n with
           | O => ("", s)
           | S n' => let '(x, y) := split_chars n' s' in (String a x, y)
           end
  end.
Fixpoint all_spaces (s : string) : bool :=
  match s with
  | EmptyString => true
  | String a s' => (Ascii.eqb a " "%char && all_spaces s')%bool
  end.
(** Assignment to a varchar(n) column. *)
Definition varchar (n : nat) (s : string) : res string string :=
  let '(fit, excess) := split_chars n s in
  if all_spaces excess then Ok fit else Err "value too long for type character varying".
(** int4 arithmetic. *)
Definition int4 (z : Z) : res string Z :=
  if z <=? max_int32 then Ok z else Err "integer out of range".
(** Timestamps have microsecond resolution. *)
Definition pg_time (t : Z) : Z := t / 1000 * 1000.

(** ** The statements *)

Abbreviation Table := (gmap (string * string) Pin.t).

(** The rows an UPDATE or DELETE for [expected] selects: at most one. *)
Definition select_for (k r expected : string) (db : Table) : option Pin.t :=
  match db !! (k, r) with
  | Some p => if strategy_matches p.(Pin.Strategy) expected then Some p else None
  | None => None
  end.

(** INSERT ... VALUES: the columns the statement does not name take their defaults. *)
Definition insert_row (now : Z) (p : Pin.t) : res string Pin.t :=
  let! role := varchar 32 p.(Pin.Role) in
  let! provider := varchar 32 p.(Pin.Provider) in
  let! model := varchar 128 p.(Pin.Model) in
  let! pairedProvider := varchar 32 p.(Pin.PairedProvider) in
  let! pairedModel := varchar 128 p.(Pin.PairedModel) in
  let! strategy := varchar 32 p.(Pin.Strategy) in
  let! group := varchar 64 p.(Pin.PolicyGroup) in
  Ok {| Pin.SessionKey := p.(Pin.SessionKey); Pin.Role := role;
        Pin.InstallationID := p.(Pin.InstallationID); Pin.Provider := provider; Pin.Model := model;
        Pin.PairedProvider := pairedProvider; Pin.PairedModel := pairedModel;
        Pin.Reason := p.(Pin.Reason); Pin.Strategy := strategy; Pin.PolicyGroup := group;
        Pin.TurnCount := wrap32 p.(Pin.TurnCount); Pin.PinnedUntil := pg_time p.(Pin.PinnedUntil);
        Pin.FirstPinnedAt := pg_time now; Pin.LastSeenAt := pg_time now;
        Pin.LastInputTokens := 0; Pin.LastCachedReadTokens := 0; Pin.LastCachedWriteTokens := 0;
        Pin.LastOutputTokens := 0; Pin.LastTurnEndedAt := 0; Pin.ConsecutiveUpstreamErrors := 0;
        Pin.LastServedModel := ""; Pin.HasEverSwitched := false;
        Pin.ConsecutiveOverloadErrors := 0; Pin.DisabledProviders := [] |}.

(** ON CONFLICT DO UPDATE: [old] is the stored row, [new] the row proposed (EXCLUDED). *)
Definition conflict_row (now : Z) (old new : Pin.t) : res string Pin.t :=
  let same_strategy := String.eqb old.(Pin.Strategy) new.(Pin.Strategy) in
  let same := (String.eqb new.(Pin.Model) old.(Pin.Model) && same_strategy)%bool in
  let keep {A} (x y : A) : A := if same_strategy then x else y in
  let pair (x y : string) : string :=
    if negb (String.eqb new.(Pin.PairedModel) "") then x else if same then y else "" in
  let! turns := if same_strategy then int4 (old.(Pin.TurnCount) + 1) else Ok new.(Pin.TurnCount) in
  Ok {| Pin.SessionKey := old.(Pin.SessionKey); Pin.Role := old.(Pin.Role);
        Pin.InstallationID := old.(Pin.InstallationID);
        Pin.Provider := new.(Pin.Provider); Pin.Model := new.(Pin.Model);
        Pin.PairedProvider := pair new.(Pin.PairedProvider) old.(Pin.PairedProvider);
        Pin.PairedModel := pair new.(Pin.PairedModel) old.(Pin.PairedModel);
        Pin.Reason := new.(Pin.Reason); Pin.Strategy := new.(Pin.Strategy);
        Pin.PolicyGroup := if negb (String.eqb new.(Pin.PolicyGroup) "") then new.(Pin.PolicyGroup)
                           else if same then old.(Pin.PolicyGroup) else "";
        Pin.TurnCount := turns; Pin.PinnedUntil := new.(Pin.PinnedUntil);
        Pin.FirstPinnedAt := keep old.(Pin.FirstPinnedAt) (pg_time now);
        Pin.LastSeenAt := pg_time now;
        Pin.LastInputTokens := keep old.(Pin.LastInputTokens) 0;
        Pin.LastCachedReadTokens := keep old.(Pin.LastCachedReadTokens) 0;
        Pin.LastCachedWriteTokens := keep old.(Pin.LastCachedWriteTokens) 0;
        Pin.LastOutputTokens := keep old.(Pin.LastOutputTokens) 0;
        Pin.LastTurnEndedAt := keep old.(Pin.LastTurnEndedAt) 0;
        Pin.ConsecutiveUpstreamErrors := if same then old.(Pin.ConsecutiveUpstreamErrors) else 0;
        Pin.LastServedModel := keep old.(Pin.LastServedModel) "";
        Pin.HasEverSwitched := keep old.(Pin.HasEverSwitched) false;
        Pin.ConsecutiveOverloadErrors := if same then old.(Pin.ConsecutiveOverloadErrors) else 0;
        Pin.DisabledProviders := keep old.(Pin.DisabledProviders) [] |}.

(** UpdateSessionPinUsage's SET list. *)
Definition usage_row (usage : Usage.t) (endedAt : Z) (provider : string) (p : Pin.t) : Pin.t :=
  let served := usage.(Usage.ServedModel) in
  let prior := usage.(Usage.PriorServedModel) in
  let last := p.(Pin.LastServedModel) in
  let differs (m : string) : bool := (negb (String.eqb m "") && negb (String.eqb m served))%bool in
  {| Pin.SessionKey := p.(Pin.SessionKey); Pin.Role := p.(Pin.Role);
     Pin.InstallationID := p.(Pin.InstallationID); Pin.Provider := provider;
     Pin.Model := p.(Pin.Model); Pin.PairedProvider := p.(Pin.PairedProvider);
     Pin.PairedModel := p.(Pin.PairedModel); Pin.Reason := p.(Pin.Reason);
     Pin.Strategy := p.(Pin.Strategy); Pin.PolicyGroup := p.(Pin.PolicyGroup);
     Pin.TurnCount := p.(Pin.TurnCount); Pin.PinnedUntil := p.(Pin.PinnedUntil);
     Pin.FirstPinnedAt := p.(Pin.FirstPinnedAt); Pin.LastSeenAt := p.(Pin.LastSeenAt);
     Pin.LastInputTokens := wrap32 usage.(Usage.InputTokens);
     Pin.LastCachedReadTokens := wrap32 usage.(Usage.CachedReadTokens);
     Pin.LastCachedWriteTokens := wrap32 usage.(Usage.CachedWriteTokens);
     Pin.LastOutputTokens := wrap32 usage.(Usage.OutputTokens);
     Pin.LastTurnEndedAt := pg_time endedAt;
     Pin.ConsecutiveUpstreamErrors := p.(Pin.ConsecutiveUpstreamErrors);
     Pin.LastServedModel := served;
     Pin.HasEverSwitched := (p.(Pin.HasEverSwitched) || usage.(Usage.SessionEverSwitched)
                             || differs last || differs prior)%bool;
     Pin.ConsecutiveOverloadErrors := p.(Pin.ConsecutiveOverloadErrors);
     Pin.DisabledProviders := p.(Pin.DisabledProviders) |}.

(** ** The repository (session_pin_repo.go) *)

(** An UPDATE of the selected row, [ErrNoRows] becoming [none]. *)
Definition update_for {A : Type} (k r expected : string) (db : Table) (none : A)
    (f : Pin.t -> res string (Pin.t * A)) : Table * res string A :=
  match select_for k r expected db with
  | None => (db, Ok none)
  | Some p => match f p with
              | Ok (q, a) => (<[(k, r) := q]> db, Ok a)
              | Err e => (db, Err e)
              end
  end.

Definition repo_Get (k r : string) : Op Table (option Pin.t) := fun _ db => (db, Ok (db !! (k, r))).
Definition repo_Consume (k r expected : string) : Op Table (option Pin.t) := fun now db =>
  match select_for k r expected db with
  | Some p => if pg_time now <? p.(Pin.PinnedUntil) then (delete (k, r) db, Ok (Some p))
              else (db, Ok None)
  | None => (db, Ok None)
  end.
Definition repo_Upsert (p : Pin.t) : Op Table unit := fun now db =>
  match insert_row now p with
  | Err e => (db, Err e)
  | Ok new =>
      let key := (new.(Pin.SessionKey), new.(Pin.Role)) in
      match db !! key with
      | None => (<[key := new]> db, Ok tt)
      | Some old => match conflict_row now old new with
                    | Ok q => (<[key := q]> db, Ok tt)
                    | Err e => (db, Err e)
                    end
      end
  end.
Definition repo_UpdateUsage (k r : string) (usage : Usage.t) : Op Table unit := fun now db =>
  let endedAt := if IsZero usage.(Usage.EndedAt) then now else usage.(Usage.EndedAt) in
  update_for k r usage.(Usage.Strategy) db tt (fun p =>
    let! provider := varchar 32 usage.(Usage.ServedProvider) in
    Ok (usage_row usage endedAt provider p, tt)).
Definition repo_IncrementUpstreamErrors (k r expected : string) : Op Table Z := fun _ db =>
  update_for k r expected db 0 (fun p =>
    let! n := int4 (p.(Pin.ConsecutiveUpstreamErrors) + 1) in
    Ok (Pin.set_ConsecutiveUpstreamErrors n p, n)).
Definition repo_IncrementOverloadErrors (k r expected : string) : Op Table Z := fun _ db =>
  update_for k r expected db 0 (fun p =>
    let! n := int4 (p.(Pin.ConsecutiveOverloadErrors) + 1) in
    Ok (Pin.set_ConsecutiveOverloadErrors n p, n)).
Definition repo_ResetUpstreamErrors (k r expected : string) : Op Table unit := fun _ db =>
  update_for k r expected db tt (fun p =>
    Ok (if 0 <? p.(Pin.ConsecutiveUpstreamErrors) then Pin.set_ConsecutiveUpstreamErrors 0 p else p, tt)).
Definition repo_ResetOverloadErrors (k r expected : string) : Op Table unit := fun _ db =>
  update_for k r expected db tt (fun p =>
    Ok (if 0 <? p.(Pin.ConsecutiveOverloadErrors) then Pin.set_ConsecutiveOverloadErrors 0 p else p, tt)).
Definition repo_DisableProvider (k r provider expected : string) : Op Table unit := fun _ db =>
  update_for k r expected db tt (fun p =>
    let disabled := p.(Pin.DisabledProviders) in
    let disabled := if bool_decide (provider ∈ disabled) then disabled else (disabled ++ [provider])%list in
    Ok (Pin.set_ConsecutiveOverloadErrors 0 (Pin.set_DisabledProviders disabled p), tt)).
Definition repo_SweepExpired : Op Table unit := fun now db =>
  (filter (fun kp : (string * string) * Pin.t =>
             pg_time now - 24 * Hour <= kp.2.(Pin.PinnedUntil)) db, Ok tt).

#[export] Instance SessionPinRepo : PinStore Table := {|
  Get := repo_Get;
  Consume := repo_Consume;
  Upsert := repo_Upsert;
  UpdateUsage := repo_UpdateUsage;
  IncrementUpstreamErrors := repo_IncrementUpstreamErrors;
  IncrementOverloadErrors := repo_IncrementOverloadErrors;
  ResetUpstreamErrors := repo_ResetUpstreamErrors;
  ResetOverloadErrors := repo_ResetOverloadErrors;
  DisableProvider := repo_DisableProvider;
  SweepExpired := repo_SweepExpired
|}.

(** ** The laws of the contract *)

(** [p] is written as given: every text fits its column. *)
Definition fits (n : nat) (s : string) : Prop := varchar n s = Ok s.
Definition pin_fits (p : Pin.t) : Prop :=
  fits 32 p.(Pin.Role) /\ fits 32 p.(Pin.Provider) /\ fits 128 p.(Pin.Model) /\
  fits 32 p.(Pin.PairedProvider) /\ fits 128 p.(Pin.PairedModel) /\ fits 32 p.(Pin.Strategy) /\
  fits 64 p.(Pin.PolicyGroup).

(** What an Upsert of [p] promises of the row [q] it leaves, [old] being the row it found. *)
Record upserted (now : Z) (old : option Pin.t) (p q : Pin.t) : Prop := {
  up_decision : q.(Pin.Provider) = p.(Pin.Provider) /\ q.(Pin.Model) = p.(Pin.Model) /\
                q.(Pin.Reason) = p.(Pin.Reason) /\ q.(Pin.Strategy) = p.(Pin.Strategy);
  up_until : q.(Pin.PinnedUntil) = pg_time p.(Pin.PinnedUntil);
  up_same_strategy : forall o, old = Some o -> o.(Pin.Strategy) = p.(Pin.Strategy) ->
    q.(Pin.DisabledProviders) = o.(Pin.DisabledProviders) /\
    q.(Pin.HasEverSwitched) = o.(Pin.HasEverSwitched) /\
    q.(Pin.LastServedModel) = o.(Pin.LastServedModel) /\
    q.(Pin.LastTurnEndedAt) = o.(Pin.LastTurnEndedAt);
  up_same_model : forall o, old = Some o -> o.(Pin.Strategy) = p.(Pin.Strategy) ->
    o.(Pin.Model) = p.(Pin.Model) ->
    q.(Pin.ConsecutiveUpstreamErrors) = o.(Pin.ConsecutiveUpstreamErrors) /\
    q.(Pin.ConsecutiveOverloadErrors) = o.(Pin.ConsecutiveOverloadErrors);
  up_new_model : (forall o, old = Some o ->
                    o.(Pin.Strategy) <> p.(Pin.Strategy) \/ o.(Pin.Model) <> p.(Pin.Model)) ->
    q.(Pin.ConsecutiveUpstreamErrors) = 0 /\ q.(Pin.ConsecutiveOverloadErrors) = 0 /\
    q.(Pin.PairedModel) = p.(Pin.PairedModel) /\ q.(Pin.PolicyGroup) = p.(Pin.PolicyGroup);
  up_new_strategy : (forall o, old = Some o -> o.(Pin.Strategy) <> p.(Pin.Strategy)) ->
    q.(Pin.DisabledProviders) = [] /\ q.(Pin.HasEverSwitched) = false /\
    q.(Pin.LastServedModel) = "" /\ q.(Pin.LastTurnEndedAt) = 0
}.

(** [f] applied to the row a write for [expected] selects; nothing when it selects none. *)
Definition updates_row (k r expected : string) (f : Pin.t -> Pin.t) (db db' : Table) : Prop :=
  match select_for k r expected db with
  | None => db' = db
  | Some p => db' = <[(k, r) := f p]> db
  end.

Definition add_disabled (provider : string) (l : list string) : list string :=
  if bool_decide (provider ∈ l) then l else (l ++ [provider])%list.

Class PinStoreLaws (S : Type) `{PinStore S} := {
  (** the rows of the store *)
  view : S -> Table;
  Get_ok k r now s s' o :
    Get k r now s = (s', Ok o) -> o = view s !! (k, r) /\ view s' = view s;
  Consume_some k r e now s s' p :
    Consume k r e now s = (s', Ok (Some p)) ->
    select_for k r e (view s) = Some p /\ pg_time now < p.(Pin.PinnedUntil) /\
    view s' = delete (k, r) (view s);
  Consume_none k r e now s s' :
    Consume k r e now s = (s', Ok None) ->
    view s' = view s /\
    forall p, select_for k r e (view s) = Some p -> p.(Pin.PinnedUntil) <= pg_time now;
  Upsert_ok p now s s' :
    pin_fits p -> Upsert p now s = (s', Ok tt) ->
    exists q, upserted now (view s !! (p.(Pin.SessionKey), p.(Pin.Role))) p q /\
              view s' = <[(p.(Pin.SessionKey), p.(Pin.Role)) := q]> (view s);
  UpdateUsage_ok k r u now s s' :
    fits 32 u.(Usage.ServedProvider) -> UpdateUsage k r u now s = (s', Ok tt) ->
    updates_row k r u.(Usage.Strategy)
      (usage_row u (if IsZero u.(Usage.EndedAt) then now else u.(Usage.EndedAt))
         u.(Usage.ServedProvider)) (view s) (view s');
  IncrementUpstreamErrors_ok k r e now s s' n :
    IncrementUpstreamErrors k r e now s = (s', Ok n) ->
    updates_row k r e (Pin.set_ConsecutiveUpstreamErrors n) (view s) (view s') /\
    n = match select_for k r e (view s) with
        | Some p => p.(Pin.ConsecutiveUpstreamErrors) + 1
        | None => 0
        end;
  IncrementOverloadErrors_ok k r e now s s' n :
    IncrementOverloadErrors k r e now s = (s', Ok n) ->
    updates_row k r e (Pin.set_ConsecutiveOverloadErrors n) (view s) (view s') /\
    n = match select_for k r e (view s) with
        | Some p => p.(Pin.ConsecutiveOverloadErrors) + 1
        | None => 0
        end;
  DisableProvider_ok k r provider e now s s' :
    DisableProvider k r provider e now s = (s', Ok tt) ->
    updates_row k r e (fun p => Pin.set_ConsecutiveOverloadErrors 0
      (Pin.set_DisabledProviders (add_disabled provider p.(Pin.DisabledProviders)) p))
      (view s) (view s')
}.

(** ** The repository keeps the laws *)

Lemma update_for_ok {A : Type} k r e db (none : A) f db' a :
  update_for k r e db none f = (db', Ok a) ->
  match select_for k r e db with
  | None => db' = db /\ a = none
  | Some p => exists q, f p = Ok (q, a) /\ db' = <[(k, r) := q]> db
  end.
Proof.
  unfold update_for. destruct (select_for k r e db) as [p|]; [|intros [= <- <-]; auto].
  destruct (f p) as [[q x]|] eqn:E; [|discriminate]. intros [= <- <-]. eauto.
Qed.

Lemma insert_row_fits now p new : pin_fits p -> insert_row now p = Ok new ->
  new.(Pin.SessionKey) = p.(Pin.SessionKey) /\ new.(Pin.Role) = p.(Pin.Role) /\
  upserted now None p new /\ new.(Pin.Strategy) = p.(Pin.Strategy) /\
  new.(Pin.PinnedUntil) = pg_time p.(Pin.PinnedUntil) /\ new.(Pin.Model) = p.(Pin.Model) /\
  new.(Pin.Provider) = p.(Pin.Provider) /\ new.(Pin.Reason) = p.(Pin.Reason) /\
  new.(Pin.PairedModel) = p.(Pin.PairedModel) /\ new.(Pin.PolicyGroup) = p.(Pin.PolicyGroup).
Proof.
  intros (F1 & F2 & F3 & F4 & F5 & F6 & F7). unfold insert_row, fits in *.
  rewrite F1, F2, F3, F4, F5, F6, F7. cbn. intros [= <-]. cbn.
  repeat (split; [first [reflexivity | constructor; cbn; auto; discriminate]|]). reflexivity.
Qed.

Lemma conflict_row_upserted now o p new q :
  new.(Pin.Strategy) = p.(Pin.Strategy) -> new.(Pin.PinnedUntil) = pg_time p.(Pin.PinnedUntil) ->
  new.(Pin.Model) = p.(Pin.Model) -> new.(Pin.Provider) = p.(Pin.Provider) ->
  new.(Pin.Reason) = p.(Pin.Reason) -> new.(Pin.PairedModel) = p.(Pin.PairedModel) ->
  new.(Pin.PolicyGroup) = p.(Pin.PolicyGroup) ->
  conflict_row now o new = Ok q -> upserted now (Some o) p q.
Proof.
  intros E1 E E2 E3 E4 E5 E6. unfold conflict_row. destruct (if String.eqb _ _ then _ else _) as [t|]; [|discriminate].
  cbn. intros [= <-]. constructor; cbn; rewrite <- ?E1, <- ?E2, <- ?E3, <- ?E4, <- ?E5, <- ?E6.
  - auto.
  - exact E.
  - intros ? [= <-] ->. rewrite String.eqb_refl. auto.
  - intros ? [= <-] -> ->. rewrite !String.eqb_refl. auto.
  - intros N. assert (D : (String.eqb new.(Pin.Model) o.(Pin.Model)
      && String.eqb o.(Pin.Strategy) new.(Pin.Strategy))%bool = false).
    { apply andb_false_iff. rewrite !String.eqb_neq. destruct (N o eq_refl); auto. }
    rewrite D. repeat split; auto.
    + destruct (String.eqb_spec new.(Pin.PairedModel) ""); cbn; auto.
    + destruct (String.eqb_spec new.(Pin.PolicyGroup) ""); cbn; auto.
  - intros N. rewrite (proj2 (String.eqb_neq _ _) (N o eq_refl)). auto.
Qed.

(** An Upsert of texts that fit succeeds, unless the turn counter of the row it meets is full. *)
Lemma repo_Upsert_succeeds p now db :
  pin_fits p -> (forall o, db !! (p.(Pin.SessionKey), p.(Pin.Role)) = Some o -> o.(Pin.TurnCount) < max_int32) ->
  exists db', repo_Upsert p now db = (db', Ok tt).
Proof.
  intros Fp Ft. destruct (insert_row now p) as [n|] eqn:En.
  2: { exfalso. revert En. destruct Fp as (F1 & F2 & F3 & F4 & F5 & F6 & F7). unfold insert_row, fits in *.
       rewrite F1, F2, F3, F4, F5, F6, F7. discriminate. }
  destruct (insert_row_fits _ _ _ Fp En) as (Hk & Hr & _). unfold repo_Upsert. rewrite En, Hk, Hr.
  destruct (db !! _) as [o|] eqn:Eo; [|eauto]. specialize (Ft o eq_refl).
  unfold conflict_row, int4. destruct (String.eqb _ _); [|cbn; eauto].
  destruct (Z.leb_spec (o.(Pin.TurnCount) + 1) max_int32); [cbn; eauto|lia].
Qed.

Ltac update_law E :=
  apply update_for_ok in E; unfold updates_row;
  destruct (select_for _ _ _ _) as [p|];
  [destruct E as (q & E & ->); cbn in E|destruct E as [-> ?]; try subst].

#[export] Instance SessionPinRepo_laws : PinStoreLaws Table.
Proof.
  refine {| view := fun db => db |}.
  - intros k r now s s' o [= <- <-]. auto.
  - intros k r e now s s' p. cbn. unfold repo_Consume. destruct (select_for k r e s) as [p'|]; [|discriminate].
    destruct (Z.ltb_spec (pg_time now) p'.(Pin.PinnedUntil)); intros [= <- <-]. auto.
  - intros k r e now s s'. cbn. unfold repo_Consume. destruct (select_for k r e s) as [p'|].
    + destruct (Z.ltb_spec (pg_time now) p'.(Pin.PinnedUntil)); intros [= <-]. split; [reflexivity|].
      intros ? [= <-]. assumption.
    + intros [= <-]. split; [reflexivity|discriminate].
  - intros p now s s' F. cbn. unfold repo_Upsert. destruct (insert_row now p) as [new|] eqn:En; [|discriminate].
    destruct (insert_row_fits _ _ _ F En) as (-> & -> & U & ? & ? & ? & ? & ? & ? & ?).
    destruct (s !! _) as [o|] eqn:Eo.
    + destruct (conflict_row now o new) as [q|] eqn:Eq; [|discriminate]. intros [= <-]. exists q.
      split; [|reflexivity]. eapply conflict_row_upserted; eauto.
    + intros [= <-]. eauto.
  - intros k r u now s s' F E. cbn in E. unfold repo_UpdateUsage in E. update_law E.
    + rewrite F in E. injection E as <-. reflexivity.
    + reflexivity.
  - intros k r e now s s' n E. cbn in E. unfold repo_IncrementUpstreamErrors in E. update_law E; [|auto].
    unfold int4 in E. destruct (_ <=? _); [|discriminate]. injection E as <- <-. auto.
  - intros k r e now s s' n E. cbn in E. unfold repo_IncrementOverloadErrors in E. update_law E; [|auto].
    unfold int4 in E. destruct (_ <=? _); [|discriminate]. injection E as <- <-. auto.
  - intros k r provider e now s s' E. cbn in E. unfold repo_DisableProvider in E. update_law E; [|reflexivity].
    injection E as <-. reflexivity.
Defined.

(** ** Histories: requests on any number of pods are sequences of statements *)

Inductive Call :=
| CGet (k r : string)
| CConsume (k r expected : string)
| CUpsert (p : Pin.t)
| CUpdateUsage (k r : string) (u : Usage.t)
| CIncrementUpstreamErrors (k r expected : string)
| CIncrementOverloadErrors (k r expected : string)
| CResetUpstreamErrors (k r expected : string)
| CResetOverloadErrors (k r expected : string)
| CDisableProvider (k r provider expected : string)
| CSweepExpired.

Definition exec (now : Z) (c : Call) (db : Table) : Table :=
  match c with
  | CGet k r => (Get k r now db).1
  | CConsume k r e => (Consume k r e now db).1
  | CUpsert p => (Upsert p now db).1
  | CUpdateUsage k r u => (UpdateUsage k r u now db).1
  | CIncrementUpstreamErrors k r e => (IncrementUpstreamErrors k r e now db).1
  | CIncrementOverloadErrors k r e => (IncrementOverloadErrors k r e now db).1
  | CResetUpstreamErrors k r e => (ResetUpstreamErrors k r e now db).1
  | CResetOverloadErrors k r e => (ResetOverloadErrors k r e now db).1
  | CDisableProvider k r provider e => (DisableProvider k r provider e now db).1
  | CSweepExpired => (SweepExpired now db).1
  end.
Definition step (db db' : Table) : Prop := exists now c, db' = exec now c db.

(** The key an Upsert writes, if its texts fit. *)
Definition upsert_key (p : Pin.t) : option (string * string) :=
  match varchar 32 p.(Pin.Role) with
  | Ok r => Some (p.(Pin.SessionKey), r)
  | Err _ => None
  end.
(** [c] may create the row at [key]. *)
Definition creates (c : Call) (key : string * string) : Prop :=
  match c with
  | CUpsert p => upsert_key p = Some key
  | _ => False
  end.

(** The only things a statement does to the row at [key]: nothing, delete it, create it, or
    replace it by one of the listed updates. *)
Inductive row_step (key : string * string) : option Pin.t -> option Pin.t -> Prop :=
| RSame o : row_step key o o
| RDelete p : row_step key (Some p) None
| RCreate now p q : upsert_key p = Some key -> insert_row now p = Ok q -> row_step key None (Some q)
| RRefresh now p n o q : upsert_key p = Some key -> insert_row now p = Ok n ->
    conflict_row now o n = Ok q -> row_step key (Some o) (Some q)
| RUsage u t prov p : varchar 32 u.(Usage.ServedProvider) = Ok prov ->
    row_step key (Some p) (Some (usage_row u t prov p))
| RUpstream n p : 0 <= n <= max_int32 \/ n = p.(Pin.ConsecutiveUpstreamErrors) + 1 /\ n <= max_int32 ->
    row_step key (Some p) (Some (Pin.set_ConsecutiveUpstreamErrors n p))
| ROverload n p : 0 <= n <= max_int32 \/ n = p.(Pin.ConsecutiveOverloadErrors) + 1 /\ n <= max_int32 ->
    row_step key (Some p) (Some (Pin.set_ConsecutiveOverloadErrors n p))
| RDisable provider p :
    row_step key (Some p) (Some (Pin.set_ConsecutiveOverloadErrors 0
      (Pin.set_DisabledProviders (add_disabled provider p.(Pin.DisabledProviders)) p))).

Lemma insert_row_key now p n : insert_row now p = Ok n ->
  upsert_key p = Some (n.(Pin.SessionKey), n.(Pin.Role)).
Proof.
  unfold insert_row, upsert_key. destruct (varchar 32 p.(Pin.Role)); [|discriminate]. cbn.
  repeat (destruct (varchar _ _); [|discriminate]; cbn). intros [= <-]. reflexivity.
Qed.

Lemma select_for_lookup k r e db p : select_for k r e db = Some p -> db !! (k, r) = Some p.
Proof. unfold select_for. destruct (db !! (k, r)); [|discriminate]. destruct (strategy_matches _ _); congruence. Qed.

(** Lemma: an UPDATE of one row is a row step at every key. *)
Lemma update_for_row {A : Type} k r e db (none : A) f key :
  (forall p q a, f p = Ok (q, a) -> row_step (k, r) (Some p) (Some q)) ->
  row_step key (db !! key) ((update_for k r e db none f).1 !! key).
Proof.
  intros F. unfold update_for. destruct (select_for k r e db) as [p|] eqn:E; [|constructor].
  destruct (f p) as [[q a]|] eqn:Ef; [|constructor]. cbn.
  destruct (decide ((k, r) = key)) as [<-|N]; [|rewrite lookup_insert_ne by exact N; constructor].
  rewrite lookup_insert_eq, (select_for_lookup _ _ _ _ _ E). exact (F _ _ _ Ef).
Qed.

Lemma exec_row now c db key : row_step key (db !! key) (exec now c db !! key).
Proof.
  destruct c; cbn.
  - constructor.
  - unfold repo_Consume. destruct (select_for k r expected db) as [p|] eqn:E; [|constructor].
    destruct (_ <? _); [cbn|constructor].
    destruct (decide ((k, r) = key)) as [<-|N]; [|rewrite lookup_delete_ne by exact N; constructor].
    rewrite lookup_delete_eq, (select_for_lookup _ _ _ _ _ E). constructor.
  - unfold repo_Upsert. destruct (insert_row now p) as [n|] eqn:En; [|constructor].
    set (k := (n.(Pin.SessionKey), n.(Pin.Role))). destruct (db !! k) as [o|] eqn:Eo.
    + destruct (conflict_row now o n) as [q|] eqn:Eq; [cbn|constructor].
      destruct (decide (k = key)) as [<-|N]; [|rewrite lookup_insert_ne by exact N; constructor].
      rewrite lookup_insert_eq, Eo. eapply RRefresh; eauto using insert_row_key.
    + cbn. destruct (decide (k = key)) as [<-|N]; [|rewrite lookup_insert_ne by exact N; constructor].
      rewrite lookup_insert_eq, Eo. eapply RCreate; eauto using insert_row_key.
  - apply update_for_row. intros p q a.
    destruct (varchar 32 u.(Usage.ServedProvider)) eqn:E; cbn; intros [= <- _]. constructor; exact E.
  - apply update_for_row. intros p q a. unfold int4. destruct (Z.leb_spec (p.(Pin.ConsecutiveUpstreamErrors) + 1) max_int32); cbn; intros [= <- _].
    constructor. auto.
  - apply update_for_row. intros p q a. unfold int4. destruct (Z.leb_spec (p.(Pin.ConsecutiveOverloadErrors) + 1) max_int32); cbn; intros [= <- _].
    constructor. auto.
  - apply update_for_row. intros p q a [= <- _]. destruct (_ <? _); constructor. left. easy.
  - apply update_for_row. intros p q a [= <- _]. destruct (_ <? _); constructor. left. easy.
  - apply update_for_row. intros p q a [= <- _]. constructor.
  - rewrite map_lookup_filter. destruct (db !! key) as [p|]; cbn; [|constructor].
    case_guard; cbn; constructor.
Qed.

(** ** The table invariant *)

Record row_wf (key : string * string) (p : Pin.t) : Prop := {
  wf_key : key = (p.(Pin.SessionKey), p.(Pin.Role));
  wf_fits : pin_fits p;
  wf_upstream : 0 <= p.(Pin.ConsecutiveUpstreamErrors) <= max_int32;
  wf_overload : 0 <= p.(Pin.ConsecutiveOverloadErrors) <= max_int32;
  wf_turns : - 2 ^ 31 <= p.(Pin.TurnCount) <= max_int32;
  wf_disabled : NoDup p.(Pin.DisabledProviders)
}.
Definition table_wf (db : Table) : Prop := map_Forall row_wf db.

Lemma split_chars_fit n s x y : split_chars n s = (x, y) -> split_chars n x = (x, "").
Proof.
  revert n x y; induction s as [|a s IH]; intros n x y; [intros [= <- _]; reflexivity|].
  cbn [split_chars]. destruct (is_continuation a) eqn:Ea.
  - destruct (split_chars n s) as [u v] eqn:E. intros [= <- <-]. cbn. rewrite Ea, (IH _ _ _ E). reflexivity.
  - destruct n as [|n]; [intros [= <- _]; reflexivity|]. destruct (split_chars n s) as [u v] eqn:E.
    intros [= <- <-]. cbn. rewrite Ea, (IH _ _ _ E). reflexivity.
Qed.
Lemma varchar_fits n s t : varchar n s = Ok t -> fits n t.
Proof.
  unfold fits, varchar. destruct (split_chars n s) as [x y] eqn:E. destruct (all_spaces y); [|discriminate].
  intros [= <-]. rewrite (split_chars_fit _ _ _ _ E). reflexivity.
Qed.
Lemma wrap32_bounds z : - 2 ^ 31 <= wrap32 z <= max_int32.
Proof. unfold wrap32, wrapS, max_int32. pose proof (Z.mod_pos_bound (z + 2 ^ (32 - 1)) (2 ^ 32)). lia. Qed.

Lemma insert_row_wf now p n : insert_row now p = Ok n -> row_wf (n.(Pin.SessionKey), n.(Pin.Role)) n.
Proof.
  unfold insert_row.
  repeat match goal with |- context [varchar ?n ?s] =>
    let E := fresh "F" in destruct (varchar n s) eqn:E; [apply varchar_fits in E; cbn|discriminate] end.
  intros [= <-]. split; cbn; auto using wrap32_bounds, NoDup_nil_2; [|unfold max_int32; lia..].
  unfold pin_fits. cbn. auto 10.
Qed.

Lemma conflict_row_fits now o n q : conflict_row now o n = Ok q -> pin_fits o -> pin_fits n -> pin_fits q.
Proof.
  unfold conflict_row. destruct (if String.eqb _ _ then _ else _) as [t|]; [|discriminate]. cbn.
  intros [= <-] (O1 & O2 & O3 & O4 & O5 & O6 & O7) (N1 & N2 & N3 & N4 & N5 & N6 & N7).
  unfold pin_fits. cbn. assert (E : forall k, fits k "") by reflexivity.
  repeat split; auto; repeat match goal with |- context [if ?b then _ else _] => destruct b end; auto.
Qed.

Lemma add_disabled_NoDup x l : NoDup l -> NoDup (add_disabled x l).
Proof.
  intros N. unfold add_disabled. case_bool_decide as E; [exact N|]. apply NoDup_app.
  split; [exact N|]. split; [|apply NoDup_singleton]. intros y Hy ->%list_elem_of_singleton. auto.
Qed.

Lemma row_step_wf key o o' : row_step key o o' ->
  (forall p, o = Some p -> row_wf key p) -> forall q, o' = Some q -> row_wf key q.
Proof.
  destruct 1 as [o|p|now p n U In|now p n o q U In Cf|u t prov p Hp|n p Hn|n p Hn|provider p]; intros W q' Eq.
  - auto.
  - discriminate.
  - injection Eq as <-. rewrite (insert_row_key _ _ _ In) in U. injection U as <-. exact (insert_row_wf _ _ _ In).
  - injection Eq as <-. destruct (W _ eq_refl) as [-> Wf Wu Wo Wt Wd]. pose proof (insert_row_wf _ _ _ In) as [_ Nf Nu No Nt Nd].
    pose proof (conflict_row_fits _ _ _ _ Cf Wf Nf) as Qf. revert Cf Qf. unfold conflict_row.
    destruct (String.eqb o.(Pin.Strategy) n.(Pin.Strategy)).
    + unfold int4. destruct (Z.leb_spec (o.(Pin.TurnCount) + 1) max_int32); [|discriminate]. intros [= <-] Qf.
      split; [reflexivity|exact Qf|cbn..]; rewrite ?andb_true_r; auto;
        try (destruct (String.eqb n.(Pin.Model) o.(Pin.Model)); auto); unfold max_int32 in *; lia.
    + intros [= <-] Qf. split; [reflexivity|exact Qf|cbn..]; rewrite ?andb_false_r; auto using NoDup_nil_2;
        unfold max_int32; lia.
  - injection Eq as <-. destruct (W _ eq_refl) as [-> Wf Wu Wo Wt Wd]. split; cbn; auto.
    apply varchar_fits in Hp. unfold pin_fits in *. cbn. tauto.
  - injection Eq as <-. destruct (W _ eq_refl) as [-> Wf Wu Wo Wt Wd]. split; cbn; auto. lia.
  - injection Eq as <-. destruct (W _ eq_refl) as [-> Wf Wu Wo Wt Wd]. split; cbn; auto. lia.
  - injection Eq as <-. destruct (W _ eq_refl) as [-> Wf Wu Wo Wt Wd]. split; cbn; auto using add_disabled_NoDup.
    unfold max_int32; lia.
Qed.

(** Every table reachable from the empty one by any history of statements is well formed:
    rows sit under their own key, their texts fit their columns, the strike counters are
    non-negative 32-bit integers and no provider is disabled twice. *)
Lemma table_wf_reachable db : rtc step ∅ db -> table_wf db.
Proof.
  assert (P : forall d d', rtc step d d' -> table_wf d -> table_wf d').
  { induction 1 as [|d d' d'' (now & c & ->) _ IH]; [auto|]. intros W. apply IH. intros key q Hq.
    eapply (row_step_wf key _ _ (exec_row now c d key)); [|exact Hq]. intros p Hp. exact (W key p Hp). }
  intros R. apply (P _ _ R). apply map_Forall_empty.
Qed.

(** ** One-shot rows *)

Definition step_by (P : Call -> Prop) (db db' : Table) : Prop :=
  exists now c, P c /\ db' = exec now c db.

Lemma update_for_absent {A : Type} k r e db (none : A) f key q :
  (update_for k r e db none f).1 !! key = Some q -> db !! key = None -> False.
Proof.
  unfold update_for. destruct (select_for k r e db) as [p|] eqn:E; [|cbn; congruence].
  destruct (f p) as [[]|]; [|cbn; congruence]. apply select_for_lookup in E. cbn.
  intros [[<- _]|[_ ?]]%lookup_insert_Some; congruence.
Qed.

Lemma exec_keeps_absent now c db key :
  ~ creates c key -> db !! key = None -> exec now c db !! key = None.
Proof.
  intros N E. destruct (exec now c db !! key) as [q|] eqn:Eq; [exfalso|reflexivity].
  pose proof (exec_row now c db key) as R. rewrite E, Eq in R. inversion R; subst.
  destruct c as [| |p0| | | | | | |]; cbn in Eq, N.
  1: congruence.
  all: unfold repo_Consume, repo_UpdateUsage, repo_IncrementUpstreamErrors, repo_IncrementOverloadErrors,
      repo_ResetUpstreamErrors, repo_ResetOverloadErrors, repo_DisableProvider in Eq;
    try (apply update_for_absent in Eq; [contradiction|exact E]).
  - destruct (select_for _ _ _ _); [destruct (_ <? _)|]; cbn in Eq; [|congruence..].
    apply lookup_delete_Some in Eq as [_ Eq]. congruence.
  - unfold repo_Upsert in Eq. destruct (insert_row now p0) as [n|] eqn:En; [|cbn in Eq; congruence].
    rewrite (insert_row_key _ _ _ En) in N.
    assert (D : (n.(Pin.SessionKey), n.(Pin.Role)) <> key) by congruence.
    destruct (db !! (n.(Pin.SessionKey), n.(Pin.Role))); [destruct (conflict_row _ _ _)|]; cbn in Eq;
      rewrite ?lookup_insert_ne in Eq by exact D; congruence.
  - rewrite map_lookup_filter, E in Eq. discriminate.
Qed.

(** A one-shot row is handed out once.  After a [Consume] that returned it, whatever the
    other requests do short of writing that row again, every further [Consume] of it returns
    nothing and changes nothing. *)
Lemma consume_once k r e now db db1 p :
  Consume k r e now db = (db1, Ok (Some p)) ->
  forall db2, rtc (step_by (fun c => ~ creates c (k, r))) db1 db2 ->
  forall e' now', Consume k r e' now' db2 = (db2, Ok None).
Proof.
  intros E db2 R. assert (E1 : db1 !! (k, r) = None).
  { destruct (Consume_some k r e now db db1 p E) as (_ & _ & V). cbn in V. rewrite V. apply lookup_delete_eq. }
  assert (E2 : db2 !! (k, r) = None).
  { clear E. induction R as [|d1 d2 d3 (n & c & Hc & ->) _ IH]; [exact E1|]. apply IH, exec_keeps_absent; assumption. }
  intros e' now'. cbn. unfold repo_Consume, select_for. rewrite E2. reflexivity.
Qed.

(** ** Requests of another strategy *)

(** The row and the strategy a non-Upsert write names. *)
Definition write_target (c : Call) : option (string * string * string) :=
  match c with
  | CConsume k r e | CIncrementUpstreamErrors k r e | CIncrementOverloadErrors k r e
  | CResetUpstreamErrors k r e | CResetOverloadErrors k r e | CDisableProvider k r _ e => Some (k, r, e)
  | CUpdateUsage k r u => Some (k, r, u.(Usage.Strategy))
  | CGet _ _ | CUpsert _ | CSweepExpired => None
  end.

(** A late write of another strategy leaves the table as it is, and no strategy but the
    beta's may adopt a row that has none. *)
Lemma strategy_isolation now c k r e db p :
  write_target c = Some (k, r, e) -> db !! (k, r) = Some p ->
  p.(Pin.Strategy) <> e -> (p.(Pin.Strategy) = "" -> e = "hmm_beta") ->
  exec now c db = db.
Proof.
  intros T E N L. assert (S0 : select_for k r e db = None).
  { unfold select_for, strategy_matches. rewrite E, (proj2 (String.eqb_neq _ _) N). cbn.
    destruct (String.eqb_spec p.(Pin.Strategy) ""); [|reflexivity]. rewrite L by assumption. reflexivity. }
  destruct c; cbn in T; try discriminate; injection T as <- <- <-; cbn;
    unfold repo_Consume, repo_UpdateUsage, repo_IncrementUpstreamErrors, repo_IncrementOverloadErrors,
      repo_ResetUpstreamErrors, repo_ResetOverloadErrors, repo_DisableProvider, update_for;
    rewrite S0; reflexivity.
Qed.

(** ** Evidence within one strategy *)

(** A step after which the row at [key] is still there, under strategy [s]. *)
Definition live_step (key : string * string) (s : string) (db db' : Table) : Prop :=
  step db db' /\ exists q, db' !! key = Some q /\ q.(Pin.Strategy) = s.

(** Rule induction over the life of one row under one strategy. *)
Lemma live_ind key s (P : Pin.t -> Prop) :
  (forall p q, row_step key (Some p) (Some q) -> p.(Pin.Strategy) = s -> q.(Pin.Strategy) = s -> P p -> P q) ->
  forall db db', rtc (live_step key s) db db' ->
  forall p, db !! key = Some p -> p.(Pin.Strategy) = s -> P p ->
  exists q, db' !! key = Some q /\ q.(Pin.Strategy) = s /\ P q.
Proof.
  intros Hs db db'. induction 1 as [|d1 d2 d3 ((n & c & ->) & q & Eq & Es) _ IH]; intros p Ep Hp Pp; [eauto|].
  apply (IH q Eq Es). pose proof (exec_row n c d1 key) as R. rewrite Ep, Eq in R. eauto.
Qed.

Lemma conflict_same_strategy now o n q :
  conflict_row now o n = Ok q -> o.(Pin.Strategy) = q.(Pin.Strategy) ->
  q.(Pin.DisabledProviders) = o.(Pin.DisabledProviders) /\
  q.(Pin.HasEverSwitched) = o.(Pin.HasEverSwitched) /\
  q.(Pin.LastServedModel) = o.(Pin.LastServedModel) /\
  q.(Pin.FirstPinnedAt) = o.(Pin.FirstPinnedAt) /\
  q.(Pin.InstallationID) = o.(Pin.InstallationID).
Proof.
  unfold conflict_row. destruct (if String.eqb _ _ then _ else _) as [t|]; [|discriminate]. cbn.
  intros [= <-]. cbn. intros ->. rewrite String.eqb_refl. auto.
Qed.

Lemma add_disabled_incl x l : l ⊆ add_disabled x l.
Proof. unfold add_disabled. case_bool_decide; set_solver. Qed.

Lemma add_disabled_in x l : x ∈ add_disabled x l.
Proof. unfold add_disabled. case_bool_decide; set_solver. Qed.

(** C23: while a row lives under one strategy, a provider that was disabled stays disabled,
    a session that switched models stays marked, and the row keeps its first-pinned time and its
    installation, whatever statements run. *)
Theorem evidence_kept key s db db' p :
  rtc (live_step key s) db db' -> db !! key = Some p -> p.(Pin.Strategy) = s ->
  exists q, db' !! key = Some q /\
    p.(Pin.DisabledProviders) ⊆ q.(Pin.DisabledProviders) /\
    (p.(Pin.HasEverSwitched) = true -> q.(Pin.HasEverSwitched) = true) /\
    q.(Pin.FirstPinnedAt) = p.(Pin.FirstPinnedAt) /\ q.(Pin.InstallationID) = p.(Pin.InstallationID).
Proof.
  intros R E Es.
  edestruct (live_ind key s (fun q => p.(Pin.DisabledProviders) ⊆ q.(Pin.DisabledProviders) /\
    (p.(Pin.HasEverSwitched) = true -> q.(Pin.HasEverSwitched) = true) /\
    q.(Pin.FirstPinnedAt) = p.(Pin.FirstPinnedAt) /\ q.(Pin.InstallationID) = p.(Pin.InstallationID)))
    as (q & Eq & _ & Q); [|exact R|exact E|exact Es|repeat split; auto|eauto].
  clear. intros p' q St Ep Eq (D & L & F & I). inversion St; subst; cbn; auto.
  - destruct (conflict_same_strategy _ _ _ _ ltac:(eassumption)) as (-> & -> & _ & -> & ->); [congruence|auto].
  - split; [exact D|]. split; [|auto]. intros ->%L. reflexivity.
  - split; [|auto]. etrans; [exact D|apply add_disabled_incl].
Qed.

(** A session that has served a model [m] and later records another is marked as
    switched: as long as the row lives, either the mark is set or [m] is still the last model
    served. *)
Lemma switch_latched key s db db' p :
  rtc (live_step key s) db db' -> db !! key = Some p -> p.(Pin.Strategy) = s ->
  p.(Pin.LastServedModel) <> "" ->
  exists q, db' !! key = Some q /\
    (q.(Pin.LastServedModel) <> p.(Pin.LastServedModel) -> q.(Pin.HasEverSwitched) = true).
Proof.
  intros R E Es Hm.
  edestruct (live_ind key s (fun q => q.(Pin.HasEverSwitched) = true \/
    q.(Pin.LastServedModel) = p.(Pin.LastServedModel))) as (q & Eq & _ & Q);
    [|exact R|exact E|exact Es|auto|exists q; split; [exact Eq|tauto]].
  clear -Hm. intros p' q St Ep Eq D. inversion St; subst; cbn; auto.
  - destruct (conflict_same_strategy _ _ _ _ ltac:(eassumption)) as (_ & -> & -> & _); [congruence|auto].
  - destruct D as [->|D]; [auto|]. rewrite D. destruct (String.eqb_spec u.(Usage.ServedModel) p.(Pin.LastServedModel)) as [->|N]; [auto|].
    left. rewrite (proj2 (String.eqb_neq _ _) Hm), (proj2 (String.eqb_neq _ _) (not_eq_sym N)).
    destruct p'.(Pin.HasEverSwitched), u.(Usage.SessionEverSwitched); reflexivity.
Qed.

(** ** Witnesses *)

Definition ex_role : string := "default_cmd_next".
Definition ex_pin : Pin.t :=
  Pin.set_LastServedModel "moonshotai/kimi-k3" (Pin.set_Provider "aiand" (Pin.set_Model "zai-org/glm-5.3"
    (Pin.set_Strategy "cluster" (Pin.set_PinnedUntil (2 * Hour) (Pin.set_Role ex_role Pin.zero))))).
Definition ex_key : string * string := (zero_session_key, ex_role).
Definition ex_table : Table := {[ ex_key := ex_pin ]}.

Lemma consume_once_witness :
  Consume zero_session_key ex_role "cluster" Hour ex_table = (∅, Ok (Some ex_pin)) /\
  Consume zero_session_key ex_role "hmm" Hour (∅ : Table) = (∅, Ok None).
Proof.
  assert (E : Consume zero_session_key ex_role "cluster" Hour ex_table = (∅, Ok (Some ex_pin)))
    by (vm_compute; reflexivity).
  split; [exact E|]. exact (consume_once _ _ _ _ _ _ _ E ∅ (rtc_refl _ _) "hmm" Hour).
Defined.

Lemma table_wf_reachable_witness : table_wf (exec Hour (CUpsert ex_pin) ∅).
Proof.
  apply table_wf_reachable. apply rtc_once. exists Hour, (CUpsert ex_pin). reflexivity.
Defined.

Lemma strategy_isolation_witness :
  exec Hour (CDisableProvider zero_session_key ex_role "aiand" "hmm") ex_table = ex_table.
Proof.
  apply (strategy_isolation Hour _ zero_session_key ex_role "hmm" ex_table ex_pin);
    [reflexivity|vm_compute; reflexivity|discriminate|discriminate].
Defined.

Definition ex_usage : Usage.t :=
  Usage.mk "cluster" 1000 0 0 50 Hour "zai-org/glm-5.3" "aiand" "" false.
Lemma ex_usage_live :
  rtc (live_step ex_key "cluster") ex_table
    (exec Hour (CUpdateUsage zero_session_key ex_role ex_usage) ex_table).
Proof.
  apply rtc_once. split; [eexists _, _; reflexivity|]. eexists. split; vm_compute; reflexivity.
Qed.

Lemma evidence_kept_witness : exists q,
  exec Hour (CUpdateUsage zero_session_key ex_role ex_usage) ex_table !! ex_key = Some q /\
  q.(Pin.InstallationID) = uuid_Nil.
Proof.
  destruct (evidence_kept ex_key "cluster" ex_table _ ex_pin ex_usage_live) as (q & E & _ & _ & _ & I);
    [vm_compute; reflexivity|reflexivity|]. exists q. split; [exact E|exact I].
Defined.

Lemma switch_latched_witness : exists q,
  exec Hour (CUpdateUsage zero_session_key ex_role ex_usage) ex_table !! ex_key = Some q /\
  (q.(Pin.LastServedModel) <> "moonshotai/kimi-k3" -> q.(Pin.HasEverSwitched) = true).
Proof.
  apply (switch_latched ex_key "cluster" ex_table _ ex_pin ex_usage_live);
    [vm_compute; reflexivity|reflexivity|discriminate].
Defined.

(** An Upsert under another strategy drops the struck-out providers of the row, its usage and its
    switch mark. *)
Lemma upsert_other_strategy_resets :
  let p := Pin.set_DisabledProviders ["aiand"] ex_pin in
  forall q, exec Hour (CUpsert (Pin.set_Strategy "hmm" p)) {[ ex_key := p ]} !! ex_key = Some q ->
  q.(Pin.DisabledProviders) = [] /\ q.(Pin.LastServedModel) = "".
Proof. intros p q E. vm_compute in E. injection E as <-. split; reflexivity. Qed.
