(* ===== verification/ForceNames.v ===== *)
(** Force-model names and commands: internal/proxy/force_model.go (name resolution),
    internal/translate/envelope.go (effort levels), internal/translate/model_variant.go and the
    command parser of internal/translate/force_model.go.  All pure functions of strings; the
    JSON body a name or a command text is taken from is read by a third-party package and is an
    argument here. *)

From stdpp Require Import base gmap sets list strings.
From Stdlib Require Import ZArith Lia Ascii.
From S2P Require Import Prelude Floats Types Catalog.
Open Scope string_scope.
Open Scope Z_scope.

(** ** Effort levels (envelope.go) *)

Section Names.
Context `{GoUnicode}.

Definition CanonicalizeEffort (level : string) : string :=
  let l := ToLower (TrimSpace level) in
  if in_strings l ["none"; "disabled"; "off"] then EffortNone
  else if in_strings l ["fast"; "low"; "minimal"; "min"] then EffortLow
  else if in_strings l ["medium"; "med"] then EffortMedium
  else if in_strings l ["high"] then EffortHigh
  else if in_strings l ["max"; "ultra"; "xhigh"] then EffortMax
  else level.
Definition canonical_efforts : list string := [EffortNone; EffortLow; EffortMedium; EffortHigh; EffortMax].
Definition IsValidEffort (level : string) : bool :=
  in_strings (CanonicalizeEffort level) canonical_efforts.

(** ** Force-model names (force_model.go, model_variant.go) *)

Definition looksLikeEffortAlias (tail : string) : bool :=
  in_strings (ToLower (TrimSpace tail))
    ["none"; "disabled"; "off"; "fast"; "low"; "medium"; "med"; "high"; "max"; "xhigh";
     "ultra"; "minimal"; "min"].

(** (effort, model) *)
Definition stripEffortSuffix (model : string) : string * string :=
  match LastIndexByte model ":"%char with
  | None => ("", model)
  | Some idx =>
      if Nat.eqb idx (String.length model - 1) then ("", model)
      else
        let tail := TrimSpace (str_drop (S idx) model) in
        if looksLikeEffortAlias tail then (CanonicalizeEffort tail, str_take idx model)
        else ("", model)
  end.

(** The row a name resolves to, if it has a binding: its id and first provider. *)
Definition catalog_target (id : string) : option (string * string) :=
  match ByIDOrUpstream id with
  | Some m => match m.(Providers) with
              | b :: _ => Some (m.(ID), b.(Provider))
              | [] => None
              end
  | None => None
  end.
(** (canonicalID, provider, known, effort) *)
Definition resolveForceModelWithEffort (model0 : string) : string * string * bool * string :=
  let '(effort, stripped) := stripEffortSuffix model0 in
  let model := ToLower (TrimSpace stripped) in
  match catalog_target model with
  | Some (id, provider) => (id, provider, true, effort)
  | None =>
      let model := match CutPrefix model "openai/" with Some nativeID => nativeID | None => model end in
      match catalog_target model with
      | Some (id, provider) => (id, provider, true, effort)
      | None => (model, ProviderAiand, false, effort)
      end
  end.
Definition resolveForceModel (model : string) : string * string * bool :=
  let '(canon, prov, kn, _) := resolveForceModelWithEffort model in (canon, prov, kn).

(** [translate.CanonicalModel]: the name without the context-window variant tag. *)
Definition stripVariantTag (model : string) : string * bool :=
  if HasSuffix model "[1m]" then (str_take (String.length model - 4) model, true) else (model, false).

Definition isWireCompatPassthroughModel (model : string) : bool :=
  let model := ToLower (TrimSpace model) in
  (HasPrefix model "claude-" || HasPrefix model "gemini-")%bool.

(** [rawForceModelFromHeaders]: [envModel] is the body's model field, [header] the value of
    x-aiand-force-model, [None] when there are no headers (Get returns the empty string for an
    absent one). *)
Definition rawForceModelFromHeaders (header : option string) (envModel : string) : string :=
  let bodyModel := TrimSpace (stripVariantTag envModel).1 in
  if (negb (String.eqb bodyModel "") && negb (String.eqb bodyModel "auto"))%bool then
    let '(_, _, known, _) := resolveForceModelWithEffort bodyModel in
    if known then bodyModel
    else if (isWireCompatPassthroughModel bodyModel || Contains bodyModel "/")%bool then ""
    else bodyModel
  else match header with
       | None => ""
       | Some h => TrimSpace h
       end.

(** [ForcedModelUnknownError] carries the name. *)
Definition previewForceModelFromRequest (header : option string) (envModel : string) :
    res string string :=
  let raw := rawForceModelFromHeaders header envModel in
  if String.eqb raw "" then Ok ""
  else let '(canonicalModel, _, known, _) := resolveForceModelWithEffort raw in
       if known then Ok canonicalModel else Err raw.

End Names.

(** ** The command parser (translate/force_model.go) *)

Record ForceModelResult := { cmd_Model : string; Clear : bool; FromToolResult : bool }.
Definition zero_result : ForceModelResult :=
  {| cmd_Model := ""; Clear := false; FromToolResult := false |}.

Definition in_range (lo hi : nat) (a : ascii) : bool :=
  (Nat.leb lo (nat_of_ascii a) && Nat.leb (nat_of_ascii a) hi)%bool.
Definition isTagNameByte (c : ascii) (first : bool) : bool :=
  if (in_range 97 122 c || in_range 65 90 c)%bool then true
  else (negb first && (in_range 48 57 c || Ascii.eqb c "-"%char || Ascii.eqb c "_"%char))%bool.

Definition is_ws (a : ascii) : bool :=
  let n := nat_of_ascii a in (Nat.eqb n 32 || Nat.eqb n 9 || Nat.eqb n 13 || Nat.eqb n 10)%bool.
Fixpoint skip_ws (s : string) : string :=
  match s with
  | String a s' => if is_ws a then skip_ws s' else s
  | EmptyString => s
  end.
(** The tag name at the head of [s] and what follows its [>]. *)
Fixpoint tag_name (s : string) (first : bool) : option (string * string) :=
  match s with
  | EmptyString => None
  | String c s' =>
      if Ascii.eqb c ">"%char then if first then None else Some ("", s')
      else if isTagNameByte c first then
        match tag_name s' false with
        | Some (name, rest) => Some (String c name, rest)
        | None => None
        end
      else None
  end.

(** One [<tag>...</tag>] block, with the whitespace before it: what follows it. *)
Definition skip_block (s : string) : option string :=
  match skip_ws s with
  | String a s1 =>
      if Ascii.eqb a "<"%char then
        match tag_name s1 true with
        | Some (name, rest) =>
            let closeTag := "</" +:+ name +:+ ">" in
            match Index rest closeTag with
            | Some i => Some (str_drop (i + String.length closeTag) rest)
            | None => None
            end
        | None => None
        end
      else None
  | EmptyString => None
  end.
(** [leadingInjectedPrefixEnd], as the rest of the text after the prefix; the fuel is the length
    of the text, which every block shortens. *)
Fixpoint after_prefix_fuel (fuel : nat) (s : string) : string :=
  match fuel with
  | O => s
  | S f => match skip_block s with
           | Some s' => after_prefix_fuel f s'
           | None => s
           end
  end.
Definition leadingInjectedPrefixEnd (text : string) : nat :=
  String.length text - String.length (after_prefix_fuel (String.length text) text).

Definition newline : string := String (ascii_of_nat 10) "".
(** [strings.Split(s, "\n")] *)
Fixpoint split_lines (s : string) : list string :=
  match s with
  | EmptyString => [""]
  | String a s' =>
      if Ascii.eqb a (ascii_of_nat 10) then "" :: split_lines s'
      else match split_lines s' with
           | l :: ls => String a l :: ls
           | [] => [String a ""]
           end
  end.

Fixpoint cutAnyPrefix (text : string) (prefixes : list string) : option string :=
  match prefixes with
  | [] => None
  | p :: ps => match CutPrefix text p with
               | Some after => Some after
               | None => cutAnyPrefix text ps
               end
  end.

(** The directive on one trimmed line. *)
Definition line_command (trimmed : string) : option ForceModelResult :=
  match cutAnyPrefix trimmed ["/force-model "; "/fm "; "$force-model "; "$fm "] with
  | Some after =>
      let name := Join (Fields after) " " in
      if String.eqb name "" then None
      else Some {| cmd_Model := name; Clear := false; FromToolResult := false |}
  | None =>
      if in_strings trimmed ["/unforce-model"; "/ufm"; "$unforce-model"; "$ufm"]
      then Some {| cmd_Model := ""; Clear := true; FromToolResult := false |} else None
  end.
(** The first non-blank line of [lines], its index counted from [i]. *)
Fixpoint first_line (i : nat) (lines : list string) : option (nat * string) :=
  match lines with
  | [] => None
  | l :: ls => if String.eqb (TrimSpace l) "" then first_line (S i) ls else Some (i, l)
  end.
Definition leading_command (lines : list string) : option (ForceModelResult * nat) :=
  match first_line 0 lines with
  | Some (i, l) => (fun r => (r, i)) <$> line_command (TrimSpace l)
  | None => None
  end.
(** The first line after the first [Output:] that is not blank. *)
Definition script_line (lines : list string) : option (nat * string) :=
  match list_find (fun l => TrimSpace l = "Output:") lines with
  | Some (i, _) => first_line (S i) (drop (S i) lines)
  | None => None
  end.
Definition remove_line (i : nat) (lines : list string) : list string :=
  (take i lines ++ drop (S i) lines)%list.

(** (result, found, stripped).  The recursion is on a single line, which cannot recurse again
    (theorem [parse_fuel_enough]). *)
Fixpoint parse_fuel (fuel : nat) (text : string) : ForceModelResult * bool * string :=
  let prefixEnd := leadingInjectedPrefixEnd text in
  let prefix := str_take prefixEnd text in
  let lines := split_lines (str_drop prefixEnd text) in
  match leading_command lines with
  | Some (res, cmdIdx) =>
      (res, true, TrimSpace (prefix +:+ Join (remove_line cmdIdx lines) newline))
  | None =>
      let rest := (zero_result, false, text) in
      match fuel with
      | O => rest
      | S f =>
          if HasPrefix (TrimSpace text) "Script completed" then
            let lines := split_lines text in
            match script_line lines with
            | Some (i, l) =>
                let '(candidate, ok, _) := parse_fuel f l in
                if (ok : bool) then (candidate, true, TrimSpace (Join (remove_line i lines) newline))
                else rest
            | None => rest
            end
          else rest
      end
  end.
Definition parseForceModelCommand (text : string) : ForceModelResult * bool * string :=
  parse_fuel 2 text.

(** ** Facts: the command parser *)

Fixpoint no_newline (s : string) : bool :=
  match s with
  | EmptyString => true
  | String a s' => (negb (Ascii.eqb a (ascii_of_nat 10)) && no_newline s')%bool
  end.

Lemma split_lines_cons s : exists l ls, split_lines s = l :: ls.
Proof.
  induction s as [|a s (l & ls & E)]; cbn; [eauto|]. destruct (Ascii.eqb a _); [eauto|]. rewrite E. eauto.
Qed.
Lemma split_lines_no_newline s l : In l (split_lines s) -> no_newline l = true.
Proof.
  revert l; induction s as [|a s IH]; intros l; cbn; [intros [<-|[]]; reflexivity|].
  destruct (Ascii.eqb a (ascii_of_nat 10)) eqn:E; [intros [<-|?]; [reflexivity|auto]|].
  destruct (split_lines_cons s) as (l0 & ls & El). rewrite El in *.
  intros [<-|H]; [cbn; rewrite E; apply IH; left; reflexivity|apply IH; right; exact H].
Qed.
Lemma split_lines_single s : no_newline s = true -> split_lines s = [s].
Proof.
  induction s as [|a s IH]; cbn; [reflexivity|]. intros [E%negb_true_iff W]%andb_prop.
  rewrite E, (IH W). reflexivity.
Qed.
Lemma Join_cons l ls : ls <> [] -> Join (l :: ls) newline = l +:+ newline +:+ Join ls newline.
Proof. destruct ls; [congruence|reflexivity]. Qed.
(** Splitting into lines and joining them gives the text back. *)
Lemma Join_split_lines s : Join (split_lines s) newline = s.
Proof.
  induction s as [|a s IH]; [reflexivity|]. cbn [split_lines].
  destruct (split_lines_cons s) as (l & ls & E). rewrite E in *.
  destruct (Ascii.eqb_spec a (ascii_of_nat 10)) as [->|_].
  - rewrite Join_cons by discriminate. rewrite IH. reflexivity.
  - destruct ls; [cbn in *; congruence|]. rewrite Join_cons in * by discriminate.
    rewrite str_app_cons, IH. reflexivity.
Qed.
Lemma split_lines_app l s : no_newline l = true -> split_lines (l +:+ newline +:+ s) = l :: split_lines s.
Proof.
  induction l as [|a l IH]; cbn [no_newline]; [reflexivity|]. intros [E%negb_true_iff W]%andb_prop.
  rewrite str_app_cons. cbn [split_lines]. rewrite E, (IH W). reflexivity.
Qed.

Lemma first_line_in i ls j l : first_line i ls = Some (j, l) -> In l ls.
Proof.
  revert i; induction ls as [|x ls IH]; intros i; cbn; [discriminate|].
  destruct (String.eqb _ _); [right; eauto|]. intros [= _ <-]. left. reflexivity.
Qed.
Lemma script_line_no_newline s i l : script_line (split_lines s) = Some (i, l) -> no_newline l = true.
Proof.
  unfold script_line. destruct (list_find _ _) as [[k x]|]; [|discriminate]. intros E%first_line_in.
  apply (split_lines_no_newline s). rewrite <- (take_drop (S k) (split_lines s)). apply in_or_app. auto.
Qed.
Lemma script_line_single l : HasPrefix (TrimSpace l) "Script completed" = true -> script_line [l] = None.
Proof.
  intros P. unfold script_line. cbn. destruct (decide (TrimSpace l = "Output:")) as [E|_]; [|reflexivity].
  rewrite E in P. discriminate.
Qed.

Lemma parse_single_line f l : no_newline l = true -> parse_fuel f l = parse_fuel 0 l.
Proof.
  intros W. destruct f as [|f]; [reflexivity|]. cbn [parse_fuel].
  destruct (leading_command _) as [[]|]; [reflexivity|].
  destruct (HasPrefix (TrimSpace l) "Script completed") eqn:P; [|reflexivity].
  rewrite (split_lines_single l W), (script_line_single l P). reflexivity.
Qed.

(** The recursion of the parser ends: more fuel than the parser is given changes nothing. *)
Lemma parse_fuel_enough n text : (1 <= n)%nat -> parse_fuel n text = parseForceModelCommand text.
Proof.
  intros L. destruct n as [|n]; [lia|]. unfold parseForceModelCommand. cbn [parse_fuel].
  destruct (leading_command _) as [[]|]; [reflexivity|].
  destruct (HasPrefix (TrimSpace text) "Script completed"); [|reflexivity].
  destruct (script_line (split_lines text)) as [[i l]|] eqn:E; [|reflexivity].
  pose proof (script_line_no_newline _ _ _ E) as W.
  rewrite (parse_single_line n l W). fold (parse_fuel 1 l). rewrite (parse_single_line 1 l W). reflexivity.
Qed.

Lemma line_command_shape l r : line_command l = Some r ->
  r.(FromToolResult) = false /\ ((r.(Clear) = true /\ r.(cmd_Model) = "") \/ (r.(Clear) = false /\ r.(cmd_Model) <> "")).
Proof.
  unfold line_command. destruct (cutAnyPrefix l _) as [after|].
  - destruct (String.eqb_spec (Join (Fields after) " ") ""); intros [= <-]; cbn; auto.
  - destruct (in_strings _ _); intros [= <-]; cbn; auto.
Qed.

(** A recognised command names a model or clears the force, never both and never neither;
    without a command the text comes back unchanged. *)
Lemma parse_command_shape text :
  let '(r, found, stripped) := parseForceModelCommand text in
  if (found : bool)
  then (r.(Clear) = true /\ r.(cmd_Model) = "") \/ (r.(Clear) = false /\ r.(cmd_Model) <> "")
  else r = zero_result /\ stripped = text.
Proof.
  unfold parseForceModelCommand. generalize 2%nat. intros n. revert text.
  induction n as [|n IH]; intros text; cbn [parse_fuel]; unfold leading_command;
    destruct (first_line _ _) as [[i l]|].
  1, 3: destruct (line_command (TrimSpace l)) as [r|] eqn:E; [exact (proj2 (line_command_shape _ _ E))|].
  all: cbn [fmap option_fmap option_map]; auto.
  all: destruct (HasPrefix (TrimSpace text) "Script completed"); [|auto].
  all: destruct (script_line (split_lines text)) as [[j m]|]; [|auto]; specialize (IH m);
    destruct (parse_fuel n m) as [[c [|]] st]; auto.
Qed.

Lemma word_no_newline s : all_bytes word_byte s = true -> no_newline s = true.
Proof.
  induction s as [|a s IH]; cbn; [reflexivity|]. intros [W ?]%andb_prop. rewrite IH by assumption.
  destruct (Ascii.eqb_spec a (ascii_of_nat 10)) as [->|]; [discriminate|reflexivity].
Qed.

Lemma prefix_end_slash s : leadingInjectedPrefixEnd (String "/" s) = 0%nat.
Proof.
  unfold leadingInjectedPrefixEnd. cbn [String.length after_prefix_fuel].
  change (skip_block (String "/" s)) with (@None string). cbn [String.length]. lia.
Qed.

(** A [/force-model] line typed with a model name (any run of printable ASCII)
    is recognised with exactly that name, and the rest of the message is what the prompt becomes,
    trimmed. *)
Lemma parse_force_model_line name rest :
  name <> "" -> all_bytes word_byte name = true ->
  parseForceModelCommand ("/force-model " +:+ name +:+ newline +:+ rest) =
  ({| cmd_Model := name; Clear := false; FromToolResult := false |}, true, TrimSpace rest).
Proof.
  intros N W. set (cmd := "/force-model " +:+ name).
  assert (Ec : TrimSpace cmd = cmd).
  { destruct (last_byte_app_word "/force-model " name N W) as (b & Lb & Wb).
    exact (TrimSpace_word "/"%char ("force-model " +:+ name) b eq_refl Lb Wb). }
  assert (El : split_lines ("/force-model " +:+ name +:+ newline +:+ rest) = cmd :: split_lines rest).
  { rewrite <- (split_lines_app cmd rest); [reflexivity|]. exact (word_no_newline name W). }
  unfold parseForceModelCommand. cbn [parse_fuel].
  set (text := "/force-model " +:+ name +:+ newline +:+ rest) in *.
  replace (leadingInjectedPrefixEnd text) with 0%nat by (symmetry; apply prefix_end_slash).
  change (str_drop 0 text) with text. change (str_take 0 text) with "". rewrite El.
  assert (L : leading_command (cmd :: split_lines rest) =
    Some ({| cmd_Model := name; Clear := false; FromToolResult := false |}, 0%nat)).
  { unfold leading_command. cbn [first_line]. rewrite Ec.
    destruct (String.eqb_spec cmd ""); [discriminate|]. rewrite Ec. unfold line_command. cbn [cutAnyPrefix].
    unfold cmd. rewrite CutPrefix_app, (Fields_word name W N). cbn [Join].
    change (Join [name] " ") with name. rewrite (proj2 (String.eqb_neq _ _) N). reflexivity. }
  rewrite L.
  change (remove_line 0 (cmd :: split_lines rest)) with (split_lines rest).
  rewrite Join_split_lines. reflexivity.
Qed.

Lemma parse_force_model_line_witness :
  parseForceModelCommand ("/force-model zai-org/glm-5.3" +:+ newline +:+ " fix the test ") =
  ({| cmd_Model := "zai-org/glm-5.3"; Clear := false; FromToolResult := false |}, true, "fix the test").
Proof.
  change ("/force-model zai-org/glm-5.3" +:+ newline +:+ " fix the test ") with
    ("/force-model " +:+ "zai-org/glm-5.3" +:+ newline +:+ " fix the test ").
  rewrite (parse_force_model_line "zai-org/glm-5.3" " fix the test "); [|discriminate|reflexivity].
  vm_compute. reflexivity.
Defined.

(** ** Facts: name resolution *)

Section NameFacts.
Context `{GoUnicode}.

Lemma ByIDOrUpstream_row id m : ByIDOrUpstream id = Some m -> exists i, Models !! i = Some m.
Proof. unfold ByIDOrUpstream. destruct (modelIndex id) as [i|]; [|discriminate]. exists i. assumption. Qed.

(** Every row of the catalog resolves, as a force-model name, to itself. *)
Lemma resolve_row i m : Models !! i = Some m ->
  resolveForceModelWithEffort m.(ID) = (m.(ID), PrimaryProvider m, true, "").
Proof. intros E. repeat (destruct i; [injection E as <-; vm_compute; reflexivity|]). discriminate E. Qed.

(** A name found in the catalog resolves to a row and its first provider. *)
Lemma resolve_known name id p e : resolveForceModelWithEffort name = (id, p, true, e) ->
  exists i m, Models !! i = Some m /\ id = m.(ID) /\ p = PrimaryProvider m.
Proof.
  unfold resolveForceModelWithEffort. destruct (stripEffortSuffix name) as [eff st].
  assert (F : forall s id p, catalog_target s = Some (id, p) ->
    exists i m, Models !! i = Some m /\ id = m.(ID) /\ p = PrimaryProvider m).
  { intros s i0 p0. unfold catalog_target. destruct (ByIDOrUpstream s) as [m|] eqn:E; [|discriminate].
    destruct (ByIDOrUpstream_row _ _ E) as [i Ei]. unfold PrimaryProvider.
    destruct m.(Providers) eqn:Ep; [discriminate|]. intros [= <- <-]. exists i, m. rewrite Ep. auto. }
  destruct (catalog_target (ToLower (TrimSpace st))) as [[]|] eqn:E1; [intros [= <- <- _]; eauto|].
  destruct (catalog_target (match CutPrefix (ToLower (TrimSpace st)) "openai/" with Some n => n | None => ToLower (TrimSpace st) end)) as [[]|] eqn:E2; [|discriminate].
  intros [= <- <- _]. eauto.
Qed.

(** A force-model name the router accepts pins a row of the catalog under that row's
    primary provider, and the pinned id resolves to itself again: applying a force twice, or
    re-reading the stored pin, changes nothing. *)
Lemma resolveForceModel_stable name id p e :
  resolveForceModelWithEffort name = (id, p, true, e) ->
  (exists m, ByID id = Some m /\ m.(ID) = id /\ PrimaryProvider m = p) /\
  CanonicalModel id = id /\
  resolveForceModelWithEffort id = (id, p, true, "").
Proof.
  intros E. destruct (resolve_known _ _ _ _ E) as (i & m & Em & -> & ->).
  split; [|split; [exact (CanonicalModel_row _ _ Em)|exact (resolve_row _ _ Em)]].
  exists m. split; [|auto]. unfold ByID. rewrite (byID_row_ID _ _ Em). exact Em.
Qed.
End NameFacts.

Lemma resolveForceModel_stable_witness :
  @resolveForceModelWithEffort ascii_unicode " z-ai/GLM-5.2:xhigh" = ("zai-org/glm-5.3", ProviderAiand, true, "max") /\
  @resolveForceModelWithEffort ascii_unicode "zai-org/glm-5.3" = ("zai-org/glm-5.3", ProviderAiand, true, "").
Proof.
  assert (E : @resolveForceModelWithEffort ascii_unicode " z-ai/GLM-5.2:xhigh" =
    ("zai-org/glm-5.3", ProviderAiand, true, "max")) by (vm_compute; reflexivity).
  split; [exact E|]. exact (proj2 (proj2 (@resolveForceModel_stable ascii_unicode _ _ _ _ E))).
Defined.

(** A wire-compat model name in the body hides the x-aiand-force-model header. *)
Lemma force_header_ignored :
  @rawForceModelFromHeaders ascii_unicode (Some "zai-org/glm-5.3") "claude-sonnet-4-6" = "" /\
  @rawForceModelFromHeaders ascii_unicode (Some "zai-org/glm-5.3") "auto" = "zai-org/glm-5.3".
Proof. vm_compute. split; reflexivity. Qed.
