(* ===== verification/Reasoning.v ===== *)
(** Model capabilities and reasoning levels: the registry of internal/router/model.go and the
    reasoning intents of internal/translate/reasoning.go and envelope.go.  The JSON body is read
    by a third-party package (gjson), a parameter here: the class [Gjson] of Json.v. *)

From stdpp Require Import base gmap sets list strings.
From Stdlib Require Import ZArith Lia Ascii.
From S2P Require Import Prelude Floats Types Catalog ForceNames Json.
Open Scope string_scope.
Open Scope Z_scope.

(** ** Capabilities (router/model.go) *)

Inductive ModelCapability := CapAdaptiveThinking | CapExtendedThinking | CapReasoning | CapExtendedContext.
#[export] Instance ModelCapability_eq_dec : EqDecision ModelCapability.
Proof. solve_decision. Defined.

Record ReasoningCapabilities := {
  Levels : list string;
  SupportsAuto : bool;
  SupportsBudget : bool;
  AlwaysOn : bool
}.
Record ModelSpec := { capabilities : list ModelCapability; Reasoning : ReasoningCapabilities }.
Definition Supports (s : ModelSpec) (cap : ModelCapability) : bool := bool_decide (cap ∈ s.(capabilities)).
Definition zero_spec : ModelSpec :=
  {| capabilities := []; Reasoning := {| Levels := []; SupportsAuto := false; SupportsBudget := false; AlwaysOn := false |} |}.

Definition anthropicAdaptive : ModelSpec :=
  {| capabilities := [CapAdaptiveThinking; CapExtendedContext];
     Reasoning := {| Levels := ["low"; "medium"; "high"; "max"]; SupportsAuto := false; SupportsBudget := false; AlwaysOn := true |} |}.
Definition anthropicExtended : ModelSpec :=
  {| capabilities := [CapExtendedThinking];
     Reasoning := {| Levels := ["low"; "medium"; "high"]; SupportsAuto := false; SupportsBudget := true; AlwaysOn := false |} |}.
Definition openaiReasoning : ModelSpec :=
  {| capabilities := [CapReasoning];
     Reasoning := {| Levels := ["low"; "medium"; "high"]; SupportsAuto := false; SupportsBudget := true; AlwaysOn := false |} |}.
Definition googleBase : ModelSpec :=
  {| capabilities := [];
     Reasoning := {| Levels := ["low"; "medium"; "high"]; SupportsAuto := false; SupportsBudget := true; AlwaysOn := false |} |}.
Definition google3Base : ModelSpec :=
  {| capabilities := [];
     Reasoning := {| Levels := ["low"; "medium"; "high"]; SupportsAuto := false; SupportsBudget := false; AlwaysOn := true |} |}.

Definition registry : gmap string ModelSpec := list_to_map
  [ ("claude-fable-5", anthropicAdaptive);
    ("claude-opus-5", anthropicAdaptive);
    ("claude-opus-4-8", anthropicAdaptive);
    ("claude-opus-4-7", anthropicAdaptive);
    ("claude-sonnet-5", anthropicAdaptive);
    ("claude-sonnet-4-6", anthropicAdaptive);
    ("claude-opus-4-6", anthropicAdaptive);
    ("claude-haiku-4-5", anthropicExtended);
    ("claude-opus-4-5", anthropicExtended);
    ("claude-opus-4-1", anthropicExtended);
    ("claude-opus-4-0", anthropicExtended);
    ("claude-sonnet-4-5", zero_spec);
    ("claude-sonnet-4-0", zero_spec);
    ("gpt-5.6-sol", openaiReasoning);
    ("gpt-5.6-sol-pro", openaiReasoning);
    ("gpt-5.6-terra", openaiReasoning);
    ("gpt-5.6-luna", openaiReasoning);
    ("gpt-5.6-luna-pro", openaiReasoning);
    ("gpt-5.5", openaiReasoning);
    ("gpt-5.5-pro", openaiReasoning);
    ("gpt-5.5-mini", openaiReasoning);
    ("gpt-5.5-nano", openaiReasoning);
    ("grok-4.5", openaiReasoning);
    ("grok-4.6", openaiReasoning);
    ("gpt-5.4", openaiReasoning);
    ("gpt-5.4-pro", openaiReasoning);
    ("gpt-5.4-mini", openaiReasoning);
    ("gpt-5.4-nano", openaiReasoning);
    ("gpt-5.3", openaiReasoning);
    ("gpt-5.2", openaiReasoning);
    ("gpt-5.2-pro", openaiReasoning);
    ("gpt-5.1", openaiReasoning);
    ("gpt-5", openaiReasoning);
    ("gpt-5-chat", openaiReasoning);
    ("gpt-5-pro", openaiReasoning);
    ("gpt-5-mini", openaiReasoning);
    ("gpt-5-nano", openaiReasoning);
    ("o3", openaiReasoning);
    ("o3-pro", openaiReasoning);
    ("o3-mini", openaiReasoning);
    ("o4-mini", openaiReasoning);
    ("o1", openaiReasoning);
    ("o1-pro", openaiReasoning);
    ("o1-mini", openaiReasoning);
    ("gpt-4.1", zero_spec);
    ("gpt-4.1-mini", zero_spec);
    ("gpt-4.1-nano", zero_spec);
    ("gpt-4o", zero_spec);
    ("gpt-4o-mini", zero_spec);
    ("gpt-4-turbo", zero_spec);
    ("gpt-4", zero_spec);
    ("gemini-3-pro-preview", google3Base);
    ("gemini-3.1-pro-preview", google3Base);
    ("gemini-3-flash-preview", google3Base);
    ("gemini-3.1-flash-lite-preview", google3Base);
    ("gemini-3.1-flash-live-preview", google3Base);
    ("gemini-3.5-flash", google3Base);
    ("gemini-3.5-flash-lite", google3Base);
    ("gemini-3.6-flash", google3Base);
    ("gemini-3.7-flash", google3Base);
    ("gemini-2.5-pro", googleBase);
    ("gemini-2.5-flash", googleBase);
    ("gemini-2.5-flash-lite", googleBase);
    ("gemini-2.0-flash", googleBase);
    ("gemini-2.0-flash-lite", googleBase);
    ("qwen/qwen3-235b-a22b-2507", zero_spec);
    ("qwen/qwen3-30b-a3b-instruct-2507", zero_spec);
    ("qwen/qwen3-coder-next", zero_spec);
    ("qwen/qwen3-next-80b-a3b-instruct", zero_spec);
    ("qwen/qwen3.8-max", zero_spec) ].

Definition Lookup (model : string) : ModelSpec :=
  match registry !! model with
  | Some s => s
  | None =>
      let base := StripDateSuffix model in
      if String.eqb base model then zero_spec
      else match registry !! base with
           | Some s => s
           | None => zero_spec
           end
  end.

(** The complaint of [ValidateReasoningCapabilities]: [None] when coherent. *)
Fixpoint level_complaint (seen levels : list string) : option string :=
  match levels with
  | [] => None
  | l :: ls => if String.eqb l "" then Some "reasoning level cannot be empty"
               else if in_strings l seen then Some "duplicate reasoning level"
               else level_complaint (l :: seen) ls
  end.
Definition ValidateReasoningCapabilities (s : ModelSpec) : option string :=
  let r := s.(Reasoning) in
  match r.(Levels) with
  | [] => if (r.(SupportsAuto) || r.(SupportsBudget) || r.(AlwaysOn))%bool
          then Some "reasoning modifiers require at least one supported level" else None
  | levels => level_complaint [] levels
  end.

(** ** Clamping (reasoning.go) *)

Definition level_rank (l : string) : option Z :=
  if String.eqb l "none" then Some 0 else if String.eqb l "low" then Some 1
  else if String.eqb l "medium" then Some 2 else if String.eqb l "high" then Some 3
  else if String.eqb l "max" then Some 4 else None.

(** One turn of the loop over the candidates: the best so far and its distance. *)
Definition nearest_step (wantedRank : Z) (acc : string * Z) (candidate : string) : string * Z :=
  let '(best, bestDistance) := acc in
  match level_rank candidate with
  | None => acc
  | Some rank => let distance := Z.abs (rank - wantedRank) in
                 if distance <? bestDistance then (candidate, distance) else acc
  end.
(** [levels] is not empty where this is called ([None]: Go would panic). *)
Definition nearestReasoningLevel (levels : list string) (wanted : string) : option string :=
  match level_rank wanted with
  | None => List.last (Some <$> levels) None
  | Some wantedRank =>
      match levels with
      | [] => None
      | l :: _ => Some (foldl (nearest_step wantedRank) (l, 2 ^ 30) levels).1
      end
  end.

Inductive ReasoningIntentKind := NoIntent | ReasoningDisabled | ReasoningAuto | ReasoningLevel | ReasoningBudget.
Record ReasoningIntent := {
  Kind : ReasoningIntentKind;
  Level : string;
  BudgetTokens : Z;
  Source : string;
  Explicit : bool;
  NormalizationNotes : list string
}.
Definition zero_intent : ReasoningIntent :=
  {| Kind := NoIntent; Level := ""; BudgetTokens := 0; Source := ""; Explicit := false; NormalizationNotes := [] |}.
Definition explicit_intent (k : ReasoningIntentKind) (level : string) (budget : Z) (source : string) : ReasoningIntent :=
  {| Kind := k; Level := level; BudgetTokens := budget; Source := source; Explicit := true; NormalizationNotes := [] |}.
Definition containsReasoningLevel (levels : list string) (level : string) : bool := in_strings level levels.

Section Intents.
Context `{GoUnicode}.

Definition ApplyReasoningIntent (intent : ReasoningIntent) (spec : ModelSpec) (forcedLevel : string) :
    res string ReasoningIntent :=
  let intent :=
    if String.eqb forcedLevel "" then intent
    else {| Kind := ReasoningLevel; Level := ToLower forcedLevel; BudgetTokens := 0;
            Source := "router.force_reasoning_effort"; Explicit := true;
            NormalizationNotes := (intent.(NormalizationNotes)
              ++ ["router override replaced client/default reasoning intent"])%list |} in
  let with_level level note i :=
    {| Kind := ReasoningLevel; Level := level; BudgetTokens := i.(BudgetTokens);
       Source := i.(Source); Explicit := i.(Explicit);
       NormalizationNotes := (i.(NormalizationNotes) ++ [note])%list |} in
  let caps := spec.(Reasoning) in
  match intent.(Kind) with
  | NoIntent => Ok intent
  | kind =>
      match caps.(Levels) with
      | [] => Err "target model has no reasoning support"
      | lowest :: _ =>
          match kind with
          | ReasoningDisabled =>
              if caps.(AlwaysOn)
              then Ok (with_level lowest "disabled maps to the model's lowest always-on level" intent)
              else Ok intent
          | ReasoningBudget =>
              if caps.(SupportsBudget) then Ok intent
              else Err "target model does not support reasoning budgets"
          | ReasoningLevel =>
              if String.eqb intent.(Level) "" then Err "missing reasoning level"
              else if containsReasoningLevel caps.(Levels) intent.(Level) then Ok intent
              else match nearestReasoningLevel caps.(Levels) intent.(Level) with
                   | Some clamped =>
                       Ok (with_level clamped ("unsupported reasoning level clamped to " +:+ clamped) intent)
                   | None => Err "unreachable"
                   end
          | ReasoningAuto | NoIntent => Ok intent
          end
      end
  end.

Definition ResolveForceEffort (caps : ModelSpec) (level : string) : string :=
  if String.eqb level "" then ""
  else
    let canonical := CanonicalizeEffort level in
    let levels := caps.(Reasoning).(Levels) in
    match levels with
    | [] => canonical
    | _ => if in_strings canonical levels then canonical
           else match nearestReasoningLevel levels canonical with Some l => l | None => "" end
    end.

Definition effortForBudget (budgetTokens : Z) : string :=
  if budgetTokens <=? 0 then "medium"
  else if budgetTokens <=? 4096 then EffortLow
  else if budgetTokens <=? 16384 then "medium" else "high".

Context `{Gjson}.

Definition parseReasoningEffort (value : Result) (source : string) : ReasoningIntent :=
  if (negb (Exists value) || negb (IsStringType value))%bool then zero_intent
  else
    let effort := ToLower (StringOf value) in
    if in_strings effort [""; "none"; "disabled"] then explicit_intent ReasoningDisabled "" 0 source
    else if in_strings effort ["auto"; "adaptive"] then explicit_intent ReasoningAuto "" 0 source
    else explicit_intent ReasoningLevel effort 0 source.

(** The first of two intents that is one. *)
Definition or_intent (a b : ReasoningIntent) : ReasoningIntent :=
  match a.(Kind) with NoIntent => b | _ => a end.
Definition ParseReasoningIntent (body : string) : ReasoningIntent :=
  let output_config := parseReasoningEffort (GetBytes body "output_config.effort") "anthropic.output_config.effort" in
  let thinking := GetBytes body "thinking" in
  let kind := StringOf (GetPath thinking "type") in
  or_intent (parseReasoningEffort (GetBytes body "reasoning_effort") "openai.reasoning_effort")
  (or_intent (parseReasoningEffort (GetBytes body "reasoning.effort") "openai.responses.reasoning.effort")
    (if (Exists thinking && String.eqb kind "disabled")%bool
     then explicit_intent ReasoningDisabled "" 0 "anthropic.thinking"
     else if (Exists thinking && String.eqb kind "adaptive")%bool
     then or_intent output_config (explicit_intent ReasoningAuto "" 0 "anthropic.thinking")
     else if (Exists thinking && String.eqb kind "enabled")%bool
     then explicit_intent ReasoningBudget "" (IntOf (GetPath thinking "budget_tokens")) "anthropic.thinking"
     else output_config)).
End Intents.

(** ** Facts *)

Lemma in_strings_spec s l : in_strings s l = true <-> s ∈ l.
Proof.
  unfold in_strings. rewrite existsb_exists, list_elem_of_In. split.
  - intros (x & Hx & ->%String.eqb_eq). exact Hx.
  - intros Hx. exists s. split; [exact Hx|apply String.eqb_refl].
Qed.

(** Every entry of the registry passes the start-up validation. *)
Lemma registry_valid model s : registry !! model = Some s -> ValidateReasoningCapabilities s = None.
Proof.
  intros E. pose (check := fun (_ : string) s =>
    match ValidateReasoningCapabilities s with None => true | Some _ => false end).
  assert (H : check model s = true).
  { revert E. apply (entries_ok_lookup check). vm_compute. reflexivity. }
  unfold check in H. destruct (ValidateReasoningCapabilities s); congruence.
Qed.

(** The loop of [nearestReasoningLevel]: its result is one of the candidates or the start, and no
    ranked candidate is nearer. *)
Definition near (w : Z) (x : string) : Z :=
  match level_rank x with Some r => Z.abs (r - w) | None => 2 ^ 30 end.
Lemma nearest_fold w levels best d :
  let '(b, bd) := foldl (nearest_step w) (best, d) levels in
  bd <= d /\ (forall x, x ∈ levels -> is_Some (level_rank x) -> bd <= near w x) /\
  ((b = best /\ bd = d) \/ (b ∈ levels /\ is_Some (level_rank b) /\ bd = near w b)).
Proof.
  revert best d; induction levels as [|l ls IH]; intros best d; cbn [foldl].
  { repeat split; [lia|intros x Hx; inversion Hx|auto]. }
  unfold nearest_step at 2. destruct (level_rank l) as [r|] eqn:E.
  - destruct (Z.ltb_spec (Z.abs (r - w)) d).
    + specialize (IH l (Z.abs (r - w))). destruct (foldl _ _ _) as [b bd]. destruct IH as (A & B & D).
      split; [lia|]. assert (N : near w l = Z.abs (r - w)) by (unfold near; rewrite E; reflexivity).
      split; [intros x [->|Hx]%elem_of_cons S; [lia|auto]|]. right.
      destruct D as [[-> ->]|(D1 & D2 & D3)].
      * split; [left|split; [rewrite E; eauto|auto]].
      * split; [right; exact D1|auto].
    + specialize (IH best d). destruct (foldl _ _ _) as [b bd]. destruct IH as (A & B & D).
      split; [exact A|]. split.
      * intros x [->|Hx]%elem_of_cons S; [unfold near; rewrite E; lia|auto].
      * destruct D as [D|(D1 & D2 & D3)]; [auto|right; split; [right; exact D1|auto]].
  - specialize (IH best d). destruct (foldl _ _ _) as [b bd]. destruct IH as (A & B & D).
    split; [exact A|]. split.
    + intros x [->|Hx]%elem_of_cons S; [rewrite E in S; destruct S; discriminate|auto].
    + destruct D as [D|(D1 & D2 & D3)]; [auto|right; split; [right; exact D1|auto]].
Qed.

Lemma nearest_in levels wanted l : nearestReasoningLevel levels wanted = Some l -> l ∈ levels.
Proof.
  unfold nearestReasoningLevel. destruct (level_rank wanted) as [w|].
  - destruct levels as [|l0 ls] eqn:El; [discriminate|]. rewrite <- El.
    intros [= <-]. pose proof (nearest_fold w levels l0 (2 ^ 30)) as F.
    destruct (foldl _ _ _) as [b bd]. destruct F as (_ & _ & [[-> _]|[H _]]); [|exact H].
    rewrite El. left.
  - revert l. induction levels as [|x ls IH]; intros l; [discriminate|]. cbn.
    destruct ls as [|y ls]; [intros [= ->]; left|]. intros E. right. apply IH. exact E.
Qed.
Lemma level_rank_bounds x r : level_rank x = Some r -> 0 <= r <= 4.
Proof. unfold level_rank. repeat (destruct (String.eqb _ _); [intros [= <-]; lia|]). discriminate. Qed.

(** An unsupported level with a place in the order is clamped to a declared level at
    the least distance from it. *)
Lemma nearest_optimal levels wanted w :
  level_rank wanted = Some w -> (exists x, x ∈ levels /\ is_Some (level_rank x)) ->
  exists l r, nearestReasoningLevel levels wanted = Some l /\ l ∈ levels /\ level_rank l = Some r /\
    forall x rx, x ∈ levels -> level_rank x = Some rx -> Z.abs (r - w) <= Z.abs (rx - w).
Proof.
  intros Ew (x0 & Hx0 & r0 & E0). unfold nearestReasoningLevel. rewrite Ew.
  destruct levels as [|l0 ls] eqn:El; [inversion Hx0|]. rewrite <- El in *.
  pose proof (nearest_fold w levels l0 (2 ^ 30)) as F. destruct (foldl _ _ _) as [b bd].
  destruct F as (_ & Fb & F). pose proof (level_rank_bounds _ _ Ew). pose proof (level_rank_bounds _ _ E0).
  assert (near w x0 = Z.abs (r0 - w)) by (unfold near; rewrite E0; reflexivity).
  pose proof (Fb x0 Hx0 (ex_intro _ _ E0)). destruct F as [[_ ->]|(Hb & [r Er] & ->)]; [lia|].
  exists b, r. repeat split; auto. intros x rx Hx Ex. pose proof (Fb x Hx (ex_intro _ _ Ex)) as L.
  unfold near in L. rewrite Er, Ex in L. exact L.
Qed.

(** An intent accepted for a model never asks it for a level it does not declare, and
    reasoning is never requested of a model without reasoning support. *)
Lemma ApplyReasoningIntent_sound `{GoUnicode} intent spec forced out :
  ApplyReasoningIntent intent spec forced = Ok out ->
  (out.(Kind) = ReasoningLevel -> out.(Level) ∈ spec.(Reasoning).(Levels)) /\
  (out.(Kind) <> NoIntent -> spec.(Reasoning).(Levels) <> []) /\
  (out.(Kind) = ReasoningBudget -> spec.(Reasoning).(SupportsBudget) = true) /\
  (out.(Kind) = ReasoningDisabled -> spec.(Reasoning).(AlwaysOn) = false).
Proof.
  unfold ApplyReasoningIntent. generalize (if String.eqb forced "" then intent else
    {| Kind := ReasoningLevel; Level := ToLower forced; BudgetTokens := 0;
       Source := "router.force_reasoning_effort"; Explicit := true;
       NormalizationNotes := (intent.(NormalizationNotes)
         ++ ["router override replaced client/default reasoning intent"])%list |}). intros i.
  destruct (i.(Kind)) eqn:Ek; [intros [= <-]; rewrite Ek; repeat split; congruence|..];
    (destruct (spec.(Reasoning).(Levels)) as [|lo ls] eqn:El; [discriminate|]).
  - destruct (spec.(Reasoning).(AlwaysOn)) eqn:Ea; intros [= <-]; cbn; rewrite ?Ek;
      repeat split; try congruence. intros _. left.
  - intros [= <-]. rewrite Ek. repeat split; congruence.
  - destruct (String.eqb i.(Level) ""); [discriminate|].
    destruct (containsReasoningLevel (lo :: ls) i.(Level)) eqn:Ec.
    + intros [= <-]. rewrite Ek. repeat split; try congruence. intros _. apply in_strings_spec. exact Ec.
    + destruct (nearestReasoningLevel (lo :: ls) i.(Level)) as [c|] eqn:En; [|discriminate].
      intros [= <-]. cbn. repeat split; try congruence. intros _. exact (nearest_in _ _ _ En).
  - destruct (spec.(Reasoning).(SupportsBudget)) eqn:Es; [|discriminate]. intros [= <-]. rewrite Ek.
    repeat split; congruence.
Qed.

(** The OpenAI level [minimal] has no place in the order: a request for the least reasoning is
    clamped to the most. *)
Lemma minimal_clamped_to_highest :
  match @ApplyReasoningIntent ascii_unicode (explicit_intent ReasoningLevel "minimal" 0 "openai.reasoning_effort")
          openaiReasoning "" with
  | Ok i => i.(Level) = "high"
  | Err _ => False
  end.
Proof. vm_compute. reflexivity. Qed.

(** ** Witnesses *)

Lemma nearest_optimal_witness :
  exists l r, nearestReasoningLevel ["low"; "high"] "max" = Some l /\ l ∈ ["low"; "high"] /\
    level_rank l = Some r /\ forall x rx, x ∈ ["low"; "high"] -> level_rank x = Some rx -> Z.abs (r - 4) <= Z.abs (rx - 4).
Proof.
  apply nearest_optimal; [reflexivity|]. exists "low". split; [left|eexists; reflexivity].
Defined.
Lemma ApplyReasoningIntent_sound_witness : exists out,
  @ApplyReasoningIntent ascii_unicode (explicit_intent ReasoningLevel "max" 0 "client") openaiReasoning "" = Ok out /\
  out.(Level) ∈ ["low"; "medium"; "high"].
Proof.
  destruct (@ApplyReasoningIntent ascii_unicode (explicit_intent ReasoningLevel "max" 0 "client") openaiReasoning "")
    as [out|] eqn:E; [|exfalso; revert E; vm_compute; discriminate].
  exists out. split; [reflexivity|].
  apply (proj1 (@ApplyReasoningIntent_sound ascii_unicode _ openaiReasoning _ _ E)).
  vm_compute in E. injection E as <-. reflexivity.
Defined.
