(* ===== verification/Exclusions.v ===== *)
(** Which models a request may be served by: the exclusion and allowlist policy of
    internal/proxy/service.go, allowed_models_header.go and force_model_exclusions.go, the
    context-window gate and the tier restriction.

    [Ctx] holds the values the middleware stashes on the request context that this code reads.
    A nil slice and an empty one behave alike here; a nil map and an empty one do not, so maps
    are options. *)

From stdpp Require Import base gmap sets list strings sorting.
From Stdlib Require Import ZArith Lia Ascii.
From S2P Require Import Prelude Floats Types Catalog ForceNames Reasoning.
Open Scope string_scope.
Open Scope Z_scope.

Record Ctx := {
  ctx_strategy : option string;
  InstallationExcluded : list string;
  InstallationAllowed : list string;
  (** [RequestAllowedModels]: (Requested, Effective) *)
  RequestAllowed : option (list string * list string)
}.
Record Config := {
  availableModels : option (gset string);
  excludedModelsOverride : option (gset string);
  deploymentKeyedProviders : option (gset string)
}.

(** [sort.Strings]: byte order. *)
Definition str_le (a b : string) : Prop := String.leb a b = true.
#[export] Instance str_le_dec : RelDecision str_le.
Proof. intros a b. unfold str_le. apply _. Defined.
Definition sort_strings (l : list string) : list string := merge_sort str_le l.

(** ** Allowlists *)

Definition installationAllowedModelSet (ctx : Ctx) : option (gset string) :=
  match ctx.(InstallationAllowed) with
  | [] => None
  | allowed => Some (list_to_set allowed)
  end.
Definition requestAllowedModelSet (ctx : Ctx) : option (gset string) :=
  match ctx.(RequestAllowed) with
  | Some (_, effective) => match effective with
                           | [] => None
                           | _ => Some (list_to_set effective)
                           end
  | None => None
  end.
Definition allowedModelsForRequest (ctx : Ctx) : option (gset string) :=
  match requestAllowedModelSet ctx, installationAllowedModelSet ctx with
  | None, policy => policy
  | subset, None => subset
  | Some subset, Some policy => Some (filter (fun m => m ∈ policy) subset)
  end.
Definition modelPermittedByAllowlist (ctx : Ctx) (model : string) : bool :=
  match installationAllowedModelSet ctx with
  | None => true
  | Some allowed => in_set model allowed
  end.
Definition modelInRequestSubset (ctx : Ctx) (model : string) : bool :=
  match requestAllowedModelSet ctx with
  | None => true
  | Some subset => in_set model subset
  end.
Definition requestAllowedModelsPresent (ctx : Ctx) : bool := bool_decide (is_Some (requestAllowedModelSet ctx)).
Definition requestedAllowedModelsForTelemetry (ctx : Ctx) : list string :=
  match ctx.(RequestAllowed) with
  | Some (requested, _ :: _) => sort_strings requested
  | _ => []
  end.
Definition ReasonUserForceModel : string := "user_forced".
Definition ReasonLoopEscalation : string := "loop_escalation".
Definition ReasonStruggleEscalation : string := "struggle_escalation".
Definition isUserForcedReason (reason : string) : bool := HasPrefix reason ReasonUserForceModel.
Definition telemetryDecisionReason (ctx : Ctx) (reason : string) : string :=
  if (negb (requestAllowedModelsPresent ctx) || isUserForcedReason reason)%bool then reason
  else "allowlist_override:" +:+ reason.

(** [strings.Split(s, c)] for a one-byte separator. *)
Fixpoint split_byte (c : ascii) (s : string) : list string :=
  match s with
  | EmptyString => [""]
  | String a s' =>
      match split_byte c s' with
      | l :: ls => if Ascii.eqb a c then "" :: l :: ls else String a l :: ls
      | [] => [String a ""]
      end
  end.

(** [AllowedModelsHeaderError]'s reasons. *)
Inductive AllowedModelsHeaderError :=
| UnknownModel (part : string)
| NoModelsListed
| NoneAllowed (requested : list string).

Section Policy.
Context `{GoUnicode}.

(** The canonical models a header names, without repeats; the unknown name otherwise. *)
Fixpoint requested_models (parts : list string) (requested : list string) :
    res AllowedModelsHeaderError (list string) :=
  match parts with
  | [] => Ok requested
  | part :: rest =>
      let part := TrimSpace part in
      if String.eqb part "" then requested_models rest requested
      else let '(canonical, _, known) := resolveForceModel part in
           if (known : bool) then
             requested_models rest (if bool_decide (canonical ∈ requested) then requested
                                    else (requested ++ [canonical])%list)
           else Err (UnknownModel part)
  end.
Definition ParseAllowedModelsHeader (raw : string) (installationAllowed : list string) :
    res AllowedModelsHeaderError (list string * list string) :=
  let! requested := requested_models (split_byte ","%char raw) [] in
  match requested with
  | [] => Err NoModelsListed
  | _ =>
      match installationAllowed with
      | [] => Ok (requested, requested)
      | _ =>
          let effective := filter (fun m => m ∈ installationAllowed) requested in
          match effective with
          | [] => Err (NoneAllowed requested)
          | _ => Ok (requested, effective)
          end
      end
  end.

(** ** Exclusions *)

Definition routableUniverse (cfg : Config) : gset string :=
  match cfg.(availableModels) with
  | Some models => models
  | None => list_to_set (ID <$> Models)
  end.
Definition excludedModelsFor (cfg : Config) (ctx : Ctx) (allowed : option (gset string)) :
    option (gset string) :=
  match cfg.(excludedModelsOverride) with
  | Some override => Some override
  | None =>
      let out := list_to_set ctx.(InstallationExcluded) ∪
                 match allowed with
                 | Some allowed => filter (fun m => m ∉ allowed) (routableUniverse cfg)
                 | None => ∅
                 end in
      if bool_decide (out = ∅) then None else Some out
  end.
Definition excludedModelsForRequest (cfg : Config) (ctx : Ctx) : option (gset string) :=
  excludedModelsFor cfg ctx (allowedModelsForRequest ctx).
Definition policyExcludedModels (cfg : Config) (ctx : Ctx) : option (gset string) :=
  excludedModelsFor cfg ctx (installationAllowedModelSet ctx).

(** [forcedModelBinding]: the provider to pin, or the reason it may not be. *)
Definition forcedModelBinding (cfg : Config) (ctx : Ctx) (model provider : string) :
    res string string :=
  if negb (modelPermittedByAllowlist ctx model)
  then Err (model +:+ " is not on this organization's allowed-model list")
  else if in_opt_set model (policyExcludedModels cfg ctx)
  then Err (model +:+ " is excluded on this installation")
  else Ok provider.
Definition servableBindings (cfg : Config) (model provider : string) : list string :=
  match ByID model with
  | None => [provider]
  | Some m =>
      let keyed b := match cfg.(deploymentKeyedProviders) with
                     | None => true
                     | Some keys => in_set b.(Provider) keys
                     end in
      match Provider <$> List.filter keyed m.(Providers) with
      | [] => [provider]
      | out => out
      end
  end.

(** ** Context windows *)

Definition contextWindowOutputReserve : Z := 8000.
Definition extendedContextTriggerTokens : Z := 140000.
Definition shouldEnableExtendedContext (est outputReserve : Z) : bool :=
  extendedContextTriggerTokens <? est + outputReserve.
(** [contextWindowForRequest]: the variadic provider is [""] when absent. *)
Definition contextWindowForRequest (modelID provider : string) : Z :=
  if Supports (Lookup modelID) CapExtendedContext then 1000000
  else if String.eqb provider "" then ContextWindowFor modelID
  else ContextWindowForBinding modelID provider.
Definition minContextWindowForModel (model : string) (enabledProviders : option (gset string)) : Z :=
  let cw := contextWindowForRequest model "" in
  match enabledProviders with
  | None => cw
  | Some enabled =>
      if bool_decide (enabled = ∅) then cw
      else match ByID model with
           | None => cw
           | Some m => foldl (fun cw b =>
                         if in_set b.(Provider) enabled
                         then Z.min (contextWindowForRequest model b.(Provider)) cw else cw)
                         cw m.(Providers)
           end
  end.

Inductive TranslationFamily := FamilyUnknown | FamilyAnthropic | FamilyOpenAICompat.
Definition FamilyFor (provider : string) : TranslationFamily :=
  if String.eqb provider ProviderAiand then FamilyOpenAICompat else FamilyUnknown.
Definition modelStripsAnthropicSignatures (model : string) : bool :=
  match ByID model with
  | None => false
  | Some m => match FamilyFor (PrimaryProvider m) with FamilyAnthropic => false | _ => true end
  end.

Definition overflows (est sigSavings outputReserve : Z) (enabledProviders : option (gset string))
    (model : string) : bool :=
  let needed := est + outputReserve in
  let needed := if ((0 <? sigSavings) && modelStripsAnthropicSignatures model)%bool
                then needed - sigSavings else needed in
  minContextWindowForModel model enabledProviders <? needed.
Definition excludeContextOverflowModels (est sigSavings outputReserve : Z)
    (enabledProviders excluded : option (gset string)) (available : gset string) :
    option (gset string) * list string :=
  if est <=? 0 then (excluded, [])
  else
    let newly := filter (fun m => in_opt_set m excluded = false /\
                           overflows est sigSavings outputReserve enabledProviders m = true) available in
    if bool_decide (newly = ∅) then (excluded, [])
    else (Some (newly ∪ default ∅ excluded), sort_strings (elements newly)).

(** [restrictToTier] *)
Definition restrictToTier (cfg : Config) (excluded : option (gset string)) (tier : Tier) :
    option (gset string) * bool :=
  if bool_decide (tier = TierUnknown) then (excluded, false)
  else
    let universe := routableUniverse cfg in
    let eligible := filter (fun m => TierFor m = tier /\ in_opt_set m excluded = false) universe in
    if bool_decide (eligible = ∅) then (excluded, false)
    else (Some (default ∅ excluded ∪ filter (fun m => TierFor m <> tier) universe), true).

(** [readmitForcedModel]: [estimate], [savings] and [maxTokens] are the envelope's overflow
    estimate, its signature savings and the request's output limit. *)
Definition readmitForcedModel (cfg : Config) (ctx : Ctx) (excluded : option (gset string))
    (estimate savings maxTokens : Z) (pin : Pin.t) : option (gset string) :=
  let model := pin.(Pin.Model) in
  match requestAllowedModelSet ctx with
  | None => excluded
  | Some subset =>
      if in_set model subset then excluded
      else if negb (in_opt_set model excluded) then excluded
      else if in_opt_set model (policyExcludedModels cfg ctx) then excluded
      else
        let outputReserve := Z.max contextWindowOutputReserve maxTokens in
        let estimate := if modelStripsAnthropicSignatures model then estimate - savings else estimate in
        if contextWindowForRequest model pin.(Pin.Provider) <? estimate + outputReserve then excluded
        else Some (default ∅ excluded ∖ {[ model ]})
  end.
End Policy.

(** ** Facts *)

Section Facts.
Context `{GoUnicode}.

Lemma in_set_spec k (m : gset string) : in_set k m = true <-> k ∈ m.
Proof. unfold in_set. apply bool_decide_eq_true. Qed.
Lemma in_opt_set_spec k m : in_opt_set k m = true <-> k ∈ default ∅ m.
Proof. destruct m as [s|]; cbn; [apply in_set_spec|]. split; [discriminate|set_solver]. Qed.
Lemma in_opt_set_false k m : in_opt_set k m = false <-> k ∉ default ∅ m.
Proof. rewrite <- not_true_iff_false, in_opt_set_spec. reflexivity. Qed.

(** What the exclusion set holds, when no deployment override is set. *)
Lemma excludedModelsFor_spec cfg ctx allowed m :
  cfg.(excludedModelsOverride) = None ->
  in_opt_set m (excludedModelsFor cfg ctx allowed) = true <->
  m ∈ ctx.(InstallationExcluded) \/
  (m ∈ routableUniverse cfg /\ exists a, allowed = Some a /\ m ∉ a).
Proof.
  intros E. unfold excludedModelsFor. rewrite E. rewrite in_opt_set_spec.
  case_bool_decide as D; cbn.
  - split; [set_solver|]. intros Hm. exfalso. revert Hm D. destruct allowed; set_solver.
  - rewrite elem_of_union, elem_of_list_to_set. destruct allowed as [a|]; [|set_solver].
    rewrite elem_of_filter. split; [|set_solver]. intros [|[]]; [auto|right; eauto].
Qed.

(** A request-level allowlist only narrows: a model installation policy excludes is
    excluded for every request, whatever subset the caller names. *)
Lemma request_never_widens cfg ctx m :
  in_opt_set m (policyExcludedModels cfg ctx) = true ->
  in_opt_set m (excludedModelsForRequest cfg ctx) = true.
Proof.
  unfold policyExcludedModels, excludedModelsForRequest.
  destruct (cfg.(excludedModelsOverride)) as [o|] eqn:E.
  { unfold excludedModelsFor. rewrite E. auto. }
  rewrite !excludedModelsFor_spec by exact E. intros [?|(U & a & Ea & N)]; [auto|]. right. split; [exact U|].
  unfold allowedModelsForRequest. rewrite Ea. destruct (requestAllowedModelSet ctx); [|eauto].
  eexists. split; [reflexivity|]. set_solver.
Qed.

(** A forced model that gets a binding is neither excluded by installation policy
    nor, when there is an allowlist, absent from it. *)
Lemma forcedModelBinding_policy cfg ctx model provider binding :
  forcedModelBinding cfg ctx model provider = Ok binding ->
  binding = provider /\ in_opt_set model (policyExcludedModels cfg ctx) = false /\
  (ctx.(InstallationAllowed) <> [] -> model ∈ ctx.(InstallationAllowed)) /\
  (cfg.(excludedModelsOverride) = None -> model ∉ ctx.(InstallationExcluded)).
Proof.
  unfold forcedModelBinding. destruct (modelPermittedByAllowlist ctx model) eqn:Ep; [|discriminate].
  cbn. destruct (in_opt_set model (policyExcludedModels cfg ctx)) eqn:Ex; [discriminate|]. intros [= <-].
  split; [reflexivity|]. split; [reflexivity|]. split.
  - intros N. unfold modelPermittedByAllowlist, installationAllowedModelSet in Ep.
    destruct (ctx.(InstallationAllowed)) as [|a l]; [congruence|]. apply in_set_spec in Ep.
    apply elem_of_list_to_set in Ep. exact Ep.
  - intros Eo Hm. apply not_true_iff_false in Ex. apply Ex. apply excludedModelsFor_spec; auto.
Qed.

Lemma requested_models_spec parts req out :
  requested_models parts req = Ok out -> NoDup req -> (forall x, x ∈ req -> exists i m, Models !! i = Some m /\ x = m.(ID)) ->
  NoDup out /\ forall x, x ∈ out -> exists i m, Models !! i = Some m /\ x = m.(ID).
Proof.
  revert req; induction parts as [|part ps IH]; intros req; cbn [requested_models].
  { intros [= <-]. auto. }
  destruct (String.eqb (TrimSpace part) ""); [apply IH|]. unfold resolveForceModel.
  destruct (resolveForceModelWithEffort (TrimSpace part)) as [[[c p] [|]] e] eqn:Er; [|discriminate].
  destruct (resolve_known _ _ _ _ Er) as (i & m & Em & -> & _).
  intros E N F. apply (IH _ E).
  - case_bool_decide; [exact N|]. apply NoDup_app. split; [exact N|]. split; [set_solver|apply NoDup_singleton].
  - intros x Hx. case_bool_decide; [auto|]. apply elem_of_app in Hx as [Hx|Hx]; [auto|].
    apply list_elem_of_singleton in Hx as ->. eauto.
Qed.

(** An accepted allowlist header names known models only, without repeats, and its
    effective subset is non-empty and within the installation's own allowlist. *)
Lemma ParseAllowedModelsHeader_sound raw allowed requested effective :
  ParseAllowedModelsHeader raw allowed = Ok (requested, effective) ->
  NoDup requested /\ (forall x, x ∈ requested -> exists m, ByID x = Some m /\ m.(ID) = x) /\
  effective <> [] /\ effective ⊆ requested /\ NoDup effective /\
  (allowed <> [] -> effective ⊆ allowed).
Proof.
  unfold ParseAllowedModelsHeader. destruct (requested_models _ _) as [req|] eqn:Er; [|discriminate].
  destruct (requested_models_spec _ _ _ Er (NoDup_nil_2) ltac:(set_solver)) as [Nr Fr].
  cbn. destruct req as [|r0 rs] eqn:Eq; [discriminate|]. rewrite <- Eq in *.
  assert (Fb : forall x, x ∈ req -> exists m, ByID x = Some m /\ m.(ID) = x).
  { intros x Hx. destruct (Fr x Hx) as (i & m & Em & ->). exists m. split; [|reflexivity].
    unfold ByID. rewrite (byID_row_ID _ _ Em). exact Em. }
  destruct allowed as [|a l] eqn:Ea.
  - intros [= <- <-]. repeat split; auto; [congruence|congruence].
  - rewrite <- Ea in *. destruct (filter _ req) as [|e es] eqn:Ef; [discriminate|]. rewrite <- Ef.
    intros [= <- <-]. repeat split; auto.
    + congruence.
    + intros x Hx. apply list_elem_of_filter in Hx. tauto.
    + apply NoDup_filter. exact Nr.
    + intros _ x Hx. apply list_elem_of_filter in Hx. tauto.
Qed.

(** The context-window gate removes exactly the available models whose window is too
    small, keeps every earlier exclusion, and reports the models it removed. *)
Lemma excludeContextOverflowModels_spec est savings reserve enabled excluded available m :
  0 < est ->
  let '(out, overflowed) := excludeContextOverflowModels est savings reserve enabled excluded available in
  (m ∈ overflowed <-> m ∈ available /\ in_opt_set m excluded = false /\
                      overflows est savings reserve enabled m = true) /\
  (in_opt_set m out = true <-> in_opt_set m excluded = true \/ m ∈ overflowed).
Proof.
  intros E. unfold excludeContextOverflowModels. destruct (Z.leb_spec est 0); [lia|].
  case_bool_decide as D.
  - split; [|rewrite elem_of_nil; tauto]. rewrite elem_of_nil. split; [tauto|].
    intros (A & B & C). assert (m ∈ (∅ : gset string)) by (rewrite <- D; apply elem_of_filter; auto). set_solver.
  - assert (S : m ∈ sort_strings (elements (filter (fun m => in_opt_set m excluded = false /\
        overflows est savings reserve enabled m = true) available)) <->
      m ∈ available /\ in_opt_set m excluded = false /\ overflows est savings reserve enabled m = true).
    { unfold sort_strings. rewrite merge_sort_Permutation, elem_of_elements, elem_of_filter. tauto. }
    split; [exact S|]. rewrite S. cbn. rewrite in_set_spec, in_opt_set_spec, elem_of_union, elem_of_filter. tauto.
Qed.

(** Restricting to a tier leaves every earlier exclusion in place, excludes every routable
    model of another tier and keeps at least one model of the tier; when it would keep none the
    exclusions are returned as they were. *)
Lemma restrictToTier_spec cfg excluded tier out :
  restrictToTier cfg excluded tier = (out, true) ->
  (forall m, in_opt_set m excluded = true -> in_opt_set m out = true) /\
  (forall m, m ∈ routableUniverse cfg -> in_opt_set m out = false -> TierFor m = tier) /\
  exists m, m ∈ routableUniverse cfg /\ TierFor m = tier /\ in_opt_set m out = false.
Proof.
  unfold restrictToTier. case_bool_decide as T; [congruence|]. case_bool_decide as NU; [congruence|].
  intros E. apply (f_equal fst) in E. cbn [fst] in E. subst out. split; [|split].
  - intros m Hm. cbn. apply in_set_spec. apply in_opt_set_spec in Hm. apply elem_of_union. left. exact Hm.
  - intros m Hm N. cbn in N. apply not_true_iff_false in N. rewrite in_set_spec in N.
    destruct (decide (TierFor m = tier)) as [|D]; [assumption|]. exfalso. apply N.
    apply elem_of_union. right. apply elem_of_filter. auto.
  - apply set_choose_L in NU as [m Hm]. apply elem_of_filter in Hm as [[Tm X] M].
    exists m. split; [exact M|]. split; [exact Tm|]. apply not_true_iff_false. cbn. rewrite in_set_spec.
    apply in_opt_set_false in X. rewrite elem_of_union, elem_of_filter. tauto.
Qed.

(** Readmitting a forced model changes nothing but that model's exclusion, and never
    lifts an exclusion of installation policy. *)
Lemma readmitForcedModel_spec cfg ctx excluded est savings maxTokens pin m :
  let out := readmitForcedModel cfg ctx excluded est savings maxTokens pin in
  (m <> pin.(Pin.Model) -> in_opt_set m out = in_opt_set m excluded) /\
  (in_opt_set pin.(Pin.Model) (policyExcludedModels cfg ctx) = true -> out = excluded).
Proof.
  unfold readmitForcedModel. destruct (requestAllowedModelSet ctx) as [subset|]; [|auto].
  destruct (in_set _ subset); [auto|]. destruct (negb _); [auto|].
  destruct (in_opt_set _ (policyExcludedModels cfg ctx)); [auto|]. destruct (_ <? _); [auto|].
  split; [|discriminate]. intros N. apply eq_true_iff_eq. cbn. rewrite in_set_spec, in_opt_set_spec.
  rewrite elem_of_difference, elem_of_singleton. tauto.
Qed.
End Facts.

(** ** Witnesses *)

Definition ex_ctx : Ctx :=
  {| ctx_strategy := None; InstallationExcluded := ["moonshotai/kimi-k3"];
     InstallationAllowed := ["zai-org/glm-5.3"; "qwen/qwen3.8-27b"];
     RequestAllowed := Some (["qwen/qwen3.8-27b"], ["qwen/qwen3.8-27b"]) |}.
Definition ex_cfg : Config :=
  {| availableModels := None; excludedModelsOverride := None; deploymentKeyedProviders := None |}.

Lemma request_never_widens_witness :
  in_opt_set "moonshotai/kimi-k3" (excludedModelsForRequest ex_cfg ex_ctx) = true.
Proof. apply request_never_widens. vm_compute. reflexivity. Defined.

Lemma forcedModelBinding_policy_witness :
  forcedModelBinding ex_cfg ex_ctx "zai-org/glm-5.3" ProviderAiand = Ok ProviderAiand /\
  "zai-org/glm-5.3" ∉ ex_ctx.(InstallationExcluded).
Proof.
  assert (E : forcedModelBinding ex_cfg ex_ctx "zai-org/glm-5.3" ProviderAiand = Ok ProviderAiand)
    by (vm_compute; reflexivity).
  split; [exact E|]. exact (proj2 (proj2 (proj2 (forcedModelBinding_policy _ _ _ _ _ E))) eq_refl).
Defined.

Lemma ParseAllowedModelsHeader_sound_witness :
  @ParseAllowedModelsHeader ascii_unicode "z-ai/glm-5.2, kimi" [] = Err (UnknownModel "kimi") /\
  exists r e, @ParseAllowedModelsHeader ascii_unicode "z-ai/glm-5.2, qwen/qwen3.8-27b" ["qwen/qwen3.8-27b"] = Ok (r, e) /\ e <> [].
Proof.
  split; [vm_compute; reflexivity|].
  destruct (@ParseAllowedModelsHeader ascii_unicode "z-ai/glm-5.2, qwen/qwen3.8-27b" ["qwen/qwen3.8-27b"])
    as [[r e]|] eqn:E; [|exfalso; revert E; vm_compute; discriminate].
  exists r, e. split; [reflexivity|].
  exact (proj1 (proj2 (proj2 (@ParseAllowedModelsHeader_sound ascii_unicode _ _ _ _ E)))).
Defined.

Lemma excludeContextOverflowModels_spec_witness :
  let '(out, overflowed) := @excludeContextOverflowModels ascii_unicode 300000 0 8000 None None (list_to_set (ID <$> Models)) in
  in_opt_set "qwen/qwen3.8-27b" out = true <-> in_opt_set "qwen/qwen3.8-27b" None = true \/ "qwen/qwen3.8-27b" ∈ overflowed.
Proof.
  pose proof (@excludeContextOverflowModels_spec ascii_unicode 300000 0 8000 None None
    (list_to_set (ID <$> Models)) "qwen/qwen3.8-27b" ltac:(lia)) as S.
  destruct (excludeContextOverflowModels _ _ _ _ _ _). exact (proj2 S).
Defined.

Lemma restrictToTier_spec_witness : exists out,
  @restrictToTier ascii_unicode ex_cfg None TierHigh = (out, true) /\
  exists m, m ∈ routableUniverse ex_cfg /\ @TierFor ascii_unicode m = TierHigh /\ in_opt_set m out = false.
Proof.
  destruct (@restrictToTier ascii_unicode ex_cfg None TierHigh) as [out b] eqn:E.
  assert (B : b = true) by (apply (f_equal snd) in E; cbn [snd] in E; rewrite <- E; vm_compute; reflexivity).
  subst b. exists out. split; [reflexivity|].
  exact (proj2 (proj2 (@restrictToTier_spec ascii_unicode ex_cfg None TierHigh out E))).
Defined.
