(* ===== verification/GlobalExclusions.v ===== *)
(** The deployment-wide list of models withdrawn from automatic routing
    (internal/proxy/global_automatic_exclusions.go): a snapshot in each process, refreshed by one request at a
    time.  The mutex makes [snapshot_begin] and [snapshot_end] atomic; the read of the store happens between
    them, so requests interleave as the steps of [cache_step]. *)

From stdpp Require Import base gmap sets list strings.
From Stdlib Require Import ZArith Lia.
From S2P Require Import Prelude Types.
Open Scope string_scope.
Open Scope Z_scope.

Definition globalAutomaticExclusionTTL : Z := Minute.
(** A list: the withdrawn models, each with the operator's note. *)
Abbreviation Exclusions := (gmap string string).

Record globalAutomaticExclusionCache := { byModel : Exclusions; refreshedAt : Z; loaded : bool; refreshing : bool }.
Definition newGlobalAutomaticExclusionCache : globalAutomaticExclusionCache :=
  {| byModel := ∅; refreshedAt := 0; loaded := false; refreshing := false |}.

(** What the first half answers: the list to serve, or the stale one to fall back on after a read of the store. *)
Inductive Snapshot := Serve (m : Exclusions) | Fetch (stale : Exclusions).
Definition snapshot_begin (now : Z) (c : globalAutomaticExclusionCache) : globalAutomaticExclusionCache * Snapshot :=
  if (c.(loaded) && (Sub now c.(refreshedAt) <? globalAutomaticExclusionTTL))%bool then (c, Serve c.(byModel))
  else if c.(refreshing) then (c, Serve c.(byModel))
  else ({| byModel := c.(byModel); refreshedAt := c.(refreshedAt); loaded := c.(loaded); refreshing := true |}, Fetch c.(byModel)).
Definition snapshot_end (read : res string Exclusions) (now : Z) (stale : Exclusions) (c : globalAutomaticExclusionCache)
  : globalAutomaticExclusionCache * Exclusions :=
  match read with
  | Err _ => ({| byModel := c.(byModel); refreshedAt := c.(refreshedAt); loaded := c.(loaded); refreshing := false |}, stale)
  | Ok m => ({| byModel := m; refreshedAt := now; loaded := true; refreshing := false |}, m)
  end.

(** The soft exclusion set of a request; [None] for a service without the list. *)
Definition globalAutomaticExcludedModels (snapshot : option Exclusions) : option (gset string) :=
  match snapshot with
  | None => None
  | Some m => if bool_decide (m = ∅) then None else Some (dom m)
  end.
Definition globalAutomaticExclusionReason (snapshot : option Exclusions) (model : string) : string * bool :=
  match snapshot with
  | None => ("", false)
  | Some m => match m !! model with Some reason => (reason, true) | None => ("", false) end
  end.
Definition mergeExcludedModels (hard automatic : option (gset string)) : option (gset string) :=
  match automatic with
  | Some a => if bool_decide (a = ∅) then hard else Some (default ∅ hard ∪ a)
  | None => hard
  end.

(** ** Interleaved requests *)

(** A process: its cache, the requests reading the store (each with its stale list), the lists the store has
    answered and when, and the clock. *)
Record Process := { cache : globalAutomaticExclusionCache; reading : list Exclusions; answers : list (Exclusions * Z); clock : Z }.
Inductive cache_step : Process -> option Exclusions -> Process -> Prop :=
| step_clock p t : p.(clock) <= t ->
    cache_step p None {| cache := p.(cache); reading := p.(reading); answers := p.(answers); clock := t |}
| step_serve p c m : snapshot_begin p.(clock) p.(cache) = (c, Serve m) ->
    cache_step p (Some m) {| cache := c; reading := p.(reading); answers := p.(answers); clock := p.(clock) |}
| step_fetch p c stale : snapshot_begin p.(clock) p.(cache) = (c, Fetch stale) ->
    cache_step p None {| cache := c; reading := stale :: p.(reading); answers := p.(answers); clock := p.(clock) |}
| step_read p l r stale m c m' : p.(reading) = (l ++ stale :: r)%list ->
    snapshot_end (Ok m) p.(clock) stale p.(cache) = (c, m') ->
    cache_step p (Some m') {| cache := c; reading := (l ++ r)%list; answers := (m, p.(clock)) :: p.(answers); clock := p.(clock) |}
| step_fail p l r stale e c m' : p.(reading) = (l ++ stale :: r)%list ->
    snapshot_end (Err e) p.(clock) stale p.(cache) = (c, m') ->
    cache_step p (Some m') {| cache := c; reading := (l ++ r)%list; answers := p.(answers); clock := p.(clock) |}.
Definition start_process : Process := {| cache := newGlobalAutomaticExclusionCache; reading := []; answers := []; clock := 0 |}.
Inductive cache_run : Process -> Prop :=
| run_start : cache_run start_process
| run_step p served p' : cache_run p -> cache_step p served p' -> cache_run p'.

(** The last list the store answered; nothing is withdrawn before the first. *)
Definition latest (p : Process) : Exclusions := match p.(answers) with [] => ∅ | (m, _) :: _ => m end.
(** One request reads the store while [refreshing], and the cache holds the last answer. *)
Record cache_wf (p : Process) : Prop := {
  wf_reading : p.(reading) = if p.(cache).(refreshing) then [latest p] else [];
  wf_latest : p.(cache).(byModel) = latest p;
  wf_loaded : match p.(answers) with
              | [] => p.(cache).(loaded) = false
              | (_, t) :: _ => p.(cache).(loaded) = true /\ p.(cache).(refreshedAt) = t /\ t <= p.(clock)
              end
}.

Lemma single_middle {A} (x y : A) l r : (l ++ y :: r)%list = [x] -> l = [] /\ r = [] /\ y = x.
Proof. intros E. destruct l as [|z [|? ?]]; [injection E as -> ->; auto|discriminate..]. Qed.

Lemma cache_step_wf p served p' : cache_wf p -> cache_step p served p' ->
  cache_wf p' /\ (forall m, served = Some m -> m = latest p').
Proof.
  intros [Wr Wl Wd] S. destruct S as [p t L|p c m E|p c stale E|p l r stale m c m' R E|p l r stale e c m' R E]; cbn in *.
  - split; [|discriminate]. split; cbn; [exact Wr|exact Wl|]. destruct (answers p) as [|[? ?] ?]; [exact Wd|cbn in *; intuition lia].
  - unfold snapshot_begin in E. rewrite Wl in E.
    assert (c = cache p /\ m = latest p) as [-> ->] by (repeat case_match; split; congruence).
    split; [split; cbn; assumption|intros ? [= <-]; reflexivity].
  - unfold snapshot_begin in E. destruct (loaded (cache p) && _)%bool; [discriminate|].
    destruct (refreshing (cache p)); [discriminate|]. injection E as <- <-. split; [|discriminate].
    split; cbn; [rewrite Wr, Wl; reflexivity|exact Wl|exact Wd].
  - injection E as <- <-. rewrite R in Wr. destruct (refreshing (cache p)); [|destruct l; discriminate].
    apply single_middle in Wr as (-> & -> & ->). split; [split; cbn; auto with lia|intros ? [= <-]; reflexivity].
  - injection E as <- <-. rewrite R in Wr. destruct (refreshing (cache p)); [|destruct l; discriminate].
    apply single_middle in Wr as (-> & -> & ->). split; [split; cbn; auto|intros ? [= <-]; reflexivity].
Qed.
Lemma cache_run_wf p : cache_run p -> cache_wf p.
Proof. induction 1 as [|p s p' R IH S]; [split; reflexivity|exact (proj1 (cache_step_wf _ _ _ IH S))]. Qed.

(** C31: however requests interleave, at most one of them is reading the list of withdrawn models from
    the store; every request is served the list the store answered last, or nothing while it has not answered;
    and after a minute without an answer the next request reads it again, unless one already is. *)
Theorem withdrawn_models_current (p p' : Process) (served : option Exclusions) :
  cache_run p -> cache_step p served p' ->
  (length p'.(reading) <= 1)%nat /\ (forall m, served = Some m -> m = latest p') /\
  (forall m t l, p.(answers) = (m, t) :: l -> Minute <= Sub p.(clock) t -> p.(reading) = [] ->
     (snapshot_begin p.(clock) p.(cache)).2 = Fetch m).
Proof.
  intros R S. pose proof (cache_run_wf p R) as W. destruct (cache_step_wf p served p' W S) as [W' L]. split; [|split; [exact L|]].
  - rewrite (wf_reading _ W'). destruct (refreshing _); cbn; lia.
  - intros m t l A T N. destruct W as [Wr Wl Wd]. unfold latest in Wr, Wl. rewrite A in Wr, Wl, Wd. cbn in Wd.
    destruct Wd as (L1 & L2 & _). unfold snapshot_begin, globalAutomaticExclusionTTL. rewrite L1, L2.
    rewrite (proj2 (Z.ltb_ge _ _) T), Wl. rewrite N in Wr. destruct (refreshing (cache p)); [discriminate|reflexivity].
Qed.

(** A list is read, and withdraws a model a minute later. *)
Definition ex_answer : Exclusions := {["moonshotai/kimi-k3" := "quota"]}.
Definition ex_reading : Process :=
  {| cache := {| byModel := ∅; refreshedAt := 0; loaded := false; refreshing := true |}; reading := [∅]; answers := []; clock := 0 |}.
Definition ex_read : Process :=
  {| cache := {| byModel := ex_answer; refreshedAt := 0; loaded := true; refreshing := false |}; reading := []; answers := [(ex_answer, 0)]; clock := 0 |}.
Definition ex_later : Process :=
  {| cache := cache ex_read; reading := []; answers := [(ex_answer, 0)]; clock := Minute |}.
Lemma withdrawn_models_current_witness :
  (snapshot_begin Minute (cache ex_read)).2 = Fetch ex_answer /\
  globalAutomaticExclusionReason (Some (latest ex_later)) "moonshotai/kimi-k3" = ("quota", true).
Proof.
  assert (R : cache_run ex_later).
  { eapply (run_step ex_read None); [|apply (step_clock ex_read Minute); vm_compute; discriminate].
    eapply (run_step ex_reading (Some ex_answer)); [|apply (step_read ex_reading [] [] ∅ ex_answer _ _ eq_refl eq_refl)].
    eapply (run_step start_process None); [apply run_start|apply (step_fetch start_process _ ∅ eq_refl)]. }
  split; [|vm_compute; reflexivity].
  apply (proj2 (proj2 (withdrawn_models_current ex_later _ None R (step_clock ex_later Minute ltac:(vm_compute; discriminate)))) ex_answer 0 []);
    vm_compute; congruence.
Defined.
