(* ===== verification/Upstream.v ===== *)
(** Upstream errors and their classification: internal/providers/provider.go.

    An error value is the list of the errors its chain unwraps to, in the order in which
    [errors.As] and [errors.Is] visit them; [errors.As] finds the first of a type. *)

From stdpp Require Import base gmap sets list strings.
From Stdlib Require Import ZArith Lia Ascii.
From S2P Require Import Prelude.
Open Scope string_scope.
Open Scope Z_scope.

Inductive ErrNode :=
| UpstreamStatusError (status : Z)
| UpstreamErrorResponse (status : Z) (body : string)
| ErrUpstreamIdleTimeout
| ErrUpstreamOutputStall
| ErrUpstreamSlowThroughput
| ErrCanceled
| ErrDeadlineExceeded
| URLError (inner : option string)
| OtherError (what : string).
Definition GoError : Type := list ErrNode.

(** [errors.As] for the two upstream types and for [*url.Error]. *)
Fixpoint as_status (e : GoError) : option Z :=
  match e with
  | [] => None
  | UpstreamStatusError st :: _ => Some st
  | _ :: e' => as_status e'
  end.
Fixpoint as_response (e : GoError) : option (Z * string) :=
  match e with
  | [] => None
  | UpstreamErrorResponse st body :: _ => Some (st, body)
  | _ :: e' => as_response e'
  end.
Fixpoint as_url (e : GoError) : option (option string) :=
  match e with
  | [] => None
  | URLError inner :: _ => Some inner
  | _ :: e' => as_url e'
  end.
(** [errors.Is] for the sentinels. *)
Definition is_stall (n : ErrNode) : bool :=
  match n with
  | ErrUpstreamIdleTimeout | ErrUpstreamOutputStall | ErrUpstreamSlowThroughput => true
  | _ => false
  end.
Definition is_cancel (n : ErrNode) : bool :=
  match n with ErrCanceled | ErrDeadlineExceeded => true | _ => false end.

Definition IsRetryableStatus (status : Z) : bool :=
  if ((status =? 408) || (status =? 429))%bool then true
  else ((500 <=? status) && (status <=? 599))%bool.
Definition isResponseHeaderTimeout (e : GoError) : bool :=
  match as_url e with
  | Some (Some inner) => Contains inner "timeout awaiting response headers"
  | _ => false
  end.
(** [None] is the nil error. *)
Definition IsRetryable (err : option GoError) : bool :=
  match err with
  | None => false
  | Some e =>
      if isResponseHeaderTimeout e then true
      else if existsb is_stall e then true
      else if existsb is_cancel e then false
      else match as_response e with
           | Some (st, _) => IsRetryableStatus st
           | None => match as_status e with
                     | Some _ => false
                     | None => true
                     end
           end
  end.

Definition buffered_with_status (st : Z) (e : GoError) : bool :=
  match as_response e with
  | Some (st', _) => st' =? st
  | None => false
  end.
Definition IsUpstreamModelNotFound (e : GoError) : bool := buffered_with_status 404 e.
Definition IsUpstreamProviderBillingBlocked (e : GoError) : bool := buffered_with_status 402 e.

Section Phrases.
Context `{GoUnicode}.

Definition contains_phrase (body : string) (phrases : list string) : bool :=
  existsb (fun p => Contains (ToLower body) p) phrases.
Definition buffered_400_phrase (phrases : list string) (e : GoError) : bool :=
  match as_response e with
  | Some (st, body) => ((st =? 400) && contains_phrase body phrases)%bool
  | None => false
  end.

Definition capabilityRejectionPhrases : list string :=
  ["not a multimodal model"; "does not support image"; "image input is not supported";
   "image input is unsupported"; "does not support vision"; "multimodal input is not supported"].
Definition IsUpstreamCapabilityRejection (e : GoError) : bool :=
  buffered_400_phrase capabilityRejectionPhrases e.

Definition schemaRejectionPhrases : list string :=
  ["conflict in schema definitions"; "failed to compile grammar"; "could not compile grammar";
   "invalid tool schema"; "invalid function schema"; "schema is not representable";
   "invalid input schema"].
Definition IsUpstreamSchemaRejection (e : GoError) : bool :=
  buffered_400_phrase schemaRejectionPhrases e.

Definition unknownFieldPhrases : list string :=
  ["extra inputs are not permitted"; "extra inputs not permitted"; "extra fields not permitted";
   "unknown field"; "unrecognized field"; "unexpected field"; "additional properties are not allowed"].
Definition IsUpstreamOutputConfigFormatRejection (e : GoError) : bool :=
  match as_response e with
  | Some (st, body) =>
      ((st =? 400) && Contains (ToLower body) "output_config" && Contains (ToLower body) "format"
       && contains_phrase body unknownFieldPhrases)%bool
  | None => false
  end.

Definition responsesUnsupportedPhrases : list string :=
  ["responses rest api not enabled"; "responses api not enabled";
   "not allowed to access this endpoint"; "unknown path"].
Definition IsUpstreamResponsesUnsupported (e : GoError) : bool :=
  match as_response e with
  | None => false
  | Some (st, body) =>
      if st =? 404 then true
      else if (negb (st =? 400) && negb (st =? 403))%bool then false
      else contains_phrase body responsesUnsupportedPhrases
  end.
End Phrases.

(** [upstreamStatus] (proxy/service.go): 0 for an error that is not from the upstream. *)
Definition upstreamStatus (e : GoError) : Z :=
  match as_status e with
  | Some st => st
  | None => match as_response e with
            | Some (st, _) => st
            | None => 0
            end
  end.

(** ** Facts *)

(** No error class is at once retried on the same binding and treated as a permanent
    verdict on the request: a rejected capability, a rejected schema, a missing model and a billing
    block are never retryable, unless the watchdogs or the transport reported a stall. *)
Lemma rejection_not_retryable `{GoUnicode} e :
  isResponseHeaderTimeout e = false -> existsb is_stall e = false ->
  (IsUpstreamCapabilityRejection e || IsUpstreamSchemaRejection e || IsUpstreamModelNotFound e
   || IsUpstreamProviderBillingBlocked e)%bool = true ->
  IsRetryable (Some e) = false.
Proof.
  intros Hu Hs. unfold IsRetryable, IsUpstreamCapabilityRejection, IsUpstreamSchemaRejection,
    IsUpstreamModelNotFound, IsUpstreamProviderBillingBlocked, buffered_400_phrase, buffered_with_status.
  rewrite Hu, Hs. destruct (existsb is_cancel e); [reflexivity|].
  destruct (as_response e) as [[st body]|]; [|discriminate]. unfold IsRetryableStatus.
  destruct (Z.eqb_spec st 400), (Z.eqb_spec st 404), (Z.eqb_spec st 402); subst; try reflexivity. discriminate.
Qed.

Lemma rejection_not_retryable_witness :
  IsRetryable (Some [UpstreamErrorResponse 400 "Conflict in schema definitions"]) = false.
Proof. apply (@rejection_not_retryable ascii_unicode); vm_compute; reflexivity. Defined.
