(* ===== verification/Failover.v ===== *)
(** Dispatch with failover: internal/proxy/fallback.go (the prelude buffer, the retry loop, the
    binding list) and sibling_failover.go.

    The client's writer is its header map and the log of calls made on it; [write_ok] says which
    of its writes succeed (the client may be gone) and [flusher] whether it can flush.  An attempt
    is the list of calls it makes on the prelude buffer, the clock when it ends, and its error.
    A retry sleep is the clock after it and whether it ran to its end. *)

From stdpp Require Import base gmap sets list strings pretty.
From Stdlib Require Import Sorted ZArith Lia Ascii.
From S2P Require Import Prelude Floats Types Catalog ForceNames Reasoning Exclusions Upstream.
Open Scope string_scope.
Open Scope Z_scope.

(** ** The prelude buffer *)

Inductive Event := EHeader (status : Z) | EWrite (bytes : string) | EFlush.
Definition Header : Type := gmap string (list string).
Record Inner := { headers : Header; log : list Event }.
Definition emit (e : Event) (w : Inner) : Inner := {| headers := w.(headers); log := (w.(log) ++ [e])%list |}.
Definition set_headers (h : Header) (w : Inner) : Inner := {| headers := h; log := w.(log) |}.

Record preludeBuffer := {
  initialHeaders : Header;
  bufStatus : Z;
  bufBody : string;
  sealed : bool;
  is_committed : bool
}.
Definition newPreludeBuffer (w : Inner) : preludeBuffer :=
  {| initialHeaders := w.(headers); bufStatus := 0; bufBody := ""; sealed := false; is_committed := false |}.

(** The calls an attempt makes on the buffer, header changes included. *)
Inductive BufOp := OWrite (p : string) | OWriteHeader (status : Z) | OFlush | OSeal | OSetHeader (k : string) (v : list string) | ODiscard.

Section Buffer.
Variable write_ok : list Event -> string -> bool.
Variable flusher : bool.

Definition inner_Write (w : Inner) (p : string) : Inner * bool := (emit (EWrite p) w, write_ok w.(log) p).
Definition inner_Flush (w : Inner) : Inner := if flusher then emit EFlush w else w.

(** [commit]: false when the write of the buffered body failed. *)
Definition commit (b : preludeBuffer) (w : Inner) : preludeBuffer * Inner * bool :=
  if b.(is_committed) then (b, w, true)
  else
    let marked body := {| initialHeaders := b.(initialHeaders); bufStatus := b.(bufStatus);
                          bufBody := body; sealed := b.(sealed); is_committed := true |} in
    let w := if b.(bufStatus) =? 0 then w else emit (EHeader b.(bufStatus)) w in
    if String.eqb b.(bufBody) "" then (marked "", inner_Flush w, true)
    else let '(w, ok) := inner_Write w b.(bufBody) in
         if (ok : bool) then (marked "", inner_Flush w, true) else (marked b.(bufBody), w, false).
Definition buf_Write (b : preludeBuffer) (w : Inner) (p : string) : preludeBuffer * Inner * bool :=
  if b.(is_committed) then let '(w, ok) := inner_Write w p in (b, w, ok)
  else if b.(sealed) then
    let '(b, w, ok) := commit b w in
    if (ok : bool) then let '(w, ok) := inner_Write w p in (b, w, ok) else (b, w, false)
  else ({| initialHeaders := b.(initialHeaders); bufStatus := b.(bufStatus);
           bufBody := b.(bufBody) +:+ p; sealed := b.(sealed); is_committed := b.(is_committed) |}, w, true).
Definition buf_WriteHeader (b : preludeBuffer) (w : Inner) (status : Z) : preludeBuffer * Inner :=
  if b.(is_committed) then (b, emit (EHeader status) w)
  else ({| initialHeaders := b.(initialHeaders); bufStatus := status; bufBody := b.(bufBody);
           sealed := b.(sealed); is_committed := b.(is_committed) |}, w).
Definition buf_Flush (b : preludeBuffer) (w : Inner) : Inner :=
  if b.(is_committed) then inner_Flush w else w.
Definition Seal (b : preludeBuffer) : preludeBuffer :=
  {| initialHeaders := b.(initialHeaders); bufStatus := b.(bufStatus); bufBody := b.(bufBody);
     sealed := true; is_committed := b.(is_committed) |}.
Definition Discard (b : preludeBuffer) (w : Inner) : preludeBuffer * Inner :=
  if b.(is_committed) then (b, w)
  else ({| initialHeaders := b.(initialHeaders); bufStatus := 0; bufBody := ""; sealed := false;
           is_committed := false |}, set_headers b.(initialHeaders) w).

Definition run_op (bw : preludeBuffer * Inner) (op : BufOp) : preludeBuffer * Inner :=
  let '(b, w) := bw in
  match op with
  | OWrite p => (buf_Write b w p).1
  | OWriteHeader st => buf_WriteHeader b w st
  | OFlush => (b, buf_Flush b w)
  | OSeal => (Seal b, w)
  | OSetHeader k v => (b, set_headers (<[k := v]> w.(headers)) w)
  | ODiscard => Discard b w
  end.
Definition run_ops (ops : list BufOp) (bw : preludeBuffer * Inner) : preludeBuffer * Inner := foldl run_op bw ops.
End Buffer.

(** ** The retry loop *)

Definition maxSameBindingRetries : nat := 2.
Definition sameBindingBackoffBase : Z := 250 * Millisecond.
Definition sameBindingRetryBudget : Z := 10 * Second.
Definition sameBindingBackoff (attempt : nat) : Z := Z.shiftl sameBindingBackoffBase (Z.of_nat attempt).
Definition attemptIdxLabel (i : nat) : string := pretty (Z.of_nat i).

Record World := { client : Inner; buf : preludeBuffer; clock : Z }.
(** What one call of the attempt closure does. *)
Record Attempt := { ops : list BufOp; ends_at : Z; error : option GoError }.

Inductive SameBinding := Served | Returned (e : GoError) | Exhausted (e : GoError).

Section Dispatch.
Context `{GoUnicode}.
Variable write_ok : list Event -> string -> bool.
Variable flusher : bool.
(** The closure: the binding's index, how many same-binding retries came before, the world. *)
Variable attempt : nat -> nat -> World -> Decision.t -> Attempt.
Variable provider_configured : string -> bool.
(** The sleep: the clock after it, and false when the context ended first. *)
Variable sleep : World -> Z -> Z * bool.
Variable flushErr : option (Inner -> GoError -> Inner).
Variable deferFlushOnExhaustion : bool.

Definition committed (w : World) : bool := w.(buf).(is_committed).
Definition discard (w : World) : World :=
  let '(b, i) := Discard w.(buf) w.(client) in {| client := i; buf := b; clock := w.(clock) |}.
Definition flush_error (w : World) (e : GoError) : World :=
  match flushErr with
  | Some f => if deferFlushOnExhaustion then w
              else {| client := f w.(client) e; buf := w.(buf); clock := w.(clock) |}
  | None => w
  end.

(** The decision headers, rewritten before an attempt while nothing is committed. *)
Definition stamp (i : nat) (primary : string) (d : Decision.t) (w : World) : World :=
  if committed w then w
  else
    let h := <["X-Router-Provider" := [d.(Decision.Provider)]]> w.(client).(headers) in
    let h := <["X-Router-Model" := [d.(Decision.Model)]]> h in
    let h := <["X-Router-Context-Window" :=
               [pretty (contextWindowForRequest d.(Decision.Model) d.(Decision.Provider))]]> h in
    let h := match i with
             | O => h
             | S _ => <["X-Router-Fallback-Attempt" := [attemptIdxLabel i]]>
                      (<["X-Router-Fallback-From" := [primary]]> h)
             end in
    {| client := set_headers h w.(client); buf := w.(buf); clock := w.(clock) |}.

Definition run_attempt (i sb : nat) (w : World) (d : Decision.t) : World * option GoError :=
  let a := attempt i sb w d in
  let '(b, c) := run_ops write_ok flusher a.(ops) (w.(buf), w.(client)) in
  ({| client := c; buf := b; clock := a.(ends_at) |}, a.(error)).

(** The same-binding loop from retry [sb], [left] retries still allowed.  The trace lists the
    worlds the attempts started in. *)
Fixpoint same_binding (left sb i : nat) (multi : bool) (primary : string) (d : Decision.t)
    (retryStart : Z) (w : World) : World * SameBinding * list (nat * World) :=
  let w := stamp i primary d w in
  let '(w', e) := run_attempt i sb w d in
  let tr := [(i, w)] in
  match e with
  | None => (w', Served, tr)
  | Some e =>
      if committed w' then (w', Returned e, tr)
      else if (negb (IsRetryable (Some e)) || multi)%bool then (w', Exhausted e, tr)
      else match left with
           | O => (w', Exhausted e, tr)
           | S left' =>
               if sameBindingRetryBudget <=? Sub w'.(clock) retryStart then (w', Exhausted e, tr)
               else
                 let w'' := discard w' in
                 let '(t, slept) := sleep w'' (sameBindingBackoff sb) in
                 let w3 := {| client := w''.(client); buf := w''.(buf); clock := t |} in
                 if (slept : bool) then
                   let '(w4, r, tr') := same_binding left' (S sb) i multi primary d retryStart w3 in
                   (w4, r, (tr ++ tr')%list)
                 else (w3, Returned e, tr)
           end
  end.

Definition can_failover (e : GoError) : bool :=
  (IsRetryable (Some e) || IsUpstreamModelNotFound e || IsUpstreamProviderBillingBlocked e)%bool.

(** (world, winner index, error, trace) *)
Definition Outcome : Type := World * Z * option GoError * list (nat * World).

(** The walk over the bindings from index [i]. *)
Fixpoint walk (i : nat) (multi : bool) (primary : string) (d : Decision.t)
    (bindings : list ProviderBinding) (w : World) : Outcome :=
  match bindings with
  | [] => (w, Z.of_nat i - 1, Some [OtherError "dispatchWithFallback: exhausted without return"], [])
  | b :: rest =>
      let w := match i with O => w | S _ => discard w end in
      let d := Decision.set_Provider b.(Provider) d in
      if negb (provider_configured b.(Provider)) then
        match rest with
        | [] => (w, Z.of_nat i, Some [OtherError ("provider not configured: " +:+ b.(Provider))], [])
        | _ => walk (S i) multi primary d rest w
        end
      else
        let '(w', r, tr) := same_binding maxSameBindingRetries 0 i multi primary d w.(clock) w in
        match r with
        | Served => (w', Z.of_nat i, None, tr)
        | Returned e => (w', Z.of_nat i, Some e, tr)
        | Exhausted e =>
            if (negb (can_failover e) || bool_decide (rest = []))%bool
            then (flush_error (discard w') e, Z.of_nat i, Some e, tr)
            else let '(w2, n, e2, tr2) := walk (S i) multi primary d rest w' in (w2, n, e2, (tr ++ tr2)%list)
        end
  end.

Definition dispatchWithFallback (initialDecision : Decision.t) (bindings : list ProviderBinding)
    (w : World) : Outcome :=
  match bindings with
  | [] =>
      if String.eqb initialDecision.(Decision.Reason) ReasonUserForceModel then
        let e := [UpstreamErrorResponse 503 ("forced model " +:+ initialDecision.(Decision.Model)
                    +:+ " unavailable: provider " +:+ initialDecision.(Decision.Provider)
                    +:+ " not configured")] in
        (flush_error w e, -1, Some e, [])
      else (w, -1, Some [UpstreamStatusError 502], [])
  | b :: _ => walk 0 (Nat.ltb 1 (length bindings)) b.(Provider) initialDecision bindings w
  end.
End Dispatch.

(** ** Facts: what reaches the client *)

(** The bytes of a log, and of the calls of an attempt. *)
Definition event_bytes (e : Event) : string := match e with EWrite p => p | _ => "" end.
Definition op_bytes (o : BufOp) : string := match o with OWrite p => p | _ => "" end.
Fixpoint visible (l : list Event) : string :=
  match l with [] => "" | e :: l' => event_bytes e +:+ visible l' end.
Fixpoint payload (l : list BufOp) : string :=
  match l with [] => "" | o :: l' => op_bytes o +:+ payload l' end.
(** What the calls come to: a stage that bytes are put on, emptied by a discard, and opened by the first bytes after a seal; whether it
    was opened, and every byte that was to be seen, or what is still on it. *)
Fixpoint staged (sealed : bool) (pending : string) (l : list BufOp) : bool * string :=
  match l with
  | [] => (false, pending)
  | OWrite p :: l' => if sealed then (true, pending +:+ payload l) else staged sealed (pending +:+ p) l'
  | OSeal :: l' => staged true pending l'
  | ODiscard :: l' => staged false "" l'
  | _ :: l' => staged sealed pending l'
  end.
Lemma visible_app a b : visible (a ++ b) = visible a +:+ visible b.
Proof. induction a as [|e a IH]; [reflexivity|]. cbn. rewrite IH, str_app_assoc. reflexivity. Qed.
Lemma payload_app a b : payload (a ++ b) = payload a +:+ payload b.
Proof. induction a as [|e a IH]; [reflexivity|]. cbn. rewrite IH, str_app_assoc. reflexivity. Qed.
Lemma visible_emit e w : visible (emit e w).(log) = visible w.(log) +:+ event_bytes e.
Proof. unfold emit. cbn [log]. rewrite visible_app. cbn [visible]. rewrite str_app_nil_r. reflexivity. Qed.
Lemma visible_flush f w : visible (inner_Flush f w).(log) = visible w.(log).
Proof. unfold inner_Flush. destruct f; [|reflexivity]. rewrite visible_emit. apply str_app_nil_r. Qed.

Section BufferFacts.
Variable write_ok : list Event -> string -> bool.
Variable flusher : bool.
Abbreviation run := (run_ops write_ok flusher).

(** What the client can have seen of events written after [lg]: all up to the first write that fails, of which it may have a part. *)
Fixpoint attempted (lg evs : list Event) : list Event :=
  match evs with
  | [] => []
  | e :: r => match e with EWrite p => if write_ok lg p then e :: attempted (lg ++ [e]) r else [e] | _ => e :: attempted (lg ++ [e]) r end
  end.
Fixpoint unbroken (lg evs : list Event) : bool :=
  match evs with [] => true | e :: r => (match e with EWrite p => write_ok lg p | _ => true end && unbroken (lg ++ [e]) r)%bool end.
Lemma attempted_prefix lg evs : exists rest, visible evs = visible (attempted lg evs) +:+ rest.
Proof.
  revert lg; induction evs as [|e r IH]; intros lg; [by exists ""|]. destruct (IH (lg ++ [e])%list) as [rest E]. cbn [visible attempted].
  destruct e; try (exists rest; cbn [visible event_bytes]; by rewrite E).
  destruct (write_ok lg bytes); cbn [visible]; [exists rest; by rewrite E, str_app_assoc|exists (visible r); by rewrite str_app_nil_r].
Qed.
(** A run of events: what was on the log stays. *)
Definition adds (w w' : Inner) (evs : list Event) : Prop := w'.(log) = (w.(log) ++ evs)%list.
Lemma commit_spec b w : b.(is_committed) = false ->
  let '(b', w', ok) := commit write_ok flusher b w in
  b'.(is_committed) = true /\ exists evs, adds w w' evs /\ visible evs = b.(bufBody) /\
    if (ok : bool) then True else forall more, unbroken w.(log) (evs ++ more) = false /\ visible (attempted w.(log) (evs ++ more)) = b.(bufBody).
Proof.
  intros Eb. unfold commit, adds. rewrite Eb. set (w1 := if b.(bufStatus) =? 0 then w else emit _ w).
  assert (V : exists hs, w1.(log) = (w.(log) ++ hs)%list /\ visible hs = "" /\ (forall more, unbroken w.(log) (hs ++ more) = unbroken w1.(log) more) /\
    forall more, visible (attempted w.(log) (hs ++ more)) = visible (attempted w1.(log) more)).
  { unfold w1. destruct (b.(bufStatus) =? 0); [exists []; by rewrite app_nil_r|]. exists [EHeader b.(bufStatus)]. done. }
  destruct V as (hs & E1 & Vh & U & T). assert (Fl : forall x, exists fs, (inner_Flush flusher x).(log) = (x.(log) ++ fs)%list /\ visible fs = "").
  { intros x. unfold inner_Flush. destruct flusher; [by exists [EFlush]|exists []; by rewrite app_nil_r]. }
  destruct (String.eqb_spec b.(bufBody) "") as [E|_].
  - split; [done|]. destruct (Fl w1) as (fs & Ef & Vf). exists (hs ++ fs)%list. rewrite Ef, E1, app_assoc, visible_app, Vh, Vf, E. done.
  - unfold inner_Write. destruct (write_ok (log w1) (bufBody b)) eqn:Ok.
    + split; [done|]. destruct (Fl (emit (EWrite (bufBody b)) w1)) as (fs & Ef & Vf). exists (hs ++ [EWrite (bufBody b)] ++ fs)%list.
      rewrite Ef. cbn [emit log]. rewrite E1, <- !app_assoc. split; [done|]. rewrite !visible_app, Vh, Vf. cbn. by rewrite !str_app_nil_r.
    + split; [done|]. exists (hs ++ [EWrite (bufBody b)])%list. cbn [emit log]. rewrite E1, <- !app_assoc. split; [done|].
      split; [rewrite visible_app, Vh; cbn; by rewrite str_app_nil_r|]. intros more. rewrite <- !app_assoc, U, T. cbn. rewrite Ok. cbn. by rewrite str_app_nil_r.
Qed.

Lemma commit_committed b w : is_committed (commit write_ok flusher b w).1.1 = true.
Proof.
  unfold commit. destruct b.(is_committed) eqn:E; [exact E|]. destruct (String.eqb _ _); [reflexivity|].
  unfold inner_Write. destruct (write_ok _ _); reflexivity.
Qed.

Lemma run_op_committed op b w : b.(is_committed) = true -> is_committed (run_op write_ok flusher (b, w) op).1 = true.
Proof.
  intros E. destruct op; cbn; unfold buf_Write, buf_WriteHeader, Discard; rewrite ?E; auto.
Qed.

Lemma run_op_adds op b w : b.(is_committed) = true -> exists evs, adds w (run_op write_ok flusher (b, w) op).2 evs /\ visible evs = op_bytes op.
Proof.
  intros E. unfold adds. destruct op; cbn; unfold buf_Write, buf_WriteHeader, buf_Flush, inner_Flush, Discard; rewrite ?E; cbn.
  - exists [EWrite p]. split; [done|]. cbn. by rewrite str_app_nil_r.
  - by exists [EHeader status].
  - destruct flusher; [by exists [EFlush]|exists []; by rewrite app_nil_r].
  - exists []. by rewrite app_nil_r.
  - exists []. by rewrite app_nil_r.
  - exists []. by rewrite app_nil_r.
Qed.
Lemma run_adds l : forall b w, b.(is_committed) = true -> is_committed (run l (b, w)).1 = true /\ exists evs, adds w (run l (b, w)).2 evs /\ visible evs = payload l.
Proof.
  unfold adds. induction l as [|op l IH]; intros b w E; [split; [done|]; exists []; by rewrite app_nil_r|]. unfold run_ops in *. cbn [foldl payload].
  destruct (run_op_adds op b w E) as (e1 & A1 & V1). pose proof (run_op_committed op b w E) as C. destruct (run_op write_ok flusher (b, w) op) as [b1 w1].
  destruct (IH b1 w1 C) as (C2 & e2 & A2 & V2). split; [done|]. exists (e1 ++ e2)%list. rewrite A2. unfold adds in A1. cbn in A1. by rewrite A1, app_assoc, visible_app, V1, V2.
Qed.

(** A call that does not commit leaves the log alone. *)
Lemma run_op_uncommitted op b w : is_committed (run_op write_ok flusher (b, w) op).1 = false ->
  b.(is_committed) = false /\ (run_op write_ok flusher (b, w) op).2.(log) = w.(log) /\
  initialHeaders (run_op write_ok flusher (b, w) op).1 = b.(initialHeaders).
Proof.
  intros N. destruct b.(is_committed) eqn:Eb; [rewrite run_op_committed in N by exact Eb; discriminate|].
  split; [reflexivity|]. destruct op; cbn in *; unfold buf_Write, buf_WriteHeader, buf_Flush, Discard in *; rewrite ?Eb in *; auto.
  destruct b.(sealed); [|auto]. exfalso. pose proof (commit_committed b w) as C.
  destruct (commit write_ok flusher b w) as [[b' w'] ok]. cbn in C, N. destruct ok; cbn in N; congruence.
Qed.
Lemma run_uncommitted l b w : is_committed (run l (b, w)).1 = false ->
  b.(is_committed) = false /\ (run l (b, w)).2.(log) = w.(log) /\
  initialHeaders (run l (b, w)).1 = b.(initialHeaders).
Proof.
  revert b w; induction l as [|op l IH]; intros b w; [auto|]. unfold run_ops in *. cbn [foldl].
  destruct (run_op write_ok flusher (b, w) op) as [b1 w1] eqn:E. intros N.
  destruct (IH b1 w1 N) as (N1 & L1 & H1). rewrite L1, H1.
  pose proof (run_op_uncommitted op b w) as U. rewrite E in U. auto.
Qed.

End BufferFacts.

(** ** Facts: the retry loop *)

Section DispatchFacts.
Context `{GoUnicode}.
Variable write_ok : list Event -> string -> bool.
Variable flusher : bool.
Variable attempt : nat -> nat -> World -> Decision.t -> Attempt.
Variable provider_configured : string -> bool.
Variable sleep : World -> Z -> Z * bool.
Variable flushErr : option (Inner -> GoError -> Inner).
Variable deferFlushOnExhaustion : bool.

Abbreviation same_binding := (same_binding write_ok flusher attempt sleep).
Abbreviation walk := (walk write_ok flusher attempt provider_configured sleep flushErr deferFlushOnExhaustion).
Abbreviation dispatchWithFallback :=
  (dispatchWithFallback write_ok flusher attempt provider_configured sleep flushErr deferFlushOnExhaustion).

(** [w'] is a world in which nothing more than in [w] has reached the client. *)
Definition untouched (w w' : World) : Prop :=
  committed w' = false /\ w'.(client).(log) = w.(client).(log).

Lemma untouched_refl w : committed w = false -> untouched w w.
Proof. split; auto. Qed.
Lemma untouched_trans w1 w2 w3 : untouched w1 w2 -> untouched w2 w3 -> untouched w1 w3.
Proof. unfold untouched. intros [_ E] [C E']. split; congruence. Qed.
Lemma untouched_stamp i p d w : committed w = false -> untouched w (stamp i p d w).
Proof. intros C. unfold stamp. rewrite C. split; [exact C|reflexivity]. Qed.
Lemma untouched_discard w : committed w = false -> untouched w (discard w).
Proof. intros C. unfold discard, Discard. unfold committed in C. rewrite C. split; reflexivity. Qed.
Lemma untouched_attempt i sb w d w' e :
  run_attempt write_ok flusher attempt i sb w d = (w', e) -> committed w' = false -> untouched w w'.
Proof.
  unfold run_attempt. destruct (run_ops _ _ _ _) as [b c] eqn:R. intros [= <- _] N.
  pose proof (run_uncommitted write_ok flusher (attempt i sb w d).(ops) w.(buf) w.(client)) as U.
  unfold committed in N. cbn in N. rewrite R in U. destruct (U N) as (_ & L & _). split; [exact N|exact L].
Qed.

(** What one binding's loop does. *)
Lemma same_binding_spec left sb i multi p d start w :
  committed w = false ->
  let '(w', r, tr) := same_binding left sb i multi p d start w in
  (forall j x, (j, x) ∈ tr -> j = i /\ untouched w x) /\
  (1 <= length tr <= (if multi then 1 else S left))%nat /\
  match r with
  | Served => True
  | Returned e => committed w' = true \/ untouched w w'
  | Exhausted e => untouched w w'
  end.
Proof.
  revert sb w; induction left as [|left IH]; intros sb w C; cbn [Failover.same_binding];
    pose proof (untouched_stamp i p d w C) as U0; set (w0 := stamp i p d w) in *;
    destruct (run_attempt write_ok flusher attempt i sb w0 d) as [w1 [e|]] eqn:Ea.
  2, 4: (split; [intros j x [= -> ->]%list_elem_of_singleton; auto|split; [destruct multi; cbn; lia|exact I]]).
  1, 2: destruct (committed w1) eqn:C1;
    [split; [intros j x [= -> ->]%list_elem_of_singleton; auto|split; [destruct multi; cbn; lia|auto]]|].
  1, 2: pose proof (untouched_trans _ _ _ U0 (untouched_attempt _ _ _ _ _ _ Ea C1)) as U1;
    destruct (negb (IsRetryable (Some e)) || multi)%bool eqn:Em;
    [split; [intros j x [= -> ->]%list_elem_of_singleton; auto|split; [destruct multi; cbn; lia|exact U1]]|].
  - split; [intros j x [= -> ->]%list_elem_of_singleton; auto|split; [destruct multi; cbn; lia|exact U1]].
  - destruct (_ <=? _).
    { split; [intros j x [= -> ->]%list_elem_of_singleton; auto|split; [destruct multi; cbn; lia|exact U1]]. }
    pose proof (untouched_trans _ _ _ U1 (untouched_discard w1 C1)) as U2.
    destruct (sleep (discard w1) (sameBindingBackoff sb)) as [t [|]].
    2: { split; [intros j x [= -> ->]%list_elem_of_singleton; auto|split; [destruct multi; cbn; lia|right; exact U2]]. }
    specialize (IH (S sb) {| client := (discard w1).(client); buf := (discard w1).(buf); clock := t |} (proj1 U2)).
    destruct (same_binding left (S sb) i multi p d start _) as [[w4 r] tr'].
    destruct IH as (T & L & R). apply orb_false_elim in Em as [_ ->].
    assert (U3 : untouched w {| client := (discard w1).(client); buf := (discard w1).(buf); clock := t |}) by exact U2.
    split; [|split].
    + intros j x [Hx|Hx]%elem_of_app; [apply list_elem_of_singleton in Hx as [= -> ->]; auto|].
      destruct (T _ _ Hx). eauto using untouched_trans.
    + rewrite length_app. cbn in *. lia.
    + destruct r; [exact I|destruct R; eauto using untouched_trans|eauto using untouched_trans].
Qed.

Lemma walk_spec i multi p d bindings w :
  committed w = false ->
  let '(w', n, e, tr) := walk i multi p d bindings w in
  (forall j x, (j, x) ∈ tr -> (i <= j < i + length bindings)%nat /\ untouched w x) /\
  (length tr <= length bindings * (if multi then 1 else 3))%nat /\
  (e = None -> exists x, last tr = Some (Z.to_nat n, x)) /\
  (flushErr = None \/ deferFlushOnExhaustion = true -> forall er, e = Some er ->
   committed w' = true \/ untouched w w').
Proof.
  revert i w d; induction bindings as [|b rest IH]; intros i w d C; cbn [Failover.walk].
  { split; [set_solver|]. split; [cbn; lia|]. split; [discriminate|]. right. apply untouched_refl, C. }
  assert (U0 : untouched w (match i with O => w | S _ => discard w end)).
  { destruct i; [apply untouched_refl, C|apply untouched_discard, C]. }
  set (w0 := match i with O => w | S _ => discard w end) in *.
  destruct (negb (provider_configured b.(Provider))).
  { destruct rest as [|b2 rest].
    - split; [set_solver|]. split; [cbn; lia|]. split; [discriminate|auto].
    - specialize (IH (S i) w0 (Decision.set_Provider b.(Provider) d) (proj1 U0)). destruct (walk (S i) multi p _ (b2 :: rest) w0) as [[[w' n] e] tr].
      destruct IH as (T & L & S1 & S2). split; [|split; [|split; [exact S1|]]].
      + intros j x Hx. destruct (T j x Hx). split; [cbn in *; lia|eauto using untouched_trans].
      + cbn in *. destruct multi; lia.
      + intros F er He. destruct (S2 F er He); eauto using untouched_trans. }
  pose proof (same_binding_spec maxSameBindingRetries 0 i multi p (Decision.set_Provider b.(Provider) d) w0.(clock) w0 (proj1 U0)) as B.
  destruct (same_binding _ 0 i multi p _ _ w0) as [[w1 r] tr]. destruct B as (T & L & R).
  assert (T1 : forall j x, (j, x) ∈ tr -> (i <= j < i + length (b :: rest))%nat /\ untouched w x).
  { intros j x Hx. destruct (T j x Hx) as [-> U]. split; [cbn; lia|eauto using untouched_trans]. }
  assert (L1 : (length tr <= length (b :: rest) * (if multi then 1 else 3))%nat) by (unfold maxSameBindingRetries in L; cbn; destruct multi; lia).
  destruct r as [|er|er].
  - split; [exact T1|]. split; [exact L1|]. split; [intros _|discriminate].
    destruct (last tr) as [[j x]|] eqn:El.
    + apply last_Some_elem_of in El. destruct (T _ _ El) as [-> _]. exists x. f_equal. f_equal. lia.
    + apply last_None in El. subst tr. cbn in L. lia.
  - split; [exact T1|]. split; [exact L1|]. split; [discriminate|]. intros _ e0 _.
    destruct R; eauto using untouched_trans.
  - destruct (negb (can_failover er) || bool_decide (rest = []))%bool.
    + split; [exact T1|]. split; [exact L1|]. split; [discriminate|]. intros F e0 _. right.
      pose proof (untouched_trans _ _ _ U0 (untouched_trans _ _ _ R (untouched_discard w1 (proj1 R)))) as U.
      unfold flush_error. destruct flushErr; [|exact U]. destruct F as [F| ->]; [discriminate|exact U].
    + specialize (IH (S i) w1 (Decision.set_Provider b.(Provider) d) (proj1 R)).
      pose proof (untouched_trans _ _ _ U0 R) as U1.
      destruct (walk (S i) multi p _ rest w1) as [[[w' n] e] tr2]. destruct IH as (T2 & L2 & S1 & S2).
      split; [|split; [|split]].
      * intros j x [Hx|Hx]%elem_of_app; [exact (T1 j x Hx)|]. destruct (T2 j x Hx). split; [cbn; lia|eauto using untouched_trans].
      * rewrite length_app. unfold maxSameBindingRetries in L. cbn. destruct multi; lia.
      * intros E. destruct (S1 E) as [x Hx]. exists x. rewrite last_app, Hx. reflexivity.
      * intros F e0 He. destruct (S2 F e0 He); eauto using untouched_trans.
Qed.

(** With several bindings none is tried twice: the attempts go down the list. *)
Lemma walk_sorted i p d bindings w : committed w = false -> StronglySorted lt (fst <$> (walk i true p d bindings w).2).
Proof.
  revert i w d; induction bindings as [|b rest IH]; intros i w d C; cbn [Failover.walk]; [constructor|].
  set (w0 := match i with O => w | S _ => discard w end). assert (C0 : committed w0 = false) by (unfold w0; destruct i; [done|apply (untouched_discard w C)]).
  destruct (negb (provider_configured b.(Provider))); [destruct rest as [|b2 rest]; [constructor|by apply IH]|].
  pose proof (same_binding_spec maxSameBindingRetries 0 i true p (Decision.set_Provider b.(Provider) d) w0.(clock) w0 C0) as B.
  destruct (same_binding _ 0 i true p _ _ w0) as [[w1 r] tr]. destruct B as (T & L & R).
  assert (S1 : StronglySorted lt tr.*1) by (destruct tr as [|? [|? ?]]; [constructor|by repeat constructor|cbn in L; lia]).
  destruct r as [|er|er]; [exact S1|exact S1|]. destruct (negb (can_failover er) || bool_decide (rest = []))%bool; [exact S1|].
  pose proof (IH (S i) w1 (Decision.set_Provider b.(Provider) d) (proj1 R)) as S2. pose proof (walk_spec (S i) true p (Decision.set_Provider b.(Provider) d) rest w1 (proj1 R)) as W.
  destruct (walk (S i) true p _ rest w1) as [[[w' n] e] tr2]. destruct W as (T2 & _). cbn [snd] in *. rewrite fmap_app.
  destruct tr as [|[j x] [|? ?]]; [exact S2| |cbn in L; lia]. cbn. constructor; [exact S2|]. apply Forall_fmap, Forall_forall. intros [j2 x2] H2. cbn.
  destruct (T j x) as [-> _]; [by left|]. destruct (T2 j2 x2 H2). lia.
Qed.

(** C3: the dispatch loop ends: on a single binding after at most three attempts, and with several after at most one on each, in their order;
    every attempt starts with nothing committed and with the client having seen no more than before the dispatch; the index of a served
    turn is that of its last attempt. *)
Theorem dispatch_attempts_clean d bindings w :
  committed w = false ->
  let '(w', n, e, tr) := dispatchWithFallback d bindings w in
  (forall j x, (j, x) ∈ tr -> (j < length bindings)%nat /\ committed x = false /\ x.(client).(log) = w.(client).(log)) /\
  ((length bindings <= 1)%nat -> (length tr <= 3)%nat) /\
  ((1 < length bindings)%nat -> StronglySorted lt tr.*1) /\
  (e = None -> exists x, last tr = Some (Z.to_nat n, x) /\ (Z.to_nat n < length bindings)%nat).
Proof.
  intros C. unfold Failover.dispatchWithFallback. destruct bindings as [|b rest].
  { destruct (String.eqb _ _); (split; [set_solver|split; [cbn; lia|split; [cbn; lia|discriminate]]]). }
  pose proof (walk_spec 0 (Nat.ltb 1 (length (b :: rest))) b.(Provider) d (b :: rest) w C) as W.
  pose proof (walk_sorted 0 b.(Provider) d (b :: rest) w C) as S2.
  destruct (Nat.ltb_spec 1 (length (b :: rest))) as [L1|L1].
  all: destruct (walk 0 _ _ _ _ w) as [[[w' n] e] tr]; destruct W as (T & L & S1 & _); split; [intros j x Hx; destruct (T j x Hx) as [? U]; split; [lia|exact U]|].
  all: split; [cbn in *; lia|]; split; [|intros E; destruct (S1 E) as [x Hx]; exists x; split; [exact Hx|]; apply last_Some_elem_of in Hx; destruct (T _ _ Hx); lia].
  - intros _. exact S2.
  - lia.
Qed.

(** A dispatch that fails before any byte was committed leaves the client as it found
    it when the caller asked to defer the error: the caller's own fallback starts clean. *)
Lemma dispatch_failure_untouched d bindings w :
  committed w = false -> flushErr = None \/ deferFlushOnExhaustion = true ->
  let '(w', _, e, _) := dispatchWithFallback d bindings w in
  forall er, e = Some er -> committed w' = true \/ w'.(client).(log) = w.(client).(log).
Proof.
  intros C F. unfold Failover.dispatchWithFallback. destruct bindings as [|b rest].
  { destruct (String.eqb _ _); intros er _; right; [|reflexivity].
    unfold flush_error. destruct flushErr; [|reflexivity]. destruct F as [F| ->]; [discriminate|reflexivity]. }
  pose proof (walk_spec 0 (Nat.ltb 1 (length (b :: rest))) b.(Provider) d (b :: rest) w C) as W.
  destruct (walk 0 _ _ _ _ w) as [[[w' n] e] tr]. destruct W as (_ & _ & _ & S2).
  intros er E. destruct (S2 F er E) as [|[_ U]]; auto.
Qed.
End DispatchFacts.

(** ** The bindings to walk *)

(** What the binding list depends on besides the decision: whether the installation may only use
    its own keys, whether the request carries credentials of its own or external keys, and the
    providers this session struck out. *)
Record FailoverCtx := {
  byokOnly : bool;
  hasCredentials : bool;
  externalKeys : list string;
  sessionDisabledProviders : list string
}.
Definition shouldFailover (fc : FailoverCtx) : bool :=
  if fc.(byokOnly) then false
  else if fc.(hasCredentials) then false
  else match fc.(externalKeys) with [] => true | _ => false end.

Definition primary_binding (provider : string) : ProviderBinding :=
  {| Provider := provider; UpstreamID := ""; Price := zero_Pricing; binding_ContextWindow := 0 |}.

Definition prioritizeSelectedArmBinding (bindings : list IndexedBinding)
    (catalogID provider upstreamID : string) (bindingIndex : Z) : option (list ProviderBinding) :=
  match List.find (fun ib : IndexedBinding => (Z.eqb (Z.of_nat ib.1) bindingIndex
                                               && String.eqb ib.2.(Provider) provider)%bool) bindings with
  | None => None
  | Some ib =>
      if negb (String.eqb (UpstreamIDFor catalogID ib.2.(UpstreamID)) upstreamID) then None
      else Some (ib.2 :: (snd <$> List.filter (fun ib : IndexedBinding => negb (Z.eqb (Z.of_nat ib.1) bindingIndex)) bindings))
  end.

Section Bindings.
Context `{GoUnicode}.

Definition resolveBindingsForDispatch (cfg : Config) (fc : FailoverCtx) (decision : Decision.t) :
    list ProviderBinding :=
  let primary := primary_binding decision.(Decision.Provider) in
  if negb (shouldFailover fc) then [primary]
  else
    match cfg.(deploymentKeyedProviders) with
    | None => [primary]
    | Some keyed =>
        let excluded : gset string := list_to_set fc.(sessionDisabledProviders) in
        let available := Some (keyed ∖ excluded) in
        let primaryExcluded := in_set decision.(Decision.Provider) excluded in
        let indexed := EnumerateBindings decision.(Decision.Model) available in
        let bindings := snd <$> indexed in
        match bindings with
        | [] =>
            if primaryExcluded then []
            else if (String.eqb decision.(Decision.Reason) ReasonUserForceModel
                     && bool_decide (is_Some (ByID decision.(Decision.Model))))%bool then []
            else [primary]
        | first :: rest =>
            let unarmed :=
              if (bool_decide (rest = []) && negb primaryExcluded)%bool then [primary]
              else if negb (String.eqb first.(Provider) decision.(Decision.Provider)) then
                if primaryExcluded then bindings
                else primary :: List.filter (fun b => negb (String.eqb b.(Provider) decision.(Decision.Provider))) bindings
              else bindings in
            match decision.(Decision.Metadata) with
            | Some md =>
                if String.eqb md.(Metadata.SelectedArmID) "" then unarmed
                else match prioritizeSelectedArmBinding indexed decision.(Decision.Model)
                             decision.(Decision.Provider) md.(Metadata.SelectedUpstreamID)
                             md.(Metadata.BindingIndex) with
                     | Some armed => armed
                     | None => unarmed
                     end
            | None => unarmed
            end
        end
    end.

(** ** Sibling rescue (sibling_failover.go) *)

Definition ReasonSiblingFailover : string := "sibling_failover".
Definition siblingFitsContext (model provider : string) (est sigSavings outputReserve : Z) : bool :=
  if est <=? 0 then true
  else
    let needed := est + outputReserve in
    let needed := if ((0 <? sigSavings) && modelStripsAnthropicSignatures model)%bool
                  then needed - sigSavings else needed in
    needed <=? contextWindowForRequest model provider.
Definition siblingCandidateOrder (md : Metadata.t) : list string :=
  (md.(Metadata.CandidateModels) ++ [md.(Metadata.PairedModel)])%list.
Definition siblingProvider (model : string) (resolved : gmap string string) (available : option (gset string)) :
    option string :=
  match resolved !! model with
  | Some p => if (negb (String.eqb p "") && in_opt_set p available)%bool then Some p
              else Provider <$> ResolveBinding model available
  | None => Provider <$> ResolveBinding model available
  end.
Definition siblingDecisionFor (failed : Decision.t) (md : Metadata.t) (model provider : string) : Decision.t :=
  {| Decision.Provider := provider; Decision.Model := model; Decision.Effort := failed.(Decision.Effort);
     Decision.Reason := ReasonSiblingFailover;
     Decision.Metadata := Some (Metadata.set_BindingIndex 0
       (Metadata.set_SelectedUpstreamID "" (Metadata.set_SelectedArmID "" md))) |}.
Definition keyedProvidersExcluding (cfg : Config) (excluded : gset string) : option (gset string) :=
  (fun keyed => keyed ∖ excluded) <$> cfg.(deploymentKeyedProviders).

(** The walk over the candidates; [same] is the first candidate seen on the failed provider. *)
Fixpoint sibling_walk (failed : Decision.t) (md : Metadata.t) (available excludedModels automaticExcluded : option (gset string))
    (est sigSavings outputReserve : Z) (ids : list string) (same : option Decision.t) : option Decision.t :=
  match ids with
  | [] => same
  | id :: ids' =>
      let next := sibling_walk failed md available excludedModels automaticExcluded est sigSavings outputReserve ids' in
      if (String.eqb id "" || String.eqb id failed.(Decision.Model))%bool then next same
      else if in_opt_set id excludedModels then next same
      else if in_opt_set id automaticExcluded then next same
      else match siblingProvider id md.(Metadata.CandidateProviders) available with
           | None => next same
           | Some provider =>
               if negb (siblingFitsContext id provider est sigSavings outputReserve) then next same
               else
                 let candidate := siblingDecisionFor failed md id provider in
                 if String.eqb provider failed.(Decision.Provider)
                 then next (match same with Some s => Some s | None => Some candidate end)
                 else Some candidate
           end
  end.
Definition siblingFailoverDecision (cfg : Config) (ctx : Ctx) (fc : FailoverCtx)
    (automaticExcluded : option (gset string)) (failed : Decision.t) (est sigSavings outputReserve : Z) :
    option Decision.t :=
  match failed.(Decision.Metadata), cfg.(deploymentKeyedProviders) with
  | Some md, Some _ =>
      let available := keyedProvidersExcluding cfg (list_to_set fc.(sessionDisabledProviders)) in
      sibling_walk failed md available (excludedModelsForRequest cfg ctx) automaticExcluded
        est sigSavings outputReserve (siblingCandidateOrder md) None
  | _, _ => None
  end.
End Bindings.

(** ** Facts: which providers and models a rescue may use *)

Section BindingFacts.
Context `{GoUnicode}.

Lemma EnumerateBindings_available id av ib : ib ∈ EnumerateBindings id av -> in_opt_set ib.2.(Provider) av = true.
Proof.
  unfold EnumerateBindings. destruct (ByID id) as [m|]; [|set_solver].
  rewrite list_elem_of_In, filter_In. tauto.
Qed.
Lemma prioritize_subset bindings cid p u i out b :
  prioritizeSelectedArmBinding bindings cid p u i = Some out -> b ∈ out -> exists ib, ib ∈ bindings /\ ib.2 = b.
Proof.
  unfold prioritizeSelectedArmBinding. destruct (List.find _ bindings) as [ib|] eqn:E; [|discriminate].
  apply find_some in E as [E _]. destruct (negb _); [discriminate|]. intros [= <-].
  intros [->|Hb]%elem_of_cons; [exists ib; split; [apply list_elem_of_In, E|reflexivity]|].
  apply list_elem_of_fmap in Hb as (y & -> & Hy). exists y. split; [|reflexivity].
  apply list_elem_of_In in Hy. apply filter_In in Hy as [Hy _]. apply list_elem_of_In, Hy.
Qed.

(** A provider the session struck out after repeated overloads is not dispatched to
    again, not even as a fallback, as long as the request is eligible for failover. *)
Lemma disabled_provider_not_dispatched cfg fc d b :
  shouldFailover fc = true -> is_Some cfg.(deploymentKeyedProviders) ->
  b ∈ resolveBindingsForDispatch cfg fc d -> b.(Provider) ∉ fc.(sessionDisabledProviders).
Proof.
  intros Hf [keyed Hk]. unfold resolveBindingsForDispatch. rewrite Hf, Hk. cbn [negb].
  set (ex := list_to_set fc.(sessionDisabledProviders) : gset string).
  set (indexed := EnumerateBindings d.(Decision.Model) (Some (keyed ∖ ex))).
  assert (A : forall x, x ∈ snd <$> indexed -> x.(Provider) ∉ fc.(sessionDisabledProviders)).
  { intros x Hx. apply list_elem_of_fmap in Hx as (ib & -> & Hib). apply EnumerateBindings_available in Hib.
    cbn in Hib. apply in_set_spec, elem_of_difference in Hib as [_ Hib]. intros Hd. apply Hib.
    apply elem_of_list_to_set. exact Hd. }
  assert (P : in_set d.(Decision.Provider) ex = false -> (primary_binding d.(Decision.Provider)).(Provider) ∉ fc.(sessionDisabledProviders)).
  { intros E. cbn. apply not_true_iff_false in E. rewrite in_set_spec in E. intros Hd. apply E.
    apply elem_of_list_to_set. exact Hd. }
  destruct (snd <$> indexed) as [|first rest] eqn:Eb.
  { destruct (in_set _ ex); [intros Hb; inversion Hb|]. destruct (_ && _)%bool; [intros Hb; inversion Hb|].
    intros ->%list_elem_of_singleton. auto. }
  set (unarmed := if (_ && _)%bool then _ else _).
  assert (U : b ∈ unarmed -> b.(Provider) ∉ fc.(sessionDisabledProviders)).
  { unfold unarmed. destruct (in_set _ ex) eqn:Ep; cbn [negb]; rewrite ?andb_false_r, ?andb_true_r.
    - destruct (String.eqb first.(Provider) _); apply A.
    - case_bool_decide; [intros ->%list_elem_of_singleton; exact (P eq_refl)|].
      destruct (String.eqb first.(Provider) _); cbn [negb]; [apply A|]. intros [->|Hb]%elem_of_cons; [exact (P eq_refl)|]. apply A. apply list_elem_of_In in Hb.
      apply filter_In in Hb as [Hb _]. apply list_elem_of_In, Hb. }
  destruct d.(Decision.Metadata) as [md|]; [|exact U]. destruct (String.eqb _ ""); [exact U|].
  destruct (prioritizeSelectedArmBinding _ _ _ _ _) as [armed|] eqn:Ea; [|exact U].
  intros Hb. destruct (prioritize_subset _ _ _ _ _ _ _ Ea Hb) as (ib & Hib & <-). apply A.
  rewrite <- Eb. apply list_elem_of_fmap. eauto.
Qed.

(** What the rescue may return. *)
Definition sibling_ok (failed : Decision.t) (md : Metadata.t) (available ex aex : option (gset string))
    (est sig res : Z) (id provider : string) : Prop :=
  id <> "" /\ id <> failed.(Decision.Model) /\ in_opt_set id ex = false /\ in_opt_set id aex = false /\
  siblingProvider id md.(Metadata.CandidateProviders) available = Some provider /\
  siblingFitsContext id provider est sig res = true.

Lemma sibling_walk_spec failed md av ex aex est sig rsv ids same c :
  sibling_walk failed md av ex aex est sig rsv ids same = Some c ->
  (same = Some c \/ exists id p, id ∈ ids /\ sibling_ok failed md av ex aex est sig rsv id p /\ c = siblingDecisionFor failed md id p) /\
  (c.(Decision.Provider) = failed.(Decision.Provider) ->
   forall id p, id ∈ ids -> sibling_ok failed md av ex aex est sig rsv id p -> p = failed.(Decision.Provider)).
Proof.
  revert same; induction ids as [|id ids IH]; intros same; cbn [sibling_walk]; [split; [auto|set_solver]|].
  assert (Skip : sibling_walk failed md av ex aex est sig rsv ids same = Some c ->
    (forall p, ~ sibling_ok failed md av ex aex est sig rsv id p) ->
    (same = Some c \/ exists id0 p, id0 ∈ id :: ids /\ sibling_ok failed md av ex aex est sig rsv id0 p /\ c = siblingDecisionFor failed md id0 p) /\
    (c.(Decision.Provider) = failed.(Decision.Provider) ->
     forall id0 p, id0 ∈ id :: ids -> sibling_ok failed md av ex aex est sig rsv id0 p -> p = failed.(Decision.Provider))).
  { intros E N. destruct (IH same E) as [A B]. split.
    - destruct A as [A|(i & p & Hi & R)]; [auto|]. right. exists i, p. split; [right; exact Hi|exact R].
    - intros Ec i p [->|Hi]%elem_of_cons O; [destruct (N p O)|eauto]. }
  destruct (String.eqb_spec id ""); [intros E; apply Skip; [exact E|intros p (? & _); congruence]|].
  destruct (String.eqb_spec id failed.(Decision.Model)); [intros E; apply Skip; [exact E|intros p (_ & ? & _); congruence]|].
  cbn [orb]. destruct (in_opt_set id ex) eqn:E1; [intros E; apply Skip; [exact E|intros p (_ & _ & ? & _); congruence]|].
  destruct (in_opt_set id aex) eqn:E2; [intros E; apply Skip; [exact E|intros p (_ & _ & _ & ? & _); congruence]|].
  destruct (siblingProvider id _ av) as [prov|] eqn:E3; [|intros E; apply Skip; [exact E|intros p (_ & _ & _ & _ & ? & _); congruence]].
  destruct (siblingFitsContext id prov est sig rsv) eqn:E4; cbn [negb];
    [|intros E; apply Skip; [exact E|intros p (_ & _ & _ & _ & Ep & ?); congruence]].
  assert (O : sibling_ok failed md av ex aex est sig rsv id prov) by (repeat split; assumption).
  destruct (String.eqb_spec prov failed.(Decision.Provider)) as [Ep|Np].
  - intros E. destruct (IH _ E) as [A B]. split.
    + destruct A as [A|(i & p & Hi & R)]; [|right; exists i, p; split; [right; exact Hi|exact R]].
      destruct same; [auto|]. injection A as <-. right. exists id, prov. split; [left|auto].
    + intros Ec i p [->|Hi]%elem_of_cons O'; [|eauto]. destruct O' as (_ & _ & _ & _ & E' & _). congruence.
  - intros [= <-]. split; [right; exists id, prov; split; [left|auto]|]. cbn. congruence.
Qed.

(** The stand-in for an exhausted model is another model of the turn's own candidates,
    allowed by the request's exclusions, not withdrawn by a deployment-wide disable, large enough
    for the prompt, and without the failed model's arm; it stays on the failed provider only when
    no eligible candidate has another one. *)
Lemma siblingFailoverDecision_sound cfg ctx fc aex failed est sig rsv c :
  siblingFailoverDecision cfg ctx fc aex failed est sig rsv = Some c ->
  exists md, failed.(Decision.Metadata) = Some md /\
  c.(Decision.Model) ∈ siblingCandidateOrder md /\
  c.(Decision.Model) <> failed.(Decision.Model) /\
  in_opt_set c.(Decision.Model) (excludedModelsForRequest cfg ctx) = false /\
  in_opt_set c.(Decision.Model) aex = false /\
  siblingFitsContext c.(Decision.Model) c.(Decision.Provider) est sig rsv = true /\
  (Metadata.SelectedArmID <$> c.(Decision.Metadata)) = Some "" /\
  (c.(Decision.Provider) = failed.(Decision.Provider) ->
   forall id p, id ∈ siblingCandidateOrder md ->
   sibling_ok failed md (keyedProvidersExcluding cfg (list_to_set fc.(sessionDisabledProviders)))
     (excludedModelsForRequest cfg ctx) aex est sig rsv id p -> p = failed.(Decision.Provider)).
Proof.
  unfold siblingFailoverDecision. destruct failed.(Decision.Metadata) as [md|] eqn:Em; [|discriminate].
  destruct cfg.(deploymentKeyedProviders); [|discriminate]. intros E. exists md. split; [reflexivity|].
  apply sibling_walk_spec in E as [[|(id & p & Hid & O & ->)] B]; [discriminate|].
  pose proof O as (O1 & O2 & O3 & O4 & O5 & O6). cbn. repeat (split; [assumption || reflexivity|]). exact B.
Qed.
End BindingFacts.

(** ** Witnesses: two bindings, the first answering 503 after its prelude *)

Definition ex_client : Inner := {| headers := ∅; log := [] |}.
Definition ex_world : World := {| client := ex_client; buf := newPreludeBuffer ex_client; clock := 0 |}.
Definition ex_attempt (i sb : nat) (w : World) (d : Decision.t) : Attempt :=
  match i with
  | O => {| ops := [OWriteHeader 200; OWrite "event: message_start"; OSeal]; ends_at := Second;
            error := Some [UpstreamErrorResponse 503 "overloaded"] |}
  | S _ => {| ops := [OWriteHeader 200; OWrite "event: message_start"; OSeal; OWrite "hello"]; ends_at := 2 * Second;
              error := None |}
  end.
Definition ex_write_ok (_ : list Event) (_ : string) : bool := true.
Definition ex_sleep (w : World) (d : Z) : Z * bool := (w.(clock) + d, true).
Definition ex_bindings : list ProviderBinding := [primary_binding "aiand"; primary_binding "other"].
Definition ex_decision : Decision.t := Decision.set_Model "zai-org/glm-5.3" (Decision.set_Provider "aiand" Decision.zero).
Definition ex_dispatch : list ProviderBinding -> World -> Outcome :=
  @dispatchWithFallback ascii_unicode ex_write_ok true ex_attempt (fun _ => true) ex_sleep None false ex_decision.

(** The client sees the second attempt's stream once, and nothing of the first. *)
Lemma ex_dispatch_result :
  let '(w, n, e, tr) := ex_dispatch ex_bindings ex_world in
  n = 1 /\ e = None /\ length tr = 2%nat /\
  w.(client).(log) = [EHeader 200; EWrite "event: message_start"; EFlush; EWrite "hello"].
Proof. vm_compute. auto. Qed.


Lemma dispatch_attempts_clean_witness :
  let '(w', n, e, tr) := ex_dispatch ex_bindings ex_world in StronglySorted lt tr.*1.
Proof.
  pose proof (@dispatch_attempts_clean ascii_unicode ex_write_ok true ex_attempt (fun _ => true) ex_sleep None false
    ex_decision ex_bindings ex_world eq_refl) as P. unfold ex_dispatch.
  destruct (dispatchWithFallback _ _ _ _ _ _ _ _ _ _) as [[[w' n] e] tr]. refine (proj1 (proj2 (proj2 P)) _). cbn. lia.
Defined.

Lemma dispatch_failure_untouched_witness :
  let '(w', _, e, _) := ex_dispatch [primary_binding "aiand"] ex_world in
  forall er, e = Some er -> committed w' = true \/ w'.(client).(log) = [].
Proof.
  exact (@dispatch_failure_untouched ascii_unicode ex_write_ok true ex_attempt (fun _ => true) ex_sleep None false
    ex_decision [primary_binding "aiand"] ex_world eq_refl (or_introl eq_refl)).
Defined.

Definition ex_keyed : Config :=
  {| availableModels := None; excludedModelsOverride := None; deploymentKeyedProviders := Some {[ ProviderAiand ]} |}.
Definition ex_fc (disabled : list string) : FailoverCtx :=
  {| byokOnly := false; hasCredentials := false; externalKeys := []; sessionDisabledProviders := disabled |}.
Lemma disabled_provider_not_dispatched_witness :
  @resolveBindingsForDispatch ascii_unicode ex_keyed (ex_fc ["aiand"]) ex_decision = [] /\
  "aiand" ∉ (ex_fc ["other"]).(sessionDisabledProviders).
Proof.
  split; [vm_compute; reflexivity|].
  apply (@disabled_provider_not_dispatched ascii_unicode ex_keyed (ex_fc ["other"]) ex_decision (primary_binding "aiand"));
    [reflexivity|eexists; reflexivity|].
  assert (E : @resolveBindingsForDispatch ascii_unicode ex_keyed (ex_fc ["other"]) ex_decision = [primary_binding "aiand"])
    by (vm_compute; reflexivity).
  rewrite E. left.
Defined.

Definition ex_failed : Decision.t :=
  Decision.set_Metadata (Some (Metadata.set_PairedModel "moonshotai/kimi-k3" Metadata.zero)) ex_decision.
Lemma siblingFailoverDecision_sound_witness : exists c,
  @siblingFailoverDecision ascii_unicode ex_keyed ex_ctx (ex_fc []) None (Decision.set_Model "qwen/qwen3.8-27b" ex_failed) 0 0 0 = None /\
  @siblingFailoverDecision ascii_unicode ex_keyed
    {| ctx_strategy := None; InstallationExcluded := []; InstallationAllowed := []; RequestAllowed := None |}
    (ex_fc []) None ex_failed 1000 0 8000 = Some c /\ c.(Decision.Model) <> "zai-org/glm-5.3".
Proof.
  destruct (@siblingFailoverDecision ascii_unicode ex_keyed
    {| ctx_strategy := None; InstallationExcluded := []; InstallationAllowed := []; RequestAllowed := None |}
    (ex_fc []) None ex_failed 1000 0 8000) as [c|] eqn:E; [|exfalso; revert E; vm_compute; discriminate].
  exists c. split; [vm_compute; reflexivity|]. split; [reflexivity|].
  destruct (@siblingFailoverDecision_sound ascii_unicode _ _ _ _ _ _ _ _ _ E) as (md & _ & _ & N & _). exact N.
Defined.

(** After [Seal], a status alone does not commit. *)
Lemma seal_then_header_not_committed :
  let '(b, w) := run_ops ex_write_ok true [OSeal; OWriteHeader 200] (newPreludeBuffer ex_client, ex_client) in
  b.(is_committed) = false /\ w.(log) = [].
Proof. vm_compute. auto. Qed.

(** A schema rejection does not move on to the next binding. *)
Lemma schema_rejection_stays : exists e,
  @IsUpstreamSchemaRejection ascii_unicode e = true /\ can_failover e = false.
Proof. exists [UpstreamErrorResponse 400 "Conflict in schema definitions"]. vm_compute. auto. Qed.
