(* ===== verification/PinPolicy.v ===== *)
(** How the proxy uses session pins: the pin helpers of internal/proxy/turnloop.go,
    pin_strategy.go, pin_eviction.go, provider_overload.go and command_continuation.go.

    The handlers are programs over any store that implements the contract of [PinStore].  A
    program reads the clock once per handler; [strat] is the strategy stashed on the request
    context and [pinStore_set] says whether the service was given a store at all. *)

From stdpp Require Import base gmap sets list strings.
From Stdlib Require Import ZArith Lia Ascii SpecFloat.
From S2P Require Import Prelude Floats Types Catalog PinStore ForceNames Reasoning Exclusions Upstream.
Open Scope string_scope.
Open Scope Z_scope.

(** ** Programs over a store *)

Definition Prog (S A : Type) : Type := Z -> S -> S * A.
Definition ret {S A : Type} (a : A) : Prog S A := fun _ s => (s, a).
Definition bind {S A B : Type} (m : Prog S A) (f : A -> Prog S B) : Prog S B :=
  fun now s => let '(s', a) := m now s in f a now s'.
Definition clock_now {S : Type} : Prog S Z := fun now s => (s, now).
Declare Scope prog_scope.
Delimit Scope prog_scope with prog.
Notation "'let*' x ':=' m 'in' k" := (bind m (fun x => k))
  (at level 10, x pattern, m at level 100, k at level 200) : prog_scope.
Open Scope prog_scope.

(** ** Pure helpers (turnloop.go, service.go) *)

Definition pinSessionTTL : Z := Hour.
(** 9999-01-01 UTC. *)
Definition pinNeverExpires : Z := 3651694 * (24 * Hour).
Definition pinExpiry (now : Z) (reason : string) : Z :=
  if isUserForcedReason reason then pinNeverExpires else now + pinSessionTTL.
Definition prevTurnMaxedOutThreshold : Z := 8000.
Definition DefaultCacheTTL : Z := 5 * Minute.

Definition isPinnedDecisionReason (reason : string) : bool :=
  (isUserForcedReason reason || String.eqb reason ReasonLoopEscalation
   || String.eqb reason ReasonStruggleEscalation)%bool.

Definition addToSet (set : option (gset string)) (model : string) : gset string :=
  {[ model ]} ∪ default ∅ set.
Definition mergeDisabledProviders (a b : list string) : list string :=
  match a, b with
  | [], _ => b
  | _, [] => a
  | _, _ => foldl (fun out p => if bool_decide (p ∈ out) then out else (out ++ [p])%list) [] (a ++ b)%list
  end.
Definition cacheWarm (now : Z) (pin : Pin.t) : bool :=
  if IsZero pin.(Pin.LastTurnEndedAt) then false
  else Sub now pin.(Pin.LastTurnEndedAt) <? DefaultCacheTTL.
Definition pinCacheCold (now : Z) (pin : Pin.t) (prefixBroken : bool) : bool :=
  (negb (cacheWarm now pin) || prefixBroken)%bool.
Definition cacheablePrefixTokens (pin : Pin.t) (total : Z) (prefixBroken : bool) : Z * bool :=
  if prefixBroken then (0, true)
  else
    let cached := wrap64 (pin.(Pin.LastCachedReadTokens) + pin.(Pin.LastCachedWriteTokens)) in
    let prior := pin.(Pin.LastInputTokens) in
    if prior <=? 0 then (0, false)
    else
      let share := f_min (f64_of_Z 1) (f64_div (f64_of_Z cached) (f64_of_Z prior)) in
      (f64_to_int (f64_mul share (f64_of_Z total)), true).

Definition hmmHistoryRole (role : string) : string :=
  (if String.eqb role "" then DefaultRole else role) +:+ "_hmm_history".
Definition roleForTier (t : Tier) : string :=
  match t with
  | TierLow => DefaultRole +:+ "_low"
  | TierMid => DefaultRole +:+ "_mid"
  | TierHigh => DefaultRole +:+ "_high"
  | TierUnknown => DefaultRole
  end.
Definition baseModelOf (servedIdentity : string) : string :=
  match LastIndexByte servedIdentity ":"%char with
  | Some (S n) => str_take (S n) servedIdentity
  | _ => servedIdentity
  end.
Definition maxedOutServedModel (pin : Pin.t) : string :=
  if pin.(Pin.LastOutputTokens) <? prevTurnMaxedOutThreshold then ""
  else baseModelOf (if String.eqb pin.(Pin.LastServedModel) "" then pin.(Pin.Model) else pin.(Pin.LastServedModel)).
Definition pinDecision (p : Pin.t) : Decision.t :=
  {| Decision.Provider := p.(Pin.Provider); Decision.Model := p.(Pin.Model); Decision.Effort := "";
     Decision.Reason := p.(Pin.Reason); Decision.Metadata := None |}.
Definition decisionPolicyGroup (d : Decision.t) : string :=
  match d.(Decision.Metadata) with Some md => md.(Metadata.PolicyGroup) | None => "" end.
Definition estimateSummaryTokens (s : string) : Z := len s / 4.

Definition pinMatchesEffectiveStrategy (strat : option string) (pin : Pin.t) : bool :=
  if isUserForcedReason pin.(Pin.Reason) then true
  else
    let expected := StrategyFromContext strat in
    if String.eqb pin.(Pin.Strategy) expected then true
    else (String.eqb pin.(Pin.Strategy) "" && negb (String.eqb expected StrategyHMMBeta))%bool.
Definition strategyForTurnLoopResult (resStrategy : string) (decision fresh : Decision.t) : string :=
  let of_decision d := match d.(Decision.Metadata) with Some md => md.(Metadata.Strategy) | None => "" end in
  if negb (String.eqb resStrategy "") then resStrategy
  else if negb (String.eqb (of_decision decision) "") then of_decision decision
  else if negb (String.eqb (of_decision fresh) "") then of_decision fresh
  else StrategyCluster.

(** The most recent model served over the pins given, and whether the session ever switched. *)
Definition history_step (acc : Pin.t * bool * string) (pin : Pin.t) : Pin.t * bool * string :=
  let '(latest, switched, seen) := acc in
  let switched := (switched || pin.(Pin.HasEverSwitched))%bool in
  if String.eqb pin.(Pin.LastServedModel) "" then (latest, switched, seen)
  else
    let switched := (switched || (negb (String.eqb seen "") && negb (String.eqb seen pin.(Pin.LastServedModel))))%bool in
    let latest := if (String.eqb latest.(Pin.LastServedModel) ""
                      || After pin.(Pin.LastTurnEndedAt) latest.(Pin.LastTurnEndedAt))%bool
                  then pin else latest in
    (latest, switched, pin.(Pin.LastServedModel)).
Definition switchHistoryFromPins (pins : list Pin.t) : string * bool :=
  let '(latest, switched, _) := foldl history_step (Pin.zero, false, "") pins in
  (latest.(Pin.LastServedModel), switched).

(** [router.PolicyTurnContext]. *)
Record PolicyTurnContext := {
  VisibleTurnIndex : Z;
  SessionTurnCount : Z;
  ctx_TurnType : string;
  PreviousServedModel : string;
  PreviousProvider : string;
  CacheState : string;
  PriorOutputTokens : option Z;
  SessionEverSwitched : bool;
  ctx_HistoryTruncated : bool
}.
(** The fields of the turn's result read here. *)
Record TurnEvidence := { PrefixTrimmed : bool; PriorServedModel : string; ev_SessionEverSwitched : bool; TurnType : string }.
(** [userTurns] counts the messages whose role folds to [user]. *)
Definition buildPolicyTurnContext (now : Z) (userTurns : Z) (historyTruncated : bool) (res : TurnEvidence)
    (activePin hmmHistory : Pin.t) : PolicyTurnContext :=
  let previous :=
    if (negb (String.eqb hmmHistory.(Pin.LastServedModel) "")
        && (String.eqb activePin.(Pin.LastServedModel) ""
            || After hmmHistory.(Pin.LastTurnEndedAt) activePin.(Pin.LastTurnEndedAt)))%bool
    then hmmHistory else activePin in
  let ended := negb (IsZero previous.(Pin.LastTurnEndedAt)) in
  {| VisibleTurnIndex := Z.max (userTurns - 1) 0;
     SessionTurnCount := Z.max activePin.(Pin.TurnCount) hmmHistory.(Pin.TurnCount);
     ctx_TurnType := res.(TurnType);
     PreviousServedModel := res.(PriorServedModel);
     PreviousProvider := if String.eqb res.(PriorServedModel) "" then "" else previous.(Pin.Provider);
     CacheState := if ended then
                     if (cacheWarm now previous && negb res.(PrefixTrimmed) && negb historyTruncated)%bool
                     then "warm" else "cold"
                   else "unknown";
     PriorOutputTokens := if ended then Some previous.(Pin.LastOutputTokens) else None;
     SessionEverSwitched := res.(ev_SessionEverSwitched);
     ctx_HistoryTruncated := (historyTruncated || res.(PrefixTrimmed))%bool |}.

Section Policy.
Context `{GoUnicode}.

Definition pinServesImages (pin : Pin.t) (req : Request.t) : bool :=
  (negb req.(Request.HasImages) || AcceptsImages pin.(Pin.Model))%bool.
Definition excludingModel (excluded : option (gset string)) (model : string) : option (gset string) :=
  if in_opt_set model excluded then excluded else Some ({[ model ]} ∪ default ∅ excluded).
Definition pinEligible (pin : Pin.t) (req : Request.t) : bool :=
  if (String.eqb pin.(Pin.Model) "" || String.eqb pin.(Pin.Provider) "")%bool then false
  else if in_opt_set pin.(Pin.Model) req.(Request.ExcludedModels) then false
  else if negb (pinServesImages pin req) then false
  else match req.(Request.EnabledProviders) with
       | None => true
       | Some enabled => in_set pin.(Pin.Provider) enabled
       end.
Definition automaticallyDisabled (req : Request.t) (model : string) : bool :=
  in_opt_set model req.(Request.AutomaticExcludedModels).
Definition automaticPinEligible (pin : Pin.t) (req : Request.t) : bool :=
  (pinEligible pin req && negb (automaticallyDisabled req pin.(Pin.Model)))%bool.
Definition forcedPinEligible (pin : Pin.t) (req : Request.t) : bool := pinEligible pin req.
Definition forcedPinIneligibilityReason (pin : Pin.t) (req : Request.t) : string :=
  if match req.(Request.EnabledProviders) with
     | Some enabled => negb (in_set pin.(Pin.Provider) enabled)
     | None => false
     end then "provider_not_enabled"
  else if negb (pinServesImages pin req) then "not_image_capable"
  else "excluded".

(** The copy leaves out [Strategy], as the source's composite literal does. *)
Definition canonicalizePinModels (pin : Pin.t) : Pin.t :=
  Pin.set_Strategy ""
    (Pin.set_Model (CanonicalModel pin.(Pin.Model))
      (Pin.set_PairedModel (CanonicalModel pin.(Pin.PairedModel))
        (Pin.set_LastServedModel (CanonicalModel pin.(Pin.LastServedModel)) pin))).

(** ** Loading and writing pins *)

Context {S : Type} `{PinStore S}.
Variable strat : option string.
Variable pinStore_set : bool.

(** (pin, found): an expired pin comes back for its history, not found. *)
Definition loadPin (key role : string) : Prog S (Pin.t * bool) :=
  let* r := Get key role in
  let* now := clock_now in
  match r with
  | Err _ | Ok None => ret (Pin.zero, false)
  | Ok (Some pin) =>
      if negb (pinMatchesEffectiveStrategy strat pin) then ret (Pin.zero, false)
      else if negb (After pin.(Pin.PinnedUntil) now) then ret (pin, false)
      else ret (canonicalizePinModels pin, true)
  end.
Definition loadHMMHistory (key role : string) : Prog S Pin.t :=
  let* r := Get key (hmmHistoryRole role) in
  match r with
  | Err _ | Ok None => ret Pin.zero
  | Ok (Some pin) => if negb (pinMatchesEffectiveStrategy strat pin) then ret Pin.zero
                     else ret (canonicalizePinModels pin)
  end.
Definition upsertPin (p : Pin.t) : Prog S unit :=
  let p := if String.eqb p.(Pin.Strategy) "" then Pin.set_Strategy (StrategyFromContext strat) p else p in
  let* _ := Upsert p in ret tt.

(** A pin row with the given routing fields and zero usage. *)
Definition new_pin (key role installationID provider model pairedProvider pairedModel reason strategy group : string)
    (until : Z) : Pin.t :=
  {| Pin.SessionKey := key; Pin.Role := role; Pin.InstallationID := installationID;
     Pin.Provider := provider; Pin.Model := model; Pin.PairedProvider := pairedProvider;
     Pin.PairedModel := pairedModel; Pin.Reason := reason; Pin.Strategy := strategy;
     Pin.PolicyGroup := group; Pin.TurnCount := 1; Pin.PinnedUntil := until; Pin.FirstPinnedAt := 0;
     Pin.LastSeenAt := 0; Pin.LastInputTokens := 0; Pin.LastCachedReadTokens := 0;
     Pin.LastCachedWriteTokens := 0; Pin.LastOutputTokens := 0; Pin.LastTurnEndedAt := 0;
     Pin.ConsecutiveUpstreamErrors := 0; Pin.LastServedModel := ""; Pin.HasEverSwitched := false;
     Pin.ConsecutiveOverloadErrors := 0; Pin.DisabledProviders := [] |}.
Definition refreshPin (installationID key : string) (existing : Pin.t) (role : string) (chosen : Decision.t) : Prog S unit :=
  if String.eqb installationID uuid_Nil then ret tt
  else
    let* now := clock_now in
    let p := new_pin key role installationID chosen.(Decision.Provider) chosen.(Decision.Model)
               existing.(Pin.PairedProvider) existing.(Pin.PairedModel) chosen.(Decision.Reason)
               (StrategyFromContext strat) existing.(Pin.PolicyGroup) (pinExpiry now chosen.(Decision.Reason)) in
    upsertPin {| Pin.SessionKey := key; Pin.Role := role; Pin.InstallationID := installationID;
                 Pin.Provider := p.(Pin.Provider); Pin.Model := p.(Pin.Model);
                 Pin.PairedProvider := p.(Pin.PairedProvider); Pin.PairedModel := p.(Pin.PairedModel);
                 Pin.Reason := p.(Pin.Reason); Pin.Strategy := p.(Pin.Strategy);
                 Pin.PolicyGroup := p.(Pin.PolicyGroup); Pin.TurnCount := 1;
                 Pin.PinnedUntil := p.(Pin.PinnedUntil); Pin.FirstPinnedAt := 0; Pin.LastSeenAt := 0;
                 Pin.LastInputTokens := existing.(Pin.LastInputTokens);
                 Pin.LastCachedReadTokens := existing.(Pin.LastCachedReadTokens);
                 Pin.LastCachedWriteTokens := existing.(Pin.LastCachedWriteTokens);
                 Pin.LastOutputTokens := existing.(Pin.LastOutputTokens);
                 Pin.LastTurnEndedAt := existing.(Pin.LastTurnEndedAt);
                 Pin.ConsecutiveUpstreamErrors := 0;
                 Pin.LastServedModel := existing.(Pin.LastServedModel); Pin.HasEverSwitched := false;
                 Pin.ConsecutiveOverloadErrors := 0; Pin.DisabledProviders := [] |}.
Definition writeNewPin (installationID key role : string) (chosen : Decision.t) : Prog S unit :=
  let '(pairedProvider, pairedModel) :=
    match chosen.(Decision.Metadata) with
    | Some md => (md.(Metadata.PairedProvider), md.(Metadata.PairedModel))
    | None => ("", "")
    end in
  if String.eqb installationID uuid_Nil then ret tt
  else
    let* now := clock_now in
    upsertPin (new_pin key role installationID chosen.(Decision.Provider) chosen.(Decision.Model)
                 pairedProvider pairedModel chosen.(Decision.Reason) (StrategyFromContext strat)
                 (decisionPolicyGroup chosen) (pinExpiry now chosen.(Decision.Reason))).

(** ** Post-command continuations (command_continuation.go) *)

Definition commandContinuationRole (role : string) : string :=
  (if String.eqb role "" then DefaultRole else role) +:+ "_cmd_next".
Definition grantPostCommandContinuation (installationID key role : string) : Prog S unit :=
  if (negb pinStore_set || String.eqb installationID uuid_Nil)%bool then ret tt
  else
    let* (pin, found) := loadPin key role in
    if (negb found || String.eqb pin.(Pin.Model) "" || String.eqb pin.(Pin.Provider) ""
        || isUserForcedReason pin.(Pin.Reason))%bool then ret tt
    else if negb (String.eqb (maxedOutServedModel pin) "") then ret tt
    else
      let* now := clock_now in
      upsertPin (Pin.set_PinnedUntil (pinExpiry now pin.(Pin.Reason))
        (Pin.set_TurnCount 1 (Pin.set_Strategy (StrategyFromContext strat)
          (Pin.set_InstallationID installationID (Pin.set_Role (commandContinuationRole role) pin))))).
Definition consumePostCommandContinuation (key role : string) : Prog S (Pin.t * bool) :=
  if negb pinStore_set then ret (Pin.zero, false)
  else
    let* r := Consume key (commandContinuationRole role) (StrategyFromContext strat) in
    match r with
    | Err _ => ret (Pin.zero, false)
    | Ok None => ret (Pin.zero, false)
    | Ok (Some pin) => if negb (pinMatchesEffectiveStrategy strat pin) then ret (Pin.zero, false)
                       else ret (pin, true)
    end.
Definition invalidatePostCommandContinuation (key role : string) : Prog S (res string unit) :=
  if negb pinStore_set then ret (Ok tt)
  else
    let* r := Consume key (commandContinuationRole role) (StrategyFromContext strat) in
    match r with
    | Ok _ => ret (Ok tt)
    | Err e => ret (Err e)
    end.

(** ** Eviction (pin_eviction.go) *)

Definition pinEvictionStrikeThreshold : Z := 2.
Definition expireSessionPinRow (installationID key role reason : string) (invalidateContinuation : bool) :
    Prog S (res string unit) :=
  let* now := clock_now in
  let* r := Upsert (new_pin key role installationID "" "" "" "" reason (StrategyFromContext strat) "" (now - Second)) in
  match r with
  | Err e => ret (Err e)
  | Ok _ => if invalidateContinuation then invalidatePostCommandContinuation key role else ret (Ok tt)
  end.
Definition expireSessionPin (installationID key role reason : string) : Prog S (res string unit) :=
  expireSessionPinRow installationID key role reason true.
Definition expireSessionPinAndHMMHistory (installationID key role reason : string) : Prog S (res string unit) :=
  let* r := expireSessionPin installationID key role reason in
  match r with
  | Err e => ret (Err e)
  | Ok _ =>
      let historyRole := hmmHistoryRole role in
      if String.eqb historyRole role then ret (Ok tt)
      else expireSessionPinRow installationID key historyRole reason false
  end.
(** The guards the eviction handlers share: no addressable row, or a pin the user forced. *)
Definition no_automatic_eviction (stickyHit : bool) (decisionReason installationID key : string) : bool :=
  (negb stickyHit || negb pinStore_set || String.eqb installationID uuid_Nil
   || String.eqb key zero_session_key || isUserForcedReason decisionReason)%bool.
Definition evictPinAfterDegenerateResponse (stickyHit : bool) (decisionReason installationID key role : string) : Prog S unit :=
  if no_automatic_eviction stickyHit decisionReason installationID key then ret tt
  else let* _ := expireSessionPin installationID key role "degenerate_response" in ret tt.
Definition maybeExpireDeadArmPin (deadArmRejected : bool) (decisionReason installationID key role : string) : Prog S unit :=
  if no_automatic_eviction deadArmRejected decisionReason installationID key then ret tt
  else let* _ := expireSessionPin installationID key role "dead_arm_rejected" in ret tt.
Definition maybeEvictPinAfterUpstreamErr (stickyHit : bool) (proxyErr : option GoError)
    (decisionReason installationID key role : string) : Prog S unit :=
  if no_automatic_eviction stickyHit decisionReason installationID key then ret tt
  else
    match proxyErr with
    | None => let* _ := ResetUpstreamErrors key role (StrategyFromContext strat) in ret tt
    | Some e =>
        let status := upstreamStatus e in
        if status =? 0 then ret tt
        else if IsRetryableStatus status then ret tt
        else
          let* r := IncrementUpstreamErrors key role (StrategyFromContext strat) in
          match r with
          | Err _ => ret tt
          | Ok count =>
              if count <? pinEvictionStrikeThreshold then ret tt
              else let* _ := expireSessionPin installationID key role "upstream_error_strike_threshold" in ret tt
          end
    end.

(** ** Overload (provider_overload.go) *)

Definition providerOverloadedStatus : Z := 529.
Definition providerOverloadStrikeThreshold : Z := 2.
Definition maybeDisableProviderAfterOverload (stickyHit : bool) (proxyErr : option GoError)
    (finalProvider decisionReason installationID key role pinRole : string) : Prog S unit :=
  if no_automatic_eviction stickyHit decisionReason installationID key then ret tt
  else
    match proxyErr with
    | None => let* _ := ResetOverloadErrors key role (StrategyFromContext strat) in ret tt
    | Some e =>
        if negb (upstreamStatus e =? providerOverloadedStatus) then ret tt
        else
          let* r := IncrementOverloadErrors key role (StrategyFromContext strat) in
          match r with
          | Err _ => ret tt
          | Ok count =>
              if count <? providerOverloadStrikeThreshold then ret tt
              else
                let* r := DisableProvider key role finalProvider (StrategyFromContext strat) in
                match r with
                | Err _ => ret tt
                | Ok _ =>
                    let pinRole := if String.eqb pinRole "" then DefaultRole else pinRole in
                    let* _ := expireSessionPinAndHMMHistory installationID key pinRole "provider_overloaded" in ret tt
                end
          end
    end.
End Policy.

(** ** Facts: history *)

(** One model accounts for everything the pins say was served. *)
Definition one_model (m : string) (pins : list Pin.t) : Prop :=
  Forall (fun p => p.(Pin.HasEverSwitched) = false /\
                   (p.(Pin.LastServedModel) = "" \/ p.(Pin.LastServedModel) = m)) pins.

Lemma history_switched pins latest sw seen :
  (foldl history_step (latest, sw, seen) pins).1.2 = false <->
  sw = false /\ exists m, (seen = "" \/ seen = m) /\ one_model m pins.
Proof.
  unfold one_model. revert latest sw seen; induction pins as [|x pins IH]; intros latest sw seen; cbn [foldl].
  { cbn. split; [intros ->; split; [reflexivity|exists seen; auto]|tauto]. }
  unfold history_step at 2. destruct (String.eqb_spec x.(Pin.LastServedModel) "") as [Ex|Nx].
  - rewrite IH, orb_false_iff. setoid_rewrite Forall_cons. rewrite Ex.
    split; [intros [[-> ?] (m & ? & ?)]|intros [-> (m & ? & (? & _) & ?)]]; eauto 10.
  - rewrite IH, !orb_false_iff, andb_false_iff, !negb_false_iff, !String.eqb_eq. setoid_rewrite Forall_cons.
    split.
    + intros [[[-> Hx] Hs] (m & [E|E] & F)]; [congruence|]. split; [reflexivity|].
      exists m. rewrite <- E in *. auto.
    + intros [-> (m & Hs & (Hx & [E|E]) & F)]; [congruence|]. split; [split; [auto|]|eauto].
      destruct Hs as [Hs|Hs]; [auto|right; congruence].
Qed.

Lemma history_latest pins latest sw seen :
  let l := (foldl history_step (latest, sw, seen) pins).1.1 in
  (l = latest \/ (l ∈ pins /\ l.(Pin.LastServedModel) <> "")) /\
  (forall p, p = latest \/ p ∈ pins -> p.(Pin.LastServedModel) <> "" ->
     l.(Pin.LastServedModel) <> "" /\ p.(Pin.LastTurnEndedAt) <= l.(Pin.LastTurnEndedAt)).
Proof.
  revert latest sw seen; induction pins as [|x pins IH]; intros latest sw seen; cbn [foldl].
  { cbn. split; [auto|]. intros p [->|Hp] N; [split; [assumption|lia]|inversion Hp]. }
  remember (history_step (latest, sw, seen) x) as acc eqn:Ea. unfold history_step in Ea.
  destruct (String.eqb_spec x.(Pin.LastServedModel) "") as [Ex|Nx].
  - subst acc. destruct (IH latest (sw || x.(Pin.HasEverSwitched))%bool seen) as [A B]. split.
    + destruct A as [|[]]; [auto|right; split; [right; assumption|assumption]].
    + intros p [Hp|[Hp|Hp]%elem_of_cons] N; [auto|subst; congruence|auto].
  - set (latest' := if (_ || _)%bool then x else latest) in Ea. set (sw' := (_ || _)%bool) in Ea. subst acc.
    destruct (IH latest' sw' x.(Pin.LastServedModel)) as [A B].
    assert (Hl : latest' = x /\ (latest.(Pin.LastServedModel) <> "" -> latest.(Pin.LastTurnEndedAt) <= x.(Pin.LastTurnEndedAt)) \/
                 latest' = latest /\ latest.(Pin.LastServedModel) <> "" /\ x.(Pin.LastTurnEndedAt) <= latest.(Pin.LastTurnEndedAt)).
    { unfold latest', After. destruct (String.eqb_spec latest.(Pin.LastServedModel) ""); cbn; [left; split; [auto|tauto]|].
      destruct (Z.ltb_spec latest.(Pin.LastTurnEndedAt) x.(Pin.LastTurnEndedAt)); [left|right]; split; auto; lia. }
    split.
    + destruct A as [A|[]]; [|right; split; [right; assumption|assumption]].
      destruct Hl as [[Hl _]|[Hl _]]; [right|left; congruence]. rewrite A, Hl. split; [left|exact Nx].
    + assert (Bl : latest'.(Pin.LastServedModel) <> "") by (destruct Hl as [[-> _]|(-> & ? & _)]; assumption).
      destruct (B latest' (or_introl eq_refl) Bl) as [L1 L2].
      intros p Hp N. destruct Hp as [->|Hp]; [|apply elem_of_cons in Hp as [->|Hp]; [|auto]]; (split; [exact L1|]).
      * etrans; [|exact L2]. destruct Hl as [[E Hl]|(E & _ & _)]; rewrite E; [auto|lia].
      * etrans; [|exact L2]. destruct Hl as [[E _]|(E & _ & Hl)]; rewrite E; [lia|exact Hl].
Qed.

(** The session counts as never switched exactly when one model accounts for every
    row's history and no row says otherwise; the model reported is that of the row whose turn
    ended last among those that served one. *)
Lemma switchHistoryFromPins_spec pins :
  let '(model, switched) := switchHistoryFromPins pins in
  (switched = false <-> exists m, one_model m pins) /\
  ((model = "" /\ Forall (fun p => p.(Pin.LastServedModel) = "") pins) \/
   exists l, l ∈ pins /\ l.(Pin.LastServedModel) = model /\ model <> "" /\
     forall p, p ∈ pins -> p.(Pin.LastServedModel) <> "" -> p.(Pin.LastTurnEndedAt) <= l.(Pin.LastTurnEndedAt)).
Proof.
  unfold switchHistoryFromPins. pose proof (history_switched pins Pin.zero false "") as S1.
  pose proof (history_latest pins Pin.zero false "") as S2.
  destruct (foldl _ _ pins) as [[l s] z]. cbn in S1, S2. destruct S2 as [A B]. split.
  - rewrite S1. split; [intros [_ (m & _ & F)]; eauto|intros [m F]; split; [reflexivity|eauto]].
  - destruct A as [->|[Hl N]].
    + left. split; [reflexivity|]. apply Forall_forall. intros p Hp. destruct (decide (p.(Pin.LastServedModel) = "")); [assumption|].
      destruct (B p (or_intror Hp)) as [C _]; [assumption|]. cbn in C. congruence.
    + right. exists l. split; [exact Hl|]. split; [reflexivity|]. split; [exact N|].
      intros p Hp Np. exact (proj2 (B p (or_intror Hp) Np)).
Qed.

(** ** Facts: any store that keeps the contract *)

Section Laws.
Context `{GoUnicode} {S : Type} `{PinStoreLaws S}.
Variable strat : option string.
Variable pinStore_set : bool.

(** A pin that is served is a stored, unexpired row of the effective strategy (or a user's
    force), under canonical model names; loading never changes the rows. *)
Lemma loadPin_sound key role now s s' pin :
  loadPin strat key role now s = (s', (pin, true)) ->
  view s' = view s /\
  exists p, view s !! (key, role) = Some p /\ now < p.(Pin.PinnedUntil) /\
    pinMatchesEffectiveStrategy strat p = true /\
    pin.(Pin.Model) = CanonicalModel p.(Pin.Model) /\ pin.(Pin.Provider) = p.(Pin.Provider) /\
    pin.(Pin.DisabledProviders) = p.(Pin.DisabledProviders).
Proof.
  unfold loadPin, bind, clock_now. destruct (Get key role now s) as [s1 r] eqn:Eg.
  destruct r as [[p|]|]; [|discriminate..].
  destruct (Get_ok _ _ _ _ _ _ Eg) as [Ep Ev].
  destruct (negb (pinMatchesEffectiveStrategy strat p)) eqn:Em; [discriminate|].
  destruct (negb (After p.(Pin.PinnedUntil) now)) eqn:Ea; [discriminate|]. intros [= <- <-].
  apply negb_false_iff in Em, Ea. unfold After in Ea. apply Z.ltb_lt in Ea.
  split; [exact Ev|]. exists p. cbn. auto 10.
Qed.

(** A continuation granted after a command is served at most once: when one request
    has taken it, the next one, of any strategy, finds none. *)
Lemma continuation_one_shot strat' key role now now' s s1 s2 pin r :
  consumePostCommandContinuation strat pinStore_set key role now s = (s1, (pin, true)) ->
  consumePostCommandContinuation strat' pinStore_set key role now' s1 = (s2, r) ->
  r = (Pin.zero, false).
Proof.
  unfold consumePostCommandContinuation, bind. destruct pinStore_set; [cbn [negb]|discriminate].
  destruct (Consume key (commandContinuationRole role) (StrategyFromContext strat) now s) as [sa ra] eqn:Ea.
  destruct ra as [[p|]|]; [|discriminate..]. destruct (Consume_some _ _ _ _ _ _ _ Ea) as (_ & _ & V).
  destruct (negb _); [discriminate|]. intros [= -> ->].
  destruct (Consume key (commandContinuationRole role) (StrategyFromContext strat') now' s1) as [sb rb] eqn:Eb.
  destruct rb as [[q|]|]; [|intros [= _ <-]; reflexivity..].
  destruct (Consume_some _ _ _ _ _ _ _ Eb) as (L & _ & _). apply select_for_lookup in L.
  rewrite V, lookup_delete_eq in L. discriminate.
Qed.
End Laws.

(** ** Facts: the Postgres table *)

Lemma role_ne_suffix (role suffix : string) : suffix <> "" -> role <> role +:+ suffix.
Proof.
  intros N E. apply (f_equal String.length) in E. rewrite str_length_app in E.
  destruct suffix; [congruence|]. cbn in E. lia.
Qed.
Lemma default_role_ne role suffix : suffix <> "" -> role <> (if String.eqb role "" then DefaultRole else role) +:+ suffix.
Proof.
  intros N. destruct (String.eqb_spec role ""); [subst; discriminate|]. apply role_ne_suffix, N.
Qed.
Lemma pg_time_le t : pg_time t <= t.
Proof. unfold pg_time. pose proof (Z.mul_div_le t 1000). lia. Qed.

(** Every role the proxy writes fits its column, except the continuation of a history row,
    which is why clearing a history row does not touch a continuation. *)
Lemma roles_fit t :
  fits 32 (roleForTier t) /\ fits 32 (hmmHistoryRole (roleForTier t)) /\
  fits 32 (commandContinuationRole (roleForTier t)) /\
  ~ fits 32 (commandContinuationRole (hmmHistoryRole (roleForTier TierHigh))).
Proof. destruct t; vm_compute; repeat split; discriminate. Qed.

Section Table.
Context `{GoUnicode}.
Variable strat : option string.
Abbreviation sigma := (StrategyFromContext strat).

(** The row an expiry leaves. *)
Definition expired_row (db db' : gmap (string * string) Pin.t) (now : Z) (key role reason : string) : Prop :=
  exists q, db' !! (key, role) = Some q /\ q.(Pin.PinnedUntil) = pg_time (now - Second) /\
    q.(Pin.Reason) = reason /\ q.(Pin.Strategy) = sigma /\
    forall p, db !! (key, role) = Some p -> p.(Pin.Strategy) = sigma ->
      q.(Pin.DisabledProviders) = p.(Pin.DisabledProviders).

Lemma invalidate_other key role now db k r : (k, r) <> (key, commandContinuationRole role) ->
  (invalidatePostCommandContinuation strat true key role now db).1 !! (k, r) = db !! (k, r) /\
  (invalidatePostCommandContinuation strat true key role now db).2 = Ok tt.
Proof.
  intros N. unfold invalidatePostCommandContinuation, bind, ret. cbn [negb Consume SessionPinRepo].
  unfold repo_Consume. destruct (select_for _ _ _ db) as [p|]; [|auto]. destruct (_ <? _); [|auto].
  cbn. rewrite lookup_delete_ne by congruence. auto.
Qed.

Lemma expire_row inst key role reason inv now db :
  fits 32 role -> fits 32 sigma -> (forall p, db !! (key, role) = Some p -> p.(Pin.TurnCount) < max_int32) ->
  let '(db', r) := expireSessionPinRow strat true inst key role reason inv now db in
  expired_row db db' now key role reason /\ r = Ok tt /\
  (forall k r, (k, r) <> (key, role) -> (inv = true -> (k, r) <> (key, commandContinuationRole role)) ->
     db' !! (k, r) = db !! (k, r)).
Proof.
  intros Fr Fs Ft. unfold expireSessionPinRow, bind, clock_now, ret.
  set (p := new_pin key role inst "" "" "" "" reason sigma "" (now - Second)).
  assert (Fp : pin_fits p) by (unfold pin_fits, fits in *; cbn; auto 10).
  destruct (repo_Upsert_succeeds p now db Fp Ft) as [db1 E1]. cbn [Upsert SessionPinRepo]. rewrite E1.
  destruct (@Upsert_ok _ SessionPinRepo SessionPinRepo_laws p now db db1 Fp E1) as (q & U & V). cbn [view SessionPinRepo_laws] in V, U.
  assert (X : forall db', db' !! (key, role) = db1 !! (key, role) -> expired_row db db' now key role reason).
  { intros db' E. exists q. rewrite E, V. cbn. rewrite lookup_insert_eq. destruct (up_decision _ _ _ _ U) as (_ & _ & Hr & Hs).
    split; [reflexivity|]. split; [exact (up_until _ _ _ _ U)|]. split; [exact Hr|]. split; [exact Hs|].
    intros o Eo Es. exact (proj1 (up_same_strategy _ _ _ _ U o Eo Es)). }
  assert (Y : forall k r, (k, r) <> (key, role) -> db1 !! (k, r) = db !! (k, r)).
  { intros k r N. rewrite V. cbn. apply lookup_insert_ne. congruence. }
  destruct inv; cbn [fst snd]; [|split; [apply X; reflexivity|auto]].
  pose proof (default_role_ne role "_cmd_next" ltac:(discriminate)) as Nr.
  pose proof (invalidate_other key role now db1) as I.
  destruct (invalidatePostCommandContinuation strat true key role now db1) as [db2 r2]. cbn [fst snd] in I.
  split; [apply X; apply (I key role); unfold commandContinuationRole; congruence|].
  split; [apply (I key role); unfold commandContinuationRole; congruence|].
  intros k r N1 N2. rewrite (proj1 (I k r (N2 eq_refl))). auto.
Qed.

(** An expired row is not served again. *)
Lemma expired_not_loaded db db' now now' key role reason :
  expired_row db db' now key role reason -> isUserForcedReason reason = false -> now <= now' ->
  (loadPin strat key role now' db').2.2 = false.
Proof.
  intros (q & E & Eu & Er & Es & _) Hr L. unfold loadPin, bind, clock_now, ret. cbn. rewrite E.
  destruct (pinMatchesEffectiveStrategy strat q); [|reflexivity]. cbn.
  unfold After. destruct (Z.ltb_spec now' q.(Pin.PinnedUntil)); [|reflexivity].
  pose proof (pg_time_le (now - Second)). unfold Second, Millisecond in *. lia.
Qed.

(** Expiring a pin ends it, whatever its continuation. *)
Lemma expire_not_loaded inst key role reason now now' db :
  fits 32 role -> fits 32 sigma -> (forall p, db !! (key, role) = Some p -> p.(Pin.TurnCount) < max_int32) ->
  isUserForcedReason reason = false -> now <= now' ->
  (loadPin strat key role now' (expireSessionPin strat true inst key role reason now db).1).2.2 = false.
Proof.
  intros Fr Fs Ft Nf L. unfold expireSessionPin.
  pose proof (expire_row inst key role reason true now db Fr Fs Ft) as X.
  destruct (expireSessionPinRow _ _ _ _ _ _ _ _ _) as [db' r]. exact (expired_not_loaded _ _ _ _ _ _ _ (proj1 X) Nf L).
Qed.

(** The session's own row is the one its strategy selects, and updates reach it. *)
Lemma select_own (db : gmap (string * string) Pin.t) key role s q :
  q.(Pin.Strategy) = s -> select_for key role s (<[(key, role) := q]> db) = Some q.
Proof.
  intros E. unfold select_for. rewrite lookup_insert_eq. cbn. unfold strategy_matches.
  rewrite E, String.eqb_refl. reflexivity.
Qed.
Lemma update_for_own {A : Type} (k r s : string) (db : gmap (string * string) Pin.t) (none : A) f p q a :
  select_for k r s db = Some p -> f p = Ok (q, a) -> update_for k r s db none f = (<[(k, r) := q]> db, Ok a).
Proof. intros E F. unfold update_for. rewrite E, F. reflexivity. Qed.

(** A 4xx that is the upstream's verdict on the request. *)
Definition counts_as_strike (e : GoError) : bool :=
  (negb (upstreamStatus e =? 0) && negb (IsRetryableStatus (upstreamStatus e)))%bool.

(** Two non-retryable upstream errors in a row evict the pin: the first only counts, the
    second expires the row so that the next turn routes afresh; a success in between starts the
    count again.  Pins the user forced are left alone. *)
Lemma two_strikes inst key role reason e now db p :
  inst <> uuid_Nil -> key <> zero_session_key -> isUserForcedReason reason = false ->
  fits 32 role -> fits 32 sigma -> counts_as_strike e = true ->
  db !! (key, role) = Some p -> p.(Pin.Strategy) = sigma -> p.(Pin.TurnCount) < max_int32 ->
  let after n err := (maybeEvictPinAfterUpstreamErr strat true true err reason inst key role now
                        (<[(key, role) := Pin.set_ConsecutiveUpstreamErrors n p]> db)).1 in
  after 0 (Some e) = <[(key, role) := Pin.set_ConsecutiveUpstreamErrors 1 p]> db /\
  (forall now', now <= now' -> (loadPin strat key role now' (after 1 (Some e))).2.2 = false) /\
  after 1 None = <[(key, role) := Pin.set_ConsecutiveUpstreamErrors 0 p]> db.
Proof.
  intros Ni Nk Nf Fr Fs St E Es Ft. cbn zeta. unfold maybeEvictPinAfterUpstreamErr, no_automatic_eviction.
  rewrite (proj2 (String.eqb_neq _ _) Ni), (proj2 (String.eqb_neq _ _) Nk), Nf. cbn [negb orb].
  unfold counts_as_strike in St. apply andb_prop in St as [S1 S2]. apply negb_true_iff in S1, S2. rewrite S1, S2.
  pose proof (fun n => select_own db key role sigma (Pin.set_ConsecutiveUpstreamErrors n p) Es) as Sel.
  unfold bind, ret. cbn [IncrementUpstreamErrors ResetUpstreamErrors SessionPinRepo].
  unfold repo_IncrementUpstreamErrors, repo_ResetUpstreamErrors. split; [|split].
  - rewrite (update_for_own _ _ _ _ _ _ _ _ _ (Sel 0) eq_refl), insert_insert_eq. reflexivity.
  - intros now' L. rewrite (update_for_own _ _ _ _ _ _ _ _ _ (Sel 1) eq_refl), insert_insert_eq.
    change (_ <? pinEvictionStrikeThreshold) with false. cbn -[expireSessionPin loadPin].
    match goal with |- context [expireSessionPin _ _ _ _ _ _ _ ?d] =>
      pose proof (expire_not_loaded inst key role "upstream_error_strike_threshold" now now' d Fr Fs) as X end.
    destruct (expireSessionPin _ _ _ _ _ _ _ _) as [db' r]. cbn -[loadPin] in *. apply X; [|reflexivity|exact L].
    rewrite lookup_insert_eq. intros o [= <-]. exact Ft.
  - rewrite (update_for_own _ _ _ _ _ _ _ _ _ (Sel 1) eq_refl), insert_insert_eq. reflexivity.
Qed.

(** Both expiries leave the session row expired, with its struck-out providers. *)
Lemma expire_both inst key role reason now db :
  fits 32 role -> fits 32 (hmmHistoryRole role) -> fits 32 sigma ->
  (forall r p, db !! (key, r) = Some p -> p.(Pin.TurnCount) < max_int32) ->
  expired_row db (expireSessionPinAndHMMHistory strat true inst key role reason now db).1 now key role reason.
Proof.
  intros Fr Fh Fs Ft. unfold expireSessionPinAndHMMHistory, expireSessionPin, bind, ret.
  pose proof (expire_row inst key role reason true now db Fr Fs (Ft role)) as X.
  destruct (expireSessionPinRow _ _ _ _ _ _ true _ _) as [db1 r1] eqn:E1. destruct X as ((q & Xq & X) & -> & Fr1).
  pose proof (default_role_ne role "_hmm_history" ltac:(discriminate)) as Nr.
  fold (hmmHistoryRole role) in Nr. rewrite (proj2 (String.eqb_neq _ _) (not_eq_sym Nr)).
  assert (Ft1 : forall p, db1 !! (key, hmmHistoryRole role) = Some p -> p.(Pin.TurnCount) < max_int32).
  { intros p Ep. rewrite Fr1 in Ep; [eauto|congruence|]. intros _ [= Eh].
    apply (f_equal String.length) in Eh. unfold hmmHistoryRole, commandContinuationRole in Eh.
    rewrite !str_length_app in Eh. cbn in Eh. lia. }
  pose proof (expire_row inst key (hmmHistoryRole role) reason false now db1 Fh Fs Ft1) as Y.
  destruct (expireSessionPinRow _ _ _ _ _ _ false _ _) as [db2 r2]. destruct Y as (_ & -> & Fr2). cbn [fst].
  exists q. rewrite Fr2; [split; [exact Xq|exact X]|congruence|discriminate].
Qed.

(** C24: when a provider answers a session with an overload for the second time in a row, the session's pin ends and the
    provider stays recorded as struck out on its row, beside those struck out before: the next turn of that role routes
    afresh and finds on the row which provider to leave out.  This is for a pin the user did not force, on a row
    written under the strategy the request runs with (a row without one, or of another strategy, starts the count
    again: [overload_forgets_legacy_row]); that the role names fit their columns and no turn count is at the largest
    32-bit integer are the database's own conditions. *)
Theorem overload_strikes_out (inst key role reason : string) (e : GoError) (provider : string) (now now' : Z) (db : gmap (string * string) Pin.t) p :
  inst <> uuid_Nil -> key <> zero_session_key -> isUserForcedReason reason = false -> role <> "" ->
  fits 32 role -> fits 32 (hmmHistoryRole role) -> fits 32 sigma ->
  upstreamStatus e = providerOverloadedStatus ->
  (forall r q, db !! (key, r) = Some q -> q.(Pin.TurnCount) < max_int32) ->
  db !! (key, role) = Some p -> p.(Pin.Strategy) = sigma -> p.(Pin.ConsecutiveOverloadErrors) = 1 -> now <= now' ->
  let db' := (maybeDisableProviderAfterOverload strat true true (Some e) provider reason inst key role role now db).1 in
  (loadPin strat key role now' db').2.2 = false /\
  exists q, db' !! (key, role) = Some q /\ provider ∈ q.(Pin.DisabledProviders) /\
    p.(Pin.DisabledProviders) ⊆ q.(Pin.DisabledProviders).
Proof.
  intros Ni Nk Nf Nr Fr Fh Fs St Ft E Es E1 L. cbn zeta.
  unfold maybeDisableProviderAfterOverload, no_automatic_eviction.
  rewrite (proj2 (String.eqb_neq _ _) Ni), (proj2 (String.eqb_neq _ _) Nk), Nf, St, (proj2 (String.eqb_neq _ _) Nr).
  cbn [negb orb]. rewrite Z.eqb_refl. cbn [negb].
  set (p1 := Pin.set_ConsecutiveOverloadErrors 2 p).
  set (p2 := Pin.set_ConsecutiveOverloadErrors 0 (Pin.set_DisabledProviders (add_disabled provider p.(Pin.DisabledProviders)) p1)).
  assert (I1 : repo_IncrementOverloadErrors key role sigma now db = (<[(key, role) := p1]> db, Ok 2)).
  { apply update_for_own with (p := p); [unfold select_for; rewrite E; unfold strategy_matches; rewrite Es, String.eqb_refl; reflexivity|].
    rewrite E1. reflexivity. }
  assert (I2 : repo_DisableProvider key role provider sigma now (<[(key, role) := p1]> db) = (<[(key, role) := p2]> db, Ok tt)).
  { rewrite <- (insert_insert_eq db (key, role) p2 p1). eapply update_for_own; [apply select_own; exact Es|reflexivity]. }
  unfold bind, ret. cbn [IncrementOverloadErrors DisableProvider SessionPinRepo]. rewrite I1. cbn beta iota zeta.
  change (2 <? providerOverloadStrikeThreshold) with false. cbn beta iota zeta. rewrite I2. cbn beta iota zeta.
  pose proof (expire_both inst key role "provider_overloaded" now (<[(key, role) := p2]> db) Fr Fh Fs) as X.
  destruct (expireSessionPinAndHMMHistory _ _ _ _ _ _ _ _) as [db' r]. cbn [fst] in *.
  assert (Y : expired_row (<[(key, role) := p2]> db) db' now key role "provider_overloaded").
  { apply X. intros r' q Eq. destruct (decide (r' = role)) as [->|N].
    - rewrite lookup_insert_eq in Eq. injection Eq as <-. exact (Ft _ _ E).
    - rewrite lookup_insert_ne in Eq by congruence. exact (Ft _ _ Eq). }
  split; [exact (expired_not_loaded _ _ _ _ _ _ _ Y eq_refl L)|].
  destruct Y as (q & Eq & _ & _ & _ & D). exists q. split; [exact Eq|].
  specialize (D p2). rewrite lookup_insert_eq in D. rewrite (D eq_refl Es). cbn.
  split; [apply add_disabled_in|apply add_disabled_incl].
Qed.
End Table.

(** ** Witnesses *)

Definition ex_uuid : string := "6f1c1c1e-0000-4000-8000-000000000001".
Definition ex_skey : string := "a-session-key-00".
Definition ex_own_pin : Pin.t :=
  Pin.set_SessionKey ex_skey (Pin.set_Role DefaultRole (Pin.set_ConsecutiveOverloadErrors 1 ex_pin)).
Definition ex_own_table : gmap (string * string) Pin.t := {[ (ex_skey, DefaultRole) := ex_own_pin ]}.

Lemma loadPin_sound_witness : exists pin,
  @loadPin ascii_unicode _ _ None ex_skey DefaultRole Hour ex_own_table = (ex_own_table, (pin, true)) /\
  exists p, ex_own_table !! (ex_skey, DefaultRole) = Some p /\ Hour < p.(Pin.PinnedUntil).
Proof.
  assert (Hb : (@loadPin ascii_unicode _ _ None ex_skey DefaultRole Hour ex_own_table).2.2 = true) by (vm_compute; reflexivity).
  destruct (@loadPin ascii_unicode _ _ None ex_skey DefaultRole Hour ex_own_table) as [s' [pin b]] eqn:E.
  cbn in Hb. subst b.
  pose proof (@loadPin_sound ascii_unicode _ _ _ None _ _ _ _ _ _ E) as (V & p & Ep & L & _).
  cbn [view SessionPinRepo_laws] in V, Ep. subst s'. exists pin. split; [reflexivity|]. exists p. split; assumption.
Defined.

Lemma continuation_one_shot_witness : exists s1 pin,
  @consumePostCommandContinuation _ _ None true zero_session_key DefaultRole Hour ex_table = (s1, (pin, true)) /\
  forall s2 r, @consumePostCommandContinuation _ _ (Some "hmm") true zero_session_key DefaultRole Hour s1 = (s2, r) ->
  r = (Pin.zero, false).
Proof.
  eexists _, _. split; [vm_compute; reflexivity|]. intros s2 r E.
  eapply (@continuation_one_shot _ _ SessionPinRepo_laws None true (Some "hmm") zero_session_key DefaultRole Hour Hour);
    [|exact E]. instantiate (2 := ex_table). vm_compute. reflexivity.
Defined.

Definition ex_rejection : GoError := [UpstreamErrorResponse 422 "unprocessable"].
Lemma two_strikes_witness :
  let db := <[(ex_skey, DefaultRole) := Pin.set_ConsecutiveUpstreamErrors 1 ex_own_pin]> ex_own_table in
  let db' := (@maybeEvictPinAfterUpstreamErr _ _ None true true (Some ex_rejection) "cluster"
               ex_uuid ex_skey DefaultRole Hour db).1 in
  (@loadPin ascii_unicode _ _ None ex_skey DefaultRole Hour db').2.2 = false.
Proof.
  apply (@two_strikes ascii_unicode None ex_uuid ex_skey DefaultRole "cluster" ex_rejection Hour ex_own_table ex_own_pin);
    first [reflexivity | discriminate | vm_compute; reflexivity | lia].
Defined.

Definition ex_overload : GoError := [UpstreamErrorResponse 529 "overloaded_error"].
Lemma overload_strikes_out_witness :
  let db' := (@maybeDisableProviderAfterOverload _ _ None true true (Some ex_overload) "aiand" "cluster"
               ex_uuid ex_skey DefaultRole DefaultRole Hour ex_own_table).1 in
  (@loadPin ascii_unicode _ _ None ex_skey DefaultRole Hour db').2.2 = false /\
  exists q, db' !! (ex_skey, DefaultRole) = Some q /\ "aiand" ∈ q.(Pin.DisabledProviders).
Proof.
  assert (T : forall r q, ex_own_table !! (ex_skey, r) = Some q -> q.(Pin.TurnCount) < max_int32).
  { intros r q E. unfold ex_own_table in E. apply lookup_singleton_Some in E as [_ <-]. reflexivity. }
  assert (E : ex_own_table !! (ex_skey, DefaultRole) = Some ex_own_pin) by (vm_compute; reflexivity).
  destruct (@overload_strikes_out ascii_unicode None ex_uuid ex_skey DefaultRole "cluster" ex_overload "aiand" Hour Hour
    ex_own_table ex_own_pin ltac:(discriminate) ltac:(discriminate) eq_refl ltac:(discriminate)
    ltac:(vm_compute; reflexivity) ltac:(vm_compute; reflexivity) ltac:(vm_compute; reflexivity) eq_refl T E eq_refl eq_refl
    (Z.le_refl _)) as (L & q & Eq & In & _).
  exact (conj L (ex_intro _ q (conj Eq In))).
Defined.

(** ** What the handlers do to a row written before strategies *)

(** Loading a row drops its strategy. *)
Lemma canonicalizePinModels_drops_strategy `{GoUnicode} p : (canonicalizePinModels p).(Pin.Strategy) = "".
Proof. reflexivity. Qed.

(** The second overload of a session whose row predates strategies strikes the provider out and then
    forgets it: the expiry is written under the context's strategy, which resets the row. *)
Lemma overload_forgets_legacy_row : exists q,
  (@maybeDisableProviderAfterOverload _ _ None true true (Some ex_overload) "aiand" "cluster"
     ex_uuid ex_skey DefaultRole DefaultRole Hour
     {[ (ex_skey, DefaultRole) := Pin.set_Strategy "" ex_own_pin ]}).1 !! (ex_skey, DefaultRole) = Some q /\
  q.(Pin.DisabledProviders) = [].
Proof. eexists. split; vm_compute; reflexivity. Qed.
