(* ===== verification/HmmRoster.v ===== *)
(** The arms of the policy's clusters: how a roster arm names a catalog model (internal/router/hmm/mapping.go,
    roster.go, validate.go) and which arm a struggling session moves to (internal/proxy/struggle_roster.go).
    The roster itself comes from the sidecar. *)

From stdpp Require Import base gmap sets list strings.
From Stdlib Require Import ZArith Lia Ascii.
From S2P Require Import Prelude Types Catalog ForceNames.
Open Scope string_scope.
Open Scope Z_scope.

(** ** Names (mapping.go) *)

Definition rosterAliases : list (string * string) := [("moonshotai/kimi-k2.7", "moonshotai/kimi-k2.7-code")].
Definition assoc (k : string) (l : list (string * string)) : option string := snd <$> List.find (fun kv => String.eqb kv.1 k) l.
Definition rosterIDFor (m : Model) : string :=
  match assoc m.(ID) rosterAliases with
  | Some alias => alias
  | None => if Contains m.(ID) "/" then m.(ID)
            else if String.eqb (PrimaryProvider m) ProviderAiand then m.(ID)
            else ""
  end.
(** [router.NormalizeLegacyEffort]. *)
Definition NormalizeLegacyEffort (effort : string) : string := if String.eqb effort "xhigh" then "max" else effort.

Section Names.
Context `{GoUnicode}.
Definition SplitEffort (armID : string) : string * string :=
  match LastIndexByte armID ":"%char with
  | Some (S i) =>
      let suffix := str_drop (S (S i)) armID in
      if negb (IsValidEffort suffix) then (armID, "")
      else (str_take (S i) armID, NormalizeLegacyEffort (CanonicalizeEffort suffix))
  | _ => (armID, "")
  end.
Definition EffortArm (baseID effort : string) : string := if String.eqb effort "" then baseID else baseID +:+ ":" +:+ effort.
Definition CatalogIDForRoster (rosterID : string) : string :=
  let baseID := (SplitEffort rosterID).1 in
  match List.find (fun m => String.eqb (rosterIDFor m) baseID) Models with
  | Some m => m.(ID)
  | None => rosterID
  end.

(** ** The deployed models (roster.go), and the arms that have none (validate.go) *)

Record DeployedEntry := { de_Model : string; de_Provider : string }.
(** The first row of each roster ID. *)
Definition inverse_first (models : list Model) : gmap string Model :=
  fold_left (fun inv m => let rosterID := rosterIDFor m in
    if String.eqb rosterID "" then inv else match inv !! rosterID with Some _ => inv | None => <[rosterID := m]> inv end) models ∅.
Definition deploy (inverse : gmap string Model) (acc : list DeployedEntry * gset string) (rosterID : string) : list DeployedEntry * gset string :=
  match inverse !! (SplitEffort rosterID).1 with
  | None => acc
  | Some m => if in_set m.(ID) acc.2 then acc
              else ((acc.1 ++ [{| de_Model := m.(ID); de_Provider := PrimaryProvider m |}])%list, {[ m.(ID) ]} ∪ acc.2)
  end.
Definition DeployedModelsForRosterIDs (rosterIDs : list string) : list DeployedEntry :=
  (fold_left (deploy (inverse_first Models)) rosterIDs ([], ∅)).1.

(** [policy.ProviderPolicy]: the denied providers. *)
Definition ProviderPolicy : Type := gset string.
Definition ManagedProviderPolicy : ProviderPolicy := ∅.
Definition Allows (p : ProviderPolicy) (provider : string) : bool := negb (in_set provider p).
Inductive RosterComplaint := UnknownCatalogModel | AmbiguousRoster (catalogID : string) | BlockedProvider (catalogID : string).
Definition hasAllowedProvider (m : Model) (policy : ProviderPolicy) : bool := existsb (fun b => Allows policy b.(Provider)) m.(Providers).
Definition rows_of (models : list Model) (baseID : string) : list Model :=
  List.filter (fun m => negb (String.eqb (rosterIDFor m) "") && String.eqb (rosterIDFor m) baseID)%bool models.
Definition complaint (models : list Model) (policy : ProviderPolicy) (rosterID : string) : option RosterComplaint :=
  match rows_of models (SplitEffort rosterID).1 with
  | [] => Some UnknownCatalogModel
  | [m] => if hasAllowedProvider m policy then None else Some (BlockedProvider m.(ID))
  | m :: _ => Some (AmbiguousRoster m.(ID))
  end.
Definition validateRosterIDs (rosterIDs : list string) (models : list Model) (policy : ProviderPolicy) : list (string * RosterComplaint) :=
  omap (fun id => pair id <$> complaint models policy id) rosterIDs.
Definition ValidateRosterIDs (rosterIDs : list string) : list (string * RosterComplaint) :=
  validateRosterIDs rosterIDs Models ManagedProviderPolicy.

(** ** Where a struggling session moves (struggle_roster.go) *)

Definition struggleClusterLadder : list (list string) :=
  [["fast"; "explore"; "low"]; ["balanced"; "medium"]; ["high"]; ["maximum"]].
(** The last rung that has the group. *)
Definition rung_of (group : string) : option nat :=
  fold_left (fun r ip => if in_strings group ip.2 then Some ip.1 else r) (imap (fun i p => (i, p)) struggleClusterLadder) None.
Definition clustersAbove (group : string) : list string :=
  match rung_of (ToLower (TrimSpace group)) with
  | None => []
  | Some rung => concat (skipn (S rung) struggleClusterLadder)
  end.
Definition firstDispatchableArm (arms : list string) (currentModel : string) (exclude : option (gset string)) (check : string -> bool) : string :=
  default "" (List.find (fun model => negb (String.eqb model "" || String.eqb model currentModel || in_opt_set model exclude) && check model)%bool
                (CatalogIDForRoster <$> arms)).
(** [policy.RosterSnapshot]'s clusters. *)
Definition Clusters : Type := gmap string (list string).
Definition escalation_target (clusters : Clusters) (policyGroup currentModel : string) (exclude : option (gset string)) (check : string -> bool) : string * string :=
  let arm group := firstDispatchableArm (default [] ((clusters : gmap string (list string)) !! group)) currentModel exclude check in
  match List.find (fun group => negb (String.eqb (arm group) "")) (clustersAbove policyGroup ++ [policyGroup])%list with
  | Some group => (arm group, group)
  | None => ("", "")
  end.
Definition EscalationTarget (source : res string Clusters) (policyGroup currentModel : string) (exclude : option (gset string)) (check : string -> bool)
  : res string (string * string) :=
  let! clusters := source in Ok (escalation_target clusters policyGroup currentModel exclude check).

(** ** Facts *)

Lemma last_index_app s c t : LastIndexByte t c = None -> LastIndexByte (s +:+ String c t) c = Some (String.length s).
Proof.
  intros E. induction s as [|a s IH]; cbv [String.append] in *; cbn; [rewrite E, Ascii.eqb_refl; reflexivity|].
  rewrite IH. reflexivity.
Qed.
Lemma split_effort_arm b e : b <> "" -> e ∈ [EffortNone; EffortLow; EffortMedium; EffortHigh; EffortXHigh; EffortMax] ->
  SplitEffort (EffortArm b e) = (b, NormalizeLegacyEffort e).
Proof.
  intros N E. unfold EffortArm, SplitEffort.
  assert (V : LastIndexByte e ":"%char = None /\ String.eqb e "" = false /\ IsValidEffort e = true /\
              NormalizeLegacyEffort (CanonicalizeEffort e) = NormalizeLegacyEffort e)
    by (repeat (apply elem_of_cons in E as [->|E]; [vm_compute; auto|]); inversion E).
  destruct V as (V1 & V2 & V3 & V4). rewrite V2. change (b +:+ ":" +:+ e) with (b +:+ String ":" e).
  rewrite (last_index_app b ":"%char e V1). destruct b as [|a b]; [congruence|]. cbn [String.length].
  assert (D : str_drop (S (S (String.length b))) (String a b +:+ String ":" e) = e).
  { clear. cbv [String.append]. cbn. induction b as [|? b IH]; [reflexivity|exact IH]. }
  assert (T : str_take (S (String.length b)) (String a b +:+ String ":" e) = String a b).
  { clear. cbv [String.append]. cbn. f_equal. induction b as [|? b IH]; [destruct e; reflexivity|cbn; f_equal; exact IH]. }
  rewrite D, T, V3, V4. reflexivity.
Qed.

(** A fact of each row of the catalog. *)
Ltac each_row E := repeat (apply elem_of_cons in E as [->|E]; [vm_compute|]); [..|inversion E].
(** The rows have distinct roster IDs, none empty, and every row can be dispatched. *)
Lemma row_checked m : m ∈ Models ->
  rosterIDFor m <> "" /\ hasAllowedProvider m ManagedProviderPolicy = true /\ rows_of Models (rosterIDFor m) = [m] /\
  List.find (fun m' => String.eqb (rosterIDFor m') (rosterIDFor m)) Models = Some m /\
  inverse_first Models !! rosterIDFor m = Some m.
Proof. intros E. each_row E; (split; [discriminate|auto]). Qed.
Lemma rows_of_elem models base m : m ∈ rows_of models base <-> rosterIDFor m <> "" /\ rosterIDFor m = base /\ m ∈ models.
Proof.
  unfold rows_of. rewrite list_elem_of_In, filter_In, <- list_elem_of_In, andb_true_iff, negb_true_iff, String.eqb_neq, String.eqb_eq. tauto.
Qed.
Lemma complaint_none rosterID : complaint Models ManagedProviderPolicy rosterID = None <->
  exists m, m ∈ Models /\ rosterIDFor m = (SplitEffort rosterID).1.
Proof.
  unfold complaint. split.
  - destruct (rows_of _ _) as [|m [|? ?]] eqn:R; try discriminate. intros _. exists m.
    assert (X : m ∈ rows_of Models (SplitEffort rosterID).1) by (rewrite R; left). apply rows_of_elem in X. tauto.
  - intros (m & E & <-). destruct (row_checked m E) as (_ & A & -> & _). rewrite A. reflexivity.
Qed.
Lemma catalog_id rosterID m : m ∈ Models -> rosterIDFor m = (SplitEffort rosterID).1 -> CatalogIDForRoster rosterID = m.(ID).
Proof. intros E R. unfold CatalogIDForRoster. cbv zeta. rewrite <- R. destruct (row_checked m E) as (_ & _ & _ & -> & _). reflexivity. Qed.
(** What is left of an arm no row has. *)
Lemma catalog_id_none rosterID : (forall m, m ∈ Models -> rosterIDFor m <> (SplitEffort rosterID).1) -> CatalogIDForRoster rosterID = rosterID.
Proof.
  intros N. unfold CatalogIDForRoster. destruct (List.find _ Models) as [m|] eqn:F; [|reflexivity].
  apply find_some in F as [F1 F2]. apply String.eqb_eq in F2. apply list_elem_of_In in F1. destruct (N m F1 F2).
Qed.

(** Deploying keeps what is deployed, and the set of its models. *)
Definition entry_of_row (m : Model) : DeployedEntry := {| de_Model := m.(ID); de_Provider := PrimaryProvider m |}.
Lemma ByID_row id m : ByID id = Some m -> m ∈ Models.
Proof.
  unfold ByID, model_at. destruct (byID !! id); [apply list_elem_of_lookup_2|]. cbv zeta. destruct (String.eqb _ _); [discriminate|].
  destruct (byID !! _); [apply list_elem_of_lookup_2|discriminate].
Qed.
Lemma models_by_id m m' : m ∈ Models -> m' ∈ Models -> m.(ID) = m'.(ID) -> m = m'.
Proof. intros E E'. each_row E; each_row E'; (reflexivity || discriminate). Qed.
Lemma inverse_models base m : inverse_first Models !! base = Some m -> m ∈ Models.
Proof.
  assert (C : map_Forall (fun _ m => m ∈ Models) (inverse_first Models)).
  { assert (G : forall l, l ⊆ Models -> forall inv : gmap string Model, map_Forall (fun _ m => m ∈ Models) inv -> map_Forall (fun _ m => m ∈ Models)
      (fold_left (fun inv m => let rosterID := rosterIDFor m in if String.eqb rosterID "" then inv else match inv !! rosterID with Some _ => inv | None => <[rosterID := m]> inv end) l inv)).
    { induction l as [|x l IH]; intros L inv I; [exact I|]. cbn [fold_left]. apply IH; [set_solver|]. cbv zeta.
      destruct (String.eqb _ _); [exact I|]. destruct (inv !! _); [exact I|]. apply map_Forall_insert_2; [set_solver|exact I]. }
    apply (G Models ltac:(set_solver) ∅). apply map_Forall_empty. }
  intros E. exact (C base m E).
Qed.
Definition deployed_wf (acc : list DeployedEntry * gset string) : Prop :=
  forall m, m ∈ Models -> m.(ID) ∈ acc.2 -> entry_of_row m ∈ acc.1.
Lemma deploy_wf acc id : deployed_wf acc -> deployed_wf (deploy (inverse_first Models) acc id) /\
  (forall e, e ∈ acc.1 -> e ∈ (deploy (inverse_first Models) acc id).1) /\
  (forall m, m ∈ Models -> rosterIDFor m = (SplitEffort id).1 -> entry_of_row m ∈ (deploy (inverse_first Models) acc id).1).
Proof.
  intros W. unfold deploy. destruct (inverse_first Models !! _) as [m0|] eqn:I.
  2:{ split; [exact W|split; [auto|]]. intros m E R. rewrite <- R, (proj2 (proj2 (proj2 (proj2 (row_checked m E))))) in I. discriminate. }
  pose proof (inverse_models _ _ I) as E0.
  assert (Q : forall m, m ∈ Models -> rosterIDFor m = (SplitEffort id).1 -> m = m0).
  { intros m E R. rewrite <- R, (proj2 (proj2 (proj2 (proj2 (row_checked m E))))) in I. congruence. }
  destruct (in_set m0.(ID) acc.2) eqn:D.
  - split; [exact W|split; [auto|]]. intros m E R. rewrite (Q m E R). apply (W m0 E0).
    unfold in_set in D. apply bool_decide_eq_true in D. exact D.
  - fold (entry_of_row m0). cbn [fst snd]. split; [|split].
    + intros m E. cbn [snd]. rewrite elem_of_union, elem_of_singleton. intros [X|X].
      * rewrite (models_by_id m m0 E E0 X). apply elem_of_app. right. left.
      * apply elem_of_app. left. exact (W m E X).
    + intros e X. apply elem_of_app. auto.
    + intros m E R. rewrite (Q m E R). apply elem_of_app. right. left.
Qed.
Lemma deployed_row ids m id : m ∈ Models -> rosterIDFor m = (SplitEffort id).1 -> id ∈ ids ->
  entry_of_row m ∈ DeployedModelsForRosterIDs ids.
Proof.
  intros E R. unfold DeployedModelsForRosterIDs.
  assert (G : forall acc, deployed_wf acc -> (id ∈ ids \/ entry_of_row m ∈ acc.1) ->
    entry_of_row m ∈ (fold_left (deploy (inverse_first Models)) ids acc).1).
  { induction ids as [|x ids IH]; intros acc W C; cbn [fold_left].
    - destruct C as [C|C]; [inversion C|exact C].
    - destruct (deploy_wf acc x W) as (W' & K & A). apply IH; [exact W'|]. destruct C as [C|C]; [|right; auto].
      apply elem_of_cons in C as [<-|C]; [right; apply A; assumption|left; exact C]. }
  intros C. apply G; [|left; exact C]. intros m' _ X. cbn in X. set_solver.
Qed.

(** Of a list of roster arms, validation reports exactly those whose name, less its effort, is no
    catalog row's; every other arm names its row's model, and the model is among the deployed ones. *)
Lemma validated_arms_deployed (rosterIDs : list string) (id : string) : id ∈ rosterIDs ->
  ((exists c, (id, c) ∈ ValidateRosterIDs rosterIDs) <-> (forall m, m ∈ Models -> rosterIDFor m <> (SplitEffort id).1)) /\
  (forall m, m ∈ Models -> rosterIDFor m = (SplitEffort id).1 ->
     CatalogIDForRoster id = m.(ID) /\ entry_of_row m ∈ DeployedModelsForRosterIDs rosterIDs).
Proof.
  intros I. split.
  - unfold ValidateRosterIDs, validateRosterIDs. split.
    + intros (c & C) m E R. apply list_elem_of_omap in C as (id' & _ & C).
      destruct (complaint Models ManagedProviderPolicy id') eqn:K; [|discriminate]. injection C as -> _.
      assert (complaint Models ManagedProviderPolicy id = None) by (apply complaint_none; eauto). congruence.
    + intros N. destruct (complaint Models ManagedProviderPolicy id) as [c|] eqn:K.
      * exists c. apply list_elem_of_omap. exists id. rewrite K. auto.
      * apply complaint_none in K as (m & E & R). destruct (N m E R).
  - intros m E R. split; [exact (catalog_id id m E R)|exact (deployed_row _ m id E R I)].
Qed.

(** A row's arm at any of the effort levels it offers, or at none, names the row. *)
Lemma arm_names_row (m : Model) (effort : string) : m ∈ Models -> effort ∈ ("" :: m.(ReasoningEfforts)) ->
  CatalogIDForRoster (EffortArm (rosterIDFor m) effort) = m.(ID) /\
  SplitEffort (EffortArm (rosterIDFor m) effort) = (rosterIDFor m, NormalizeLegacyEffort effort).
Proof.
  intros E L. assert (X : SplitEffort (EffortArm (rosterIDFor m) effort) = (rosterIDFor m, NormalizeLegacyEffort effort)).
  { apply elem_of_cons in L as [->|L].
    - clear - E. each_row E; reflexivity.
    - apply split_effort_arm; [exact (proj1 (row_checked m E))|].
      assert (C : forallb (fun m => forallb (fun e => bool_decide (e ∈ [EffortNone; EffortLow; EffortMedium; EffortHigh; EffortXHigh; EffortMax])) m.(ReasoningEfforts)) Models = true)
        by (vm_compute; reflexivity).
      rewrite forallb_forall in C. specialize (C m (proj1 (list_elem_of_In _ _) E)). rewrite forallb_forall in C.
      exact (bool_decide_eq_true_1 _ (C effort (proj1 (list_elem_of_In _ _) L))). }
  split; [|exact X]. apply catalog_id; [exact E|]. rewrite X. reflexivity.
Qed.

(** ** The move of a struggling session *)

(** A model a session may move to. *)
Definition dispatchable (currentModel : string) (exclude : option (gset string)) (check : string -> bool) (model : string) : Prop :=
  model <> "" /\ model <> currentModel /\ in_opt_set model exclude = false /\ check model = true.
Lemma find_first {A} (f : A -> bool) l x : List.find f l = Some x ->
  exists before after, l = (before ++ x :: after)%list /\ f x = true /\ forall y, y ∈ before -> f y = false.
Proof.
  induction l as [|a l IH]; cbn; [discriminate|]. destruct (f a) eqn:F.
  - intros [= <-]. exists [], l. split; [reflexivity|split; [exact F|intros y Y; inversion Y]].
  - intros E. destruct (IH E) as (b & c & -> & X & B). exists (a :: b), c. split; [reflexivity|split; [exact X|]].
    intros y Y. apply elem_of_cons in Y as [->|Y]; auto.
Qed.
Lemma first_arm arms cur exclude check (m := firstDispatchableArm arms cur exclude check) :
  (m <> "" -> exists before arm after, arms = (before ++ arm :: after)%list /\ CatalogIDForRoster arm = m /\
     dispatchable cur exclude check m /\ forall x, x ∈ before -> ~ dispatchable cur exclude check (CatalogIDForRoster x)) /\
  (m = "" -> forall arm, arm ∈ arms -> ~ dispatchable cur exclude check (CatalogIDForRoster arm)).
Proof.
  subst m. unfold firstDispatchableArm. set (ok := fun model : string => (_ && _)%bool).
  assert (K : forall x, ok x = true <-> dispatchable cur exclude check x).
  { intros x. unfold ok, dispatchable. rewrite andb_true_iff, negb_true_iff, !orb_false_iff, !String.eqb_neq. tauto. }
  assert (K' : forall x, ok x = false -> ~ dispatchable cur exclude check x) by (intros x E D; apply K in D; congruence).
  destruct (List.find ok _) as [m|] eqn:F; cbn; split.
  - intros _. apply find_first in F as (b & c & E & O & B). apply fmap_app_inv in E as (b' & r & -> & E & ->).
    symmetry in E. apply fmap_cons_inv in E as (arm & c' & -> & -> & ->). exists b', arm, c'. split; [reflexivity|]. split; [reflexivity|].
    split; [apply K, O|]. intros x X. apply K', B, list_elem_of_fmap_2, X.
  - intros ->. apply find_some in F as [_ F]. apply K in F as [F _]. congruence.
  - congruence.
  - intros _ arm A. apply K'. apply (find_none _ _ F). apply list_elem_of_In, list_elem_of_fmap_2, A.
Qed.

(** The target is an arm of the roster, of a cluster considered. *)
Lemma escalation_target_arm (clusters : Clusters) (policyGroup cur : string) (exclude : option (gset string)) (check : string -> bool) (t c : string) :
  escalation_target clusters policyGroup cur exclude check = (t, c) -> t <> "" ->
  dispatchable cur exclude check t /\ c ∈ (clustersAbove policyGroup ++ [policyGroup])%list /\
  exists arms a, (clusters : gmap string (list string)) !! c = Some arms /\ a ∈ arms /\ CatalogIDForRoster a = t.
Proof.
  unfold escalation_target. cbv zeta. intros E N.
  match type of E with match ?f with _ => _ end = _ => destruct f as [g|] eqn:F end; [|congruence]. injection E as E <-.
  apply find_some in F as [F _]. pose proof (proj1 (first_arm (default [] ((clusters : gmap string (list string)) !! g)) cur exclude check)) as A.
  rewrite E in A. destruct (A N) as (b & a & d & Ea & Ca & D & _). split; [exact D|]. split; [apply list_elem_of_In, F|].
  destruct ((clusters : gmap string (list string)) !! g) as [arms|]; [|destruct b; discriminate]. cbn in Ea. exists arms, a.
  split; [reflexivity|]. split; [|exact Ca]. rewrite Ea. apply elem_of_app. right. left.
Qed.

(** The groups of the ladder, each with its rung. *)
Lemma above_rungs group g : g ∈ clustersAbove group -> exists r r', rung_of (ToLower (TrimSpace group)) = Some r /\ rung_of g = Some r' /\ (r < r')%nat.
Proof.
  unfold clustersAbove. destruct (rung_of (ToLower (TrimSpace group))) as [r|] eqn:E; [|intros X; inversion X].
  intros X. exists r. assert (C : forallb (fun r => forallb (fun g => match rung_of g with Some r' => Nat.ltb r r' | None => false end)
    (concat (skipn (S r) struggleClusterLadder))) [0; 1; 2; 3]%nat = true) by (vm_compute; reflexivity).
  assert (R : In r [0; 1; 2; 3]%nat \/ (4 <= r)%nat) by (destruct r as [|[|[|[|r]]]]; cbn; [tauto..|right; lia]).
  destruct R as [R|R].
  - rewrite forallb_forall in C. specialize (C r R). rewrite forallb_forall in C. specialize (C g (proj1 (list_elem_of_In _ _) X)).
    destruct (rung_of g) as [r'|]; [|discriminate]. apply Nat.ltb_lt in C. eauto.
  - rewrite skipn_all2 in X by (cbn; lia). inversion X.
Qed.

(** A struggling session moves to an arm that may serve it: one other than the model it is on, neither
    excluded nor undeployed.  The arm is the first such of a cluster on a higher rung than the session's, no
    cluster cheaper than that one having any; or, when no higher cluster has one, the first such of the session's
    own.  It stays where it is only when none of these clusters has such an arm. *)
Lemma escalation_target_cheapest (clusters : Clusters) (policyGroup currentModel : string) (exclude : option (gset string)) (check : string -> bool) :
  let usable := dispatchable currentModel exclude check in
  let arms group := CatalogIDForRoster <$> default [] ((clusters : gmap string (list string)) !! group) in
  let candidates := (clustersAbove policyGroup ++ [policyGroup])%list in
  let '(target, cluster) := escalation_target clusters policyGroup currentModel exclude check in
  (target <> "" -> usable target /\
     (exists before after, arms cluster = (before ++ target :: after)%list /\ forall m, m ∈ before -> ~ usable m) /\
     (exists before after, candidates = (before ++ cluster :: after)%list /\ forall g m, g ∈ before -> m ∈ arms g -> ~ usable m)) /\
  (target = "" -> forall g m, g ∈ candidates -> m ∈ arms g -> ~ usable m) /\
  (forall g, g ∈ clustersAbove policyGroup -> exists r r', rung_of (ToLower (TrimSpace policyGroup)) = Some r /\ rung_of g = Some r' /\ (r < r')%nat).
Proof.
  cbv zeta. pose proof (above_rungs policyGroup) as A. unfold escalation_target. cbv zeta.
  set (arm := fun group => firstDispatchableArm (default [] ((clusters : gmap string (list string)) !! group)) currentModel exclude check).
  assert (N : forall g, negb (String.eqb (arm g) "") = false -> forall m, m ∈ CatalogIDForRoster <$> default [] ((clusters : gmap string (list string)) !! g) -> ~ dispatchable currentModel exclude check m).
  { intros g E m M. apply negb_false_iff, String.eqb_eq in E. apply list_elem_of_fmap in M as (x & -> & M).
    exact (proj2 (first_arm _ _ _ _) E x M). }
  destruct (List.find _ _) as [g|] eqn:F.
  - apply find_first in F as (b & c & E & O & B). apply negb_true_iff, String.eqb_neq in O. split; [|split; [congruence|exact A]]. intros _.
    destruct (proj1 (first_arm _ _ _ _) O) as (b' & x & c' & E' & X & D & B'). split; [exact D|]. split.
    + exists (CatalogIDForRoster <$> b'), (CatalogIDForRoster <$> c'). rewrite <- X, <- fmap_cons, <- fmap_app, <- E'. split; [reflexivity|].
      intros m M. apply list_elem_of_fmap in M as (y & -> & M). exact (B' y M).
    + exists b, c. split; [exact E|]. intros h m G. exact (N h (B h G) m).
  - split; [congruence|split; [|exact A]]. intros _ g m G. apply (N g). apply (find_none _ _ F g), list_elem_of_In, G.
Qed.
End Names.

(** A session of the low cluster moves to the balanced one's second arm, the first being excluded. *)
Definition ex_clusters : Clusters :=
  ({[ "balanced" := ["motif-technologies/motif-3:high"; "zai-org/glm-5.3:max"]; "low" := ["deepseek-ai/deepseek-v4-flash"] ]} : gmap string (list string)).
Example ex_escalation : let _ := ascii_unicode in
  escalation_target ex_clusters "low" "deepseek-ai/deepseek-v4-flash" (Some {[ "motif-technologies/motif-3" ]}) (fun _ => true) = ("zai-org/glm-5.3", "balanced").
Proof. vm_compute. reflexivity. Qed.
Definition ex_kimi : Model := default (row "" TierUnknown 0 AgenticUnknown ImageInputUnknown [] (aiand_binding "" 0 0 0 1)) (Models !! 1%nat).
Lemma arm_names_row_witness : let _ := ascii_unicode in CatalogIDForRoster "moonshotai/kimi-k2.7-code:high" = "moonshotai/kimi-k2.7".
Proof.
  exact (proj1 (@arm_names_row ascii_unicode ex_kimi "high" ltac:(right; left) ltac:(right; left))).
Defined.
Lemma validated_arms_deployed_witness : let _ := ascii_unicode in
  CatalogIDForRoster "moonshotai/kimi-k2.7-code:high" = "moonshotai/kimi-k2.7" /\
  entry_of_row ex_kimi ∈ DeployedModelsForRosterIDs ["moonshotai/kimi-k2.7-code:high"; "acme/unknown"].
Proof.
  refine (proj2 (@validated_arms_deployed ascii_unicode ["moonshotai/kimi-k2.7-code:high"; "acme/unknown"] "moonshotai/kimi-k2.7-code:high" ltac:(left))
    ex_kimi ltac:(right; left) _). vm_compute. reflexivity.
Defined.
