(* ===== verification/Resolver.v ===== *)
(** The candidates a policy sidecar chooses among (internal/router/policy/resolver.go) and the identity of an arm
    (arm.go).  A request is [router.Request] with the fields only the policies read; the requests of the turn loop
    carry the others. *)

From stdpp Require Import base gmap sets list strings sorting.
From Stdlib Require Import ZArith Lia Ascii.
From S2P Require Import Prelude Strings Marshal Hash Floats Types Catalog ForceNames HmmRoster.
Open Scope string_scope.
Open Scope Z_scope.

(** ** Requests *)

Record TranslationRequirements := { req_Endpoint : string; ReasoningReplay : bool; ReasoningSignature : bool }.
Record PolicyRequest := {
  turn : Request.t;
  Requirements : TranslationRequirements;
  ReasoningConfigurationSHA256 : string;
  ToolConfigurationSHA256 : string;
  AvailableTools : list string;
  PreferredModels : list string;
  RoutingKnobs : option Overrides;
  ClusterArmOverrides : gmap string (list string);
  ShadowMode : bool;
  TrainingAllowed : bool;
  DebugEnabled : bool
}.

(** ** The identity of an arm (arm.go) *)

Module Arm.
(** [ArmIdentity]. *)
Record Identity := {
  CanonicalModel : string; Endpoint : string; ModelRevision : string; Provider : string;
  ReasoningConfig : string; ToolConfig : string; UpstreamID : string
}.
(** [ArmContext]: what every arm of a request shares. *)
Record Context := { ctx_Endpoint : string; ctx_Reasoning : string; ctx_Tool : string }.
Definition payload (a : Identity) : JSON :=
  VObject [("canonical_model", VString a.(CanonicalModel)); ("endpoint", VString a.(Endpoint)); ("model_revision", VString a.(ModelRevision));
    ("provider", VString a.(Provider)); ("reasoning_configuration_sha256", VString a.(ReasoningConfig));
    ("tool_configuration_sha256", VString a.(ToolConfig)); ("upstream_id", VString a.(UpstreamID))].
Definition MakeArmID (a : Identity) : string := "tq_arm_" +:+ sha256_hex (Marshal (payload a)).
End Arm.

Section ArmContext.
Context `{GoUnicode}.
Definition hashReasoningConfiguration (req : PolicyRequest) : string :=
  let forceEffort := match req.(RoutingKnobs) with Some k => ToLower (TrimSpace k.(ForceEffort)) | None => "" end in
  sha256_hex (Marshal (VObject [("force_effort", VString forceEffort);
    ("reasoning_replay", VBool req.(Requirements).(ReasoningReplay)); ("reasoning_signature", VBool req.(Requirements).(ReasoningSignature))])).
Definition combineReasoningConfigurationHash (req : PolicyRequest) : string :=
  let routingHash := hashReasoningConfiguration req in
  if String.eqb req.(ReasoningConfigurationSHA256) "" then routingHash
  else sha256_hex (Marshal (VObject [("ingress_hash", VString req.(ReasoningConfigurationSHA256)); ("routing_hash", VString routingHash)])).
(** No tools are a nil slice, which is written as null. *)
Definition hashToolConfiguration (req : PolicyRequest) : string :=
  let tools := match req.(AvailableTools) with [] => VNull | l => VArray (VString <$> sort_strings l) end in
  sha256_hex (Marshal (VObject [("has_tools", VBool req.(turn).(Request.HasTools)); ("tools", tools)])).
Definition DeriveArmContext (req : PolicyRequest) : Arm.Context := {|
  Arm.ctx_Endpoint := if String.eqb req.(Requirements).(req_Endpoint) "" then "unknown" else req.(Requirements).(req_Endpoint);
  Arm.ctx_Reasoning := combineReasoningConfigurationHash req;
  Arm.ctx_Tool := if String.eqb req.(ToolConfigurationSHA256) "" then hashToolConfiguration req else req.(ToolConfigurationSHA256)
|}.
End ArmContext.

(** ** Candidates *)

Inductive ExclusionReason :=
| ExclusionRequested | ExclusionNotAllowlisted | ExclusionUnknownCatalogModel | ExclusionUnmappedRoster | ExclusionNoProvider
| ExclusionProviderPolicy | ExclusionImageCapability | ExclusionToolCapability | ExclusionAutomaticDisabled | ExclusionAmbiguousRoster
| ExclusionContextWindow.
Record Diagnostic := { d_CatalogID : string; d_RosterID : string; d_Reason : ExclusionReason }.

Module Candidate.
Record t := {
  ArmID : string; RosterID : string; CatalogID : string; Provider : string; UpstreamID : string; BindingIndex : Z;
  Endpoint : string; ModelRevision : string; ReasoningConfig : string; ToolConfig : string;
  PreferenceRank : option Z;
  InputUSDPer1M : f64; OutputUSDPer1M : f64; EstimatedCostUSD : f64; CacheReadMultiplier : f64;
  MarginalCostFactor : f64; EffectiveInputUSDPer1M : f64; EffectiveOutputUSDPer1M : f64; EffectiveEstimatedCostUSD : f64;
  ContextWindow : Z; Tier : string; SupportsTools : bool; SupportsImages : bool
}.
End Candidate.

Module Binding.
Record t := {
  ArmID : string; CatalogID : string; Provider : string; UpstreamID : string; BindingIndex : Z;
  Endpoint : string; ModelRevision : string; ReasoningConfig : string; ToolConfig : string; Effort : string
}.
Definition set_Effort (e : string) (b : t) : t := {|
  ArmID := b.(ArmID); CatalogID := b.(CatalogID); Provider := b.(Provider); UpstreamID := b.(UpstreamID); BindingIndex := b.(BindingIndex);
  Endpoint := b.(Endpoint); ModelRevision := b.(ModelRevision); ReasoningConfig := b.(ReasoningConfig); ToolConfig := b.(ToolConfig); Effort := e |}.
End Binding.

(** [ResolvedCandidates]. *)
Record Resolved := {
  Candidates : list Candidate.t;
  ByArmID : gmap string Binding.t;
  ByRosterID : gmap string Binding.t;
  Diagnostics : list Diagnostic
}.

Record Resolver := {
  deployed : gset string;
  available : option (gset string);
  mapper : Model -> string;
  providerPolicy : ProviderPolicy;
  enumerateBindings : bool;
  routerSelectsArm : bool;
  toolLow : gset string;
  imageLow : gset string
}.
Definition NewResolver (deployed : gset string) (available : option (gset string)) (mapper : Model -> string) (policy : ProviderPolicy) : Resolver := {|
  deployed := deployed; available := available; mapper := mapper; providerPolicy := policy; enumerateBindings := false; routerSelectsArm := false;
  toolLow := ToolUseLowSet; imageLow := ImageUnsupportedSet |}.
Definition NewArmResolver (deployed : gset string) (available : option (gset string)) (mapper : Model -> string) (policy : ProviderPolicy) : Resolver := {|
  deployed := deployed; available := available; mapper := mapper; providerPolicy := policy; enumerateBindings := true; routerSelectsArm := false;
  toolLow := ToolUseLowSet; imageLow := ImageUnsupportedSet |}.
Definition RouterSelectsArm (r : Resolver) : Resolver := {|
  deployed := r.(deployed); available := r.(available); mapper := r.(mapper); providerPolicy := r.(providerPolicy);
  enumerateBindings := r.(enumerateBindings); routerSelectsArm := true; toolLow := r.(toolLow); imageLow := r.(imageLow) |}.
Definition SchemaVersion (r : Resolver) : string :=
  if r.(routerSelectsArm) then "policy_router_v3" else if r.(enumerateBindings) then "policy_router_v2" else "policy_router_v1".

Definition expectedOutputTokens (req : PolicyRequest) : Z :=
  match req.(RoutingKnobs) with Some {| ExpectedOutputTokens := Some n |} => Z.max n 0 | _ => 0 end.
Definition requiredContextTokens (req : PolicyRequest) : Z :=
  wrap64 (Z.max req.(turn).(Request.EstimatedInputTokens) 0 + expectedOutputTokens req).
Definition estimatedCostUSD (req : PolicyRequest) (p : Pricing) : f64 :=
  f64_div (f64_add (f64_mul (f64_of_Z req.(turn).(Request.EstimatedInputTokens)) p.(Catalog.InputUSDPer1M))
                   (f64_mul (f64_of_Z (expectedOutputTokens req)) p.(Catalog.OutputUSDPer1M))) million.
Definition allowedProviders (r : Resolver) (enabled : option (gset string)) : gset string :=
  filter (fun p => Allows r.(providerPolicy) p = true) (default ∅ enabled).
(** The first rank of each model. *)
Definition preferenceRanks (models : list string) : gmap string Z :=
  fold_left (fun (result : gmap string Z) rm => match result !! rm.2 with Some _ => result | None => <[rm.2 := rm.1]> result end)
    (imap (fun rank m => (Z.of_nat rank, m)) models) ∅.
(** [len(set) > 0]. *)
Definition listed (s : option (gset string)) : bool := negb (bool_decide (default ∅ s = ∅)).

(** ** Resolution *)

(** What the screening of a deployed model finds: why it is not offered, or its row, roster ID, window and bindings. *)
Inductive Screened := Dropped (rosterID : string) (reason : ExclusionReason) | Eligible (m : Model) (rosterID : string) (window : Z) (bindings : list IndexedBinding).

Section Resolve.
Context `{GoUnicode}.
Definition screen (r : Resolver) (req : PolicyRequest) (id : string) : Screened :=
  if (listed req.(turn).(Request.AllowedModels) && negb (in_opt_set id req.(turn).(Request.AllowedModels)))%bool then Dropped "" ExclusionNotAllowlisted
  else if in_opt_set id req.(turn).(Request.ExcludedModels) then Dropped "" ExclusionRequested
  else match ByID id with
  | None => Dropped "" ExclusionUnknownCatalogModel
  | Some m =>
      let rosterID := r.(mapper) m in
      if String.eqb rosterID "" then Dropped "" ExclusionUnmappedRoster
      else
        let window := ContextWindowFor id in
        if window <? requiredContextTokens req then Dropped rosterID ExclusionContextWindow
        else
          let enabled := match req.(turn).(Request.EnabledProviders) with Some s => Some s | None => r.(available) end in
          match EnumerateBindings id (Some (allowedProviders r enabled)) with
          | [] => Dropped rosterID (match EnumerateBindings id enabled with [] => ExclusionNoProvider | _ => ExclusionProviderPolicy end)
          | bindings => Eligible m rosterID window (if r.(enumerateBindings) then bindings else firstn 1 bindings)
          end
  end.

Definition candidate (r : Resolver) (req : PolicyRequest) (id : string) (m : Model) (rosterID : string) (window : Z) (ib : IndexedBinding) : Candidate.t :=
  let ctx := DeriveArmContext req in
  let '(i, b) := ib in
  let upstreamID := UpstreamIDFor id b.(Catalog.UpstreamID) in
  let armID := if r.(enumerateBindings)
    then Arm.MakeArmID {| Arm.CanonicalModel := id; Arm.Endpoint := Arm.ctx_Endpoint ctx; Arm.ModelRevision := upstreamID; Arm.Provider := b.(Catalog.Provider);
           Arm.ReasoningConfig := Arm.ctx_Reasoning ctx; Arm.ToolConfig := Arm.ctx_Tool ctx; Arm.UpstreamID := upstreamID |}
    else rosterID in
  let factor := match req.(turn).(Request.SubsidizedModelCostFactor) !! id with
    | Some f => if f_gt f f_zero then f else f64_of_Z 1 | None => f64_of_Z 1 end in
  let price := b.(Price) in
  {| Candidate.ArmID := armID; Candidate.RosterID := rosterID; Candidate.CatalogID := id; Candidate.Provider := b.(Catalog.Provider);
     Candidate.UpstreamID := upstreamID; Candidate.BindingIndex := Z.of_nat i; Candidate.Endpoint := Arm.ctx_Endpoint ctx;
     Candidate.ModelRevision := upstreamID; Candidate.ReasoningConfig := Arm.ctx_Reasoning ctx; Candidate.ToolConfig := Arm.ctx_Tool ctx;
     Candidate.PreferenceRank := preferenceRanks req.(PreferredModels) !! id;
     Candidate.InputUSDPer1M := price.(Catalog.InputUSDPer1M); Candidate.OutputUSDPer1M := price.(Catalog.OutputUSDPer1M);
     Candidate.EstimatedCostUSD := estimatedCostUSD req price; Candidate.CacheReadMultiplier := EffectiveCacheReadMultiplier price;
     Candidate.MarginalCostFactor := factor;
     Candidate.EffectiveInputUSDPer1M := f64_mul price.(Catalog.InputUSDPer1M) factor;
     Candidate.EffectiveOutputUSDPer1M := f64_mul price.(Catalog.OutputUSDPer1M) factor;
     Candidate.EffectiveEstimatedCostUSD := f64_mul (estimatedCostUSD req price) factor;
     Candidate.ContextWindow := window; Candidate.Tier := Tier_String m.(model_Tier);
     Candidate.SupportsTools := negb (match m.(model_ToolUseQuality) with ToolUseLow => true | _ => false end || match m.(model_AgenticUse) with AgenticLow => true | _ => false end)%bool;
     Candidate.SupportsImages := match m.(model_ImageInput) with ImageInputUnsupported => false | _ => true end |}.
Definition considered (r : Resolver) (req : PolicyRequest) (acc : list Candidate.t * list Diagnostic) (id : string) : list Candidate.t * list Diagnostic :=
  let '(base, diagnostics) := acc in
  match screen r req id with
  | Dropped rosterID reason => (base, diagnostics ++ [{| d_CatalogID := id; d_RosterID := rosterID; d_Reason := reason |}])%list
  | Eligible m rosterID window bindings => (base ++ (candidate r req id m rosterID window <$> bindings), diagnostics)%list
  end.
Definition softFilter (base : list Candidate.t) (active : bool) (drop : gset string) (reason : ExclusionReason) (diagnostics : list Diagnostic)
  : list Candidate.t * list Diagnostic :=
  if (negb active || bool_decide (drop = ∅))%bool then (base, diagnostics)
  else
    let dropped := List.filter (fun c => in_set c.(Candidate.CatalogID) drop) base in
    match List.filter (fun c => negb (in_set c.(Candidate.CatalogID) drop)) base with
    | [] => (base, diagnostics)
    | kept => (kept, diagnostics ++ ((fun c => {| d_CatalogID := c.(Candidate.CatalogID); d_RosterID := c.(Candidate.RosterID); d_Reason := reason |}) <$> dropped))%list
    end.
(** The candidates before the arms are told apart, with the diagnostics so far. *)
Definition filtered (r : Resolver) (req : PolicyRequest) : list Candidate.t * list Diagnostic :=
  let '(base, diagnostics) := fold_left (considered r req) (sort_strings (elements r.(deployed))) ([], []) in
  let '(base, diagnostics) := softFilter base true (default ∅ req.(turn).(Request.AutomaticExcludedModels)) ExclusionAutomaticDisabled diagnostics in
  let '(base, diagnostics) := softFilter base req.(turn).(Request.HasImages) r.(imageLow) ExclusionImageCapability diagnostics in
  softFilter base req.(turn).(Request.HasTools) r.(toolLow) ExclusionToolCapability diagnostics.
Definition binding_of (c : Candidate.t) : Binding.t := {|
  Binding.ArmID := c.(Candidate.ArmID); Binding.CatalogID := c.(Candidate.CatalogID); Binding.Provider := c.(Candidate.Provider);
  Binding.UpstreamID := c.(Candidate.UpstreamID); Binding.BindingIndex := c.(Candidate.BindingIndex); Binding.Endpoint := c.(Candidate.Endpoint);
  Binding.ModelRevision := c.(Candidate.ModelRevision); Binding.ReasoningConfig := c.(Candidate.ReasoningConfig);
  Binding.ToolConfig := c.(Candidate.ToolConfig); Binding.Effort := "" |}.
(** [selectionCounts[armID]]. *)
Definition arm_count (base : list Candidate.t) (armID : string) : nat := length (List.filter (fun c => String.eqb c.(Candidate.ArmID) armID) base).
(** One candidate into the result; the second component is the ambiguous roster IDs. *)
Definition offer (base : list Candidate.t) (acc : Resolved * gset string) (c : Candidate.t) : Resolved * gset string :=
  let '(res, ambiguous) := acc in
  if Nat.ltb 1 (arm_count base c.(Candidate.ArmID))
  then ({| Candidates := res.(Candidates); ByArmID := res.(ByArmID); ByRosterID := res.(ByRosterID);
           Diagnostics := res.(Diagnostics) ++ [{| d_CatalogID := c.(Candidate.CatalogID); d_RosterID := c.(Candidate.RosterID); d_Reason := ExclusionAmbiguousRoster |}] |}%list, ambiguous)
  else
    let rosterID := c.(Candidate.RosterID) in
    let '(byRoster, ambiguous') :=
      if in_set rosterID ambiguous then (res.(ByRosterID), ambiguous)
      else match res.(ByRosterID) !! rosterID with
           | None => (<[rosterID := binding_of c]> res.(ByRosterID), ambiguous)
           | Some _ => (delete rosterID res.(ByRosterID), {[rosterID]} ∪ ambiguous)
           end in
    ({| Candidates := (res.(Candidates) ++ [c])%list; ByArmID := <[c.(Candidate.ArmID) := binding_of c]> res.(ByArmID); ByRosterID := byRoster;
        Diagnostics := res.(Diagnostics) |}, ambiguous').
Definition Resolve (r : Resolver) (req : PolicyRequest) : Resolved :=
  let '(base, diagnostics) := filtered r req in
  (fold_left (offer base) base ({| Candidates := []; ByArmID := ∅; ByRosterID := ∅; Diagnostics := diagnostics |}, ∅)).1.

(** ** Selection *)

(** The loop of [splitEffort], down from position [i]. *)
Fixpoint split_effort (i : nat) (armID : string) : string * string :=
  match i with
  | O => (armID, "")
  | S j => if bool_decide (str_nth i armID = Some ":"%char)
           then let suffix := str_drop (S i) armID in
                if negb (IsValidEffort suffix) then (armID, "") else (str_take i armID, NormalizeLegacyEffort (CanonicalizeEffort suffix))
           else split_effort j armID
  end.
Definition splitEffort (armID : string) : string * string := split_effort (String.length armID - 1) armID.
Definition BindingForSelection (res : Resolved) (armID rosterID : string) : option Binding.t :=
  let by_roster := let '(lookup, effort) := splitEffort rosterID in Binding.set_Effort effort <$> res.(ByRosterID) !! lookup in
  if String.eqb armID "" then by_roster
  else let '(lookup, effort) := splitEffort armID in
       match res.(ByArmID) !! lookup with
       | Some b => Some (Binding.set_Effort effort b)
       | None => by_roster
       end.
End Resolve.

(** ** What a decision records of the candidates *)

Definition CandidateModels (res : Resolved) : list string :=
  (fold_left (fun (acc : list string * gset string) c => if in_set c.(Candidate.CatalogID) acc.2 then acc
     else ((acc.1 ++ [c.(Candidate.CatalogID)])%list, {[c.(Candidate.CatalogID)]} ∪ acc.2)) res.(Candidates) ([], ∅)).1.
Definition CandidateArmIDs (res : Resolved) : list string := Candidate.ArmID <$> res.(Candidates).
Definition CandidateProviders (res : Resolved) : gmap string string :=
  fold_left (fun (m : gmap string string) c => match m !! c.(Candidate.CatalogID) with Some _ => m | None => <[c.(Candidate.CatalogID) := c.(Candidate.Provider)]> m end)
    res.(Candidates) ∅.
Definition CandidateArmProviders (res : Resolved) : gmap string string :=
  fold_left (fun (m : gmap string string) c => <[c.(Candidate.ArmID) := c.(Candidate.Provider)]> m) res.(Candidates) ∅.
(** A nil map reads as an empty one. *)
Definition CatalogCandidateScores (res : Resolved) (scores : gmap string f32) : gmap string f32 :=
  fold_left (fun (m : gmap string f32) c => match m !! c.(Candidate.CatalogID) with
      | Some _ => m
      | None => match scores !! c.(Candidate.ArmID) with
                | Some score => <[c.(Candidate.CatalogID) := score]> m
                | None => match scores !! c.(Candidate.RosterID) with Some score => <[c.(Candidate.CatalogID) := score]> m | None => m end
                end
      end) res.(Candidates) ∅.
Definition ArmCandidateScores (res : Resolved) (scores : gmap string f32) : gmap string f32 :=
  filter (fun kv => is_Some (res.(ByArmID) !! kv.1)) scores.

(** ** Facts: screening *)

Section Facts.
Context `{GoUnicode}.

(** What a candidate is made of. *)
Definition candidates_of (r : Resolver) (req : PolicyRequest) (id : string) : list Candidate.t :=
  match screen r req id with
  | Dropped _ _ => []
  | Eligible m rosterID window bindings => candidate r req id m rosterID window <$> bindings
  end.
Definition complaint_of (r : Resolver) (req : PolicyRequest) (id : string) : list Diagnostic :=
  match screen r req id with
  | Dropped rosterID reason => [{| d_CatalogID := id; d_RosterID := rosterID; d_Reason := reason |}]
  | Eligible _ _ _ _ => []
  end.
Lemma considered_fold (r : Resolver) (req : PolicyRequest) (ids : list string) acc :
  fold_left (considered r req) ids acc = ((acc.1 ++ concat (candidates_of r req <$> ids))%list, (acc.2 ++ concat (complaint_of r req <$> ids))%list).
Proof.
  revert acc; induction ids as [|id ids IH]; intros [base ds]; cbn; [rewrite !app_nil_r; reflexivity|].
  rewrite IH. unfold considered, candidates_of, complaint_of. destruct (screen r req id); cbn; rewrite <- ?app_assoc, ?app_nil_r; reflexivity.
Qed.
Lemma candidate_fields (r : Resolver) (req : PolicyRequest) id m rid w ib :
  (candidate r req id m rid w ib).(Candidate.CatalogID) = id /\ (candidate r req id m rid w ib).(Candidate.RosterID) = rid /\
  (candidate r req id m rid w ib).(Candidate.BindingIndex) = Z.of_nat ib.1 /\ (candidate r req id m rid w ib).(Candidate.Provider) = ib.2.(Catalog.Provider) /\
  (candidate r req id m rid w ib).(Candidate.UpstreamID) = UpstreamIDFor id ib.2.(Catalog.UpstreamID) /\
  (r.(enumerateBindings) = false -> (candidate r req id m rid w ib).(Candidate.ArmID) = rid).
Proof.
  destruct ib as [i b]. do 5 (split; [reflexivity|]). intros E.
  transitivity (if enumerateBindings r then Candidate.ArmID (candidate r req id m rid w (i, b)) else rid); [|rewrite E; reflexivity].
  unfold candidate at 1. cbv beta iota zeta delta [Candidate.ArmID]. rewrite E. reflexivity.
Qed.

(** What a request demands of a candidate. *)
Record offerable (r : Resolver) (req : PolicyRequest) (c : Candidate.t) : Prop := {
  of_deployed : c.(Candidate.CatalogID) ∈ r.(deployed);
  of_allowed : listed req.(turn).(Request.AllowedModels) = true -> in_opt_set c.(Candidate.CatalogID) req.(turn).(Request.AllowedModels) = true;
  of_excluded : in_opt_set c.(Candidate.CatalogID) req.(turn).(Request.ExcludedModels) = false;
  of_window : requiredContextTokens req <= ContextWindowFor c.(Candidate.CatalogID);
  of_provider : in_opt_set c.(Candidate.Provider) (match req.(turn).(Request.EnabledProviders) with Some s => Some s | None => r.(available) end) = true;
  of_policy : Allows r.(providerPolicy) c.(Candidate.Provider) = true;
  of_binding : exists m b, ByID c.(Candidate.CatalogID) = Some m /\ r.(mapper) m = c.(Candidate.RosterID) /\ c.(Candidate.RosterID) <> "" /\
    m.(Providers) !! Z.to_nat c.(Candidate.BindingIndex) = Some b /\ b.(Catalog.Provider) = c.(Candidate.Provider) /\
    c.(Candidate.UpstreamID) = UpstreamIDFor c.(Candidate.CatalogID) b.(Catalog.UpstreamID)
}.
Lemma EnumerateBindings_elem id (avail : option (gset string)) ib : ib ∈ EnumerateBindings id avail ->
  exists m, ByID id = Some m /\ m.(Providers) !! ib.1 = Some ib.2 /\ in_opt_set ib.2.(Catalog.Provider) avail = true.
Proof.
  unfold EnumerateBindings. destruct (ByID id) as [m|]; [|intros E; inversion E]. intros E. apply list_elem_of_In, filter_In in E as [E A].
  exists m. split; [reflexivity|]. split; [|exact A]. apply list_elem_of_In, list_elem_of_lookup_1 in E as [j E].
  rewrite list_lookup_imap in E. destruct (Providers m !! j) as [b|] eqn:B; cbn in E; [|discriminate]. injection E as <-. exact B.
Qed.
Lemma screen_offerable (r : Resolver) (req : PolicyRequest) id c : id ∈ r.(deployed) -> c ∈ candidates_of r req id -> offerable r req c.
Proof.
  intros D. unfold candidates_of, screen.
  destruct (listed _ && negb _)%bool eqn:A; [intros E; destruct (not_elem_of_nil c E)|].
  destruct (in_opt_set id (Request.ExcludedModels (turn req))) eqn:X; [intros E; destruct (not_elem_of_nil c E)|].
  destruct (ByID id) as [m|] eqn:M; [|intros E; destruct (not_elem_of_nil c E)].
  destruct (String.eqb_spec (mapper r m) "") as [|Nm]; [intros E; destruct (not_elem_of_nil c E)|].
  destruct (Z.ltb_spec (ContextWindowFor id) (requiredContextTokens req)); [intros E; destruct (not_elem_of_nil c E)|].
  set (enabled := match Request.EnabledProviders (turn req) with Some s => Some s | None => available r end).
  destruct (EnumerateBindings id (Some (allowedProviders r enabled))) as [|ib0 l] eqn:B; [intros E; destruct (not_elem_of_nil c E)|].
  intros E. apply list_elem_of_fmap in E as (ib & -> & I).
  assert (I' : ib ∈ EnumerateBindings id (Some (allowedProviders r enabled))).
  { rewrite B. destruct (enumerateBindings r); [exact I|]. cbn in I. apply list_elem_of_singleton in I as ->. left. }
  apply EnumerateBindings_elem in I' as (m' & M' & L & P). rewrite M in M'. injection M' as <-.
  cbn in P. unfold in_set in P. rewrite bool_decide_eq_true in P. unfold allowedProviders in P. apply elem_of_filter in P as [Pa Pe].
  destruct (candidate_fields r req id m (mapper r m) (ContextWindowFor id) ib) as (F1 & F2 & F3 & F4 & F5 & _).
  split; rewrite ?F1, ?F2, ?F3, ?F4, ?F5; auto.
  - intros La. rewrite La in A. cbn in A. apply negb_false_iff in A. exact A.
  - fold enabled. destruct enabled as [s|]; cbn in *; [unfold in_set; apply bool_decide_eq_true; exact Pe|set_solver].
  - exists m, ib.2. rewrite Nat2Z.id. repeat split; auto.
Qed.

(** ** Facts: the soft filters *)

Lemma filter_sublist {A} (f : A -> bool) (l : list A) : sublist (List.filter f l) l.
Proof. induction l as [|a l IH]; cbn; [constructor|]. destruct (f a); constructor; exact IH. Qed.
Lemma softFilter_spec base active drop reason ds :
  let '(base', ds') := softFilter base active drop reason ds in
  sublist base' base /\ (base' = [] <-> base = []) /\
  (forall c, c ∈ base -> c ∈ base' \/ exists d, d ∈ ds' /\ d.(d_CatalogID) = c.(Candidate.CatalogID) /\ d.(d_Reason) = reason) /\
  (forall d, d ∈ ds -> d ∈ ds') /\
  (forall d, d ∈ ds' -> d ∈ ds \/ exists c, c ∈ base /\ d.(d_CatalogID) = c.(Candidate.CatalogID)) /\
  (active = true -> (exists c, c ∈ base' /\ c.(Candidate.CatalogID) ∈ drop) -> forall c, c ∈ base -> c.(Candidate.CatalogID) ∈ drop).
Proof.
  unfold softFilter. destruct (negb active || bool_decide (drop = ∅))%bool eqn:A.
  { split; [reflexivity|]. split; [reflexivity|]. split; [auto|]. split; [auto|]. split; [auto|]. intros -> (c & _ & D).
    cbn in A. apply bool_decide_eq_true in A. set_solver. }
  set (keep := fun c => negb (in_set (Candidate.CatalogID c) drop)).
  assert (K : forall c, c ∈ List.filter keep base <-> c ∈ base /\ c.(Candidate.CatalogID) ∉ drop).
  { intros c. rewrite list_elem_of_In, filter_In, <- list_elem_of_In. unfold keep, in_set. rewrite negb_true_iff, bool_decide_eq_false. reflexivity. }
  destruct (List.filter keep base) as [|c0 kept] eqn:F.
  - split; [reflexivity|]. split; [reflexivity|]. split; [auto|]. split; [auto|]. split; [auto|]. intros _ _ c C.
    destruct (decide (Candidate.CatalogID c ∈ drop)) as [|N]; [assumption|]. pose proof (proj2 (K c) (conj C N)) as E. inversion E.
  - split; [rewrite <- F; apply filter_sublist|]. split.
    { split; [discriminate|]. intros ->. cbn in F. discriminate. }
    split.
    { intros c C. destruct (decide (Candidate.CatalogID c ∈ drop)) as [I|N]; [right|left; apply K; auto].
      eexists. split; [apply elem_of_app; right; apply list_elem_of_fmap; exists c; split; [reflexivity|]|split; reflexivity].
      apply list_elem_of_In, filter_In. split; [apply list_elem_of_In; exact C|]. unfold in_set. apply bool_decide_eq_true. exact I. }
    split; [intros d D; apply elem_of_app; auto|]. split.
    { intros d D. apply elem_of_app in D as [D|D]; [auto|right]. apply list_elem_of_fmap in D as (c & -> & C). exists c.
      apply list_elem_of_In, filter_In in C as [C _]. split; [apply list_elem_of_In; exact C|reflexivity]. }
    intros _ (c & C & D) c' C'. apply K in C as [_ N]. contradiction.
Qed.

(** ** Facts: the tables of the result *)

Definition unique (base : list Candidate.t) (c : Candidate.t) : bool := negb (Nat.ltb 1 (arm_count base c.(Candidate.ArmID))).
Definition rostered (x : string) (cs : list Candidate.t) : list Candidate.t := List.filter (fun c => String.eqb c.(Candidate.RosterID) x) cs.
Definition ambiguity (c : Candidate.t) : Diagnostic :=
  {| d_CatalogID := c.(Candidate.CatalogID); d_RosterID := c.(Candidate.RosterID); d_Reason := ExclusionAmbiguousRoster |}.
Definition the_one (cs : list Candidate.t) : option Binding.t := match cs with [c] => Some (binding_of c) | _ => None end.
Definition nothing (ds : list Diagnostic) : Resolved * gset string := ({| Candidates := []; ByArmID := ∅; ByRosterID := ∅; Diagnostics := ds |}, ∅).

Lemma rostered_snoc x cs c : rostered x (cs ++ [c])%list = (rostered x cs ++ if String.eqb c.(Candidate.RosterID) x then [c] else [])%list.
Proof. unfold rostered. rewrite List.filter_app. cbn. destruct (String.eqb _ x); reflexivity. Qed.

Lemma offer_candidates base l ds :
  (fold_left (offer base) l (nothing ds)).1.(Candidates) = List.filter (unique base) l /\
  (fold_left (offer base) l (nothing ds)).1.(Diagnostics) = (ds ++ (ambiguity <$> List.filter (fun c => negb (unique base c)) l))%list.
Proof.
  induction l as [|c l IH] using rev_ind; [cbn; rewrite app_nil_r; auto|]. rewrite fold_left_app, !List.filter_app, fmap_app, app_assoc. cbn.
  destruct (fold_left (offer base) l (nothing ds)) as [res amb]. cbn in IH. destruct IH as [<- <-]. unfold unique, offer.
  destruct (Nat.ltb 1 _); cbn; [rewrite app_nil_r; auto|].
  destruct (in_set _ amb); [|destruct (ByRosterID res !! _)]; cbn; rewrite ?app_nil_r; auto.
Qed.

Lemma offer_rosters base l ds x :
  let st := fold_left (offer base) l (nothing ds) in
  let same := rostered x st.1.(Candidates) in
  st.1.(ByRosterID) !! x = the_one same /\ (in_set x st.2 = true <-> (2 <= length same)%nat).
Proof.
  cbv zeta. induction l as [|c l IH] using rev_ind; [cbn; split; [apply lookup_empty|]; unfold in_set; rewrite bool_decide_eq_true; split; [set_solver|lia]|].
  rewrite fold_left_app. cbn [fold_left]. destruct (fold_left (offer base) l (nothing ds)) as [res amb]. cbn [fst snd] in IH. destruct IH as [IH1 IH2].
  unfold offer. destruct (Nat.ltb 1 _); [exact (conj IH1 IH2)|].
  destruct (String.eqb_spec c.(Candidate.RosterID) x) as [E|N].
  2:{ assert (K : rostered x (Candidates res ++ [c]) = rostered x (Candidates res)).
      { rewrite rostered_snoc, (proj2 (String.eqb_neq _ _) N), app_nil_r. reflexivity. }
      destruct (in_set (Candidate.RosterID c) amb); [|destruct (ByRosterID res !! Candidate.RosterID c)]; cbn [fst snd Candidates ByRosterID]; rewrite K;
        [auto|rewrite lookup_delete_ne by congruence|rewrite lookup_insert_ne by congruence]; (split; [exact IH1|]); [|exact IH2].
      rewrite <- IH2. unfold in_set. rewrite !bool_decide_eq_true. set_solver. }
  assert (K : rostered x (Candidates res ++ [c]) = (rostered x (Candidates res) ++ [c])%list) by (rewrite rostered_snoc, (proj2 (String.eqb_eq _ _) E); reflexivity).
  rewrite E.
  destruct (rostered x (Candidates res)) as [|c1 [|c2 r]] eqn:R.
  - destruct (in_set x amb) eqn:A; [pose proof (proj1 IH2 eq_refl) as A2; cbn in A2; lia|]. rewrite IH1. cbn [the_one fst snd Candidates ByRosterID]. rewrite K, lookup_insert_eq. cbn.
    split; [reflexivity|]. rewrite A. split; [discriminate|lia].
  - destruct (in_set x amb) eqn:A; [pose proof (proj1 IH2 eq_refl) as A2; cbn in A2; lia|]. rewrite IH1. cbn [the_one fst snd Candidates ByRosterID]. rewrite K, lookup_delete_eq. cbn.
    split; [reflexivity|]. split; [lia|]. intros _. unfold in_set. apply bool_decide_eq_true. set_solver.
  - rewrite (proj2 IH2) by (cbn; lia). cbn [fst snd Candidates ByRosterID]. rewrite K. cbn. split; [exact IH1|]. split; [intros _; lia|intros _; apply IH2; cbn; lia].
Qed.

Lemma offer_arms base l ds : NoDup (Candidate.ArmID <$> List.filter (unique base) l) ->
  forall a b, (fold_left (offer base) l (nothing ds)).1.(ByArmID) !! a = Some b <->
    exists c, c ∈ List.filter (unique base) l /\ c.(Candidate.ArmID) = a /\ b = binding_of c.
Proof.
  induction l as [|c l IH] using rev_ind; intros D a b.
  { cbn. rewrite lookup_empty. split; [discriminate|intros (c & E & _); inversion E]. }
  rewrite List.filter_app in *. rewrite fmap_app in D. cbn in D |- *. apply NoDup_app in D as (D1 & D2 & _). specialize (IH D1 a b).
  rewrite fold_left_app. cbn [fold_left]. destruct (fold_left (offer base) l (nothing ds)) as [res amb]. cbn [fst] in IH.
  unfold offer. unfold unique at 2. unfold unique at 2 in D2. destruct (Nat.ltb 1 _); cbn [negb] in *; [rewrite app_nil_r; exact IH|].
  assert (M : <[Candidate.ArmID c := binding_of c]> (ByArmID res) !! a = Some b <->
    exists c0, c0 ∈ (List.filter (unique base) l ++ [c])%list /\ c0.(Candidate.ArmID) = a /\ b = binding_of c0).
  { destruct (decide (Candidate.ArmID c = a)) as [<-|N].
    - rewrite lookup_insert_eq. split.
      + intros [= <-]. exists c. split; [apply elem_of_app; right; left|auto].
      + intros (c0 & I & E & ->). apply elem_of_app in I as [I|I]; [|apply list_elem_of_singleton in I as ->; reflexivity].
        exfalso. refine (D2 (Candidate.ArmID c) _ _); [|left]. apply list_elem_of_fmap. eauto.
    - rewrite lookup_insert_ne by exact N. rewrite IH. split; intros (c0 & I & E & ->); exists c0; (split; [|auto]).
      + apply elem_of_app; auto.
      + apply elem_of_app in I as [I|I]; [exact I|]. apply list_elem_of_singleton in I as ->. contradiction. }
  destruct (in_set _ amb); [|destruct (ByRosterID res !! _)]; cbn [fst ByArmID]; exact M.
Qed.

Lemma NoDup_counted (l : list Candidate.t) : (forall a, (arm_count l a <= 1)%nat) -> NoDup (Candidate.ArmID <$> l).
Proof.
  induction l as [|c l IH]; intros C; [constructor|]. cbn. apply NoDup_cons. split.
  - intros E. apply list_elem_of_fmap in E as (c' & E & I). specialize (C (Candidate.ArmID c)). unfold arm_count in C. cbn in C.
    rewrite String.eqb_refl in C. cbn in C.
    assert (X : In c' (List.filter (fun c0 => String.eqb (Candidate.ArmID c0) (Candidate.ArmID c)) l)).
    { apply filter_In. split; [apply list_elem_of_In; exact I|]. rewrite <- E. apply String.eqb_refl. }
    destruct (List.filter _ l); [inversion X|cbn in C; lia].
  - apply IH. intros a. specialize (C a). unfold arm_count in *. cbn in C. destruct (String.eqb _ a); cbn in C; lia.
Qed.
Lemma unique_distinct (base : list Candidate.t) : NoDup (Candidate.ArmID <$> List.filter (unique base) base).
Proof.
  apply NoDup_counted. intros a. unfold arm_count.
  destruct (List.filter _ (List.filter (unique base) base)) as [|c r] eqn:F; [cbn; lia|].
  assert (X : In c (List.filter (fun c0 => String.eqb (Candidate.ArmID c0) a) (List.filter (unique base) base))) by (rewrite F; left; reflexivity).
  apply filter_In in X as [X1 X2]. apply filter_In in X1 as [_ U]. apply String.eqb_eq in X2. subst a. rewrite <- F.
  unfold unique, arm_count in U. apply negb_true_iff, Nat.ltb_ge in U. etransitivity; [|exact U].
  generalize (unique base) as u. clear. intros u. induction base as [|b l IH]; cbn; [lia|]. destruct (u b); cbn; destruct (String.eqb _ _); cbn; lia.
Qed.

(** ** Facts: the whole resolution *)

Definition hard_candidates (r : Resolver) (req : PolicyRequest) : list Candidate.t :=
  concat (candidates_of r req <$> sort_strings (elements r.(deployed))).
Lemma sorted_elements (s : gset string) id : id ∈ sort_strings (elements s) <-> id ∈ s.
Proof. rewrite sort_strings_elem. apply elem_of_elements. Qed.
Lemma sublist_elem {A} (l k : list A) x : sublist l k -> x ∈ l -> x ∈ k.
Proof. intros S E. exact (sublist_subseteq _ _ S x E). Qed.
Lemma candidates_of_id r req id c : c ∈ candidates_of r req id -> c.(Candidate.CatalogID) = id.
Proof.
  unfold candidates_of. destruct (screen r req id); intros E; [inversion E|]. apply list_elem_of_fmap in E as (ib & -> & _).
  apply candidate_fields.
Qed.
Lemma hard_elem r req c : c ∈ hard_candidates r req <-> c.(Candidate.CatalogID) ∈ r.(deployed) /\ c ∈ candidates_of r req c.(Candidate.CatalogID).
Proof.
  unfold hard_candidates. rewrite list_elem_of_In, in_concat. split.
  - intros (l & I & C). apply list_elem_of_In, list_elem_of_fmap in I as (id & -> & D). apply sorted_elements in D. apply list_elem_of_In in C.
    rewrite (candidates_of_id _ _ _ _ C). auto.
  - intros [D C]. exists (candidates_of r req c.(Candidate.CatalogID)). split; [|apply list_elem_of_In; exact C].
    apply list_elem_of_In, list_elem_of_fmap. eexists. split; [reflexivity|apply sorted_elements; exact D].
Qed.

Lemma screen_bindings r req id m rid w bs : screen r req id = Eligible m rid w bs -> bs <> [].
Proof.
  unfold screen.
  destruct (listed _ && negb _)%bool; [discriminate|]. destruct (in_opt_set id (Request.ExcludedModels (turn req))); [discriminate|].
  destruct (ByID id) as [m0|]; [|discriminate]. destruct (String.eqb (mapper r m0) ""); [discriminate|].
  destruct (ContextWindowFor id <? requiredContextTokens req); [discriminate|].
  destruct (EnumerateBindings id (Some _)) as [|ib l]; [discriminate|]. intros E. injection E as _ _ _ <-. destruct (enumerateBindings r); discriminate.
Qed.

(** What the request's wishes that may be ignored say of a candidate. *)
Definition withdrawn (req : PolicyRequest) (c : Candidate.t) : Prop := c.(Candidate.CatalogID) ∈ default ∅ req.(turn).(Request.AutomaticExcludedModels).
Record soft_facts (r : Resolver) (req : PolicyRequest) (hard base : list Candidate.t) (ds : list Diagnostic) : Prop := {
  sf_hard : sublist base hard;
  sf_empty : base = [] <-> hard = [];
  sf_told : forall id, id ∈ r.(deployed) -> (exists c, c ∈ base /\ c.(Candidate.CatalogID) = id) \/ exists d, d ∈ ds /\ d.(d_CatalogID) = id;
  sf_known : forall d, d ∈ ds -> d.(d_CatalogID) ∈ r.(deployed);
  sf_withdrawn : (exists c, c ∈ base /\ withdrawn req c) -> forall c, c ∈ hard -> withdrawn req c
}.
Lemma filtered_facts r req : soft_facts r req (hard_candidates r req) (filtered r req).1 (filtered r req).2.
Proof.
  unfold filtered. rewrite considered_fold. cbn [fst snd app]. fold (hard_candidates r req).
  set (told := concat (complaint_of r req <$> sort_strings (elements r.(deployed)))).
  assert (T : forall id, id ∈ r.(deployed) -> (exists c, c ∈ hard_candidates r req /\ c.(Candidate.CatalogID) = id) \/ exists d, d ∈ told /\ d.(d_CatalogID) = id).
  { intros id D. destruct (screen r req id) as [rid reason|m rid w bs] eqn:S.
    - right. exists {| d_CatalogID := id; d_RosterID := rid; d_Reason := reason |}. split; [|reflexivity]. unfold told.
      apply list_elem_of_In, in_concat. exists (complaint_of r req id). split.
      + apply list_elem_of_In, list_elem_of_fmap. exists id. split; [reflexivity|apply sorted_elements; exact D].
      + unfold complaint_of. rewrite S. left. reflexivity.
    - left. destruct bs as [|ib bs].
      + destruct (screen_bindings r req id m rid w [] S eq_refl).
      + exists (candidate r req id m rid w ib). destruct (candidate_fields r req id m rid w ib) as (F & _). split; [|exact F].
        apply hard_elem. rewrite F. split; [exact D|]. unfold candidates_of. rewrite S. left. }
  assert (K : forall d, d ∈ told -> d.(d_CatalogID) ∈ r.(deployed)).
  { intros d I. unfold told in I. apply list_elem_of_In, in_concat in I as (l & I & C). apply list_elem_of_In, list_elem_of_fmap in I as (id & -> & D).
    apply sorted_elements in D. unfold complaint_of in C. destruct (screen r req id); [|inversion C]. destruct C as [<-|[]]. exact D. }
  assert (Kh : forall c, c ∈ hard_candidates r req -> c.(Candidate.CatalogID) ∈ r.(deployed)) by (intros c I; apply hard_elem in I; tauto).
  pose proof (softFilter_spec (hard_candidates r req) true (default ∅ (Request.AutomaticExcludedModels (turn req))) ExclusionAutomaticDisabled told) as S1.
  destruct (softFilter (hard_candidates r req) _ _ _ _) as [b1 d1]. destruct S1 as (A1 & B1 & C1 & D1 & E1 & F1).
  pose proof (softFilter_spec b1 (Request.HasImages (turn req)) r.(imageLow) ExclusionImageCapability d1) as S2.
  destruct (softFilter b1 _ _ _ _) as [b2 d2]. destruct S2 as (A2 & B2 & C2 & D2 & E2 & _).
  pose proof (softFilter_spec b2 (Request.HasTools (turn req)) r.(toolLow) ExclusionToolCapability d2) as S3.
  destruct (softFilter b2 _ _ _ _) as [b3 d3]. destruct S3 as (A3 & B3 & C3 & D3 & E3 & _). cbn [fst snd].
  split.
  - etransitivity; [exact A3|]. etransitivity; [exact A2|exact A1].
  - rewrite B3, B2, B1. reflexivity.
  - intros id D. destruct (T id D) as [(c & I & E)|(d & I & E)]; [|right; exists d; split; [auto|exact E]].
    destruct (C1 c I) as [I1|(d & I1 & X & _)]; [|right; exists d; split; [auto|congruence]].
    destruct (C2 c I1) as [I2|(d & I2 & X & _)]; [|right; exists d; split; [auto|congruence]].
    destruct (C3 c I2) as [I3|(d & I3 & X & _)]; [|right; exists d; split; [auto|congruence]]. left. eauto.
  - intros d I. destruct (E3 d I) as [I'|(c & I' & ->)]; [|apply Kh; eauto using sublist_elem].
    destruct (E2 d I') as [I''|(c & I'' & ->)]; [|apply Kh; eauto using sublist_elem]. destruct (E1 d I'') as [I3|(c & I3 & ->)]; auto.
  - intros (c & I & W). apply (F1 eq_refl). exists c. split; [eauto using sublist_elem|exact W].
Qed.
Lemma Resolve_tables r req : let base := (filtered r req).1 in
  (Resolve r req).(Candidates) = List.filter (unique base) base /\
  (Resolve r req).(Diagnostics) = ((filtered r req).2 ++ (ambiguity <$> List.filter (fun c => negb (unique base c)) base))%list /\
  (forall a b, (Resolve r req).(ByArmID) !! a = Some b <-> exists c, c ∈ (Resolve r req).(Candidates) /\ c.(Candidate.ArmID) = a /\ b = binding_of c) /\
  (forall x, (Resolve r req).(ByRosterID) !! x = the_one (rostered x (Resolve r req).(Candidates))) /\
  NoDup (CandidateArmIDs (Resolve r req)).
Proof.
  cbv zeta. unfold Resolve. destruct (filtered r req) as [base ds]. cbn [fst snd]. fold (nothing ds).
  destruct (offer_candidates base base ds) as [C D]. unfold CandidateArmIDs. rewrite C, D.
  split; [reflexivity|]. split; [reflexivity|]. split; [exact (offer_arms base base ds (unique_distinct base))|].
  split; [|apply unique_distinct]. intros x. rewrite <- C. exact (proj1 (offer_rosters base base ds x)).
Qed.
Lemma Resolve_offerable r req c : c ∈ (Resolve r req).(Candidates) -> offerable r req c.
Proof.
  intros I. destruct (Resolve_tables r req) as (C & _). rewrite C in I. apply list_elem_of_In, filter_In in I as [I _]. apply list_elem_of_In in I.
  pose proof (sublist_elem _ _ c (sf_hard _ _ _ _ _ (filtered_facts r req)) I) as Hd. apply hard_elem in Hd as [D E]. exact (screen_offerable r req _ c D E).
Qed.

(** ** Facts: names *)

Lemma LastIndexByte_spec s c k : LastIndexByte s c = Some k <-> str_nth k s = Some c /\ forall j, (k < j)%nat -> str_nth j s <> Some c.
Proof.
  revert k; induction s as [|a s IH]; intros k; [split; [discriminate|intros [E _]; destruct k; discriminate]|]. cbn [LastIndexByte].
  destruct (LastIndexByte s c) as [i|] eqn:L.
  - destruct (proj1 (IH i) eq_refl) as [I1 I2]. split.
    + intros [= <-]. split; [exact I1|]. intros [|j] J; [lia|]. apply I2. lia.
    + intros [K1 K2]. destruct (Nat.lt_trichotomy k (S i)) as [X|[->|X]]; [destruct (K2 (S i) X I1)|reflexivity|].
      destruct k as [|k]; [lia|]. destruct (I2 k ltac:(lia) K1).
  - assert (N : forall j, str_nth (S j) (String a s) <> Some c).
    { cbn. intros j. induction j as [j D] using (well_founded_induction (Wf_nat.well_founded_ltof nat (fun j => String.length s - j)%nat)). intros E.
      assert (X : forall j', (j < j')%nat -> str_nth j' s <> Some c).
      { intros j' J. apply D. unfold Wf_nat.ltof. assert (j < String.length s)%nat; [|lia].
        clear -E. revert j E; induction s as [|b s IH]; intros [|j] E; cbn in *; try discriminate; [lia|]. specialize (IH j E). lia. }
      pose proof (proj2 (IH j) (conj E X)). discriminate. }
    destruct (Ascii.eqb_spec a c) as [->|Na].
    + split; [intros [= <-]; split; [reflexivity|intros [|j] J; [lia|apply N]]|]. intros [K1 K2]. destruct k as [|k]; [reflexivity|destruct (N k K1)].
    + split; [discriminate|]. intros [K1 _]. destruct k as [|k]; [cbn in K1; congruence|destruct (N k K1)].
Qed.
Lemma str_nth_length j s c : str_nth j s = Some c -> (j < String.length s)%nat.
Proof. revert j; induction s as [|b s IH]; intros [|j] E; cbn in *; try discriminate; [lia|]. specialize (IH j E). lia. Qed.
(** [splitEffort] mirrors [hmm.SplitEffort]. *)
Lemma splitEffort_mirrors armID : splitEffort armID = SplitEffort armID.
Proof.
  unfold splitEffort.
  assert (G : forall i, (forall j, (i < j)%nat -> str_nth j armID <> Some ":"%char) -> split_effort i armID = SplitEffort armID).
  { induction i as [|i IH]; intros N; unfold SplitEffort.
    - destruct (LastIndexByte armID ":"%char) as [[|k]|] eqn:L; [reflexivity| |reflexivity].
      apply LastIndexByte_spec in L as [L _]. destruct (N (S k) ltac:(lia) L).
    - cbn [split_effort]. destruct (decide (str_nth (S i) armID = Some ":"%char)) as [E|E].
      + rewrite bool_decide_eq_true_2 by exact E. rewrite (proj2 (LastIndexByte_spec armID ":"%char (S i)) (conj E N)). reflexivity.
      + rewrite bool_decide_eq_false_2 by exact E. change (split_effort i armID = SplitEffort armID). apply IH.
        intros j J X. destruct (decide (j = S i)) as [->|]; [contradiction|]. exact (N j ltac:(lia) X). }
  apply G. intros j J E. apply str_nth_length in E. lia.
Qed.
Lemma arm_id_nonempty r req c : c ∈ (Resolve r req).(Candidates) -> c.(Candidate.ArmID) <> "".
Proof.
  intros I. destruct (Resolve_tables r req) as (C & _). rewrite C in I. apply list_elem_of_In, filter_In in I as [I _]. apply list_elem_of_In in I.
  pose proof (sublist_elem _ _ c (sf_hard _ _ _ _ _ (filtered_facts r req)) I) as Hd. apply hard_elem in Hd as [D E].
  pose proof (screen_offerable r req _ c D E) as O. destruct (of_binding _ _ _ O) as (_ & _ & _ & _ & N & _). revert E N. unfold candidates_of.
  destruct (screen r req _) as [|m rid w bs]; intros E; [inversion E|]. apply list_elem_of_fmap in E as ([i b] & -> & _). unfold candidate.
  cbv beta iota zeta delta [Candidate.ArmID Candidate.RosterID]. intros N. destruct (enumerateBindings r); [unfold Arm.MakeArmID; rewrite str_app_cons; discriminate|exact N].
Qed.

(** ** Theorems *)

Lemma selection_sound r req armID rosterID b : BindingForSelection (Resolve r req) armID rosterID = Some b ->
  exists c, c ∈ (Resolve r req).(Candidates) /\ b = Binding.set_Effort b.(Binding.Effort) (binding_of c) /\
    (c.(Candidate.ArmID) = (SplitEffort armID).1 \/ rostered (SplitEffort rosterID).1 (Resolve r req).(Candidates) = [c]).
Proof.
  destruct (Resolve_tables r req) as (_ & _ & A & R & _). unfold BindingForSelection. rewrite !splitEffort_mirrors. destruct (SplitEffort armID) as [la ea], (SplitEffort rosterID) as [lr er].
  assert (X : Binding.set_Effort er <$> (Resolve r req).(ByRosterID) !! lr = Some b ->
    exists c, c ∈ (Resolve r req).(Candidates) /\ b = Binding.set_Effort b.(Binding.Effort) (binding_of c) /\ rostered lr (Resolve r req).(Candidates) = [c]).
  { rewrite R. intros E. destruct (rostered lr _) as [|c [|? ?]] eqn:Q; try discriminate. injection E as <-. exists c.
    assert (I : In c (rostered lr (Candidates (Resolve r req)))) by (rewrite Q; left; reflexivity). apply filter_In in I as [I _].
    split; [apply list_elem_of_In; exact I|auto]. }
  destruct (String.eqb armID ""); [intros E; destruct (X E) as (c & ? & ? & ?); exists c; auto|].
  destruct (ByArmID (Resolve r req) !! la) as [b0|] eqn:L; [|intros E; destruct (X E) as (c & ? & ? & ?); exists c; auto].
  intros [= <-]. apply A in L as (c & I & E & ->). exists c. auto.
Qed.

(** C36: every candidate offered to a policy may serve the request: a deployed model, on the allowlist when
    there is one, not excluded, wide enough for the tokens the request needs, on an enabled provider the operator's
    policy allows, through a binding of its catalog row.  No two candidates share an arm.  And whatever arm and
    roster ID a sidecar answers with, what they select is the binding of a candidate that was offered: the one of
    that arm, or the only one of that roster ID; while every arm offered selects its own candidate, at any effort
    asked for. *)
Theorem selection_offered (r : Resolver) (req : PolicyRequest) :
  let res := Resolve r req in
  (forall c, c ∈ res.(Candidates) -> offerable r req c) /\ NoDup (CandidateArmIDs res) /\
  (forall armID rosterID b, BindingForSelection res armID rosterID = Some b ->
     exists c, c ∈ res.(Candidates) /\ b = Binding.set_Effort b.(Binding.Effort) (binding_of c) /\
       (c.(Candidate.ArmID) = (SplitEffort armID).1 \/ rostered (SplitEffort rosterID).1 res.(Candidates) = [c])) /\
  (forall c e, c ∈ res.(Candidates) -> e ∈ [EffortNone; EffortLow; EffortMedium; EffortHigh; EffortXHigh; EffortMax] ->
     BindingForSelection res (EffortArm c.(Candidate.ArmID) e) "" = Some (Binding.set_Effort (NormalizeLegacyEffort e) (binding_of c))).
Proof.
  cbv zeta. destruct (Resolve_tables r req) as (_ & _ & A & R & D). split; [exact (Resolve_offerable r req)|]. split; [exact D|]. split.
  - exact (selection_sound r req).
  - intros c e I E. pose proof (arm_id_nonempty r req c I) as N. unfold BindingForSelection.
    rewrite !splitEffort_mirrors, (split_effort_arm _ _ N E), (proj2 (A _ _) (ex_intro _ c (conj I (conj eq_refl eq_refl)))).
    rewrite (proj2 (String.eqb_neq _ _)); [reflexivity|]. unfold EffortArm. destruct (String.eqb e ""); [exact N|].
    destruct c.(Candidate.ArmID); [congruence|]. rewrite str_app_cons. discriminate.
Qed.

Lemma hard_sorted r req : StronglySorted str_le (Candidate.CatalogID <$> hard_candidates r req).
Proof.
  unfold hard_candidates. pose proof (sort_strings_sorted (elements r.(deployed))) as S. induction S as [|id l S IH F]; [constructor|].
  cbn [fmap list_fmap concat]. rewrite fmap_app. apply StronglySorted_app_2; [|clear|exact IH].
  - intros x y X Y. apply list_elem_of_fmap in X as (c & -> & X), Y as (c' & -> & Y). rewrite (candidates_of_id _ _ _ _ X).
    apply list_elem_of_In, in_concat in Y as (k & K & Y). apply list_elem_of_In, list_elem_of_fmap in K as (id' & -> & K).
    apply list_elem_of_In in Y. rewrite (candidates_of_id _ _ _ _ Y). rewrite Forall_forall in F. exact (F id' K).
  - assert (E : forall c, c ∈ candidates_of r req id -> c.(Candidate.CatalogID) = id) by apply candidates_of_id.
    induction (candidates_of r req id) as [|c k IH]; [constructor|]. cbn. constructor; [apply IH; intros; apply E; right; assumption|].
    apply Forall_forall. intros x X. apply list_elem_of_fmap in X as (c' & -> & X). rewrite (E c ltac:(left)), (E c' ltac:(right; exact X)).
    destruct (str_le_total id id) as [T|T]; exact T.
Qed.
Lemma sublist_fmap_sorted (l k : list Candidate.t) : sublist l k -> StronglySorted str_le (Candidate.CatalogID <$> k) -> StronglySorted str_le (Candidate.CatalogID <$> l).
Proof.
  induction 1 as [|c l k S IH|c l k S IH]; cbn; intros T; inversion T as [|? ? T1 T2]; subst; [constructor|constructor; [auto|]|auto].
  rewrite Forall_forall in *. intros x X. apply T2. apply list_elem_of_fmap in X as (c' & -> & X). apply list_elem_of_fmap. exists c'. split; [reflexivity|exact (sublist_elem _ _ _ S X)].
Qed.
(** Resolution accounts for every deployed model, and for no other: each is offered or named by a
    diagnostic; and the candidates come in the order of their catalog IDs, whatever order the sets are ranged over. *)
Lemma resolution_accounts (r : Resolver) (req : PolicyRequest) :
  let res := Resolve r req in
  (forall id, id ∈ r.(deployed) -> (exists c, c ∈ res.(Candidates) /\ c.(Candidate.CatalogID) = id) \/ exists d, d ∈ res.(Diagnostics) /\ d.(d_CatalogID) = id) /\
  (forall d, d ∈ res.(Diagnostics) -> d.(d_CatalogID) ∈ r.(deployed)) /\
  StronglySorted str_le (Candidate.CatalogID <$> res.(Candidates)).
Proof.
  cbv zeta. destruct (Resolve_tables r req) as (C & D & _). destruct (filtered_facts r req) as [F1 F2 F3 F4 _]. rewrite C, D. split; [|split].
  - intros id I. destruct (F3 id I) as [(c & Ic & E)|(d & Id & E)]; [|right; exists d; split; [apply elem_of_app; auto|exact E]].
    destruct (unique (filtered r req).1 c) eqn:U; [left|right].
    + exists c. split; [apply list_elem_of_In, filter_In; split; [apply list_elem_of_In; exact Ic|exact U]|exact E].
    + exists (ambiguity c). split; [|exact E]. apply elem_of_app. right. apply list_elem_of_fmap. exists c. split; [reflexivity|].
      apply list_elem_of_In, filter_In. split; [apply list_elem_of_In; exact Ic|rewrite U; reflexivity].
  - intros d I. apply elem_of_app in I as [I|I]; [exact (F4 d I)|]. apply list_elem_of_fmap in I as (c & -> & I). apply list_elem_of_In, filter_In in I as [I _].
    apply list_elem_of_In in I. exact (proj1 (proj1 (hard_elem r req c) (sublist_elem _ _ c F1 I))).
  - eapply sublist_fmap_sorted; [etransitivity; [apply filter_sublist|exact F1]|apply hard_sorted].
Qed.

(** A policy that scores models, whose roster IDs tell the deployed models apart. *)
Definition tells_apart (r : Resolver) : Prop :=
  r.(enumerateBindings) = false /\
  forall id id' m m', id ∈ r.(deployed) -> id' ∈ r.(deployed) -> ByID id = Some m -> ByID id' = Some m' -> r.(mapper) m = r.(mapper) m' -> r.(mapper) m <> "" -> id = id'.
Lemma hard_arms r req c : r.(enumerateBindings) = false -> c ∈ hard_candidates r req -> c.(Candidate.ArmID) = c.(Candidate.RosterID).
Proof.
  intros L I. apply hard_elem in I as [_ I]. unfold candidates_of in I. destruct (screen r req _) as [|m rid w bs]; [inversion I|].
  apply list_elem_of_fmap in I as (ib & -> & _). destruct (candidate_fields r req (Candidate.CatalogID c) m rid w ib) as (_ & F & _). 
  destruct (candidate_fields r req (Candidate.CatalogID c) m rid w ib) as (_ & _ & _ & _ & _ & A). rewrite (A L).
  symmetry. etransitivity; [apply candidate_fields|reflexivity].
Qed.
Lemma one_each r req id : r.(enumerateBindings) = false -> (length (candidates_of r req id) <= 1)%nat.
Proof.
  intros L. unfold candidates_of, screen.
  destruct (listed _ && negb _)%bool; [cbn; lia|]. destruct (in_opt_set id (Request.ExcludedModels (turn req))); [cbn; lia|].
  destruct (ByID id) as [m0|]; [|cbn; lia]. destruct (String.eqb (mapper r m0) ""); [cbn; lia|].
  destruct (ContextWindowFor id <? requiredContextTokens req); [cbn; lia|].
  destruct (EnumerateBindings id (Some _)) as [|ib l]; [cbn; lia|]. rewrite L, length_fmap. change (length [ib] <= 1)%nat. cbn. lia.
Qed.
Lemma hard_distinct r req a : tells_apart r -> (arm_count (hard_candidates r req) a <= 1)%nat.
Proof.
  intros [L T]. assert (P : forall ids, NoDup ids -> (forall id, id ∈ ids -> id ∈ r.(deployed)) -> (arm_count (concat (candidates_of r req <$> ids)) a <= 1)%nat).
  { induction ids as [|id ids IH]; intros Nd D; [cbn; lia|]. apply NoDup_cons in Nd as [Ni Nd]. cbn [fmap list_fmap concat]. unfold arm_count in *.
    rewrite List.filter_app, length_app. pose proof (one_each r req id L) as O. specialize (IH Nd ltac:(intros; apply D; right; assumption)).
    destruct (List.filter _ (candidates_of r req id)) as [|c k] eqn:F; [cbn; lia|].
    assert (K : (length (c :: k) <= 1)%nat) by (rewrite <- F; etransitivity; [apply List.filter_length_le|exact O]). cbn in K.
    destruct (List.filter _ (concat _)) as [|c' k'] eqn:F'; [cbn; lia|exfalso].
    assert (I : In c (candidates_of r req id) /\ Candidate.ArmID c = a).
    { rewrite <- String.eqb_eq. apply (filter_In (fun c => String.eqb (Candidate.ArmID c) a)). rewrite F. left; reflexivity. }
    assert (I' : In c' (concat (candidates_of r req <$> ids)) /\ Candidate.ArmID c' = a).
    { rewrite <- String.eqb_eq. apply (filter_In (fun c => String.eqb (Candidate.ArmID c) a)). rewrite F'. left; reflexivity. }
    destruct I as [I Ea], I' as [I' Ea']. apply in_concat in I' as (l & Il & I'). apply list_elem_of_In, list_elem_of_fmap in Il as (id' & -> & Il).
    apply list_elem_of_In in I, I'. pose proof (D id ltac:(left)) as Did. pose proof (D id' ltac:(right; exact Il)) as Did'.
    pose proof (candidates_of_id _ _ _ _ I) as Ci. pose proof (candidates_of_id _ _ _ _ I') as Ci'.
    assert (Hd : c ∈ hard_candidates r req) by (apply hard_elem; rewrite Ci; auto). assert (Hd' : c' ∈ hard_candidates r req) by (apply hard_elem; rewrite Ci'; auto).
    pose proof (screen_offerable r req id c Did I) as O1. pose proof (screen_offerable r req id' c' Did' I') as O2.
    destruct (of_binding _ _ _ O1) as (m & b & M & R & N & _), (of_binding _ _ _ O2) as (m' & b' & M' & R' & N' & _).
    rewrite Ci in M. rewrite Ci' in M'. pose proof (hard_arms r req c L Hd) as H1. pose proof (hard_arms r req c' L Hd') as H2.
    assert (E : id = id') by (apply (T id id' m m' Did Did' M M'); congruence). rewrite E in Ni. exact (Ni Il). }
  apply P; [|intros id; apply sorted_elements]. unfold sort_strings. rewrite merge_sort_Permutation. apply NoDup_elements.
Qed.
Lemma arm_count_sublist l k a : sublist l k -> (arm_count l a <= arm_count k a)%nat.
Proof. unfold arm_count. induction 1 as [|x l k S IH|x l k S IH]; cbn; [lia| |]; destruct (String.eqb _ _); cbn; lia. Qed.
(** What a request merely prefers leaves a policy a candidate whenever a deployed model passes the hard screening, and
    withdraws no model while a model is left that is not withdrawn. *)
Lemma soft_filters_facts (r : Resolver) (req : PolicyRequest) (Happart : tells_apart r) :
  let res := Resolve r req in
  (res.(Candidates) = [] <-> forall id, id ∈ r.(deployed) -> exists rosterID reason, screen r req id = Dropped rosterID reason) /\
  (forall c, c ∈ res.(Candidates) -> withdrawn req c ->
     forall id m rosterID window bindings, id ∈ r.(deployed) -> screen r req id = Eligible m rosterID window bindings ->
       id ∈ default ∅ req.(turn).(Request.AutomaticExcludedModels)).
Proof.
  cbv zeta. destruct (Resolve_tables r req) as (C & _). destruct (filtered_facts r req) as [F1 F2 _ _ F5].
  assert (U : List.filter (unique (filtered r req).1) (filtered r req).1 = (filtered r req).1).
  { assert (X : forall l, (forall c, c ∈ l -> unique (filtered r req).1 c = true) -> List.filter (unique (filtered r req).1) l = l).
    { induction l as [|c l IH]; intros A; [reflexivity|]. cbn. rewrite (A c ltac:(left)). f_equal. apply IH. intros; apply A; right; assumption. }
    apply X. intros c _. unfold unique. apply negb_true_iff, Nat.ltb_ge. etransitivity; [apply (arm_count_sublist _ _ _ F1)|apply (hard_distinct r req (Candidate.ArmID c) Happart)]. }
  rewrite C, U. split.
  - rewrite F2. split.
    + intros E id D. destruct (screen r req id) as [rid reason|m rid w bs] eqn:S; [eauto|exfalso].
      destruct bs as [|ib bs]; [exact (screen_bindings r req id m rid w [] S eq_refl)|].
      assert (I : candidate r req id m rid w ib ∈ hard_candidates r req).
      { apply hard_elem. destruct (candidate_fields r req id m rid w ib) as (-> & _). split; [exact D|]. unfold candidates_of. rewrite S. left. }
      rewrite E in I. inversion I.
    + intros A. destruct (hard_candidates r req) as [|c l] eqn:E; [reflexivity|exfalso].
      assert (I : c ∈ hard_candidates r req) by (rewrite E; left). apply hard_elem in I as [D I]. unfold candidates_of in I.
      destruct (A _ D) as (rid & reason & S). rewrite S in I. inversion I.
  - intros c I W id m rid w bs D S. destruct bs as [|ib bs]; [destruct (screen_bindings r req id m rid w [] S eq_refl)|].
    destruct (candidate_fields r req id m rid w ib) as (Ei & _).
    pose proof (F5 (ex_intro _ c (conj I W)) (candidate r req id m rid w ib)) as X. unfold withdrawn in X. rewrite Ei in X. apply X.
    apply hard_elem. rewrite Ei. split; [exact D|]. unfold candidates_of. rewrite S. left.
Qed.
End Facts.

(** Two arms share an ID only if they are one, or their digests collide. *)
Definition valid_identity (a : Arm.Identity) : Prop := json_fits (Arm.payload a).
Lemma arm_payload_inj (a b : Arm.Identity) : valid_identity a -> valid_identity b -> Marshal (Arm.payload a) = Marshal (Arm.payload b) -> a = b.
Proof.
  intros A B E. pose proof (Marshal_inj _ _ A B E) as P. unfold Arm.payload in P. destruct a, b; cbn in P. congruence.
Qed.

(** ** Witnesses *)

#[local] Existing Instance ascii_unicode.
Definition ex_available : option (gset string) := Some {[ProviderAiand]}.
Definition ex_policy_request (withdrawn : gset string) : PolicyRequest := {|
  turn := {| Request.RequestedModel := ""; Request.ForceModel := ""; Request.ForceCluster := ""; Request.EstimatedInputTokens := 1000;
     Request.OrganizationID := ""; Request.InstallationID := ""; Request.HasTools := true; Request.HasImages := true; Request.PromptText := "";
     Request.HistoryTruncated := false; Request.EnabledProviders := None; Request.ExcludedModels := None; Request.AllowedModels := None;
     Request.SafetyExcludedModels := None; Request.AutomaticExcludedModels := Some withdrawn; Request.SubsidizedModelCostFactor := ∅ |};
  Requirements := {| req_Endpoint := "messages"; ReasoningReplay := false; ReasoningSignature := false |};
  ReasoningConfigurationSHA256 := ""; ToolConfigurationSHA256 := ""; AvailableTools := ["Bash"]; PreferredModels := []; RoutingKnobs := None;
  ClusterArmOverrides := ∅; ShadowMode := false; TrainingAllowed := true; DebugEnabled := false |}.
Definition ex_two_models : Resolver := NewResolver {["moonshotai/kimi-k3"; "zai-org/glm-5.3"]} ex_available rosterIDFor ManagedProviderPolicy.
Lemma ex_told_apart : tells_apart ex_two_models.
Proof.
  split; [reflexivity|]. intros id id' m m' D D' M M' E _. cbn in D, D'.
  assert (A : id = "moonshotai/kimi-k3" \/ id = "zai-org/glm-5.3") by set_solver.
  assert (A' : id' = "moonshotai/kimi-k3" \/ id' = "zai-org/glm-5.3") by set_solver.
  destruct A as [->| ->], A' as [->| ->]; try reflexivity; exfalso; revert M M' E; vm_compute; intros [= <-] [= <-]; discriminate.
Qed.
(** Where two deployed IDs share a roster ID, withdrawing the third model refuses the turn: the two left are told
    apart by nothing, and both are dropped. *)
Lemma withdrawal_can_refuse :
  let r := NewResolver {["zai-org/glm-5.3"; "z-ai/glm-5.2"; "moonshotai/kimi-k3"]} ex_available rosterIDFor ManagedProviderPolicy in
  CandidateModels (Resolve r (ex_policy_request ∅)) = ["moonshotai/kimi-k3"] /\
  CandidateModels (Resolve r (ex_policy_request {["moonshotai/kimi-k3"]})) = [].
Proof. vm_compute. auto. Qed.
