(* ===== verification/Sidecar.v ===== *)
(** Routing through a policy sidecar (internal/router/policy/sidecar_router.go): the sidecar classifies the turn or
    picks an arm, the router holds it to the candidates it offered and applies the organisation's cluster lists
    (cluster_override.go) and its own arm selection (arm_selector.go); with the HMM strategies' reason
    (internal/router/hmm/hmm.go).  The sidecar and the arm selector are functions of the query; an identifier for
    the route is drawn by the caller. *)

From stdpp Require Import base gmap sets list strings sorting.
From Stdlib Require Import ZArith Lia Ascii.
From S2P Require Import Prelude Strings Floats Types Catalog ForceNames HmmRoster Resolver.
Open Scope string_scope.
Open Scope Z_scope.

(** ** The contract (contract.go) *)

Record PreviewGroup := { Group : string; Probability : f64; RosterArms : list string; EligibleArms : list string }.
(** [Result]: what the sidecar decides. *)
Module Answer.
Record t := {
  SchemaVersion : string; RouteID : string; ArmID : string; Model : string; Provider : string; Score : f64;
  CandidateScores : gmap string f32; Reason : string; PolicyGroup : string; PolicyLabel : string; PolicyRouteKey : string;
  Propensity : f64; DisplayMarker : string; PolicyArtifactID : string; PolicyArtifactSHA256 : string; RosterVersion : string;
  DebugRef : string; ArmScores : gmap string f32; RankedFallback : list PreviewGroup
}.
Definition set_PolicyGroup (g : string) (a : t) : t := {|
  SchemaVersion := a.(SchemaVersion); RouteID := a.(RouteID); ArmID := a.(ArmID); Model := a.(Model); Provider := a.(Provider); Score := a.(Score);
  CandidateScores := a.(CandidateScores); Reason := a.(Reason); PolicyGroup := g; PolicyLabel := a.(PolicyLabel); PolicyRouteKey := a.(PolicyRouteKey);
  Propensity := a.(Propensity); DisplayMarker := a.(DisplayMarker); PolicyArtifactID := a.(PolicyArtifactID);
  PolicyArtifactSHA256 := a.(PolicyArtifactSHA256); RosterVersion := a.(RosterVersion); DebugRef := a.(DebugRef); ArmScores := a.(ArmScores);
  RankedFallback := a.(RankedFallback) |}.
End Answer.
(** What a query adds to the request it carries. *)
Record Query := {
  q_SchemaVersion : string; q_Strategy : string; q_ExecutionMode : string; q_RouteID : string; q_TrainingAllowed : bool; q_DebugEnabled : bool;
  q_Request : PolicyRequest; q_Candidates : list Candidate.t
}.
Record Capabilities := { SupportsPreview : bool; SupportsShadow : bool; AuthoritativePerTurnSelection : bool; ReportsOutcomes : bool; ReportsFeedback : bool }.
Record SelectionInput := {
  in_Strategy : string; in_ExecutionMode : string; in_RouteID : string; in_ClassifierGroup : string; in_RankedFallback : list PreviewGroup;
  in_CandidateRosterIDs : list string
}.
Record SelectionPick := { pick_Group : string; pick_Arm : string }.
Definition selectionInputFor (strategy executionMode : string) (a : Answer.t) (resolved : Resolved) : SelectionInput := {|
  in_Strategy := strategy; in_ExecutionMode := executionMode; in_RouteID := a.(Answer.RouteID); in_ClassifierGroup := a.(Answer.PolicyGroup);
  in_RankedFallback := a.(Answer.RankedFallback); in_CandidateRosterIDs := Candidate.RosterID <$> resolved.(Candidates) |}.

(** ** Cluster lists (cluster_override.go) *)

Record ClusterOverrideResult := { out_RosterID : string; out_ArmID : string; out_Group : string; Applied : bool; Changed : bool; Constrained : bool }.
Definition no_override : ClusterOverrideResult :=
  {| out_RosterID := ""; out_ArmID := ""; out_Group := ""; Applied := false; Changed := false; Constrained := false |}.
Inductive ClusterError := NoClustersReported (cluster : string) | NotACluster (cluster : string) | NoModelCanServe (cluster : string).
Record candidateIndex := { catalogToRoster : gmap string string; rosterToArm : gmap string string; eligibleRosterIDs : gset string }.
(** The first value of each key. *)
Definition first_of (kvs : list (string * string)) : gmap string string :=
  fold_left (fun (m : gmap string string) kv => match m !! kv.1 with Some _ => m | None => <[kv.1 := kv.2]> m end) kvs ∅.
Definition indexCandidates (resolved : Resolved) : candidateIndex := {|
  catalogToRoster := first_of ((fun c => (c.(Candidate.CatalogID), c.(Candidate.RosterID))) <$> resolved.(Candidates));
  rosterToArm := first_of ((fun c => (c.(Candidate.RosterID), c.(Candidate.ArmID))) <$> resolved.(Candidates));
  eligibleRosterIDs := list_to_set (Candidate.RosterID <$> resolved.(Candidates)) |}.
Definition listed_arm (index : candidateIndex) (acc : list string * gset string) (catalogID : string) : list string * gset string :=
  match index.(catalogToRoster) !! catalogID with
  | None => acc
  | Some rosterID =>
      if (negb (in_set rosterID index.(eligibleRosterIDs)) || in_set rosterID acc.2)%bool then acc
      else ((acc.1 ++ [rosterID])%list, {[rosterID]} ∪ acc.2)
  end.
Definition effectiveArms (group : PreviewGroup) (override : option (list string)) (index : candidateIndex) : list string :=
  match override with
  | None => group.(EligibleArms)
  | Some models => (fold_left (listed_arm index) models ([], ∅)).1
  end.
(** The first arm of a group, as the outcome of the override. *)
Definition pick_first (resolved : Resolved) (index : candidateIndex) (group : string) (arms : list string) (sidecarRosterID : string) (constrained : bool)
  : option ClusterOverrideResult :=
  match arms with
  | [] => None
  | selected :: _ => Some {| out_RosterID := selected; out_ArmID := default "" (index.(rosterToArm) !! selected); out_Group := group; Applied := true;
                             Changed := negb (String.eqb selected sidecarRosterID); Constrained := constrained |}
  end.
Fixpoint first_group (overrides : gmap string (list string)) (ranked : list PreviewGroup) (resolved : Resolved) (sidecarRosterID : string) : ClusterOverrideResult :=
  match ranked with
  | [] => no_override
  | group :: rest =>
      let override := overrides !! group.(Group) in
      let index := indexCandidates resolved in
      match pick_first resolved index group.(Group) (effectiveArms group override index) sidecarRosterID (bool_decide (is_Some override)) with
      | Some o => o
      | None => first_group overrides rest resolved sidecarRosterID
      end
  end.
Definition ApplyClusterArmOverrides (overrides : gmap string (list string)) (ranked : list PreviewGroup) (resolved : Resolved) (sidecarRosterID : string)
  : ClusterOverrideResult :=
  if bool_decide (overrides = ∅) then no_override else first_group overrides ranked resolved sidecarRosterID.
Definition ApplyClusterArmOverridesRequireMatch (overrides : gmap string (list string)) (ranked : list PreviewGroup) (resolved : Resolved)
    (sidecarRosterID requiredLabel : string) : res ClusterError ClusterOverrideResult :=
  match ranked with
  | [] => Err (NoClustersReported requiredLabel)
  | _ =>
      match List.find (fun g => String.eqb g.(Group) requiredLabel) ranked with
      | None => Err (NotACluster requiredLabel)
      | Some matched =>
          let index := indexCandidates resolved in
          match pick_first resolved index requiredLabel (effectiveArms matched (overrides !! requiredLabel) index) sidecarRosterID true with
          | None => Err (NoModelCanServe requiredLabel)
          | Some o => Ok o
          end
      end
  end.

(** ** The router (sidecar_router.go) *)

Section Router.
Context `{GoUnicode}.
(** The errors of the sidecar and of the arm selector. *)
Variable Fault : Type.

Inductive Refusal :=
| ShadowUnsupported | NoRoutableModels | DecideFailed (e : Fault) | WrongSchema (schema : string) | SelectionFailed (e : Fault)
| ForcedClusterUnservable (e : ClusterError) | UnknownArm (armID model : string) | ProviderMismatch (provider model : string).
(** Wrapped under the strategy's sentinel: every refusal but a forced cluster's, which is the client's. *)
Definition unavailable (e : Refusal) : bool := match e with ForcedClusterUnservable _ => false | _ => true end.

(** [SidecarRouter]; capabilities that were never set are absent. *)
Record SidecarRouter := {
  sr_Strategy : string;
  sr_Reason : option (Answer.t -> string);
  Decide : Query -> res Fault Answer.t;
  sr_resolver : Resolver;
  armSelector : option (SelectionInput -> res Fault SelectionPick);
  sr_capabilities : option Capabilities
}.
Definition WithArmSelector (selector : SelectionInput -> res Fault SelectionPick) (r : SidecarRouter) : SidecarRouter := {|
  sr_Strategy := r.(sr_Strategy); sr_Reason := r.(sr_Reason); Decide := r.(Decide); sr_resolver := RouterSelectsArm r.(sr_resolver);
  armSelector := Some selector; sr_capabilities := r.(sr_capabilities) |}.
Definition WithCapabilities (c : Capabilities) (r : SidecarRouter) : SidecarRouter := {|
  sr_Strategy := r.(sr_Strategy); sr_Reason := r.(sr_Reason); Decide := r.(Decide); sr_resolver := r.(sr_resolver); armSelector := r.(armSelector);
  sr_capabilities := Some c |}.

(** A selection in the making: the arm, the roster ID, the suffix of the reason and whether the router replaced the
    sidecar's pick. *)
Record Pick := { p_ArmID : string; p_RosterID : string; p_Suffix : string; reselected : bool }.
Definition select_arm (r : SidecarRouter) (executionMode : string) (a : Answer.t) (resolved : Resolved) : res Refusal (Pick * Answer.t) :=
  match r.(armSelector) with
  | None => Ok ({| p_ArmID := a.(Answer.ArmID); p_RosterID := a.(Answer.Model); p_Suffix := ""; reselected := false |}, a)
  | Some selector =>
      if negb (String.eqb a.(Answer.SchemaVersion) "policy_router_v3") then Err (WrongSchema a.(Answer.SchemaVersion))
      else match selector (selectionInputFor r.(sr_Strategy) executionMode a resolved) with
           | Err e => Err (SelectionFailed e)
           | Ok pick => Ok ({| p_ArmID := default "" ((indexCandidates resolved).(rosterToArm) !! pick.(pick_Arm)); p_RosterID := pick.(pick_Arm);
                               p_Suffix := ":go_selection"; reselected := true |}, Answer.set_PolicyGroup pick.(pick_Group) a)
           end
  end.
Definition apply_clusters (r : SidecarRouter) (req : PolicyRequest) (a : Answer.t) (resolved : Resolved) (p : Pick) : res Refusal Pick :=
  let force := req.(turn).(Request.ForceCluster) in
  if negb (String.eqb force "") then
    match ApplyClusterArmOverridesRequireMatch req.(ClusterArmOverrides) a.(Answer.RankedFallback) resolved p.(p_RosterID) force with
    | Err e => Err (ForcedClusterUnservable e)
    | Ok o => Ok {| p_ArmID := o.(out_ArmID); p_RosterID := o.(out_RosterID); p_Suffix := ":force_cluster"; reselected := (p.(reselected) || o.(Changed))%bool |}
    end
  else if (negb (bool_decide (req.(ClusterArmOverrides) = ∅)) && match a.(Answer.RankedFallback) with [] => false | _ => true end)%bool then
    let o := ApplyClusterArmOverrides req.(ClusterArmOverrides) a.(Answer.RankedFallback) resolved p.(p_RosterID) in
    if (o.(Applied) && negb (String.eqb o.(out_RosterID) "") && (o.(Constrained) || match r.(armSelector) with None => true | Some _ => false end))%bool
    then Ok {| p_ArmID := o.(out_ArmID); p_RosterID := o.(out_RosterID);
               p_Suffix := if o.(Changed) then ":cluster_override" else p.(p_Suffix); reselected := (p.(reselected) || o.(Changed))%bool |}
    else Ok p
  else Ok p.
Definition reason (r : SidecarRouter) (a : Answer.t) (suffix : string) : string :=
  match r.(sr_Reason) with
  | Some render => render a
  | None => let base := r.(sr_Strategy) +:+ "_policy" in if String.eqb a.(Answer.Reason) "" then base else base +:+ "(" +:+ a.(Answer.Reason) +:+ ")"
  end +:+ suffix.
Definition shadowed (req : PolicyRequest) : PolicyRequest :=
  if req.(ShadowMode) then {| turn := req.(turn); Requirements := req.(Requirements); ReasoningConfigurationSHA256 := req.(ReasoningConfigurationSHA256);
    ToolConfigurationSHA256 := req.(ToolConfigurationSHA256); AvailableTools := req.(AvailableTools); PreferredModels := req.(PreferredModels);
    RoutingKnobs := req.(RoutingKnobs); ClusterArmOverrides := req.(ClusterArmOverrides); ShadowMode := true; TrainingAllowed := false; DebugEnabled := false |}
  else req.
Definition query (r : SidecarRouter) (executionMode routeID : string) (req : PolicyRequest) (resolved : Resolved) : Query := {|
  q_SchemaVersion := SchemaVersion r.(sr_resolver); q_Strategy := r.(sr_Strategy); q_ExecutionMode := executionMode; q_RouteID := routeID;
  q_TrainingAllowed := req.(TrainingAllowed); q_DebugEnabled := req.(DebugEnabled); q_Request := req; q_Candidates := resolved.(Candidates) |}.
Definition decision (r : SidecarRouter) (requestRouteID : string) (req : PolicyRequest) (a : Answer.t) (resolved : Resolved) (p : Pick) (b : Binding.t) : Decision.t :=
  let propensity := f32_of_f64 a.(Answer.Propensity) in
  {| Decision.Provider := b.(Binding.Provider); Decision.Model := b.(Binding.CatalogID); Decision.Effort := b.(Binding.Effort);
     Decision.Reason := reason r a p.(p_Suffix);
     Decision.Metadata := Some {|
       Metadata.ClusterIDs := []; Metadata.CandidateModels := CandidateModels resolved; Metadata.ChosenScore := f32_of_f64 a.(Answer.Score);
       Metadata.ClusterRouterVersion := ""; Metadata.Strategy := r.(sr_Strategy);
       Metadata.RouteID := if String.eqb a.(Answer.RouteID) "" then requestRouteID else a.(Answer.RouteID);
       Metadata.PolicyRouteKey := a.(Answer.PolicyRouteKey); Metadata.PolicyGroup := a.(Answer.PolicyGroup);
       Metadata.PolicyArtifactID := a.(Answer.PolicyArtifactID); Metadata.PolicyArtifactSHA256 := a.(Answer.PolicyArtifactSHA256);
       Metadata.RosterVersion := a.(Answer.RosterVersion); Metadata.SelectedArmID := b.(Binding.ArmID);
       Metadata.SelectedRosterArmID := if String.eqb p.(p_ArmID) "" then p.(p_RosterID) else p.(p_ArmID);
       Metadata.SelectedUpstreamID := b.(Binding.UpstreamID); Metadata.BindingIndex := b.(Binding.BindingIndex);
       Metadata.CandidateArmIDs := CandidateArmIDs resolved; Metadata.SidecarSchemaVersion := a.(Answer.SchemaVersion);
       Metadata.DebugRef := if req.(DebugEnabled) then a.(Answer.DebugRef) else "";
       Metadata.AuthoritativePerTurnSelection := match r.(sr_capabilities) with Some c => c.(AuthoritativePerTurnSelection) | None => false end;
       Metadata.DisplayMarker := if p.(reselected) then "" else a.(Answer.DisplayMarker); Metadata.EffectiveKnobsHash := 0;
       Metadata.CandidateScores := CatalogCandidateScores resolved a.(Answer.CandidateScores);
       Metadata.CandidateArmScores := ArmCandidateScores resolved a.(Answer.CandidateScores);
       Metadata.CandidateProviders := CandidateProviders resolved; Metadata.CandidateArmProviders := CandidateArmProviders resolved;
       Metadata.Propensity := if f_le propensity f_zero then f32_of_Z 1 else propensity;
       Metadata.PairedModel := ""; Metadata.PairedProvider := ""; Metadata.PairedScore := f_zero; Metadata.ArmScores := a.(Answer.ArmScores);
       Metadata.Embedding := [] |} |}.
(** The part of [Route] after the candidates were found. *)
Definition route_offered (r : SidecarRouter) (executionMode requestRouteID : string) (req : PolicyRequest) (resolved : Resolved) : res Refusal Decision.t :=
  match r.(Decide) (query r executionMode requestRouteID req resolved) with
  | Err e => Err (DecideFailed e)
  | Ok a0 =>
      let! picked := select_arm r executionMode a0 resolved in
      let '(p0, a) := picked in
      let! p := apply_clusters r req a resolved p0 in
      match BindingForSelection resolved p.(p_ArmID) p.(p_RosterID) with
      | None => Err (UnknownArm p.(p_ArmID) p.(p_RosterID))
      | Some b =>
          if (negb (String.eqb a.(Answer.Provider) "") && negb p.(reselected) && negb (String.eqb a.(Answer.Provider) b.(Binding.Provider)))%bool
          then Err (ProviderMismatch a.(Answer.Provider) a.(Answer.Model))
          else Ok (decision r requestRouteID req a resolved p b)
      end
  end.
Definition shadow_refused (r : SidecarRouter) (req : PolicyRequest) : bool :=
  (req.(ShadowMode) && match r.(sr_capabilities) with Some c => negb c.(SupportsShadow) | None => false end)%bool.
Definition Route (r : SidecarRouter) (requestRouteID : string) (req : PolicyRequest) : res Refusal Decision.t :=
  if shadow_refused r req then Err ShadowUnsupported
  else
    let resolved := Resolve r.(sr_resolver) (shadowed req) in
    match resolved.(Candidates) with
    | [] => Err NoRoutableModels
    | _ => route_offered r (if req.(ShadowMode) then "shadow" else "serving") requestRouteID (shadowed req) resolved
    end.

(** ** The HMM strategies (hmm.go) *)

Definition isToolExecutionResult (a : Answer.t) : bool :=
  let group := TrimSpace (ToLower a.(Answer.PolicyGroup)) in
  if (String.eqb group "explore" || String.eqb group "low")%bool then true
  else let label := TrimSpace (ToLower a.(Answer.PolicyLabel)) in (String.eqb label "spawn_explore" || Contains label "tool_call")%bool.
Definition reasonFor (a : Answer.t) : string :=
  let prefix := if isToolExecutionResult a then "hmm_policy:tool_execution" else "hmm_policy" in
  if negb (String.eqb a.(Answer.Reason) "") then prefix +:+ "(" +:+ a.(Answer.Reason) +:+ ")"
  else if negb (String.eqb a.(Answer.PolicyLabel) "") then prefix +:+ "(label=" +:+ a.(Answer.PolicyLabel) +:+ ")"
  else prefix.
Definition NewForStrategy (strategy : string) (decide : Query -> res Fault Answer.t) (availableProviders : option (gset string)) : SidecarRouter := {|
  sr_Strategy := strategy; sr_Reason := Some reasonFor; Decide := decide;
  sr_resolver := NewResolver (HMMRoutingTargetSet availableProviders) availableProviders rosterIDFor ManagedProviderPolicy;
  armSelector := None; sr_capabilities := None |}.
End Router.
Arguments ShadowUnsupported {Fault}.
Arguments NoRoutableModels {Fault}.
Arguments DecideFailed {Fault} e.
Arguments WrongSchema {Fault} schema.
Arguments SelectionFailed {Fault} e.
Arguments ForcedClusterUnservable {Fault} e.
Arguments UnknownArm {Fault} armID model.
Arguments ProviderMismatch {Fault} provider model.

(** ** Facts: cluster lists *)

Lemma first_of_map (kvs : list (string * string)) : first_of kvs = list_to_map kvs.
Proof.
  induction kvs as [|[k v] l IH] using rev_ind; [reflexivity|]. unfold first_of. rewrite fold_left_app. fold (first_of l). cbn [fold_left fst snd]. rewrite IH.
  apply map_eq. intros x. rewrite list_to_map_app. destruct (list_to_map (M := gmap string string) l !! k) as [w|] eqn:L.
  - destruct (list_to_map (M := gmap string string) l !! x) as [u|] eqn:X.
    + symmetry. apply lookup_union_Some_l. exact X.
    + symmetry. rewrite lookup_union_r by exact X. cbn. rewrite lookup_insert_ne by congruence. apply lookup_empty.
  - destruct (decide (k = x)) as [->|N].
    + rewrite lookup_insert_eq, lookup_union_r by exact L. cbn. rewrite lookup_insert_eq. reflexivity.
    + rewrite lookup_insert_ne by exact N. destruct (list_to_map (M := gmap string string) l !! x) as [u|] eqn:X.
      * symmetry. apply lookup_union_Some_l. exact X.
      * symmetry. rewrite lookup_union_r by exact X. cbn. rewrite lookup_insert_ne by exact N. apply lookup_empty.
Qed.
Lemma first_of_elem kvs k v : first_of kvs !! k = Some v -> (k, v) ∈ kvs.
Proof. rewrite first_of_map. apply elem_of_list_to_map_2. Qed.
Lemma first_of_none kvs k : first_of kvs !! k = None -> forall v, (k, v) ∉ kvs.
Proof. rewrite first_of_map. intros N v E. apply not_elem_of_list_to_map in N. apply N, list_elem_of_fmap. exists (k, v). auto. Qed.

Lemma listed_arms_elem index models acc x : x ∈ (fold_left (listed_arm index) models acc).1 ->
  x ∈ acc.1 \/ exists m, m ∈ models /\ index.(catalogToRoster) !! m = Some x.
Proof.
  revert acc; induction models as [|m l IH]; intros acc E; [auto|]. cbn [fold_left] in E. destruct (IH _ E) as [A|(m' & I & A)]; [|right; exists m'; split; [right; exact I|exact A]].
  unfold listed_arm in A. destruct (catalogToRoster index !! m) as [rid|] eqn:L; [|auto].
  destruct (negb _ || _)%bool; [auto|]. cbn in A. apply elem_of_app in A as [A|A]; [auto|]. apply list_elem_of_singleton in A as ->. right. exists m. split; [left|exact L].
Qed.
Lemma effective_listed group models index x : x ∈ effectiveArms group (Some models) index ->
  exists m, m ∈ models /\ index.(catalogToRoster) !! m = Some x.
Proof. intros E. apply listed_arms_elem in E as [E|E]; [inversion E|exact E]. Qed.
Lemma index_catalog resolved m x : (indexCandidates resolved).(catalogToRoster) !! m = Some x ->
  exists c, c ∈ resolved.(Candidates) /\ c.(Candidate.CatalogID) = m /\ c.(Candidate.RosterID) = x.
Proof. intros E. apply first_of_elem, list_elem_of_fmap in E as (c & [= -> ->] & I). eauto. Qed.
Lemma index_arm resolved x a : (indexCandidates resolved).(rosterToArm) !! x = Some a ->
  exists c, c ∈ resolved.(Candidates) /\ c.(Candidate.RosterID) = x /\ c.(Candidate.ArmID) = a.
Proof. intros E. apply first_of_elem, list_elem_of_fmap in E as (c & [= -> ->] & I). eauto. Qed.
Lemma index_arm_some resolved c : c ∈ resolved.(Candidates) -> exists a, (indexCandidates resolved).(rosterToArm) !! c.(Candidate.RosterID) = Some a.
Proof.
  intros I. destruct ((indexCandidates resolved).(rosterToArm) !! c.(Candidate.RosterID)) as [a|] eqn:E; [eauto|exfalso].
  refine (first_of_none _ _ E c.(Candidate.ArmID) _). apply list_elem_of_fmap. eauto.
Qed.

Section RouteFacts.
Context `{GoUnicode}.
Variable Fault : Type.

(** What a route is made of: the sidecar's answer, the pick before and after the cluster lists, and the binding. *)
Record routed (r : SidecarRouter Fault) (routeID : string) (req0 : PolicyRequest) (d : Decision.t) (req : PolicyRequest) (a0 a : Answer.t) (p0 p : Pick) (b : Binding.t) : Prop := {
  rt_supported : shadow_refused Fault r req0 = false;
  rt_req : req = shadowed req0;
  rt_offered : (Resolve r.(sr_resolver _) req).(Candidates) <> [];
  rt_answer : r.(Decide _) (query Fault r (if req0.(ShadowMode) then "shadow" else "serving") routeID req (Resolve r.(sr_resolver _) req)) = Ok a0;
  rt_selected : select_arm Fault r (if req0.(ShadowMode) then "shadow" else "serving") a0 (Resolve r.(sr_resolver _) req) = Ok (p0, a);
  rt_clusters : apply_clusters Fault r req a (Resolve r.(sr_resolver _) req) p0 = Ok p;
  rt_binding : BindingForSelection (Resolve r.(sr_resolver _) req) p.(p_ArmID) p.(p_RosterID) = Some b;
  rt_provider : a.(Answer.Provider) = "" \/ p.(reselected) = true \/ a.(Answer.Provider) = b.(Binding.Provider);
  rt_decision : d = decision Fault r routeID req a (Resolve r.(sr_resolver _) req) p b
}.
Lemma Route_routed r routeID req0 d : Route Fault r routeID req0 = Ok d ->
  exists req a0 a p0 p b, routed r routeID req0 d req a0 a p0 p b.
Proof.
  unfold Route. destruct (shadow_refused Fault r req0) eqn:S; [discriminate|]. cbv zeta.
  destruct (Candidates (Resolve (sr_resolver Fault r) (shadowed req0))) as [|c l] eqn:C; [discriminate|]. unfold route_offered.
  destruct (Decide Fault r _) as [a0|e] eqn:D; [|discriminate].
  destruct (select_arm Fault r _ a0 _) as [[p0 a]|e] eqn:Sel; [|discriminate]. cbn [res_bind].
  destruct (apply_clusters Fault r _ a _ p0) as [p|e] eqn:Cl; [|discriminate]. cbn [res_bind].
  destruct (BindingForSelection _ _ _) as [b|] eqn:B; [|discriminate].
  destruct (negb (String.eqb (Answer.Provider a) "") && negb (reselected p) && _)%bool eqn:P; [discriminate|]. intros [= <-].
  exists (shadowed req0), a0, a, p0, p, b. split; auto.
  - rewrite C. discriminate.
  - destruct (String.eqb_spec (Answer.Provider a) ""); [auto|]. destruct (reselected p); [auto|].
    destruct (String.eqb_spec (Answer.Provider a) (Binding.Provider b)); [auto|discriminate].
Qed.
Lemma shadowed_offerable r req c : offerable r (shadowed req) c -> offerable r req c.
Proof. unfold shadowed. destruct (ShadowMode req); [|auto]. intros [A1 A2 A3 A4 A5 A6 A7]. split; auto. Qed.
Lemma candidate_models_elem res c : c ∈ res.(Candidates) -> c.(Candidate.CatalogID) ∈ CandidateModels res.
Proof.
  unfold CandidateModels. set (step := fun (acc : list string * gset string) c => _).
  assert (G : forall l (acc : list string * gset string), (forall x, x ∈ acc.2 -> x ∈ acc.1) -> forall c, c ∈ l \/ c.(Candidate.CatalogID) ∈ acc.1 ->
    c.(Candidate.CatalogID) ∈ (fold_left step l acc).1).
  { induction l as [|x l IH]; intros acc W c' C; cbn [fold_left]; [destruct C as [C|C]; [inversion C|exact C]|]. apply IH; unfold step.
    - destruct (in_set _ acc.2); [exact W|]. cbn. intros y Y. apply elem_of_app. apply elem_of_union in Y as [Y|Y]; [right; apply elem_of_singleton in Y as ->; left|left; auto].
    - destruct C as [C|C]; [|right; destruct (in_set _ acc.2); [exact C|apply elem_of_app; auto]]. apply elem_of_cons in C as [->|C]; [right|left; exact C].
      destruct (in_set _ acc.2) eqn:E; [apply W; unfold in_set in E; apply bool_decide_eq_true in E; exact E|apply elem_of_app; right; left]. }
  intros I. apply G; [intros x X; inversion X|auto].
Qed.

(** C5: whatever the sidecar and the arm selector answer, a turn they route is served a candidate that was
    offered: on its own provider and binding, by a model the request may be served; and the decision says so: its
    arm, upstream ID and binding are that candidate's, and the model is among the candidates it lists.  Unless the
    router replaced the sidecar's pick, a provider the sidecar names is the one that serves. *)
Theorem route_serves_offered (r : SidecarRouter Fault) (routeID : string) (req : PolicyRequest) (d : Decision.t) :
  Route Fault r routeID req = Ok d ->
  exists c md, offerable r.(sr_resolver _) req c /\ d.(Decision.Model) = c.(Candidate.CatalogID) /\ d.(Decision.Provider) = c.(Candidate.Provider) /\
    d.(Decision.Metadata) = Some md /\ md.(Metadata.SelectedArmID) = c.(Candidate.ArmID) /\
    md.(Metadata.SelectedUpstreamID) = c.(Candidate.UpstreamID) /\ md.(Metadata.BindingIndex) = c.(Candidate.BindingIndex) /\
    d.(Decision.Model) ∈ md.(Metadata.CandidateModels) /\ c.(Candidate.ArmID) ∈ md.(Metadata.CandidateArmIDs) /\
    (forall executionMode q a, q = query Fault r executionMode routeID (shadowed req) (Resolve r.(sr_resolver _) (shadowed req)) ->
       executionMode = (if req.(ShadowMode) then "shadow" else "serving") -> r.(Decide _) q = Ok a ->
       (req.(ShadowMode) = true -> q.(q_TrainingAllowed) = false /\ md.(Metadata.DebugRef) = "") /\
       (r.(armSelector _) = None -> req.(turn).(Request.ForceCluster) = "" -> req.(ClusterArmOverrides) = ∅ ->
        a.(Answer.Provider) = "" \/ a.(Answer.Provider) = d.(Decision.Provider))).
Proof.
  intros E. apply Route_routed in E as (req' & a0 & a & p0 & p & b & [_ -> _ An Se Cl Bi Pr ->]).
  destruct (selection_sound _ _ _ _ _ Bi) as (c & I & Eb & _).
  exists c. eexists. split; [exact (shadowed_offerable _ _ _ (Resolve_offerable _ _ c I))|]. cbn. rewrite Eb. cbn.
  do 6 (split; [reflexivity|]). split; [exact (candidate_models_elem _ _ I)|]. split; [apply list_elem_of_fmap; eauto|].
  intros mode q a1 -> -> Q. rewrite An in Q. injection Q as <-. split.
  - intros Sh. unfold shadowed. rewrite Sh. auto.
  - intros No Fo Co. unfold select_arm in Se. rewrite No in Se. injection Se as <- <-. unfold apply_clusters in Cl.
    assert (F : Request.ForceCluster (turn (shadowed req)) = "") by (unfold shadowed; destruct (ShadowMode req); exact Fo).
    assert (C : ClusterArmOverrides (shadowed req) = ∅) by (unfold shadowed; destruct (ShadowMode req); exact Co).
    rewrite F, C in Cl. cbn in Cl. injection Cl as <-. cbn in Pr. rewrite Eb in Pr. cbn in Pr. destruct Pr as [?|[?|?]]; [auto|discriminate|auto].
Qed.

(** A policy that scores models by IDs that carry no effort. *)
Definition plain (r : Resolver) : Prop :=
  r.(enumerateBindings) = false /\ forall id m, ByID id = Some m -> SplitEffort (r.(mapper) m) = (r.(mapper) m, "").
Lemma plain_candidate r req c : plain r -> c ∈ (Resolve r req).(Candidates) ->
  c.(Candidate.ArmID) = c.(Candidate.RosterID) /\ SplitEffort c.(Candidate.RosterID) = (c.(Candidate.RosterID), "") /\
  forall c', c' ∈ (Resolve r req).(Candidates) -> c'.(Candidate.RosterID) = c.(Candidate.RosterID) -> c' = c.
Proof.
  intros [L P] I. destruct (Resolve_tables r req) as (C & _ & A & _). destruct (filtered_facts r req) as [F1 _ _ _ _].
  assert (Arm : forall c, c ∈ (Resolve r req).(Candidates) -> c.(Candidate.ArmID) = c.(Candidate.RosterID)).
  { intros x X. rewrite C in X. apply list_elem_of_In, filter_In in X as [X _]. apply list_elem_of_In in X. exact (hard_arms r req x L (sublist_elem _ _ x F1 X)). }
  split; [exact (Arm c I)|]. split.
  - destruct (of_binding _ _ _ (Resolve_offerable r req c I)) as (m & b & M & <- & _). exact (P _ _ M).
  - intros c' I' E. destruct (Resolve_tables r req) as (_ & _ & _ & _ & N). unfold CandidateArmIDs in N.
    apply list_elem_of_lookup in I as [i I], I' as [i' I']. assert (i' = i) as ->; [|congruence].
    eapply (NoDup_lookup _ i' i (Candidate.ArmID c) N); rewrite list_lookup_fmap; [rewrite I'|rewrite I]; cbn; [|reflexivity].
    f_equal. rewrite (Arm c'), (Arm c), E by (apply list_elem_of_lookup; eauto). reflexivity.
Qed.
(** The arm of a roster ID selects the candidate of that roster ID. *)
Lemma roster_selected r req x b m : plain r ->
  (indexCandidates (Resolve r req)).(catalogToRoster) !! m = Some x ->
  BindingForSelection (Resolve r req) (default "" ((indexCandidates (Resolve r req)).(rosterToArm) !! x)) x = Some b -> b.(Binding.CatalogID) = m.
Proof.
  intros P M B. destruct (index_catalog _ _ _ M) as (c & I & <- & <-). destruct (plain_candidate r req c P I) as (Ac & Sc & U).
  destruct (index_arm_some (Resolve r req) c I) as [a Ea]. rewrite Ea in B. cbn in B. destruct (index_arm _ _ _ Ea) as (c' & I' & R & <-).
  rewrite (U c' I' R) in B. unfold BindingForSelection in B. rewrite !splitEffort_mirrors, Ac, Sc in B.
  destruct (Resolve_tables r req) as (_ & _ & A & _). rewrite <- Ac in B.
  rewrite (proj2 (A _ _) (ex_intro _ c (conj I (conj eq_refl eq_refl)))) in B. rewrite (proj2 (String.eqb_neq _ _) (arm_id_nonempty r req c I)) in B.
  injection B as <-. reflexivity.
Qed.
(** The cluster whose list the turn is held to: the one the request forces, and otherwise, once the organisation has
    lists, the first of the sidecar's ranking that has an arm left. *)
Definition constraining_group (req : PolicyRequest) (a : Answer.t) (resolved : Resolved) : option string :=
  let force := req.(turn).(Request.ForceCluster) in
  let lists := req.(ClusterArmOverrides) in
  if negb (String.eqb force "") then Some force
  else if bool_decide (lists = ∅) then None
  else Group <$> List.find (fun g => negb (bool_decide (effectiveArms g (lists !! g.(Group)) (indexCandidates resolved) = []))) a.(Answer.RankedFallback).
Lemma first_group_found lists ranked resolved sid :
  match List.find (fun g => negb (bool_decide (effectiveArms g (lists !! g.(Group)) (indexCandidates resolved) = []))) ranked with
  | None => first_group lists ranked resolved sid = no_override
  | Some g => pick_first resolved (indexCandidates resolved) g.(Group) (effectiveArms g (lists !! g.(Group)) (indexCandidates resolved)) sid (bool_decide (is_Some (lists !! g.(Group))))
              = Some (first_group lists ranked resolved sid)
  end.
Proof.
  induction ranked as [|g l IH]; [reflexivity|]. cbn [List.find first_group]. cbv zeta.
  destruct (effectiveArms g _ _) as [|x k] eqn:E.
  - rewrite bool_decide_eq_true_2 by reflexivity. exact IH.
  - rewrite bool_decide_eq_false_2 by discriminate. cbn [negb]. rewrite E. reflexivity.
Qed.
Lemma applied_list r req models k x arms b : plain r -> effectiveArms k (Some models) (indexCandidates (Resolve r req)) = x :: arms ->
  BindingForSelection (Resolve r req) (default "" ((indexCandidates (Resolve r req)).(rosterToArm) !! x)) x = Some b -> b.(Binding.CatalogID) ∈ models.
Proof.
  intros P E B. destruct (effective_listed k models (indexCandidates (Resolve r req)) x) as (m & I & L); [rewrite E; left|].
  rewrite (roster_selected r req x b m P L B). exact I.
Qed.
(** C6: under a policy that scores models by IDs without an effort suffix ([plain]: no arm per binding), an
    organisation's list of models for a cluster is enforced: when the turn is held to a cluster that has a list, the
    model that serves is on it, whatever the sidecar picked and the arm selector preferred; and a forced cluster must
    be one the sidecar ranks.  (A policy that scores bindings or efforts is outside the property: there an entry of
    the list names arms, not models.) *)
Theorem cluster_lists_enforced (r : SidecarRouter Fault) (routeID : string) (req : PolicyRequest) (d : Decision.t)
  (Hplain : plain r.(sr_resolver _)) (Hroute : Route Fault r routeID req = Ok d) :
  let resolved := Resolve r.(sr_resolver _) (shadowed req) in
  exists a, r.(Decide _) (query Fault r (if req.(ShadowMode) then "shadow" else "serving") routeID (shadowed req) resolved) = Ok a /\
    (forall group models, constraining_group req a resolved = Some group -> req.(ClusterArmOverrides) !! group = Some models -> d.(Decision.Model) ∈ models) /\
    (req.(turn).(Request.ForceCluster) <> "" -> req.(turn).(Request.ForceCluster) ∈ Group <$> a.(Answer.RankedFallback)).
Proof.
  cbv zeta. apply Route_routed in Hroute as (req' & a0 & a & p0 & p & b & [_ -> _ An Se Cl Bi _ ->]). cbn. exists a0. split; [exact An|].
  assert (R : a.(Answer.RankedFallback) = a0.(Answer.RankedFallback)).
  { unfold select_arm in Se. destruct (armSelector Fault r) as [sel|]; [|injection Se as _ <-; reflexivity].
    destruct (negb _); [discriminate|]. destruct (sel _); [injection Se as _ <-; reflexivity|discriminate]. }
  assert (T : (shadowed req).(turn) = req.(turn) /\ (shadowed req).(ClusterArmOverrides) = req.(ClusterArmOverrides)) by (unfold shadowed; destruct (ShadowMode req); auto).
  destruct T as [T1 T2]. unfold constraining_group. rewrite <- R. unfold apply_clusters in Cl. rewrite T1, T2 in Cl.
  set (resolved := Resolve r.(sr_resolver Fault) (shadowed req)) in *.
  destruct (String.eqb_spec (Request.ForceCluster (turn req)) "") as [Fe|Fn]; cbn [negb] in *.
  - split; [|intros N; contradiction]. destruct (bool_decide (ClusterArmOverrides req = ∅)) eqn:Em; [discriminate|]. cbn [negb andb] in Cl.
    intros group models G L. unfold ApplyClusterArmOverrides in Cl. rewrite Em in Cl. cbv zeta in Cl.
    destruct (List.find _ (Answer.RankedFallback a)) as [g|] eqn:Fi; [|discriminate]. injection G as <-.
    pose proof (first_group_found req.(ClusterArmOverrides) a.(Answer.RankedFallback) resolved (p_RosterID p0)) as Q. rewrite Fi in Q. rewrite L in Q.
    destruct (effectiveArms g (Some models) (indexCandidates resolved)) as [|x k] eqn:Ef; [discriminate|]. cbn [pick_first] in Q.
    injection Q as Q. rewrite <- Q in Cl. cbn in Cl. destruct (Answer.RankedFallback a) as [|g0 ranked]; [discriminate|].
    assert (N : x <> "").
    { destruct (effective_listed g models (indexCandidates resolved) x) as (m & _ & Lm); [rewrite Ef; left|]. destruct (index_catalog _ _ _ Lm) as (c & I & _ & <-).
      destruct (of_binding _ _ _ (Resolve_offerable _ _ c I)) as (? & ? & _ & _ & N & _). exact N. }
    rewrite (proj2 (String.eqb_neq _ _) N) in Cl. cbn in Cl. injection Cl as <-.
    exact (applied_list r.(sr_resolver Fault) (shadowed req) models g x k b Hplain Ef Bi).
  - destruct (ApplyClusterArmOverridesRequireMatch _ _ _ _ _) as [o|e] eqn:Ap; [|discriminate]. injection Cl as <-.
    unfold ApplyClusterArmOverridesRequireMatch in Ap. destruct (Answer.RankedFallback a) as [|g0 ranked] eqn:Ra; [discriminate|].
    destruct (List.find _ (g0 :: ranked)) as [g|] eqn:Fi; [|discriminate]. cbv zeta in Ap. apply find_some in Fi as [Ig Eg]. apply String.eqb_eq in Eg.
    split; [|intros _; apply list_elem_of_fmap; exists g; split; [symmetry; exact Eg|apply list_elem_of_In; exact Ig]].
    intros group models [= <-] L. rewrite L in Ap.
    destruct (effectiveArms g (Some models) (indexCandidates resolved)) as [|x k] eqn:Ef; [discriminate|]. cbn [pick_first] in Ap. injection Ap as <-.
    exact (applied_list r.(sr_resolver Fault) (shadowed req) models g x k b Hplain Ef Bi).
Qed.
Lemma shadowed_screen r req id : screen r (shadowed req) id = screen r req id.
Proof. unfold shadowed. destruct (ShadowMode req); reflexivity. Qed.
Lemma answered_not_empty r mode routeID req resolved : route_offered Fault r mode routeID req resolved <> Err NoRoutableModels.
Proof.
  unfold route_offered. destruct (Decide Fault r _) as [a0|]; [|discriminate].
  destruct (select_arm Fault r mode a0 resolved) as [[p0 a]|e] eqn:Se; cbn [res_bind].
  2:{ unfold select_arm in Se. destruct (armSelector Fault r); [|discriminate]. destruct (negb _); [injection Se as <-; discriminate|]. destruct (_ (selectionInputFor _ _ _ _)); [discriminate|injection Se as <-; discriminate]. }
  destruct (apply_clusters Fault r req a resolved p0) as [p|e] eqn:Cl; cbn [res_bind].
  2:{ unfold apply_clusters in Cl. destruct (negb (String.eqb _ "")).
      - destruct (ApplyClusterArmOverridesRequireMatch _ _ _ _ _); [discriminate|injection Cl as <-; discriminate].
      - destruct (negb _ && _)%bool; [|discriminate]. cbv zeta in Cl. destruct (_ && _)%bool; discriminate. }
  destruct (BindingForSelection _ _ _); [|discriminate]. destruct (_ && _)%bool; discriminate.
Qed.
End RouteFacts.

(** ** Previews *)

Module Preview.
(** [PreviewResult]. *)
Record t := {
  SchemaVersion : string; RouteID : string; Strategy : string; PolicyArtifactID : string; PolicyArtifactSHA256 : string; RosterSHA256 : string;
  HMMStateID : Z; HMMStatePath : list Z; HMMStateProbabilities : list f64; ClassOrder : list string; ClassProbabilities : gmap string f64;
  Ranked : list PreviewGroup; SelectedGroup : string; EligibleRosterIDs : list string;
  ResolverCandidates : list Candidate.t; ResolverExclusions : list Diagnostic
}.
Definition stamped (routeID strategy : string) (resolved : Resolved) (p : t) : t := {|
  SchemaVersion := p.(SchemaVersion); RouteID := routeID; Strategy := strategy; PolicyArtifactID := p.(PolicyArtifactID);
  PolicyArtifactSHA256 := p.(PolicyArtifactSHA256); RosterSHA256 := p.(RosterSHA256); HMMStateID := p.(HMMStateID); HMMStatePath := p.(HMMStatePath);
  HMMStateProbabilities := p.(HMMStateProbabilities); ClassOrder := p.(ClassOrder); ClassProbabilities := p.(ClassProbabilities); Ranked := p.(Ranked);
  SelectedGroup := p.(SelectedGroup); EligibleRosterIDs := p.(EligibleRosterIDs);
  ResolverCandidates := resolved.(Candidates); ResolverExclusions := resolved.(Diagnostics) |}.
End Preview.

Inductive PreviewFault :=
| BadSchema | NoArtifactIdentity | NoStateOrClasses | StateOutside | BadStateProbability (index : nat) | StateSum | PathOutside (index : nat) | Cardinality
| EmptyClass (index : nat) | DuplicateClass (class : string) | BadClassProbability (class : string) | ClassSum
| FallbackProbability (class : string) | DuplicateFallback (class : string) | NotRanked | SelectionMismatch.
Definition ensure {E : Type} (ok : bool) (e : E) : res E unit := if ok then Ok tt else Err e.
Definition probability_ok (p : f64) : bool := negb (is_nan p || f_lt p f_zero || f_gt p (f64_of_Z 1))%bool.
(** [math.Abs(x-y) > limit]. *)
Definition apart (x y limit : f64) : bool := f_gt (SpecFloat.SFabs (f64_sub x y)) limit.
Definition millionth : f64 := f64_lit 1 1000000.
Definition billionth : f64 := f64_lit 1 1000000000.
Fixpoint sum_states (index : nat) (ps : list f64) (total : f64) : res PreviewFault f64 :=
  match ps with
  | [] => Ok total
  | p :: r => let! _ := ensure (probability_ok p) (BadStateProbability index) in sum_states (S index) r (f64_add total p)
  end.
Definition state_inside (n : nat) (state : Z) : bool := ((0 <=? state) && (state <? Z.of_nat n))%bool.
Fixpoint path_inside (index n : nat) (path : list Z) : res PreviewFault unit :=
  match path with
  | [] => Ok tt
  | state :: r => let! _ := ensure (state_inside n state) (PathOutside index) in path_inside (S index) n r
  end.
Fixpoint sum_classes (probabilities : gmap string f64) (index : nat) (seen : gset string) (order : list string) (total : f64) : res PreviewFault f64 :=
  match order with
  | [] => Ok total
  | c :: r =>
      let! _ := ensure (negb (String.eqb c "")) (EmptyClass index) in
      let! _ := ensure (negb (in_set c seen)) (DuplicateClass c) in
      match probabilities !! c with
      | None => Err (BadClassProbability c)
      | Some p => let! _ := ensure (probability_ok p) (BadClassProbability c) in
                  sum_classes probabilities (S index) ({[c]} ∪ seen) r (f64_add total p)
      end
  end.
Definition class_rank (order : list string) : gmap string Z :=
  fold_left (fun (m : gmap string Z) ic => <[ic.2 := ic.1]> m) (imap (fun i c => (Z.of_nat i, c)) order) ∅.
Definition misranked (rank : gmap string Z) (previous g : PreviewGroup) : bool :=
  (f_lt previous.(Probability) g.(Probability)
   || (f_eq previous.(Probability) g.(Probability) && (default 0 (rank !! g.(Group)) <? default 0 (rank !! previous.(Group)))))%bool.
Fixpoint check_ranking (probabilities : gmap string f64) (rank : gmap string Z) (seen : gset string) (previous : option PreviewGroup) (ranked : list PreviewGroup)
  : res PreviewFault unit :=
  match ranked with
  | [] => Ok tt
  | g :: r =>
      match probabilities !! g.(Group) with
      | None => Err (FallbackProbability g.(Group))
      | Some p =>
          let! _ := ensure (negb (apart g.(Probability) p billionth)) (FallbackProbability g.(Group)) in
          let! _ := ensure (negb (in_set g.(Group) seen)) (DuplicateFallback g.(Group)) in
          let! _ := ensure (match previous with Some q => negb (misranked rank q g) | None => true end) NotRanked in
          check_ranking probabilities rank ({[g.(Group)]} ∪ seen) (Some g) r
      end
  end.
Definition selected_arms (p : Preview.t) : list string :=
  match List.find (fun g => String.eqb g.(Group) p.(Preview.SelectedGroup)) p.(Preview.Ranked) with Some g => g.(EligibleArms) | None => [] end.
Definition nonempty_list {A} (l : list A) : bool := match l with [] => false | _ => true end.
Definition validatePreviewResult (p : Preview.t) (expectedSchema : string) : res PreviewFault unit :=
  let n := length p.(Preview.HMMStateProbabilities) in
  let! _ := ensure (String.eqb p.(Preview.SchemaVersion) expectedSchema) BadSchema in
  let! _ := ensure (negb (String.eqb p.(Preview.PolicyArtifactID) "" || String.eqb p.(Preview.PolicyArtifactSHA256) "" || String.eqb p.(Preview.RosterSHA256) "")) NoArtifactIdentity in
  let! _ := ensure (nonempty_list p.(Preview.HMMStatePath) && nonempty_list p.(Preview.HMMStateProbabilities) && nonempty_list p.(Preview.ClassOrder))%bool NoStateOrClasses in
  let! _ := ensure (state_inside n p.(Preview.HMMStateID)) StateOutside in
  let! total := sum_states 0 p.(Preview.HMMStateProbabilities) f_zero in
  let! _ := ensure (negb (apart total (f64_of_Z 1) millionth)) StateSum in
  let! _ := path_inside 0 n p.(Preview.HMMStatePath) in
  let! _ := ensure (Nat.eqb (size p.(Preview.ClassProbabilities)) (length p.(Preview.ClassOrder))
                    && Nat.eqb (length p.(Preview.Ranked)) (length p.(Preview.ClassOrder)))%bool Cardinality in
  let! total := sum_classes p.(Preview.ClassProbabilities) 0 ∅ p.(Preview.ClassOrder) f_zero in
  let! _ := ensure (negb (apart total (f64_of_Z 1) millionth)) ClassSum in
  let! _ := check_ranking p.(Preview.ClassProbabilities) (class_rank p.(Preview.ClassOrder)) ∅ None p.(Preview.Ranked) in
  ensure (bool_decide (selected_arms p = p.(Preview.EligibleRosterIDs))) SelectionMismatch.

Section PreviewRoute.
Context `{GoUnicode}.
Variable Fault : Type.
Inductive PreviewRefusal :=
| PreviewUnsupported | PreviewFailed (e : Fault) | RouteMismatch | InvalidPreview (e : PreviewFault) | DuplicateArm (id : string) | UnofferedArm (id : string) | GroupMismatch.
Fixpoint check_arms (offered : gmap string Binding.t) (seen : gset string) (ids : list string) : res PreviewRefusal unit :=
  match ids with
  | [] => Ok tt
  | id :: r =>
      let! _ := ensure (negb (in_set id seen)) (DuplicateArm id) in
      let! _ := ensure (bool_decide (is_Some (offered !! id))) (UnofferedArm id) in
      check_arms offered ({[id]} ∪ seen) r
  end.
(** What the router checks of the preview it gets. *)
Definition accept_preview (r : SidecarRouter Fault) (requestRouteID : string) (resolved : Resolved) (p : Preview.t) : res PreviewRefusal Preview.t :=
  let schema := Resolver.SchemaVersion r.(sr_resolver _) in
  let! _ := ensure (String.eqb p.(Preview.RouteID) "" || String.eqb p.(Preview.RouteID) requestRouteID)%bool RouteMismatch in
  let! _ := match validatePreviewResult p schema with Ok _ => Ok tt | Err e => Err (InvalidPreview e) end in
  let offered := if String.eqb schema "policy_router_v2" then resolved.(ByArmID) else resolved.(ByRosterID) in
  let! _ := check_arms offered ∅ p.(Preview.EligibleRosterIDs) in
  let! _ := ensure (Bool.eqb (nonempty_list p.(Preview.EligibleRosterIDs)) (negb (String.eqb p.(Preview.SelectedGroup) ""))) GroupMismatch in
  Ok (Preview.stamped requestRouteID r.(sr_Strategy _) resolved p).
(** The decider of a router that has no preview contract is absent. *)
Definition PreviewRoute (r : SidecarRouter Fault) (previewer : option (Query -> res Fault Preview.t)) (requestRouteID : string) (req : PolicyRequest)
  : res PreviewRefusal Preview.t :=
  if match r.(sr_capabilities _) with Some c => negb c.(SupportsPreview) | None => false end then Err PreviewUnsupported
  else match previewer with
  | None => Err PreviewUnsupported
  | Some preview =>
      let resolved := Resolve r.(sr_resolver _) req in
      match preview {| q_SchemaVersion := Resolver.SchemaVersion r.(sr_resolver _); q_Strategy := r.(sr_Strategy _); q_ExecutionMode := "preview";
                       q_RouteID := requestRouteID; q_TrainingAllowed := false; q_DebugEnabled := true; q_Request := req;
                       q_Candidates := resolved.(Candidates) |} with
      | Err e => Err (PreviewFailed e)
      | Ok p => accept_preview r requestRouteID resolved p
      end
  end.
End PreviewRoute.

(** ** Facts: previews *)

Lemma bind_ensure {E A : Type} (b : bool) (e : E) (k : res E A) (x : A) : res_bind (ensure b e) (fun _ => k) = Ok x -> b = true /\ k = Ok x.
Proof. unfold ensure. destruct b; [auto|discriminate]. Qed.
Lemma bind_ok {E A B : Type} (m : res E A) (k : A -> res E B) (x : B) : res_bind m k = Ok x -> exists a, m = Ok a /\ k a = Ok x.
Proof. destruct m as [a|e]; [eauto|discriminate]. Qed.

Lemma classes_summed probabilities index seen order total x : sum_classes probabilities index seen order total = Ok x ->
  NoDup order /\ (forall c, c ∈ order -> c ∉ seen /\ is_Some (probabilities !! c)).
Proof.
  revert index seen total; induction order as [|c l IH]; intros index seen total E; [split; [constructor|intros c I; inversion I]|].
  cbn [sum_classes] in E. apply bind_ensure in E as [_ E]. apply bind_ensure in E as [Ns E].
  destruct (probabilities !! c) as [p|] eqn:P; [|discriminate]. apply bind_ensure in E as [_ E]. destruct (IH _ _ _ E) as [D K].
  apply negb_true_iff in Ns. unfold in_set in Ns. apply bool_decide_eq_false in Ns. split.
  - constructor; [|exact D]. intros I. destruct (K c I) as [N _]. set_solver.
  - intros c' I. apply elem_of_cons in I as [->|I]; [split; [exact Ns|eauto]|]. destruct (K c' I) as [N S]. split; [set_solver|exact S].
Qed.
Lemma ranking_checked probabilities rank seen previous ranked : check_ranking probabilities rank seen previous ranked = Ok tt ->
  NoDup (Group <$> ranked) /\ (forall g, g ∈ Group <$> ranked -> g ∉ seen /\ is_Some (probabilities !! g)) /\
  Sorted (fun q g => misranked rank q g = false) (match previous with Some q => q :: ranked | None => ranked end).
Proof.
  revert seen previous; induction ranked as [|g l IH]; intros seen previous E.
  { split; [constructor|]. split; [intros x I; inversion I|]. destruct previous; repeat constructor. }
  cbn [check_ranking] in E. destruct (probabilities !! g.(Group)) as [p|] eqn:P; [|discriminate].
  apply bind_ensure in E as [_ E]. apply bind_ensure in E as [Ns E]. apply bind_ensure in E as [M E]. destruct (IH _ _ E) as (D & K & S).
  apply negb_true_iff in Ns. unfold in_set in Ns. apply bool_decide_eq_false in Ns. cbn. split; [|split].
  - constructor; [|exact D]. intros I. destruct (K _ I) as [N _]. set_solver.
  - intros x I. apply elem_of_cons in I as [->|I]; [split; [exact Ns|eauto]|]. destruct (K x I) as [N Si]. split; [set_solver|exact Si].
  - destruct previous as [q|]; [|exact S]. constructor; [exact S|]. constructor. apply negb_true_iff. exact M.
Qed.
Lemma ranked_classes (order groups : list string) (probabilities : gmap string f64) : NoDup order -> NoDup groups ->
  (forall c, c ∈ order -> is_Some (probabilities !! c)) -> (forall g, g ∈ groups -> is_Some (probabilities !! g)) ->
  size probabilities = length order -> length groups = length order -> groups ≡ₚ order.
Proof.
  intros No Ng Ko Kg S L.
  assert (D : forall c, is_Some (probabilities !! c) -> c ∈ order).
  { intros c Ic. assert (X : (list_to_set order : gset string) = dom probabilities).
    { apply set_subseteq_size_eq; [intros x I; apply elem_of_list_to_set in I; apply elem_of_dom; exact (Ko x I)|].
      rewrite size_dom, size_list_to_set by exact No. lia. }
    assert (Y : c ∈ (list_to_set order : gset string)) by (rewrite X; apply elem_of_dom; exact Ic). apply elem_of_list_to_set in Y. exact Y. }
  apply submseteq_length_Permutation; [|lia]. apply NoDup_submseteq; [exact Ng|]. intros g I. apply D, Kg, I.
Qed.

Section PreviewFacts.
Context `{GoUnicode}.
Variable Fault : Type.
Lemma arms_checked (offered : gmap string Binding.t) (seen : gset string) (ids : list string) : check_arms Fault offered seen ids = Ok tt ->
  NoDup ids /\ forall id, id ∈ ids -> id ∉ seen /\ is_Some (offered !! id).
Proof.
  revert seen; induction ids as [|id l IH]; intros seen E; [split; [constructor|intros x I; inversion I]|].
  cbn [check_arms] in E. apply bind_ensure in E as [Ns E]. apply bind_ensure in E as [O E]. destruct (IH _ E) as [D K].
  apply negb_true_iff in Ns. unfold in_set in Ns. apply bool_decide_eq_false in Ns. apply bool_decide_eq_true in O. split.
  - constructor; [|exact D]. intros I. destruct (K id I) as [N _]. set_solver.
  - intros x I. apply elem_of_cons in I as [->|I]; [auto|]. destruct (K x I) as [N S]. split; [set_solver|exact S].
Qed.
Lemma accepted r routeID resolved p0 p : accept_preview Fault r routeID resolved p0 = Ok p ->
  let schema := Resolver.SchemaVersion (sr_resolver Fault r) in
  validatePreviewResult p0 schema = Ok tt /\
  check_arms Fault (if String.eqb schema "policy_router_v2" then resolved.(ByArmID) else resolved.(ByRosterID)) ∅ p0.(Preview.EligibleRosterIDs) = Ok tt /\
  Bool.eqb (nonempty_list p0.(Preview.EligibleRosterIDs)) (negb (String.eqb p0.(Preview.SelectedGroup) "")) = true /\
  p = Preview.stamped routeID (sr_Strategy Fault r) resolved p0.
Proof.
  unfold accept_preview. cbv zeta. intros E. apply bind_ensure in E as [_ E]. apply bind_ok in E as ([] & V & E). apply bind_ok in E as ([] & A & E).
  apply bind_ensure in E as [G E]. injection E as <-. split; [|auto]. destruct (validatePreviewResult _ _) as [[]|]; [reflexivity|discriminate].
Qed.
Lemma validated p schema : validatePreviewResult p schema = Ok tt ->
  NoDup p.(Preview.ClassOrder) /\ Group <$> p.(Preview.Ranked) ≡ₚ p.(Preview.ClassOrder) /\
  Sorted (fun q g => misranked (class_rank p.(Preview.ClassOrder)) q g = false) p.(Preview.Ranked) /\ selected_arms p = p.(Preview.EligibleRosterIDs).
Proof.
  unfold validatePreviewResult. cbv zeta. intros E. do 4 apply bind_ensure in E as [_ E]. apply bind_ok in E as (t1 & _ & E). apply bind_ensure in E as [_ E].
  apply bind_ok in E as ([] & _ & E). apply bind_ensure in E as [Ca E]. apply bind_ok in E as (t2 & Cl & E). apply bind_ensure in E as [_ E].
  apply bind_ok in E as ([] & Ra & E). unfold ensure in E. destruct (bool_decide _) eqn:B; [|discriminate]. apply bool_decide_eq_true in B.
  apply andb_true_iff in Ca as [Ca1 Ca2]. apply Nat.eqb_eq in Ca1, Ca2. destruct (classes_summed _ _ _ _ _ _ Cl) as [Nc Kc].
  destruct (ranking_checked _ _ _ _ _ Ra) as (Nr & Kr & S). split; [exact Nc|]. split; [|auto].
  apply (ranked_classes _ _ p.(Preview.ClassProbabilities) Nc Nr); [intros c I; apply Kc, I|intros g I; apply Kr, I|exact Ca1|rewrite length_fmap; exact Ca2].
Qed.
(** A preview that is accepted can be trusted, whatever the sidecar sent: the arms it selects are distinct,
    each selects a candidate that was offered, and they are the arms of the group it selects, of which there is one
    exactly when there are arms; the groups it ranks are its classes, each once, by falling probability, classes of
    equal probability in their order. *)
Lemma preview_trustworthy (r : SidecarRouter Fault) (previewer : option (Query -> res Fault Preview.t)) (routeID : string) (req : PolicyRequest) (p : Preview.t)
  (Hpreview : PreviewRoute Fault r previewer routeID req = Ok p) :
  let resolved := Resolve r.(sr_resolver _) req in
  let arms := p.(Preview.EligibleRosterIDs) in
  let schema := Resolver.SchemaVersion r.(sr_resolver _) in
  p.(Preview.RouteID) = routeID /\ p.(Preview.ResolverCandidates) = resolved.(Candidates) /\
  NoDup arms /\ arms = selected_arms p /\ (arms <> [] <-> p.(Preview.SelectedGroup) <> "") /\
  (forall x, x ∈ arms -> exists c, c ∈ resolved.(Candidates) /\
     if String.eqb schema "policy_router_v2" then c.(Candidate.ArmID) = x else rostered x resolved.(Candidates) = [c]) /\
  NoDup p.(Preview.ClassOrder) /\ Group <$> p.(Preview.Ranked) ≡ₚ p.(Preview.ClassOrder) /\
  Sorted (fun q g => misranked (class_rank p.(Preview.ClassOrder)) q g = false) p.(Preview.Ranked).
Proof.
  cbv zeta. unfold PreviewRoute in Hpreview. destruct (match sr_capabilities Fault r with Some _ => _ | None => false end); [discriminate|].
  destruct previewer as [preview|]; [|discriminate]. destruct (preview _) as [p0|e]; [|discriminate].
  destruct (accepted _ _ _ _ _ Hpreview) as (V & A & G & ->). clear Hpreview. destruct (validated _ _ V) as (D & P & S & Sel).
  destruct (arms_checked _ _ _ A) as [Na Oa]. cbn. change (selected_arms _) with (selected_arms p0).
  do 2 (split; [reflexivity|]). split; [exact Na|]. split; [symmetry; exact Sel|]. split.
  { apply eqb_prop in G. destruct (Preview.EligibleRosterIDs p0), (String.eqb_spec (Preview.SelectedGroup p0) ""); cbn in G; try discriminate; split; congruence. }
  split; [|auto]. intros x I. destruct (Oa x I) as [_ [b B]]. destruct (Resolve_tables r.(sr_resolver _) req) as (_ & _ & Ar & Ro & _).
  destruct (String.eqb _ "policy_router_v2").
  - apply Ar in B as (c & Ic & E & _). eauto.
  - rewrite Ro in B. destruct (rostered x _) as [|c [|? ?]] eqn:R; try discriminate. exists c. split; [|reflexivity].
    assert (Ic : In c (rostered x (Candidates (Resolve (sr_resolver Fault r) req)))) by (rewrite R; left; reflexivity).
    apply filter_In in Ic as [Ic _]. apply list_elem_of_In. exact Ic.
Qed.
End PreviewFacts.

(** ** Witnesses *)

#[local] Existing Instance ascii_unicode.
Definition ex_group (name : string) (p : f64) (arms : list string) : PreviewGroup := {| Group := name; Probability := p; RosterArms := arms; EligibleArms := arms |}.
Definition ex_ranked : list PreviewGroup :=
  [ex_group "high" (f64_lit 3 4) ["zai-org/glm-5.3"; "moonshotai/kimi-k3"]; ex_group "low" (f64_lit 1 4) ["moonshotai/kimi-k3"]].
Definition ex_answer : Answer.t := {|
  Answer.SchemaVersion := "policy_router_v1"; Answer.RouteID := ""; Answer.ArmID := ""; Answer.Model := "zai-org/glm-5.3"; Answer.Provider := ProviderAiand;
  Answer.Score := f64_lit 1 2; Answer.CandidateScores := ∅; Answer.Reason := "state"; Answer.PolicyGroup := "high"; Answer.PolicyLabel := ""; Answer.PolicyRouteKey := "";
  Answer.Propensity := f_zero; Answer.DisplayMarker := "glm"; Answer.PolicyArtifactID := "a"; Answer.PolicyArtifactSHA256 := "b"; Answer.RosterVersion := "";
  Answer.DebugRef := "trace"; Answer.ArmScores := ∅; Answer.RankedFallback := ex_ranked |}.
Definition ex_sidecar : SidecarRouter string := {|
  sr_Strategy := StrategyHMM; sr_Reason := Some reasonFor; Decide := fun _ => Ok ex_answer; sr_resolver := ex_two_models; armSelector := None; sr_capabilities := None |}.
Definition ex_listed : PolicyRequest := let req := ex_policy_request ∅ in {|
  turn := Request.zero; Requirements := req.(Requirements); ReasoningConfigurationSHA256 := ""; ToolConfigurationSHA256 := ""; AvailableTools := [];
  PreferredModels := []; RoutingKnobs := None; ClusterArmOverrides := {["high" := ["moonshotai/kimi-k3"]]}; ShadowMode := false; TrainingAllowed := true; DebugEnabled := false |}.
Definition ex_decision : Decision.t := match Route string ex_sidecar "route-1" ex_listed with Ok d => d | Err _ => Decision.zero end.
Lemma ex_routed : Route string ex_sidecar "route-1" ex_listed = Ok ex_decision.
Proof. unfold ex_decision. destruct (Route string ex_sidecar "route-1" ex_listed) as [d|e] eqn:E; [reflexivity|]. exfalso. vm_compute in E. discriminate. Qed.
(** The sidecar picks one model, the organisation's list names the other, which serves. *)
Lemma route_serves_offered_witness :
  ex_decision.(Decision.Model) = "moonshotai/kimi-k3" /\ ex_decision.(Decision.Reason) = "hmm_policy(state):cluster_override" /\
  exists c md, offerable ex_two_models ex_listed c /\ ex_decision.(Decision.Model) = c.(Candidate.CatalogID) /\ ex_decision.(Decision.Metadata) = Some md /\
    md.(Metadata.SelectedArmID) = c.(Candidate.ArmID).
Proof.
  split; [vm_compute; reflexivity|]. split; [vm_compute; reflexivity|].
  destruct (route_serves_offered string ex_sidecar "route-1" ex_listed ex_decision ex_routed) as (c & md & O & M & _ & Md & A & _). exists c, md. auto.
Defined.
Lemma ex_plain : plain ex_two_models.
Proof.
  split; [reflexivity|]. intros id m E. pose proof (ByID_row id m E) as I. clear E.
  repeat (apply elem_of_cons in I as [->|I]; [reflexivity|]). inversion I.
Qed.
Lemma cluster_lists_enforced_witness : ex_decision.(Decision.Model) ∈ ["moonshotai/kimi-k3"].
Proof.
  destruct (cluster_lists_enforced string ex_sidecar "route-1" ex_listed ex_decision ex_plain ex_routed) as (a & A & C & _).
  injection A as <-. apply (C "high" ["moonshotai/kimi-k3"]); vm_compute; reflexivity.
Defined.
Definition ex_preview : Preview.t := {|
  Preview.SchemaVersion := "policy_router_v1"; Preview.RouteID := ""; Preview.Strategy := ""; Preview.PolicyArtifactID := "a"; Preview.PolicyArtifactSHA256 := "b";
  Preview.RosterSHA256 := "c"; Preview.HMMStateID := 1; Preview.HMMStatePath := [0; 1]; Preview.HMMStateProbabilities := [f64_lit 1 4; f64_lit 3 4];
  Preview.ClassOrder := ["low"; "high"]; Preview.ClassProbabilities := {["low" := f64_lit 1 4; "high" := f64_lit 3 4]}; Preview.Ranked := ex_ranked;
  Preview.SelectedGroup := "high"; Preview.EligibleRosterIDs := ["zai-org/glm-5.3"; "moonshotai/kimi-k3"];
  Preview.ResolverCandidates := []; Preview.ResolverExclusions := [] |}.
Lemma preview_trustworthy_witness : exists p,
  PreviewRoute string ex_sidecar (Some (fun _ => Ok ex_preview)) "route-1" ex_listed = Ok p /\
  Group <$> p.(Preview.Ranked) ≡ₚ ["low"; "high"] /\ NoDup p.(Preview.EligibleRosterIDs).
Proof.
  destruct (PreviewRoute string ex_sidecar (Some (fun _ => Ok ex_preview)) "route-1" ex_listed) as [p|e] eqn:E; [|exfalso; vm_compute in E; discriminate].
  exists p. split; [reflexivity|].
  destruct (preview_trustworthy string ex_sidecar (Some (fun _ => Ok ex_preview)) "route-1" ex_listed p E) as (_ & _ & N & _ & _ & _ & _ & P & _).
  assert (O : p.(Preview.ClassOrder) = ["low"; "high"]) by (vm_compute in E; injection E as <-; reflexivity). rewrite O in P. auto.
Defined.
