(* ===== verification/ForcePins.v ===== *)
(** Forcing a model for a session: the pin handlers of internal/proxy/force_model.go and the
    command that drives them.  A forced model lives in a row of its own role, never expires and is
    written without a strategy; clearing it leaves a tombstone in the same row. *)

From stdpp Require Import base gmap sets list strings.
From Stdlib Require Import ZArith Lia Ascii SpecFloat.
From S2P Require Import Prelude Floats Types Catalog PinStore ForceNames Reasoning Exclusions Upstream PinPolicy.
Open Scope string_scope.
Open Scope Z_scope.
Open Scope prog_scope.

Definition forceModelSessionRole : string := "force_model".
Definition forceModelHistoryReason : string := "force_model_history".
Definition userUnforcedReason : string := "user_unforced".
Definition forceModelHistoryRole (role : string) : string :=
  (if String.eqb role "" then DefaultRole else role) +:+ "_force_hist".
Definition forceModelClearRoles : list string :=
  [roleForTier TierUnknown; roleForTier TierLow; roleForTier TierMid; roleForTier TierHigh].

Definition mergeForceEffortKnobs (knobs : option Overrides) (effortLevel : string) : option Overrides :=
  if String.eqb effortLevel "" then knobs
  else
    let existing := default no_overrides knobs in
    Some {| Alpha := existing.(Alpha); QualityBias := existing.(QualityBias);
            SpeedWeight := existing.(SpeedWeight); OutputCostRatio := existing.(OutputCostRatio);
            ExpectedOutputTokens := existing.(ExpectedOutputTokens);
            PerModelVerbosity := existing.(PerModelVerbosity); ForceEffort := effortLevel |}.

(** [ForcedModelUnknownError] and [ForcedModelExcludedError]. *)
Inductive ForceError :=
| ForcedModelUnknown (model : string)
| ForcedModelExcluded (model reason : string).

(** What the command acknowledges. *)
Inductive ForceReply :=
| ReplyCleared
| ReplyUnknown (input : string)
| ReplyRejected (reason : string)
| ReplyApplied (model provider : string).

(** %q of a role name: they are plain ASCII. *)
Definition quoted (s : string) : string := String (ascii_of_nat 34) (s +:+ String (ascii_of_nat 34) "").

Section Handlers.
Context `{GoUnicode} {S : Type} `{PinStore S}.
Variable strat : option string.
Variable pinStore_set : bool.
Variable cfg : Config.
Variable ctx : Ctx.

Definition preserveForceModelControlHistory (key nextModel : string) : Prog S (res string unit) :=
  let* r := Get key forceModelSessionRole in
  match r with
  | Err e => ret (Err e)
  | Ok None => ret (Ok tt)
  | Ok (Some existing) =>
      if (negb (isUserForcedReason existing.(Pin.Reason)) || String.eqb existing.(Pin.Model) ""
          || String.eqb existing.(Pin.Model) nextModel)%bool then ret (Ok tt)
      else
        let* now := clock_now in
        UpdateUsage key forceModelSessionRole
          (Usage.mk existing.(Pin.Strategy) 0 0 0 0 now existing.(Pin.Model) existing.(Pin.Provider)
             existing.(Pin.LastServedModel) existing.(Pin.HasEverSwitched))
  end.

Definition force_row (key installationID provider model reason : string) : Pin.t :=
  new_pin key forceModelSessionRole installationID provider model "" "" reason "" "" pinNeverExpires.

Definition setForceModelSessionPin (key installationID canonicalModel provider : string) : Prog S (res string unit) :=
  if (negb pinStore_set || String.eqb installationID uuid_Nil)%bool then ret (Ok tt)
  else
    let* r := preserveForceModelControlHistory key canonicalModel in
    match r with
    | Err e => ret (Err ("preserve force-model control history: " +:+ e))
    | Ok _ => Upsert (force_row key installationID provider canonicalModel ReasonUserForceModel)
    end.

(** (pin, forced, unforced). *)
Definition loadForceModelSessionPin (key : string) : Prog S (Pin.t * bool * bool) :=
  if negb pinStore_set then ret (Pin.zero, false, false)
  else
    let* r := Get key forceModelSessionRole in
    match r with
    | Err _ | Ok None => ret (Pin.zero, false, false)
    | Ok (Some pin) =>
        if String.eqb pin.(Pin.Reason) userUnforcedReason then ret (pin, false, true)
        else
          let* now := clock_now in
          if (negb (After pin.(Pin.PinnedUntil) now) || negb (isUserForcedReason pin.(Pin.Reason))
              || String.eqb pin.(Pin.Model) "" || String.eqb pin.(Pin.Provider) "")%bool
          then ret (Pin.zero, false, false)
          else ret (pin, true, false)
    end.

Definition loadForceModelHistory (key role : string) : Prog S Pin.t :=
  if negb pinStore_set then ret Pin.zero
  else
    let* r := Get key (forceModelHistoryRole role) in
    let* now := clock_now in
    match r with
    | Err _ | Ok None => ret Pin.zero
    | Ok (Some pin) => if negb (After pin.(Pin.PinnedUntil) now) then ret Pin.zero else ret pin
    end.

Definition anchorForceModelHistory (installationID key role : string) (forcedPin : Pin.t) : Prog S unit :=
  if (negb pinStore_set || String.eqb installationID uuid_Nil)%bool then ret tt
  else upsertPin strat (new_pin key (forceModelHistoryRole role) installationID forcedPin.(Pin.Provider)
    forcedPin.(Pin.Model) "" "" forceModelHistoryReason (StrategyFromContext strat) "" pinNeverExpires).

Fixpoint clear_roles (installationID key : string) (roles : list string) : Prog S (res string unit) :=
  match roles with
  | [] => ret (Ok tt)
  | role :: roles' =>
      let* r := Get key role in
      match r with
      | Err e => ret (Err ("load legacy force-model pin for role " +:+ quoted role +:+ ": " +:+ e))
      | Ok None => clear_roles installationID key roles'
      | Ok (Some pin) =>
          if negb (isUserForcedReason pin.(Pin.Reason)) then clear_roles installationID key roles'
          else
            let* r := expireSessionPin strat pinStore_set installationID key role userUnforcedReason in
            match r with
            | Err e => ret (Err e)
            | Ok _ => clear_roles installationID key roles'
            end
      end
  end.
Definition clearLegacyForceModelPins (installationID key : string) : Prog S (res string unit) :=
  if (negb pinStore_set || String.eqb installationID uuid_Nil)%bool then ret (Ok tt)
  else clear_roles installationID key forceModelClearRoles.

Definition clearForceModelSessionPin (installationID key : string) : Prog S (res string unit) :=
  if (negb pinStore_set || String.eqb installationID uuid_Nil)%bool then ret (Ok tt)
  else
    let* r := preserveForceModelControlHistory key "" in
    match r with
    | Err e => ret (Err ("preserve force-model control history before clear: " +:+ e))
    | Ok _ => Upsert (force_row key installationID "" "" userUnforcedReason)
    end.

(** The header's and the model field's way in: the request's knobs come back too. *)
Definition applyResolvedForceModel (knobs : option Overrides) (installationID key raw : string) :
    Prog S (option Overrides * (string + ForceError)) :=
  let '(canonicalModel, provider, known, effortLevel) := resolveForceModelWithEffort raw in
  let knobs := mergeForceEffortKnobs knobs effortLevel in
  if negb known then ret (knobs, inr (ForcedModelUnknown raw))
  else
    match forcedModelBinding cfg ctx canonicalModel provider with
    | Err reason => ret (knobs, inr (ForcedModelExcluded canonicalModel reason))
    | Ok binding =>
        let* _ := setForceModelSessionPin key installationID canonicalModel binding in
        ret (knobs, inl canonicalModel)
    end.
Definition applyForceModel (knobs : option Overrides) (header : option string) (envModel : string)
    (installationID key : string) : Prog S (option Overrides * (string + ForceError)) :=
  let raw := rawForceModelFromHeaders header envModel in
  if String.eqb raw "" then ret (knobs, inl "") else applyResolvedForceModel knobs installationID key raw.
Definition applyForceModelHeader (knobs : option Overrides) (header : string) (installationID key : string) :
    Prog S (option Overrides * (string + ForceError)) :=
  let raw := TrimSpace header in
  if String.eqb raw "" then ret (knobs, inl "") else applyResolvedForceModel knobs installationID key raw.

(** The command's way in: the model forced and what to acknowledge. *)
Definition applyForceModelCommand (cmd : ForceModelResult) (installationID threadSessionKey forceModelSessionKey : string) :
    Prog S (res string (string * ForceReply)) :=
  if cmd.(Clear) then
    let* r := clearLegacyForceModelPins installationID threadSessionKey in
    match r with
    | Err e => ret (Err e)
    | Ok _ =>
        let* r := clearForceModelSessionPin installationID forceModelSessionKey in
        match r with
        | Err e => ret (Err e)
        | Ok _ => ret (Ok ("", ReplyCleared))
        end
    end
  else
    let '(canonicalModel, provider, known) := resolveForceModel cmd.(cmd_Model) in
    if negb known then ret (Ok ("", ReplyUnknown cmd.(cmd_Model)))
    else
      match forcedModelBinding cfg ctx canonicalModel provider with
      | Err reason => ret (Ok ("", ReplyRejected reason))
      | Ok binding =>
          let* r := clearLegacyForceModelPins installationID threadSessionKey in
          match r with
          | Err e => ret (Err e)
          | Ok _ =>
              let* r := setForceModelSessionPin forceModelSessionKey installationID canonicalModel binding in
              match r with
              | Err e => ret (Err e)
              | Ok _ => ret (Ok (canonicalModel, ReplyApplied canonicalModel binding))
              end
          end
      end.
End Handlers.

(** ** Facts: the Postgres table *)

Abbreviation Rows := (gmap (string * string) Pin.t).

(** A row that can be written once more. *)
Definition row_ready (o : option Pin.t) : Prop :=
  forall p, o = Some p -> fits 32 p.(Pin.Provider) /\ p.(Pin.TurnCount) < max_int32.

Section Table.
Context `{GoUnicode}.
Variable strat : option string.
Abbreviation sigma := (StrategyFromContext strat).

(** Keeping the history of the force that is about to go: it touches nothing else, and the model
    that was forced becomes the last one served. *)
Lemma preserve_ok (key next : string) (now : Z) (db : Rows) :
  row_ready (db !! (key, forceModelSessionRole)) ->
  exists db' : Rows, preserveForceModelControlHistory key next now db = (db', Ok tt) /\
    (forall k : string * string, k <> (key, forceModelSessionRole) -> db' !! k = db !! k) /\
    row_ready (db' !! (key, forceModelSessionRole)) /\
    forall p : Pin.t, db !! (key, forceModelSessionRole) = Some p -> isUserForcedReason p.(Pin.Reason) = true ->
      p.(Pin.Model) <> "" -> p.(Pin.Model) <> next ->
      db' !! (key, forceModelSessionRole) = Some (usage_row
        (Usage.mk p.(Pin.Strategy) 0 0 0 0 now p.(Pin.Model) p.(Pin.Provider) p.(Pin.LastServedModel) p.(Pin.HasEverSwitched))
        now p.(Pin.Provider) p).
Proof.
  intros R. unfold preserveForceModelControlHistory, bind, clock_now, ret. cbn [Get UpdateUsage SessionPinRepo].
  unfold repo_Get. destruct (db !! (key, forceModelSessionRole)) as [p|] eqn:E.
  2: { exists db. rewrite E. split; [reflexivity|]. split; [auto|]. split; [exact R|discriminate]. }
  destruct (R p eq_refl) as [Fp Ft].
  destruct (_ || _)%bool eqn:C.
  { exists db. rewrite E. split; [reflexivity|]. split; [auto|]. split; [exact R|]. intros p' [= <-] Hr Hm Hn. exfalso.
    apply orb_prop in C as [C|C]; [apply orb_prop in C as [C|C]|]; [rewrite Hr in C; discriminate|apply String.eqb_eq in C; congruence..]. }
  unfold repo_UpdateUsage. cbn [Usage.Strategy Usage.ServedProvider Usage.EndedAt].
  replace (if IsZero now then now else now) with now by (destruct (IsZero now); reflexivity).
  eexists. split; [apply update_for_own with (p := p)|].
  - unfold select_for, strategy_matches. rewrite E, String.eqb_refl. reflexivity.
  - unfold fits in Fp. rewrite Fp. reflexivity.
  - rewrite lookup_insert_eq. split; [intros k N; apply lookup_insert_ne; congruence|]. split.
    + intros q [= <-]. split; [exact Fp|exact Ft].
    + intros p' [= <-] _ _ _. reflexivity.
Qed.

(** Writing the force row, a force or a tombstone. *)
Lemma force_upsert (key inst provider model reason : string) (now : Z) (db : Rows) :
  fits 32 provider -> fits 128 model -> row_ready (db !! (key, forceModelSessionRole)) ->
  exists (db' : Rows) (q : Pin.t), Upsert (force_row key inst provider model reason) now db = (db', Ok tt) /\
    db' = <[(key, forceModelSessionRole) := q]> db /\
    upserted now (db !! (key, forceModelSessionRole)) (force_row key inst provider model reason) q.
Proof.
  intros Fp Fm R. set (p := force_row key inst provider model reason).
  assert (F : pin_fits p) by (unfold pin_fits, fits in *; cbn; auto 10).
  destruct (repo_Upsert_succeeds p now db F) as [db1 E1]; [intros o Eo; exact (proj2 (R o Eo))|].
  destruct (@Upsert_ok _ SessionPinRepo SessionPinRepo_laws p now db db1 F E1) as (q & U & V).
  exists db1, q. cbn in V, U. auto.
Qed.

(** Expiring the legacy force pins of some roles touches only these and their continuations. *)
Lemma clear_roles_ok (inst key : string) (roles : list string) (now : Z) (db : Rows) :
  fits 32 sigma -> Forall (fits 32) roles -> NoDup roles ->
  (forall r r' : string, r ∈ roles -> r' ∈ roles -> r <> commandContinuationRole r') ->
  (forall r : string, r ∈ roles -> row_ready (db !! (key, r))) ->
  exists db' : Rows, clear_roles strat true inst key roles now db = (db', Ok tt) /\
    forall k r : string, (k <> key \/ Forall (fun r' => r <> r' /\ r <> commandContinuationRole r') roles) ->
      db' !! (k, r) = db !! (k, r).
Proof.
  intros Fs. revert db; induction roles as [|role roles IH]; intros db Fr Nd Ne Rd; cbn [clear_roles].
  { exists db. auto. }
  apply Forall_cons in Fr as [Fr1 Fr]. apply NoDup_cons in Nd as [Nin Nd].
  assert (IH' : forall db1 : Rows, (forall r : string, r ∈ roles -> db1 !! (key, r) = db !! (key, r)) ->
    exists db' : Rows, clear_roles strat true inst key roles now db1 = (db', Ok tt) /\
      forall k r : string, (k <> key \/ Forall (fun r' => r <> r' /\ r <> commandContinuationRole r') roles) ->
        db' !! (k, r) = db1 !! (k, r)).
  { intros db1 E1. apply IH; auto using list_elem_of_further. intros r Hr. rewrite (E1 r Hr). auto using list_elem_of_further. }
  unfold bind at 1. cbn [Get SessionPinRepo]. unfold repo_Get.
  assert (Skip : exists db' : Rows, clear_roles strat true inst key roles now db = (db', Ok tt) /\
    forall k r : string, (k <> key \/ Forall (fun r' => r <> r' /\ r <> commandContinuationRole r') (role :: roles)) ->
      db' !! (k, r) = db !! (k, r)).
  { destruct (IH' db (fun _ _ => eq_refl)) as (db' & E & F). exists db'. split; [exact E|].
    intros k r [N|N]; apply F; [auto|]. apply Forall_cons in N. tauto. }
  destruct (db !! (key, role)) as [p|] eqn:E; [|exact Skip]. destruct (negb _); [exact Skip|].
  unfold bind, expireSessionPin. pose proof (expire_row strat inst key role userUnforcedReason true now db Fr1 Fs) as X.
  destruct (expireSessionPinRow _ _ _ _ _ _ _ _ _) as [db1 r1]. destruct X as (_ & -> & F1).
  { intros o Eo. exact (proj2 (Rd role (list_elem_of_here _ _) o Eo)). }
  destruct (IH' db1) as (db' & E' & F').
  { intros r Hr. apply F1; [intros [= ->]; auto|]. intros _ [= Er].
    exact (Ne r role (list_elem_of_further _ _ _ Hr) (list_elem_of_here _ _) Er). }
  exists db'. split; [exact E'|]. intros k r [N|N].
  - rewrite F' by auto. apply F1; [|intros _]; congruence.
  - apply Forall_cons in N as [[N1 N2] N]. rewrite F' by auto. apply F1; [|intros _]; congruence.
Qed.

(** The legacy pins of a thread go without touching any force row. *)
Lemma clear_legacy_ok (inst key : string) (now : Z) (db : Rows) :
  fits 32 sigma -> (forall k, row_ready (db !! k)) ->
  exists db' : Rows, clearLegacyForceModelPins strat true inst key now db = (db', Ok tt) /\
    forall k : string, db' !! (k, forceModelSessionRole) = db !! (k, forceModelSessionRole).
Proof.
  intros Fs R. unfold clearLegacyForceModelPins, ret. cbn [negb orb].
  destruct (String.eqb inst uuid_Nil); [exists db; auto|].
  destruct (clear_roles_ok inst key forceModelClearRoles now db Fs) as (db' & E & F).
  - repeat constructor.
  - vm_compute. repeat constructor; rewrite ?elem_of_cons, elem_of_nil; intuition discriminate.
  - intros r r' Hr Hr' ->. unfold forceModelClearRoles in *.
    repeat (apply elem_of_cons in Hr' as [->|Hr']); [..|inversion Hr'];
      (repeat (apply elem_of_cons in Hr as [Hr|Hr]; [discriminate Hr|]); inversion Hr).
  - auto.
  - exists db'. split; [exact E|]. intros k. apply F. right. repeat constructor; discriminate.
Qed.

(** Setting a force, from a table whose rows can be written. *)
Lemma set_force_ok (key inst model provider : string) (now : Z) (db : Rows) :
  inst <> uuid_Nil -> fits 32 provider -> fits 128 model -> row_ready (db !! (key, forceModelSessionRole)) ->
  exists (db' db1 : Rows) (q : Pin.t), setForceModelSessionPin true key inst model provider now db = (db', Ok tt) /\
    preserveForceModelControlHistory key model now db = (db1, Ok tt) /\
    db' !! (key, forceModelSessionRole) = Some q /\
    upserted now (db1 !! (key, forceModelSessionRole)) (force_row key inst provider model ReasonUserForceModel) q.
Proof.
  intros Ni Fp Fm R. unfold setForceModelSessionPin, bind.
  rewrite (proj2 (String.eqb_neq _ _) Ni). cbn [negb orb].
  destruct (preserve_ok key model now db R) as (db1 & E1 & _ & R1 & _). rewrite E1.
  destruct (force_upsert key inst provider model ReasonUserForceModel now db1 Fp Fm R1) as (db2 & q & E2 & -> & U).
  exists (<[(key, forceModelSessionRole) := q]> db1), db1, q. rewrite E2, lookup_insert_eq. auto.
Qed.

Lemma resolved_fits name id p : resolveForceModel name = (id, p, true) ->
  fits 32 p /\ fits 128 id /\ p <> "" /\ id <> "".
Proof.
  unfold resolveForceModel. destruct (resolveForceModelWithEffort name) as [[[i q] k] e] eqn:E. intros [= -> -> ->].
  destruct (resolve_known _ _ _ _ E) as (n & m & Em & -> & ->).
  repeat (destruct n; [injection Em as <-; vm_compute; repeat split; discriminate|]). discriminate Em.
Qed.

Lemma forcedModelBinding_Ok cfg ctx model provider b :
  forcedModelBinding cfg ctx model provider = Ok b -> b = provider.
Proof.
  unfold forcedModelBinding. destruct (negb _); [discriminate|]. destruct (in_opt_set _ _); [discriminate|]. congruence.
Qed.

(** C25: a force-model command that names a catalog model the policy permits takes effect for the
    whole session and never expires: from then on the session's force is that model on that provider;
    an unforce command leaves no force behind, whatever was forced before. *)
Theorem force_command_takes_effect (cfg : Config) (ctx : Ctx) (cmd : ForceModelResult) (inst tkey fkey : string)
    (now : Z) (db : Rows) (model provider binding : string) :
  inst <> uuid_Nil -> fits 32 sigma -> (forall k, row_ready (db !! k)) ->
  cmd.(Clear) = false -> resolveForceModel cmd.(cmd_Model) = (model, provider, true) ->
  forcedModelBinding cfg ctx model provider = Ok binding ->
  (exists db' : Rows,
    applyForceModelCommand strat true cfg ctx cmd inst tkey fkey now db = (db', Ok (model, ReplyApplied model binding)) /\
    forall now', now' < pinNeverExpires -> exists pin,
      loadForceModelSessionPin true fkey now' db' = (db', (pin, true, false)) /\
      pin.(Pin.Model) = model /\ pin.(Pin.Provider) = binding) /\
  (exists db' : Rows,
    applyForceModelCommand strat true cfg ctx {| cmd_Model := ""; Clear := true; FromToolResult := false |}
      inst tkey fkey now db = (db', Ok ("", ReplyCleared)) /\
    forall now', exists pin, loadForceModelSessionPin true fkey now' db' = (db', (pin, false, true))).
Proof.
  intros Ni Fs R Ec Er Eb. destruct (resolved_fits _ _ _ Er) as (Fp & Fm & Np & Nm).
  pose proof (forcedModelBinding_Ok _ _ _ _ _ Eb) as ->.
  destruct (clear_legacy_ok inst tkey now db Fs R) as (db1 & E1 & F1).
  assert (R1 : row_ready (db1 !! (fkey, forceModelSessionRole))) by (rewrite F1; apply R).
  split.
  - unfold applyForceModelCommand, bind, ret. rewrite Ec, Er, Eb. cbn beta iota delta [negb]. rewrite E1. cbn beta iota.
    destruct (set_force_ok fkey inst model provider now db1 Ni Fp Fm R1) as (db2 & db0 & q & E2 & _ & Eq & U). rewrite E2.
    exists db2. split; [reflexivity|]. intros now' L. exists q.
    destruct (up_decision _ _ _ _ U) as (Qp & Qm & Qr & _). pose proof (up_until _ _ _ _ U) as Qu. cbn in Qp, Qm, Qr, Qu.
    unfold loadForceModelSessionPin, bind, clock_now, ret. cbn [negb Get SessionPinRepo]. unfold repo_Get.
    rewrite Eq, Qr. change (String.eqb ReasonUserForceModel userUnforcedReason) with false.
    change (isUserForcedReason ReasonUserForceModel) with true. cbn match.
    unfold After. rewrite Qu, Qm, Qp, (proj2 (String.eqb_neq _ _) Np), (proj2 (String.eqb_neq _ _) Nm).
    change (pg_time pinNeverExpires) with pinNeverExpires. rewrite (proj2 (Z.ltb_lt _ _) L). auto.
  - unfold applyForceModelCommand, bind, ret. cbn [Clear]. rewrite E1.
    unfold clearForceModelSessionPin, bind. rewrite (proj2 (String.eqb_neq _ _) Ni). cbn [negb orb].
    destruct (preserve_ok fkey "" now db1 R1) as (db2 & E2 & _ & R2 & _). rewrite E2.
    destruct (force_upsert fkey inst "" "" userUnforcedReason now db2 eq_refl eq_refl R2) as (db3 & q & E3 & -> & U).
    rewrite E3. eexists. split; [reflexivity|]. intros now'. exists q.
    destruct (up_decision _ _ _ _ U) as (_ & _ & Qr & _). cbn in Qr.
    unfold loadForceModelSessionPin, bind, ret. cbn [negb Get SessionPinRepo]. unfold repo_Get.
    rewrite lookup_insert_eq, Qr. reflexivity.
Qed.

(** Forcing another model keeps the history of the force it replaces: the row then
    says that the first model was the last one served, and a session that had served a different
    one before stays marked as switched. *)
Lemma force_again_keeps_history (inst key model provider : string) (now : Z) (db : Rows) (p : Pin.t) :
  inst <> uuid_Nil -> fits 32 provider -> fits 128 model -> row_ready (db !! (key, forceModelSessionRole)) ->
  db !! (key, forceModelSessionRole) = Some p -> p.(Pin.Strategy) = "" ->
  isUserForcedReason p.(Pin.Reason) = true -> p.(Pin.Model) <> "" -> p.(Pin.Model) <> model ->
  exists (db' : Rows) (q : Pin.t), setForceModelSessionPin true key inst model provider now db = (db', Ok tt) /\
    db' !! (key, forceModelSessionRole) = Some q /\
    q.(Pin.Model) = model /\ q.(Pin.LastServedModel) = p.(Pin.Model) /\
    (p.(Pin.HasEverSwitched) = true \/ p.(Pin.LastServedModel) <> "" /\ p.(Pin.LastServedModel) <> p.(Pin.Model) ->
     q.(Pin.HasEverSwitched) = true).
Proof.
  intros Ni Fp Fm R Ep Es Er Nm Nn.
  destruct (set_force_ok key inst model provider now db Ni Fp Fm R) as (db' & db1 & q & E & E1 & Eq & U).
  destruct (preserve_ok key model now db R) as (db1' & E1' & _ & _ & H1). rewrite E1 in E1'. injection E1' as <-.
  rewrite (H1 p Ep Er Nm Nn) in U. exists db', q. split; [exact E|]. split; [exact Eq|].
  split; [exact (proj1 (proj2 (up_decision _ _ _ _ U)))|].
  destruct (up_same_strategy _ _ _ _ U _ eq_refl Es) as (_ & Q1 & Q2 & _). split; [exact Q2|].
  intros D. rewrite Q1. cbn. destruct D as [->|[D1 D2]]; [reflexivity|].
  rewrite (proj2 (String.eqb_neq _ _) D1), (proj2 (String.eqb_neq _ _) D2). cbn.
  destruct p.(Pin.HasEverSwitched); reflexivity.
Qed.
End Table.

(** ** Witnesses *)

Definition ex_cmd : ForceModelResult :=
  {| cmd_Model := "zai-org/glm-5.3"; Clear := false; FromToolResult := false |}.
Lemma ready_empty k : row_ready ((∅ : Rows) !! k).
Proof. intros p E. rewrite lookup_empty in E. discriminate. Qed.

Lemma force_command_takes_effect_witness : exists db' : Rows,
  @applyForceModelCommand ascii_unicode _ _ None true ex_cfg ex_ctx ex_cmd ex_uuid ex_skey ex_skey Hour ∅ =
    (db', Ok ("zai-org/glm-5.3", ReplyApplied "zai-org/glm-5.3" ProviderAiand)) /\
  exists pin, loadForceModelSessionPin true ex_skey Hour db' = (db', (pin, true, false)) /\
    pin.(Pin.Model) = "zai-org/glm-5.3".
Proof.
  destruct (@force_command_takes_effect ascii_unicode None ex_cfg ex_ctx ex_cmd ex_uuid ex_skey ex_skey Hour ∅
    "zai-org/glm-5.3" ProviderAiand ProviderAiand ltac:(discriminate) ltac:(vm_compute; reflexivity) ready_empty
    eq_refl ltac:(vm_compute; reflexivity) ltac:(vm_compute; reflexivity)) as [(db' & E & L) _].
  destruct (L Hour ltac:(vm_compute; reflexivity)) as (pin & El & Em & _).
  exists db'. split; [exact E|]. exists pin. split; [exact El|exact Em].
Defined.

Definition ex_forced : Pin.t := force_row ex_skey ex_uuid ProviderAiand "moonshotai/kimi-k3" ReasonUserForceModel.
Lemma force_again_keeps_history_witness : exists (db' : Rows) (q : Pin.t),
  setForceModelSessionPin true ex_skey ex_uuid "zai-org/glm-5.3" ProviderAiand Hour
    {[ (ex_skey, forceModelSessionRole) := ex_forced ]} = (db', Ok tt) /\
  db' !! (ex_skey, forceModelSessionRole) = Some q /\ q.(Pin.LastServedModel) = "moonshotai/kimi-k3".
Proof.
  assert (E : ({[ (ex_skey, forceModelSessionRole) := ex_forced ]} : Rows) !! (ex_skey, forceModelSessionRole) = Some ex_forced)
    by (vm_compute; reflexivity).
  assert (R : row_ready (Some ex_forced)) by (intros p [= <-]; split; vm_compute; reflexivity). rewrite <- E in R.
  destruct (force_again_keeps_history ex_uuid ex_skey "zai-org/glm-5.3" ProviderAiand Hour _ ex_forced
    ltac:(discriminate) ltac:(vm_compute; reflexivity) ltac:(vm_compute; reflexivity) R E eq_refl eq_refl
    ltac:(discriminate) ltac:(discriminate)) as (db' & q & E1 & E2 & _ & E3 & _).
  exact (ex_intro _ db' (ex_intro _ q (conj E1 (conj E2 E3)))).
Defined.
