(* ===== verification/HmmGate.v ===== *)
(** The cost gate of the HMM strategies and the choices made on a pinned turn:
    hmmCostGatedDecision and its helpers in internal/proxy/turnloop.go, the effort hysteresis of
    hysteresis.go, the band swap of service.go and internal/router/bandswap.

    The gate asks the planner whether the session's HMM stay pin should be kept over the policy's
    fresh pick; the planner owns the cache economics, the gate owns the escalation rules. *)

From stdpp Require Import base gmap sets list strings.
From Stdlib Require Import ZArith Lia Ascii SpecFloat.
From S2P Require Import Prelude Floats Types Catalog Planner PinStore ForceNames Reasoning Exclusions PinPolicy.
Open Scope string_scope.
Open Scope Z_scope.

(** ** The service's switches *)

(** What the gate and the band swap read of the service. *)
Record Gate := {
  gate_cfg : Config;
  gate_planner : EVConfig;
  (** the registered providers *)
  gate_providers : gset string;
  hmmUpgradeConfidenceThreshold : f64;
  hmmSameTierPin : bool
}.

Definition hmmHistoryReason : string := "hmm_history".
Definition hmmReasonConfidentUpgrade : string := "hmm_confident_upgrade".
Definition hmmReasonUpgradeConfidenceLow : string := "hmm_upgrade_confidence_low".
Definition hmmReasonPhaseChange : string := "hmm_phase_change".

Definition isHMMDecision (dec : Decision.t) : bool :=
  match dec.(Decision.Metadata) with
  | Some md => (IsHMMStrategy md.(Metadata.Strategy) || HasPrefix (TrimSpace dec.(Decision.Reason)) "hmm_policy")%bool
  | None => HasPrefix (TrimSpace dec.(Decision.Reason)) "hmm_policy"
  end.
Definition isHMMPinReason (reason : string) : bool :=
  (String.eqb reason hmmHistoryReason || HasPrefix (TrimSpace reason) "hmm_policy")%bool.
Definition isHMMToolExecutionReason (reason : string) : bool :=
  HasPrefix (TrimSpace reason) "hmm_policy:tool_execution".
Definition hmmToolExecutionPhaseChanged (stayReason freshReason : string) : bool :=
  negb (Bool.eqb (isHMMToolExecutionReason stayReason) (isHMMToolExecutionReason freshReason)).

(** The sidecar's confidence: absent without metadata or a positive score. *)
Definition hmmDecisionConfidence (dec : Decision.t) : option f64 :=
  match dec.(Decision.Metadata) with
  | None => None
  | Some md => let confidence := f64_of_f32 md.(Metadata.ChosenScore) in
               if f_le confidence f_zero then None else Some confidence
  end.

Section Hmm.
Context `{GoUnicode}.

Definition hmmEffectiveInputUSDPer1M (model : string) (factors : gmap string f64) : option f64 :=
  match PrimaryPriceFor model with
  | None => None
  | Some price => Some (match factors !! model with
                        | Some factor => f64_mul price.(InputUSDPer1M) factor
                        | None => price.(InputUSDPer1M)
                        end)
  end.
Definition hmmFreshIsMoreExpensive (stayModel freshModel : string) (factors : gmap string f64) : bool :=
  match hmmEffectiveInputUSDPer1M stayModel factors, hmmEffectiveInputUSDPer1M freshModel factors with
  | Some stay, Some fresh => f_gt fresh stay
  | _, _ => false
  end.

(** The pin as a stay candidate: under the model it last served, on its own provider when that
    binds the model and on the first enabled binding otherwise. *)
Definition normalizeHMMStayPin (g : Gate) (now : Z) (req : Request.t) (p : Pin.t) : option Pin.t :=
  let model := if String.eqb p.(Pin.LastServedModel) "" then p.(Pin.Model) else p.(Pin.LastServedModel) in
  if String.eqb model "" then None
  else if IsZero p.(Pin.LastTurnEndedAt) then None
  else if (negb (IsZero p.(Pin.PinnedUntil)) && negb (After p.(Pin.PinnedUntil) now))%bool then None
  else if prevTurnMaxedOutThreshold <=? p.(Pin.LastOutputTokens) then None
  else if in_opt_set model req.(Request.ExcludedModels) then None
  else if automaticallyDisabled req model then None
  else if match g.(gate_cfg).(availableModels) with
          | Some available => negb (in_set model available)
          | None => false
          end then None
  else if (req.(Request.HasImages) && negb (AcceptsImages model))%bool then None
  else
    let p := Pin.set_Model model p in
    let providerSet := match req.(Request.EnabledProviders) with
                       | Some enabled => enabled
                       | None => g.(gate_providers)
                       end in
    let keep := (negb (String.eqb p.(Pin.Provider) "")
                 && match EnumerateBindings model (Some {[ p.(Pin.Provider) ]}) with [] => false | _ => true end)%bool in
    if keep then Some p
    else match EnumerateBindings model (Some providerSet) with
         | [] => None
         | (_, b) :: _ => Some (Pin.set_Provider b.(Provider) p)
         end.

(** The candidate whose turn ended last; the first wins ties. *)
Definition hmmStayPin (g : Gate) (now : Z) (req : Request.t) (activePin hmmHistory : Pin.t) : option Pin.t :=
  let activePin := if isHMMPinReason activePin.(Pin.Reason) then activePin else Pin.zero in
  match normalizeHMMStayPin g now req activePin, normalizeHMMStayPin g now req hmmHistory with
  | Some a, Some h => if After h.(Pin.LastTurnEndedAt) a.(Pin.LastTurnEndedAt) then Some h else Some a
  | Some a, None => Some a
  | None, o => o
  end.

Definition with_verdict (o : Outcome) (reason : string) (v : Verdict.t) : Verdict.t :=
  {| Verdict.outcome := o; Verdict.Reason := reason;
     Verdict.ExpectedSavingsUSD := v.(Verdict.ExpectedSavingsUSD);
     Verdict.EvictionCostUSD := v.(Verdict.EvictionCostUSD);
     Verdict.ThresholdUSD := v.(Verdict.ThresholdUSD);
     Verdict.PinPriceFallback := v.(Verdict.PinPriceFallback);
     Verdict.FreshPriceFallback := v.(Verdict.FreshPriceFallback);
     Verdict.ShadowComputed := v.(Verdict.ShadowComputed); Verdict.ShadowOutcome := v.(Verdict.ShadowOutcome);
     Verdict.ShadowExpectedSavingsUSD := v.(Verdict.ShadowExpectedSavingsUSD);
     Verdict.ShadowStayCostUSD := v.(Verdict.ShadowStayCostUSD);
     Verdict.ShadowSwitchCostUSD := v.(Verdict.ShadowSwitchCostUSD);
     Verdict.PinCacheCold := v.(Verdict.PinCacheCold) |}.
Definition without_tier_upgrade (cfg : EVConfig) : EVConfig :=
  {| ThresholdUSD := cfg.(ThresholdUSD); ExpectedRemainingTurns := cfg.(ExpectedRemainingTurns);
     TierUpgradeEnabled := false; ColdPinFollowFresh := cfg.(ColdPinFollowFresh);
     CorrectedEconomics := cfg.(CorrectedEconomics) |}.

(** The planner's question about a pin. *)
Definition planner_inputs (g : Gate) (now : Z) (req : Request.t) (pin : Pin.t) (fresh : Decision.t)
    (estimatedInputTokens : Z) (prefixBroken : bool) (pinCold : bool) : Inputs :=
  let '(prefix, known) := cacheablePrefixTokens pin estimatedInputTokens prefixBroken in
  {| in_Pin := pin; Fresh := fresh; EstimatedInputTokens := estimatedInputTokens;
     CacheablePrefixTokens := prefix; CachePrefixKnown := known;
     Planner.PriorOutputTokens := pin.(Pin.LastOutputTokens);
     AvailableModels := g.(gate_cfg).(availableModels); in_PinCacheCold := pinCold;
     SubsidizedCostFactor := req.(Request.SubsidizedModelCostFactor) |}.

(** The escalation floor: a dearer pick switches when the policy is confident enough, and is not
    taken on economics that say stay. *)
Definition upgrade_rule (g : Gate) (req : Request.t) (stayModel : string) (fresh : Decision.t)
    (base : Verdict.t) : Verdict.t :=
  if hmmFreshIsMoreExpensive stayModel fresh.(Decision.Model) req.(Request.SubsidizedModelCostFactor) then
    let confident := match hmmDecisionConfidence fresh with
                     | Some confidence => f_ge confidence g.(hmmUpgradeConfidenceThreshold)
                     | None => false
                     end in
    if confident then with_verdict OutcomeSwitch hmmReasonConfidentUpgrade base
    else if bool_decide (base.(Verdict.outcome) = OutcomeSwitch) then base
    else with_verdict OutcomeStay hmmReasonUpgradeConfidenceLow base
  else base.
Definition same_tier_rule (g : Gate) (stayModel : string) (fresh : Decision.t) (base : Verdict.t) : Verdict.t :=
  if (g.(hmmSameTierPin) && bool_decide (base.(Verdict.outcome) = OutcomeSwitch)
      && String.eqb base.(Verdict.Reason) ReasonEVPositive
      && bool_decide (TierFor stayModel <> TierUnknown)
      && bool_decide (TierFor stayModel = TierFor fresh.(Decision.Model)))%bool
  then with_verdict OutcomeStay ReasonSameTierPinned base
  else base.

(** (decision, verdict, sticky, stay model) *)
Definition hmmCostGatedDecision (g : Gate) (now : Z) (req : Request.t) (activePin hmmHistory : Pin.t)
    (fresh : Decision.t) (estimatedInputTokens : Z) (prefixBroken : bool) :
    Decision.t * Verdict.t * bool * string :=
  match hmmStayPin g now req activePin hmmHistory with
  | None => (fresh, Verdict.early OutcomeSwitch ReasonNoPin false false, false, "")
  | Some stayPin =>
      if hmmToolExecutionPhaseChanged stayPin.(Pin.Reason) fresh.(Decision.Reason)
      then (fresh, Verdict.early OutcomeSwitch hmmReasonPhaseChange false false, false, stayPin.(Pin.Model))
      else
        let base := Decide (planner_inputs g now req stayPin fresh estimatedInputTokens prefixBroken
                              (pinCacheCold now stayPin prefixBroken))
                      (without_tier_upgrade g.(gate_planner)) in
        let base := upgrade_rule g req stayPin.(Pin.Model) fresh base in
        let base := same_tier_rule g stayPin.(Pin.Model) fresh base in
        if (bool_decide (base.(Verdict.outcome) = OutcomeStay)
            && negb (String.eqb stayPin.(Pin.Model) fresh.(Decision.Model)))%bool
        then (pinDecision stayPin, base, true, stayPin.(Pin.Model))
        else (fresh, base, false, stayPin.(Pin.Model))
  end.

(** ** The shadow verdict of authoritative turns *)

(** The sidecar's score for an identity.  [arms] is the order in which the arm map is walked. *)
Fixpoint fallback_score (md : Metadata.t) (effort model provider : string) (arms : list (string * f32))
    (fallback : option f64) : option f64 :=
  match arms with
  | [] => fallback
  | (armID, score) :: arms' =>
      let '(armEffort, armModel) := stripEffortSuffix armID in
      if (negb (String.eqb armEffort effort)
          || (negb (String.eqb armModel model) && negb (HasSuffix armModel ("/" +:+ model))))%bool
      then fallback_score md effort model provider arms' fallback
      else if (negb (String.eqb provider "")
               && bool_decide (md.(Metadata.CandidateArmProviders) !! armID = Some provider))%bool
      then Some (f64_of_f32 score)
      else match fallback with
           | Some _ => None
           | None => fallback_score md effort model provider arms' (Some (f64_of_f32 score))
           end
  end.
Definition candidateScoreForWithArm (arms : list (string * f32)) (dec : Decision.t)
    (servedIdentity provider rosterArmID : string) : option f64 :=
  match dec.(Decision.Metadata) with
  | None => None
  | Some md =>
      if String.eqb servedIdentity "" then None
      else match md.(Metadata.CandidateScores) !! baseModelOf servedIdentity with
      | Some score => Some (f64_of_f32 score)
      | None =>
      match (if String.eqb rosterArmID "" then None else md.(Metadata.ArmScores) !! rosterArmID) with
      | Some score => Some (f64_of_f32 score)
      | None =>
          let '(effort, model) := stripEffortSuffix servedIdentity in
          if (String.eqb model "" || bool_decide (md.(Metadata.ArmScores) = ∅))%bool then None
          else
            let armSuffix := if String.eqb effort "" then "" else ":" +:+ effort in
            let keyed := if String.eqb provider "" then None
                         else md.(Metadata.ArmScores) !! (provider +:+ "/" +:+ model +:+ armSuffix) in
            match keyed with
            | Some score => Some (f64_of_f32 score)
            | None => match md.(Metadata.ArmScores) !! (model +:+ armSuffix) with
                      | Some score => Some (f64_of_f32 score)
                      | None => fallback_score md effort model provider arms None
                      end
            end
      end
      end
  end.
Definition candidateScoreForWithProvider (arms : list (string * f32)) (dec : Decision.t)
    (servedIdentity provider : string) : option f64 :=
  candidateScoreForWithArm arms dec servedIdentity provider "".

Record authorityCacheShadow := {
  Computed : bool;
  sh_Decision : Verdict.t;
  StayModel : string;
  StayProvider : string;
  Sticky : bool;
  StayScore : option f64;
  FreshScore : option f64
}.
Definition no_shadow : authorityCacheShadow :=
  {| Computed := false; sh_Decision := Verdict.early OutcomeStay "" false false; StayModel := "";
     StayProvider := ""; Sticky := false; StayScore := None; FreshScore := None |}.
Definition shadow_Reason (a : authorityCacheShadow) : string :=
  if a.(Computed) then a.(sh_Decision).(Verdict.Reason) else "".
Definition EVRan (a : authorityCacheShadow) : bool :=
  (a.(Computed) && a.(sh_Decision).(Verdict.ShadowComputed))%bool.
(** [enabled] is the flag of the request; both reads of the clock are one here. *)
Definition authorityCacheShadowFor (enabled : bool) (arms : list (string * f32)) (g : Gate) (now : Z)
    (req : Request.t) (activePin hmmHistory : Pin.t) (fresh : Decision.t) (estimatedInputTokens : Z)
    (prefixBroken : bool) : authorityCacheShadow :=
  if negb enabled then no_shadow
  else if negb (isHMMDecision fresh) then no_shadow
  else
    let '(_, plannerDecision, sticky, stayModel) :=
      hmmCostGatedDecision g now req activePin hmmHistory fresh estimatedInputTokens prefixBroken in
    let stay := match hmmStayPin g now req activePin hmmHistory with
                | Some p => if String.eqb p.(Pin.Model) stayModel then Some p.(Pin.Provider) else None
                | None => None
                end in
    let freshRosterArmID := match fresh.(Decision.Metadata) with
                            | Some md => md.(Metadata.SelectedRosterArmID)
                            | None => ""
                            end in
    {| Computed := true; sh_Decision := plannerDecision; StayModel := stayModel;
       StayProvider := default "" stay; Sticky := sticky;
       StayScore := candidateScoreForWithProvider arms fresh stayModel (default activePin.(Pin.Provider) stay);
       FreshScore := candidateScoreForWithArm arms fresh (ServedIdentity fresh) fresh.(Decision.Provider) freshRosterArmID |}.

(** ** Effort hysteresis (hysteresis.go) *)

Definition effortHysteresisThreshold : f32 := f32_lit 1 1.
Definition effortHysteresisReason : string := "effort_hysteresis".
Definition appendEffortHysteresisReason (reason : string) : string :=
  if String.eqb reason "" then effortHysteresisReason else reason +:+ "+" +:+ effortHysteresisReason.
(** The effort to keep, empty to let the challenger through. *)
Definition effortHysteresisHold (fresh : Decision.t) (prevServedModel chosenModel chosenEffort : string) : string :=
  match fresh.(Decision.Metadata) with
  | None => ""
  | Some md =>
      if bool_decide (md.(Metadata.ArmScores) = ∅) then ""
      else
        let '(incumbentEffort, incumbentModel) := stripEffortSuffix prevServedModel in
        if (String.eqb incumbentEffort "" || String.eqb chosenEffort ""
            || String.eqb incumbentEffort chosenEffort)%bool then ""
        else if (negb (String.eqb chosenModel incumbentModel)
                 || negb (String.eqb fresh.(Decision.Model) incumbentModel))%bool then ""
        else
          let '(_, armBase) := stripEffortSuffix md.(Metadata.SelectedRosterArmID) in
          if String.eqb armBase "" then ""
          else match md.(Metadata.ArmScores) !! (armBase +:+ ":" +:+ chosenEffort),
                     md.(Metadata.ArmScores) !! (armBase +:+ ":" +:+ incumbentEffort) with
               | Some challengerScore, Some incumbentScore =>
                   if f_ge (f32_sub challengerScore incumbentScore) effortHysteresisThreshold then ""
                   else incumbentEffort
               | _, _ => ""
               end
  end.
End Hmm.

(** ** The band swap (bandswap.go, service.go) *)

Inductive Band := Large | Small.
#[export] Instance Band_eq_dec : EqDecision Band.
Proof. solve_decision. Defined.
Definition EmbedDim : nat := 768.
Definition bandMap : list (string * Band) :=
  [("planning", Large); ("learning", Large); ("providing_info", Small); ("tool_call", Small);
   ("confirmation", Small); ("refinement", Small)].
Definition Band_of (action : string) : Band :=
  default Large ((list_to_map bandMap : gmap string Band) !! action).

(** The booster: its class labels and, for a vector, one probability per class or an error. *)
Record Classifier := { classes : list string; booster : list f64 -> option (list f64) }.

(** The position of the greatest probability, the first of equals; 0 when none is a number. *)
Fixpoint argmax_from (i : nat) (preds : list f64) (best : nat) (bestP : f64) : nat :=
  match preds with
  | [] => best
  | p :: preds' => if f_gt p bestP then argmax_from (S i) preds' i p else argmax_from (S i) preds' best bestP
  end.
Definition PredictAction (c : Classifier) (emb : list f32) : option string :=
  if negb (Nat.eqb (length emb) EmbedDim) then None
  else match c.(booster) (map f64_of_f32 emb) with
       | None => None
       | Some preds => c.(classes) !! argmax_from 0 preds 0 (S754_infinity true)
       end.
Definition PredictBand (c : Classifier) (emb : list f32) : option (string * Band) :=
  action ← PredictAction c emb; Some (action, Band_of action).

Section BandSwap.
Context `{GoUnicode}.

Definition primaryInputPrice (model : string) : f64 :=
  match PrimaryPriceFor model with Some p => p.(InputUSDPer1M) | None => f_zero end.
Definition paired_decision (pin : Pin.t) : Decision.t :=
  {| Decision.Provider := pin.(Pin.PairedProvider); Decision.Model := pin.(Pin.PairedModel);
     Decision.Effort := ""; Decision.Reason := pin.(Pin.Reason); Decision.Metadata := None |}.
(** (large, small) *)
Definition orderBandPair (pin : Pin.t) : Decision.t * Decision.t :=
  let a := pinDecision pin in
  let b := paired_decision pin in
  let ta := tier_rank (TierFor a.(Decision.Model)) in
  let tb := tier_rank (TierFor b.(Decision.Model)) in
  if negb (ta =? tb) then if tb <? ta then (a, b) else (b, a)
  else if f_ge (primaryInputPrice a.(Decision.Model)) (primaryInputPrice b.(Decision.Model)) then (a, b) else (b, a).

(** [mainLoop]: the turn is of the main loop; [embedOnlyUserMessage] is the request's flag. *)
Definition bandSwapServed (g : Gate) (bandSwap : option Classifier) (embedOnlyUserMessage mainLoop : bool)
    (automatic : option (gset string)) (pin : Pin.t) (fresh : Decision.t) (hasImages : bool)
    (enabledProviders excludedModels : option (gset string)) : Decision.t :=
  let anchor := pinDecision pin in
  match bandSwap with
  | None => anchor
  | Some c =>
  if (String.eqb pin.(Pin.PairedModel) "" || negb mainLoop)%bool then anchor
  else if negb embedOnlyUserMessage then anchor
  else match fresh.(Decision.Metadata) with
  | None => anchor
  | Some md =>
  if negb (Nat.eqb (length md.(Metadata.Embedding)) EmbedDim) then anchor
  else match PredictBand c md.(Metadata.Embedding) with
  | None => anchor
  | Some (_, band) =>
      let '(large, small) := orderBandPair pin in
      let served := match band with Large => large | Small => small end in
      let model := served.(Decision.Model) in
      if String.eqb model pin.(Pin.Model) then served
      else if negb (in_opt_set model g.(gate_cfg).(availableModels)) then anchor
      else if (hasImages && negb (AcceptsImages model))%bool then anchor
      else if in_opt_set model excludedModels then anchor
      else if in_opt_set model automatic then anchor
      else if negb (in_set served.(Decision.Provider) g.(gate_providers)) then anchor
      else match enabledProviders with
           | Some enabled => if in_set served.(Decision.Provider) enabled then served else anchor
           | None => served
           end
  end
  end
  end.
End BandSwap.

(** ** Facts *)

Section Facts.
Context `{GoUnicode}.

(** What makes a model servable as a stay. *)
Definition stay_servable (g : Gate) (req : Request.t) (model : string) : Prop :=
  model <> "" /\ in_opt_set model req.(Request.ExcludedModels) = false /\
  automaticallyDisabled req model = false /\
  (forall available, g.(gate_cfg).(availableModels) = Some available -> model ∈ available) /\
  (req.(Request.HasImages) = true -> AcceptsImages model = true).

Lemma EnumerateBindings_provider model s i b l : EnumerateBindings model (Some s) = (i, b) :: l ->
  EnumerateBindings model (Some {[ b.(Provider) ]}) <> [].
Proof.
  unfold EnumerateBindings. destruct (ByID model) as [m|]; [|discriminate]. intros E F.
  assert (In : List.In (i, b) ((i, b) :: l)) by (left; reflexivity). rewrite <- E in In.
  apply List.filter_In in In as [In _].
  apply (@List.in_nil IndexedBinding (i, b)). rewrite <- F. apply List.filter_In. split; [exact In|]. cbn. unfold in_set. apply bool_decide_eq_true_2. set_solver.
Qed.

Lemma normalize_sound g now req p q : normalizeHMMStayPin g now req p = Some q ->
  stay_servable g req q.(Pin.Model) /\ EnumerateBindings q.(Pin.Model) (Some {[ q.(Pin.Provider) ]}) <> [] /\
  q.(Pin.LastTurnEndedAt) = p.(Pin.LastTurnEndedAt) /\ q.(Pin.LastTurnEndedAt) <> 0 /\
  q.(Pin.LastOutputTokens) < prevTurnMaxedOutThreshold /\
  (q.(Pin.PinnedUntil) = 0 \/ now < q.(Pin.PinnedUntil)).
Proof.
  unfold normalizeHMMStayPin. set (model := if String.eqb p.(Pin.LastServedModel) "" then _ else _).
  destruct (String.eqb_spec model "") as [|Nm]; [discriminate|].
  unfold IsZero. destruct (Z.eqb_spec p.(Pin.LastTurnEndedAt) 0) as [|Nt]; [discriminate|].
  destruct (negb _ && negb _)%bool eqn:Eu; [discriminate|].
  destruct (Z.leb_spec prevTurnMaxedOutThreshold p.(Pin.LastOutputTokens)) as [|Lo]; [discriminate|].
  destruct (in_opt_set model req.(Request.ExcludedModels)) eqn:Ee; [discriminate|].
  destruct (automaticallyDisabled req model) eqn:Ea; [discriminate|].
  destruct (match availableModels _ with Some _ => _ | None => _ end) eqn:Ev; [discriminate|].
  destruct (req.(Request.HasImages) && negb (AcceptsImages model))%bool eqn:Ei; [discriminate|].
  assert (Sv : stay_servable g req model).
  { split; [exact Nm|]. split; [exact Ee|]. split; [exact Ea|]. split.
    - intros av E. rewrite E in Ev. apply negb_false_iff in Ev. unfold in_set in Ev. apply bool_decide_eq_true in Ev. exact Ev.
    - intros E. rewrite E in Ei. apply negb_false_iff in Ei. exact Ei. }
  assert (Un : p.(Pin.PinnedUntil) = 0 \/ now < p.(Pin.PinnedUntil)).
  { unfold After in Eu. apply andb_false_iff in Eu as [E|E]; apply negb_false_iff in E; [left; lia|right; lia]. }
  destruct (negb (String.eqb _ "") && _)%bool eqn:Ek.
  - intros [= <-]. cbn. apply andb_prop in Ek as [_ Ek]. cbn in Ek.
    split; [exact Sv|]. split; [intros E; rewrite E in Ek; discriminate|]. auto.
  - match goal with |- match ?l with _ => _ end = _ -> _ => destruct l as [|[i b] l'] eqn:Eb end; [discriminate|].
    intros [= <-]. cbn.
    split; [exact Sv|]. split; [exact (EnumerateBindings_provider _ _ _ _ _ Eb)|]. auto.
Qed.

Lemma hmmStayPin_sound g now req active hist q : hmmStayPin g now req active hist = Some q ->
  exists p, normalizeHMMStayPin g now req p = Some q /\ (p = hist \/ (p = active /\ isHMMPinReason active.(Pin.Reason) = true)).
Proof.
  unfold hmmStayPin. destruct (isHMMPinReason active.(Pin.Reason)) eqn:Er.
  - destruct (normalizeHMMStayPin g now req active) eqn:Ea, (normalizeHMMStayPin g now req hist) eqn:Eh;
      try destruct (After _ _); try discriminate; intros [= <-]; eauto.
  - change (normalizeHMMStayPin g now req Pin.zero) with (@None Pin.t).
    destruct (normalizeHMMStayPin g now req hist) eqn:Eh; [|discriminate]; intros [= <-]; eauto.
Qed.

(** The gate serves the stay pin or the fresh pick. *)
Lemma gate_cases g now req active hist fresh est broken d v sticky m :
  hmmCostGatedDecision g now req active hist fresh est broken = (d, v, sticky, m) ->
  if (sticky : bool)
  then exists q, hmmStayPin g now req active hist = Some q /\ d = pinDecision q /\ m = q.(Pin.Model) /\
         m <> fresh.(Decision.Model) /\ v.(Verdict.outcome) = OutcomeStay
  else d = fresh.
Proof.
  unfold hmmCostGatedDecision. destruct (hmmStayPin g now req active hist) as [q|] eqn:Eq.
  2:{ intros [= <- _ <- _]. reflexivity. }
  destruct (hmmToolExecutionPhaseChanged _ _); [intros [= <- _ <- _]; reflexivity|].
  destruct (bool_decide _ && _)%bool eqn:Es; intros [= <- <- <- <-]; [|reflexivity].
  apply andb_prop in Es as [Eo En]. apply bool_decide_eq_true in Eo. apply negb_true_iff, String.eqb_neq in En.
  exists q. auto.
Qed.

(** The gate keeps the session's model only when it could be served afresh: it is neither
    excluded nor withdrawn from automatic routing, the deployment offers it, it takes the turn's
    images and the catalog binds it to the provider kept; otherwise the fresh pick goes through
    unchanged. *)
Lemma hmm_stay_sound g now req active hist fresh est broken :
  let '(d, v, sticky, m) := hmmCostGatedDecision g now req active hist fresh est broken in
  if (sticky : bool)
  then d.(Decision.Model) = m /\ m <> fresh.(Decision.Model) /\ v.(Verdict.outcome) = OutcomeStay /\
       stay_servable g req m /\ EnumerateBindings m (Some {[ d.(Decision.Provider) ]}) <> []
  else d = fresh.
Proof.
  destruct (hmmCostGatedDecision g now req active hist fresh est broken) as [[[d v] sticky] m] eqn:E.
  apply gate_cases in E. destruct sticky; [|exact E]. destruct E as (q & Eq & -> & -> & N & V).
  destruct (hmmStayPin_sound _ _ _ _ _ _ Eq) as (p & Ep & _). destruct (normalize_sound _ _ _ _ _ Ep) as (Sv & B & _).
  cbn. auto.
Qed.

Lemma same_tier_stays g m fresh b :
  (same_tier_rule g m fresh b).(Verdict.outcome) = OutcomeStay <->
  b.(Verdict.outcome) = OutcomeStay \/
  (g.(hmmSameTierPin) = true /\ b.(Verdict.Reason) = ReasonEVPositive /\
   TierFor m <> TierUnknown /\ TierFor m = TierFor fresh.(Decision.Model)).
Proof.
  unfold same_tier_rule. destruct b.(Verdict.outcome) eqn:Eb.
  { rewrite bool_decide_eq_false_2 by discriminate. rewrite andb_false_r. cbn. rewrite Eb. tauto. }
  rewrite bool_decide_eq_true_2, andb_true_r by reflexivity. destruct (g.(hmmSameTierPin) && _ && _ && _)%bool eqn:E; cbn.
  - apply andb_prop in E as [E E4]. apply andb_prop in E as [E E3]. apply andb_prop in E as [E1 E2].
    apply String.eqb_eq in E2. apply bool_decide_eq_true in E3, E4. tauto.
  - rewrite Eb. split; [discriminate|]. intros [|(E1 & E2 & E3 & E4)]; [discriminate|exfalso].
    rewrite E1, E2, String.eqb_refl, !bool_decide_eq_true_2 in E by assumption. discriminate.
Qed.

(** The gate's last step, once the escalation floor is settled. *)
Lemma gate_last (g : Gate) (stay : Pin.t) (fresh d : Decision.t) (b base : Verdict.t) :
  (b.(Verdict.outcome) = OutcomeStay <-> base.(Verdict.outcome) = OutcomeStay) ->
  (base.(Verdict.outcome) = OutcomeSwitch -> b = base) ->
  let r := same_tier_rule g stay.(Pin.Model) fresh b in
  (if (bool_decide (r.(Verdict.outcome) = OutcomeStay) && negb (String.eqb stay.(Pin.Model) fresh.(Decision.Model)))%bool
   then (pinDecision stay, r, true, stay.(Pin.Model)) else (fresh, r, false, stay.(Pin.Model))).1.2 = true <->
  stay.(Pin.Model) <> fresh.(Decision.Model) /\
  (base.(Verdict.outcome) = OutcomeStay \/
   (g.(hmmSameTierPin) = true /\ base.(Verdict.Reason) = ReasonEVPositive /\
    TierFor stay.(Pin.Model) <> TierUnknown /\ TierFor stay.(Pin.Model) = TierFor fresh.(Decision.Model))).
Proof.
  intros Ho Hb. cbn zeta. pose proof (same_tier_stays g stay.(Pin.Model) fresh b) as T.
  assert (T' : (same_tier_rule g stay.(Pin.Model) fresh b).(Verdict.outcome) = OutcomeStay <->
    base.(Verdict.outcome) = OutcomeStay \/
    (g.(hmmSameTierPin) = true /\ base.(Verdict.Reason) = ReasonEVPositive /\
     TierFor stay.(Pin.Model) <> TierUnknown /\ TierFor stay.(Pin.Model) = TierFor fresh.(Decision.Model))).
  { rewrite T, Ho. destruct base.(Verdict.outcome) eqn:E; [tauto|]. rewrite (Hb eq_refl). tauto. }
  rewrite <- T'. clear T T'. destruct (String.eqb_spec stay.(Pin.Model) fresh.(Decision.Model)) as [E|N].
  - rewrite andb_false_r. split; [discriminate|intros [N _]; congruence].
  - rewrite andb_true_r. case_bool_decide as B; split; [auto|reflexivity|discriminate|intros [_ F]; congruence].
Qed.

(** With a stay candidate of the same phase, the session stays on it exactly when the fresh
    model differs, it is not a dearer one the policy is confident in, and the planner says stay or
    the same-tier rule holds back a switch made on economics alone. *)
Lemma hmm_gate_iff g now req active hist fresh est broken stay :
  hmmStayPin g now req active hist = Some stay ->
  hmmToolExecutionPhaseChanged stay.(Pin.Reason) fresh.(Decision.Reason) = false ->
  let base := Decide (planner_inputs g now req stay fresh est broken (pinCacheCold now stay broken))
                (without_tier_upgrade g.(gate_planner)) in
  let dearer := hmmFreshIsMoreExpensive stay.(Pin.Model) fresh.(Decision.Model) req.(Request.SubsidizedModelCostFactor) in
  (hmmCostGatedDecision g now req active hist fresh est broken).1.2 = true <->
  stay.(Pin.Model) <> fresh.(Decision.Model) /\
  ~ (dearer = true /\ exists c, hmmDecisionConfidence fresh = Some c /\ f_ge c g.(hmmUpgradeConfidenceThreshold) = true) /\
  (base.(Verdict.outcome) = OutcomeStay \/
   (g.(hmmSameTierPin) = true /\ base.(Verdict.Reason) = ReasonEVPositive /\
    TierFor stay.(Pin.Model) <> TierUnknown /\ TierFor stay.(Pin.Model) = TierFor fresh.(Decision.Model))).
Proof.
  intros Es Ep. cbn zeta. unfold hmmCostGatedDecision. rewrite Es, Ep.
  generalize (Decide (planner_inputs g now req stay fresh est broken (pinCacheCold now stay broken))
    (without_tier_upgrade g.(gate_planner))) as base. intros base.
  unfold upgrade_rule. destruct (hmmFreshIsMoreExpensive _ _ _).
  2: { rewrite (gate_last g stay fresh fresh base base); [|reflexivity|auto].
    split; [intros [A B]|intros (A & _ & B); exact (conj A B)].
    split; [exact A|]. split; [intros [F _]; discriminate F|exact B]. }
  destruct (match hmmDecisionConfidence fresh with Some _ => _ | None => _ end) eqn:Ec.
  - replace (same_tier_rule g _ fresh (with_verdict OutcomeSwitch _ base))
      with (with_verdict OutcomeSwitch hmmReasonConfidentUpgrade base)
      by (unfold same_tier_rule; cbn; rewrite !andb_false_r; reflexivity).
    cbn. split; [discriminate|]. intros (_ & N & _). exfalso. apply N.
    destruct (hmmDecisionConfidence fresh); [eauto|discriminate].
  - rewrite (gate_last g stay fresh fresh _ base).
    + split; [intros [A B]|intros (A & _ & B); exact (conj A B)]. split; [exact A|]. split; [|exact B].
      intros (_ & c & F1 & F2). rewrite F1 in Ec. congruence.
    + case_bool_decide as B; [reflexivity|]. destruct base.(Verdict.outcome); [|congruence]. split; reflexivity.
    + intros E. rewrite bool_decide_eq_true_2 by exact E. reflexivity.
Qed.
End Facts.

(** The band swap serves the pin itself or a model the turn could be routed to. *)
Lemma bandSwapServed_safe `{GoUnicode} g c embedOnly mainLoop automatic pin fresh hasImages enabled excluded :
  let d := bandSwapServed g c embedOnly mainLoop automatic pin fresh hasImages enabled excluded in
  d.(Decision.Model) = pin.(Pin.Model) \/
  (in_opt_set d.(Decision.Model) g.(gate_cfg).(availableModels) = true /\
   (hasImages = true -> AcceptsImages d.(Decision.Model) = true) /\
   in_opt_set d.(Decision.Model) excluded = false /\ in_opt_set d.(Decision.Model) automatic = false /\
   in_set d.(Decision.Provider) g.(gate_providers) = true /\
   (forall s, enabled = Some s -> in_set d.(Decision.Provider) s = true)).
Proof.
  unfold bandSwapServed. destruct c as [c|]; [|left; reflexivity].
  destruct (String.eqb pin.(Pin.PairedModel) "" || negb mainLoop)%bool; [left; reflexivity|].
  destruct (negb embedOnly); [left; reflexivity|].
  destruct fresh.(Decision.Metadata) as [md|]; [|left; reflexivity].
  destruct (negb (Nat.eqb _ _)); [left; reflexivity|].
  destruct (PredictBand c _) as [[a band]|]; [|left; reflexivity].
  destruct (orderBandPair pin) as [large small].
  set (served := match band with Large => large | Small => small end).
  destruct (String.eqb_spec served.(Decision.Model) pin.(Pin.Model)) as [E|_]; [left; exact E|].
  destruct (in_opt_set _ g.(gate_cfg).(availableModels)) eqn:E1; [cbn [negb]|left; reflexivity].
  destruct (hasImages && negb (AcceptsImages served.(Decision.Model)))%bool eqn:E2; [left; reflexivity|].
  destruct (in_opt_set _ excluded) eqn:E3; [left; reflexivity|].
  destruct (in_opt_set _ automatic) eqn:E4; [left; reflexivity|].
  destruct (in_set _ g.(gate_providers)) eqn:E5; [cbn [negb]|left; reflexivity].
  assert (I : hasImages = true -> AcceptsImages served.(Decision.Model) = true).
  { intros ->. apply negb_false_iff in E2. exact E2. }
  destruct enabled as [s|]; [destruct (in_set _ s) eqn:E6; [|left; reflexivity]|]; right;
    repeat split; auto; try discriminate. intros ? [= <-]. exact E6.
Qed.

(** ** Witnesses *)

Definition ex_gate : Gate :=
  {| gate_cfg := ex_cfg; gate_planner := {| ThresholdUSD := f_zero; ExpectedRemainingTurns := 3;
       TierUpgradeEnabled := true; ColdPinFollowFresh := false; CorrectedEconomics := false |};
     gate_providers := {[ "aiand" ]}; hmmUpgradeConfidenceThreshold := f64_lit 17 20; hmmSameTierPin := false |}.
(** A session that has been served a cheap model by the HMM policy. *)
Definition ex_stay : Pin.t :=
  Pin.set_Model "qwen/qwen3.8-27b" (Pin.set_Provider "aiand" (Pin.set_Reason "hmm_policy:plan"
    (Pin.set_LastTurnEndedAt Hour (Pin.set_PinnedUntil (2 * Hour) Pin.zero)))).
(** A dearer pick the policy is unsure of. *)
Definition ex_dear (score : f32) : Decision.t :=
  Decision.set_Model "moonshotai/kimi-k3" (Decision.set_Provider "aiand" (Decision.set_Reason "hmm_policy:plan"
    (Decision.set_Metadata (Some (Metadata.set_ChosenScore score Metadata.zero)) Decision.zero))).

Lemma hmm_gate_iff_witness :
  (@hmmCostGatedDecision ascii_unicode ex_gate Hour Request.zero ex_stay Pin.zero (ex_dear (f32_lit 1 2)) 1000 false).1.2 = true /\
  (@hmmCostGatedDecision ascii_unicode ex_gate Hour Request.zero ex_stay Pin.zero (ex_dear (f32_lit 9 10)) 1000 false).1.2 = false.
Proof.
  assert (E : @hmmStayPin ascii_unicode ex_gate Hour Request.zero ex_stay Pin.zero = Some ex_stay) by (vm_compute; reflexivity).
  split.
  - apply (@hmm_gate_iff ascii_unicode ex_gate Hour Request.zero ex_stay Pin.zero (ex_dear (f32_lit 1 2)) 1000 false ex_stay E eq_refl).
    split; [discriminate|]. split; [|left; vm_compute; reflexivity].
    intros (_ & c & Ec & F). vm_compute in Ec. injection Ec as <-. vm_compute in F. discriminate.
  - vm_compute. reflexivity.
Defined.

(** The stay may keep a provider the request did not enable: only the re-resolved binding is
    drawn from the enabled set. *)
Lemma stay_ignores_enabled_providers :
  let req := Request.set_EnabledProviders (Some {[ "other" ]}) Request.zero in
  let d := @hmmCostGatedDecision ascii_unicode ex_gate Hour req ex_stay Pin.zero (ex_dear (f32_lit 1 2)) 1000 false in
  d.1.2 = true /\ d.1.1.1.(Decision.Provider) = "aiand".
Proof. vm_compute. split; reflexivity. Qed.

(** The score reported for an ambiguous arm depends on the order in which the map is walked. *)
Lemma fallback_score_order :
  let a := ("x/m", f32_lit 1 1) in let b := ("y/m", f32_lit 2 1) in let c := ("z/m", f32_lit 3 1) in
  let md := {| Metadata.ClusterIDs := []; Metadata.CandidateModels := []; Metadata.ChosenScore := f_zero;
    Metadata.ClusterRouterVersion := ""; Metadata.Strategy := ""; Metadata.RouteID := ""; Metadata.PolicyRouteKey := "";
    Metadata.PolicyGroup := ""; Metadata.PolicyArtifactID := ""; Metadata.PolicyArtifactSHA256 := ""; Metadata.RosterVersion := "";
    Metadata.SelectedArmID := ""; Metadata.SelectedRosterArmID := ""; Metadata.SelectedUpstreamID := ""; Metadata.BindingIndex := 0;
    Metadata.CandidateArmIDs := []; Metadata.SidecarSchemaVersion := ""; Metadata.DebugRef := "";
    Metadata.AuthoritativePerTurnSelection := false; Metadata.DisplayMarker := ""; Metadata.EffectiveKnobsHash := 0;
    Metadata.CandidateScores := ∅; Metadata.CandidateArmScores := ∅; Metadata.CandidateProviders := ∅;
    Metadata.CandidateArmProviders := {[ "z/m" := "p" ]}; Metadata.Propensity := f_zero; Metadata.PairedModel := "";
    Metadata.PairedProvider := ""; Metadata.PairedScore := f_zero; Metadata.ArmScores := list_to_map [a; b; c];
    Metadata.Embedding := [] |} in
  @fallback_score ascii_unicode md "" "m" "p" [a; b; c] None = None /\
  @fallback_score ascii_unicode md "" "m" "p" [c; a; b] None = Some (f64_of_Z 3).
Proof. vm_compute. split; reflexivity. Qed.
