(* ===== verification/TurnTypes.v ===== *)
(** The role of a turn: internal/router/turntype/detect.go and the predicates of turn types in
    internal/proxy/turnloop.go. *)

From stdpp Require Import base gmap sets list strings.
From Stdlib Require Import ZArith Lia Ascii.
From S2P Require Import Prelude Types.
Open Scope string_scope.
Open Scope Z_scope.

Inductive TurnType := MainLoop | ToolResult | SubAgentDispatch | Compaction | Probe | TitleGen | Classifier.
#[export] Instance TurnType_eq_dec : EqDecision TurnType.
Proof. solve_decision. Defined.
Definition turn_string (t : TurnType) : string :=
  match t with
  | MainLoop => "main_loop" | ToolResult => "tool_result" | SubAgentDispatch => "sub_agent_dispatch"
  | Compaction => "compaction" | Probe => "probe" | TitleGen => "title_gen" | Classifier => "classifier"
  end.

(** [translate.RoutingFeatures], the fields read here. *)
Record RoutingFeatures := {
  feat_Model : string;
  feat_Tokens : Z;
  MaxTokens : Z;
  feat_HasTools : bool;
  MessageCount : Z;
  LastKind : string
}.
Inductive Format := FormatOpenAI | FormatAnthropic.
#[export] Instance Format_eq_dec : EqDecision Format.
Proof. solve_decision. Defined.
(** What the classification reads of a request envelope. *)
Record Envelope := {
  SourceFormat : Format;
  RequestsTitleSchema : bool;
  SystemText : string;
  LastUserText : string;
  FirstUserMessageText : string;
  MetadataUserID : string
}.

Definition probeMaxTokensThreshold : Z := 4.
Definition compactionMarkerPhrase : string := "your task is to create a detailed summary".
Definition compactionNoToolsPhrase : string := "do not call any tools".
Definition compactionSniffLen : nat := 4096.
Definition classifierMaxTokensThreshold : Z := 256.
Definition classifierMaxMessageCount : Z := 3.

Section Detect.
Context `{GoUnicode}.

Definition isProbe (feats : RoutingFeatures) : bool :=
  ((0 <? feats.(MaxTokens)) && (feats.(MaxTokens) <=? probeMaxTokensThreshold))%bool.
Definition isClassifier (feats : RoutingFeatures) : bool :=
  (negb feats.(feat_HasTools)
   && negb ((feats.(MaxTokens) <=? 0) || (classifierMaxTokensThreshold <? feats.(MaxTokens)))
   && negb ((feats.(MessageCount) <=? 0) || (classifierMaxMessageCount <? feats.(MessageCount))))%bool.
Definition isTitleGen (env : Envelope) (hasTools : bool) : bool :=
  (negb hasTools && env.(RequestsTitleSchema))%bool.
Definition hasCompactionMarker (text : string) : bool := Contains (ToLower text) compactionMarkerPhrase.
Definition isCompaction (systemText lastUserText : string) : bool :=
  (hasCompactionMarker systemText
   || (let lower := ToLower (str_take compactionSniffLen lastUserText) in
       Contains lower compactionMarkerPhrase && Contains lower compactionNoToolsPhrase))%bool.
Definition isSubAgentDispatch (metadataUserID firstUserText subAgentHint : string) : bool :=
  (negb (String.eqb subAgentHint "") || HasPrefix metadataUserID "subagent:"
   || Contains (str_take 64 firstUserText) "<transcript>")%bool.

(** [DetectFromEnvelope]; no envelope is [None]. *)
Definition DetectFromEnvelope (env : option Envelope) (feats : RoutingFeatures) (subAgentHint : string) : TurnType :=
  match env with
  | None => MainLoop
  | Some env =>
      let anthropic := bool_decide (env.(SourceFormat) = FormatAnthropic) in
      if isProbe feats then Probe
      else if (anthropic && isTitleGen env feats.(feat_HasTools))%bool then TitleGen
      else if (anthropic && isCompaction env.(SystemText) env.(LastUserText))%bool then Compaction
      else if isSubAgentDispatch env.(MetadataUserID) env.(FirstUserMessageText) subAgentHint then SubAgentDispatch
      else if (anthropic && isClassifier feats)%bool then Classifier
      else if String.eqb feats.(LastKind) "tool_result" then ToolResult
      else MainLoop
  end.
End Detect.

(** [isHardPinnedTurn]: [explore] is the legacy sub-agent pin, [override] the configured one. *)
Definition isHardPinnedTurn (strat : option string) (explore override : bool) (tt : TurnType) : bool :=
  match tt with
  | Compaction | Probe | TitleGen | Classifier => true
  | SubAgentDispatch => if IsHMMStrategy (StrategyFromContext strat) then false else (explore || override)%bool
  | MainLoop | ToolResult => false
  end.
Definition authoritativePolicyTurn (tt : TurnType) : bool :=
  match tt with MainLoop | ToolResult => true | _ => false end.

(** ** Facts *)

(** A request of another wire format than Claude Code's is hard-pinned only as a liveness
    probe or as a sub-agent's; a turn with tools is never taken for a title or a classifier call;
    and the turns hard-pinned away from the policy are never those it is authoritative for. *)
Lemma DetectFromEnvelope_conservative `{GoUnicode} env feats hint strat explore override :
  let tt := DetectFromEnvelope (Some env) feats hint in
  (env.(SourceFormat) <> FormatAnthropic -> isHardPinnedTurn strat explore override tt = true ->
   isProbe feats = true \/ isSubAgentDispatch env.(MetadataUserID) env.(FirstUserMessageText) hint = true) /\
  (feats.(feat_HasTools) = true -> tt <> TitleGen /\ tt <> Classifier) /\
  (isHardPinnedTurn strat explore override tt = true -> authoritativePolicyTurn tt = false).
Proof.
  cbn zeta. split; [|split].
  - unfold DetectFromEnvelope. intros N. rewrite bool_decide_eq_false_2 by exact N. cbn [andb].
    destruct (isProbe feats); [auto|]. destruct (isSubAgentDispatch _ _ _); [auto|].
    destruct (String.eqb _ _); discriminate.
  - intros T. unfold DetectFromEnvelope, isTitleGen, isClassifier. rewrite T. cbn [negb andb]. rewrite !andb_false_r.
    destruct (isProbe feats); [split; discriminate|]. destruct (_ && _)%bool; [split; discriminate|].
    destruct (isSubAgentDispatch _ _ _); [split; discriminate|]. destruct (String.eqb _ _); split; discriminate.
  - destruct (DetectFromEnvelope (Some env) feats hint); cbn; congruence.
Qed.
