(* ===== verification/TurnResult.v ===== *)
(** The result of a turn: turnLoopResult and handoverOutcome of internal/proxy/turnloop.go, with the
    updates the turn loop makes to it. *)

From stdpp Require Import base gmap sets list strings.
From Stdlib Require Import ZArith Lia Ascii SpecFloat.
From S2P Require Import Prelude Floats Types Catalog Planner PinStore ForceNames Reasoning Exclusions PinPolicy HmmGate TurnTypes.
Open Scope string_scope.
Open Scope Z_scope.

(** [handover.Usage]. *)
Record HandoverUsage := {
  hu_InputTokens : Z;
  hu_OutputTokens : Z;
  hu_CacheCreation : Z;
  hu_CacheRead : Z;
  hu_Model : string;
  hu_Provider : string
}.
Definition no_usage : HandoverUsage :=
  {| hu_InputTokens := 0; hu_OutputTokens := 0; hu_CacheCreation := 0; hu_CacheRead := 0; hu_Model := ""; hu_Provider := "" |}.
Record handoverOutcome := {
  Invoked : bool;
  LatencyMS : Z;
  SummaryTokens : Z;
  FallbackToFullHistory : bool;
  SummaryUsage : HandoverUsage
}.
Definition no_handover : handoverOutcome :=
  {| Invoked := false; LatencyMS := 0; SummaryTokens := 0; FallbackToFullHistory := false; SummaryUsage := no_usage |}.

(** [turnLoopResult]. *)
Module TurnResult.
Record t := mk {
  Decision : Decision.t;
  SessionKey : string;
  InstallationID : string;
  Strategy : string;
  turnType : TurnType;
  StickyHit : bool;
  HardPinned : bool;
  AuthoritativePerTurn : bool;
  PinTier : string;
  PinAgeSec : Z;
  ForcedPinDropped : bool;
  ForcedPinDropReason : string;
  ForcedPinModel : string;
  PinProvider : string;
  PrefixBroken : bool;
  PriorTurnGapMS : option Z;
  PolicyFallback : bool;
  RequestedTier : Tier;
  PinRole : string;
  StickyRole : string;
  Fresh : Decision.t;
  PlannerDecision : Verdict.t;
  PinModel : string;
  PriorServedModel : string;
  SessionEverSwitched : bool;
  StripThinkingBlocks : bool;
  Handover : handoverOutcome;
  PrefixTrimmed : bool;
  EscalateEffort : bool;
  PinTurnCount : Z;
  PinFirstPinnedAt : Z;
  SessionDisabledProviders : list string;
  AuthorityShadow : authorityCacheShadow
}.
(** The zero value. *)
Definition zero : t := {|
  Decision := Decision.zero; SessionKey := zero_session_key; InstallationID := uuid_Nil;
  Strategy := ""; turnType := MainLoop; StickyHit := false; HardPinned := false;
  AuthoritativePerTurn := false; PinTier := ""; PinAgeSec := 0; ForcedPinDropped := false;
  ForcedPinDropReason := ""; ForcedPinModel := ""; PinProvider := ""; PrefixBroken := false;
  PriorTurnGapMS := None; PolicyFallback := false; RequestedTier := TierUnknown; PinRole := "";
  StickyRole := ""; Fresh := Decision.zero; PlannerDecision := Verdict.early OutcomeStay ""
  false false; PinModel := ""; PriorServedModel := ""; SessionEverSwitched := false;
  StripThinkingBlocks := false; Handover := no_handover; PrefixTrimmed := false; EscalateEffort
  := false; PinTurnCount := 0; PinFirstPinnedAt := 0; SessionDisabledProviders := [];
  AuthorityShadow := no_shadow |}.
Definition set_Decision (v : Decision.t) (r : t) : t := {|
  Decision := v; SessionKey := r.(SessionKey); InstallationID := r.(InstallationID); Strategy :=
  r.(Strategy); turnType := r.(turnType); StickyHit := r.(StickyHit); HardPinned :=
  r.(HardPinned); AuthoritativePerTurn := r.(AuthoritativePerTurn); PinTier := r.(PinTier);
  PinAgeSec := r.(PinAgeSec); ForcedPinDropped := r.(ForcedPinDropped); ForcedPinDropReason :=
  r.(ForcedPinDropReason); ForcedPinModel := r.(ForcedPinModel); PinProvider := r.(PinProvider);
  PrefixBroken := r.(PrefixBroken); PriorTurnGapMS := r.(PriorTurnGapMS); PolicyFallback :=
  r.(PolicyFallback); RequestedTier := r.(RequestedTier); PinRole := r.(PinRole); StickyRole :=
  r.(StickyRole); Fresh := r.(Fresh); PlannerDecision := r.(PlannerDecision); PinModel :=
  r.(PinModel); PriorServedModel := r.(PriorServedModel); SessionEverSwitched :=
  r.(SessionEverSwitched); StripThinkingBlocks := r.(StripThinkingBlocks); Handover :=
  r.(Handover); PrefixTrimmed := r.(PrefixTrimmed); EscalateEffort := r.(EscalateEffort);
  PinTurnCount := r.(PinTurnCount); PinFirstPinnedAt := r.(PinFirstPinnedAt);
  SessionDisabledProviders := r.(SessionDisabledProviders); AuthorityShadow :=
  r.(AuthorityShadow) |}.
Definition set_SessionKey (v : string) (r : t) : t := {|
  Decision := r.(Decision); SessionKey := v; InstallationID := r.(InstallationID); Strategy :=
  r.(Strategy); turnType := r.(turnType); StickyHit := r.(StickyHit); HardPinned :=
  r.(HardPinned); AuthoritativePerTurn := r.(AuthoritativePerTurn); PinTier := r.(PinTier);
  PinAgeSec := r.(PinAgeSec); ForcedPinDropped := r.(ForcedPinDropped); ForcedPinDropReason :=
  r.(ForcedPinDropReason); ForcedPinModel := r.(ForcedPinModel); PinProvider := r.(PinProvider);
  PrefixBroken := r.(PrefixBroken); PriorTurnGapMS := r.(PriorTurnGapMS); PolicyFallback :=
  r.(PolicyFallback); RequestedTier := r.(RequestedTier); PinRole := r.(PinRole); StickyRole :=
  r.(StickyRole); Fresh := r.(Fresh); PlannerDecision := r.(PlannerDecision); PinModel :=
  r.(PinModel); PriorServedModel := r.(PriorServedModel); SessionEverSwitched :=
  r.(SessionEverSwitched); StripThinkingBlocks := r.(StripThinkingBlocks); Handover :=
  r.(Handover); PrefixTrimmed := r.(PrefixTrimmed); EscalateEffort := r.(EscalateEffort);
  PinTurnCount := r.(PinTurnCount); PinFirstPinnedAt := r.(PinFirstPinnedAt);
  SessionDisabledProviders := r.(SessionDisabledProviders); AuthorityShadow :=
  r.(AuthorityShadow) |}.
Definition set_InstallationID (v : string) (r : t) : t := {|
  Decision := r.(Decision); SessionKey := r.(SessionKey); InstallationID := v; Strategy :=
  r.(Strategy); turnType := r.(turnType); StickyHit := r.(StickyHit); HardPinned :=
  r.(HardPinned); AuthoritativePerTurn := r.(AuthoritativePerTurn); PinTier := r.(PinTier);
  PinAgeSec := r.(PinAgeSec); ForcedPinDropped := r.(ForcedPinDropped); ForcedPinDropReason :=
  r.(ForcedPinDropReason); ForcedPinModel := r.(ForcedPinModel); PinProvider := r.(PinProvider);
  PrefixBroken := r.(PrefixBroken); PriorTurnGapMS := r.(PriorTurnGapMS); PolicyFallback :=
  r.(PolicyFallback); RequestedTier := r.(RequestedTier); PinRole := r.(PinRole); StickyRole :=
  r.(StickyRole); Fresh := r.(Fresh); PlannerDecision := r.(PlannerDecision); PinModel :=
  r.(PinModel); PriorServedModel := r.(PriorServedModel); SessionEverSwitched :=
  r.(SessionEverSwitched); StripThinkingBlocks := r.(StripThinkingBlocks); Handover :=
  r.(Handover); PrefixTrimmed := r.(PrefixTrimmed); EscalateEffort := r.(EscalateEffort);
  PinTurnCount := r.(PinTurnCount); PinFirstPinnedAt := r.(PinFirstPinnedAt);
  SessionDisabledProviders := r.(SessionDisabledProviders); AuthorityShadow :=
  r.(AuthorityShadow) |}.
Definition set_Strategy (v : string) (r : t) : t := {|
  Decision := r.(Decision); SessionKey := r.(SessionKey); InstallationID := r.(InstallationID);
  Strategy := v; turnType := r.(turnType); StickyHit := r.(StickyHit); HardPinned :=
  r.(HardPinned); AuthoritativePerTurn := r.(AuthoritativePerTurn); PinTier := r.(PinTier);
  PinAgeSec := r.(PinAgeSec); ForcedPinDropped := r.(ForcedPinDropped); ForcedPinDropReason :=
  r.(ForcedPinDropReason); ForcedPinModel := r.(ForcedPinModel); PinProvider := r.(PinProvider);
  PrefixBroken := r.(PrefixBroken); PriorTurnGapMS := r.(PriorTurnGapMS); PolicyFallback :=
  r.(PolicyFallback); RequestedTier := r.(RequestedTier); PinRole := r.(PinRole); StickyRole :=
  r.(StickyRole); Fresh := r.(Fresh); PlannerDecision := r.(PlannerDecision); PinModel :=
  r.(PinModel); PriorServedModel := r.(PriorServedModel); SessionEverSwitched :=
  r.(SessionEverSwitched); StripThinkingBlocks := r.(StripThinkingBlocks); Handover :=
  r.(Handover); PrefixTrimmed := r.(PrefixTrimmed); EscalateEffort := r.(EscalateEffort);
  PinTurnCount := r.(PinTurnCount); PinFirstPinnedAt := r.(PinFirstPinnedAt);
  SessionDisabledProviders := r.(SessionDisabledProviders); AuthorityShadow :=
  r.(AuthorityShadow) |}.
Definition set_turnType (v : TurnType) (r : t) : t := {|
  Decision := r.(Decision); SessionKey := r.(SessionKey); InstallationID := r.(InstallationID);
  Strategy := r.(Strategy); turnType := v; StickyHit := r.(StickyHit); HardPinned :=
  r.(HardPinned); AuthoritativePerTurn := r.(AuthoritativePerTurn); PinTier := r.(PinTier);
  PinAgeSec := r.(PinAgeSec); ForcedPinDropped := r.(ForcedPinDropped); ForcedPinDropReason :=
  r.(ForcedPinDropReason); ForcedPinModel := r.(ForcedPinModel); PinProvider := r.(PinProvider);
  PrefixBroken := r.(PrefixBroken); PriorTurnGapMS := r.(PriorTurnGapMS); PolicyFallback :=
  r.(PolicyFallback); RequestedTier := r.(RequestedTier); PinRole := r.(PinRole); StickyRole :=
  r.(StickyRole); Fresh := r.(Fresh); PlannerDecision := r.(PlannerDecision); PinModel :=
  r.(PinModel); PriorServedModel := r.(PriorServedModel); SessionEverSwitched :=
  r.(SessionEverSwitched); StripThinkingBlocks := r.(StripThinkingBlocks); Handover :=
  r.(Handover); PrefixTrimmed := r.(PrefixTrimmed); EscalateEffort := r.(EscalateEffort);
  PinTurnCount := r.(PinTurnCount); PinFirstPinnedAt := r.(PinFirstPinnedAt);
  SessionDisabledProviders := r.(SessionDisabledProviders); AuthorityShadow :=
  r.(AuthorityShadow) |}.
Definition set_StickyHit (v : bool) (r : t) : t := {|
  Decision := r.(Decision); SessionKey := r.(SessionKey); InstallationID := r.(InstallationID);
  Strategy := r.(Strategy); turnType := r.(turnType); StickyHit := v; HardPinned :=
  r.(HardPinned); AuthoritativePerTurn := r.(AuthoritativePerTurn); PinTier := r.(PinTier);
  PinAgeSec := r.(PinAgeSec); ForcedPinDropped := r.(ForcedPinDropped); ForcedPinDropReason :=
  r.(ForcedPinDropReason); ForcedPinModel := r.(ForcedPinModel); PinProvider := r.(PinProvider);
  PrefixBroken := r.(PrefixBroken); PriorTurnGapMS := r.(PriorTurnGapMS); PolicyFallback :=
  r.(PolicyFallback); RequestedTier := r.(RequestedTier); PinRole := r.(PinRole); StickyRole :=
  r.(StickyRole); Fresh := r.(Fresh); PlannerDecision := r.(PlannerDecision); PinModel :=
  r.(PinModel); PriorServedModel := r.(PriorServedModel); SessionEverSwitched :=
  r.(SessionEverSwitched); StripThinkingBlocks := r.(StripThinkingBlocks); Handover :=
  r.(Handover); PrefixTrimmed := r.(PrefixTrimmed); EscalateEffort := r.(EscalateEffort);
  PinTurnCount := r.(PinTurnCount); PinFirstPinnedAt := r.(PinFirstPinnedAt);
  SessionDisabledProviders := r.(SessionDisabledProviders); AuthorityShadow :=
  r.(AuthorityShadow) |}.
Definition set_HardPinned (v : bool) (r : t) : t := {|
  Decision := r.(Decision); SessionKey := r.(SessionKey); InstallationID := r.(InstallationID);
  Strategy := r.(Strategy); turnType := r.(turnType); StickyHit := r.(StickyHit); HardPinned :=
  v; AuthoritativePerTurn := r.(AuthoritativePerTurn); PinTier := r.(PinTier); PinAgeSec :=
  r.(PinAgeSec); ForcedPinDropped := r.(ForcedPinDropped); ForcedPinDropReason :=
  r.(ForcedPinDropReason); ForcedPinModel := r.(ForcedPinModel); PinProvider := r.(PinProvider);
  PrefixBroken := r.(PrefixBroken); PriorTurnGapMS := r.(PriorTurnGapMS); PolicyFallback :=
  r.(PolicyFallback); RequestedTier := r.(RequestedTier); PinRole := r.(PinRole); StickyRole :=
  r.(StickyRole); Fresh := r.(Fresh); PlannerDecision := r.(PlannerDecision); PinModel :=
  r.(PinModel); PriorServedModel := r.(PriorServedModel); SessionEverSwitched :=
  r.(SessionEverSwitched); StripThinkingBlocks := r.(StripThinkingBlocks); Handover :=
  r.(Handover); PrefixTrimmed := r.(PrefixTrimmed); EscalateEffort := r.(EscalateEffort);
  PinTurnCount := r.(PinTurnCount); PinFirstPinnedAt := r.(PinFirstPinnedAt);
  SessionDisabledProviders := r.(SessionDisabledProviders); AuthorityShadow :=
  r.(AuthorityShadow) |}.
Definition set_AuthoritativePerTurn (v : bool) (r : t) : t := {|
  Decision := r.(Decision); SessionKey := r.(SessionKey); InstallationID := r.(InstallationID);
  Strategy := r.(Strategy); turnType := r.(turnType); StickyHit := r.(StickyHit); HardPinned :=
  r.(HardPinned); AuthoritativePerTurn := v; PinTier := r.(PinTier); PinAgeSec := r.(PinAgeSec);
  ForcedPinDropped := r.(ForcedPinDropped); ForcedPinDropReason := r.(ForcedPinDropReason);
  ForcedPinModel := r.(ForcedPinModel); PinProvider := r.(PinProvider); PrefixBroken :=
  r.(PrefixBroken); PriorTurnGapMS := r.(PriorTurnGapMS); PolicyFallback := r.(PolicyFallback);
  RequestedTier := r.(RequestedTier); PinRole := r.(PinRole); StickyRole := r.(StickyRole);
  Fresh := r.(Fresh); PlannerDecision := r.(PlannerDecision); PinModel := r.(PinModel);
  PriorServedModel := r.(PriorServedModel); SessionEverSwitched := r.(SessionEverSwitched);
  StripThinkingBlocks := r.(StripThinkingBlocks); Handover := r.(Handover); PrefixTrimmed :=
  r.(PrefixTrimmed); EscalateEffort := r.(EscalateEffort); PinTurnCount := r.(PinTurnCount);
  PinFirstPinnedAt := r.(PinFirstPinnedAt); SessionDisabledProviders :=
  r.(SessionDisabledProviders); AuthorityShadow := r.(AuthorityShadow) |}.
Definition set_PinTier (v : string) (r : t) : t := {|
  Decision := r.(Decision); SessionKey := r.(SessionKey); InstallationID := r.(InstallationID);
  Strategy := r.(Strategy); turnType := r.(turnType); StickyHit := r.(StickyHit); HardPinned :=
  r.(HardPinned); AuthoritativePerTurn := r.(AuthoritativePerTurn); PinTier := v; PinAgeSec :=
  r.(PinAgeSec); ForcedPinDropped := r.(ForcedPinDropped); ForcedPinDropReason :=
  r.(ForcedPinDropReason); ForcedPinModel := r.(ForcedPinModel); PinProvider := r.(PinProvider);
  PrefixBroken := r.(PrefixBroken); PriorTurnGapMS := r.(PriorTurnGapMS); PolicyFallback :=
  r.(PolicyFallback); RequestedTier := r.(RequestedTier); PinRole := r.(PinRole); StickyRole :=
  r.(StickyRole); Fresh := r.(Fresh); PlannerDecision := r.(PlannerDecision); PinModel :=
  r.(PinModel); PriorServedModel := r.(PriorServedModel); SessionEverSwitched :=
  r.(SessionEverSwitched); StripThinkingBlocks := r.(StripThinkingBlocks); Handover :=
  r.(Handover); PrefixTrimmed := r.(PrefixTrimmed); EscalateEffort := r.(EscalateEffort);
  PinTurnCount := r.(PinTurnCount); PinFirstPinnedAt := r.(PinFirstPinnedAt);
  SessionDisabledProviders := r.(SessionDisabledProviders); AuthorityShadow :=
  r.(AuthorityShadow) |}.
Definition set_PinAgeSec (v : Z) (r : t) : t := {|
  Decision := r.(Decision); SessionKey := r.(SessionKey); InstallationID := r.(InstallationID);
  Strategy := r.(Strategy); turnType := r.(turnType); StickyHit := r.(StickyHit); HardPinned :=
  r.(HardPinned); AuthoritativePerTurn := r.(AuthoritativePerTurn); PinTier := r.(PinTier);
  PinAgeSec := v; ForcedPinDropped := r.(ForcedPinDropped); ForcedPinDropReason :=
  r.(ForcedPinDropReason); ForcedPinModel := r.(ForcedPinModel); PinProvider := r.(PinProvider);
  PrefixBroken := r.(PrefixBroken); PriorTurnGapMS := r.(PriorTurnGapMS); PolicyFallback :=
  r.(PolicyFallback); RequestedTier := r.(RequestedTier); PinRole := r.(PinRole); StickyRole :=
  r.(StickyRole); Fresh := r.(Fresh); PlannerDecision := r.(PlannerDecision); PinModel :=
  r.(PinModel); PriorServedModel := r.(PriorServedModel); SessionEverSwitched :=
  r.(SessionEverSwitched); StripThinkingBlocks := r.(StripThinkingBlocks); Handover :=
  r.(Handover); PrefixTrimmed := r.(PrefixTrimmed); EscalateEffort := r.(EscalateEffort);
  PinTurnCount := r.(PinTurnCount); PinFirstPinnedAt := r.(PinFirstPinnedAt);
  SessionDisabledProviders := r.(SessionDisabledProviders); AuthorityShadow :=
  r.(AuthorityShadow) |}.
Definition set_ForcedPinDropped (v : bool) (r : t) : t := {|
  Decision := r.(Decision); SessionKey := r.(SessionKey); InstallationID := r.(InstallationID);
  Strategy := r.(Strategy); turnType := r.(turnType); StickyHit := r.(StickyHit); HardPinned :=
  r.(HardPinned); AuthoritativePerTurn := r.(AuthoritativePerTurn); PinTier := r.(PinTier);
  PinAgeSec := r.(PinAgeSec); ForcedPinDropped := v; ForcedPinDropReason :=
  r.(ForcedPinDropReason); ForcedPinModel := r.(ForcedPinModel); PinProvider := r.(PinProvider);
  PrefixBroken := r.(PrefixBroken); PriorTurnGapMS := r.(PriorTurnGapMS); PolicyFallback :=
  r.(PolicyFallback); RequestedTier := r.(RequestedTier); PinRole := r.(PinRole); StickyRole :=
  r.(StickyRole); Fresh := r.(Fresh); PlannerDecision := r.(PlannerDecision); PinModel :=
  r.(PinModel); PriorServedModel := r.(PriorServedModel); SessionEverSwitched :=
  r.(SessionEverSwitched); StripThinkingBlocks := r.(StripThinkingBlocks); Handover :=
  r.(Handover); PrefixTrimmed := r.(PrefixTrimmed); EscalateEffort := r.(EscalateEffort);
  PinTurnCount := r.(PinTurnCount); PinFirstPinnedAt := r.(PinFirstPinnedAt);
  SessionDisabledProviders := r.(SessionDisabledProviders); AuthorityShadow :=
  r.(AuthorityShadow) |}.
Definition set_ForcedPinDropReason (v : string) (r : t) : t := {|
  Decision := r.(Decision); SessionKey := r.(SessionKey); InstallationID := r.(InstallationID);
  Strategy := r.(Strategy); turnType := r.(turnType); StickyHit := r.(StickyHit); HardPinned :=
  r.(HardPinned); AuthoritativePerTurn := r.(AuthoritativePerTurn); PinTier := r.(PinTier);
  PinAgeSec := r.(PinAgeSec); ForcedPinDropped := r.(ForcedPinDropped); ForcedPinDropReason :=
  v; ForcedPinModel := r.(ForcedPinModel); PinProvider := r.(PinProvider); PrefixBroken :=
  r.(PrefixBroken); PriorTurnGapMS := r.(PriorTurnGapMS); PolicyFallback := r.(PolicyFallback);
  RequestedTier := r.(RequestedTier); PinRole := r.(PinRole); StickyRole := r.(StickyRole);
  Fresh := r.(Fresh); PlannerDecision := r.(PlannerDecision); PinModel := r.(PinModel);
  PriorServedModel := r.(PriorServedModel); SessionEverSwitched := r.(SessionEverSwitched);
  StripThinkingBlocks := r.(StripThinkingBlocks); Handover := r.(Handover); PrefixTrimmed :=
  r.(PrefixTrimmed); EscalateEffort := r.(EscalateEffort); PinTurnCount := r.(PinTurnCount);
  PinFirstPinnedAt := r.(PinFirstPinnedAt); SessionDisabledProviders :=
  r.(SessionDisabledProviders); AuthorityShadow := r.(AuthorityShadow) |}.
Definition set_ForcedPinModel (v : string) (r : t) : t := {|
  Decision := r.(Decision); SessionKey := r.(SessionKey); InstallationID := r.(InstallationID);
  Strategy := r.(Strategy); turnType := r.(turnType); StickyHit := r.(StickyHit); HardPinned :=
  r.(HardPinned); AuthoritativePerTurn := r.(AuthoritativePerTurn); PinTier := r.(PinTier);
  PinAgeSec := r.(PinAgeSec); ForcedPinDropped := r.(ForcedPinDropped); ForcedPinDropReason :=
  r.(ForcedPinDropReason); ForcedPinModel := v; PinProvider := r.(PinProvider); PrefixBroken :=
  r.(PrefixBroken); PriorTurnGapMS := r.(PriorTurnGapMS); PolicyFallback := r.(PolicyFallback);
  RequestedTier := r.(RequestedTier); PinRole := r.(PinRole); StickyRole := r.(StickyRole);
  Fresh := r.(Fresh); PlannerDecision := r.(PlannerDecision); PinModel := r.(PinModel);
  PriorServedModel := r.(PriorServedModel); SessionEverSwitched := r.(SessionEverSwitched);
  StripThinkingBlocks := r.(StripThinkingBlocks); Handover := r.(Handover); PrefixTrimmed :=
  r.(PrefixTrimmed); EscalateEffort := r.(EscalateEffort); PinTurnCount := r.(PinTurnCount);
  PinFirstPinnedAt := r.(PinFirstPinnedAt); SessionDisabledProviders :=
  r.(SessionDisabledProviders); AuthorityShadow := r.(AuthorityShadow) |}.
Definition set_PinProvider (v : string) (r : t) : t := {|
  Decision := r.(Decision); SessionKey := r.(SessionKey); InstallationID := r.(InstallationID);
  Strategy := r.(Strategy); turnType := r.(turnType); StickyHit := r.(StickyHit); HardPinned :=
  r.(HardPinned); AuthoritativePerTurn := r.(AuthoritativePerTurn); PinTier := r.(PinTier);
  PinAgeSec := r.(PinAgeSec); ForcedPinDropped := r.(ForcedPinDropped); ForcedPinDropReason :=
  r.(ForcedPinDropReason); ForcedPinModel := r.(ForcedPinModel); PinProvider := v; PrefixBroken
  := r.(PrefixBroken); PriorTurnGapMS := r.(PriorTurnGapMS); PolicyFallback :=
  r.(PolicyFallback); RequestedTier := r.(RequestedTier); PinRole := r.(PinRole); StickyRole :=
  r.(StickyRole); Fresh := r.(Fresh); PlannerDecision := r.(PlannerDecision); PinModel :=
  r.(PinModel); PriorServedModel := r.(PriorServedModel); SessionEverSwitched :=
  r.(SessionEverSwitched); StripThinkingBlocks := r.(StripThinkingBlocks); Handover :=
  r.(Handover); PrefixTrimmed := r.(PrefixTrimmed); EscalateEffort := r.(EscalateEffort);
  PinTurnCount := r.(PinTurnCount); PinFirstPinnedAt := r.(PinFirstPinnedAt);
  SessionDisabledProviders := r.(SessionDisabledProviders); AuthorityShadow :=
  r.(AuthorityShadow) |}.
Definition set_PrefixBroken (v : bool) (r : t) : t := {|
  Decision := r.(Decision); SessionKey := r.(SessionKey); InstallationID := r.(InstallationID);
  Strategy := r.(Strategy); turnType := r.(turnType); StickyHit := r.(StickyHit); HardPinned :=
  r.(HardPinned); AuthoritativePerTurn := r.(AuthoritativePerTurn); PinTier := r.(PinTier);
  PinAgeSec := r.(PinAgeSec); ForcedPinDropped := r.(ForcedPinDropped); ForcedPinDropReason :=
  r.(ForcedPinDropReason); ForcedPinModel := r.(ForcedPinModel); PinProvider := r.(PinProvider);
  PrefixBroken := v; PriorTurnGapMS := r.(PriorTurnGapMS); PolicyFallback := r.(PolicyFallback);
  RequestedTier := r.(RequestedTier); PinRole := r.(PinRole); StickyRole := r.(StickyRole);
  Fresh := r.(Fresh); PlannerDecision := r.(PlannerDecision); PinModel := r.(PinModel);
  PriorServedModel := r.(PriorServedModel); SessionEverSwitched := r.(SessionEverSwitched);
  StripThinkingBlocks := r.(StripThinkingBlocks); Handover := r.(Handover); PrefixTrimmed :=
  r.(PrefixTrimmed); EscalateEffort := r.(EscalateEffort); PinTurnCount := r.(PinTurnCount);
  PinFirstPinnedAt := r.(PinFirstPinnedAt); SessionDisabledProviders :=
  r.(SessionDisabledProviders); AuthorityShadow := r.(AuthorityShadow) |}.
Definition set_PriorTurnGapMS (v : option Z) (r : t) : t := {|
  Decision := r.(Decision); SessionKey := r.(SessionKey); InstallationID := r.(InstallationID);
  Strategy := r.(Strategy); turnType := r.(turnType); StickyHit := r.(StickyHit); HardPinned :=
  r.(HardPinned); AuthoritativePerTurn := r.(AuthoritativePerTurn); PinTier := r.(PinTier);
  PinAgeSec := r.(PinAgeSec); ForcedPinDropped := r.(ForcedPinDropped); ForcedPinDropReason :=
  r.(ForcedPinDropReason); ForcedPinModel := r.(ForcedPinModel); PinProvider := r.(PinProvider);
  PrefixBroken := r.(PrefixBroken); PriorTurnGapMS := v; PolicyFallback := r.(PolicyFallback);
  RequestedTier := r.(RequestedTier); PinRole := r.(PinRole); StickyRole := r.(StickyRole);
  Fresh := r.(Fresh); PlannerDecision := r.(PlannerDecision); PinModel := r.(PinModel);
  PriorServedModel := r.(PriorServedModel); SessionEverSwitched := r.(SessionEverSwitched);
  StripThinkingBlocks := r.(StripThinkingBlocks); Handover := r.(Handover); PrefixTrimmed :=
  r.(PrefixTrimmed); EscalateEffort := r.(EscalateEffort); PinTurnCount := r.(PinTurnCount);
  PinFirstPinnedAt := r.(PinFirstPinnedAt); SessionDisabledProviders :=
  r.(SessionDisabledProviders); AuthorityShadow := r.(AuthorityShadow) |}.
Definition set_PolicyFallback (v : bool) (r : t) : t := {|
  Decision := r.(Decision); SessionKey := r.(SessionKey); InstallationID := r.(InstallationID);
  Strategy := r.(Strategy); turnType := r.(turnType); StickyHit := r.(StickyHit); HardPinned :=
  r.(HardPinned); AuthoritativePerTurn := r.(AuthoritativePerTurn); PinTier := r.(PinTier);
  PinAgeSec := r.(PinAgeSec); ForcedPinDropped := r.(ForcedPinDropped); ForcedPinDropReason :=
  r.(ForcedPinDropReason); ForcedPinModel := r.(ForcedPinModel); PinProvider := r.(PinProvider);
  PrefixBroken := r.(PrefixBroken); PriorTurnGapMS := r.(PriorTurnGapMS); PolicyFallback := v;
  RequestedTier := r.(RequestedTier); PinRole := r.(PinRole); StickyRole := r.(StickyRole);
  Fresh := r.(Fresh); PlannerDecision := r.(PlannerDecision); PinModel := r.(PinModel);
  PriorServedModel := r.(PriorServedModel); SessionEverSwitched := r.(SessionEverSwitched);
  StripThinkingBlocks := r.(StripThinkingBlocks); Handover := r.(Handover); PrefixTrimmed :=
  r.(PrefixTrimmed); EscalateEffort := r.(EscalateEffort); PinTurnCount := r.(PinTurnCount);
  PinFirstPinnedAt := r.(PinFirstPinnedAt); SessionDisabledProviders :=
  r.(SessionDisabledProviders); AuthorityShadow := r.(AuthorityShadow) |}.
Definition set_RequestedTier (v : Tier) (r : t) : t := {|
  Decision := r.(Decision); SessionKey := r.(SessionKey); InstallationID := r.(InstallationID);
  Strategy := r.(Strategy); turnType := r.(turnType); StickyHit := r.(StickyHit); HardPinned :=
  r.(HardPinned); AuthoritativePerTurn := r.(AuthoritativePerTurn); PinTier := r.(PinTier);
  PinAgeSec := r.(PinAgeSec); ForcedPinDropped := r.(ForcedPinDropped); ForcedPinDropReason :=
  r.(ForcedPinDropReason); ForcedPinModel := r.(ForcedPinModel); PinProvider := r.(PinProvider);
  PrefixBroken := r.(PrefixBroken); PriorTurnGapMS := r.(PriorTurnGapMS); PolicyFallback :=
  r.(PolicyFallback); RequestedTier := v; PinRole := r.(PinRole); StickyRole := r.(StickyRole);
  Fresh := r.(Fresh); PlannerDecision := r.(PlannerDecision); PinModel := r.(PinModel);
  PriorServedModel := r.(PriorServedModel); SessionEverSwitched := r.(SessionEverSwitched);
  StripThinkingBlocks := r.(StripThinkingBlocks); Handover := r.(Handover); PrefixTrimmed :=
  r.(PrefixTrimmed); EscalateEffort := r.(EscalateEffort); PinTurnCount := r.(PinTurnCount);
  PinFirstPinnedAt := r.(PinFirstPinnedAt); SessionDisabledProviders :=
  r.(SessionDisabledProviders); AuthorityShadow := r.(AuthorityShadow) |}.
Definition set_PinRole (v : string) (r : t) : t := {|
  Decision := r.(Decision); SessionKey := r.(SessionKey); InstallationID := r.(InstallationID);
  Strategy := r.(Strategy); turnType := r.(turnType); StickyHit := r.(StickyHit); HardPinned :=
  r.(HardPinned); AuthoritativePerTurn := r.(AuthoritativePerTurn); PinTier := r.(PinTier);
  PinAgeSec := r.(PinAgeSec); ForcedPinDropped := r.(ForcedPinDropped); ForcedPinDropReason :=
  r.(ForcedPinDropReason); ForcedPinModel := r.(ForcedPinModel); PinProvider := r.(PinProvider);
  PrefixBroken := r.(PrefixBroken); PriorTurnGapMS := r.(PriorTurnGapMS); PolicyFallback :=
  r.(PolicyFallback); RequestedTier := r.(RequestedTier); PinRole := v; StickyRole :=
  r.(StickyRole); Fresh := r.(Fresh); PlannerDecision := r.(PlannerDecision); PinModel :=
  r.(PinModel); PriorServedModel := r.(PriorServedModel); SessionEverSwitched :=
  r.(SessionEverSwitched); StripThinkingBlocks := r.(StripThinkingBlocks); Handover :=
  r.(Handover); PrefixTrimmed := r.(PrefixTrimmed); EscalateEffort := r.(EscalateEffort);
  PinTurnCount := r.(PinTurnCount); PinFirstPinnedAt := r.(PinFirstPinnedAt);
  SessionDisabledProviders := r.(SessionDisabledProviders); AuthorityShadow :=
  r.(AuthorityShadow) |}.
Definition set_StickyRole (v : string) (r : t) : t := {|
  Decision := r.(Decision); SessionKey := r.(SessionKey); InstallationID := r.(InstallationID);
  Strategy := r.(Strategy); turnType := r.(turnType); StickyHit := r.(StickyHit); HardPinned :=
  r.(HardPinned); AuthoritativePerTurn := r.(AuthoritativePerTurn); PinTier := r.(PinTier);
  PinAgeSec := r.(PinAgeSec); ForcedPinDropped := r.(ForcedPinDropped); ForcedPinDropReason :=
  r.(ForcedPinDropReason); ForcedPinModel := r.(ForcedPinModel); PinProvider := r.(PinProvider);
  PrefixBroken := r.(PrefixBroken); PriorTurnGapMS := r.(PriorTurnGapMS); PolicyFallback :=
  r.(PolicyFallback); RequestedTier := r.(RequestedTier); PinRole := r.(PinRole); StickyRole :=
  v; Fresh := r.(Fresh); PlannerDecision := r.(PlannerDecision); PinModel := r.(PinModel);
  PriorServedModel := r.(PriorServedModel); SessionEverSwitched := r.(SessionEverSwitched);
  StripThinkingBlocks := r.(StripThinkingBlocks); Handover := r.(Handover); PrefixTrimmed :=
  r.(PrefixTrimmed); EscalateEffort := r.(EscalateEffort); PinTurnCount := r.(PinTurnCount);
  PinFirstPinnedAt := r.(PinFirstPinnedAt); SessionDisabledProviders :=
  r.(SessionDisabledProviders); AuthorityShadow := r.(AuthorityShadow) |}.
Definition set_Fresh (v : Decision.t) (r : t) : t := {|
  Decision := r.(Decision); SessionKey := r.(SessionKey); InstallationID := r.(InstallationID);
  Strategy := r.(Strategy); turnType := r.(turnType); StickyHit := r.(StickyHit); HardPinned :=
  r.(HardPinned); AuthoritativePerTurn := r.(AuthoritativePerTurn); PinTier := r.(PinTier);
  PinAgeSec := r.(PinAgeSec); ForcedPinDropped := r.(ForcedPinDropped); ForcedPinDropReason :=
  r.(ForcedPinDropReason); ForcedPinModel := r.(ForcedPinModel); PinProvider := r.(PinProvider);
  PrefixBroken := r.(PrefixBroken); PriorTurnGapMS := r.(PriorTurnGapMS); PolicyFallback :=
  r.(PolicyFallback); RequestedTier := r.(RequestedTier); PinRole := r.(PinRole); StickyRole :=
  r.(StickyRole); Fresh := v; PlannerDecision := r.(PlannerDecision); PinModel := r.(PinModel);
  PriorServedModel := r.(PriorServedModel); SessionEverSwitched := r.(SessionEverSwitched);
  StripThinkingBlocks := r.(StripThinkingBlocks); Handover := r.(Handover); PrefixTrimmed :=
  r.(PrefixTrimmed); EscalateEffort := r.(EscalateEffort); PinTurnCount := r.(PinTurnCount);
  PinFirstPinnedAt := r.(PinFirstPinnedAt); SessionDisabledProviders :=
  r.(SessionDisabledProviders); AuthorityShadow := r.(AuthorityShadow) |}.
Definition set_PlannerDecision (v : Verdict.t) (r : t) : t := {|
  Decision := r.(Decision); SessionKey := r.(SessionKey); InstallationID := r.(InstallationID);
  Strategy := r.(Strategy); turnType := r.(turnType); StickyHit := r.(StickyHit); HardPinned :=
  r.(HardPinned); AuthoritativePerTurn := r.(AuthoritativePerTurn); PinTier := r.(PinTier);
  PinAgeSec := r.(PinAgeSec); ForcedPinDropped := r.(ForcedPinDropped); ForcedPinDropReason :=
  r.(ForcedPinDropReason); ForcedPinModel := r.(ForcedPinModel); PinProvider := r.(PinProvider);
  PrefixBroken := r.(PrefixBroken); PriorTurnGapMS := r.(PriorTurnGapMS); PolicyFallback :=
  r.(PolicyFallback); RequestedTier := r.(RequestedTier); PinRole := r.(PinRole); StickyRole :=
  r.(StickyRole); Fresh := r.(Fresh); PlannerDecision := v; PinModel := r.(PinModel);
  PriorServedModel := r.(PriorServedModel); SessionEverSwitched := r.(SessionEverSwitched);
  StripThinkingBlocks := r.(StripThinkingBlocks); Handover := r.(Handover); PrefixTrimmed :=
  r.(PrefixTrimmed); EscalateEffort := r.(EscalateEffort); PinTurnCount := r.(PinTurnCount);
  PinFirstPinnedAt := r.(PinFirstPinnedAt); SessionDisabledProviders :=
  r.(SessionDisabledProviders); AuthorityShadow := r.(AuthorityShadow) |}.
Definition set_PinModel (v : string) (r : t) : t := {|
  Decision := r.(Decision); SessionKey := r.(SessionKey); InstallationID := r.(InstallationID);
  Strategy := r.(Strategy); turnType := r.(turnType); StickyHit := r.(StickyHit); HardPinned :=
  r.(HardPinned); AuthoritativePerTurn := r.(AuthoritativePerTurn); PinTier := r.(PinTier);
  PinAgeSec := r.(PinAgeSec); ForcedPinDropped := r.(ForcedPinDropped); ForcedPinDropReason :=
  r.(ForcedPinDropReason); ForcedPinModel := r.(ForcedPinModel); PinProvider := r.(PinProvider);
  PrefixBroken := r.(PrefixBroken); PriorTurnGapMS := r.(PriorTurnGapMS); PolicyFallback :=
  r.(PolicyFallback); RequestedTier := r.(RequestedTier); PinRole := r.(PinRole); StickyRole :=
  r.(StickyRole); Fresh := r.(Fresh); PlannerDecision := r.(PlannerDecision); PinModel := v;
  PriorServedModel := r.(PriorServedModel); SessionEverSwitched := r.(SessionEverSwitched);
  StripThinkingBlocks := r.(StripThinkingBlocks); Handover := r.(Handover); PrefixTrimmed :=
  r.(PrefixTrimmed); EscalateEffort := r.(EscalateEffort); PinTurnCount := r.(PinTurnCount);
  PinFirstPinnedAt := r.(PinFirstPinnedAt); SessionDisabledProviders :=
  r.(SessionDisabledProviders); AuthorityShadow := r.(AuthorityShadow) |}.
Definition set_PriorServedModel (v : string) (r : t) : t := {|
  Decision := r.(Decision); SessionKey := r.(SessionKey); InstallationID := r.(InstallationID);
  Strategy := r.(Strategy); turnType := r.(turnType); StickyHit := r.(StickyHit); HardPinned :=
  r.(HardPinned); AuthoritativePerTurn := r.(AuthoritativePerTurn); PinTier := r.(PinTier);
  PinAgeSec := r.(PinAgeSec); ForcedPinDropped := r.(ForcedPinDropped); ForcedPinDropReason :=
  r.(ForcedPinDropReason); ForcedPinModel := r.(ForcedPinModel); PinProvider := r.(PinProvider);
  PrefixBroken := r.(PrefixBroken); PriorTurnGapMS := r.(PriorTurnGapMS); PolicyFallback :=
  r.(PolicyFallback); RequestedTier := r.(RequestedTier); PinRole := r.(PinRole); StickyRole :=
  r.(StickyRole); Fresh := r.(Fresh); PlannerDecision := r.(PlannerDecision); PinModel :=
  r.(PinModel); PriorServedModel := v; SessionEverSwitched := r.(SessionEverSwitched);
  StripThinkingBlocks := r.(StripThinkingBlocks); Handover := r.(Handover); PrefixTrimmed :=
  r.(PrefixTrimmed); EscalateEffort := r.(EscalateEffort); PinTurnCount := r.(PinTurnCount);
  PinFirstPinnedAt := r.(PinFirstPinnedAt); SessionDisabledProviders :=
  r.(SessionDisabledProviders); AuthorityShadow := r.(AuthorityShadow) |}.
Definition set_SessionEverSwitched (v : bool) (r : t) : t := {|
  Decision := r.(Decision); SessionKey := r.(SessionKey); InstallationID := r.(InstallationID);
  Strategy := r.(Strategy); turnType := r.(turnType); StickyHit := r.(StickyHit); HardPinned :=
  r.(HardPinned); AuthoritativePerTurn := r.(AuthoritativePerTurn); PinTier := r.(PinTier);
  PinAgeSec := r.(PinAgeSec); ForcedPinDropped := r.(ForcedPinDropped); ForcedPinDropReason :=
  r.(ForcedPinDropReason); ForcedPinModel := r.(ForcedPinModel); PinProvider := r.(PinProvider);
  PrefixBroken := r.(PrefixBroken); PriorTurnGapMS := r.(PriorTurnGapMS); PolicyFallback :=
  r.(PolicyFallback); RequestedTier := r.(RequestedTier); PinRole := r.(PinRole); StickyRole :=
  r.(StickyRole); Fresh := r.(Fresh); PlannerDecision := r.(PlannerDecision); PinModel :=
  r.(PinModel); PriorServedModel := r.(PriorServedModel); SessionEverSwitched := v;
  StripThinkingBlocks := r.(StripThinkingBlocks); Handover := r.(Handover); PrefixTrimmed :=
  r.(PrefixTrimmed); EscalateEffort := r.(EscalateEffort); PinTurnCount := r.(PinTurnCount);
  PinFirstPinnedAt := r.(PinFirstPinnedAt); SessionDisabledProviders :=
  r.(SessionDisabledProviders); AuthorityShadow := r.(AuthorityShadow) |}.
Definition set_StripThinkingBlocks (v : bool) (r : t) : t := {|
  Decision := r.(Decision); SessionKey := r.(SessionKey); InstallationID := r.(InstallationID);
  Strategy := r.(Strategy); turnType := r.(turnType); StickyHit := r.(StickyHit); HardPinned :=
  r.(HardPinned); AuthoritativePerTurn := r.(AuthoritativePerTurn); PinTier := r.(PinTier);
  PinAgeSec := r.(PinAgeSec); ForcedPinDropped := r.(ForcedPinDropped); ForcedPinDropReason :=
  r.(ForcedPinDropReason); ForcedPinModel := r.(ForcedPinModel); PinProvider := r.(PinProvider);
  PrefixBroken := r.(PrefixBroken); PriorTurnGapMS := r.(PriorTurnGapMS); PolicyFallback :=
  r.(PolicyFallback); RequestedTier := r.(RequestedTier); PinRole := r.(PinRole); StickyRole :=
  r.(StickyRole); Fresh := r.(Fresh); PlannerDecision := r.(PlannerDecision); PinModel :=
  r.(PinModel); PriorServedModel := r.(PriorServedModel); SessionEverSwitched :=
  r.(SessionEverSwitched); StripThinkingBlocks := v; Handover := r.(Handover); PrefixTrimmed :=
  r.(PrefixTrimmed); EscalateEffort := r.(EscalateEffort); PinTurnCount := r.(PinTurnCount);
  PinFirstPinnedAt := r.(PinFirstPinnedAt); SessionDisabledProviders :=
  r.(SessionDisabledProviders); AuthorityShadow := r.(AuthorityShadow) |}.
Definition set_Handover (v : handoverOutcome) (r : t) : t := {|
  Decision := r.(Decision); SessionKey := r.(SessionKey); InstallationID := r.(InstallationID);
  Strategy := r.(Strategy); turnType := r.(turnType); StickyHit := r.(StickyHit); HardPinned :=
  r.(HardPinned); AuthoritativePerTurn := r.(AuthoritativePerTurn); PinTier := r.(PinTier);
  PinAgeSec := r.(PinAgeSec); ForcedPinDropped := r.(ForcedPinDropped); ForcedPinDropReason :=
  r.(ForcedPinDropReason); ForcedPinModel := r.(ForcedPinModel); PinProvider := r.(PinProvider);
  PrefixBroken := r.(PrefixBroken); PriorTurnGapMS := r.(PriorTurnGapMS); PolicyFallback :=
  r.(PolicyFallback); RequestedTier := r.(RequestedTier); PinRole := r.(PinRole); StickyRole :=
  r.(StickyRole); Fresh := r.(Fresh); PlannerDecision := r.(PlannerDecision); PinModel :=
  r.(PinModel); PriorServedModel := r.(PriorServedModel); SessionEverSwitched :=
  r.(SessionEverSwitched); StripThinkingBlocks := r.(StripThinkingBlocks); Handover := v;
  PrefixTrimmed := r.(PrefixTrimmed); EscalateEffort := r.(EscalateEffort); PinTurnCount :=
  r.(PinTurnCount); PinFirstPinnedAt := r.(PinFirstPinnedAt); SessionDisabledProviders :=
  r.(SessionDisabledProviders); AuthorityShadow := r.(AuthorityShadow) |}.
Definition set_PrefixTrimmed (v : bool) (r : t) : t := {|
  Decision := r.(Decision); SessionKey := r.(SessionKey); InstallationID := r.(InstallationID);
  Strategy := r.(Strategy); turnType := r.(turnType); StickyHit := r.(StickyHit); HardPinned :=
  r.(HardPinned); AuthoritativePerTurn := r.(AuthoritativePerTurn); PinTier := r.(PinTier);
  PinAgeSec := r.(PinAgeSec); ForcedPinDropped := r.(ForcedPinDropped); ForcedPinDropReason :=
  r.(ForcedPinDropReason); ForcedPinModel := r.(ForcedPinModel); PinProvider := r.(PinProvider);
  PrefixBroken := r.(PrefixBroken); PriorTurnGapMS := r.(PriorTurnGapMS); PolicyFallback :=
  r.(PolicyFallback); RequestedTier := r.(RequestedTier); PinRole := r.(PinRole); StickyRole :=
  r.(StickyRole); Fresh := r.(Fresh); PlannerDecision := r.(PlannerDecision); PinModel :=
  r.(PinModel); PriorServedModel := r.(PriorServedModel); SessionEverSwitched :=
  r.(SessionEverSwitched); StripThinkingBlocks := r.(StripThinkingBlocks); Handover :=
  r.(Handover); PrefixTrimmed := v; EscalateEffort := r.(EscalateEffort); PinTurnCount :=
  r.(PinTurnCount); PinFirstPinnedAt := r.(PinFirstPinnedAt); SessionDisabledProviders :=
  r.(SessionDisabledProviders); AuthorityShadow := r.(AuthorityShadow) |}.
Definition set_EscalateEffort (v : bool) (r : t) : t := {|
  Decision := r.(Decision); SessionKey := r.(SessionKey); InstallationID := r.(InstallationID);
  Strategy := r.(Strategy); turnType := r.(turnType); StickyHit := r.(StickyHit); HardPinned :=
  r.(HardPinned); AuthoritativePerTurn := r.(AuthoritativePerTurn); PinTier := r.(PinTier);
  PinAgeSec := r.(PinAgeSec); ForcedPinDropped := r.(ForcedPinDropped); ForcedPinDropReason :=
  r.(ForcedPinDropReason); ForcedPinModel := r.(ForcedPinModel); PinProvider := r.(PinProvider);
  PrefixBroken := r.(PrefixBroken); PriorTurnGapMS := r.(PriorTurnGapMS); PolicyFallback :=
  r.(PolicyFallback); RequestedTier := r.(RequestedTier); PinRole := r.(PinRole); StickyRole :=
  r.(StickyRole); Fresh := r.(Fresh); PlannerDecision := r.(PlannerDecision); PinModel :=
  r.(PinModel); PriorServedModel := r.(PriorServedModel); SessionEverSwitched :=
  r.(SessionEverSwitched); StripThinkingBlocks := r.(StripThinkingBlocks); Handover :=
  r.(Handover); PrefixTrimmed := r.(PrefixTrimmed); EscalateEffort := v; PinTurnCount :=
  r.(PinTurnCount); PinFirstPinnedAt := r.(PinFirstPinnedAt); SessionDisabledProviders :=
  r.(SessionDisabledProviders); AuthorityShadow := r.(AuthorityShadow) |}.
Definition set_PinTurnCount (v : Z) (r : t) : t := {|
  Decision := r.(Decision); SessionKey := r.(SessionKey); InstallationID := r.(InstallationID);
  Strategy := r.(Strategy); turnType := r.(turnType); StickyHit := r.(StickyHit); HardPinned :=
  r.(HardPinned); AuthoritativePerTurn := r.(AuthoritativePerTurn); PinTier := r.(PinTier);
  PinAgeSec := r.(PinAgeSec); ForcedPinDropped := r.(ForcedPinDropped); ForcedPinDropReason :=
  r.(ForcedPinDropReason); ForcedPinModel := r.(ForcedPinModel); PinProvider := r.(PinProvider);
  PrefixBroken := r.(PrefixBroken); PriorTurnGapMS := r.(PriorTurnGapMS); PolicyFallback :=
  r.(PolicyFallback); RequestedTier := r.(RequestedTier); PinRole := r.(PinRole); StickyRole :=
  r.(StickyRole); Fresh := r.(Fresh); PlannerDecision := r.(PlannerDecision); PinModel :=
  r.(PinModel); PriorServedModel := r.(PriorServedModel); SessionEverSwitched :=
  r.(SessionEverSwitched); StripThinkingBlocks := r.(StripThinkingBlocks); Handover :=
  r.(Handover); PrefixTrimmed := r.(PrefixTrimmed); EscalateEffort := r.(EscalateEffort);
  PinTurnCount := v; PinFirstPinnedAt := r.(PinFirstPinnedAt); SessionDisabledProviders :=
  r.(SessionDisabledProviders); AuthorityShadow := r.(AuthorityShadow) |}.
Definition set_PinFirstPinnedAt (v : Z) (r : t) : t := {|
  Decision := r.(Decision); SessionKey := r.(SessionKey); InstallationID := r.(InstallationID);
  Strategy := r.(Strategy); turnType := r.(turnType); StickyHit := r.(StickyHit); HardPinned :=
  r.(HardPinned); AuthoritativePerTurn := r.(AuthoritativePerTurn); PinTier := r.(PinTier);
  PinAgeSec := r.(PinAgeSec); ForcedPinDropped := r.(ForcedPinDropped); ForcedPinDropReason :=
  r.(ForcedPinDropReason); ForcedPinModel := r.(ForcedPinModel); PinProvider := r.(PinProvider);
  PrefixBroken := r.(PrefixBroken); PriorTurnGapMS := r.(PriorTurnGapMS); PolicyFallback :=
  r.(PolicyFallback); RequestedTier := r.(RequestedTier); PinRole := r.(PinRole); StickyRole :=
  r.(StickyRole); Fresh := r.(Fresh); PlannerDecision := r.(PlannerDecision); PinModel :=
  r.(PinModel); PriorServedModel := r.(PriorServedModel); SessionEverSwitched :=
  r.(SessionEverSwitched); StripThinkingBlocks := r.(StripThinkingBlocks); Handover :=
  r.(Handover); PrefixTrimmed := r.(PrefixTrimmed); EscalateEffort := r.(EscalateEffort);
  PinTurnCount := r.(PinTurnCount); PinFirstPinnedAt := v; SessionDisabledProviders :=
  r.(SessionDisabledProviders); AuthorityShadow := r.(AuthorityShadow) |}.
Definition set_SessionDisabledProviders (v : list string) (r : t) : t := {|
  Decision := r.(Decision); SessionKey := r.(SessionKey); InstallationID := r.(InstallationID);
  Strategy := r.(Strategy); turnType := r.(turnType); StickyHit := r.(StickyHit); HardPinned :=
  r.(HardPinned); AuthoritativePerTurn := r.(AuthoritativePerTurn); PinTier := r.(PinTier);
  PinAgeSec := r.(PinAgeSec); ForcedPinDropped := r.(ForcedPinDropped); ForcedPinDropReason :=
  r.(ForcedPinDropReason); ForcedPinModel := r.(ForcedPinModel); PinProvider := r.(PinProvider);
  PrefixBroken := r.(PrefixBroken); PriorTurnGapMS := r.(PriorTurnGapMS); PolicyFallback :=
  r.(PolicyFallback); RequestedTier := r.(RequestedTier); PinRole := r.(PinRole); StickyRole :=
  r.(StickyRole); Fresh := r.(Fresh); PlannerDecision := r.(PlannerDecision); PinModel :=
  r.(PinModel); PriorServedModel := r.(PriorServedModel); SessionEverSwitched :=
  r.(SessionEverSwitched); StripThinkingBlocks := r.(StripThinkingBlocks); Handover :=
  r.(Handover); PrefixTrimmed := r.(PrefixTrimmed); EscalateEffort := r.(EscalateEffort);
  PinTurnCount := r.(PinTurnCount); PinFirstPinnedAt := r.(PinFirstPinnedAt);
  SessionDisabledProviders := v; AuthorityShadow := r.(AuthorityShadow) |}.
Definition set_AuthorityShadow (v : authorityCacheShadow) (r : t) : t := {|
  Decision := r.(Decision); SessionKey := r.(SessionKey); InstallationID := r.(InstallationID);
  Strategy := r.(Strategy); turnType := r.(turnType); StickyHit := r.(StickyHit); HardPinned :=
  r.(HardPinned); AuthoritativePerTurn := r.(AuthoritativePerTurn); PinTier := r.(PinTier);
  PinAgeSec := r.(PinAgeSec); ForcedPinDropped := r.(ForcedPinDropped); ForcedPinDropReason :=
  r.(ForcedPinDropReason); ForcedPinModel := r.(ForcedPinModel); PinProvider := r.(PinProvider);
  PrefixBroken := r.(PrefixBroken); PriorTurnGapMS := r.(PriorTurnGapMS); PolicyFallback :=
  r.(PolicyFallback); RequestedTier := r.(RequestedTier); PinRole := r.(PinRole); StickyRole :=
  r.(StickyRole); Fresh := r.(Fresh); PlannerDecision := r.(PlannerDecision); PinModel :=
  r.(PinModel); PriorServedModel := r.(PriorServedModel); SessionEverSwitched :=
  r.(SessionEverSwitched); StripThinkingBlocks := r.(StripThinkingBlocks); Handover :=
  r.(Handover); PrefixTrimmed := r.(PrefixTrimmed); EscalateEffort := r.(EscalateEffort);
  PinTurnCount := r.(PinTurnCount); PinFirstPinnedAt := r.(PinFirstPinnedAt);
  SessionDisabledProviders := r.(SessionDisabledProviders); AuthorityShadow := v |}.
End TurnResult.
