(* ===== verification/TurnLoop.v ===== *)
(** The turn loop: runTurnLoop in internal/proxy/turnloop.go, stage by stage.

    A turn is one program over the pin store.  Its stages pass on a [Loop] (the request, the result
    so far, the session's pin) or stop with an outcome; [route] is the router of the request's
    strategy, called with the number of the call within the turn.  The request arrives with its
    translation plan applied and the deployment-wide exclusions loaded. *)

From stdpp Require Import base gmap sets list strings.
From Stdlib Require Import ZArith Lia Ascii SpecFloat.
From S2P Require Import Prelude Floats Types Catalog Planner PinStore ForceNames Reasoning Exclusions GlobalExclusions PinPolicy ForcePins HmmGate TurnTypes TurnResult.
Open Scope string_scope.
Open Scope Z_scope.
Open Scope prog_scope.

(** ** What a turn depends on *)

(** The handover summarizer as this request sees it: whether the caller's own credentials for its
    provider are at hand, and whether the request must not use the deployment's. *)
Record Summarizer := {
  sum_callerCreds : bool;
  sum_nonDeploymentCreds : bool;
  (** the call: its duration in milliseconds, and the summary or an error *)
  Summarize : Z * option (string * HandoverUsage)
}.
(** The service, with the flags resolved for the request. *)
Record Service := {
  svc_gate : Gate;
  has_pinStore : bool;
  hardPinProvider : string;
  hardPinModel : string;
  subAgentProvider : string;
  subAgentModel : string;
  hardPinExplore : bool;
  hardPinResolver : option (option (gset string) -> option (gset string) -> option (string * string));
  compactionHardPinEnabled : bool;
  compactionModel : string;
  policyDeadlineFallback : bool;
  policyDeadlineDefaultModel : string;
  bandSwap : option HmmGate.Classifier;
  summarizer : option Summarizer;
  authoritativePerTurnSelection : bool;
  PlannerEnabled : bool;
  ScoreToolResultTurns : bool;
  PrefixTrimFreeSwitch : bool;
  AuthoritativeUpgradeGate : bool;
  AuthorityCacheShadowFlag : bool;
  EmbedOnlyUserMessage : bool
}.
(** What the turn loop reads of the request body, its keys and the compaction tracker. *)
Record Turn := {
  t_env : Envelope;
  t_feats : RoutingFeatures;
  t_hint : string;
  t_installation : string;
  t_threadKey : string;
  t_forceKey : string;
  FullTokenEstimate : Z;
  ContextOverflowTokenEstimate : Z;
  SignatureTokenSavings : Z;
  t_userTurns : Z;
  t_prefixTrimmed : bool;
  t_betaArtifactHistory : bool;
  t_requiresImages : bool;
  (** the order in which the shadow walks the arm map *)
  t_arms : list (string * f32)
}.

Record RouteError := { ErrHMMUnavailable : bool; DeadlineExceeded : bool; Canceled : bool }.
Inductive TurnError :=
| TForcedModelUnknown (model : string)
| TForcedModelExcluded (model reason : string)
| TClusterUnavailable (turn : TurnType)
| TNoEligibleProvider (what : string)
| TRoute (e : RouteError).

(** The outcome: the result, the error, and the summary the envelope was rewritten with. *)
Record TurnOut := { out : TurnResult.t; err : option TurnError; rewritten : option string }.
Definition served (r : TurnResult.t) : TurnOut := {| out := r; err := None; rewritten := None |}.
Definition failed (r : TurnResult.t) (e : TurnError) : TurnOut := {| out := r; err := Some e; rewritten := None |}.

Record Loop := { l_req : Request.t; l_res : TurnResult.t; l_pin : Pin.t; l_found : bool }.
Record ForceState := { f_pin : Pin.t; f_found : bool; f_cleared : bool; f_session : bool }.

(** A stage stops the turn or passes on. *)
Definition Stage (S A : Type) : Type := Prog S (TurnOut + A).
Definition stop {S A : Type} (o : TurnOut) : Stage S A := ret (inl o).
Definition pass {S A : Type} (a : A) : Stage S A := ret (inr a).
Definition and_then {S A B : Type} (m : Stage S A) (f : A -> Stage S B) : Stage S B :=
  bind m (fun r => match r with inl o => ret (inl o) | inr a => f a end).
Notation "'let?' x ':=' m 'in' k" := (and_then m (fun x => k))
  (at level 10, x pattern, m at level 100, k at level 200) : prog_scope.
Definition lift {S A : Type} (m : Prog S A) : Stage S A := bind m (fun a => ret (inr a)).

(** ** Helpers *)

Definition policyDeadlineFallbackReason : string := "policy_deadline_last_known_good".
Definition policyDeadlineDefaultReason : string := "policy_deadline_default_model".
Definition isPolicyDeadlineErr (e : RouteError) : bool :=
  (e.(ErrHMMUnavailable) && (e.(DeadlineExceeded) || e.(Canceled)))%bool.

(** [int64(d.Seconds())]. *)
Definition seconds_int (d : Z) : Z :=
  f64_to_int (f64_add (f64_of_Z (Z.quot d Second)) (f64_div (f64_of_Z (Z.rem d Second)) (f64_of_Z Second))).
Definition pinAge (now : Z) (p : Pin.t) : Z :=
  if IsZero p.(Pin.FirstPinnedAt) then 0
  else let d := Sub now p.(Pin.FirstPinnedAt) in if d <? 0 then 0 else seconds_int d.
Definition applyPinEvidence (now : Z) (pin : Pin.t) (res : TurnResult.t) : TurnResult.t :=
  let res := TurnResult.set_PinAgeSec (pinAge now pin)
               (TurnResult.set_PinProvider pin.(Pin.Provider) (TurnResult.set_PinModel pin.(Pin.Model) res)) in
  if IsZero pin.(Pin.LastTurnEndedAt) then res
  else TurnResult.set_PriorTurnGapMS (Some (Z.quot (Sub now pin.(Pin.LastTurnEndedAt)) Millisecond)) res.
Definition clearPinEvidence (res : TurnResult.t) : TurnResult.t :=
  TurnResult.set_PriorTurnGapMS None (TurnResult.set_PinAgeSec 0
    (TurnResult.set_PinProvider "" (TurnResult.set_PinModel "" res))).
Definition modelSwitched (r : TurnResult.t) : bool :=
  ((negb (String.eqb r.(TurnResult.PriorServedModel) "")
    && negb (String.eqb r.(TurnResult.PriorServedModel) (ServedIdentity r.(TurnResult.Decision))))
   || r.(TurnResult.SessionEverSwitched) || r.(TurnResult.StripThinkingBlocks))%bool.
Definition nonempty (s : option (gset string)) : bool :=
  match s with Some s => negb (bool_decide (s = ∅)) | None => false end.
(** The previous turn of a pin looked like a failure. *)
Definition prior_failed (pin : Pin.t) : bool :=
  (negb (IsZero pin.(Pin.LastTurnEndedAt))
   && ((pin.(Pin.LastOutputTokens) =? 0) || (0 <? pin.(Pin.ConsecutiveUpstreamErrors))))%bool.
Definition provider_eligible (req : Request.t) (provider : string) : bool :=
  match req.(Request.EnabledProviders) with Some e => in_set provider e | None => true end.
Definition plannerTokensFor (cfg : EVConfig) (T : Turn) : Z :=
  let tokens := T.(t_feats).(feat_Tokens) in
  if cfg.(CorrectedEconomics) then Z.max T.(FullTokenEstimate) tokens else tokens.

Section TurnLoop.
Context `{GoUnicode} {S : Type} `{PinStore S}.
Variable strat : option string.
Variable ctx : Ctx.
Variable svc : Service.
Variable T : Turn.
Variable route : nat -> Request.t -> PolicyTurnContext -> Decision.t + RouteError.
Abbreviation cfg := svc.(svc_gate).(gate_cfg).
Abbreviation inst := T.(t_installation).
Abbreviation tkey := T.(t_threadKey).
Abbreviation planner := svc.(svc_gate).(gate_planner).

Definition hasSubAgentOverride : bool :=
  (negb (String.eqb svc.(subAgentProvider) "") && negb (String.eqb svc.(subAgentModel) ""))%bool.
Definition hard_pinned (tt : TurnType) : bool := isHardPinnedTurn strat svc.(hardPinExplore) hasSubAgentOverride tt.
Definition readmit (req : Request.t) (pin : Pin.t) : Request.t :=
  Request.set_ExcludedModels (readmitForcedModel cfg ctx req.(Request.ExcludedModels)
    T.(ContextOverflowTokenEstimate) T.(SignatureTokenSavings) T.(t_feats).(MaxTokens) pin) req.
Definition exclude (model : string) (req : Request.t) : Request.t :=
  Request.set_ExcludedModels (Some ({[ model ]} ∪ default ∅ req.(Request.ExcludedModels))) req.
(** Exclude a model from routing and from the usage bypass. *)
Definition exclude_maxed (model : string) (req : Request.t) : Request.t :=
  let req := exclude model req in
  Request.set_SafetyExcludedModels (Some (addToSet req.(Request.SafetyExcludedModels) model)) req.
Definition turn_context (now : Z) (req : Request.t) (res : TurnResult.t) (pin hmmHistory : Pin.t) : PolicyTurnContext :=
  buildPolicyTurnContext now T.(t_userTurns) req.(Request.HistoryTruncated)
    {| PrefixTrimmed := res.(TurnResult.PrefixTrimmed); PriorServedModel := res.(TurnResult.PriorServedModel);
       ev_SessionEverSwitched := res.(TurnResult.SessionEverSwitched);
       PinPolicy.TurnType := turn_string res.(TurnResult.turnType) |} pin hmmHistory.

Definition initial_result : TurnResult.t :=
  let tt := DetectFromEnvelope (Some T.(t_env)) T.(t_feats) T.(t_hint) in
  let tier := TierFor T.(t_feats).(feat_Model) in
  TurnResult.set_AuthoritativePerTurn (authoritativePolicyTurn tt && svc.(authoritativePerTurnSelection))%bool
    (TurnResult.set_PinRole (roleForTier tier) (TurnResult.set_StripThinkingBlocks T.(t_betaArtifactHistory)
      (TurnResult.set_RequestedTier tier (TurnResult.set_PinTier "miss" (TurnResult.set_turnType tt
        (TurnResult.set_Strategy (StrategyFromContext strat) (TurnResult.set_InstallationID inst TurnResult.zero))))))).

(** The forced decision, whatever the stage that serves it. *)
Definition forced_result (pin : Pin.t) (res : TurnResult.t) : TurnResult.t :=
  TurnResult.set_PinTier ReasonUserForceModel (TurnResult.set_StickyHit true
    (TurnResult.set_Decision (Decision.set_Reason ReasonUserForceModel (pinDecision pin)) res)).
Definition sticky_result (tier : string) (d : Decision.t) (res : TurnResult.t) : TurnResult.t :=
  TurnResult.set_PinTier tier (TurnResult.set_StickyHit true (TurnResult.set_Decision d res)).

(** *** Forced models of the session *)

(** Adopt a forced pin: installation policy may refuse it, its allowlist exclusion is lifted. *)
Definition adopt_force (res : TurnResult.t) (req : Request.t) (pin : Pin.t) : Stage S (Request.t * Pin.t) :=
  match forcedModelBinding cfg ctx pin.(Pin.Model) pin.(Pin.Provider) with
  | Err reason => stop (failed res (TForcedModelExcluded pin.(Pin.Model) reason))
  | Ok binding => let pin := Pin.set_Provider binding pin in pass (readmit req pin, pin)
  end.
Definition force_stage (req : Request.t) (res : TurnResult.t) : Stage S (Request.t * ForceState) :=
  let? (pin, found, cleared) :=
    if negb (String.eqb req.(Request.ForceModel) "") then
      let '(canonicalModel, provider, known) := resolveForceModel req.(Request.ForceModel) in
      if negb known then stop (failed res (TForcedModelUnknown req.(Request.ForceModel)))
      else pass (Pin.set_SessionKey T.(t_forceKey) (Pin.set_Role forceModelSessionRole
             (Pin.set_InstallationID inst (Pin.set_Provider provider (Pin.set_Model canonicalModel
               (Pin.set_Reason ReasonUserForceModel (Pin.set_PinnedUntil pinNeverExpires Pin.zero)))))), true, false)
    else lift (loadForceModelSessionPin svc.(has_pinStore) T.(t_forceKey)) in
  if (found : bool) then
    let? (req, pin) := adopt_force res req pin in
    pass (req, {| f_pin := pin; f_found := true; f_cleared := cleared; f_session := true |})
  else pass (req, {| f_pin := pin; f_found := false; f_cleared := cleared; f_session := false |}).

(** A force kept on the thread's own row, for the turns that are hard-pinned otherwise. *)
Definition legacy_force_stage (req : Request.t) (res : TurnResult.t) (f : ForceState) : Stage S (Request.t * ForceState) :=
  if (svc.(has_pinStore) && negb f.(f_found) && negb f.(f_cleared))%bool then
    let? (legacyPin, found) := lift (loadPin strat tkey res.(TurnResult.PinRole)) in
    if (found && isUserForcedReason legacyPin.(Pin.Reason))%bool then
      let? (req, pin) := adopt_force res req legacyPin in
      pass (req, {| f_pin := pin; f_found := true; f_cleared := f.(f_cleared); f_session := f.(f_session) |})
    else pass (req, f)
  else pass (req, f).

(** *** Hard-pinned turns *)

Definition summarizerEligible (model : string) : bool :=
  match ByID model with
  | Some m => (negb (bool_decide (m.(model_Tier) = TierLow))
               && match m.(Providers) with [] => false | _ => true end)%bool
  | None => false
  end.
Definition DefaultCompactionModel : string := "motif-technologies/motif-3".
Definition compactionModelOrDefault : string :=
  if String.eqb svc.(compactionModel) "" then DefaultCompactionModel else svc.(compactionModel).
Definition compactionPreferredSummarizer (key role : string) : Prog S string :=
  if negb svc.(has_pinStore) then ret ""
  else
    let* (pin, active) := loadPin strat key role in
    if (negb active || negb (summarizerEligible pin.(Pin.Model)))%bool then ret "" else ret pin.(Pin.Model).
Definition compaction_eligible (req : Request.t) (m : string) : bool :=
  (summarizerEligible m
   && match cfg.(availableModels) with Some a => in_set m a | None => true end
   && negb (in_opt_set m req.(Request.ExcludedModels)) && negb (automaticallyDisabled req m))%bool.
Definition compactionHardPin (key role : string) (req : Request.t) : Prog S (option (string * string)) :=
  if negb (provider_eligible req ProviderAiand) then ret None
  else
    let* preferred := compactionPreferredSummarizer key role in
    if compaction_eligible req preferred then ret (Some (ProviderAiand, preferred))
    else if compaction_eligible req compactionModelOrDefault then ret (Some (ProviderAiand, compactionModelOrDefault))
    else ret None.

(** The model of a hard-pinned turn, or why there is none. *)
Definition hard_pin_target (req : Request.t) (tt : TurnType) (compactionPin : option (string * string)) :
    (string * string) + TurnError :=
  let useSubAgentOverride := (bool_decide (tt = SubAgentDispatch) && hasSubAgentOverride)%bool in
  let '(provider, model) := if useSubAgentOverride then (svc.(subAgentProvider), svc.(subAgentModel))
                            else (svc.(hardPinProvider), svc.(hardPinModel)) in
  match compactionPin with
  | Some pm => inl pm
  | None =>
      match (if useSubAgentOverride then None else svc.(hardPinResolver)) with
      | Some resolve =>
          let denySet := mergeExcludedModels req.(Request.ExcludedModels) req.(Request.AutomaticExcludedModels) in
          let found := match resolve req.(Request.EnabledProviders) denySet with
                       | Some pm => Some pm
                       | None => if nonempty req.(Request.AutomaticExcludedModels)
                                 then resolve req.(Request.EnabledProviders) req.(Request.ExcludedModels)
                                 else None
                       end in
          match found with
          | Some pm => inl pm
          | None => inr (TClusterUnavailable tt)
          end
      | None =>
          if negb (provider_eligible req provider) then inr (TNoEligibleProvider provider)
          else if in_opt_set model req.(Request.ExcludedModels) then inr (TNoEligibleProvider model)
          else inl (provider, model)
      end
  end.
Definition hard_stage (req : Request.t) (res : TurnResult.t) : Prog S TurnOut :=
  let tt := res.(TurnResult.turnType) in
  let useSubAgentOverride := (bool_decide (tt = SubAgentDispatch) && hasSubAgentOverride)%bool in
  let* compactionPin :=
    if (svc.(compactionHardPinEnabled) && bool_decide (tt = Compaction) && negb useSubAgentOverride)%bool
    then compactionHardPin tkey res.(TurnResult.PinRole) req else ret None in
  match hard_pin_target req tt compactionPin with
  | inr e => ret (failed res e)
  | inl (provider, model) =>
      let reason := turn_string tt +:+ "_hard_pin" in
      let d := {| Decision.Provider := provider; Decision.Model := model; Decision.Effort := "";
                  Decision.Reason := reason; Decision.Metadata := None |} in
      ret (served (TurnResult.set_HardPinned true (sticky_result reason d res)))
  end.
(** A forced model outranks the hard pin when it can serve the turn. *)
Definition forced_hard_stage (req : Request.t) (res : TurnResult.t) (f : ForceState) : Stage S TurnResult.t :=
  if negb f.(f_found) then pass res
  else if forcedPinEligible f.(f_pin) req then
    let role := res.(TurnResult.PinRole) in
    let* now := clock_now in
    let* (threadPin, hmmHistory, forceHistory) :=
      if svc.(has_pinStore) then
        let* (threadPin, _) := loadPin strat tkey role in
        let* hmmHistory := loadHMMHistory strat tkey role in
        let* forceHistory := loadForceModelHistory svc.(has_pinStore) tkey role in
        ret (threadPin, hmmHistory, forceHistory)
      else ret (Pin.zero, Pin.zero, Pin.zero) in
    let '(prior, switched) := switchHistoryFromPins [threadPin; hmmHistory; forceHistory] in
    let res := TurnResult.set_SessionKey tkey (TurnResult.set_PinModel f.(f_pin).(Pin.Model)
                 (TurnResult.set_PinAgeSec (pinAge now f.(f_pin))
                   (TurnResult.set_PriorServedModel prior (TurnResult.set_SessionEverSwitched switched
                     (TurnResult.set_EscalateEffort (prior_failed forceHistory) res))))) in
    let* _ := anchorForceModelHistory strat svc.(has_pinStore) inst tkey role f.(f_pin) in
    stop (served (forced_result f.(f_pin) res))
  else pass (TurnResult.set_SessionKey tkey (TurnResult.set_ForcedPinDropped true
    (TurnResult.set_ForcedPinModel f.(f_pin).(Pin.Model)
      (TurnResult.set_ForcedPinDropReason (forcedPinIneligibilityReason f.(f_pin) req) res)))).

(** *** Without a pin store *)

Definition route_error (r : TurnResult.t) (e : RouteError) : TurnOut := failed r (TRoute e).
Definition no_store_stage (req : Request.t) (res : TurnResult.t) (f : ForceState) : Prog S TurnOut :=
  if (f.(f_found) && forcedPinEligible f.(f_pin) req)%bool then ret (served (forced_result f.(f_pin) res))
  else
    let* now := clock_now in
    match route 0%nat req (turn_context now req res Pin.zero Pin.zero) with
    | inl d => ret (served (TurnResult.set_Fresh d (TurnResult.set_Decision d res)))
    | inr e => ret (route_error res e)
    end.

(** *** Loading the session *)

(** What the load passes on besides the loop. *)
Record Loaded := {
  ld_loop : Loop;
  ld_hmmHistory : Pin.t;
  ld_forceHistory : Pin.t;
  ld_continuation : option Pin.t;
  ld_clearedReason : string;
  ld_context : PolicyTurnContext
}.

(** Leave the providers the session struck out, the forced one excepted, out of the request. *)
Definition strike_out (disabled : list string) (forcedProvider : string) (req : Request.t) (res : TurnResult.t) :
    Request.t * TurnResult.t :=
  let disabled := if String.eqb forcedProvider "" then disabled
                  else List.filter (fun p => negb (String.eqb p forcedProvider)) disabled in
  match disabled with
  | [] => (req, res)
  | _ => (match req.(Request.EnabledProviders) with
          | Some enabled => Request.set_EnabledProviders (Some (enabled ∖ list_to_set disabled)) req
          | None => req
          end, TurnResult.set_SessionDisabledProviders disabled res)
  end.

Definition load_stage (req : Request.t) (res : TurnResult.t) (f : ForceState) : Stage S Loaded :=
  let role := res.(TurnResult.PinRole) in
  let* now := clock_now in
  let* (pin, pinFound) := loadPin strat tkey role in
  let clearedReason :=
    if (negb pinFound && String.eqb pin.(Pin.Model) "" && String.eqb pin.(Pin.Provider) "")%bool
    then pin.(Pin.Reason) else "" in
  let* hmmHistory := loadHMMHistory strat tkey role in
  let* forceHistory :=
    if (f.(f_found) || f.(f_cleared))%bool then loadForceModelHistory svc.(has_pinStore) tkey role else ret Pin.zero in
  let? (req, pin) :=
    if (negb f.(f_found) && negb f.(f_cleared) && pinFound && isUserForcedReason pin.(Pin.Reason))%bool
    then adopt_force res req pin else pass (req, pin) in
  let '(pin, pinFound) := if (f.(f_cleared) && pinFound && isUserForcedReason pin.(Pin.Reason))%bool
                          then (Pin.zero, false) else (pin, pinFound) in
  let* continuation :=
    if bool_decide (res.(TurnResult.turnType) = MainLoop) then
      let* (c, found) := consumePostCommandContinuation strat svc.(has_pinStore) tkey role in
      ret (if (found : bool) then Some c else None)
    else ret None in
  let? pin :=
    if (pinFound && isUserForcedReason pin.(Pin.Reason))%bool then
      match forcedModelBinding cfg ctx pin.(Pin.Model) pin.(Pin.Provider) with
      | Err reason => stop (failed res (TForcedModelExcluded pin.(Pin.Model) reason))
      | Ok binding => pass (Pin.set_Provider binding pin)
      end
    else pass pin in
  let forcedProvider :=
    if f.(f_found) then f.(f_pin).(Pin.Provider)
    else if (pinFound && isUserForcedReason pin.(Pin.Reason))%bool then pin.(Pin.Provider) else "" in
  let '(req, res) := strike_out (mergeDisabledProviders pin.(Pin.DisabledProviders) hmmHistory.(Pin.DisabledProviders))
                       forcedProvider req res in
  let '(prior, switched) := switchHistoryFromPins [pin; hmmHistory; forceHistory] in
  let res := TurnResult.set_PriorServedModel prior (TurnResult.set_SessionEverSwitched switched res) in
  let context := turn_context now req res pin hmmHistory in
  let res := TurnResult.set_EscalateEffort (pinFound && prior_failed pin)%bool res in
  let res := if pinFound then
               applyPinEvidence now pin (TurnResult.set_PinFirstPinnedAt pin.(Pin.FirstPinnedAt)
                 (TurnResult.set_PinTurnCount (wrap64 (pin.(Pin.TurnCount) + 1)) res))
             else res in
  pass {| ld_loop := {| l_req := req; l_res := res; l_pin := pin; l_found := pinFound |};
          ld_hmmHistory := hmmHistory; ld_forceHistory := forceHistory; ld_continuation := continuation;
          ld_clearedReason := clearedReason; ld_context := context |}.

(** *** Pins that serve without the router *)

Definition drop (l : Loop) : Loop := {| l_req := l.(l_req); l_res := l.(l_res); l_pin := Pin.zero; l_found := false |}.
Definition with_req (req : Request.t) (l : Loop) : Loop :=
  {| l_req := req; l_res := l.(l_res); l_pin := l.(l_pin); l_found := l.(l_found) |}.
Definition with_res (res : TurnResult.t) (l : Loop) : Loop :=
  {| l_req := l.(l_req); l_res := res; l_pin := l.(l_pin); l_found := l.(l_found) |}.
Definition dropped_force (reason model : string) (res : TurnResult.t) : TurnResult.t :=
  TurnResult.set_ForcedPinDropped true (TurnResult.set_ForcedPinDropReason reason
    (TurnResult.set_ForcedPinModel model res)).

(** The session's force; the tier it leaves as a floor when it cannot serve. *)
Definition forced_stage (f : ForceState) (forceHistory : Pin.t) (l : Loop) : Stage S (Loop * Tier) :=
  if negb f.(f_found) then pass (l, TierUnknown)
  else
    let* now := clock_now in
    let req := l.(l_req) in
    let model := f.(f_pin).(Pin.Model) in
    let excluded := in_opt_set model req.(Request.ExcludedModels) in
    let imageCapable := pinServesImages f.(f_pin) req in
    if (negb excluded && provider_eligible req f.(f_pin).(Pin.Provider) && imageCapable)%bool then
      let res := TurnResult.set_PinModel model (TurnResult.set_PinAgeSec (pinAge now f.(f_pin))
                   (TurnResult.set_EscalateEffort (prior_failed forceHistory) l.(l_res))) in
      let* _ := anchorForceModelHistory strat svc.(has_pinStore) inst tkey l.(l_res).(TurnResult.PinRole) f.(f_pin) in
      stop (served (forced_result f.(f_pin) res))
    else
      let floor := if (excluded || negb imageCapable)%bool then TierFor model else TierUnknown in
      let req' := if imageCapable then req
                  else Request.set_ExcludedModels (excludingModel req.(Request.ExcludedModels) model) req in
      let l' := with_req req' (with_res (dropped_force (forcedPinIneligibilityReason f.(f_pin) req) model l.(l_res)) l) in
      pass (if (negb f.(f_session) || isUserForcedReason l.(l_pin).(Pin.Reason))%bool then drop l' else l', floor).

(** Pins with a reason of their own: a thread's force, the loop and struggle escalations. *)
Definition pinned_reason_stage (floor : Tier) (l : Loop) : Stage S (Loop * Tier) :=
  let pin := l.(l_pin) in
  let reason := pin.(Pin.Reason) in
  let user := isUserForcedReason reason in
  if negb (l.(l_found) && isPinnedDecisionReason reason)%bool then pass (l, floor)
  else
    let req := l.(l_req) in
    let excluded := in_opt_set pin.(Pin.Model) req.(Request.ExcludedModels) in
    let imageCapable := pinServesImages pin req in
    let autoDisabled := (negb user && automaticallyDisabled req pin.(Pin.Model))%bool in
    if (negb excluded && negb autoDisabled && provider_eligible req pin.(Pin.Provider) && imageCapable)%bool then
      let* _ := refreshPin strat inst tkey pin l.(l_res).(TurnResult.PinRole) (pinDecision pin) in
      stop (served (sticky_result reason (pinDecision pin) l.(l_res)))
    else
      let dropReason := forcedPinIneligibilityReason pin req in
      let dropReason := if (String.eqb dropReason "excluded" && autoDisabled)%bool
                        then "automatic_routing_disabled" else dropReason in
      let res := if user then dropped_force dropReason pin.(Pin.Model) l.(l_res) else l.(l_res) in
      let floor := if (user && (excluded || negb imageCapable))%bool then TierFor pin.(Pin.Model) else floor in
      let* _ :=
        if (negb user && (excluded || autoDisabled))%bool then
          expireSessionPin strat svc.(has_pinStore) inst tkey l.(l_res).(TurnResult.PinRole)
            (if autoDisabled then "escalation_pin_automatic_routing_disabled" else "escalation_pin_excluded")
        else ret (Ok tt) in
      let req' := if imageCapable then req
                  else Request.set_ExcludedModels (excludingModel req.(Request.ExcludedModels) pin.(Pin.Model)) req in
      pass (drop (with_req req' (with_res res l)), floor).

(** *** The guards on an automatic pin *)

Definition guard_automatic (l : Loop) : Loop :=
  if (l.(l_found) && negb (isUserForcedReason l.(l_pin).(Pin.Reason))
      && automaticallyDisabled l.(l_req) l.(l_pin).(Pin.Model))%bool then drop l else l.
Definition guard_maxed (l : Loop) : Loop :=
  if (l.(l_found) && (prevTurnMaxedOutThreshold <=? l.(l_pin).(Pin.LastOutputTokens)))%bool
  then drop (with_req (exclude_maxed (maxedOutServedModel l.(l_pin)) l.(l_req)) l) else l.
Definition guard_maxed_history (hmmHistory : Pin.t) (l : Loop) : Loop :=
  let maxedModel := maxedOutServedModel hmmHistory in
  if String.eqb maxedModel "" then l else with_req (exclude_maxed maxedModel l.(l_req)) l.
Definition remove_model (model : string) (s : option (gset string)) : option (gset string) :=
  match s with Some s => Some (s ∖ {[ model ]}) | None => None end.
(** A pin the pre-filter excluded is checked against its own window. *)
Definition guard_window (l : Loop) : Loop :=
  let pin := l.(l_pin) in
  let model := pin.(Pin.Model) in
  let req := l.(l_req) in
  if (l.(l_found) && in_opt_set model req.(Request.ExcludedModels))%bool then
    let reserve := Z.max contextWindowOutputReserve T.(t_feats).(MaxTokens) in
    let estimate := if modelStripsAnthropicSignatures model
                    then T.(ContextOverflowTokenEstimate) - T.(SignatureTokenSavings)
                    else T.(ContextOverflowTokenEstimate) in
    if contextWindowForRequest model pin.(Pin.Provider) <? estimate + reserve then drop l
    else
      let policyExcludes := in_opt_set model (excludedModelsForRequest cfg ctx) in
      let compatibilityExcludes := (T.(t_requiresImages) && negb (AcceptsImages model))%bool in
      if (negb policyExcludes && negb compatibilityExcludes)%bool then
        with_req (Request.set_SafetyExcludedModels (remove_model model req.(Request.SafetyExcludedModels))
                   (Request.set_ExcludedModels (remove_model model req.(Request.ExcludedModels)) req)) l
      else l
  else l.
Definition guard_subset (l : Loop) : Loop :=
  if (l.(l_found) && negb (modelInRequestSubset ctx l.(l_pin).(Pin.Model)))%bool then drop l else l.
Definition guard_provider (l : Loop) : Loop :=
  if (l.(l_found) && negb (provider_eligible l.(l_req) l.(l_pin).(Pin.Provider)))%bool then drop l else l.
Definition guard_images (l : Loop) : Loop :=
  if (l.(l_found) && l.(l_req).(Request.HasImages) && negb (AcceptsImages l.(l_pin).(Pin.Model)))%bool then drop l else l.
Definition guard_evidence (l : Loop) : Loop :=
  if l.(l_found) then l else with_res (clearPinEvidence l.(l_res)) l.
Definition guards (hmmHistory : Pin.t) (l : Loop) : Loop :=
  guard_evidence (guard_images (guard_provider (guard_subset (guard_window
    (guard_maxed_history hmmHistory (guard_maxed (guard_automatic l))))))).

(** *** Continuation and the stickies *)

Definition continuation_stage (f : ForceState) (ld : Loaded) (l : Loop) : Stage S Loop :=
  match (if String.eqb ld.(ld_clearedReason) "" then ld.(ld_continuation) else None) with
  | None => pass l
  | Some c =>
      if negb (automaticPinEligible c l.(l_req)) then pass l
      else
        let* now := clock_now in
        let '(prior, switched) := switchHistoryFromPins
          ([c; ld.(ld_hmmHistory); ld.(ld_forceHistory)] ++ (if f.(f_cleared) then [f.(f_pin)] else []))%list in
        let res := TurnResult.set_PinModel c.(Pin.Model) (TurnResult.set_PinAgeSec (pinAge now c)
                     (TurnResult.set_PriorServedModel prior (TurnResult.set_SessionEverSwitched switched
                       (TurnResult.set_EscalateEffort (prior_failed c) l.(l_res))))) in
        let* _ := refreshPin strat inst tkey c res.(TurnResult.PinRole) (pinDecision c) in
        stop (served (sticky_result "post_command_continuation" (pinDecision c) res))
  end.
Definition sticky_stage (l : Loop) : Stage S Loop :=
  let res := l.(l_res) in
  let keep tier :=
    let* _ := refreshPin strat inst tkey l.(l_pin) res.(TurnResult.PinRole) (pinDecision l.(l_pin)) in
    stop (served (sticky_result tier (pinDecision l.(l_pin)) res)) in
  if (negb res.(TurnResult.AuthoritativePerTurn) && negb svc.(ScoreToolResultTurns)
      && bool_decide (res.(TurnResult.turnType) = ToolResult) && l.(l_found))%bool
  then keep "postgres_tool_result_sc"
  else if (negb res.(TurnResult.AuthoritativePerTurn) && negb svc.(PlannerEnabled) && l.(l_found))%bool
  then keep "postgres"
  else pass l.

(** *** Routing *)

Definition policyDeadlineDefaultDecision (req : Request.t) : option Decision.t :=
  let m := svc.(policyDeadlineDefaultModel) in
  if String.eqb m "" then None
  else if in_opt_set m req.(Request.ExcludedModels) then None
  else if in_opt_set m req.(Request.SafetyExcludedModels) then None
  else
    let providerSet := match req.(Request.EnabledProviders) with
                       | Some enabled => svc.(svc_gate).(gate_providers) ∩ enabled
                       | None => svc.(svc_gate).(gate_providers)
                       end in
    match ResolveBinding m (Some providerSet) with
    | None => None
    | Some b => Some {| Decision.Provider := b.(Provider); Decision.Model := m; Decision.Effort := "";
                        Decision.Reason := policyDeadlineDefaultReason; Decision.Metadata := None |}
    end.
(** The router missed its deadline: serve the session's pin, else the configured default. *)
Definition deadline_stage (l : Loop) (e : RouteError) : Stage S Decision.t :=
  let res := l.(l_res) in
  let pin := l.(l_pin) in
  if (svc.(policyDeadlineFallback) && isPolicyDeadlineErr e)%bool then
    if (l.(l_found) && negb (String.eqb pin.(Pin.Model) ""))%bool then
      let d := Decision.set_Reason policyDeadlineFallbackReason (pinDecision pin) in
      let* _ := refreshPin strat inst tkey pin res.(TurnResult.PinRole) (Decision.set_Reason pin.(Pin.Reason) d) in
      stop (served (TurnResult.set_PolicyFallback true (sticky_result policyDeadlineFallbackReason d res)))
    else match policyDeadlineDefaultDecision l.(l_req) with
         | Some d =>
             let* _ := writeNewPin strat inst tkey res.(TurnResult.PinRole) d in
             stop (served (TurnResult.set_PolicyFallback true
               (TurnResult.set_PinTier policyDeadlineFallbackReason (TurnResult.set_Decision d res))))
         | None => stop (route_error res e)
         end
  else stop (route_error res e).
Definition route_stage (floor : Tier) (context : PolicyTurnContext) (l : Loop) : Stage S Decision.t :=
  let req := l.(l_req) in
  let unconstrained (call : nat) : Stage S Decision.t :=
    match route call req context with
    | inl d => pass d
    | inr e => deadline_stage l e
    end in
  if bool_decide (floor = TierUnknown) then unconstrained 0%nat
  else
    let '(constrained, ok) := restrictToTier cfg req.(Request.ExcludedModels) floor in
    if negb ok then unconstrained 0%nat
    else match route 0%nat (Request.set_ExcludedModels constrained req) context with
         | inl d => pass d
         | inr e => if l.(l_res).(TurnResult.AuthoritativePerTurn) then stop (route_error l.(l_res) e)
                    else unconstrained 1%nat
         end.

(** *** The policy's own turns *)

Definition active_pin (l : Loop) : Pin.t := if l.(l_found) then l.(l_pin) else Pin.zero.
Definition authoritative_stage (hmmHistory : Pin.t) (prefixBroken : bool) (fresh : Decision.t) (l : Loop) : Stage S Loop :=
  if negb l.(l_res).(TurnResult.AuthoritativePerTurn) then pass l
  else
    let* now := clock_now in
    let req := l.(l_req) in
    let pin := l.(l_pin) in
    let res := TurnResult.set_AuthorityShadow (authorityCacheShadowFor svc.(AuthorityCacheShadowFlag) T.(t_arms)
                 svc.(svc_gate) now req (active_pin l) hmmHistory fresh (plannerTokensFor planner T) prefixBroken) l.(l_res) in
    let lowConfidence :=
      (svc.(AuthoritativeUpgradeGate) && l.(l_found) && negb (String.eqb pin.(Pin.Model) "")
       && negb (String.eqb pin.(Pin.Model) fresh.(Decision.Model))
       && hmmFreshIsMoreExpensive pin.(Pin.Model) fresh.(Decision.Model) req.(Request.SubsidizedModelCostFactor)
       && match hmmDecisionConfidence fresh with
          | Some confidence => f_lt confidence svc.(svc_gate).(hmmUpgradeConfidenceThreshold)
          | None => false
          end)%bool in
    if lowConfidence then
      let* _ := refreshPin strat inst tkey pin res.(TurnResult.PinRole) (pinDecision pin) in
      stop (served (sticky_result ("authoritative_" +:+ hmmReasonUpgradeConfidenceLow) (pinDecision pin) res))
    else
      let* _ := writeNewPin strat inst tkey res.(TurnResult.PinRole) fresh in
      stop (served (TurnResult.set_PinTier "authoritative_per_turn" (TurnResult.set_Decision fresh res))).

Definition hmm_stage (hmmHistory : Pin.t) (prefixBroken : bool) (fresh : Decision.t) (l : Loop) : Stage S Loop :=
  if negb (isHMMDecision fresh) then pass l
  else
    let* now := clock_now in
    let g := svc.(svc_gate) in
    let req := l.(l_req) in
    let '(d, verdict, sticky, stayModel) :=
      hmmCostGatedDecision g now req (active_pin l) hmmHistory fresh (plannerTokensFor planner T) prefixBroken in
    let res := TurnResult.set_PlannerDecision verdict (TurnResult.set_Decision d l.(l_res)) in
    let held := effortHysteresisHold fresh res.(TurnResult.PriorServedModel) d.(Decision.Model) d.(Decision.Effort) in
    let res := if String.eqb held "" then res
               else TurnResult.set_PlannerDecision
                      (with_verdict verdict.(Verdict.outcome) (appendEffortHysteresisReason verdict.(Verdict.Reason)) verdict)
                      (TurnResult.set_Decision (Decision.set_Effort held d) res) in
    let res := if String.eqb stayModel "" then res
               else let res := TurnResult.set_PinModel stayModel res in
                    match hmmStayPin g now req (active_pin l) hmmHistory with
                    | Some p => if String.eqb p.(Pin.Model) stayModel then applyPinEvidence now p res else res
                    | None => res
                    end in
    let reason := verdict.(Verdict.Reason) in
    let tier :=
      if (sticky : bool) then "hmm_ev_stay_" +:+ reason
      else if (bool_decide (verdict.(Verdict.outcome) = OutcomeStay) && negb (String.eqb reason ""))%bool
      then "hmm_ev_same_" +:+ reason
      else if (negb (String.eqb reason "") && negb (String.eqb reason ReasonNoPin))%bool
      then "hmm_ev_switch_" +:+ reason
      else "hmm_fresh_unpinned" in
    let res := TurnResult.set_PinTier tier res in
    stop (served (if (sticky : bool)
                  then TurnResult.set_StickyRole (hmmHistoryRole res.(TurnResult.PinRole)) (TurnResult.set_StickyHit true res)
                  else res)).

(** *** The planner's turns *)

(** A pin that lapsed is taken up again unless the fresh pick is of a higher tier. *)
Definition reanchors (prefixBroken : bool) (fresh : Decision.t) (l : Loop) : bool :=
  let pin := l.(l_pin) in
  let req := l.(l_req) in
  let pinTier := TierFor pin.(Pin.Model) in
  let freshTier := TierFor fresh.(Decision.Model) in
  (negb l.(l_found) && negb (String.eqb pin.(Pin.Model) "") && negb prefixBroken
   && negb (bool_decide (pinTier = TierUnknown)) && negb (bool_decide (freshTier = TierUnknown))
   && (tier_rank freshTier <=? tier_rank pinTier)
   && negb (in_opt_set pin.(Pin.Model) req.(Request.ExcludedModels)) && negb (automaticallyDisabled req pin.(Pin.Model))
   && in_opt_set pin.(Pin.Model) cfg.(availableModels) && provider_eligible req pin.(Pin.Provider)
   && negb (prevTurnMaxedOutThreshold <=? pin.(Pin.LastOutputTokens))
   && negb (req.(Request.HasImages) && negb (AcceptsImages pin.(Pin.Model))))%bool.
Definition reanchor_stage (prefixBroken : bool) (fresh : Decision.t) (l : Loop) : Stage S Loop :=
  if reanchors prefixBroken fresh l then
    let d := pinDecision l.(l_pin) in
    let* _ := writeNewPin strat inst tkey l.(l_res).(TurnResult.PinRole) d in
    stop (served (sticky_result "postgres_reanchor" d l.(l_res)))
  else pass l.

(** The handover of a switch: the outcome, and the summary the history is replaced by. *)
Definition handover_step (prefixBroken : bool) (l : Loop) : handoverOutcome * option string :=
  let full ms := {| Invoked := true; LatencyMS := ms; SummaryTokens := 0; FallbackToFullHistory := true;
                    SummaryUsage := no_usage |} in
  if negb l.(l_found) then (l.(l_res).(TurnResult.Handover), None)
  else if prefixBroken then (full 0, None)
  else match svc.(summarizer) with
       | None => (full 0, None)
       | Some s =>
           if negb (s.(sum_callerCreds) || negb s.(sum_nonDeploymentCreds))%bool then (full 0, None)
           else match s.(Summarize) with
                | (ms, Some (summary, usage)) =>
                    if String.eqb summary "" then (full ms, None)
                    else ({| Invoked := true; LatencyMS := ms; SummaryTokens := estimateSummaryTokens summary;
                             FallbackToFullHistory := false; SummaryUsage := usage |}, Some summary)
                | (ms, None) => (full ms, None)
                end
       end.
Definition planner_stage (prefixBroken : bool) (fresh : Decision.t) (l : Loop) : Prog S TurnOut :=
  let* now := clock_now in
  let req := l.(l_req) in
  let res := l.(l_res) in
  let role := res.(TurnResult.PinRole) in
  if negb svc.(PlannerEnabled) then
    let* _ := writeNewPin strat inst tkey role fresh in
    ret (served (TurnResult.set_Decision fresh res))
  else
    let inputs := planner_inputs svc.(svc_gate) now req l.(l_pin) fresh (plannerTokensFor planner T) prefixBroken
                    (l.(l_found) && pinCacheCold now l.(l_pin) prefixBroken)%bool in
    let inputs := {| in_Pin := active_pin l; Fresh := fresh; EstimatedInputTokens := inputs.(EstimatedInputTokens);
                     CacheablePrefixTokens := inputs.(CacheablePrefixTokens); CachePrefixKnown := inputs.(CachePrefixKnown);
                     Planner.PriorOutputTokens := inputs.(Planner.PriorOutputTokens);
                     AvailableModels := inputs.(AvailableModels); in_PinCacheCold := inputs.(in_PinCacheCold);
                     SubsidizedCostFactor := inputs.(SubsidizedCostFactor) |} in
    let verdict := Decide inputs planner in
    let res := TurnResult.set_PlannerDecision verdict res in
    if (bool_decide (verdict.(Verdict.outcome) = OutcomeStay) && l.(l_found))%bool then
      let d := bandSwapServed svc.(svc_gate) svc.(bandSwap) svc.(EmbedOnlyUserMessage)
                 (bool_decide (res.(TurnResult.turnType) = MainLoop)) req.(Request.AutomaticExcludedModels)
                 l.(l_pin) fresh req.(Request.HasImages) req.(Request.EnabledProviders) req.(Request.ExcludedModels) in
      let* _ := refreshPin strat inst tkey l.(l_pin) role (pinDecision l.(l_pin)) in
      ret (served (sticky_result ("postgres_stay_" +:+ verdict.(Verdict.Reason)) d res))
    else
      let '(handover, summary) := handover_step prefixBroken (with_res res l) in
      let res := TurnResult.set_Decision fresh (TurnResult.set_Handover handover res) in
      let res := if l.(l_found) then TurnResult.set_PinTier ("switch_" +:+ verdict.(Verdict.Reason)) res else res in
      let* _ := writeNewPin strat inst tkey role fresh in
      ret {| out := res; err := None; rewritten := summary |}.

(** ** The turn *)

Definition run_stages (m : Stage S TurnOut) : Prog S TurnOut :=
  let* r := m in ret (match r with inl o => o | inr o => o end).

(** Past the load: the pins, the router, the gates. *)
Definition session_stage (f : ForceState) (prefixBroken : bool) (ld : Loaded) : Stage S TurnOut :=
  let? (l, floor) := forced_stage f ld.(ld_forceHistory) ld.(ld_loop) in
  let? (l, floor) := pinned_reason_stage floor l in
  let? l := continuation_stage f ld (guards ld.(ld_hmmHistory) l) in
  let? l := sticky_stage l in
  let? fresh := route_stage floor ld.(ld_context) l in
  let l := with_res (TurnResult.set_Fresh fresh l.(l_res)) l in
  let? l := authoritative_stage ld.(ld_hmmHistory) prefixBroken fresh l in
  let? l := hmm_stage ld.(ld_hmmHistory) prefixBroken fresh l in
  let? l := reanchor_stage prefixBroken fresh l in
  lift (planner_stage prefixBroken fresh l).

Definition runTurnLoop (req : Request.t) : Prog S TurnOut :=
  let res := initial_result in
  run_stages (
    let? (req, f) := force_stage req res in
    let? (req, f) := (if hard_pinned res.(TurnResult.turnType) then legacy_force_stage req res f else pass (req, f)) in
    if hard_pinned res.(TurnResult.turnType) then
      let? res := forced_hard_stage req res f in
      lift (hard_stage req res)
    else
      let prefixBroken := (svc.(PrefixTrimFreeSwitch) && T.(t_prefixTrimmed))%bool in
      let res := TurnResult.set_PrefixBroken prefixBroken (TurnResult.set_PrefixTrimmed T.(t_prefixTrimmed) res) in
      if negb svc.(has_pinStore) then lift (no_store_stage req res f)
      else
        let res := TurnResult.set_SessionKey tkey res in
        let? ld := load_stage req res f in
        session_stage f prefixBroken ld).
End TurnLoop.
