(* ===== verification/TurnFacts.v ===== *)
(** What every turn keeps to: the theorems about the turn loop.  A small weakest-precondition
    calculus for stages carries the proofs through the loop. *)

From stdpp Require Import base gmap sets list strings.
From Stdlib Require Import ZArith Lia Ascii SpecFloat.
From S2P Require Import Prelude Floats Types Catalog Planner PinStore ForceNames Reasoning Exclusions GlobalExclusions PinPolicy ForcePins HmmGate TurnTypes TurnResult TurnLoop.
Open Scope string_scope.
Open Scope Z_scope.
Open Scope prog_scope.

(** ** A calculus of stages *)

Section Wp.
Context {S : Type}.

(** [m] started at [now] in [s] stops with an outcome in [Q] or passes on a value in [R]. *)
Definition wp {A : Type} (m : Stage S A) (Q : S -> TurnOut -> Prop) (R : S -> A -> Prop) (now : Z) (s : S) : Prop :=
  let '(s', r) := m now s in match r with inl o => Q s' o | inr a => R s' a end.

Lemma wp_stop {A : Type} o Q R now s : Q s o -> wp (stop o : Stage S A) Q R now s.
Proof. exact (fun H => H). Qed.
Lemma wp_pass {A : Type} (a : A) Q R now s : R s a -> wp (pass a) Q R now s.
Proof. exact (fun H => H). Qed.
Lemma wp_bind {A B : Type} (m : Prog S A) (f : A -> Stage S B) Q R now s :
  wp (f (m now s).2) Q R now (m now s).1 -> wp (bind m f) Q R now s.
Proof. unfold wp, bind. destruct (m now s) as [s' a]. exact (fun H => H). Qed.
Lemma wp_lift {A : Type} (m : Prog S A) (Q : S -> TurnOut -> Prop) (R : S -> A -> Prop) now s :
  R (m now s).1 (m now s).2 -> wp (lift m) Q R now s.
Proof. unfold wp, lift, bind, ret. destruct (m now s) as [s' a]. exact (fun H => H). Qed.
Lemma wp_then {A B : Type} (m : Stage S A) (f : A -> Stage S B) Q (R : S -> A -> Prop) R' now s :
  wp m Q R now s -> (forall s' a, R s' a -> wp (f a) Q R' now s') -> wp (and_then m f) Q R' now s.
Proof.
  unfold wp, and_then, bind, ret. destruct (m now s) as [s' [o|a]]; intros Hm Hf; [exact Hm|]. apply Hf, Hm.
Qed.
Lemma wp_mono {A : Type} (m : Stage S A) (Q Q' : S -> TurnOut -> Prop) (R R' : S -> A -> Prop) now s :
  wp m Q R now s -> (forall s o, Q s o -> Q' s o) -> (forall s a, R s a -> R' s a) -> wp m Q' R' now s.
Proof. unfold wp. destruct (m now s) as [s' [o|a]]; auto. Qed.
Lemma run_stages_wp (m : Stage S TurnOut) (Q : S -> TurnOut -> Prop) now s :
  wp m Q Q now s -> Q (run_stages m now s).1 (run_stages m now s).2.
Proof. unfold wp, run_stages, bind, ret. destruct (m now s) as [s' [o|o]]; exact (fun H => H). Qed.
End Wp.

(** ** The pins and the requests the stages pass on *)

(** The request of a later stage asks for the same turn. *)
Definition same_turn (req req' : Request.t) : Prop :=
  req'.(Request.AutomaticExcludedModels) = req.(Request.AutomaticExcludedModels) /\
  req'.(Request.HasImages) = req.(Request.HasImages).
Lemma same_turn_refl req : same_turn req req.
Proof. split; reflexivity. Qed.
Lemma same_turn_trans a b c : same_turn a b -> same_turn b c -> same_turn a c.
Proof. intros [A1 A2] [B1 B2]. split; congruence. Qed.

(** The model may be kept on without the user's or the router's say: it is not withdrawn from
    automatic routing and takes the turn's images. *)
Definition may_keep `{GoUnicode} (req : Request.t) (model : string) : Prop :=
  automaticallyDisabled req model = false /\ (req.(Request.HasImages) = true -> AcceptsImages model = true).

Section Facts.
Context `{GoUnicode}.

Lemma may_keep_same req req' m : same_turn req req' -> may_keep req' m -> may_keep req m.
Proof.
  unfold same_turn, may_keep, automaticallyDisabled. intros [E1 E2] [A B]. rewrite E1 in A. rewrite E2 in B. auto.
Qed.
Lemma pinServesImages_true pin req : pinServesImages pin req = true ->
  req.(Request.HasImages) = true -> AcceptsImages pin.(Pin.Model) = true.
Proof. unfold pinServesImages. intros E I. rewrite I in E. exact E. Qed.

(** What the guards ensure of the pin they leave. *)
Definition kept_pin (l : Loop) : Prop := l.(l_found) = true -> may_keep l.(l_req) l.(l_pin).(Pin.Model).

Section Turn.
Context {S : Type} `{PinStore S}.
Variable strat : option string.
Variable ctx : Ctx.
Variable svc : Service.
Variable T : Turn.
Variable route : nat -> Request.t -> PolicyTurnContext -> Decision.t + RouteError.

Lemma adopt_force_same res req pin Q now s :
  (forall o s', o.(err) <> None -> Q s' o) ->
  wp (adopt_force ctx svc T res req pin) Q (fun _ rp => same_turn req rp.1) now (s : S).
Proof.
  intros HQ. unfold adopt_force. destruct (forcedModelBinding _ _ _ _); [apply wp_pass; split; reflexivity|].
  apply wp_stop, HQ. discriminate.
Qed.

(** A pin found after the guards may be kept. *)
Lemma guards_kept hist l : (l.(l_found) = true -> isUserForcedReason l.(l_pin).(Pin.Reason) = false) ->
  kept_pin (guards ctx svc T hist l) /\ same_turn l.(l_req) (guards ctx svc T hist l).(l_req).
Proof.
  intros Hu. unfold guards.
  set (P := fun l' : Loop => same_turn l.(l_req) l'.(l_req) /\
    (l'.(l_found) = true -> automaticallyDisabled l'.(l_req) l'.(l_pin).(Pin.Model) = false)).
  assert (D : forall l', P l' -> P (drop l')).
  { intros l' [P1 _]. split; [exact P1|discriminate]. }
  assert (G1 : P (guard_automatic l)).
  { unfold guard_automatic. destruct l.(l_found) eqn:Ef; cbn [andb].
    - rewrite (Hu eq_refl). cbn [negb andb]. destruct (automaticallyDisabled _ _) eqn:Ea.
      + split; [split; reflexivity|discriminate].
      + split; [split; reflexivity|auto].
    - split; [split; reflexivity|congruence]. }
  assert (X : forall m l', P l' -> P (with_req (exclude_maxed m l'.(l_req)) l')).
  { intros m l' [P1 P2]. split; [exact P1|exact P2]. }
  assert (G2 : P (guard_maxed (guard_automatic l))).
  { unfold guard_maxed. destruct (_ && _)%bool; [apply D, X|]; exact G1. }
  assert (G3 : P (guard_maxed_history hist (guard_maxed (guard_automatic l)))).
  { unfold guard_maxed_history. destruct (String.eqb _ _); [exact G2|apply X, G2]. }
  assert (G4 : P (guard_window ctx svc T (guard_maxed_history hist (guard_maxed (guard_automatic l))))).
  { unfold guard_window. destruct (_ && _)%bool; [|exact G3]. destruct (_ <? _); [apply D, G3|].
    destruct (_ && _)%bool; exact G3. }
  revert G4. generalize (guard_window ctx svc T (guard_maxed_history hist (guard_maxed (guard_automatic l)))) as l4. intros l4 G4.
  assert (G5 : P (guard_subset ctx l4)) by (unfold guard_subset; destruct (_ && _)%bool; [apply D|]; exact G4).
  assert (G6 : P (guard_provider (guard_subset ctx l4))) by (unfold guard_provider; destruct (_ && _)%bool; [apply D|]; exact G5).
  revert G6. generalize (guard_provider (guard_subset ctx l4)) as l6. intros l6 [S6 A6].
  unfold kept_pin, may_keep, guard_evidence, guard_images. destruct l6.(l_found) eqn:Ef; cbn [andb].
  - destruct (l6.(l_req).(Request.HasImages)) eqn:Ei; cbn [andb].
    + destruct (AcceptsImages l6.(l_pin).(Pin.Model)) eqn:Ea; cbn [negb]; [rewrite Ef; cbn; auto|cbn; split; [discriminate|exact S6]].
    + rewrite Ef. cbn. split; [|exact S6]. intros _. split; [apply A6; reflexivity|congruence].
  - rewrite Ef. cbn. rewrite Ef. split; [discriminate|exact S6].
Qed.

(** ** What an automatic turn may be served *)

(** The outcome is an error, the operator's hard pin, the user's force, the router's own pick, a
    fallback after the policy failed, or a model that may be kept on. *)
Definition settled (req : Request.t) (o : TurnOut) : Prop :=
  o.(err) = None -> o.(out).(TurnResult.HardPinned) = false ->
  let d := o.(out).(TurnResult.Decision) in
  isUserForcedReason d.(Decision.Reason) = true \/ d.(Decision.Model) = o.(out).(TurnResult.Fresh).(Decision.Model) \/
  o.(out).(TurnResult.PolicyFallback) = true \/ may_keep req d.(Decision.Model).

Lemma settled_error req r e : settled req (failed r e).
Proof. discriminate. Qed.
Lemma settled_err req o : o.(err) <> None -> settled req o.
Proof. intros N E. contradiction. Qed.
Lemma settled_forced req pin r : settled req (served (forced_result pin r)).
Proof. intros _ _. left. reflexivity. Qed.
Lemma settled_kept req req' tier pin r : same_turn req req' -> may_keep req' pin.(Pin.Model) ->
  settled req (served (sticky_result tier (pinDecision pin) r)).
Proof. intros E K _ _. right; right; right. exact (may_keep_same _ _ _ E K). Qed.
Lemma settled_same req req' o : same_turn req req' -> settled req' o -> settled req o.
Proof.
  intros E K A B. destruct (K A B) as [|[|[|M]]]; [auto..|]. right; right; right. exact (may_keep_same _ _ _ E M).
Qed.

Abbreviation settles req := (fun (_ : S) o => settled req o).
Abbreviation keeps req := (fun (_ : S) l => same_turn req l.(l_req)).

Lemma force_stage_settles req res now s :
  wp (force_stage ctx svc T req res) (settles req) (fun _ rf => same_turn req rf.1) now s.
Proof.
  unfold force_stage. apply wp_then with (R := fun _ _ => True).
  - destruct (negb _).
    + destruct (resolveForceModel _) as [[m p] k]. destruct (negb k); [apply wp_stop, settled_error|apply wp_pass; exact I].
    + apply wp_lift. exact I.
  - intros s' [[pin found] cleared] _. destruct found; [|apply wp_pass, same_turn_refl].
    eapply wp_then; [apply adopt_force_same; intros; apply settled_err; assumption|].
    intros s2 [req' pin'] E. apply wp_pass. exact E.
Qed.
Lemma legacy_force_stage_settles req res f now s :
  wp (legacy_force_stage strat ctx svc T req res f) (settles req) (fun _ rf => same_turn req rf.1) now s.
Proof.
  unfold legacy_force_stage. destruct (_ && _ && _)%bool; [|apply wp_pass, same_turn_refl].
  apply wp_then with (R := fun _ _ => True); [apply wp_lift; exact I|].
  intros s' [pin found] _. destruct (_ && _)%bool; [|apply wp_pass, same_turn_refl].
  eapply wp_then; [apply adopt_force_same; intros; apply settled_err; assumption|].
  intros s2 [req' pin'] E. apply wp_pass. exact E.
Qed.
Lemma forced_hard_stage_settles req res f now s :
  wp (forced_hard_stage strat svc T req res f) (settles req) (fun _ _ => True) now s.
Proof.
  unfold forced_hard_stage. destruct (negb _); [apply wp_pass; exact I|].
  destruct (forcedPinEligible _ _); [|apply wp_pass; exact I].
  apply wp_bind, wp_bind. match goal with |- context [match ?x with (_, _) => _ end] => destruct x as [[a b] c] end.
  destruct (switchHistoryFromPins _) as [prior sw]. apply wp_bind, wp_stop, settled_forced.
Qed.
Lemma hard_stage_settles req res now s : settled req (hard_stage strat svc T req res now s).2.
Proof.
  unfold hard_stage, bind. match goal with |- context [let '(_, _) := ?x in _] => destruct x as [s' o] end.
  destruct (hard_pin_target _ _ _ _) as [[p m]|e]; [intros _ F; discriminate F|apply settled_error].
Qed.
Lemma no_store_stage_settles req res f now (s : S) : settled req (no_store_stage T route req res f now s).2.
Proof.
  unfold no_store_stage. destruct (_ && _)%bool; [apply settled_forced|]. unfold bind, clock_now.
  destruct (route _ _ _) as [d|e]; [|apply settled_error]. intros _ _. right; left. reflexivity.
Qed.

Lemma strike_out_same disabled p req res : same_turn req (strike_out disabled p req res).1.
Proof.
  unfold strike_out. destruct (if String.eqb p "" then _ else _); [apply same_turn_refl|].
  destruct (Request.EnabledProviders req) eqn:E; cbn; split; reflexivity.
Qed.
Lemma load_stage_settles req res f now s :
  wp (load_stage strat ctx svc T req res f) (settles req) (fun _ ld => same_turn req ld.(ld_loop).(l_req)) now s.
Proof.
  unfold load_stage. apply wp_bind, wp_bind. destruct (_ now _).2 as [pin found]. apply wp_bind, wp_bind.
  apply wp_then with (R := fun _ rp => same_turn req rp.1).
  { destruct (_ && _ && _ && _)%bool; [|apply wp_pass, same_turn_refl].
    apply adopt_force_same. intros; apply settled_err; assumption. }
  intros s1 [req1 pin1] E1. cbn [fst] in E1.
  destruct (if (_ && _ && _)%bool then _ else _) as [pin2 found2]. apply wp_bind.
  apply wp_then with (R := fun (_ : S) (_ : Pin.t) => True).
  { destruct (_ && _)%bool; [|apply wp_pass; exact I].
    destruct (forcedModelBinding _ _ _ _); [apply wp_pass; exact I|apply wp_stop, settled_error]. }
  intros s2 pin3 _.
  match goal with |- context [strike_out ?d ?p ?r ?z] => pose proof (strike_out_same d p r z) as E2; destruct (strike_out d p r z) as [req2 res2] end.
  destruct (switchHistoryFromPins _) as [prior sw]. apply wp_pass. exact (same_turn_trans _ _ _ E1 E2).
Qed.

Lemma forced_stage_settles f fh l now s :
  wp (forced_stage strat svc T f fh l) (settles l.(l_req)) (fun _ lf => same_turn l.(l_req) lf.1.(l_req)) now s.
Proof.
  unfold forced_stage. destruct (negb _); [apply wp_pass, same_turn_refl|]. apply wp_bind.
  destruct (_ && _ && _)%bool; [apply wp_bind, wp_stop, settled_forced|].
  apply wp_pass. destruct (_ || _)%bool; destruct (pinServesImages _ _); split; reflexivity.
Qed.
Lemma unpinned_reason reason : isPinnedDecisionReason reason = false -> isUserForcedReason reason = false.
Proof. unfold isPinnedDecisionReason. destruct (isUserForcedReason reason); [discriminate|reflexivity]. Qed.
Lemma pinned_reason_stage_settles floor l now s :
  wp (pinned_reason_stage strat svc T floor l) (settles l.(l_req))
    (fun _ lf => same_turn l.(l_req) lf.1.(l_req) /\
       (lf.1.(l_found) = true -> isUserForcedReason lf.1.(l_pin).(Pin.Reason) = false)) now s.
Proof.
  unfold pinned_reason_stage. destruct (negb (_ && _)%bool) eqn:E.
  { apply wp_pass. split; [apply same_turn_refl|]. cbn. intros F. apply unpinned_reason.
    apply negb_true_iff, andb_false_iff in E as [E|E]; congruence. }
  destruct (_ && _ && _ && _)%bool eqn:K.
  - apply wp_bind, wp_stop. apply andb_prop in K as [K Ki]. apply andb_prop in K as [K _].
    apply andb_prop in K as [_ Ka]. intros _ _. cbn -[isUserForcedReason].
    destruct (isUserForcedReason _); [left; reflexivity|]. right; right; right.
    split; [exact (proj1 (negb_true_iff _) Ka)|exact (pinServesImages_true _ _ Ki)].
  - apply wp_bind, wp_pass. split; [destruct (pinServesImages _ _); split; reflexivity|discriminate].
Qed.
Lemma automaticPinEligible_keep pin req : automaticPinEligible pin req = true -> may_keep req pin.(Pin.Model).
Proof.
  unfold automaticPinEligible, pinEligible. destruct (_ || _)%bool; [discriminate|].
  destruct (in_opt_set _ _); [discriminate|]. destruct (pinServesImages pin req) eqn:E; [|discriminate].
  intros K. apply andb_prop in K as [_ K]. split; [exact (proj1 (negb_true_iff _) K)|exact (pinServesImages_true _ _ E)].
Qed.
Lemma continuation_stage_settles f ld l now s :
  wp (continuation_stage strat T f ld l) (settles l.(l_req)) (fun _ l' => l' = l) now s.
Proof.
  unfold continuation_stage. destruct (if String.eqb _ _ then _ else None) as [c|]; [|apply wp_pass; reflexivity].
  destruct (automaticPinEligible c l.(l_req)) eqn:E; [|apply wp_pass; reflexivity].
  apply wp_bind. destruct (switchHistoryFromPins _) as [prior switched]. apply wp_bind, wp_stop.
  eapply settled_kept; [apply same_turn_refl|exact (automaticPinEligible_keep _ _ E)].
Qed.
Lemma sticky_stage_settles l now s : kept_pin l ->
  wp (sticky_stage strat svc T l) (settles l.(l_req)) (fun _ l' => l' = l) now s.
Proof.
  intros K. unfold sticky_stage. destruct (_ && _ && _ && _)%bool eqn:E.
  - apply wp_bind, wp_stop. bool_hyps. eapply settled_kept; auto using same_turn_refl.
  - clear E. destruct (_ && _ && _)%bool eqn:E; [|apply wp_pass; reflexivity].
    apply wp_bind, wp_stop. bool_hyps. eapply settled_kept; auto using same_turn_refl.
Qed.
Lemma deadline_stage_settles l e now s req :
  wp (deadline_stage strat svc T l e) (settles req) (fun _ _ => True) now s.
Proof.
  unfold deadline_stage. destruct (_ && _)%bool; [|apply wp_stop, settled_error].
  destruct (_ && _)%bool.
  - apply wp_bind, wp_stop. intros _ _. right; right; left. reflexivity.
  - destruct (policyDeadlineDefaultDecision _ _); [|apply wp_stop, settled_error].
    apply wp_bind, wp_stop. intros _ _. right; right; left. reflexivity.
Qed.
Lemma route_stage_settles floor context l now s req :
  wp (route_stage strat svc T route floor context l) (settles req) (fun _ _ => True) now s.
Proof.
  unfold route_stage. cbv zeta.
  assert (U : forall call, wp (match route call l.(l_req) context with
      | inl d => pass d | inr e => deadline_stage strat svc T l e end) (settles req) (fun _ _ => True) now s).
  { intros call. destruct (route call _ _); [apply wp_pass; exact I|apply deadline_stage_settles]. }
  destruct (bool_decide _); [apply U|]. destruct (restrictToTier _ _ _) as [constrained ok].
  destruct (negb ok); [apply U|]. destruct (route 0%nat _ _); [apply wp_pass; exact I|].
  destruct (TurnResult.AuthoritativePerTurn _); [apply wp_stop, settled_error|apply U].
Qed.
Lemma authoritative_stage_settles hist broken fresh l now s : kept_pin l -> l.(l_res).(TurnResult.Fresh) = fresh ->
  wp (authoritative_stage strat svc T hist broken fresh l) (settles l.(l_req)) (fun _ l' => l' = l) now s.
Proof.
  intros K F. unfold authoritative_stage. destruct (negb _); [apply wp_pass; reflexivity|]. apply wp_bind.
  destruct (_ && _)%bool eqn:E; apply wp_bind, wp_stop.
  - bool_hyps. eapply settled_kept; auto using same_turn_refl.
  - intros _ _. right; left. cbn. rewrite F. reflexivity.
Qed.
Lemma hmm_stage_settles hist broken fresh l now s : l.(l_res).(TurnResult.Fresh) = fresh ->
  wp (hmm_stage svc T hist broken fresh l) (settles l.(l_req)) (fun _ l' => l' = l) now (s : S).
Proof.
  intros F. unfold hmm_stage. destruct (negb _); [apply wp_pass; reflexivity|]. apply wp_bind. cbv zeta.
  destruct (hmmCostGatedDecision _ _ _ _ _ _ _ _) as [[[d v] sticky] m] eqn:E. apply wp_stop. intros _ _.
  assert (M : d.(Decision.Model) = fresh.(Decision.Model) \/ may_keep l.(l_req) d.(Decision.Model)).
  { apply gate_cases in E. destruct sticky; [|left; congruence]. right. destruct E as (q & Eq & -> & _).
    destruct (hmmStayPin_sound _ _ _ _ _ _ Eq) as (p & Ep & _). destruct (normalize_sound _ _ _ _ _ Ep) as (Sv & _).
    destruct Sv as (_ & _ & A & _ & I). split; assumption. }
  clear E. rewrite <- F in M. set (held := effortHysteresisHold _ _ _ _). clearbody held.
  destruct (hmmStayPin _ _ _ _ _) as [q|]; destruct (String.eqb held ""), (String.eqb m ""), sticky;
    try destruct (String.eqb (Pin.Model q) m); cbn -[may_keep isUserForcedReason] in *;
    unfold applyPinEvidence; try destruct (IsZero _); cbn -[may_keep isUserForcedReason] in *; tauto.
Qed.
Lemma reanchor_stage_settles broken fresh l now s :
  wp (reanchor_stage strat svc T broken fresh l) (settles l.(l_req)) (fun _ l' => l' = l) now s.
Proof.
  unfold reanchor_stage. destruct (reanchors _ _ _ _) eqn:E; [|apply wp_pass; reflexivity].
  apply wp_bind, wp_stop. eapply settled_kept; [apply same_turn_refl|].
  unfold reanchors in E. repeat (apply andb_prop in E as [E ?]). split; [apply negb_true_iff; assumption|].
  intros I. match goal with X : negb (Request.HasImages _ && _)%bool = true |- _ => rewrite I in X; apply negb_true_iff in X; apply negb_false_iff in X; exact X end.
Qed.
Lemma planner_stage_settles broken fresh l now s : kept_pin l -> l.(l_res).(TurnResult.Fresh) = fresh ->
  settled l.(l_req) (planner_stage strat svc T broken fresh l now s).2.
Proof.
  intros K F. unfold planner_stage, bind, clock_now. cbv beta iota zeta. destruct (negb _).
  { destruct (writeNewPin _ _ _ _ _ _ _) as [s1 r1]. intros _ _. right; left. cbn. rewrite F. reflexivity. }
  destruct (bool_decide _ && _)%bool eqn:E.
  - destruct (refreshPin _ _ _ _ _ _ _ _) as [s1 r1]. apply andb_prop in E as [_ E]. intros _ _. right; right; right.
    cbn -[may_keep]. match goal with |- context [bandSwapServed ?a ?b ?c ?d ?e ?f ?g ?h ?i ?j] =>
      pose proof (bandSwapServed_safe a b c d e f g h i j) as B end.
    cbv zeta in B. destruct B as [B|B]; [rewrite B; exact (K E)|]. destruct B as (_ & I & _ & A & _). split; assumption.
  - destruct (handover_step _ _ _) as [ho summary]. destruct (writeNewPin _ _ _ _ _ _ _) as [s1 r1]. intros _ _.
    right; left. destruct l.(l_found); cbn; rewrite F; reflexivity.
Qed.
Lemma session_stage_settles f broken ld now s :
  wp (session_stage strat ctx svc T route f broken ld) (settles ld.(ld_loop).(l_req))
    (settles ld.(ld_loop).(l_req)) now s.
Proof.
  unfold session_stage. eapply wp_then; [apply forced_stage_settles|]. intros s1 [l1 fl1] E1. cbn in E1.
  eapply wp_then.
  { eapply wp_mono; [apply pinned_reason_stage_settles|intros ? ?; apply settled_same, E1|exact (fun _ _ K => K)]. }
  intros s2 [l2 fl2] [E2 U]. cbn in E2, U.
  destruct (guards_kept ld.(ld_hmmHistory) l2 U) as [K E3]. set (l3 := guards _ _ _ _ l2) in *. clearbody l3.
  pose proof (same_turn_trans _ _ _ E1 (same_turn_trans _ _ _ E2 E3)) as E. clear E1 E2 E3 U.
  assert (M : forall o, settled l3.(l_req) o -> settled ld.(ld_loop).(l_req) o) by (intros o; apply settled_same, E).
  eapply wp_then.
  { eapply wp_mono; [apply continuation_stage_settles|intros ?; exact M|exact (fun _ _ X => X)]. }
  intros s3 l3' ->. eapply wp_then.
  { eapply wp_mono; [apply (sticky_stage_settles _ _ _ K)|intros ?; exact M|exact (fun _ _ X => X)]. }
  intros s4 l4 ->. eapply wp_then; [apply route_stage_settles|]. intros s5 fresh _. cbv zeta.
  remember (with_res (TurnResult.set_Fresh fresh l3.(l_res)) l3) as l eqn:El.
  assert (F : l.(l_res).(TurnResult.Fresh) = fresh) by (subst l; reflexivity).
  assert (Kl : kept_pin l) by (subst l; exact K).
  assert (Ml : forall o, settled l.(l_req) o -> settled ld.(ld_loop).(l_req) o) by (subst l; exact M).
  eapply wp_then.
  { eapply wp_mono; [apply (authoritative_stage_settles _ _ _ _ _ _ Kl F)|intros ?; exact Ml|exact (fun _ _ X => X)]. }
  intros s6 l6 ->. eapply wp_then.
  { eapply wp_mono; [apply (hmm_stage_settles _ _ _ _ _ _ F)|intros ?; exact Ml|exact (fun _ _ X => X)]. }
  intros s7 l7 ->. eapply wp_then.
  { eapply wp_mono; [apply reanchor_stage_settles|intros ?; exact Ml|exact (fun _ _ X => X)]. }
  intros s8 l8 ->. apply wp_lift, Ml, planner_stage_settles; assumption.
Qed.

Lemma turn_settles req now s : settled req (runTurnLoop strat ctx svc T route req now s).2.
Proof.
  unfold runTurnLoop. apply (run_stages_wp _ (settles req)). set (res := initial_result strat svc T). clearbody res.
  eapply wp_then; [apply force_stage_settles|]. intros s1 [req1 f1] E1. cbn [fst] in E1.
  assert (M : forall req', same_turn req1 req' -> forall o, settled req' o -> settled req o).
  { intros req' E o. apply settled_same, (same_turn_trans _ _ _ E1 E). }
  apply wp_then with (R := fun _ rf => same_turn req1 rf.1).
  { destruct (hard_pinned _ _ _); [|apply wp_pass, same_turn_refl].
    eapply wp_mono; [apply legacy_force_stage_settles|intros ?; exact (M _ (same_turn_refl _))|exact (fun _ _ X => X)]. }
  intros s2 [req2 f2] E2. cbn [fst] in E2. specialize (M _ E2). destruct (hard_pinned _ _ _).
  - eapply wp_then.
    { eapply wp_mono; [apply forced_hard_stage_settles|intros ?; exact M|exact (fun _ _ X => X)]. }
    intros s3 res3 _. apply wp_lift, M, hard_stage_settles.
  - destruct (negb _); [apply wp_lift, M, no_store_stage_settles|].
    eapply wp_then.
    { eapply wp_mono; [apply load_stage_settles|intros ?; exact M|exact (fun _ _ X => X)]. }
    intros s3 ld E3. eapply wp_mono; [apply session_stage_settles|..];
      intros ? o So; apply M, (settled_same _ _ _ E3 So).
Qed.

(** ** A force outranks everything else *)

(** The turn is served the forced pin. *)
Definition forced_served (pin : Pin.t) (o : TurnOut) : Prop :=
  o.(err) = None /\ o.(out).(TurnResult.Decision) = Decision.set_Reason ReasonUserForceModel (pinDecision pin).
(** The thread still has a force of its own from before, of a model the policy has excluded since. *)
Definition stale_force (s : S) (now : Z) (role : string) (o : TurnOut) : Prop :=
  exists pin why, (loadPin strat T.(t_threadKey) role now s).2 = (pin, true) /\
    isUserForcedReason pin.(Pin.Reason) = true /\
    forcedModelBinding svc.(svc_gate).(gate_cfg) ctx pin.(Pin.Model) pin.(Pin.Provider) = Err why /\
    o.(err) = Some (TForcedModelExcluded pin.(Pin.Model) why).

Lemma forcedPinEligible_spec pin req : forcedPinEligible pin req = true ->
  pin.(Pin.Provider) <> "" /\ in_opt_set pin.(Pin.Model) req.(Request.ExcludedModels) = false /\
  pinServesImages pin req = true /\ provider_eligible req pin.(Pin.Provider) = true.
Proof.
  unfold forcedPinEligible, pinEligible, provider_eligible.
  destruct (_ || _)%bool eqn:E; [discriminate|]. apply orb_false_iff in E as [_ E]. apply String.eqb_neq in E.
  destruct (in_opt_set _ _); [discriminate|]. destruct (pinServesImages pin req); [|discriminate]. auto.
Qed.
Lemma strike_out_spares disabled pin req res : forcedPinEligible pin req = true ->
  forcedPinEligible pin (strike_out disabled pin.(Pin.Provider) req res).1 = true.
Proof.
  intros E. destruct (forcedPinEligible_spec _ _ E) as (N & _). unfold strike_out.
  rewrite (proj2 (String.eqb_neq _ _) N).
  destruct (List.filter _ disabled) as [|p l] eqn:Ef; [exact E|]. destruct (Request.EnabledProviders req) as [en|] eqn:Ep; [|exact E].
  revert E. unfold forcedPinEligible, pinEligible. cbn. rewrite Ep.
  destruct (_ || _)%bool; [discriminate|]. destruct (in_opt_set _ _); [discriminate|].
  unfold pinServesImages. cbn. destruct (negb _); [discriminate|]. unfold in_set. intros Hp.
  apply bool_decide_eq_true in Hp. apply bool_decide_eq_true, elem_of_difference. split; [exact Hp|].
  change (pin.(Pin.Provider) ∉ (list_to_set (p :: l) : gset string)). rewrite <- Ef. intros D.
  apply elem_of_list_to_set, list_elem_of_In, List.filter_In in D as [_ D]. rewrite String.eqb_refl in D. discriminate D.
Qed.
Lemma load_stage_forced req res f now s : f.(f_found) = true -> forcedPinEligible f.(f_pin) req = true ->
  wp (load_stage strat ctx svc T req res f) (fun _ o => stale_force s now res.(TurnResult.PinRole) o)
    (fun _ ld => forcedPinEligible f.(f_pin) ld.(ld_loop).(l_req) = true) now s.
Proof.
  intros F E. unfold load_stage. rewrite F. cbn [negb andb orb]. apply wp_bind, wp_bind. cbn [clock_now fst snd].
  destruct (loadPin strat _ _ now s).2 as [pin found] eqn:El. cbn [fst snd].
  apply wp_bind, wp_bind.
  eapply wp_then; [apply wp_pass with (R := fun _ rp => rp = (req, pin)); reflexivity|]. intros s1 ? ->.
  destruct (if (f.(f_cleared) && _ && _)%bool then _ else _) as [pin2 found2] eqn:E2. apply wp_bind.
  eapply wp_then.
  { instantiate (1 := fun _ _ => True). destruct (found2 && _)%bool eqn:Eu; [|apply wp_pass; exact I].
    destruct (forcedModelBinding _ _ _ _) as [b|why] eqn:Eb; [apply wp_pass; exact I|]. apply wp_stop.
    apply andb_prop in Eu as [-> Eu]. destruct (_ && _ && _)%bool; injection E2 as ? ?; [discriminate|]. subst.
    exists pin2, why. auto. }
  intros s2 pin3 _.
  match goal with |- context [strike_out ?d ?p ?r ?z] =>
    pose proof (strike_out_spares d f.(f_pin) r z E) as X; destruct (strike_out d p r z) as [req2 res2] end.
  destruct (switchHistoryFromPins _) as [prior sw]. apply wp_pass. exact X.
Qed.
Lemma forced_stage_forced f fh l now s : f.(f_found) = true -> forcedPinEligible f.(f_pin) l.(l_req) = true ->
  wp (forced_stage strat svc T f fh l) (fun _ => forced_served f.(f_pin)) (fun _ _ => False) now s.
Proof.
  intros F E. destruct (forcedPinEligible_spec _ _ E) as (_ & E1 & E2 & E3). unfold forced_stage.
  rewrite F, E1, E2, E3. apply wp_bind, wp_bind, wp_stop. split; reflexivity.
Qed.

(** ** Hard-pinned turns *)

(** The request with the exclusion of a forced model lifted at most. *)
Definition lifted (req req' : Request.t) : Prop := req' = req \/ exists pin, req' = readmit ctx svc T req pin.
(** A pair the operator's configuration gives: enabled and not excluded, or the resolver's answer. *)
Definition hard_target (req : Request.t) (provider model : string) : Prop :=
  provider_eligible req provider = true /\ in_opt_set model req.(Request.ExcludedModels) = false \/
  exists resolve denied, svc.(hardPinResolver) = Some resolve /\
    resolve req.(Request.EnabledProviders) denied = Some (provider, model) /\
    (denied = req.(Request.ExcludedModels) \/
     denied = mergeExcludedModels req.(Request.ExcludedModels) req.(Request.AutomaticExcludedModels)).

Section HardPinned.
(** Reading leaves the store as it is. *)
Hypothesis Get_reads : forall key role now (s : S), (Get key role now s).1 = s.

Lemma loadPin_reads key role now s : (loadPin strat key role now s).1 = s.
Proof.
  pose proof (Get_reads key role now s) as G. unfold loadPin, bind, clock_now, ret.
  destruct (Get key role now s) as [s' [[pin|]|]]; cbn in G; subst; repeat case_match; reflexivity.
Qed.
Lemma loadForce_reads set key now s : (loadForceModelSessionPin set key now s).1 = s.
Proof.
  pose proof (Get_reads key forceModelSessionRole now s) as G. unfold loadForceModelSessionPin, bind, clock_now, ret.
  destruct (negb set); [reflexivity|].
  destruct (Get key _ now s) as [s' [[pin|]|]]; cbn in G; subst; repeat case_match; reflexivity.
Qed.
Lemma adopt_force_lifts (res : TurnResult.t) (req : Request.t) (pin : Pin.t) now s (s0 : S) : s = s0 ->
  wp (adopt_force ctx svc T res req pin) (fun s' o => s' = s0 /\ o.(err) <> None)
    (fun s' rp => s' = s0 /\ lifted req rp.1) now s.
Proof.
  intros ->. unfold adopt_force. destruct (forcedModelBinding _ _ _ _).
  - apply wp_pass. split; [reflexivity|]. right. eexists. reflexivity.
  - apply wp_stop. split; [reflexivity|discriminate].
Qed.
Lemma force_stage_lifts req res now s :
  wp (force_stage ctx svc T req res) (fun s' o => s' = s /\ o.(err) <> None)
    (fun s' rf => s' = s /\ (rf.1 = req /\ rf.2.(f_found) = false \/ rf.2.(f_found) = true /\ lifted req rf.1)) now s.
Proof.
  unfold force_stage. apply wp_then with (R := fun s' _ => s' = s).
  - destruct (negb _).
    + destruct (resolveForceModel _) as [[m p] k]. destruct (negb k); [apply wp_stop|apply wp_pass]; [|reflexivity].
      split; [reflexivity|discriminate].
    + apply wp_lift, loadForce_reads.
  - intros s' [[pin found] cleared] ->. destruct found; [|apply wp_pass; auto].
    eapply wp_then; [apply adopt_force_lifts; reflexivity|].
    intros s2 [req' pin'] [-> L]. apply wp_pass. cbn in *. auto.
Qed.
Lemma legacy_force_stage_lifts req res f now s :
  wp (legacy_force_stage strat ctx svc T req res f) (fun s' o => s' = s /\ o.(err) <> None)
    (fun s' rf => s' = s /\ (rf.1 = req \/ f.(f_found) = false /\ lifted req rf.1)) now s.
Proof.
  unfold legacy_force_stage. destruct f.(f_found) eqn:F; cbn [negb andb]; [rewrite andb_false_r; cbn [andb]; apply wp_pass; auto|].
  destruct (_ && _)%bool; [|apply wp_pass; auto].
  apply wp_then with (R := fun s' _ => s' = s); [apply wp_lift, loadPin_reads|].
  intros s' [pin found] ->. destruct (_ && _)%bool; [|apply wp_pass; auto].
  eapply wp_then; [apply adopt_force_lifts; reflexivity|].
  intros s2 [req' pin'] [-> L]. apply wp_pass. auto.
Qed.
Lemma forced_hard_stage_reads req res f now s :
  wp (forced_hard_stage strat svc T req res f) (fun _ => forced_served f.(f_pin)) (fun s' _ => s' = s) now s.
Proof.
  unfold forced_hard_stage. destruct (negb _); [apply wp_pass; reflexivity|].
  destruct (forcedPinEligible _ _); [|apply wp_pass; reflexivity]. apply wp_bind, wp_bind.
  match goal with |- context [match ?x with (_, _) => _ end] => destruct x as [[a b] c] end.
  destruct (switchHistoryFromPins _) as [prior sw]. apply wp_bind, wp_stop. split; reflexivity.
Qed.
Lemma compactionHardPin_target key role req now s :
  (compactionHardPin strat svc key role req now s).1 = s /\
  forall p m, (compactionHardPin strat svc key role req now s).2 = Some (p, m) -> hard_target req p m.
Proof.
  unfold compactionHardPin. destruct (provider_eligible req ProviderAiand) eqn:E; cbn [negb]; [|split; [reflexivity|discriminate]].
  assert (R : (compactionPreferredSummarizer strat svc key role now s).1 = s).
  { unfold compactionPreferredSummarizer. destruct (negb _); [reflexivity|]. unfold bind.
    pose proof (loadPin_reads key role now s) as L. destruct (loadPin _ _ _ _ _) as [s' [pin active]]. cbn in L. subst.
    destruct (_ || _)%bool; reflexivity. }
  unfold bind. destruct (compactionPreferredSummarizer _ _ _ _ _ _) as [s' m0]. cbn in R. subst s'.
  assert (X : forall m, compaction_eligible svc req m = true -> hard_target req ProviderAiand m).
  { intros m C. left. split; [exact E|]. unfold compaction_eligible in C.
    apply andb_prop in C as [C _]. apply andb_prop in C as [_ C]. apply negb_true_iff, C. }
  destruct (compaction_eligible svc req m0) eqn:E0; [split; [reflexivity|intros p m [= <- <-]; auto]|].
  destruct (compaction_eligible svc req (compactionModelOrDefault svc)) eqn:E1;
    (split; [reflexivity|]); intros p m; [intros [= <- <-]; auto|discriminate].
Qed.
Lemma hard_pin_target_spec req tt c p m : hard_pin_target svc req tt c = inl (p, m) ->
  c = Some (p, m) \/ hard_target req p m.
Proof.
  unfold hard_pin_target. destruct (if (_ && _)%bool then (_, _) else (_, _)) as [provider model].
  destruct c as [pm|]; [intros [= ->]; auto|]. intros E0. right. revert E0.
  destruct (if (_ && _)%bool then None else hardPinResolver _) as [resolve|] eqn:Er.
  - assert (R : hardPinResolver svc = Some resolve) by (destruct (_ && _)%bool; [discriminate|exact Er]).
    destruct (resolve _ _) as [q|] eqn:E; [intros [= ->]; right; eauto 7|].
    destruct (nonempty _); [|discriminate]. destruct (resolve _ req.(Request.ExcludedModels)) as [q|] eqn:E'; [|discriminate].
    intros [= ->]. right. eauto 7.
  - destruct (provider_eligible _ _) eqn:E; [cbn [negb]|discriminate].
    destruct (in_opt_set _ _) eqn:E'; [discriminate|]. intros [= <- <-]. left. auto.
Qed.
Lemma hard_stage_spec req res now s :
  (hard_stage strat svc T req res now s).1 = s /\
  let o := (hard_stage strat svc T req res now s).2 in
  o.(err) <> None \/
  o.(err) = None /\ o.(out).(TurnResult.HardPinned) = true /\
  hard_target req o.(out).(TurnResult.Decision).(Decision.Provider) o.(out).(TurnResult.Decision).(Decision.Model).
Proof.
  unfold hard_stage, bind. destruct (_ && _ && negb _)%bool.
  - destruct (compactionHardPin_target T.(t_threadKey) res.(TurnResult.PinRole) req now s) as [R C].
    destruct (compactionHardPin _ _ _ _ _ _ _) as [s' c]. cbn in R, C. subst s'.
    destruct (hard_pin_target _ _ _ _) as [[p m]|e] eqn:E; (split; [reflexivity|]); [right|left; discriminate].
    split; [reflexivity|]. split; [reflexivity|]. destruct (hard_pin_target_spec _ _ _ _ _ E); auto.
  - unfold ret. destruct (hard_pin_target _ _ _ _) as [[p m]|e] eqn:E; (split; [reflexivity|]); [right|left; discriminate].
    split; [reflexivity|]. split; [reflexivity|]. destruct (hard_pin_target_spec _ _ _ _ _ E); [discriminate|auto].
Qed.
End HardPinned.

(** ** The theorems of the turn *)

(** C1: a turn that ends without an error, whatever the router answers and the session's rows hold,
    is served the operator's hard pin, a model the user forced, the router's own pick, the fallback of a
    router that missed its deadline, or a model that may be kept on: one that is not withdrawn from
    automatic routing and that takes images when the turn carries any. *)
Theorem automatic_turns_servable (req : Request.t) (now : Z) (s : S) (r : TurnResult.t) (summary : option string) :
  (runTurnLoop strat ctx svc T route req now s).2 = {| out := r; err := None; rewritten := summary |} ->
  r.(TurnResult.HardPinned) = true \/ isUserForcedReason r.(TurnResult.Decision).(Decision.Reason) = true \/
  r.(TurnResult.Decision).(Decision.Model) = r.(TurnResult.Fresh).(Decision.Model) \/
  r.(TurnResult.PolicyFallback) = true \/
  (automaticallyDisabled req r.(TurnResult.Decision).(Decision.Model) = false /\
   (req.(Request.HasImages) = true -> AcceptsImages r.(TurnResult.Decision).(Decision.Model) = true)).
Proof.
  intros E. pose proof (turn_settles req now s) as X. rewrite E in X.
  destruct (r.(TurnResult.HardPinned)) eqn:Eh; [auto|]. destruct (X eq_refl Eh) as [?|[?|[?|?]]]; auto.
Qed.

(** C2: a force of the request or of the session that can serve the turn is served, on every kind of
    turn and whatever the router, the gates and the session's other rows say.  The one thing in its way is a
    force the thread still has of its own on a model that the policy has excluded since. *)
Theorem force_wins (req req' : Request.t) (f : ForceState) (now : Z) (s s' : S) :
  force_stage ctx svc T req (initial_result strat svc T) now s = (s', inr (req', f)) ->
  f.(f_found) = true -> forcedPinEligible f.(f_pin) req' = true ->
  let o := (runTurnLoop strat ctx svc T route req now s).2 in
  forced_served f.(f_pin) o \/
  stale_force s' now (initial_result strat svc T).(TurnResult.PinRole) o.
Proof.
  intros Ef F E. set (res := initial_result strat svc T) in *.
  set (Q := fun (_ : S) o => forced_served f.(f_pin) o \/ stale_force s' now res.(TurnResult.PinRole) o).
  cbv zeta. unfold runTurnLoop. fold res. apply (run_stages_wp _ Q).
  eapply wp_then with (R := fun s1 rf => s1 = s' /\ rf = (req', f)); [unfold wp; rewrite Ef; auto|].
  intros s1 rf [-> ->]. destruct (hard_pinned _ _ _).
  - eapply wp_then.
    { unfold legacy_force_stage. rewrite F. cbn [negb andb]. rewrite andb_false_r.
      apply wp_pass with (R := fun _ rf => rf = (req', f)). reflexivity. }
    intros s2 rf ->. eapply wp_then with (R := fun _ _ => False); [|contradiction].
    unfold forced_hard_stage. rewrite F, E. cbn [negb]. apply wp_bind, wp_bind.
    match goal with |- context [match ?x with (_, _) => _ end] => destruct x as [[a b] c] end.
    destruct (switchHistoryFromPins _) as [prior sw]. apply wp_bind, wp_stop. left. split; reflexivity.
  - eapply wp_then with (R := fun s2 rf => s2 = s' /\ rf = (req', f)); [apply wp_pass; auto|].
    intros s2 rf [-> ->]. destruct (negb _).
    + apply wp_lift. unfold no_store_stage. rewrite F, E. left. split; reflexivity.
    + eapply wp_then.
      { eapply wp_mono; [apply (load_stage_forced _ _ _ _ _ F E)|intros ? o X; right; exact X|exact (fun _ _ X => X)]. }
      intros s3 ld X. unfold session_stage. eapply wp_then with (R := fun _ _ => False); [|contradiction].
      eapply wp_mono; [apply (forced_stage_forced _ _ _ _ _ F X)|intros ? o Y; left; exact Y|auto].
Qed.

(** A turn of a hard-pinned kind, over a store whose reads leave it as it is, writes nothing unless
    a forced model serves it: it ends with an error or on the operator's hard pin, which is a provider the
    request enables and a model it does not exclude, or the answer of the operator's resolver for the
    request's own sets. *)
Lemma hard_turn_reads_only (req : Request.t) (now : Z) (s : S) :
  (forall key role now (s : S), (Get key role now s).1 = s) ->
  hard_pinned strat svc (initial_result strat svc T).(TurnResult.turnType) = true ->
  let '(s', o) := runTurnLoop strat ctx svc T route req now s in
  (exists pin, forced_served pin o) \/
  s' = s /\ (o.(err) <> None \/ o.(err) = None /\ o.(out).(TurnResult.HardPinned) = true /\
    exists req', lifted req req' /\
      hard_target req' o.(out).(TurnResult.Decision).(Decision.Provider) o.(out).(TurnResult.Decision).(Decision.Model)).
Proof.
  intros G Hp. set (Q := fun s' o => (exists pin, forced_served pin o) \/ s' = s /\ (o.(err) <> None \/
    o.(err) = None /\ o.(out).(TurnResult.HardPinned) = true /\ exists req', lifted req req' /\
      hard_target req' o.(out).(TurnResult.Decision).(Decision.Provider) o.(out).(TurnResult.Decision).(Decision.Model))).
  assert (Qe : forall s' o, s' = s /\ o.(err) <> None -> Q s' o) by (intros s' o [-> N]; right; auto).
  cut (Q (runTurnLoop strat ctx svc T route req now s).1 (runTurnLoop strat ctx svc T route req now s).2).
  { destruct (runTurnLoop _ _ _ _ _ _ _ _); exact (fun X => X). }
  unfold runTurnLoop. set (res := initial_result strat svc T) in *. apply run_stages_wp. rewrite Hp.
  eapply wp_then.
  { eapply wp_mono; [apply (force_stage_lifts G)|exact Qe|exact (fun _ _ X => X)]. }
  intros s1 [req1 f1] [-> L1]. cbn [fst snd] in L1. eapply wp_then.
  { eapply wp_mono; [apply (legacy_force_stage_lifts G)|exact Qe|exact (fun _ _ X => X)]. }
  intros s2 [req2 f2] [-> L2]. cbn [fst snd] in L2.
  assert (L : lifted req req2).
  { destruct L1 as [[-> F]|[F L1]], L2 as [->|[F2 L2]]; try congruence. left; reflexivity. }
  eapply wp_then.
  { eapply wp_mono; [apply forced_hard_stage_reads|intros ? o X; left; exists f2.(f_pin); exact X|exact (fun _ _ X => X)]. }
  intros s3 res3 ->. apply wp_lift. right. destruct (hard_stage_spec G req2 res3 now s) as [R [N|(E & P & X)]]; eauto 8.
Qed.
End Turn.
End Facts.

(** ** Witnesses *)

Definition quiet_ctx : Ctx :=
  {| ctx_strategy := None; InstallationExcluded := ["moonshotai/kimi-k3"]; InstallationAllowed := [];
     RequestAllowed := None |}.
Definition quiet_svc : Service :=
  {| svc_gate := ex_gate; has_pinStore := true; hardPinProvider := ProviderAiand;
     hardPinModel := "qwen/qwen3.8-27b"; subAgentProvider := ""; subAgentModel := ""; hardPinExplore := false;
     hardPinResolver := None; compactionHardPinEnabled := false; compactionModel := "";
     policyDeadlineFallback := false; policyDeadlineDefaultModel := ""; bandSwap := None; summarizer := None;
     authoritativePerTurnSelection := false; PlannerEnabled := false; ScoreToolResultTurns := true;
     PrefixTrimFreeSwitch := false; AuthoritativeUpgradeGate := false; AuthorityCacheShadowFlag := false;
     EmbedOnlyUserMessage := false |}.
Definition plain_turn (maxTokens : Z) : Turn :=
  {| t_env := {| SourceFormat := FormatAnthropic; RequestsTitleSchema := false; SystemText := "";
                 LastUserText := "fix the test"; FirstUserMessageText := "fix the test"; MetadataUserID := "" |};
     t_feats := {| feat_Model := "claude-sonnet-4-5"; feat_Tokens := 1000; MaxTokens := maxTokens;
                   feat_HasTools := true; MessageCount := 1; LastKind := "text" |};
     t_hint := ""; t_installation := ex_uuid; t_threadKey := ex_skey; t_forceKey := "a-force-key-0000";
     FullTokenEstimate := 1000; ContextOverflowTokenEstimate := 1000; SignatureTokenSavings := 0;
     t_userTurns := 1; t_prefixTrimmed := false; t_betaArtifactHistory := false; t_requiresImages := false;
     t_arms := [] |}.
Definition ask (_ : nat) (_ : Request.t) (_ : PolicyTurnContext) : Decision.t + RouteError :=
  inl (Decision.set_Model "zai-org/glm-5.3" (Decision.set_Provider ProviderAiand Decision.zero)).
Definition the_role : string := (initial_result (H := ascii_unicode) None quiet_svc (plain_turn 1000)).(TurnResult.PinRole).
(** A session pinned to a model. *)
Definition pinned_to (model : string) : Table :=
  {[ (ex_skey, the_role) := Pin.set_Model model (Pin.set_Provider ProviderAiand (Pin.set_Reason "cluster"
       (Pin.set_PinnedUntil (2 * Hour) (Pin.set_Role the_role (Pin.set_SessionKey ex_skey Pin.zero))))) ]}.
Definition run (maxTokens : Z) (req : Request.t) (db : Table) : Table * TurnOut :=
  runTurnLoop (H := ascii_unicode) None quiet_ctx quiet_svc (plain_turn maxTokens) ask req Hour db.

Lemma automatic_turns_servable_witness : exists r,
  (run 1000 Request.zero (pinned_to "qwen/qwen3.8-27b")).2 = {| out := r; err := None; rewritten := None |} /\
  r.(TurnResult.Decision).(Decision.Model) = "qwen/qwen3.8-27b" /\
  automaticallyDisabled Request.zero "qwen/qwen3.8-27b" = false.
Proof.
  set (r := (run 1000 Request.zero (pinned_to "qwen/qwen3.8-27b")).2.(out)).
  assert (E : (run 1000 Request.zero (pinned_to "qwen/qwen3.8-27b")).2 = {| out := r; err := None; rewritten := None |})
    by (vm_compute; reflexivity).
  assert (M : r.(TurnResult.Decision).(Decision.Model) = "qwen/qwen3.8-27b") by (vm_compute; reflexivity).
  exists r. split; [exact E|]. split; [exact M|].
  destruct (automatic_turns_servable (H := ascii_unicode) None quiet_ctx quiet_svc (plain_turn 1000) ask Request.zero Hour
    (pinned_to "qwen/qwen3.8-27b") r None E) as [X|[X|[X|[X|[X _]]]]];
    [vm_compute in X; discriminate X..|rewrite <- M; exact X].
Defined.

Definition force_glm : Request.t := Request.mk "" "zai-org/glm-5.3" "" 0 "" "" false false "" false None None None None None ∅.
Definition forcing : Request.t * ForceState :=
  match (force_stage (H := ascii_unicode) quiet_ctx quiet_svc (plain_turn 1000) force_glm
          (initial_result (H := ascii_unicode) None quiet_svc (plain_turn 1000)) Hour (pinned_to "qwen/qwen3.8-27b")).2 with
  | inr rf => rf
  | inl _ => (Request.zero, {| f_pin := Pin.zero; f_found := false; f_cleared := false; f_session := false |})
  end.
Lemma force_wins_witness :
  (run 1000 force_glm (pinned_to "qwen/qwen3.8-27b")).2.(out).(TurnResult.Decision).(Decision.Model) = "zai-org/glm-5.3".
Proof.
  assert (E : force_stage (H := ascii_unicode) quiet_ctx quiet_svc (plain_turn 1000) force_glm
    (initial_result (H := ascii_unicode) None quiet_svc (plain_turn 1000)) Hour (pinned_to "qwen/qwen3.8-27b") =
    (pinned_to "qwen/qwen3.8-27b", inr (forcing.1, forcing.2))) by (vm_compute; reflexivity).
  assert (F : forcing.2.(f_found) = true) by (vm_compute; reflexivity).
  assert (G : forcedPinEligible (H := ascii_unicode) forcing.2.(f_pin) forcing.1 = true) by (vm_compute; reflexivity).
  assert (M : forcing.2.(f_pin).(Pin.Model) = "zai-org/glm-5.3") by (vm_compute; reflexivity).
  destruct (force_wins (H := ascii_unicode) None quiet_ctx quiet_svc (plain_turn 1000) ask force_glm _ _ Hour _ _ E F G)
    as [[_ D]|(pin & why & L & U & _)].
  - unfold run. rewrite D. exact M.
  - assert (N : isUserForcedReason (loadPin (H := ascii_unicode) None ex_skey the_role Hour
                  (pinned_to "qwen/qwen3.8-27b")).2.1.(Pin.Reason) = false) by (vm_compute; reflexivity).
    unfold the_role in N. cbn [t_threadKey plain_turn] in L. rewrite L in N. cbn [fst] in N. congruence.
Defined.

Lemma hard_turn_reads_only_witness :
  (run 1 Request.zero (pinned_to "zai-org/glm-5.3")).1 = pinned_to "zai-org/glm-5.3" /\
  (run 1 Request.zero (pinned_to "zai-org/glm-5.3")).2.(out).(TurnResult.HardPinned) = true.
Proof.
  assert (G : forall key role now (s : Table), (Get key role now s).1 = s) by reflexivity.
  assert (Hp : hard_pinned None quiet_svc (initial_result (H := ascii_unicode) None quiet_svc (plain_turn 1)).(TurnResult.turnType) = true)
    by (vm_compute; reflexivity).
  pose proof (hard_turn_reads_only (H := ascii_unicode) None quiet_ctx quiet_svc (plain_turn 1) ask Request.zero Hour
    (pinned_to "zai-org/glm-5.3") G Hp) as X.
  fold (run 1 Request.zero (pinned_to "zai-org/glm-5.3")) in X.
  destruct (run 1 Request.zero (pinned_to "zai-org/glm-5.3")) as [s' o] eqn:E.
  destruct X as [[pin [_ D]]|[-> [N|(_ & P & _)]]]; [..|split; [reflexivity|exact P]].
  - apply (f_equal (fun p => p.2.(out).(TurnResult.Decision).(Decision.Reason))) in E. cbn [snd] in E. rewrite D in E.
    vm_compute in E. discriminate E.
  - exfalso. apply N. apply (f_equal (fun p => p.2.(err))) in E. cbn [snd] in E. rewrite <- E. vm_compute. reflexivity.
Defined.

(** A session keeps the model its pin names although the installation excludes it: the guard of the
    window leaves the pin to stand when the exclusion is the policy's. *)
Lemma excluded_pin_stays :
  let req := Request.set_ExcludedModels (excludedModelsForRequest ex_cfg quiet_ctx) Request.zero in
  let o := (run 1000 req (pinned_to "moonshotai/kimi-k3")).2 in
  in_opt_set "moonshotai/kimi-k3" (policyExcludedModels ex_cfg quiet_ctx) = true /\ o.(err) = None /\
  o.(out).(TurnResult.PinTier) = "postgres" /\ o.(out).(TurnResult.Decision).(Decision.Model) = "moonshotai/kimi-k3".
Proof. vm_compute. repeat split; reflexivity. Qed.
