(* ===== verification/ThinkTag.v ===== *)
(** The splitter of inline reasoning: internal/translate/think_tag.go.  It reroutes a leading
    <think>...</think> of a streamed text into thinking segments, delta by delta. *)

From stdpp Require Import base gmap sets list strings.
From Stdlib Require Import ZArith Lia Ascii.
From S2P Require Import Prelude Strings.
Open Scope string_scope.

Inductive thinkSegment := segThinking (text : string) | segText (text : string).
Inductive thinkState := thScanningOpen | thInsideThink | thPassthrough.
Record thinkTagSplitter := { state : thinkState; accum : string; tail : string }.
Definition splitter_init : thinkTagSplitter := {| state := thScanningOpen; accum := ""; tail := "" |}.

Definition thinkOpenTag : string := "<think>".
Definition thinkCloseTag : string := "</think>".
Definition isSpace (b : ascii) : bool :=
  let n := nat_of_ascii b in (Nat.eqb n 32 || Nat.eqb n 9 || Nat.eqb n 10 || Nat.eqb n 13)%bool.

(** [strings.TrimLeft(s, " \t\r\n")]. *)
Fixpoint TrimLeftWS (s : string) : string :=
  match s with
  | EmptyString => ""
  | String b rest => if isSpace b then TrimLeftWS rest else s
  end.
Definition nonempty_seg (mk : string -> thinkSegment) (s : string) : list thinkSegment :=
  if String.eqb s "" then [] else [mk s].
Definition passthrough : thinkTagSplitter := {| state := thPassthrough; accum := ""; tail := "" |}.

(** Inside the block: the rest of a delta in one pass. *)
Definition feed_inside (s : thinkTagSplitter) (content : string) : thinkTagSplitter * list thinkSegment :=
  let combined := s.(tail) +:+ content in
  match Index combined thinkCloseTag with
  | Some idx =>
      ({| state := thPassthrough; accum := s.(accum); tail := "" |},
       (nonempty_seg segThinking (str_take idx combined)
        ++ nonempty_seg segText (str_drop (idx + String.length thinkCloseTag) combined))%list)
  | None =>
      let keep := (String.length thinkCloseTag - 1)%nat in
      let n := String.length combined in
      if Nat.ltb keep n
      then ({| state := s.(state); accum := s.(accum); tail := str_drop (n - keep) combined |},
            [segThinking (str_take (n - keep) combined)])
      else ({| state := s.(state); accum := s.(accum); tail := combined |}, [])
  end.
Fixpoint scan (s : thinkTagSplitter) (content : string) : thinkTagSplitter * list thinkSegment :=
  match content with
  | EmptyString => (s, [])
  | String b rest =>
      match s.(state) with
      | thScanningOpen =>
          if (isSpace b && String.eqb s.(accum) "")%bool then scan s rest
          else
            let cur := s.(accum) +:+ String b "" in
            if String.eqb cur thinkOpenTag
            then scan {| state := thInsideThink; accum := ""; tail := s.(tail) |} rest
            else if HasPrefix thinkOpenTag cur
            then scan {| state := thScanningOpen; accum := cur; tail := s.(tail) |} rest
            else ({| state := thPassthrough; accum := ""; tail := s.(tail) |}, [segText (cur +:+ rest)])
      | _ => feed_inside s content
      end
  end.
Definition Feed (s : thinkTagSplitter) (content : string) : thinkTagSplitter * list thinkSegment :=
  if String.eqb content "" then (s, [])
  else match s.(state) with
       | thPassthrough => (s, [segText content])
       | _ => scan s content
       end.
Definition splitter_Flush (s : thinkTagSplitter) : thinkTagSplitter * list thinkSegment :=
  (passthrough, match s.(state) with
                | thScanningOpen => nonempty_seg segText s.(accum)
                | thInsideThink => nonempty_seg segThinking s.(tail)
                | thPassthrough => []
                end).

(** The deltas of a whole turn and the flush at its end. *)
Fixpoint feed_all (s : thinkTagSplitter) (deltas : list string) : list thinkSegment :=
  match deltas with
  | [] => (splitter_Flush s).2
  | d :: deltas' => let '(s', segs) := Feed s d in (segs ++ feed_all s' deltas')%list
  end.

(** ** What the splitter computes *)

Definition thinking_text (seg : thinkSegment) : string := match seg with segThinking t => t | segText _ => "" end.
Definition visible_text (seg : thinkSegment) : string := match seg with segText t => t | segThinking _ => "" end.
Definition thinking_of (l : list thinkSegment) : string := String.concat "" (thinking_text <$> l).
Definition visible_of (l : list thinkSegment) : string := String.concat "" (visible_text <$> l).

(** What the splitter is for: a leading block is thinking up to its first close tag, or the end, and what follows it is text; a text that does
    not lead with the tag is passed through verbatim. *)
Definition think_reference (whole : string) : string * string :=
  match CutPrefix (TrimLeftWS whole) thinkOpenTag with
  | None => ("", whole)
  | Some body => match Index body thinkCloseTag with
                 | Some i => (str_take i body, str_drop (i + String.length thinkCloseTag) body)
                 | None => (body, "")
                 end
  end.
(** What it computes: a text without the tag has lost its leading blanks too. *)
Definition split_think (whole : string) : string * string :=
  let w := TrimLeftWS whole in
  match CutPrefix w thinkOpenTag with
  | None => ("", w)
  | Some body => match Index body thinkCloseTag with
                 | Some i => (str_take i body, str_drop (i + String.length thinkCloseTag) body)
                 | None => (body, "")
                 end
  end.

Lemma thinking_of_app l m : thinking_of (l ++ m)%list = thinking_of l +:+ thinking_of m.
Proof. unfold thinking_of. rewrite fmap_app, concat_app. reflexivity. Qed.
Lemma visible_of_app l m : visible_of (l ++ m)%list = visible_of l +:+ visible_of m.
Proof. unfold visible_of. rewrite fmap_app, concat_app. reflexivity. Qed.
Lemma thinking_nonempty t : thinking_of (nonempty_seg segThinking t) = t /\ visible_of (nonempty_seg segThinking t) = "".
Proof. unfold nonempty_seg. destruct (String.eqb_spec t "") as [->|]; split; try reflexivity; exact (concat_cons t []). Qed.
Lemma visible_nonempty t : visible_of (nonempty_seg segText t) = t /\ thinking_of (nonempty_seg segText t) = "".
Proof. unfold nonempty_seg. destruct (String.eqb_spec t "") as [->|]; split; reflexivity. Qed.

Lemma TrimLeftWS_app w u : TrimLeftWS (w +:+ u) = if String.eqb (TrimLeftWS w) "" then TrimLeftWS u else TrimLeftWS w +:+ u.
Proof.
  induction w as [|b w IH]; [reflexivity|]. rewrite str_app_cons. cbn [TrimLeftWS].
  destruct (isSpace b); [exact IH|reflexivity].
Qed.

(** No occurrence before [n]: search from there. *)
Lemma Index_skip n s p : (n <= String.length s)%nat -> (forall j, (j < n)%nat -> HasPrefix (str_drop j s) p = false) ->
  Index s p = (fun i => (n + i)%nat) <$> Index (str_drop n s) p.
Proof.
  revert s; induction n as [|n IH]; intros s L N.
  - replace (str_drop 0 s) with s by (destruct s; reflexivity). destruct (Index s p); reflexivity.
  - destruct s as [|a s]; cbn in L; [lia|]. rewrite Index_cons.
    pose proof (N 0%nat ltac:(lia)) as N0. change (HasPrefix (String a s) p = false) in N0. rewrite N0, IH.
    + cbn. destruct (Index (str_drop n s) p); reflexivity.
    + lia.
    + intros j Hj. apply (N (S j)). lia.
Qed.
Lemma Index_straddle th tl c p : Index (th +:+ tl) p = None -> th = "" \/ (String.length p <= S (String.length tl))%nat ->
  Index (th +:+ tl +:+ c) p = (fun i => (String.length th + i)%nat) <$> Index (tl +:+ c) p.
Proof.
  intros N [->|L]; [destruct (Index (tl +:+ c) p) eqn:E; change ("" +:+ tl +:+ c) with (tl +:+ c); rewrite E; reflexivity|].
  rewrite (Index_skip (String.length th)); [rewrite str_drop_app; reflexivity|rewrite str_length_app; lia|].
  intros j Hj. apply not_true_is_false. intros P. rewrite <- str_app_assoc in P.
  rewrite str_drop_app_le in P by (rewrite str_length_app; lia).
  apply HasPrefix_app_inv in P; [|rewrite str_length_drop, str_length_app; lia].
  rewrite (proj1 (Index_none _ _) N) in P by (rewrite str_length_app; lia). discriminate P.
Qed.
Lemma HasPrefix_comparable cur x p : HasPrefix (cur +:+ x) p = true -> (String.length cur <= String.length p)%nat ->
  HasPrefix p cur = true.
Proof.
  revert p; induction cur as [|a cur IH]; intros p P L; [destruct p; reflexivity|].
  destruct p as [|b p]; cbn in L; [lia|]. rewrite str_app_cons in P. cbn in P |- *.
  destruct (Ascii.eqb_spec b a) as [->|]; [|discriminate P]. rewrite Ascii.eqb_refl. apply IH; [exact P|lia].
Qed.

(** ** The splitter follows the reference *)

(** The splitter after the text [w], having emitted [th] and [tx]. *)
Definition splits (s : thinkTagSplitter) (w th tx : string) : Prop :=
  match s.(state) with
  | thScanningOpen => TrimLeftWS w = s.(accum) /\ HasPrefix thinkOpenTag s.(accum) = true /\ s.(accum) <> thinkOpenTag /\
                      s.(tail) = "" /\ th = "" /\ tx = ""
  | thInsideThink => TrimLeftWS w = thinkOpenTag +:+ th +:+ s.(tail) /\ Index (th +:+ s.(tail)) thinkCloseTag = None /\
                     (th = "" \/ (String.length thinkCloseTag <= S (String.length s.(tail)))%nat) /\ tx = ""
  | thPassthrough => forall u, split_think (w +:+ u) = (th, tx +:+ u)
  end.

Lemma CutPrefix_none s p : HasPrefix s p = false -> CutPrefix s p = None.
Proof. unfold CutPrefix. intros ->. reflexivity. Qed.
(** The reference once the open tag is known to be there. *)
Lemma split_open w body : TrimLeftWS w = thinkOpenTag +:+ body ->
  split_think w = match Index body thinkCloseTag with
                  | Some i => (str_take i body, str_drop (i + String.length thinkCloseTag) body)
                  | None => (body, "")
                  end.
Proof. unfold split_think. intros ->. rewrite CutPrefix_app. reflexivity. Qed.
Lemma TrimLeftWS_open w x u : TrimLeftWS w = thinkOpenTag +:+ x -> TrimLeftWS (w +:+ u) = thinkOpenTag +:+ x +:+ u.
Proof. rewrite TrimLeftWS_app. intros ->. rewrite <- str_app_assoc. reflexivity. Qed.

Lemma feed_inside_splits s w th content : s.(state) = thInsideThink -> splits s w th "" ->
  splits (feed_inside s content).1 (w +:+ content) (th +:+ thinking_of (feed_inside s content).2)
    (visible_of (feed_inside s content).2).
Proof.
  intros St. unfold splits at 1. rewrite St. intros (W & N & L & _). unfold feed_inside. rewrite St.
  assert (W' := TrimLeftWS_open _ _ content W). rewrite str_app_assoc in W'.
  assert (I := Index_straddle _ _ content _ N L).
  assert (M : (String.length s.(tail) <= String.length (s.(tail) +:+ content))%nat) by (rewrite str_length_app; lia).
  change (String.length thinkCloseTag) with 8%nat in *. generalize dependent (s.(tail) +:+ content). intros c W' I M.
  destruct (Index c thinkCloseTag) as [idx|] eqn:E; cbn [fst snd].
  - unfold splits. cbn [state]. intros u. rewrite (split_open _ _ (TrimLeftWS_open _ _ u W')).
    rewrite (Index_app_some _ _ u _ I). rewrite thinking_of_app, visible_of_app.
    destruct (thinking_nonempty (str_take idx c)) as [-> ->]. destruct (visible_nonempty (str_drop (idx + 8) c)) as [-> ->].
    pose proof (Index_fits _ _ _ E) as F. rewrite str_app_nil_r, str_app_assoc. change (String.length thinkCloseTag) with 8%nat in F.
    rewrite str_take_app_ge, str_take_app_le by lia. rewrite <- Nat.add_assoc, <- (str_drop_drop (idx + 8) (String.length th)), str_drop_app, str_drop_app_le by lia.
    reflexivity.
  - cbn [fmap option_fmap option_map] in I. destruct (Nat.ltb_spec (8 - 1) (String.length c)) as [K|K];
      cbn [fst snd]; unfold splits; cbn [state tail]; change (String.length thinkCloseTag) with 8%nat.
    + change (thinking_of [segThinking (str_take (String.length c - (8 - 1)) c)]) with (str_take (String.length c - 7) c).
      change (String.length c - (8 - 1))%nat with (String.length c - 7)%nat. rewrite str_app_assoc, str_take_drop.
      split; [exact W'|]. split; [exact I|]. split; [|reflexivity]. right. rewrite str_length_drop. lia.
    + cbn [state]. change (thinking_of []) with "". rewrite str_app_nil_r. split; [exact W'|]. split; [exact I|]. split; [|reflexivity].
      destruct L as [L|L]; [left; exact L|right; lia].
Qed.

Lemma scan_splits content s w th tx : s.(state) <> thPassthrough -> splits s w th tx ->
  splits (scan s content).1 (w +:+ content) (th +:+ thinking_of (scan s content).2) (tx +:+ visible_of (scan s content).2).
Proof.
  revert s w th tx. induction content as [|b rest IH]; intros s w th tx P R.
  { cbn [scan fst snd]. change (thinking_of []) with "". change (visible_of []) with "". rewrite !str_app_nil_r. exact R. }
  cbn [scan]. destruct (state s) eqn:E; [| |congruence].
  2:{ assert (tx = "") as -> by (unfold splits in R; rewrite E in R; apply R). apply feed_inside_splits; assumption. }
  pose proof R as R'. unfold splits in R'. rewrite E in R'. destruct R' as (W & O & NO & T & -> & ->).
  assert (A : w +:+ String b rest = (w +:+ String b "") +:+ rest) by (rewrite str_app_assoc; reflexivity). rewrite A.
  destruct (isSpace b && String.eqb (accum s) "")%bool eqn:SP.
  { apply IH; [congruence|]. unfold splits. rewrite E. apply andb_prop in SP as [Sb Ac]. apply String.eqb_eq in Ac.
    rewrite TrimLeftWS_app, W, Ac. cbn. rewrite Sb. rewrite Ac in *. repeat split; assumption. }
  assert (W1 : TrimLeftWS (w +:+ String b "") = accum s +:+ String b "").
  { rewrite TrimLeftWS_app, W. destruct (String.eqb_spec (accum s) "") as [Ac|]; [|reflexivity].
    rewrite Ac in *. rewrite andb_true_r in SP. cbn. rewrite SP. reflexivity. }
  destruct (String.eqb_spec (accum s +:+ String b "") thinkOpenTag) as [EQ|NE].
  { apply IH; [discriminate|]. unfold splits. cbn [state tail accum]. rewrite W1, EQ, T. repeat split. left. reflexivity. }
  destruct (HasPrefix thinkOpenTag (accum s +:+ String b "")) eqn:HP.
  { apply IH; [discriminate|]. unfold splits. cbn [state tail accum]. repeat split; assumption. }
  cbn [fst snd]. unfold splits. cbn [state]. intros u. unfold split_think.
  rewrite TrimLeftWS_app, TrimLeftWS_app, W1.
  assert (NZ : forall x y, String.eqb (x +:+ String b y) "" = false) by (intros [|? x] ?; reflexivity).
  rewrite NZ. replace (String.eqb _ "") with false by (rewrite str_app_assoc; destruct (accum s); reflexivity).
  rewrite CutPrefix_none; [cbn; reflexivity|].
  apply not_true_is_false. intros Q. rewrite str_app_assoc in Q. apply HasPrefix_comparable in Q; [congruence|].
  apply HasPrefix_spec in O as [r O]. destruct r as [|a r]; [rewrite str_app_nil_r in O; congruence|].
  apply (f_equal String.length) in O. rewrite !str_length_app in O |- *. cbn in *. lia.
Qed.
Lemma Feed_splits s w th tx content : splits s w th tx ->
  splits (Feed s content).1 (w +:+ content) (th +:+ thinking_of (Feed s content).2) (tx +:+ visible_of (Feed s content).2).
Proof.
  intros R. unfold Feed. destruct (String.eqb_spec content "") as [->|].
  { cbn [fst snd]. change (thinking_of []) with "". change (visible_of []) with "". rewrite !str_app_nil_r. exact R. }
  destruct (state s) eqn:E; try (apply scan_splits; [congruence|exact R]).
  cbn [fst snd]. unfold splits in *. rewrite E in *. intros u. rewrite str_app_assoc, R.
  change (thinking_of [segText content]) with "". change (visible_of [segText content]) with content.
  rewrite str_app_nil_r, str_app_assoc. reflexivity.
Qed.
Lemma Flush_splits s w th tx : splits s w th tx ->
  (th +:+ thinking_of (splitter_Flush s).2, tx +:+ visible_of (splitter_Flush s).2) = split_think w.
Proof.
  unfold splits, splitter_Flush. cbn [snd]. destruct (state s).
  - intros (W & O & NO & _ & -> & ->). destruct (visible_nonempty (accum s)) as [-> ->]. unfold split_think. rewrite W.
    rewrite CutPrefix_none; [reflexivity|]. apply not_true_is_false. intros Q. apply NO.
    apply HasPrefix_spec in O as [r O], Q as [r' Q].
    assert (r = "") as ->; [|rewrite str_app_nil_r in O; congruence].
    apply str_length_0. apply (f_equal String.length) in O, Q. rewrite str_length_app in O, Q. lia.
  - intros (W & N & _ & ->). destruct (thinking_nonempty (tail s)) as [-> ->]. rewrite (split_open _ _ W), N. reflexivity.
  - intros P. rewrite <- (str_app_nil_r w), P. change (thinking_of []) with "". change (visible_of []) with "".
    rewrite !str_app_nil_r. reflexivity.
Qed.

Lemma feed_all_splits deltas : (thinking_of (feed_all splitter_init deltas), visible_of (feed_all splitter_init deltas)) = split_think (String.concat "" deltas).
Proof.
  assert (G : forall s w th tx, splits s w th tx ->
    (th +:+ thinking_of (feed_all s deltas), tx +:+ visible_of (feed_all s deltas)) = split_think (w +:+ String.concat "" deltas)).
  { induction deltas as [|d deltas IH]; intros s w th tx R; cbn [feed_all].
    - rewrite str_app_nil_r. apply Flush_splits, R.
    - apply Feed_splits with (content := d) in R. destruct (Feed s d) as [s' segs]. cbn [fst snd] in R.
      rewrite thinking_of_app, visible_of_app, concat_cons, <- !str_app_assoc. apply IH, R. }
  apply (G splitter_init "" "" ""). repeat split; try reflexivity. discriminate.
Qed.
Lemma split_think_reference w : TrimLeftWS w = w \/ HasPrefix (TrimLeftWS w) thinkOpenTag = true -> split_think w = think_reference w.
Proof.
  unfold split_think, think_reference. intros [->|P]; [reflexivity|]. apply HasPrefix_spec in P as [body ->]. rewrite CutPrefix_app. reflexivity.
Qed.

(** C37: however the text of a turn is cut into deltas, the splitter emits the same thinking and the same visible text.  When the text leads with a <think> tag,
    after blanks if any, the thinking is what the tag opens, up to the first close tag or the end, and the visible text what follows; when it starts with
    anything else that is not blank, all of it is visible, verbatim.  (Of a text that starts with blanks and has no tag after them only the first part is
    claimed: such blanks are dropped, see [think_drops_leading_blanks].) *)
Theorem think_split_equivalence (deltas : list string) :
  (forall deltas', String.concat "" deltas' = String.concat "" deltas ->
     thinking_of (feed_all splitter_init deltas') = thinking_of (feed_all splitter_init deltas) /\
     visible_of (feed_all splitter_init deltas') = visible_of (feed_all splitter_init deltas)) /\
  (TrimLeftWS (String.concat "" deltas) = String.concat "" deltas \/ HasPrefix (TrimLeftWS (String.concat "" deltas)) thinkOpenTag = true ->
     (thinking_of (feed_all splitter_init deltas), visible_of (feed_all splitter_init deltas)) = think_reference (String.concat "" deltas)).
Proof.
  split.
  - intros deltas' E. pose proof (feed_all_splits deltas) as A. pose proof (feed_all_splits deltas') as B. rewrite E, <- A in B. injection B as B1 B2. auto.
  - intros L. rewrite feed_all_splits. by apply split_think_reference.
Qed.
Lemma think_split_equivalence_witness :
  (thinking_of (feed_all splitter_init [" <th"; "ink>a</thi"; "nk>b"]), visible_of (feed_all splitter_init [" <th"; "ink>a</thi"; "nk>b"])) = ("a", "b").
Proof. exact (proj2 (think_split_equivalence [" <th"; "ink>a</thi"; "nk>b"]) (or_intror eq_refl)). Defined.

(** A text without a leading tag loses its leading blanks. *)
Lemma think_drops_leading_blanks : visible_of (feed_all splitter_init ["  "; "hi"]) = "hi".
Proof. reflexivity. Qed.
