(* ===== verification/Lifecycle.v ===== *)
(** Per-stream bookkeeping shared by the translating writers: the lifecycle of a translated stream
    (translate/stream_lifecycle.go) and the ledger of its tool calls (translate/tool_call_ledger.go). *)

From stdpp Require Import base gmap sets list strings sorting.
From Stdlib Require Import ZArith Lia Ascii.
From S2P Require Import Prelude Strings.
Open Scope string_scope.
Open Scope Z_scope.

(** ** The lifecycle *)

Inductive StreamState := StreamIdle | StreamStarted | StreamTerminal | StreamFailed | StreamCanceled.
#[export] Instance StreamState_eq_dec : EqDecision StreamState.
Proof. solve_decision. Defined.
Inductive StreamError := ErrStreamIncomplete | ErrStreamEmpty | ErrStreamOrder.
Record StreamLifecycle := { lc_state : StreamState; outputStarted : bool; hasOutputIdx : bool; lastOutputIdx : Z }.

Definition NewStreamLifecycle : StreamLifecycle :=
  {| lc_state := StreamIdle; outputStarted := false; hasOutputIdx := false; lastOutputIdx := 0 |}.
Definition with_state (s : StreamState) (l : StreamLifecycle) : StreamLifecycle :=
  {| lc_state := s; outputStarted := l.(outputStarted); hasOutputIdx := l.(hasOutputIdx); lastOutputIdx := l.(lastOutputIdx) |}.

Definition Start (l : StreamLifecycle) : res StreamError StreamLifecycle :=
  if decide (l.(lc_state) = StreamIdle) then Ok (with_state StreamStarted l) else Err ErrStreamOrder.
Definition Output (index : Z) (l : StreamLifecycle) : res StreamError StreamLifecycle :=
  if decide (l.(lc_state) = StreamStarted) then
    if (l.(hasOutputIdx) && (index <? l.(lastOutputIdx)))%bool then Err ErrStreamOrder
    else Ok {| lc_state := l.(lc_state); outputStarted := true; hasOutputIdx := true; lastOutputIdx := index |}
  else Err ErrStreamOrder.
Definition leave (s : StreamState) (l : StreamLifecycle) : res StreamError StreamLifecycle :=
  if decide (l.(lc_state) = StreamStarted) then Ok (with_state s l) else Err ErrStreamOrder.
Definition Terminal : StreamLifecycle -> res StreamError StreamLifecycle := leave StreamTerminal.
Definition Fail : StreamLifecycle -> res StreamError StreamLifecycle := leave StreamFailed.
Definition Cancel : StreamLifecycle -> res StreamError StreamLifecycle := leave StreamCanceled.
Definition EOF (l : StreamLifecycle) : option StreamError :=
  match l.(lc_state) with
  | StreamTerminal | StreamFailed | StreamCanceled => None
  | StreamIdle => Some ErrStreamEmpty
  | StreamStarted => Some ErrStreamIncomplete
  end.

(** The calls a writer makes; one that is refused leaves the lifecycle as it was. *)
Inductive Call := CStart | COutput (index : Z) | CTerminal | CFail | CCancel.
Definition call (c : Call) : StreamLifecycle -> res StreamError StreamLifecycle :=
  match c with
  | CStart => Start
  | COutput i => Output i
  | CTerminal => Terminal
  | CFail => Fail
  | CCancel => Cancel
  end.
(** The calls that were accepted, in order, and the lifecycle after them. *)
Fixpoint run (l : StreamLifecycle) (cs : list Call) : list Call * StreamLifecycle :=
  match cs with
  | [] => ([], l)
  | c :: cs' => match call c l with
                | Ok l' => let '(acc, l'') := run l' cs' in (c :: acc, l'')
                | Err _ => run l cs'
                end
  end.

(** What a well-behaved stream is: nothing, or one start, outputs at indexes that do not go back, and
    at most one closing call. *)
Definition closing (c : Call) : bool := match c with CTerminal | CFail | CCancel => true | _ => false end.
Definition is_complete (l : list Call) : Prop := exists ix c, StronglySorted Z.le ix /\ closing c = true /\
  l = (CStart :: (COutput <$> ix) ++ [c])%list.
Definition is_open (l : list Call) : Prop := exists ix, StronglySorted Z.le ix /\ l = (CStart :: (COutput <$> ix))%list.

Definition trace_ok (acc : list Call) (l : StreamLifecycle) : Prop :=
  match l.(lc_state) with
  | StreamIdle => acc = [] /\ l.(hasOutputIdx) = false
  | StreamStarted => exists ix, StronglySorted Z.le ix /\ acc = (CStart :: (COutput <$> ix))%list /\
      (if l.(hasOutputIdx) then last ix = Some l.(lastOutputIdx) else ix = [])
  | _ => is_complete acc
  end.

Lemma sorted_snoc (l : list Z) x : StronglySorted Z.le l -> (forall y, last l = Some y -> y <= x) ->
  StronglySorted Z.le (l ++ [x])%list.
Proof.
  induction 1 as [|a l S IH F]; intros L; [repeat constructor|]. cbn. constructor.
  - apply IH. intros y E. apply L. destruct l; [discriminate E|exact E].
  - apply Forall_app. split; [exact F|]. constructor; [|constructor]. destruct l as [|b l]; [apply L; reflexivity|].
    destruct (last (b :: l)) as [y|] eqn:E; [|apply last_None in E; discriminate E].
    apply Forall_forall with (x := y) in F; [|apply last_Some_elem_of, E]. specialize (L y E). lia.
Qed.

Lemma call_trace acc l c l' : trace_ok acc l -> call c l = Ok l' -> trace_ok (acc ++ [c])%list l'.
Proof.
  intros T E. assert (CL : forall s, leave s l = Ok l' -> closing c = true -> s <> StreamIdle -> s <> StreamStarted ->
    trace_ok (acc ++ [c])%list l').
  { intros s. unfold leave. destruct (decide (lc_state l = StreamStarted)) as [S|]; [|discriminate]. intros [= <-] C N1 N2.
    unfold trace_ok in T. rewrite S in T. destruct T as (ix & So & -> & L).
    assert (K : is_complete ((CStart :: (COutput <$> ix)) ++ [c])%list).
    { exists ix, c. split; [exact So|]. split; [exact C|]. reflexivity. }
    unfold trace_ok. destruct s; cbn [with_state lc_state]; try contradiction; exact K. }
  destruct c; cbn [call] in E; try (apply (CL _ E); [reflexivity|discriminate|discriminate]).
  - unfold Start in E. destruct (decide (lc_state l = StreamIdle)) as [S|]; [|discriminate E]. injection E as <-.
    unfold trace_ok in T. rewrite S in T. destruct T as (-> & H1). unfold trace_ok; cbn. exists [].
    rewrite H1. split; [constructor|]. split; reflexivity.
  - unfold Output in E. destruct (decide (lc_state l = StreamStarted)) as [S|]; [|discriminate E].
    destruct (hasOutputIdx l && (index <? lastOutputIdx l))%bool eqn:B; [discriminate E|]. injection E as <-.
    unfold trace_ok in T. rewrite S in T. destruct T as (ix & So & -> & L). unfold trace_ok; cbn. rewrite S.
    exists (ix ++ [index])%list. split; [|split; [rewrite fmap_app; reflexivity|apply last_snoc]].
    apply sorted_snoc; [exact So|]. intros y Y. destruct (hasOutputIdx l); [|subst ix; discriminate Y].
    rewrite L in Y. injection Y as <-. cbn in B. lia.
Qed.
Definition is_output (c : Call) : bool := match c with COutput _ => true | _ => false end.
Lemma call_outputStarted l c l' : call c l = Ok l' -> outputStarted l' = (is_output c || outputStarted l)%bool.
Proof.
  destruct c; cbn [call]; unfold Start, Output, Terminal, Fail, Cancel, leave; case_decide; try discriminate;
    [|destruct (_ && _)%bool; [discriminate|]| | |]; intros [= <-]; reflexivity.
Qed.
Lemma run_trace cs : forall acc l, trace_ok acc l -> outputStarted l = existsb is_output acc ->
  trace_ok (acc ++ (run l cs).1)%list (run l cs).2 /\
  outputStarted (run l cs).2 = existsb is_output (acc ++ (run l cs).1)%list.
Proof.
  induction cs as [|c cs IH]; intros acc l T O; cbn [run]; [cbn; rewrite app_nil_r; split; assumption|].
  destruct (call c l) as [l'|e] eqn:E; [|apply IH; assumption].
  destruct (IH (acc ++ [c])%list l') as [T' O'].
  - exact (call_trace _ _ _ _ T E).
  - rewrite (call_outputStarted _ _ _ E), existsb_app, O. cbn. rewrite orb_false_r. apply orb_comm.
  - destruct (run l' cs) as [acc' l'']. cbn [fst snd] in *. rewrite <- app_assoc in T', O'. split; assumption.
Qed.

(** Whatever calls a writer makes, in whatever order, the ones its lifecycle accepts read as one
    well-formed stream: one start, outputs at indexes that never go back, and at most one closing call, after
    which nothing is accepted; and the end of the upstream is reported as a success exactly when a closing call
    was accepted, as an empty stream exactly when nothing was, and as an incomplete one otherwise. *)
Lemma lifecycle_trace (cs : list Call) :
  let '(accepted, l) := run NewStreamLifecycle cs in
  match EOF l with
  | None => is_complete accepted
  | Some ErrStreamEmpty => accepted = []
  | Some ErrStreamIncomplete => is_open accepted
  | Some ErrStreamOrder => False
  end /\
  (l.(outputStarted) = true <-> exists i, COutput i ∈ accepted).
Proof.
  assert (T0 : trace_ok [] NewStreamLifecycle) by (repeat split).
  destruct (run_trace cs [] _ T0 eq_refl) as [T O]. cbn [app] in T, O.
  destruct (run NewStreamLifecycle cs) as [acc l]. cbn [fst snd] in *. split.
  - unfold EOF, trace_ok, is_open in *. destruct (lc_state l); try apply T. destruct T as (ix & S & -> & _).
    exists ix. split; [exact S|reflexivity].
  - rewrite O, existsb_exists. split.
    + intros ([| i | | |] & Hi & Hc); try discriminate Hc. exists i. apply list_elem_of_In, Hi.
    + intros [i Hi]. exists (COutput i). split; [apply list_elem_of_In, Hi|reflexivity].
Qed.

(** ** The tool-call ledger *)

(** [strconv.FormatUint(n, 36)]: 13 digits are enough for 64 bits. *)
Definition digit36 (d : Z) : ascii := ascii_of_N (Z.to_N (if d <? 10 then 48 + d else 87 + d)).
Fixpoint format36_fuel (fuel : nat) (n : Z) (acc : string) : string :=
  match fuel with
  | O => acc
  | S f => let acc' := String (digit36 (n mod 36)) acc in
           if n <? 36 then acc' else format36_fuel f (n / 36) acc'
  end.
Definition FormatUint36 (n : Z) : string := format36_fuel 13 n "".

Record ToolCallEntry := {
  ExternalID : string; SourceID : string; SourceIndex : Z; Name : string; Arguments : string;
  OutputIndex : Z; Open : bool; Closed : bool; aliases : gset string
}.
Record ToolCallLedger := { entries : gmap Z ToolCallEntry; sourceOwners : gmap string Z; nextID : Z }.
Definition NewToolCallLedger : ToolCallLedger := {| entries := ∅; sourceOwners := ∅; nextID := 0 |}.

Definition router_id : string := "call_router_".
Definition new_entry (index : Z) (sourceID : string) (l : ToolCallLedger) : ToolCallEntry :=
  let claimed := match l.(sourceOwners) !! sourceID with
                 | Some owner => (negb (String.eqb sourceID "") && negb (owner =? index))%bool
                 | None => false
                 end in
  let externalID := if claimed then "" else sourceID in
  {| ExternalID := if String.eqb externalID "" then router_id +:+ FormatUint36 ((l.(nextID) + 1) mod 2 ^ 64) else externalID;
     SourceID := ""; SourceIndex := index; Name := ""; Arguments := ""; OutputIndex := index;
     Open := true; Closed := false; aliases := ∅ |}.
Definition observe (sourceID name : string) (e : ToolCallEntry) : ToolCallEntry :=
  let with_id := negb (String.eqb sourceID "") in
  {| ExternalID := e.(ExternalID);
     SourceID := if (with_id && String.eqb e.(SourceID) "")%bool then sourceID else e.(SourceID);
     SourceIndex := e.(SourceIndex);
     Name := if (negb (String.eqb name "") && String.eqb e.(Name) "")%bool then name else e.(Name);
     Arguments := e.(Arguments); OutputIndex := e.(OutputIndex); Open := e.(Open); Closed := e.(Closed);
     aliases := if with_id then {[ sourceID ]} ∪ e.(aliases) else e.(aliases) |}.

Definition Upsert (index : Z) (sourceID name : string) (l : ToolCallLedger) : ToolCallEntry * ToolCallLedger :=
  let '(entry, next) := match l.(entries) !! index with
                        | Some e => (e, l.(nextID))
                        | None => (new_entry index sourceID l, (l.(nextID) + 1) mod 2 ^ 64)
                        end in
  let entry := observe sourceID name entry in
  let owners := if String.eqb sourceID "" then l.(sourceOwners)
                else match l.(sourceOwners) !! sourceID with
                     | Some _ => l.(sourceOwners)
                     | None => <[sourceID := index]> l.(sourceOwners)
                     end in
  (entry, {| entries := <[index := entry]> l.(entries); sourceOwners := owners; nextID := next |}).
(** The entry is shared: what a caller writes to it is in the ledger. *)
Definition update (index : Z) (f : ToolCallEntry -> ToolCallEntry) (p : ToolCallEntry * ToolCallLedger) : ToolCallEntry * ToolCallLedger :=
  let '(e, l) := p in
  (f e, {| entries := <[index := f e]> l.(entries); sourceOwners := l.(sourceOwners); nextID := l.(nextID) |}).
Definition append_args (arguments : string) (e : ToolCallEntry) : ToolCallEntry :=
  {| ExternalID := e.(ExternalID); SourceID := e.(SourceID); SourceIndex := e.(SourceIndex); Name := e.(Name);
     Arguments := e.(Arguments) +:+ arguments; OutputIndex := e.(OutputIndex); Open := e.(Open); Closed := e.(Closed);
     aliases := e.(aliases) |}.
Definition close_entry (fallbackArguments : string) (e : ToolCallEntry) : ToolCallEntry :=
  {| ExternalID := e.(ExternalID); SourceID := e.(SourceID); SourceIndex := e.(SourceIndex); Name := e.(Name);
     Arguments := if String.eqb e.(Arguments) "" then fallbackArguments else e.(Arguments);
     OutputIndex := e.(OutputIndex); Open := false; Closed := true; aliases := e.(aliases) |}.
Definition AppendArguments (index : Z) (sourceID name arguments : string) (l : ToolCallLedger) : ToolCallEntry * ToolCallLedger :=
  update index (append_args arguments) (Upsert index sourceID name l).
Definition CloseCall (index : Z) (sourceID name fallbackArguments : string) (l : ToolCallLedger) : ToolCallEntry * ToolCallLedger :=
  update index (close_entry fallbackArguments) (Upsert index sourceID name l).
Definition Entry (index : Z) (l : ToolCallLedger) : option ToolCallEntry := l.(entries) !! index.
Definition HasSourceID (e : ToolCallEntry) (id : string) : bool := bool_decide (id ∈ e.(aliases)).

(** A delta of the upstream as the ledger sees it. *)
Inductive ToolDelta :=
| Opened (index : Z) (sourceID name : string)
| Arguing (index : Z) (sourceID name arguments : string)
| Done (index : Z) (sourceID name fallbackArguments : string).
Definition delta_index (d : ToolDelta) : Z := match d with Opened i _ _ | Arguing i _ _ _ | Done i _ _ _ => i end.
Definition delta_id (d : ToolDelta) : string := match d with Opened _ s _ | Arguing _ s _ _ | Done _ s _ _ => s end.
Definition record (l : ToolCallLedger) (d : ToolDelta) : ToolCallLedger :=
  match d with
  | Opened i s n => (Upsert i s n l).2
  | Arguing i s n a => (AppendArguments i s n a l).2
  | Done i s n a => (CloseCall i s n a l).2
  end.
Definition record_all (l : ToolCallLedger) (ds : list ToolDelta) : ToolCallLedger := fold_left record ds l.

(** *** Identifiers *)

Definition undigit36 (a : ascii) : Z := let n := Z.of_N (N_of_ascii a) in if n <? 58 then n - 48 else n - 87.
Fixpoint parse36 (acc : Z) (s : string) : Z :=
  match s with
  | EmptyString => acc
  | String a s' => parse36 (acc * 36 + undigit36 a) s'
  end.
Lemma undigit_digit d : 0 <= d < 36 -> undigit36 (digit36 d) = d.
Proof.
  intros L. unfold undigit36, digit36.
  rewrite N_ascii_embedding by (destruct (d <? 10) eqn:E; lia).
  rewrite Z2N.id by (destruct (d <? 10) eqn:E; lia). destruct (Z.ltb_spec d 10) as [H|H]; [rewrite (proj2 (Z.ltb_lt (48 + d) 58)) by lia|rewrite (proj2 (Z.ltb_ge (87 + d) 58)) by lia]; lia.
Qed.
Lemma parse_format fuel n acc : 0 <= n < 36 ^ Z.of_nat fuel -> parse36 0 (format36_fuel fuel n acc) = parse36 n acc.
Proof.
  revert n acc; induction fuel as [|f IH]; intros n acc L.
  - change (36 ^ Z.of_nat 0) with 1 in L. cbn. replace n with 0 by lia. reflexivity.
  - cbn [format36_fuel]. pose proof (Z.mod_pos_bound n 36 ltac:(lia)) as M. pose proof (Z_div_mod_eq_full n 36) as D.
    destruct (Z.ltb_spec n 36).
    + cbn [parse36]. rewrite undigit_digit, Z.mod_small by lia. reflexivity.
    + rewrite IH; [cbn [parse36]; rewrite undigit_digit by lia; f_equal; lia|].
      rewrite Nat2Z.inj_succ, Z.pow_succ_r in L by lia. split; [apply Z.div_pos; lia|apply Z.div_lt_upper_bound; lia].
Qed.
Lemma FormatUint36_inj m n : 0 <= m < 2 ^ 64 -> 0 <= n < 2 ^ 64 -> FormatUint36 m = FormatUint36 n -> m = n.
Proof.
  intros Lm Ln E. assert (B : 2 ^ 64 < 36 ^ Z.of_nat 13) by reflexivity.
  apply (f_equal (parse36 0)) in E. unfold FormatUint36 in E. rewrite !parse_format in E by lia. exact E.
Qed.

Definition routed (s : string) : Prop := HasPrefix s router_id = true.
(** The ledger after fewer than [bound] deltas, none of which carried an identifier of the router. *)
Record ledger_ok (l : ToolCallLedger) (bound : Z) : Prop := {
  lo_next : 0 <= l.(nextID) <= bound;
  lo_owner : forall i e, l.(entries) !! i = Some e -> routed e.(ExternalID) \/ l.(sourceOwners) !! e.(ExternalID) = Some i;
  lo_owned : forall s i, l.(sourceOwners) !! s = Some i -> ~ routed s /\ s <> "";
  lo_routed : forall i e, l.(entries) !! i = Some e -> routed e.(ExternalID) ->
    exists n, 0 < n <= l.(nextID) /\ e.(ExternalID) = router_id +:+ FormatUint36 n;
  lo_unique : forall i j e f, l.(entries) !! i = Some e -> l.(entries) !! j = Some f ->
    e.(ExternalID) = f.(ExternalID) -> i = j
}.

Definition external (i : Z) (s : string) (l : ToolCallLedger) : string :=
  match l.(entries) !! i with Some e => e.(ExternalID) | None => (new_entry i s l).(ExternalID) end.
Definition next_after (i : Z) (l : ToolCallLedger) : Z :=
  match l.(entries) !! i with Some _ => l.(nextID) | None => (l.(nextID) + 1) mod 2 ^ 64 end.
Definition owners_after (i : Z) (s : string) (l : ToolCallLedger) : gmap string Z :=
  if String.eqb s "" then l.(sourceOwners)
  else match l.(sourceOwners) !! s with Some _ => l.(sourceOwners) | None => <[s := i]> l.(sourceOwners) end.
Lemma record_shape l d : exists e,
  (record l d).(entries) = <[delta_index d := e]> l.(entries) /\
  (record l d).(sourceOwners) = owners_after (delta_index d) (delta_id d) l /\
  (record l d).(nextID) = next_after (delta_index d) l /\
  e.(ExternalID) = external (delta_index d) (delta_id d) l.
Proof.
  unfold owners_after, next_after, external.
  destruct d; cbn [delta_index delta_id record]; unfold AppendArguments, CloseCall, update, Upsert;
    destruct (entries l !! index) as [e0|]; cbn [snd entries sourceOwners nextID];
    rewrite ?insert_insert_eq; eexists; (split; [reflexivity|]); (split; [reflexivity|]); split; reflexivity.
Qed.

Lemma routed_router n : routed (router_id +:+ n).
Proof. apply HasPrefix_spec. exists n. reflexivity. Qed.
Lemma router_id_app_inj m n : router_id +:+ m = router_id +:+ n -> m = n.
Proof. apply str_app_inv_l. Qed.

(** What a call new to the ledger is named. *)
Lemma new_external l i s : ~ routed s -> l.(entries) !! i = None ->
  (exists m, external i s l = router_id +:+ FormatUint36 m /\ m = (l.(nextID) + 1) mod 2 ^ 64) \/
  (external i s l = s /\ s <> "" /\ (l.(sourceOwners) !! s = None \/ l.(sourceOwners) !! s = Some i)).
Proof.
  intros NR N. unfold external. rewrite N. unfold new_entry. cbn [ExternalID].
  destruct (String.eqb_spec s "") as [->|NE].
  - left. exists ((nextID l + 1) mod 2 ^ 64). split; [|reflexivity]. destruct (sourceOwners l !! ""); reflexivity.
  - destruct (sourceOwners l !! s) as [o|] eqn:O; cbn [negb andb].
    + destruct (Z.eqb_spec o i) as [->|]; cbn [negb].
      * right. destruct (String.eqb_spec s ""); [contradiction|]. auto.
      * left. eexists. split; reflexivity.
    + right. destruct (String.eqb_spec s ""); [contradiction|]. auto.
Qed.

Lemma record_ok l d b : ledger_ok l b -> b + 1 < 2 ^ 64 -> ~ routed (delta_id d) -> ledger_ok (record l d) (b + 1).
Proof.
  intros [On Oo Od Or Ou] B NR. destruct (record_shape l d) as (e & E1 & E2 & E3 & E4).
  revert E1 E2 E3 E4 NR. generalize (delta_index d) as i, (delta_id d) as s. intros i s E1 E2 E3 E4 NR.
  assert (NX : nextID l <= next_after i l <= b + 1).
  { unfold next_after. destruct (entries l !! i); [lia|]. rewrite Z.mod_small by lia. lia. }
  (* owners only grow *)
  assert (OG : forall t k, sourceOwners l !! t = Some k -> owners_after i s l !! t = Some k).
  { intros t k T. unfold owners_after. destruct (String.eqb s ""); [exact T|].
    destruct (sourceOwners l !! s) eqn:O; [exact T|]. rewrite lookup_insert_ne by congruence. exact T. }
  assert (OI : sourceOwners l !! s = None \/ sourceOwners l !! s = Some i -> s <> "" -> owners_after i s l !! s = Some i).
  { intros [O|O] NE; [|apply OG, O]. unfold owners_after. rewrite (proj2 (String.eqb_neq _ _) NE), O. apply lookup_insert_eq. }
  assert (EX : routed (external i s l) /\ (entries l !! i = None -> exists m, external i s l = router_id +:+ FormatUint36 m /\ m = next_after i l)
               \/ owners_after i s l !! external i s l = Some i).
  { destruct (entries l !! i) as [e0|] eqn:E0.
    - unfold external. rewrite E0. destruct (Oo _ _ E0) as [R|R]; [left; split; [exact R|discriminate]|right; apply OG, R].
    - destruct (new_external l i s NR E0) as [(m & M & Em)|(-> & NE & O)].
      + left. rewrite M. split; [apply routed_router|]. intros _. exists m. split; [reflexivity|].
        unfold next_after. rewrite E0. exact Em.
      + right. apply OI; assumption. }
  assert (OD : forall t k, owners_after i s l !! t = Some k -> ~ routed t /\ t <> "").
  { intros t k. unfold owners_after. destruct (String.eqb_spec s "") as [|NE]; [apply Od|].
    destruct (sourceOwners l !! s); [apply Od|]. destruct (decide (s = t)) as [->|]; [intros _; split; assumption|].
    rewrite lookup_insert_ne by assumption. apply Od. }
  (* what the touched entry shares an identifier with is itself *)
  assert (UN : forall j f, entries l !! j = Some f -> f.(ExternalID) = external i s l -> j = i).
  { intros j f Hj Ef. destruct (entries l !! i) as [e0|] eqn:E0.
    - unfold external in Ef. rewrite E0 in Ef. exact (Ou _ _ _ _ Hj E0 Ef).
    - destruct EX as [[R EX]|EX].
      + destruct (EX eq_refl) as (m & Em & ->). rewrite Em in Ef.
        destruct (Or _ _ Hj) as (n & Ln & En); [rewrite Ef; apply routed_router|].
        rewrite En in Ef. apply router_id_app_inj, FormatUint36_inj in Ef; [|lia|lia].
        unfold next_after in Ef. rewrite E0, Z.mod_small in Ef by lia. lia.
      + destruct (Oo _ _ Hj) as [R|R]; [rewrite Ef in R; destruct (proj1 (OD _ _ EX) R)|].
        apply OG in R. rewrite Ef in R. congruence. }
  split; rewrite ?E1, ?E2, ?E3.
  - lia.
  - intros j f Hj. apply lookup_insert_Some in Hj as [[<- <-]|[_ Hj]].
    + rewrite E4. destruct EX as [[R _]|R]; [left|right]; exact R.
    + destruct (Oo _ _ Hj) as [R|R]; [left; exact R|right; apply OG, R].
  - exact OD.
  - intros j f Hj R. apply lookup_insert_Some in Hj as [[<- <-]|[_ Hj]].
    + rewrite E4 in *. destruct (entries l !! i) as [e0|] eqn:E0.
      * unfold external in *. rewrite E0 in *. destruct (Or _ _ E0 R) as (n & Ln & En). exists n. split; [lia|exact En].
      * destruct EX as [[_ EX]|EX]; [|destruct (proj1 (OD _ _ EX) R)]. destruct (EX eq_refl) as (m & Em & ->).
        exists (next_after i l). split; [|exact Em]. unfold next_after. rewrite E0, Z.mod_small; lia.
    + destruct (Or _ _ Hj R) as (n & Ln & En). exists n. split; [lia|exact En].
  - intros j k f g Hj Hk Efg. apply lookup_insert_Some in Hj as [[<- <-]|[Nj Hj]], Hk as [[<- <-]|[Nk Hk]].
    + reflexivity.
    + symmetry. apply (UN _ _ Hk). rewrite <- Efg. exact E4.
    + apply (UN _ _ Hj). rewrite Efg. exact E4.
    + exact (Ou _ _ _ _ Hj Hk Efg).
Qed.
Lemma record_all_ok ds : forall l b, ledger_ok l b -> b + Z.of_nat (length ds) < 2 ^ 64 ->
  (forall d, d ∈ ds -> ~ routed (delta_id d)) -> ledger_ok (record_all l ds) (b + Z.of_nat (length ds)).
Proof.
  induction ds as [|d ds IH]; intros l b O B N; cbn [record_all fold_left length] in *.
  - rewrite Z.add_0_r. exact O.
  - rewrite Nat2Z.inj_succ in *. replace (b + Z.succ (Z.of_nat (length ds))) with ((b + 1) + Z.of_nat (length ds)) by lia.
    apply IH; [apply record_ok|lia|].
    + exact O.
    + lia.
    + apply N. left.
    + intros d' Hd. apply N. right. exact Hd.
Qed.
(** An entry of the ledger stays, with its identifier, its name and its aliases, and arguments are only
    appended to it. *)
Definition extends (e e' : ToolCallEntry) : Prop :=
  e'.(ExternalID) = e.(ExternalID) /\ (e.(Name) <> "" -> e'.(Name) = e.(Name)) /\ e.(aliases) ⊆ e'.(aliases) /\
  (e.(Arguments) <> "" -> HasPrefix e'.(Arguments) e.(Arguments) = true).
#[export] Instance extends_preorder : PreOrder extends.
Proof.
  split.
  - intros e. repeat split; trivial. intros _. apply HasPrefix_spec. exists "". rewrite str_app_nil_r. reflexivity.
  - intros e f g (A1 & A2 & A3 & A4) (B1 & B2 & B3 & B4). repeat split; [congruence| |etransitivity; eassumption|].
    + intros N. rewrite B2; [exact (A2 N)|]. rewrite (A2 N). exact N.
    + intros N. specialize (A4 N). apply HasPrefix_spec in A4 as [r R]. assert (Arguments f <> "") as NF.
      { rewrite R. destruct (Arguments e); [contradiction|discriminate]. }
      specialize (B4 NF). apply HasPrefix_spec in B4 as [r' R']. apply HasPrefix_spec. exists (r +:+ r').
      rewrite R', R. apply str_app_assoc.
Qed.
Lemma observe_extends s n e : extends e (observe s n e).
Proof.
  repeat split; cbn.
  - intros N. destruct (String.eqb_spec (Name e) ""); [contradiction|]. rewrite andb_false_r. reflexivity.
  - destruct (negb _); set_solver.
  - intros _. apply HasPrefix_spec. exists "". rewrite str_app_nil_r. reflexivity.
Qed.
Lemma append_extends a e : extends e (append_args a e).
Proof. repeat split; cbn; trivial. intros _. apply HasPrefix_spec. exists a. reflexivity. Qed.
Lemma close_extends a e : extends e (close_entry a e).
Proof.
  repeat split; cbn; trivial. intros N. destruct (String.eqb_spec (Arguments e) ""); [contradiction|].
  apply HasPrefix_spec. exists "". rewrite str_app_nil_r. reflexivity.
Qed.
Lemma record_extends l d i e : Entry i l = Some e -> exists e', Entry i (record l d) = Some e' /\ extends e e'.
Proof.
  unfold Entry. intros E.
  assert (U : forall j s n, exists e', entries (Upsert j s n l).2 !! i = Some e' /\ extends e e' /\
                (j = i -> (Upsert j s n l).1 = e')).
  { intros j s n. unfold Upsert. destruct (decide (j = i)) as [->|NE].
    - rewrite E. cbn [fst snd entries]. exists (observe s n e). rewrite lookup_insert_eq.
      split; [reflexivity|]. split; [apply observe_extends|reflexivity].
    - destruct (entries l !! j); cbn [fst snd entries]; exists e; rewrite lookup_insert_ne by exact NE;
        (split; [exact E|]); (split; [reflexivity|contradiction]). }
  assert (V : forall j s n f, (forall x, extends x (f x)) ->
    exists e', entries (update j f (Upsert j s n l)).2 !! i = Some e' /\ extends e e').
  { intros j s n f F. destruct (U j s n) as (e' & E' & X & Y). unfold update. destruct (Upsert j s n l) as [e1 l1].
    cbn [fst snd entries] in *. destruct (decide (j = i)) as [->|NE].
    - rewrite lookup_insert_eq. exists (f e1). split; [reflexivity|]. rewrite (Y eq_refl). etransitivity; [exact X|apply F].
    - rewrite lookup_insert_ne by exact NE. exists e'. split; assumption. }
  destruct d as [j s n|j s n a|j s n a]; cbn [record].
  - destruct (U j s n) as (e' & E' & X & _). exists e'. split; assumption.
  - apply V. intros x. apply append_extends.
  - apply V. intros x. apply close_extends.
Qed.

(** Over any stream of tool-call deltas that carry no identifier of the router's own form, the
    identifiers the ledger hands to the client are never empty, never shared by two calls, and never change
    once handed out, whatever identifiers, names and arguments arrive later. *)
Lemma ledger_external_ids (ds1 ds2 : list ToolDelta)
  (Hid : forall d, d ∈ (ds1 ++ ds2)%list -> HasPrefix (delta_id d) router_id = false)
  (Hlen : Z.of_nat (length (ds1 ++ ds2)%list) < 2 ^ 64) :
  (forall i e, Entry i (record_all NewToolCallLedger (ds1 ++ ds2)%list) = Some e -> e.(ExternalID) <> "" /\
     forall j f, Entry j (record_all NewToolCallLedger (ds1 ++ ds2)%list) = Some f -> e.(ExternalID) = f.(ExternalID) -> i = j) /\
  (forall i e, Entry i (record_all NewToolCallLedger ds1) = Some e ->
     exists e', Entry i (record_all NewToolCallLedger (ds1 ++ ds2)%list) = Some e' /\ extends e e').
Proof.
  split.
  - assert (O : ledger_ok (record_all NewToolCallLedger (ds1 ++ ds2)%list) (0 + Z.of_nat (length (ds1 ++ ds2)%list))).
    2:{ intros i e E. split; [|intros j f F; apply (lo_unique _ _ O _ _ _ _ E F)]. intros X.
        destruct (lo_owner _ _ O _ _ E) as [R|R]; rewrite X in R; [discriminate R|]. exact (proj2 (lo_owned _ _ O _ _ R) eq_refl). }
    apply record_all_ok; [|exact Hlen|].
    + split; cbn; [lia| | | |]; intros *; rewrite lookup_empty; discriminate.
    + intros d Hd R. unfold routed in R. rewrite (Hid d Hd) in R. discriminate R.
  - unfold record_all. rewrite fold_left_app. generalize (fold_left record ds1 NewToolCallLedger) as l. clear Hid Hlen.
    induction ds2 as [|d ds IH]; intros l i e E; [exists e; split; [exact E|reflexivity]|].
    destruct (record_extends l d i e E) as (e1 & E1 & X1). destruct (IH _ _ _ E1) as (e2 & E2 & X2).
    exists e2. split; [exact E2|]. etransitivity; eassumption.
Qed.

(** ** Witnesses *)

Lemma ledger_external_ids_witness :
  let ds := [Opened 0 "" "Read"; Arguing 1 "c1" "Edit" "{"; Opened 2 "c1" "Bash"; Arguing 1 "late" "" "}"; Done 0 "c0" "" "{}"] in
  (forall d, d ∈ (ds ++ [])%list -> HasPrefix (delta_id d) router_id = false) /\
  (ExternalID <$> Entry 0 (record_all NewToolCallLedger ds), ExternalID <$> Entry 1 (record_all NewToolCallLedger ds),
   ExternalID <$> Entry 2 (record_all NewToolCallLedger ds)) = (Some "call_router_1", Some "c1", Some "call_router_3") /\
  (forall i e, Entry i (record_all NewToolCallLedger ds) = Some e -> e.(ExternalID) <> "" /\
     forall j f, Entry j (record_all NewToolCallLedger ds) = Some f -> e.(ExternalID) = f.(ExternalID) -> i = j).
Proof.
  set (ds := [_; _; _; _; _]).
  assert (H : forall d, d ∈ (ds ++ [])%list -> HasPrefix (delta_id d) router_id = false).
  { intros d Hd. repeat (apply elem_of_cons in Hd as [->|Hd]; [reflexivity|]). apply elem_of_nil in Hd. destruct Hd. }
  split; [exact H|]. split; [vm_compute; reflexivity|]. exact (proj1 (ledger_external_ids ds [] H eq_refl)).
Defined.
