(* ===== verification/ToolIds.v ===== *)
(** Identifiers of translated tool calls: the generated identifiers (translate/ids.go), the signature smuggled in
    one (thought_signature_id.go), the identifier unique to a response (emit_anthropic.go) and the form the OpenAI
    wire takes (emit_openai.go).  The base64 encoding of the standard library is written out. *)

From stdpp Require Import base gmap sets list strings.
From Stdlib Require Import ZArith Lia Ascii.
From S2P Require Import Prelude Strings Sse Hash.
Open Scope string_scope.
Open Scope Z_scope.

(** ** base64.RawURLEncoding *)

Definition b64_char (n : Z) : ascii :=
  bchr (if n <? 26 then 65 + n else if n <? 52 then 71 + n else if n <? 62 then n - 4 else if n =? 62 then 45 else 95).
Definition b64_value (c : ascii) : option Z :=
  let n := bval c in
  if between 65 90 n then Some (n - 65)
  else if between 97 122 n then Some (n - 71)
  else if between 48 57 n then Some (n + 4)
  else if n =? 45 then Some 62
  else if n =? 95 then Some 63 else None.
Fixpoint b64_encode (l : list Z) : list Z :=
  match l with
  | a :: b :: c :: l' => [a / 4; a mod 4 * 16 + b / 16; b mod 16 * 4 + c / 64; c mod 64] ++ b64_encode l'
  | [a; b] => [a / 4; a mod 4 * 16 + b / 16; b mod 16 * 4]
  | [a] => [a / 4; a mod 4 * 16]
  | [] => []
  end%list.
Fixpoint b64_decode (l : list Z) : option (list Z) :=
  match l with
  | a :: b :: c :: d :: l' =>
      (fun r => ([a * 4 + b / 16; b mod 16 * 16 + c / 4; c mod 4 * 64 + d] ++ r)%list) <$> b64_decode l'
  | [a; b; c] => Some [a * 4 + b / 16; b mod 16 * 16 + c / 4]
  | [a; b] => Some [a * 4 + b / 16]
  | [_] => None
  | [] => Some []
  end.
Definition EncodeToString (s : string) : string := String.string_of_list_ascii (b64_char <$> b64_encode (bytes_of s)).
Fixpoint values (l : list ascii) : option (list Z) :=
  match l with
  | [] => Some []
  | c :: l' => match b64_value c, values l' with Some v, Some vs => Some (v :: vs) | _, _ => None end
  end.
(** Line breaks in the text are skipped. *)
Definition DecodeString (s : string) : option string :=
  let l := List.filter (fun c => negb ((bval c =? 10) || (bval c =? 13))%bool) (String.list_ascii_of_string s) in
  match values l with
  | Some vs => of_bytes <$> b64_decode vs
  | None => None
  end.

(** ** Identifiers *)

(** [randomHex n] of the random bytes drawn; [None] when the source of randomness fails. *)
Definition randomHex (n : nat) (drawn : option (list Z)) : string :=
  match drawn with
  | Some l => String.concat "" (hex_byte <$> firstn n l)
  | None => String.string_of_list_ascii (repeat "0"%char (n * 2))
  end.
Definition generateChatCmplID (drawn : option (list Z)) : string := "chatcmpl-" +:+ randomHex 8 drawn.
Definition generateToolCallID (drawn : option (list Z)) : string := "call_" +:+ randomHex 4 drawn.
Definition generateAnthropicMsgID (drawn : option (list Z)) : string := "msg_" +:+ randomHex 8 drawn.

Definition thoughtSignatureIDDelimiter : string := "__thought__".
Definition embedSignatureInID (id sig : string) : string :=
  if (String.eqb sig "" || Contains id thoughtSignatureIDDelimiter)%bool then id
  else id +:+ thoughtSignatureIDDelimiter +:+ EncodeToString sig.
Definition extractSignatureFromID (id : string) : string * string :=
  match Index id thoughtSignatureIDDelimiter with
  | None => (id, "")
  | Some i => match DecodeString (str_drop (i + String.length thoughtSignatureIDDelimiter) id) with
              | Some decoded => (str_take i id, decoded)
              | None => (id, "")
              end
  end.

Definition id_byte (c : ascii) : bool :=
  let n := bval c in
  (between 97 122 n || between 65 90 n || between 48 57 n || (n =? 95) || (n =? 45))%bool.
Fixpoint sanitizeToolUseID (id : string) : string :=
  match id with
  | EmptyString => ""
  | String c id' => String (if id_byte c then c else "_"%char) (sanitizeToolUseID id')
  end.
Definition uniqueSanitizedIDWithNonce (id nonce : string) : string :=
  if String.eqb nonce "" then sanitizeToolUseID id
  else
    let clean := sanitizeToolUseID id in
    if String.eqb clean "" then "toolu_router_" +:+ nonce
    else if HasSuffix clean ("_" +:+ nonce) then clean
    else clean +:+ "_" +:+ nonce.
Definition uniqueToolUseIDWithNonce (id nonce : string) : string :=
  let '(cleanID, sig) := extractSignatureFromID id in
  embedSignatureInID (uniqueSanitizedIDWithNonce cleanID nonce) sig.

Definition maxToolCallIDLen : Z := 64.
Definition clampOpenAIToolCallID (id : string) : string :=
  if String.eqb id "" then id
  else
    let cleanID := sanitizeToolUseID (extractSignatureFromID id).1 in
    if len cleanID <=? maxToolCallIDLen then cleanID else "tc_" +:+ sha1_hex cleanID.

(** ** base64 round trip *)

Definition sextet (z : Z) : Prop := 0 <= z < 64.
Definition octet (z : Z) : Prop := 0 <= z < 256.
Lemma b64_value_char n : sextet n -> b64_value (b64_char n) = Some n /\
  id_byte (b64_char n) = true.
Proof.
  intros [L U]. unfold sextet in *. assert (E : n = Z.of_nat (Z.to_nat n)) by lia. rewrite E. clear E.
  assert (B : (Z.to_nat n < 64)%nat) by lia. revert B. generalize (Z.to_nat n) as m. intros m B.
  do 64 (destruct m as [|m]; [split; reflexivity|]). lia.
Qed.
Lemma b64_encode_sextets l : Forall octet l -> Forall sextet (b64_encode l).
Proof.
  assert (G : forall n m, (length m <= n)%nat -> Forall octet m -> Forall sextet (b64_encode m)).
  { induction n as [|n IH]; intros m L F; [destruct m; [constructor|cbn in L; lia]|].
    destruct m as [|a [|b [|c m]]]; cbn [b64_encode app]; [constructor| | |];
      repeat match goal with H : Forall _ (_ :: _) |- _ => inversion H; subst; clear H end; unfold octet in *;
      repeat (constructor; [unfold sextet; Z.to_euclidean_division_equations; lia|]); [constructor|constructor|].
    apply IH; [cbn in L; lia|assumption]. }
  intros F. exact (G (length l) l (le_n _) F).
Qed.
Lemma b64_decode_encode l : Forall octet l -> b64_decode (b64_encode l) = Some l.
Proof.
  assert (G : forall n m, (length m <= n)%nat -> Forall octet m -> b64_decode (b64_encode m) = Some m).
  { induction n as [|n IH]; intros m L F; [destruct m; [reflexivity|cbn in L; lia]|].
    destruct m as [|a [|b [|c m]]]; cbn [b64_encode app]; [reflexivity| | |];
      repeat match goal with H : Forall _ (_ :: _) |- _ => inversion H; subst; clear H end; unfold octet in *;
      cbn [b64_decode].
    - do 2 f_equal. Z.to_euclidean_division_equations; lia.
    - do 2 f_equal; [|f_equal]; Z.to_euclidean_division_equations; lia.
    - rewrite IH by (cbn in L; lia || assumption). cbn. do 2 f_equal; [|f_equal; [|f_equal]]; Z.to_euclidean_division_equations; lia. }
  intros F. exact (G (length l) l (le_n _) F).
Qed.
Lemma values_chars l : Forall sextet l -> values (b64_char <$> l) = Some l.
Proof. induction 1 as [|n l S _ IH]; [reflexivity|]. cbn. rewrite (proj1 (b64_value_char n S)), IH. reflexivity. Qed.
Lemma string_of_inv l : String.list_ascii_of_string (String.string_of_list_ascii l) = l.
Proof. apply String.list_ascii_of_string_of_list_ascii. Qed.
Lemma DecodeString_Encode s : DecodeString (EncodeToString s) = Some s.
Proof.
  unfold DecodeString, EncodeToString. rewrite string_of_inv.
  pose proof (b64_encode_sextets _ (bytes_of_range s)) as S.
  replace (List.filter _ _) with (b64_char <$> b64_encode (bytes_of s)).
  { rewrite values_chars by exact S. rewrite b64_decode_encode by apply bytes_of_range. cbn. rewrite of_bytes_of. reflexivity. }
  symmetry. induction S as [|n l Sn _ IH]; [reflexivity|]. rewrite fmap_cons. cbn [List.filter].
  replace (negb _) with true; [rewrite IH; reflexivity|].
  destruct (b64_value_char n Sn) as [_ V]. unfold id_byte in V. symmetry. apply negb_true_iff, orb_false_iff.
  split; apply Z.eqb_neq; intros E; rewrite E in V; discriminate V.
Qed.

(** ** Signatures *)

Definition thought : string := "thought".
Lemma Index_thought_delimiter id t : Index id thought = None ->
  Index (id +:+ thoughtSignatureIDDelimiter +:+ t) thoughtSignatureIDDelimiter = Some (String.length id).
Proof.
  intros N. apply Index_some. rewrite str_drop_app. split; [apply HasPrefix_spec; exists t; reflexivity|].
  split; [rewrite str_length_app; lia|]. intros j Hj. apply not_true_is_false. intros P.
  (* the word inside the delimiter would lie in [id], or start on an underscore *)
  assert (W : HasPrefix (str_drop (j + 2) (id +:+ thoughtSignatureIDDelimiter +:+ t)) thought = true).
  { apply HasPrefix_spec in P as [r P]. rewrite <- str_drop_drop, P. apply HasPrefix_spec. exists ("__" +:+ r). reflexivity. }
  destruct (le_lt_dec (j + 2 + 7) (String.length id)) as [L|L].
  - rewrite str_drop_app_le in W by lia. apply HasPrefix_app_inv in W; [|rewrite str_length_drop; cbn; lia].
    rewrite (proj1 (Index_none _ _) N) in W by lia. discriminate W.
  - destruct (le_lt_dec (String.length id) (j + 2)) as [L2|L2].
    + assert (C : (j + 2 = String.length id + 0 \/ j + 2 = String.length id + 1)%nat) by lia.
      destruct C as [C|C]; rewrite C, <- str_drop_drop, str_drop_app in W; discriminate W.
    + assert (B : (String.length id - (j + 2) < 7)%nat) by lia.
      apply (HasPrefix_nth _ _ (String.length id - (j + 2))) in W as E; [|exact B].
      rewrite str_nth_drop in E. replace (j + 2 + (String.length id - (j + 2)))%nat with (String.length id + 0)%nat in E by lia.
      rewrite <- str_nth_drop, str_drop_app in E. cbn [str_nth thoughtSignatureIDDelimiter] in E.
      change (str_nth 0 (thoughtSignatureIDDelimiter +:+ t)) with (Some "_"%char) in E.
      destruct (String.length id - (j + 2))%nat as [|[|[|[|[|[|[|k]]]]]]]; cbn in E; try discriminate E. lia.
Qed.

(** A byte that does not occur in [p] separates its occurrences. *)
Lemma Index_sep s c u p : Index s p = None -> Index (String c u) p = None -> (forall i, str_nth i p <> Some c) ->
  Index (s +:+ String c u) p = None.
Proof.
  intros S U N. apply Index_none. intros j Hj. apply not_true_is_false. intros P. rewrite str_length_app in Hj.
  destruct (le_lt_dec (String.length s) j) as [L|L].
  - replace j with (String.length s + (j - String.length s))%nat in P by lia. rewrite <- str_drop_drop, str_drop_app in P.
    rewrite (proj1 (Index_none _ _) U) in P by lia. discriminate P.
  - destruct (le_lt_dec (j + String.length p) (String.length s)) as [M|M].
    + rewrite str_drop_app_le in P by lia. apply HasPrefix_app_inv in P; [|rewrite str_length_drop; lia].
      rewrite (proj1 (Index_none _ _) S) in P by lia. discriminate P.
    + apply (HasPrefix_nth _ _ (String.length s - j)) in P; [|lia]. rewrite str_nth_drop in P.
      replace (j + (String.length s - j))%nat with (String.length s + 0)%nat in P by lia.
      rewrite <- str_nth_drop, str_drop_app in P. exact (N _ (eq_sym P)).
Qed.
Lemma thought_no_underscore i : str_nth i thought <> Some "_"%char.
Proof. intros E. do 8 (destruct i as [|i]; [discriminate E|]). discriminate E. Qed.
Lemma no_thought_no_delimiter s : Index s thought = None -> Index s thoughtSignatureIDDelimiter = None.
Proof.
  intros N. apply Index_none. intros j Hj. apply not_true_is_false. intros P. apply HasPrefix_length in P as L.
  rewrite str_length_drop in L. cbn in L.
  assert (W : HasPrefix (str_drop (j + 2) s) thought = true).
  { apply HasPrefix_spec in P as [r P]. rewrite <- str_drop_drop, P. apply HasPrefix_spec. exists ("__" +:+ r). reflexivity. }
  rewrite (proj1 (Index_none _ _) N) in W by lia. discriminate W.
Qed.

Definition hex_nonce (s : string) : bool := all_bytes (fun c => between 48 57 (bval c) || between 97 102 (bval c))%bool s.
Lemma hex_no_thought s : hex_nonce s = true -> Index s thought = None.
Proof.
  induction s as [|a s IH]; intros A; [reflexivity|]. unfold hex_nonce in A. cbn in A. apply andb_prop in A as [Aa A].
  rewrite Index_cons. replace (HasPrefix _ _) with false; [rewrite (IH A); reflexivity|].
  symmetry. apply not_true_is_false. intros P. apply HasPrefix_spec in P as [r P]. injection P as -> _. discriminate Aa.
Qed.
Lemma hex_id_bytes s : hex_nonce s = true -> all_bytes id_byte s = true.
Proof.
  apply all_bytes_impl. intros a A. unfold id_byte. apply orb_prop in A as [->|A]; [rewrite !orb_true_r; reflexivity|].
  replace (between 97 122 (bval a)) with true; [reflexivity|]. symmetry. unfold between in *.
  apply andb_prop in A as [L U]. apply andb_true_intro. split; [exact L|]. apply Z.leb_le. apply Z.leb_le in U. lia.
Qed.
Lemma sanitize_bytes s : all_bytes id_byte (sanitizeToolUseID s) = true.
Proof.
  induction s as [|a s IH]; [reflexivity|]. cbn. rewrite IH. destruct (id_byte a) eqn:E; [rewrite E; reflexivity|reflexivity].
Qed.
Lemma sanitize_id s : all_bytes id_byte s = true -> sanitizeToolUseID s = s.
Proof. induction s as [|a s IH]; [reflexivity|]. cbn. intros [-> A]%andb_prop. rewrite (IH A). reflexivity. Qed.
Lemma sanitize_length s : String.length (sanitizeToolUseID s) = String.length s.
Proof. induction s as [|a s IH]; [reflexivity|]. cbn. rewrite IH. reflexivity. Qed.
Lemma sanitize_no_thought s : Index s thought = None -> Index (sanitizeToolUseID s) thought = None.
Proof.
  rewrite !Index_none, sanitize_length. intros N j Hj. specialize (N j Hj). revert s N Hj.
  assert (G : forall p s, all_bytes (fun c => negb (Ascii.eqb c "_")) p = true -> HasPrefix s p = false -> HasPrefix (sanitizeToolUseID s) p = false).
  { induction p as [|b p IH]; intros s A; [destruct s; discriminate|]. cbn in A. apply andb_prop in A as [Ab A]. apply negb_true_iff in Ab.
    destruct s as [|a s]; [trivial|]. cbn. destruct (id_byte a).
    - destruct (Ascii.eqb b a); [apply IH, A|trivial].
    - intros _. destruct (Ascii.eqb_spec b "_") as [->|]; [discriminate Ab|reflexivity]. }
  induction j as [|j IH]; intros s N Hj.
  - replace (str_drop 0 (sanitizeToolUseID s)) with (sanitizeToolUseID s) by (destruct (sanitizeToolUseID s); reflexivity).
    replace (str_drop 0 s) with s in N by (destruct s; reflexivity). apply G; [reflexivity|exact N].
  - destruct s as [|a s]; [exact N|]. cbn in *. apply IH; [exact N|lia].
Qed.

Lemma unique_no_thought id nonce : hex_nonce nonce = true -> Index id thought = None ->
  Index (uniqueSanitizedIDWithNonce id nonce) thought = None.
Proof.
  intros Hn N. apply sanitize_no_thought in N. unfold uniqueSanitizedIDWithNonce.
  assert (U : Index (String "_" nonce) thought = None) by (rewrite Index_cons; cbn [HasPrefix]; rewrite hex_no_thought by exact Hn; reflexivity).
  destruct (String.eqb nonce ""); [exact N|]. destruct (String.eqb _ "").
  - apply (Index_sep "toolu_router" "_" nonce); [reflexivity|exact U|exact thought_no_underscore].
  - destruct (HasSuffix _ _); [exact N|]. apply (Index_sep _ "_" nonce); [exact N|exact U|exact thought_no_underscore].
Qed.
Lemma unique_bytes id nonce : hex_nonce nonce = true -> all_bytes id_byte (uniqueSanitizedIDWithNonce id nonce) = true.
Proof.
  intros Hn%hex_id_bytes. unfold uniqueSanitizedIDWithNonce.
  destruct (String.eqb nonce ""); [apply sanitize_bytes|]. destruct (String.eqb _ ""); [exact Hn|].
  destruct (HasSuffix _ _); [apply sanitize_bytes|]. apply all_bytes_app; [apply sanitize_bytes|exact Hn].
Qed.
Lemma HasSuffix_self s p : HasSuffix (s +:+ p) p = true.
Proof.
  rewrite HasSuffix_app by lia. unfold HasSuffix. rewrite Nat.sub_diag, (proj2 (Nat.leb_le _ _)) by lia.
  replace (str_drop 0 p) with p by (destruct p; reflexivity). apply String.eqb_refl.
Qed.
Lemma unique_idempotent id nonce : hex_nonce nonce = true ->
  uniqueSanitizedIDWithNonce (uniqueSanitizedIDWithNonce id nonce) nonce = uniqueSanitizedIDWithNonce id nonce.
Proof.
  intros Hn. pose proof (unique_bytes id nonce Hn) as B. unfold uniqueSanitizedIDWithNonce at 1. rewrite (sanitize_id _ B).
  unfold uniqueSanitizedIDWithNonce. destruct (String.eqb_spec nonce "") as [|NE]; [reflexivity|].
  destruct (String.eqb_spec (sanitizeToolUseID id) "") as [|NC].
  - cbn [String.eqb]. change ("toolu_router_" +:+ nonce) with ("toolu_router" +:+ ("_" +:+ nonce)). rewrite HasSuffix_self. reflexivity.
  - destruct (HasSuffix (sanitizeToolUseID id) ("_" +:+ nonce)) eqn:S.
    + rewrite S. destruct (String.eqb_spec (sanitizeToolUseID id) ""); [contradiction|reflexivity].
    + rewrite HasSuffix_self. destruct (sanitizeToolUseID id); [contradiction|reflexivity].
Qed.
Lemma extract_embed id sig : Index id thought = None -> extractSignatureFromID (embedSignatureInID id sig) = (id, sig).
Proof.
  intros N. unfold embedSignatureInID, extractSignatureFromID, Contains. rewrite (no_thought_no_delimiter _ N).
  rewrite (bool_decide_eq_false_2 (is_Some None)) by (intros [? X]; discriminate X).
  destruct (String.eqb_spec sig "") as [->|]; cbn [orb]; [rewrite (no_thought_no_delimiter _ N); reflexivity|].
  rewrite Index_thought_delimiter by exact N. rewrite <- str_drop_drop, !str_drop_app, DecodeString_Encode, str_take_app. reflexivity.
Qed.
Lemma EncodeToString_bytes s : all_bytes id_byte (EncodeToString s) = true.
Proof.
  unfold EncodeToString. pose proof (b64_encode_sextets _ (bytes_of_range s)) as S.
  induction S as [|n l Sn _ IH]; [reflexivity|]. cbn in *. rewrite (proj2 (b64_value_char n Sn)). exact IH.
Qed.

(** C38: when an upstream's identifier of a tool call does not itself contain the word of the delimiter, "thought",
    the identifier the translated call gets carries the call's signature through the client and back: extracting
    gives the signature and the identifier without it, whether the upstream's identifier already carried the
    signature or not; it is of the alphabet the Anthropic wire accepts; and making it unique again changes nothing.
    (An identifier with that word may sanitize into the delimiter; then the signature is lost:
    [thought_loses_signature].) *)
Theorem tool_id_roundtrip (id sig nonce : string)
  (Hid : Index id thought = None) (Hnonce : hex_nonce nonce = true) :
  let emitted := embedSignatureInID (uniqueToolUseIDWithNonce id nonce) sig in
  extractSignatureFromID emitted = (uniqueSanitizedIDWithNonce id nonce, sig) /\
  uniqueToolUseIDWithNonce (embedSignatureInID id sig) nonce = emitted /\
  uniqueToolUseIDWithNonce emitted nonce = emitted /\
  all_bytes id_byte emitted = true.
Proof.
  assert (U : forall t, uniqueToolUseIDWithNonce (embedSignatureInID id t) nonce = embedSignatureInID (uniqueSanitizedIDWithNonce id nonce) t).
  { intros t. unfold uniqueToolUseIDWithNonce. rewrite extract_embed by exact Hid. reflexivity. }
  pose proof (U "") as U0. unfold embedSignatureInID in U0. cbn [String.eqb orb] in U0. cbv zeta. rewrite U0, U.
  pose proof (unique_no_thought id nonce Hnonce Hid) as N.
  split; [apply extract_embed, N|]. split; [reflexivity|]. split.
  - unfold uniqueToolUseIDWithNonce. rewrite extract_embed by exact N. rewrite unique_idempotent by exact Hnonce. reflexivity.
  - unfold embedSignatureInID. destruct (_ || _)%bool; [apply unique_bytes, Hnonce|].
    apply all_bytes_app; [apply unique_bytes, Hnonce|]. apply all_bytes_app; [reflexivity|apply EncodeToString_bytes].
Qed.

(** An identifier with the word "thought" may sanitize into the delimiter: the signature is not embedded. *)
Lemma thought_loses_signature :
  let emitted := embedSignatureInID (uniqueToolUseIDWithNonce "a..thought..b" "0c") "sig" in
  emitted = "a__thought__b_0c" /\ extractSignatureFromID emitted <> (uniqueSanitizedIDWithNonce "a..thought..b" "0c", "sig").
Proof. split; [vm_compute; reflexivity|vm_compute; discriminate]. Qed.

(** *** The OpenAI form *)

Lemma hex32_shape z : String.length (hex32 z) = 8%nat /\ all_bytes id_byte (hex32 z) = true.
Proof.
  split; [reflexivity|]. unfold hex32. cbn [List.map String.string_of_list_ascii all_bytes].
  assert (H : forall i, id_byte (hex_digit (Z.shiftr z i mod 16)) = true).
  { intros i. pose proof (Z.mod_pos_bound (Z.shiftr z i) 16 ltac:(lia)) as B. generalize dependent (Z.shiftr z i mod 16). intros n B.
    assert (E : n = Z.of_nat (Z.to_nat n)) by lia. rewrite E. clear E. assert (L : (Z.to_nat n < 16)%nat) by lia.
    revert L. generalize (Z.to_nat n). intros m L. do 16 (destruct m as [|m]; [reflexivity|]). lia. }
  rewrite !H. reflexivity.
Qed.
(** The identifier sent on the OpenAI wire never exceeds 64 bytes, is of the accepted alphabet and does
    not depend on a signature smuggled into it, so a call and its result keep one identifier. *)
Lemma clamp_bounded (id sig : string) (Hid : Index id thought = None) :
  len (clampOpenAIToolCallID id) <= 64 /\ all_bytes id_byte (clampOpenAIToolCallID id) = true /\
  (id <> "" -> clampOpenAIToolCallID (embedSignatureInID id sig) = clampOpenAIToolCallID id).
Proof.
  assert (E0 : extractSignatureFromID id = (id, "")).
  { unfold extractSignatureFromID. rewrite (no_thought_no_delimiter _ Hid). reflexivity. }
  split; [|split].
  - unfold clampOpenAIToolCallID. destruct (String.eqb_spec id "") as [->|]; [vm_compute; discriminate|].
    destruct (Z.leb_spec (len (sanitizeToolUseID (extractSignatureFromID id).1)) maxToolCallIDLen) as [L|_]; [exact L|].
    unfold sha1_hex, len. rewrite !str_length_app, !(proj1 (hex32_shape _)). cbn. lia.
  - unfold clampOpenAIToolCallID. destruct (String.eqb_spec id "") as [->|]; [reflexivity|].
    destruct (_ <=? _); [apply sanitize_bytes|]. apply all_bytes_app; [reflexivity|]. unfold sha1_hex.
    repeat (apply all_bytes_app; [apply hex32_shape|]). apply hex32_shape.
  - intros NE. unfold clampOpenAIToolCallID. rewrite (extract_embed _ _ Hid), E0. cbn [fst].
    destruct (String.eqb_spec id ""); [contradiction|]. destruct (String.eqb_spec (embedSignatureInID id sig) "") as [E|]; [|reflexivity].
    unfold embedSignatureInID in E. destruct (_ || _)%bool; [contradiction|]. destruct id; discriminate E.
Qed.

(** ** Witnesses *)

Lemma tool_id_roundtrip_witness :
  extractSignatureFromID (embedSignatureInID (uniqueToolUseIDWithNonce "functions.Read:0" "0a1b2c") "sig") = ("functions_Read_0_0a1b2c", "sig").
Proof. exact (proj1 (tool_id_roundtrip "functions.Read:0" "sig" "0a1b2c" eq_refl eq_refl)). Defined.
Lemma clamp_bounded_witness :
  clampOpenAIToolCallID "functions.Read:0" = "functions_Read_0" /\
  len (clampOpenAIToolCallID "functions.Read:0") <= 64.
Proof. split; [vm_compute; reflexivity|]. exact (proj1 (clamp_bounded "functions.Read:0" "" eq_refl)). Defined.
