(* ===== verification/Toolcheck.v ===== *)
(** Validation and repair of the arguments of a tool call: internal/translate/toolcheck, with the text
    preview of observability/preview.go that its reports use.  The JSON reader and editor and the schema
    validator are third-party packages: the classes [Gjson], [Sjson] and [JsonSchema].  The validator's strict decoder may refuse what
    the reader accepts, and the validator may panic: two outcomes of their own. *)

From stdpp Require Import base gmap sets list strings.
From Stdlib Require Import ZArith Lia Ascii.
From S2P Require Import Prelude Strings Sse Json.
Open Scope string_scope.
Open Scope Z_scope.

(** ** Minimal repair of malformed JSON (jsonfix.go) *)

Definition isJSONWhitespace (c : ascii) : bool :=
  let n := bval c in ((n =? 32) || (n =? 9) || (n =? 10) || (n =? 13))%bool.
(** [strings.TrimRight(s, " \t\r\n")]. *)
Fixpoint trim_right_ws (l : list ascii) : list ascii :=
  match l with
  | a :: l' => if isJSONWhitespace a then trim_right_ws l' else l
  | [] => []
  end.
Definition TrimRightWS (s : string) : string :=
  String.string_of_list_ascii (rev (trim_right_ws (rev (String.list_ascii_of_string s)))).

Definition fence : string := "```".
Definition stripMarkdownFence (s : string) : string * bool :=
  match CutPrefix s fence with
  | None => (s, false)
  | Some body =>
      let body := match Index body LF with Some nl => str_drop (S nl) body | None => body end in
      (TrimSpace (TrimSuffix (TrimSpace body) fence), true)
  end.

(** The state of the scan: [b] holds the bytes read. *)
Record Balance := {
  stack : list ascii;       (** innermost first *)
  inString : bool;
  escaped : bool;
  expectKey : bool;
  stringIsKey : bool;
  lastComplete : option nat;
  b : string
}.
Definition balance_start : Balance :=
  {| stack := []; inString := false; escaped := false; expectKey := false; stringIsKey := false;
     lastComplete := None; b := "" |}.
Definition push_byte (c : ascii) (t : Balance) : Balance :=
  {| stack := t.(stack); inString := t.(inString); escaped := t.(escaped); expectKey := t.(expectKey);
     stringIsKey := t.(stringIsKey); lastComplete := t.(lastComplete); b := t.(b) +:+ String c "" |}.
Definition completed (t : Balance) : Balance :=
  {| stack := t.(stack); inString := t.(inString); escaped := t.(escaped); expectKey := t.(expectKey);
     stringIsKey := t.(stringIsKey); lastComplete := Some (String.length t.(b)); b := t.(b) |}.
Definition with_escaped (e : bool) (t : Balance) : Balance :=
  {| stack := t.(stack); inString := t.(inString); escaped := e; expectKey := t.(expectKey);
     stringIsKey := t.(stringIsKey); lastComplete := t.(lastComplete); b := t.(b) |}.
Definition with_string (i k : bool) (t : Balance) : Balance :=
  {| stack := t.(stack); inString := i; escaped := t.(escaped); expectKey := t.(expectKey);
     stringIsKey := k; lastComplete := t.(lastComplete); b := t.(b) |}.
Definition with_scope (st : list ascii) (k : bool) (t : Balance) : Balance :=
  {| stack := st; inString := t.(inString); escaped := t.(escaped); expectKey := k;
     stringIsKey := t.(stringIsKey); lastComplete := t.(lastComplete); b := t.(b) |}.

Definition quote : ascii := bchr 34.
Definition backslash : ascii := bchr 92.
Definition in_string_byte (c : ascii) (t : Balance) : Balance :=
  let t := push_byte c t in
  if t.(escaped) then with_escaped false t
  else if Ascii.eqb c backslash then with_escaped true t
  else if Ascii.eqb c quote then
    let t := with_string false t.(stringIsKey) t in
    if negb t.(stringIsKey) then completed t else t
  else t.

(** One byte outside a string: mismatched closer, top-level value closed, or on. *)
Inductive step_result := Mismatch | TopClosed (t : Balance) | Goes (t : Balance).
Definition opens (a : ascii) (st : list ascii) : bool :=
  match st with x :: _ => Ascii.eqb x a | [] => false end.
Definition balance_byte (c : ascii) (t : Balance) : step_result :=
  if t.(inString) then Goes (in_string_byte c t)
  else if Ascii.eqb c quote then Goes (push_byte c (with_string true t.(expectKey) t))
  else if Ascii.eqb c "{" then Goes (push_byte c (with_scope (c :: t.(stack)) true t))
  else if Ascii.eqb c "[" then Goes (push_byte c (with_scope (c :: t.(stack)) false t))
  else if Ascii.eqb c ":" then Goes (push_byte c (with_scope t.(stack) false t))
  else if Ascii.eqb c "," then Goes (push_byte c (with_scope t.(stack) (opens "{" t.(stack)) t))
  else if (Ascii.eqb c "}" || Ascii.eqb c "]")%bool then
    let want := if Ascii.eqb c "]" then "["%char else "{"%char in
    if negb (opens want t.(stack)) then Mismatch
    else
      let t := completed (push_byte c (with_scope (tl t.(stack)) false t)) in
      match t.(stack) with [] => TopClosed t | _ => Goes t end
  else
    let t := push_byte c t in
    if isJSONWhitespace c then Goes t else Goes (completed t).

(** The whole scan, with what is left when the top-level value closes. *)
Inductive scan_result := SMismatch | SClosed (t : Balance) (rest : string) | SEnd (t : Balance).
Fixpoint scan (t : Balance) (s : string) : scan_result :=
  match s with
  | EmptyString => SEnd t
  | String c s' => match balance_byte c t with
                   | Mismatch => SMismatch
                   | TopClosed t' => SClosed t' s'
                   | Goes t' => scan t' s'
                   end
  end.

(** The loop that drops commas left at the end: each turn takes at least one byte. *)
Fixpoint drop_commas (fuel : nat) (out : string) : string * list string :=
  match fuel with
  | O => (out, [])
  | S f =>
      let trimmed := TrimRightWS out in
      if HasSuffix trimmed "," then
        let '(o, acts) := drop_commas f (str_take (String.length trimmed - 1) trimmed) in
        (o, "json_repair_drop_trailing_comma" :: acts)
      else (out, [])
  end.
Definition closer (a : ascii) : ascii := if Ascii.eqb a "{" then "}"%char else "]"%char.
Definition close_all (st : list ascii) : string := String.string_of_list_ascii (closer <$> st).

(** What is kept of a truncated text, and how it was cut. *)
Definition cut_back (t : Balance) : option (string * list string) :=
  let '(out, acts, last) :=
    if (t.(inString) && negb t.(stringIsKey))%bool
    then let out := t.(b) +:+ String quote "" in (out, ["json_repair_close_string"], Some (String.length out))
    else (t.(b), [], t.(lastComplete)) in
  match last with
  | None => None
  | Some n =>
      let '(out, acts) := if Nat.ltb n (String.length out)
                          then (str_take n out, (acts ++ ["json_repair_drop_partial_member"])%list)
                          else (out, acts) in
      let '(out, acts') := drop_commas (S (String.length out)) out in
      Some (out, (acts ++ acts')%list)
  end.
Definition balanceJSON (s : string) : string * list string :=
  match scan balance_start s with
  | SMismatch => ("", [])
  | SClosed t rest => (t.(b), if String.eqb (TrimSpace rest) "" then [] else ["json_repair_strip_trailing"])
  | SEnd t =>
      if (match t.(stack) with [] => true | _ => false end && negb t.(inString))%bool then ("", [])
      else match cut_back t with
           | None => ("", [])
           | Some (out, acts) => (out +:+ close_all t.(stack), (acts ++ ["json_repair_close_brackets"])%list)
           end
  end.

Definition maxArgsBytes : Z := 4 * 1024 * 1024.
Definition repairJSON (raw : string) : string * list string :=
  if maxArgsBytes <? len raw then ("", [])
  else
    let out := TrimSpace raw in
    let '(stripped, ok) := stripMarkdownFence out in
    let '(out, actions) := if ok then (stripped, ["json_repair_strip_fence"]) else (out, []) in
    if (negb (HasPrefix out "{") && negb (HasPrefix out "["))%bool then ("", [])
    else
      let '(balanced, balActions) := balanceJSON out in
      let '(out, actions) := match balActions with
                             | [] => (out, actions)
                             | _ => (balanced, (actions ++ balActions)%list)
                             end in
      match actions with [] => ("", []) | _ => (out, actions) end.

(** ** The schema validator (santhosh-tekuri/jsonschema) *)

(** The kinds of error the repair looks at. *)
Inductive ErrorKind := AdditionalProperties (props : list string) | TypeMismatch (want : list string) | OtherKind.
Inductive ValidationError := VError (location : list string) (kind : ErrorKind) (message : string) (causes : list ValidationError).
(** What [validate] gives: a validation error or another one. *)
Inductive CheckError := SchemaErr (e : ValidationError) | OtherErr (message : string).
(** Decoding a text and validating it: the strict decoder refuses it, the validator panics, or it answers. *)
Inductive Outcome := Undecodable | Panicked | Checked (e : option CheckError).
Class JsonSchema := {
  Schema : Type;
  compile_schema : string -> option Schema;          (** from the text of the schema; [None] on an error or panic *)
  schema_run : Schema -> string -> Outcome
}.
(** [validate]: a text the decoder refuses and a panic count as no error. *)
Definition validate `{JsonSchema} (schema : Schema) (args : string) : option CheckError :=
  match schema_run schema args with Checked e => e | Undecodable | Panicked => None end.

(** ** Text previews (observability/preview.go) *)

Definition ellipsis : string := utf8 [226; 128; 166]%nat.
(** [utf8.DecodeLastRuneInString]: a rune starts at most three bytes before the last one. *)
Definition rune_start (a : ascii) : bool := negb ((Z.land (bval a) 192) =? 128).
Definition rune_at (s : string) (i : nat) : Z * nat :=
  match str_drop i s with
  | String a r => let '(x, n) := decode_rune a r in (x, S n)
  | EmptyString => (RuneError, 0%nat)
  end.
Fixpoint last_start (k : nat) (s : string) (i : nat) : option nat :=
  match k with
  | O => None
  | S k' => match str_nth i s with
            | Some a => if rune_start a then Some i
                        else match i with O => None | S i' => last_start k' s i' end
            | None => None
            end
  end.
Definition DecodeLastRune (s : string) : Z * nat :=
  let n := String.length s in
  match n with
  | O => (RuneError, 0%nat)
  | S m =>
      match str_nth m s with
      | Some a => if bval a <? 128 then (bval a, 1%nat)
                  else match (match m with O => None | S m' => last_start 3 s m' end) with
                       | Some i => let '(r, k) := rune_at s i in
                                   if Nat.eqb (i + k) n then (r, k) else (RuneError, 1%nat)
                       | None => (RuneError, 1%nat)
                       end
      | None => (RuneError, 0%nat)
      end
  end.
Fixpoint trim_runes (fuel : nat) (s : string) : string :=
  match fuel with
  | O => s
  | S f =>
      match s with
      | EmptyString => ""
      | _ => let '(r, size) := DecodeLastRune s in
             if (negb (r =? RuneError) || negb (Nat.eqb size 1))%bool then s
             else trim_runes f (str_take (String.length s - 1) s)
      end
  end.
Definition trimToRuneBoundary (s : string) : string := trim_runes (String.length s) s.
Fixpoint LastIndexAny (i : nat) (s : string) (chars : list ascii) : option nat :=
  match i with
  | O => None
  | S j => match str_nth j s with
           | Some a => if existsb (Ascii.eqb a) chars then Some j else LastIndexAny j s chars
           | None => LastIndexAny j s chars
           end
  end.
Definition Preview (s : string) (n : Z) : string :=
  if (String.eqb s "" || (n <=? 0))%bool then ""
  else if len s <=? n then s
  else
    let limit := n - len ellipsis in
    if limit <=? 0 then trimToRuneBoundary (str_take (Z.to_nat n) s)
    else
      let cut := trimToRuneBoundary (str_take (Z.to_nat limit) s) in
      let cut := match LastIndexAny (String.length cut) cut [" "%char; bchr 10; bchr 9] with
                 | Some i => if n / 2 <? Z.of_nat i then str_take i cut else cut
                 | None => cut
                 end in
      cut +:+ ellipsis.

(** ** Coercions driven by the validation errors (repair.go) *)

(** [escapeJSONPathToken]: the runes of the key, the separators of a path escaped. *)
Definition path_special (r : Z) : bool := existsb (Z.eqb r) [46; 42; 63; 92; 124; 35; 64].
Definition escapeJSONPathToken (token : string) : string :=
  String.concat "" ((fun r => (if path_special r then "\" else "") +:+ encode_rune r) <$> runes token).
Definition joinPath (base key : string) : string := if String.eqb base "" then key else base +:+ "." +:+ key.
Definition instancePath (location : list string) : string := Join (escapeJSONPathToken <$> location) ".".

Fixpoint collectLeaves (e : ValidationError) : list ValidationError :=
  match e with
  | VError _ _ _ causes => match causes with
                           | [] => [e]
                           | _ => List.concat (List.map collectLeaves causes)
                           end
  end.
Fixpoint firstLeaf (e : ValidationError) : ValidationError :=
  match e with
  | VError _ _ _ (c :: _) => firstLeaf c
  | _ => e
  end.

(** [strconv.ParseInt(s, 10, 64)] and [strconv.ParseBool]. *)
Fixpoint digits_value (acc : Z) (s : string) : option Z :=
  match s with
  | EmptyString => Some acc
  | String a s' => if between 48 57 (bval a) then digits_value (10 * acc + (bval a - 48)) s' else None
  end.
Definition ParseInt (s : string) : option Z :=
  let '(neg, d) := match CutPrefix s "-", CutPrefix s "+" with
                   | Some r, _ => (true, r)
                   | None, Some r => (false, r)
                   | None, None => (false, s)
                   end in
  if String.eqb d "" then None
  else match digits_value 0 d with
       | Some n => let n := if neg : bool then - n else n in
                   if between (- 2 ^ 63) (2 ^ 63 - 1) n then Some n else None
       | None => None
       end.
Definition ParseBool (s : string) : option bool :=
  if in_strings s ["1"; "t"; "T"; "TRUE"; "true"; "True"] then Some true
  else if in_strings s ["0"; "f"; "F"; "FALSE"; "false"; "False"] then Some false
  else None.

Section Check.
Context `{Gjson} `{Sjson} `{JsonSchema}.

(** The first of a list of attempts that succeeds. *)
Fixpoint first_some {A} (l : list (option A)) : option A :=
  match l with
  | [] => None
  | Some a :: _ => Some a
  | None :: l' => first_some l'
  end.
Definition tagged (action : string) (o : option string) : option (string * string) := (fun s => (s, action)) <$> o.
(** The new text and the action; [None] when nothing applied. *)
Definition coerceValue (out path : string) (want : list string) : option (string * string) :=
  let val := GetBytes out path in
  if negb (Exists val) then None
  else
    let wants w := in_strings w want in
    let s := TrimSpace (Str val) in
    let is_string := bool_decide (TypeOf val = JString) in
    let scalar := bool_decide (TypeOf val = JNumber \/ TypeOf val = JTrue \/ TypeOf val = JFalse) in
    first_some [
      if is_string then
        if wants "integer" then tagged "coerce_string_to_number" (ParseInt s ≫= SetInt out path)
        else if wants "number" then tagged "coerce_string_to_number" (ParseFloat s ≫= SetFloat out path)
        else None
      else None;
      if (is_string && wants "boolean")%bool then tagged "coerce_string_to_bool" (ParseBool s ≫= SetBool out path) else None;
      if (wants "string" && scalar)%bool then tagged "coerce_to_string" (SetString out path (Raw val)) else None;
      if (wants "array" && negb (IsArray val))%bool
      then tagged "wrap_scalar_in_array" (SetRaw out path ("[" +:+ Raw val +:+ "]")) else None
    ].
Definition drop_key (path : string) (acc : string * list string) (prop : string) : string * list string :=
  match Delete acc.1 (joinPath path (escapeJSONPathToken prop)) with
  | Some next => (next, (acc.2 ++ ["drop_unknown_key"])%list)
  | None => acc
  end.
Definition repair_leaf (acc : string * list string) (leaf : ValidationError) : string * list string :=
  match leaf with
  | VError location kind _ _ =>
      let path := instancePath location in
      match kind with
      | AdditionalProperties props => fold_left (drop_key path) props acc
      | TypeMismatch want => if String.eqb path "" then acc
                             else match coerceValue acc.1 path want with
                                  | Some (next, action) => (next, (acc.2 ++ [action])%list)
                                  | None => acc
                                  end
      | OtherKind => acc
      end
  end.
Definition applyLeafRepairs (out : string) (e : ValidationError) : string * list string :=
  fold_left repair_leaf (collectLeaves e) (out, []).
Definition maxRepairPasses : nat := 3.
Fixpoint repair_passes (passes : nat) (schema : Schema) (out : string) (actions : list string) (current : option CheckError)
    : string * list string :=
  match passes with
  | O => (out, actions)
  | S p =>
      match current with
      | Some (SchemaErr e) =>
          let '(out, passActions) := applyLeafRepairs out e in
          match passActions with
          | [] => (out, actions)
          | _ => repair_passes p schema out (actions ++ passActions)%list (validate schema out)
          end
      | _ => (out, actions)
      end
  end.
Definition repairArgs (schema : Schema) (args : string) (verr : CheckError) : string * list string :=
  repair_passes maxRepairPasses schema args [] (Some verr).

(** ** Checking one call (toolcheck.go) *)

Inductive Bucket := BucketInvalidJSON | BucketUnknownTool | BucketSchemaMismatch.
Record Issue := { ToolName : string; Bucket_ : Bucket; Detail : string; Repaired : bool; Actions : list string }.
Record Verdict := { OK : bool; Args : string; Issue_ : option Issue }.
Record toolSchema := { compiled : option Schema; required : gset string }.
(** A nil validator checks nothing. *)
Definition Validator : Type := gmap string toolSchema.

Definition maxDetailBytes : Z := 300.
Definition maxSchemaBytes : Z := 256 * 1024.
Definition truncateDetail (s : string) : string := Preview s maxDetailBytes.
Definition detailFromError (e : CheckError) : string :=
  match e with
  | OtherErr m => truncateDetail m
  | SchemaErr v => match firstLeaf v with
                   | VError location _ message _ => truncateDetail ("/" +:+ Join location "/" +:+ ": " +:+ message)
                   end
  end.

Definition compileSchema (schema : Result) : option Schema :=
  if (negb (IsObject schema) || (maxSchemaBytes <? len (Raw schema)))%bool then None else compile_schema (Raw schema).
Definition add_tool (tools : gmap string toolSchema) (tool : Result) : gmap string toolSchema :=
  let name := StringOf (GetPath tool "name") in
  if String.eqb name "" then tools
  else
    let schema := GetPath tool "input_schema" in
    <[name := {| compiled := compileSchema schema;
                 required := list_to_set (StringOf <$> elements (GetPath schema "required")) |}]> tools.
Definition Compile (toolsRaw : string) : option Validator :=
  let parsed := Parse toolsRaw in
  if negb (IsArray parsed) then None
  else let tools := fold_left add_tool (elements parsed) ∅ in
       if bool_decide (tools = ∅) then None else Some tools.
Definition KnownTool (v : option Validator) (name : string) : bool :=
  match v with
  | None => true
  | Some tools => if bool_decide (tools = ∅) then true else bool_decide (is_Some (tools !! name))
  end.

Definition normalize_member (req : gset string) (acc : string * list string) (m : string * Result) : string * list string :=
  let '(key, val) := m in
  let isEmptyString := (bool_decide (TypeOf val = JString) && String.eqb (Str val) "")%bool in
  let isNull := bool_decide (TypeOf val = JNull) in
  if (negb isEmptyString && negb isNull)%bool then acc
  else if in_set key req then acc
  else match Delete acc.1 (escapeJSONPathToken key) with
       | None => acc
       | Some next => (next, (acc.2 ++ [if isEmptyString then "drop_empty_optional" else "drop_null_optional"])%list)
       end.
Definition normalizeArgs (args : string) (req : gset string) : string * list string :=
  let parsed := Parse args in
  if negb (IsObject parsed) then (args, []) else fold_left (normalize_member req) (members parsed) (args, []).

Definition issue (name : string) (bk : Bucket) (detail : string) (repaired : bool) (actions : list string) : option Issue :=
  Some {| ToolName := name; Bucket_ := bk; Detail := detail; Repaired := repaired; Actions := actions |}.
Definition verdictAfterValidation (name args : string) (jsonRepaired : bool) (actions : list string) : Verdict :=
  if negb jsonRepaired then {| OK := true; Args := args; Issue_ := None |}
  else {| OK := false; Args := args;
          Issue_ := issue name BucketInvalidJSON (truncateDetail "malformed tool argument JSON (repaired)") true actions |}.
Definition check_parsed (v : option Validator) (name args : string) (actions : list string) : Verdict :=
  let jsonRepaired := match actions with [] => false | _ => true end in
  match v with
  | None => verdictAfterValidation name args jsonRepaired actions
  | Some tools =>
      match tools !! name with
      | None => {| OK := false; Args := args;
                   Issue_ := issue name BucketUnknownTool (truncateDetail "tool not present in request tool set") false actions |}
      | Some ts =>
          let '(args, normActions) := normalizeArgs args ts.(required) in
          let actions := (actions ++ normActions)%list in
          match ts.(compiled) with
          | None => verdictAfterValidation name args jsonRepaired actions
          | Some schema =>
              match validate schema args with
              | None => verdictAfterValidation name args jsonRepaired actions
              | Some verr =>
                  let '(repaired, repairActions) := repairArgs schema args verr in
                  let failed := {| OK := false; Args := args;
                                   Issue_ := issue name BucketSchemaMismatch (detailFromError verr) false actions |} in
                  match repairActions with
                  | [] => failed
                  | _ => match validate schema repaired with
                         | None => {| OK := false; Args := repaired;
                                      Issue_ := issue name BucketSchemaMismatch (detailFromError verr) true (actions ++ repairActions)%list |}
                         | Some _ => failed
                         end
                  end
              end
          end
      end
  end.
Definition Check (v : option Validator) (name argsJSON : string) : Verdict :=
  let args := if String.eqb (TrimSpace argsJSON) "" then "{}" else argsJSON in
  if Valid args then check_parsed v name args []
  else
    let '(fixed, actions) := repairJSON args in
    if (String.eqb fixed "" || negb (Valid fixed))%bool
    then {| OK := false; Args := "{}";
            Issue_ := issue name BucketInvalidJSON (truncateDetail "unparseable tool arguments") false
                        (actions ++ ["empty_object_fallback"])%list |}
    else check_parsed v name fixed actions.
End Check.

(** ** Bracket structure *)

(** What a JSON scanner tracks: whether it is in a string, and the scopes that are open. *)
Inductive mode := Plain | InStr | Esc.
Fixpoint nest (m : mode) (st : list ascii) (s : string) : option (mode * list ascii) :=
  match s with
  | EmptyString => Some (m, st)
  | String c s' =>
      match m with
      | Esc => nest InStr st s'
      | InStr => nest (if Ascii.eqb c backslash then Esc else if Ascii.eqb c quote then Plain else InStr) st s'
      | Plain =>
          if Ascii.eqb c quote then nest InStr st s'
          else if (Ascii.eqb c "{" || Ascii.eqb c "[")%bool then nest Plain (c :: st) s'
          else if (Ascii.eqb c "}" || Ascii.eqb c "]")%bool
          then if opens (if Ascii.eqb c "]" then "["%char else "{"%char) st then nest Plain (tl st) s' else None
          else nest Plain st s'
      end
  end.
(** Every scope and string is closed. *)
Definition balanced (s : string) : Prop := nest Plain [] s = Some (Plain, []).

Lemma nest_app s u m st : nest m st (s +:+ u) = match nest m st s with Some (m', st') => nest m' st' u | None => None end.
Proof.
  revert m st; induction s as [|c s IH]; intros m st; [reflexivity|]. rewrite str_app_cons. cbn [nest].
  destruct m; repeat match goal with |- context [if ?x then _ else _] => destruct x end; try apply IH; reflexivity.
Qed.
Definition mode_of (t : Balance) : mode := if t.(inString) then if t.(escaped) then Esc else InStr else Plain.
(** The scan agrees with the bracket structure of what it read. *)
Definition tracks (t : Balance) : Prop :=
  nest Plain [] t.(b) = Some (mode_of t, t.(stack)) /\ (t.(inString) = false -> t.(escaped) = false).
Lemma nest_snoc t c m st : nest Plain [] t.(b) = Some (m, st) -> nest Plain [] (t.(b) +:+ String c "") = nest m st (String c "").
Proof. intros N. rewrite nest_app, N. reflexivity. Qed.

Lemma balance_byte_tracks c t : tracks t ->
  match balance_byte c t with
  | Mismatch => True
  | TopClosed t' => tracks t' /\ t'.(stack) = [] /\ t'.(inString) = false /\ t'.(b) = t.(b) +:+ String c ""
  | Goes t' => tracks t' /\ t'.(b) = t.(b) +:+ String c ""
  end.
Proof.
  intros [N F]. pose proof (nest_snoc t c _ _ N) as S. unfold balance_byte, mode_of in *.
  destruct (inString t) eqn:I.
  - unfold in_string_byte. cbn [push_byte escaped]. destruct (escaped t) eqn:X.
    + split; [|reflexivity]. split; [exact (eq_trans S eq_refl) || (unfold mode_of; cbn; rewrite I; exact S)|cbn; congruence].
    + cbn [nest] in S. destruct (Ascii.eqb c backslash).
      { split; [|reflexivity]. split; [unfold mode_of; cbn; rewrite I; exact S|cbn; congruence]. }
      destruct (Ascii.eqb c quote).
      { cbn [push_byte with_string stringIsKey negb]. destruct (stringIsKey t); cbn [negb];
          (split; [|reflexivity]); (split; [unfold mode_of; cbn; exact S|cbn; auto]). }
      { split; [|reflexivity]. split; [unfold mode_of; cbn; rewrite I, X; exact S|cbn; congruence]. }
  - specialize (F eq_refl). cbn [nest] in S.
    destruct (Ascii.eqb_spec c quote) as [Q|Q].
    { split; [|reflexivity]. split; [unfold mode_of; cbn; rewrite F; exact S|discriminate]. }
    destruct (Ascii.eqb_spec c "{") as [->|B1].
    { split; [|reflexivity]. split; [unfold mode_of; cbn; rewrite I; exact S|auto]. }
    destruct (Ascii.eqb_spec c "[") as [->|B2].
    { split; [|reflexivity]. split; [unfold mode_of; cbn; rewrite I; exact S|auto]. }
    cbn [orb] in S.
    destruct (Ascii.eqb_spec c ":") as [->|B3]; [split; [|reflexivity]; split; [unfold mode_of; cbn; rewrite I; exact S|auto]|].
    destruct (Ascii.eqb_spec c ",") as [->|B4]; [split; [|reflexivity]; split; [unfold mode_of; cbn; rewrite I; exact S|auto]|].
    destruct (_ || _)%bool.
    + destruct (opens _ (stack t)); cbn [negb]; [|exact Logic.I]. cbn [stack completed push_byte with_scope].
      destruct (tl (stack t)) eqn:T; cbn; rewrite ?T.
      * split; [split; [unfold mode_of; cbn; rewrite I; exact S|auto]|]. repeat split. exact I.
      * split; [|reflexivity]. split; [unfold mode_of; cbn; rewrite I; exact S|auto].
    + destruct (isJSONWhitespace c); (split; [|reflexivity]); (split; [unfold mode_of; cbn; rewrite I; exact S|auto]).
Qed.
Lemma scan_tracks s : forall t, tracks t ->
  match scan t s with
  | SMismatch => True
  | SClosed t' rest => tracks t' /\ t'.(stack) = [] /\ t'.(inString) = false /\ t'.(b) +:+ rest = t.(b) +:+ s
  | SEnd t' => tracks t' /\ t'.(b) = t.(b) +:+ s
  end.
Proof.
  induction s as [|c s IH]; intros t T; cbn [scan].
  - split; [exact T|]. rewrite str_app_nil_r. reflexivity.
  - pose proof (balance_byte_tracks c t T) as B. destruct (balance_byte c t) as [|t'|t'].
    + exact I.
    + destruct B as (B1 & B2 & B3 & ->). repeat split; try apply B1; try assumption. rewrite str_app_assoc. reflexivity.
    + destruct B as (B1 & B2). specialize (IH t' B1). rewrite B2, str_app_assoc in IH. exact IH.
Qed.

Definition openers (st : list ascii) : Prop := Forall (fun a => a = "{"%char \/ a = "["%char) st.
Lemma nest_openers s : forall m st m' st', nest m st s = Some (m', st') -> openers st -> openers st'.
Proof.
  induction s as [|c s IH]; intros m st m' st' N O; cbn [nest] in N; [injection N as <- <-; exact O|].
  destruct m; [|eapply IH; eassumption..].
  destruct (Ascii.eqb c quote); [eapply IH; eassumption|].
  destruct (Ascii.eqb_spec c "{") as [->|]; [eapply IH; [exact N|constructor; auto]|].
  destruct (Ascii.eqb_spec c "[") as [->|]; [eapply IH; [exact N|constructor; auto]|]. cbn [orb] in N.
  destruct (_ || _)%bool; [|eapply IH; eassumption]. destruct (opens _ st) eqn:Op; [|discriminate N].
  eapply IH; [exact N|]. destruct st; [exact O|]. inversion O; assumption.
Qed.
(** Closers match exactly the scopes they were made for. *)
Lemma nest_close st : openers st -> forall m st', nest m st' (close_all st) = Some (Plain, []) <-> m = Plain /\ st' = st.
Proof.
  assert (W : forall l, openers l -> forall st', nest InStr st' (close_all l) = Some (InStr, st')).
  { induction 1 as [|a l A _ IH]; intros st'; [reflexivity|].
    change (close_all (a :: l)) with (String (closer a) (close_all l)). cbn [nest].
    destruct A as [-> | ->]; exact (IH st'). }
  induction 1 as [|a l A F IH]; intros m st'.
  - cbn. split; [intros [= -> ->]; split; reflexivity|intros [-> ->]; reflexivity].
  - change (close_all (a :: l)) with (String (closer a) (close_all l)). cbn [nest]. destruct m.
    + assert (C : (Ascii.eqb (closer a) quote || (Ascii.eqb (closer a) "{" || Ascii.eqb (closer a) "["))%bool = false /\
                  (Ascii.eqb (closer a) "}" || Ascii.eqb (closer a) "]")%bool = true /\
                  (if Ascii.eqb (closer a) "]" then "["%char else "{"%char) = a) by (destruct A as [-> | ->]; repeat split).
      destruct C as (C1 & C2 & C3). apply orb_false_iff in C1 as [-> ->]. rewrite C2, C3.
      destruct st' as [|x st']; cbn [opens tl]; [split; [discriminate|intros [_ E]; discriminate E]|].
      destruct (Ascii.eqb_spec x a) as [->|NE].
      * rewrite IH. split; intros [E1 E2]; split; congruence.
      * split; [discriminate|intros [_ E]; congruence].
    + replace (Ascii.eqb (closer a) backslash) with false by (destruct A as [-> | ->]; reflexivity).
      replace (Ascii.eqb (closer a) quote) with false by (destruct A as [-> | ->]; reflexivity).
      rewrite W by exact F. split; [discriminate|intros [E _]; discriminate E].
    + rewrite W by exact F. split; [discriminate|intros [E _]; discriminate E].
Qed.

(** What is kept of a truncated text is the start of it, a closing quote at most added. *)
Lemma TrimRightWS_prefix s : HasPrefix s (TrimRightWS s) = true.
Proof.
  assert (L : forall l, exists r, l = (r ++ trim_right_ws l)%list).
  { induction l as [|a l [r IH]]; [exists []; reflexivity|]. cbn. destruct (isJSONWhitespace a); [|exists []; reflexivity].
    exists (a :: r). cbn. f_equal. exact IH. }
  destruct (L (rev (String.list_ascii_of_string s))) as [r E]. apply HasPrefix_spec.
  apply (f_equal (@rev ascii)) in E. rewrite rev_involutive, rev_app_distr in E. unfold TrimRightWS.
  exists (String.string_of_list_ascii (rev r)). rewrite <- (String.string_of_list_ascii_of_string s) at 1.
  revert E. generalize (rev (trim_right_ws (rev (String.list_ascii_of_string s)))) as l. intros l ->.
  induction l as [|a l IH]; [reflexivity|]. cbn. rewrite IH. reflexivity.
Qed.
Lemma HasPrefix_trans s p q : HasPrefix s p = true -> HasPrefix p q = true -> HasPrefix s q = true.
Proof. rewrite !HasPrefix_spec. intros [r ->] [r' ->]. exists (r' +:+ r). apply str_app_assoc. Qed.
Lemma HasPrefix_refl s : HasPrefix s s = true.
Proof. apply HasPrefix_spec. exists "". rewrite str_app_nil_r. reflexivity. Qed.
Lemma str_take_prefix n s : HasPrefix s (str_take n s) = true.
Proof. apply HasPrefix_spec. exists (str_drop n s). rewrite str_take_drop. reflexivity. Qed.
Lemma drop_commas_prefix fuel : forall out, HasPrefix out (drop_commas fuel out).1 = true.
Proof.
  induction fuel as [|f IH]; intros out; [apply HasPrefix_refl|]. cbn [drop_commas].
  destruct (HasSuffix (TrimRightWS out) ","); [|apply HasPrefix_refl].
  specialize (IH (str_take (String.length (TrimRightWS out) - 1) (TrimRightWS out))). destruct (drop_commas f _) as [o a].
  cbn [fst] in *. eapply HasPrefix_trans; [apply TrimRightWS_prefix|]. eapply HasPrefix_trans; [apply str_take_prefix|exact IH].
Qed.
Lemma cut_back_prefix t kept acts : cut_back t = Some (kept, acts) -> HasPrefix (t.(b) +:+ String quote "") kept = true.
Proof.
  unfold cut_back. intros E.
  destruct (if (_ && _)%bool then _ else _) as [[out acts0] last] eqn:C.
  assert (P : HasPrefix (b t +:+ String quote "") out = true).
  { destruct (_ && _)%bool; injection C as <- <- <-; [apply HasPrefix_refl|apply HasPrefix_spec; exists (String quote ""); reflexivity]. }
  clear C. destruct last as [n|]; [|discriminate E]. destruct (if Nat.ltb _ _ then _ else _) as [out1 acts1] eqn:C1.
  assert (P1 : HasPrefix out out1 = true).
  { destruct (Nat.ltb _ _); injection C1 as <- <-; [apply str_take_prefix|apply HasPrefix_refl]. }
  pose proof (drop_commas_prefix (S (String.length out1)) out1) as P2. destruct (drop_commas _ out1) as [out2 acts2].
  injection E as <- <-. cbn [fst] in P2. eauto using HasPrefix_trans.
Qed.

(** The JSON repair only ever keeps a start of the text (with one closing quote at most) and then
    closes scopes: when the text holds a complete top-level value the result is that value and its brackets
    balance; when the text was cut short, the scopes closed are the ones open at the END of the text, so the
    brackets of the result balance exactly when the part that was kept leaves the same scopes open, that is
    when no scope was opened after the last complete value. *)
Lemma repair_brackets (s out : string) (acts : list string) (Hrepair : balanceJSON s = (out, acts)) (Hout : out <> "") :
  (balanced out /\ exists rest, s = out +:+ rest) \/
  (exists m st kept, nest Plain [] s = Some (m, st) /\ HasPrefix (s +:+ String quote "") kept = true /\
     out = kept +:+ close_all st /\ (balanced out <-> nest Plain [] kept = Some (Plain, st))).
Proof.
  assert (T0 : tracks balance_start) by (split; [reflexivity|reflexivity]).
  pose proof (scan_tracks s balance_start T0) as T. change (b balance_start) with "" in T. change ("" +:+ s) with s in T.
  unfold balanceJSON in Hrepair. destruct (scan balance_start s) as [|t rest|t].
  - injection Hrepair as <- _. contradiction.
  - injection Hrepair as <- _. destruct T as ([N _] & St & In & E). left. split; [|exists rest; symmetry; exact E].
    unfold balanced. rewrite N. unfold mode_of. rewrite In, St. reflexivity.
  - destruct T as ([N _] & E). rewrite E in N. destruct (_ && _)%bool; [injection Hrepair as <- _; contradiction|].
    destruct (cut_back t) as [[kept acts']|] eqn:C; [|injection Hrepair as <- _; contradiction].
    injection Hrepair as <- _. apply cut_back_prefix in C. rewrite E in C. right. exists (mode_of t), (stack t), kept.
    split; [exact N|]. split; [exact C|]. split; [reflexivity|].
    apply nest_openers in N as O; [|constructor]. unfold balanced. rewrite nest_app.
    destruct (nest Plain [] kept) as [[m' st']|]; [|split; discriminate].
    rewrite nest_close by exact O. split; [intros [-> ->]; reflexivity|intros [= -> ->]; split; reflexivity].
Qed.

(** ** The contract of a check *)

Section Contract.
Context `{Gjson} `{Sjson} `{JsonSchema}.

(** Documented behaviour of the editor: an edit of valid JSON gives valid JSON.  It writes a float the way strconv formats it, so this is
    said of finite ones only. *)
Definition edits (P : string -> string -> option string) : Prop :=
  forall s path s', Valid s = true -> P s path = Some s' -> Valid s' = true.
Record editor_laws : Prop := {
  valid_empty : Valid "{}" = true;
  valid_delete : edits Delete;
  valid_int : forall n, edits (fun s p => SetInt s p n);
  valid_float : forall n, is_finite n = true -> edits (fun s p => SetFloat s p n);
  valid_bool : forall n, edits (fun s p => SetBool s p n);
  valid_string : forall n, edits (fun s p => SetString s p n);
  valid_wrap : edits (fun s p => SetRaw s p ("[" +:+ Raw (GetBytes s p) +:+ "]"))
}.
Hypothesis laws : editor_laws.
(** A text that spells NaN or an infinity was made a number: JSON has no such number. *)
Definition coerced_nonfinite : Prop := exists out path n next,
  ParseFloat (TrimSpace (Str (GetBytes out path))) = Some n /\ is_finite n = false /\ SetFloat out path n = Some next.
Definition unspeakable (acts : list string) : Prop := "coerce_string_to_number" ∈ acts /\ coerced_nonfinite.

Lemma first_some_elem {A} (l : list (option A)) a : first_some l = Some a -> Some a ∈ l.
Proof. induction l as [|[x|] l IH]; [discriminate|intros [= ->]; left|intros E; right; exact (IH E)]. Qed.
Lemma tagged_some act o p : tagged act o = Some p -> o = Some p.1.
Proof. destruct o; [intros [= <-]; reflexivity|discriminate]. Qed.
Lemma tagged_action act o p : tagged act o = Some p -> p.2 = act.
Proof. destruct o; [intros [= <-]; reflexivity|discriminate]. Qed.
Lemma coerce_valid out path want next action : Valid out = true -> coerceValue out path want = Some (next, action) ->
  Valid next = true \/ unspeakable [action].
Proof.
  intros V. unfold coerceValue. destruct (negb (Exists _)); [discriminate|]. intros E. apply first_some_elem in E.
  repeat (apply elem_of_cons in E as [E|E]); [| | | |apply elem_of_nil in E; destruct E];
    repeat match type of E with _ = if ?x then _ else _ => destruct x end; try discriminate E; symmetry in E;
    pose proof (tagged_action _ _ _ E) as A; apply tagged_some in E; cbn [fst snd] in E, A; try (apply bind_Some in E as (n & P & E)).
  - left. exact (valid_int laws n _ _ _ V E).
  - destruct (is_finite n) eqn:F; [left; exact (valid_float laws n F _ _ _ V E)|right]. split; [rewrite A; left|]. exists out, path, n, next. auto.
  - left. exact (valid_bool laws n _ _ _ V E).
  - left. exact (valid_string laws _ _ _ _ V E).
  - left. exact (valid_wrap laws _ _ _ V E).
Qed.
Lemma unspeakable_mono acts acts' : (forall x, x ∈ acts -> x ∈ acts') -> unspeakable acts -> unspeakable acts'.
Proof. intros S [I C]. split; [exact (S _ I)|exact C]. Qed.
(** What a repair has made: valid, or with a number that is none. *)
Definition sound (acc : string * list string) : Prop := Valid acc.1 = true \/ unspeakable acc.2.
Lemma fold_sound {A} (P : string * list string -> Prop) (f : string * list string -> A -> string * list string) l acc :
  (forall acc x, P acc -> P (f acc x)) -> P acc -> P (fold_left f l acc).
Proof. intros F. revert acc; induction l as [|x l IH]; intros acc V; [exact V|]. apply IH, F, V. Qed.
Lemma repair_leaf_sound acc leaf : sound acc -> sound (repair_leaf acc leaf).
Proof.
  assert (More : forall acc next acts, (Valid acc.1 = true -> sound (next, acts)) -> (forall x, x ∈ acc.2 -> x ∈ acts) -> sound acc -> sound (next, acts)).
  { intros a next acts N S [V|U]; [exact (N V)|right; exact (unspeakable_mono _ _ S U)]. }
  intros V. destruct leaf as [location kind message causes]. cbn [repair_leaf]. destruct kind as [props|want|]; [| |exact V].
  - apply (fold_sound sound); [|exact V]. intros acc' p V'. unfold drop_key. destruct (Delete _ _) as [s|] eqn:E; [|exact V'].
    apply (More acc'); [|set_solver|exact V']. intros W. left. exact (valid_delete laws _ _ _ W E).
  - destruct (String.eqb _ ""); [exact V|]. destruct (coerceValue _ _ _) as [[next action]|] eqn:E; [|exact V].
    apply (More acc); [|set_solver|exact V]. intros W. destruct (coerce_valid _ _ _ _ _ W E) as [X|X]; [left; exact X|right].
    revert X. apply unspeakable_mono. cbn. set_solver.
Qed.
Lemma repair_passes_sound n schema : forall out acts cur, sound (out, acts) -> sound (repair_passes n schema out acts cur).
Proof.
  induction n as [|n IH]; intros out acts cur V; [exact V|]. cbn [repair_passes]. destruct cur as [[e|m]|]; try exact V.
  destruct (applyLeafRepairs out e) as [out' pass] eqn:E. 
  assert (W : sound (out', (acts ++ pass)%list)).
  { destruct V as [V|U]; [|right; revert U; apply unspeakable_mono; cbn; set_solver].
    assert (W : sound (applyLeafRepairs out e)) by (apply (fold_sound sound); [exact repair_leaf_sound|left; exact V]). rewrite E in W.
    destruct W as [W|U]; [left; exact W|right; revert U; apply unspeakable_mono; cbn; set_solver]. }
  destruct pass; [rewrite app_nil_r in W; exact W|apply IH, W].
Qed.
Lemma normalize_valid args req : Valid args = true -> Valid (normalizeArgs args req).1 = true.
Proof.
  intros V. unfold normalizeArgs. destruct (negb _); [exact V|]. apply (fold_sound (fun acc => Valid acc.1 = true)); [|exact V].
  intros acc [key val] V'. unfold normalize_member. destruct (_ && _)%bool; [exact V'|]. destruct (in_set key req); [exact V'|].
  destruct (Delete _ _) as [s|] eqn:E; [|exact V']. exact (valid_delete laws _ _ _ V' E).
Qed.

(** The schema the tool's arguments are held to, when there is one. *)
Definition tool_schema (v : option Validator) (name : string) : option Schema :=
  v ≫= fun tools => tools !! name ≫= compiled.
Definition conforming (v : option Validator) (name : string) (r : Verdict) : Prop :=
  (Valid r.(Args) = true \/ exists i, r.(Issue_) = Some i /\ i.(Repaired) = true /\ unspeakable i.(Actions)) /\
  (r.(OK) = true <-> r.(Issue_) = None) /\
  (r.(OK) = true \/ (exists i, r.(Issue_) = Some i /\ i.(Repaired) = true) ->
   forall schema, tool_schema v name = Some schema ->
   match schema_run schema r.(Args) with Checked e => e = None | Undecodable | Panicked => True end).
Lemma not_refused schema args : validate schema args = None ->
  match schema_run schema args with Checked e => e = None | Undecodable | Panicked => True end.
Proof. unfold validate. destruct (schema_run schema args); auto. Qed.
Lemma verdict_conforming v name args rep acts : Valid args = true ->
  (forall schema, tool_schema v name = Some schema -> validate schema args = None) ->
  conforming v name (verdictAfterValidation name args rep acts).
Proof.
  intros V S. unfold verdictAfterValidation. destruct (negb rep); (split; [left; exact V|]); (split; [split; (reflexivity || discriminate)|]);
    intros _ sc E; exact (not_refused _ _ (S sc E)).
Qed.
Lemma reported_conforming v name args bk d acts : Valid args = true ->
  conforming v name {| OK := false; Args := args; Issue_ := issue name bk d false acts |}.
Proof.
  intros V. split; [left; exact V|]. split; [split; discriminate|]. intros [E|(i & [= <-] & E)]; discriminate E.
Qed.
Lemma check_parsed_conforming v name args acts : Valid args = true -> conforming v name (check_parsed v name args acts).
Proof.
  intros V. unfold check_parsed. destruct v as [tools|]; [|apply verdict_conforming; [exact V|discriminate]].
  destruct (tools !! name) as [ts|] eqn:L; [|apply reported_conforming, V].
  assert (TS : tool_schema (Some tools) name = ts.(compiled)) by (unfold tool_schema; cbn; rewrite L; reflexivity).
  pose proof (normalize_valid args (required ts) V) as W. destruct (normalizeArgs args (required ts)) as [nargs nacts]. cbn [fst] in W.
  destruct (compiled ts) as [schema|] eqn:C; [|apply verdict_conforming; [exact W|]; intros sc; rewrite TS; discriminate].
  destruct (validate schema nargs) as [verr|] eqn:SV.
  2:{ apply verdict_conforming; [exact W|]. intros sc. rewrite TS. intros [= <-]. exact SV. }
  pose proof (repair_passes_sound maxRepairPasses schema nargs [] (Some verr) (or_introl W)) as R. unfold repairArgs.
  destruct (repair_passes _ _ _ _ _) as [rep racts]. destruct racts as [|a racts]; [apply reported_conforming, W|].
  destruct (validate schema rep) eqn:SR; [apply reported_conforming, W|].
  split; [|split; [split; discriminate|]].
  - destruct R as [R|U]; [left; exact R|right]. eexists. split; [reflexivity|]. split; [reflexivity|]. revert U. apply unspeakable_mono. cbn. set_solver.
  - intros _ sc. rewrite TS. intros [= <-]. exact (not_refused _ _ SR).
Qed.

(** C32: whatever a model emitted as the arguments of a call, what is forwarded is valid JSON, with one exception: arguments reported as repaired by
    coercing a text to a number, which may be NaN or an infinity ([nan_forwarded]).  A verdict is clean exactly when it carries no issue.  And arguments that are
    clean, or reported as repaired, do not violate the schema of the tool when that could be compiled: its validator accepts them, or could
    not tell (its decoder refuses the text, as it does a NaN, or it panicked). *)
Theorem check_conforming (v : option Validator) (name argsJSON : string) : conforming v name (Check v name argsJSON).
Proof.
  unfold Check. set (args := if String.eqb (TrimSpace argsJSON) "" then "{}" else argsJSON).
  destruct (Valid args) eqn:V; [apply check_parsed_conforming, V|]. destruct (repairJSON args) as [fixed acts].
  destruct (String.eqb fixed "" || negb (Valid fixed))%bool eqn:F; [apply reported_conforming, (valid_empty laws)|].
  apply orb_false_iff in F as [_ F]. apply negb_false_iff in F. apply check_parsed_conforming, F.
Qed.
End Contract.

(** ** Previews *)

Lemma trim_runes_prefix fuel s : HasPrefix s (trim_runes fuel s) = true.
Proof.
  revert s; induction fuel as [|f IH]; intros s; [apply HasPrefix_refl|]. cbn [trim_runes]. destruct s as [|a s]; [reflexivity|].
  destruct (DecodeLastRune (String a s)) as [r size]. destruct (_ || _)%bool; [apply HasPrefix_refl|].
  eapply HasPrefix_trans; [apply str_take_prefix|apply IH].
Qed.
Lemma trim_boundary_take n s : HasPrefix s (trimToRuneBoundary (str_take n s)) = true /\
  (String.length (trimToRuneBoundary (str_take n s)) <= n)%nat.
Proof.
  pose proof (trim_runes_prefix (String.length (str_take n s)) (str_take n s)) as P. unfold trimToRuneBoundary. split.
  - eapply HasPrefix_trans; [apply str_take_prefix|exact P].
  - apply HasPrefix_length in P. pose proof (str_length_take n s) as L. lia.
Qed.

(** A preview never exceeds its limit; a text that fits is shown whole, and one that does not is shown
    as a start of it, followed by the ellipsis whenever there is room for one. *)
Lemma Preview_bounded (s : string) (n : Z) :
  len (Preview s n) <= Z.max 0 n /\
  (0 < n -> len s <= n -> Preview s n = s) /\
  (len ellipsis < n < len s -> exists cut, HasPrefix s cut = true /\ Preview s n = cut +:+ ellipsis).
Proof.
  assert (LE : len ellipsis = 3) by reflexivity.
  unfold Preview. destruct (String.eqb_spec s "") as [->|NE]; cbn [orb].
  { split; [change (len "") with 0; lia|]. split; [reflexivity|]. change (len "") with 0. lia. }
  destruct (Z.leb_spec n 0). { split; [change (len "") with 0; lia|]. split; lia. }
  destruct (Z.leb_spec (len s) n). { split; [lia|]. split; [reflexivity|lia]. }
  rewrite LE. destruct (Z.leb_spec (n - 3) 0).
  { destruct (trim_boundary_take (Z.to_nat n) s) as [_ T]. unfold len at 1. split; [lia|]. split; lia. }
  destruct (trim_boundary_take (Z.to_nat (n - 3)) s) as [P T]. generalize dependent (trimToRuneBoundary (str_take (Z.to_nat (n - 3)) s)).
  intros cut P T. set (cut' := match LastIndexAny _ cut _ with Some i => _ | None => cut end).
  assert (C : HasPrefix cut cut' = true).
  { unfold cut'. destruct (LastIndexAny _ _ _); [|apply HasPrefix_refl]. destruct (_ <? _); [apply str_take_prefix|apply HasPrefix_refl]. }
  apply HasPrefix_length in C as CL. split.
  - unfold len. rewrite str_length_app. change (String.length ellipsis) with 3%nat. lia.
  - split; [lia|]. intros _. exists cut'. split; [|reflexivity]. eapply HasPrefix_trans; eassumption.
Qed.

(** ** Witnesses *)

Definition q : string := byte 34.
Definition obj1 (k v : string) : string := "{" +:+ q +:+ k +:+ q +:+ ":" +:+ v.

(** A text cut in a value is repaired; one cut just after an opening bracket gets one closer too many. *)
Lemma repair_brackets_witness :
  balanceJSON (obj1 "a" "1,") = (obj1 "a" "1}", ["json_repair_drop_partial_member"; "json_repair_close_brackets"]) /\
  ((balanced (obj1 "a" "1}") /\ exists rest, obj1 "a" "1," = obj1 "a" "1}" +:+ rest) \/
   (exists m st kept, nest Plain [] (obj1 "a" "1,") = Some (m, st) /\ HasPrefix (obj1 "a" "1," +:+ String quote "") kept = true /\
      obj1 "a" "1}" = kept +:+ close_all st /\ (balanced (obj1 "a" "1}") <-> nest Plain [] kept = Some (Plain, st)))).
Proof.
  split; [vm_compute; reflexivity|].
  apply (repair_brackets (obj1 "a" "1,") (obj1 "a" "1}") ["json_repair_drop_partial_member"; "json_repair_close_brackets"]);
    [vm_compute; reflexivity|discriminate].
Defined.
Lemma balance_closes_dropped_scope :
  let s := obj1 "a" "1," +:+ q +:+ "b" +:+ q +:+ ":[" in
  fst (balanceJSON s) = obj1 "a" "1]}" /\ ~ balanced (fst (balanceJSON s)).
Proof. split; [vm_compute; reflexivity|]. intros B. vm_compute in B. discriminate B. Qed.

(** A schema that wants the member "n" to be a number. *)
Definition number_schema : JsonSchema := {|
  Schema := unit;
  compile_schema := fun _ => Some tt;
  schema_run := fun _ s => Checked
    (if bool_decide (@TypeOf Reader.reader (@GetBytes Reader.reader s "n") = JNumber) then None
    else Some (SchemaErr (VError ["n"] (TypeMismatch ["integer"]) "got string, want integer" [])))
|}.
Definition witness_validator : option (@Validator number_schema) :=
  Some (<["T" := @Build_toolSchema number_schema (Some tt) {["n"]}]> ∅).
Lemma reader_laws : @editor_laws Reader.reader Reader.editor.
Proof.
  assert (G : forall o s', Reader.guarded o = Some s' -> @Valid Reader.reader s' = true).
  { intros [o|] s'; [|discriminate]. unfold Reader.guarded. cbn. destruct (Reader.parse o) eqn:E; [|discriminate].
    intros [= <-]. rewrite E. reflexivity. }
  split; [reflexivity| | |intros n _| | |]; unfold edits; intros *; intros _; apply G.
Qed.
Lemma check_conforming_witness :
  @Args (@Check Reader.reader Reader.editor number_schema witness_validator "T" (obj1 "n" (q +:+ "5" +:+ q +:+ "}")))
    = obj1 "n" "5}" /\
  @conforming Reader.reader Reader.editor number_schema witness_validator "T"
    (@Check Reader.reader Reader.editor number_schema witness_validator "T" (obj1 "n" (q +:+ "5" +:+ q +:+ "}"))).
Proof.
  split; [vm_compute; reflexivity|].
  exact (@check_conforming Reader.reader Reader.editor number_schema reader_laws witness_validator "T" _).
Defined.
(** An editor whose numbers may be NaN, which it writes as such, and the validator that cannot read the result: the call is forwarded as repaired. *)
Definition nan_editor : Sjson := {|
  Number := option Z;
  is_finite := fun n => match n with Some _ => true | None => false end;
  ParseFloat := fun s => if String.eqb s "NaN" then Some None else Some <$> @ParseFloat Reader.editor s;
  Delete := @Delete Reader.editor; SetInt := @SetInt Reader.editor;
  SetFloat := fun s k n => match n with Some n => @SetFloat Reader.editor s k n | None => Some (obj1 k "NaN}") end;
  SetBool := @SetBool Reader.editor; SetString := @SetString Reader.editor; SetRaw := @SetRaw Reader.editor
|}.
Definition strict_schema : JsonSchema := {|
  Schema := unit;
  compile_schema := fun _ => Some tt;
  schema_run := fun _ s =>
    if negb (@Valid Reader.reader s) then Undecodable
    else Checked (if bool_decide (@TypeOf Reader.reader (@GetBytes Reader.reader s "n") = JNumber) then None
                  else Some (SchemaErr (VError ["n"] (TypeMismatch ["number"]) "got string, want number" [])))
|}.
Lemma nan_forwarded :
  let r := @Check Reader.reader nan_editor strict_schema (Some (<["T" := @Build_toolSchema strict_schema (Some tt) {["n"]}]> ∅)) "T"
    (obj1 "n" (q +:+ "NaN" +:+ q +:+ "}")) in
  r.(Args) = obj1 "n" "NaN}" /\ (exists i, r.(Issue_) = Some i /\ i.(Repaired) = true) /\ @Valid Reader.reader r.(Args) = false.
Proof. vm_compute. split; [reflexivity|]. split; [eauto|reflexivity]. Qed.
