(* ===== verification/Features.v ===== *)
(** What the router reads of a request body: the accessors of translate.RequestEnvelope in
    internal/translate/envelope.go, the texts and routing features of features.go, the image payloads of
    features_images.go and the assistant texts of text_repetition.go.  The body is read through [Gjson]. *)

From stdpp Require Import base gmap sets list strings.
From Stdlib Require Import ZArith Lia Ascii.
From S2P Require Import Prelude Strings Sse Json ThinkTag Toolcheck Types TurnTypes.
Open Scope string_scope.
Open Scope Z_scope.

(** A parsed body and its wire format. *)
Record RequestEnvelope := { env_body : string; env_format : Format }.

Section Features.
Context `{Gjson}.

Definition validateJSONObject (body : string) : bool := (Valid body && IsObject (Parse body))%bool.
(** [None] is ErrNotJSONObject. *)
Definition ParseOpenAI (body : string) : option RequestEnvelope :=
  if validateJSONObject body then Some {| env_body := body; env_format := FormatOpenAI |} else None.
Definition ParseAnthropic (body : string) : option RequestEnvelope :=
  if validateJSONObject body then Some {| env_body := body; env_format := FormatAnthropic |} else None.

Definition field (r : Result) (path : string) : string := StringOf (GetPath r path).
Definition type_is (t : string) (r : Result) : bool := String.eqb (field r "type") t.
Definition role_is (t : string) (r : Result) : bool := String.eqb (field r "role") t.
Definition content (msg : Result) : Result := GetPath msg "content".
(** The messages of a body, when they are an array. *)
Definition messages (body : string) : list Result :=
  let msgs := GetBytes body "messages" in if IsArray msgs then elements msgs else [].

(** ** Texts (features.go) *)

Definition appendText (b s : string) : string :=
  if String.eqb s "" then b else if String.eqb b "" then s else b +:+ LF +:+ s.
(** A text, or the texts that [pick] takes from the blocks of an array, one per line. *)
Definition block_text (pick : Result -> string) (v : Result) : string :=
  if negb (Exists v) then ""
  else if IsStringType v then StringOf v
  else if negb (IsArray v) then ""
  else fold_left (fun b block => appendText b (pick block)) (elements v) "".
Definition contentTextGJSON : Result -> string := block_text (fun block => field block "text").
Definition systemTextGJSON (v : Result) : string :=
  if negb (Exists v) then "" else if IsStringType v then StringOf v else contentTextGJSON v.
Definition openAIContentTextGJSON : Result -> string :=
  block_text (fun part => if type_is "text" part then field part "text" else "").

Definition claudeCodeInjectedBlockPrefixes : list string :=
  ["<system-reminder>"; "<command-name>"; "<command-message>"; "<command-args>"; "<local-command-stdout>";
   "<local-command-stderr>"; "<local-command-caveat>"].
Definition isClaudeCodeInjectedBlock (text : string) : bool :=
  existsb (HasPrefix (TrimLeftWS text)) claudeCodeInjectedBlockPrefixes.
Definition userPromptTextGJSON : Result -> string :=
  block_text (fun block =>
    if type_is "tool_result" block then ""
    else let text := field block "text" in if isClaudeCodeInjectedBlock text then "" else text).

Definition openAISystemText (body : string) : string :=
  fold_left (fun b msg => if role_is "system" msg then appendText b (openAIContentTextGJSON (content msg)) else b) (messages body) "".

(** ** Accessors (envelope.go) *)

Definition get (e : RequestEnvelope) (path : string) : Result := GetBytes e.(env_body) path.
Definition Stream (e : RequestEnvelope) : bool :=
  let r := get e "stream" in if bool_decide (TypeOf r = JNumber) then false else BoolOf r.
Definition Model (e : RequestEnvelope) : string := StringOf (get e "model").
Definition env_MetadataUserID (e : RequestEnvelope) : string := StringOf (get e "metadata.user_id").
Definition env_SystemText (e : RequestEnvelope) : string :=
  match e.(env_format) with
  | FormatAnthropic => systemTextGJSON (get e "system")
  | FormatOpenAI => openAISystemText e.(env_body)
  end.

Record LastUserMessageInfo := { HasText : bool; HasToolResult : bool; ToolResultCount : Z; Text : string; ToolResultBytes : Z }.
Definition no_user : LastUserMessageInfo :=
  {| HasText := false; HasToolResult := false; ToolResultCount := 0; Text := ""; ToolResultBytes := 0 |}.
Definition see_tool_result (payload : string) (i : LastUserMessageInfo) : LastUserMessageInfo :=
  {| HasText := i.(HasText); HasToolResult := true; ToolResultCount := i.(ToolResultCount) + 1; Text := i.(Text);
     ToolResultBytes := i.(ToolResultBytes) + len payload |}.
Definition with_text (text : string) (i : LastUserMessageInfo) : LastUserMessageInfo :=
  {| HasText := true; HasToolResult := i.(HasToolResult); ToolResultCount := i.(ToolResultCount); Text := text;
     ToolResultBytes := i.(ToolResultBytes) |}.
Definition see_block (i : LastUserMessageInfo) (block : Result) : LastUserMessageInfo :=
  if type_is "tool_result" block then see_tool_result (Raw (content block)) i
  else if type_is "text" block then
    let text := field block "text" in
    if String.eqb text "" then i else with_text (appendText i.(Text) text) i
  else i.
Definition anthropicLastUserMessage (body : string) : LastUserMessageInfo :=
  match last (List.filter (role_is "user") (messages body)) with
  | None => no_user
  | Some lastUser =>
      let content := content lastUser in
      if IsStringType content
      then {| HasText := negb (String.eqb (StringOf content) ""); HasToolResult := false; ToolResultCount := 0;
              Text := StringOf content; ToolResultBytes := 0 |}
      else if negb (IsArray content) then no_user
      else fold_left see_block (elements content) no_user
  end.
(** The messages from the last one back. *)
Fixpoint trailing_tools (rev_msgs : list Result) (i : LastUserMessageInfo) : LastUserMessageInfo :=
  match rev_msgs with
  | [] => i
  | msg :: rest =>
      if role_is "tool" msg then trailing_tools rest (see_tool_result (Raw (content msg)) i)
      else if role_is "user" msg then
        let text := openAIContentTextGJSON (content msg) in
        if String.eqb text "" then i else with_text text i
      else i
  end.
Definition openAILastUserMessage (body : string) : LastUserMessageInfo := trailing_tools (rev (messages body)) no_user.
Definition LastUserMessage (e : RequestEnvelope) : LastUserMessageInfo :=
  match e.(env_format) with
  | FormatAnthropic => anthropicLastUserMessage e.(env_body)
  | FormatOpenAI => openAILastUserMessage e.(env_body)
  end.
Definition env_FirstUserMessageText (e : RequestEnvelope) : string :=
  let first := get e "messages.0" in
  if negb (Exists first) then ""
  else if negb (role_is "user" first) then ""
  else match e.(env_format) with
       | FormatAnthropic => userPromptTextGJSON (content first)
       | FormatOpenAI => openAIContentTextGJSON (content first)
       end.
Definition HasTools (e : RequestEnvelope) : bool := 0 <? IntOf (get e "tools.#").
Definition env_RequestsTitleSchema (e : RequestEnvelope) : bool :=
  match e.(env_format) with
  | FormatAnthropic =>
      let node := get e "output_config.format" in
      (type_is "json_schema" node && String.eqb (field node "schema.properties.title.type") "string")%bool
  | FormatOpenAI =>
      let rf := get e "response_format" in
      (type_is "json_schema" rf && String.eqb (field rf "json_schema.schema.properties.title.type") "string")%bool
  end.

(** ** Images (features.go, features_images.go) *)

Definition anthropicHasImages (body : string) : bool :=
  existsb (fun msg =>
    (IsArray (content msg)
     && existsb (fun block =>
          if type_is "image" block then true
          else (type_is "tool_result" block && existsb (type_is "image") (visit (content block)))%bool)
        (elements (content msg)))%bool) (visit (GetBytes body "messages")).
Definition openAIHasImages (body : string) : bool :=
  existsb (fun msg => (IsArray (content msg) && existsb (type_is "image_url") (elements (content msg)))%bool)
    (visit (GetBytes body "messages")).
Definition HasImages (e : RequestEnvelope) : bool :=
  match e.(env_format) with
  | FormatAnthropic => anthropicHasImages e.(env_body)
  | FormatOpenAI => openAIHasImages e.(env_body)
  end.

Definition dataURLBase64Marker : string := ";base64,".
Definition jsonStringBytes (v : Result) : Z := if 2 <=? len (Raw v) then len (Raw v) - 2 else 0.
(** Payload bytes and number of images so far. *)
Definition addImage (acc : Z * Z) (block : Result) : Z * Z :=
  let data := GetPath block "source.data" in
  if Exists data then (acc.1 + jsonStringBytes data, acc.2 + 1) else acc.
Definition anthropic_block_images (acc : Z * Z) (block : Result) : Z * Z :=
  if type_is "image" block then addImage acc block
  else if type_is "tool_result" block
       then fold_left (fun acc inner => if type_is "image" inner then addImage acc inner else acc) (visit (content block)) acc
       else acc.
Definition anthropicImageBytes (body : string) : Z * Z :=
  fold_left (fun acc msg => fold_left anthropic_block_images (visit (content msg)) acc) (visit (GetBytes body "messages")) (0, 0).
Definition openai_part_images (acc : Z * Z) (part : Result) : Z * Z :=
  if negb (type_is "image_url" part) then acc
  else
    let raw := Raw (GetPath part "image_url.url") in
    match Index raw dataURLBase64Marker with
    | None => acc
    | Some i =>
        let n := len raw - Z.of_nat i - len dataURLBase64Marker - 1 in
        if 0 <? n then (acc.1 + n, acc.2 + 1) else acc
    end.
Definition openAIImageBytes (body : string) : Z * Z :=
  fold_left (fun acc msg => fold_left openai_part_images (visit (content msg)) acc) (visit (GetBytes body "messages")) (0, 0).
Definition base64ImageStats (e : RequestEnvelope) : Z * Z :=
  match e.(env_format) with
  | FormatAnthropic => anthropicImageBytes e.(env_body)
  | FormatOpenAI => openAIImageBytes e.(env_body)
  end.

(** ** Token estimates (features.go) *)

Definition contentBytesPerToken : Z := 4.
Definition fullBytesPerToken : Z := 6.
Definition imageTokenEstimate : Z := 1600.
Definition estimate (bytesPerToken : Z) (e : RequestEnvelope) : Z :=
  let '(imgBytes, imgCount) := base64ImageStats e in
  (len e.(env_body) - imgBytes) ÷ bytesPerToken + imgCount * imageTokenEstimate.
Definition FullTokenEstimate : RequestEnvelope -> Z := estimate fullBytesPerToken.
Definition ContextOverflowTokenEstimate : RequestEnvelope -> Z := estimate contentBytesPerToken.
Definition signatureFieldMarker : string := jq "'signature':'".
Fixpoint signature_bytes (fuel : nat) (body : string) : Z :=
  match fuel with
  | O => 0
  | S f =>
      match Index body signatureFieldMarker with
      | None => 0
      | Some rel =>
          let rest := str_drop (rel + String.length signatureFieldMarker) body in
          match Index rest (byte 34) with
          | None => 0
          | Some n => Z.of_nat n + signature_bytes f (str_drop (S n) rest)
          end
      end
  end.
Definition base64SignatureBytes (body : string) : Z := signature_bytes (String.length body) body.
Definition SignatureTokenSavings (e : RequestEnvelope) : Z :=
  match e.(env_format) with
  | FormatAnthropic => base64SignatureBytes e.(env_body) ÷ contentBytesPerToken
  | FormatOpenAI => 0
  end.

(** ** Routing features (features.go) *)

Definition intGJSON (v : Result) : Z :=
  if (negb (Exists v) || negb (bool_decide (TypeOf v = JNumber)))%bool then 0
  else if IntOf v <? 0 then 0 else IntOf v.
Definition openAIMaxTokens (body : string) : Z :=
  let n := intGJSON (GetBytes body "max_completion_tokens") in
  if 0 <? n then n else intGJSON (GetBytes body "max_tokens").
Definition classifyLastMessageOpenAI (role : string) : string :=
  if String.eqb role "assistant" then "assistant" else if String.eqb role "tool" then "tool_result" else "user_prompt".
Definition classifyLastMessageGJSON (role : string) (content : Result) : string :=
  if String.eqb role "assistant" then "assistant"
  else if negb (IsArray content) then "user_prompt"
  else if existsb (type_is "tool_result") (elements content) then "tool_result" else "user_prompt".
Definition previewMaxChars : Z := 120.
Definition previewText (text : string) : string :=
  if String.eqb text "" then "" else Preview (Join (Fields text) " ") previewMaxChars.
Definition previewGJSON (content : Result) : string := previewText (contentTextGJSON content).

Record Feats := {
  f_Tokens : Z; f_Model : string; f_HasTools : bool; f_HasImages : bool; f_PromptText : string; f_MessageCount : Z;
  f_MaxTokens : Z; f_LastKind : string; f_LastPreview : string; f_OnlyUserMessageText : string
}.
(** The features of either format: the text before the messages, the text of a message, the text of a user's
    message, the cap on the output and what is said of the last message. *)
Definition routing_features (e : RequestEnvelope) (extractOnlyUser : bool) (system : string)
  (message_text user_text : Result -> string) (max : Z) (kind preview : Result -> string) : Feats :=
  let msgs := visit (get e "messages") in
  let text := fold_left (fun b msg => appendText b (message_text (content msg))) msgs system in
  let only := fold_left (fun b msg => if (extractOnlyUser && role_is "user" msg)%bool
                                      then appendText b (user_text (content msg)) else b) msgs "" in
  {| f_Tokens := len text ÷ 4; f_Model := Model e; f_HasTools := HasTools e; f_HasImages := HasImages e;
     f_PromptText := text; f_MessageCount := Z.of_nat (length msgs); f_MaxTokens := max;
     f_LastKind := match last msgs with Some msg => kind msg | None => "" end;
     f_LastPreview := match last msgs with Some msg => preview msg | None => "" end;
     f_OnlyUserMessageText := only |}.
Definition anthropicRoutingFeatures (e : RequestEnvelope) (extractOnlyUser : bool) : Feats :=
  routing_features e extractOnlyUser (systemTextGJSON (get e "system")) contentTextGJSON userPromptTextGJSON
    (intGJSON (get e "max_tokens")) (fun msg => classifyLastMessageGJSON (field msg "role") (content msg))
    (fun msg => previewGJSON (content msg)).
Definition openAIRoutingFeatures (e : RequestEnvelope) (extractOnlyUser : bool) : Feats :=
  routing_features e extractOnlyUser "" openAIContentTextGJSON openAIContentTextGJSON
    (openAIMaxTokens e.(env_body)) (fun msg => classifyLastMessageOpenAI (field msg "role"))
    (fun msg => previewText (openAIContentTextGJSON (content msg))).
Definition env_RoutingFeatures (e : RequestEnvelope) (extractOnlyUser : bool) : Feats :=
  match e.(env_format) with
  | FormatAnthropic => anthropicRoutingFeatures e extractOnlyUser
  | FormatOpenAI => openAIRoutingFeatures e extractOnlyUser
  end.

(** What the classification of turns reads. *)
Definition turn_features (f : Feats) : RoutingFeatures := {|
  feat_Model := f.(f_Model); feat_Tokens := f.(f_Tokens); MaxTokens := f.(f_MaxTokens); feat_HasTools := f.(f_HasTools);
  MessageCount := f.(f_MessageCount); LastKind := f.(f_LastKind)
|}.
Definition turn_envelope (e : RequestEnvelope) : Envelope := {|
  SourceFormat := e.(env_format); RequestsTitleSchema := env_RequestsTitleSchema e; SystemText := env_SystemText e;
  LastUserText := (LastUserMessage e).(Text); FirstUserMessageText := env_FirstUserMessageText e;
  MetadataUserID := env_MetadataUserID e
|}.

(** ** The assistant's texts since the last human turn (text_repetition.go) *)

Definition isHumanText (s : string) : bool := (negb (String.eqb (TrimSpace s) "") && negb (isClaudeCodeInjectedBlock s))%bool.
Definition userIsHumanTurn (msg : Result) : bool :=
  let content := content msg in
  if IsStringType content then isHumanText (StringOf content)
  else if negb (IsArray content) then false
  else existsb (fun block => (type_is "text" block && isHumanText (field block "text"))%bool) (elements content).
Definition assistantMessageText (msg : Result) : string :=
  let content := content msg in
  if IsStringType content then StringOf content
  else if negb (IsArray content) then ""
  else fold_left (fun b block =>
         if negb (type_is "text" block) then b
         else (if String.eqb b "" then "" else b +:+ LF) +:+ field block "text") (elements content) "".
(** The messages from the last one back; the texts come out in the order of the conversation. *)
Fixpoint trailing_texts (rev_msgs : list Result) (acc : list string) : list string :=
  match rev_msgs with
  | [] => acc
  | msg :: rest =>
      if role_is "user" msg then if userIsHumanTurn msg then acc else trailing_texts rest acc
      else if role_is "assistant" msg then
        let s := assistantMessageText msg in trailing_texts rest (if String.eqb s "" then acc else s :: acc)
      else trailing_texts rest acc
  end.
Definition TrailingAssistantTexts (e : RequestEnvelope) : list string :=
  match e.(env_format) with
  | FormatAnthropic => trailing_texts (rev (messages e.(env_body))) []
  | FormatOpenAI => []
  end.
End Features.
