(* ===== verification/Synthetic.v ===== *)
(** The responses the router writes itself, without an upstream (internal/proxy/force_model.go,
    writeSynthetic...): to a command, or when it breaks a turn.  A response is its content type and its bytes; the
    clock, which the identifier and the time stamp come from, is an argument. *)

From stdpp Require Import base gmap sets list strings.
From Stdlib Require Import ZArith Lia Ascii.
From S2P Require Import Prelude Strings Sse Marshal Hash Json TurnTypes Features.
Open Scope string_scope.
Open Scope Z_scope.

(** ** Rendering *)

Fixpoint hex_fuel (fuel : nat) (n : Z) (acc : string) : string :=
  match fuel with
  | O => acc
  | S f => let acc := String (hex_digit (n mod 16)) acc in if n <? 16 then acc else hex_fuel f (n / 16) acc
  end.
(** [%x] of an int64. *)
Definition hex_int (n : Z) : string := if n <? 0 then "-" +:+ hex_fuel 16 (- n) "" else hex_fuel 16 n "".
Definition sseEvent (eventType data : string) : string := "event: " +:+ eventType +:+ LF +:+ "data: " +:+ data +:+ LFLF.
Definition openAISSEData (data : string) : string := "data: " +:+ data +:+ LFLF.
(** [len(text) / 4]. *)
Definition out_tokens (text : string) : Z := len text / 4.

Record Response := { ContentType : string; Bytes : string }.
Definition json_response (v : JSON) : Response := {| ContentType := "application/json"; Bytes := Marshal v |}.
Definition sse_response (events : list string) : Response := {| ContentType := "text/event-stream"; Bytes := String.concat "" events |}.

(** ** Anthropic *)

Definition anthropic_usage (input output : Z) : JSON := VMap [("input_tokens", VInt input); ("output_tokens", VInt output)].
Definition anthropic_message (msgID text : string) (inputTokens : Z) : JSON :=
  VMap [("id", VString msgID); ("type", VString "message"); ("role", VString "assistant"); ("model", VString "aiand-router");
    ("stop_reason", VString "end_turn"); ("stop_sequence", VNull);
    ("content", VArray [VMap [("type", VString "text"); ("text", VString text)]]);
    ("usage", anthropic_usage inputTokens (out_tokens text))].
Definition writeSyntheticAnthropicJSON (msgID text : string) (inputTokens : Z) : Response :=
  json_response (anthropic_message msgID text inputTokens).
(** The events of the stream: the type and the value of each. *)
Definition anthropic_events (msgID text : string) (inputTokens : Z) : list (string * JSON) :=
  [ ("message_start", VMap [("type", VString "message_start");
       ("message", VMap [("id", VString msgID); ("type", VString "message"); ("role", VString "assistant"); ("content", VArray []);
          ("model", VString "aiand-router"); ("stop_reason", VNull); ("stop_sequence", VNull); ("usage", anthropic_usage inputTokens 0)])]);
    ("content_block_start", VMap [("type", VString "content_block_start"); ("index", VInt 0);
       ("content_block", VMap [("type", VString "text"); ("text", VString "")])]);
    ("ping", VObject [("type", VString "ping")]);
    ("content_block_delta", VMap [("type", VString "content_block_delta"); ("index", VInt 0);
       ("delta", VMap [("type", VString "text_delta"); ("text", VString text)])]);
    ("content_block_stop", VObject [("type", VString "content_block_stop"); ("index", VInt 0)]);
    ("message_delta", VMap [("type", VString "message_delta");
       ("delta", VMap [("stop_reason", VString "end_turn"); ("stop_sequence", VNull)]); ("usage", VMap [("output_tokens", VInt (out_tokens text))])]);
    ("message_stop", VObject [("type", VString "message_stop")]) ].
Definition writeSyntheticAnthropicSSE (msgID text : string) (inputTokens : Z) : Response :=
  sse_response ((fun ev => sseEvent ev.1 (Marshal ev.2)) <$> anthropic_events msgID text inputTokens).

(** ** OpenAI *)

Definition openai_usage (input output : Z) : JSON :=
  VMap [("prompt_tokens", VInt input); ("completion_tokens", VInt output); ("total_tokens", VInt (wrap64 (input + output)))].
Definition openai_completion (respID text : string) (inputTokens now : Z) : JSON :=
  VMap [("id", VString respID); ("object", VString "chat.completion"); ("created", VInt (now / Second));
    ("model", VString "aiand-router");
    ("choices", VArray [VMap [("index", VInt 0); ("message", VMap [("role", VString "assistant"); ("content", VString text)]);
                              ("finish_reason", VString "stop")]]);
    ("usage", openai_usage inputTokens (out_tokens text))].
Definition writeSyntheticOpenAIJSON (respID text : string) (inputTokens now : Z) : Response :=
  json_response (openai_completion respID text inputTokens now).
Definition openai_chunk (respID : string) (now : Z) (delta finish : JSON) (usage : list (string * JSON)) : JSON :=
  VMap ([("id", VString respID); ("object", VString "chat.completion.chunk"); ("created", VInt (now / Second)); ("model", VString "aiand-router");
         ("choices", VArray [VMap [("index", VInt 0); ("delta", delta); ("finish_reason", finish)]])] ++ usage)%list.
Definition openai_chunks (respID text : string) (inputTokens now : Z) : list JSON :=
  [ openai_chunk respID now (VMap [("role", VString "assistant"); ("content", VString text)]) VNull [];
    openai_chunk respID now (VMap []) (VString "stop") [("usage", openai_usage inputTokens (out_tokens text))] ].
Definition writeSyntheticOpenAISSE (respID text : string) (inputTokens now : Z) : Response :=
  sse_response ((openAISSEData <$> (Marshal <$> openai_chunks respID text inputTokens now)) ++ [openAISSEData "[DONE]"])%list.

Section Respond.
Context `{Gjson}.
Definition writeSyntheticAnthropicResponse (env : RequestEnvelope) (text : string) (inputTokens now : Z) : Response :=
  let msgID := "msg_router_cmd_" +:+ hex_int now in
  if Stream env then writeSyntheticAnthropicSSE msgID text inputTokens else writeSyntheticAnthropicJSON msgID text inputTokens.
Definition writeSyntheticOpenAIResponse (env : RequestEnvelope) (text : string) (inputTokens now : Z) : Response :=
  let respID := "chatcmpl_router_cmd_" +:+ hex_int now in
  if Stream env then writeSyntheticOpenAISSE respID text inputTokens now else writeSyntheticOpenAIJSON respID text inputTokens now.
(** In the client's format; the text of each format is its own. *)
Definition respond (env : RequestEnvelope) (anthropic openai : string) (inputTokens now : Z) : Response :=
  match env.(env_format) with
  | FormatOpenAI => writeSyntheticOpenAIResponse env openai inputTokens now
  | _ => writeSyntheticAnthropicResponse env anthropic inputTokens now
  end.

(** ** The messages of broken turns (no_progress.go, text_repetition.go) *)

(** [noProgressTimeWindow] as a time.Duration prints. *)
Definition window_text : string := "1m30s".
Definition pin_action (preserved : bool) : string :=
  if preserved then "preserving the explicit force-model pin for the next message" else "clearing the session pin so the next message re-routes".
Definition follow_up : string :=
  LFLF +:+ "If the task is genuinely incomplete, send a follow-up message describing what's still needed; the router will pick a different model." +:+ LFLF.
Definition no_progress_response (env : RequestEnvelope) (count : Z) (preserved : bool) (model provider : string) (inputTokens now : Z) : Response :=
  respond env
    ("✦ **Aiand Router** → No-progress loop detected: " +:+ WriteJSONInt count +:+ " consecutive requests under this session routed to `" +:+ model
       +:+ "` (`" +:+ provider +:+ "`) with no observable progress in " +:+ window_text +:+ ". Stopping this turn and " +:+ pin_action preserved +:+ "." +:+ follow_up)
    ("Aiand Router: no-progress loop detected (" +:+ WriteJSONInt count +:+ " consecutive routes to " +:+ model +:+ "/" +:+ provider
       +:+ " with no progress in " +:+ window_text +:+ "). Stopping and " +:+ pin_action preserved +:+ ".")
    inputTokens now.
Definition text_repetition_response (env : RequestEnvelope) (count : Z) (model provider : string) (inputTokens now : Z) : Response :=
  respond env
    ("✦ **Aiand Router** → Repetition loop detected: `" +:+ model +:+ "` (`" +:+ provider +:+ "`) repeated the same response " +:+ WriteJSONInt count
       +:+ " times without making progress. Stopping this turn and clearing the session pin so the next message re-routes to a fresh model." +:+ follow_up)
    ("Aiand Router: repetition loop detected (" +:+ model +:+ "/" +:+ provider +:+ " repeated the same response " +:+ WriteJSONInt count
       +:+ " times). Stopping and clearing the session pin; send a follow-up to resume on a different model.")
    inputTokens now.
End Respond.

(** ** What a client reads *)

Lemma Index_skip_bytes (x s p : string) (b : ascii) q : p = String b q -> all_bytes (fun a => negb (Ascii.eqb a b)) x = true ->
  Index (x +:+ s) p = (fun i => (String.length x + i)%nat) <$> Index s p.
Proof.
  intros ->. induction x as [|a x IH]; intros A; [change ("" +:+ s) with s; destruct (Index s _); reflexivity|].
  cbn [all_bytes] in A. apply andb_prop in A as [Aa A]. rewrite str_app_cons, Index_cons, (IH A).
  assert (H : HasPrefix (String a (x +:+ s)) (String b q) = false).
  { cbn. apply negb_true_iff in Aa. rewrite Ascii.eqb_sym in Aa. rewrite Aa. reflexivity. }
  rewrite H. destruct (Index s (String b q)); reflexivity.
Qed.
Lemma printable_not x b : all_bytes printable x = true -> bval b < 32 -> all_bytes (fun a => negb (Ascii.eqb a b)) x = true.
Proof.
  intros P L. apply (all_bytes_impl printable); [|exact P]. intros a E. unfold printable in E. apply Z.leb_le in E.
  apply negb_true_iff. destruct (Ascii.eqb_spec a b); [subst; lia|reflexivity].
Qed.
Lemma split_one fb rest : Index (fb +:+ LFLF) LFLF = Some (String.length fb) -> Index (fb +:+ LFLF) CRLF2 = None ->
  split_all (fb +:+ LFLF +:+ rest) = (fb :: (split_all rest).1, (split_all rest).2).
Proof.
  intros L C. rewrite <- str_app_assoc, split_all_step.
  assert (N : SplitNext (fb +:+ LFLF) = Some (fb, (String.length fb + 2)%nat)) by (unfold SplitNext; rewrite L, C, str_take_app; reflexivity).
  rewrite (SplitNext_app _ _ _ _ N). replace (String.length fb + 2)%nat with (String.length (fb +:+ LFLF)) by (rewrite str_length_app; reflexivity).
  rewrite str_drop_app. destruct (split_all rest). reflexivity.
Qed.
(** One line, or two of them. *)
Lemma no_cr x : all_bytes (fun a => negb (Ascii.eqb a "013"%char)) x = true -> Index x CRLF2 = None.
Proof. intros A. pose proof (Index_skip_bytes x "" CRLF2 "013"%char _ eq_refl A) as E. rewrite str_app_nil_r in E. exact E. Qed.
Lemma split_line w rest : all_bytes printable w = true ->
  split_all (w +:+ LFLF +:+ rest) = (w :: (split_all rest).1, (split_all rest).2).
Proof.
  intros P. apply split_one.
  - rewrite (Index_skip_bytes w LFLF LFLF "010"%char LF eq_refl) by (apply printable_not; [exact P|reflexivity]).
    change (Index LFLF LFLF) with (Some 0%nat). change (Some (String.length w + 0)%nat = Some (String.length w)). f_equal. lia.
  - apply no_cr, all_bytes_app; [apply printable_not; [exact P|reflexivity]|reflexivity].
Qed.
Lemma split_lines x a y rest : all_bytes printable x = true -> all_bytes printable (String a y) = true ->
  split_all ((x +:+ LF +:+ String a y) +:+ LFLF +:+ rest) = ((x +:+ LF +:+ String a y) :: (split_all rest).1, (split_all rest).2).
Proof.
  intros P Q. pose proof (printable_not x "010"%char P eq_refl) as P1. pose proof (printable_not _ "010"%char Q eq_refl) as Q1.
  apply split_one.
  - rewrite !str_app_assoc, (Index_skip_bytes x _ LFLF "010"%char LF eq_refl P1). change (LF +:+ ?t) with (String "010" t).
    assert (E : Index (String a y +:+ LFLF) LFLF = Some (String.length (String a y))).
    { rewrite (Index_skip_bytes _ LFLF LFLF "010"%char LF eq_refl Q1). change (Index LFLF LFLF) with (Some 0%nat).
      change (Some (String.length (String a y) + 0)%nat = Some (String.length (String a y))). f_equal. lia. }
    rewrite Index_cons, E. assert (H : HasPrefix (String "010" (String a y +:+ LFLF)) LFLF = false).
    { cbn [all_bytes] in Q1. apply andb_prop in Q1 as [Q1 _]. apply negb_true_iff in Q1. rewrite str_app_cons.
      change LFLF with (String "010" (String "010" "")). cbn [HasPrefix]. rewrite (Ascii.eqb_sym "010"%char a), Q1. reflexivity. }
    rewrite H. cbn. f_equal. rewrite !str_length_app. cbn. lia.
  - apply no_cr. repeat apply all_bytes_app; try (apply printable_not; [assumption|reflexivity]); reflexivity.
Qed.

(** Text a client's parser takes as it is: it starts and ends with a printable ASCII byte. *)
Definition wordy (w : string) : Prop := exists a s b, w = String a s /\ word_byte a = true /\ last_byte w = Some b /\ word_byte b = true.
Lemma trim_blank w : wordy w -> TrimSpace (String " " w) = w.
Proof.
  intros (a & s & b & -> & Wa & L & Wb). pose proof (TrimSpace_word a s b Wa L Wb) as T. unfold TrimSpace in *. cbv zeta in *.
  assert (E : trim_left_fuel (String.length (String " " (String a s))) (String " " (String a s)) = trim_left_fuel (String.length (String a s)) (String a s)).
  { cbn [String.length]. change (trim_left_fuel (S (S (String.length s))) (String " " (String a s)))
      with (trim_left_fuel (S (String.length s)) (String a s)). reflexivity. }
  rewrite E. exact T.
Qed.
Lemma trim_cr_word w : wordy w -> forall p, TrimRightCR (p +:+ w) = p +:+ w.
Proof.
  intros (a & s & b & E & _ & L & Wb) p. unfold TrimRightCR.
  assert (X : exists l, rev (String.list_ascii_of_string (p +:+ w)) = b :: l).
  { assert (Lp : last_byte (p +:+ w) = Some b).
    { clear Wb. induction p as [|c p IH]; [exact L|]. rewrite str_app_cons.
      destruct (p +:+ w) eqn:Z; [|exact IH]. subst w. destruct p; discriminate. }
    revert Lp. generalize (p +:+ w) as u. clear. induction u as [|c u IH]; [discriminate|]. cbn [String.list_ascii_of_string rev].
    destruct u as [|d u]; [intros [= ->]; exists []; reflexivity|]. intros E. destruct (IH E) as [l ->]. exists (l ++ [c])%list. reflexivity. }
  destruct X as [l X]. rewrite X. cbn. assert (N : Ascii.eqb b (ascii_of_nat 13) = false).
  { destruct (Ascii.eqb_spec b (ascii_of_nat 13)); [subst b; discriminate|reflexivity]. }
  rewrite N. change (b :: l) with (b :: l). rewrite <- X, rev_involutive, String.string_of_list_ascii_of_string. reflexivity.
Qed.
Lemma parse_sse_event t d : wordy t -> wordy d -> all_bytes printable t = true -> all_bytes printable d = true ->
  ParseEvent ("event: " +:+ t +:+ LF +:+ "data: " +:+ d) = (t, d).
Proof.
  intros Wt Wd Pt Pd. unfold ParseEvent.
  assert (I1 : Index ("event: " +:+ t +:+ LF +:+ "data: " +:+ d) LF = Some (String.length ("event: " +:+ t))).
  { rewrite <- str_app_assoc. rewrite (Index_skip_bytes _ _ LF "010"%char "" eq_refl).
    - change (LF +:+ ?u) with (String "010" u). rewrite Index_cons. change (HasPrefix (String "010" ?u) LF) with true. cbn iota.
      change (Some (String.length ("event: " +:+ t) + 0)%nat = Some (String.length ("event: " +:+ t))). f_equal. lia.
    - apply printable_not; [apply all_bytes_app; [reflexivity|exact Pt]|reflexivity]. }
  assert (I2 : Index ("data: " +:+ d) LF = None).
  { pose proof (Index_skip_bytes ("data: " +:+ d) "" LF "010"%char "" eq_refl) as X. rewrite str_app_nil_r in X. apply X.
    apply printable_not; [apply all_bytes_app; [reflexivity|exact Pd]|reflexivity]. }
  cbn [parse_fuel]. rewrite I1.
  change (String.eqb ("event: " +:+ t +:+ LF +:+ "data: " +:+ d) "") with false. cbn iota.
  replace (str_take _ _) with ("event: " +:+ t) by (rewrite <- (str_app_assoc "event: " t), str_take_app; reflexivity).
  replace (str_drop _ _) with ("data: " +:+ d).
  2:{ rewrite <- (str_app_assoc "event: " t). change (S (String.length ("event: " +:+ t))) with (1 + String.length ("event: " +:+ t))%nat.
      rewrite Nat.add_comm, <- str_drop_drop, str_drop_app. reflexivity. }
  assert (F : exists n, String.length ("event: " +:+ t +:+ LF +:+ "data: " +:+ d) = S n) by (eexists; reflexivity).
  destruct F as [n ->]. cbn [parse_fuel]. rewrite I2. change (String.eqb ("data: " +:+ d) "") with false. cbn iota.
  unfold parse_line at 2. rewrite (trim_cr_word t Wt). change ("event: " +:+ t) with ("event:" +:+ String " " t). rewrite CutPrefix_app, (trim_blank t Wt).
  unfold parse_line. rewrite (trim_cr_word d Wd). change (CutPrefix ("data: " +:+ d) "event:") with (@None string).
  change (String.eqb "" "") with true. cbn iota. change ("data: " +:+ d) with ("data:" +:+ String " " d). rewrite CutPrefix_app, (trim_blank d Wd). reflexivity.
Qed.
Lemma parse_sse_data d : wordy d -> all_bytes printable d = true -> ParseEvent ("data: " +:+ d) = ("", d).
Proof.
  intros Wd Pd. unfold ParseEvent. cbn [parse_fuel].
  assert (I2 : Index ("data: " +:+ d) LF = None).
  { pose proof (Index_skip_bytes ("data: " +:+ d) "" LF "010"%char "" eq_refl) as X. rewrite str_app_nil_r in X. apply X.
    apply printable_not; [apply all_bytes_app; [reflexivity|exact Pd]|reflexivity]. }
  rewrite I2. change (String.eqb ("data: " +:+ d) "") with false. cbn iota. unfold parse_line. rewrite (trim_cr_word d Wd).
  change (CutPrefix ("data: " +:+ d) "event:") with (@None string). change (String.eqb "" "") with true. cbn iota.
  change ("data: " +:+ d) with ("data:" +:+ String " " d). rewrite CutPrefix_app, (trim_blank d Wd). reflexivity.
Qed.
Lemma object_wordy l : wordy (Marshal (VObject l)).
Proof.
  cbn [Marshal]. unfold bracket. set (m := String.concat "," _). exists (bchr 123), (m +:+ String (bchr 125) ""), (bchr 125).
  split; [reflexivity|]. split; [reflexivity|]. split; [|reflexivity].
  change (last_byte (String (bchr 123) m +:+ String (bchr 125) "") = Some (bchr 125)).
  generalize (String (bchr 123) m) as p. induction p as [|c p IH]; [reflexivity|]. rewrite str_app_cons.
  destruct (p +:+ String (bchr 125) "") eqn:Z; [destruct p; discriminate|exact IH].
Qed.
Ltac fits := repeat (rewrite ints_fit_map || cbn [ints_fit forallb snd andb app]).
Definition is_object (v : JSON) : Prop := exists l, v = VObject l.
Lemma sse_events_read (events : list (string * JSON)) :
  Forall (fun ev => wordy ev.1 /\ all_bytes printable ev.1 = true /\ is_object ev.2) events ->
  let read := split_all (String.concat "" ((fun ev => sseEvent ev.1 (Marshal ev.2)) <$> events)) in
  read.2 = "" /\ ParseEvent <$> read.1 = (fun ev => (ev.1, Marshal ev.2)) <$> events.
Proof.
  cbv zeta. induction 1 as [|[t v] events (Wt & Pt & l & E) _ IH]; [split; reflexivity|]. cbn [fst snd] in *. subst v.
  rewrite !fmap_cons, concat_cons. cbn [fst snd].
  pose proof (Marshal_printable (VObject l)) as Pd. pose proof (object_wordy l) as Wd.
  assert (X : forall rest, split_all (sseEvent t (Marshal (VObject l)) +:+ rest) =
    (("event: " +:+ t +:+ LF +:+ "data: " +:+ Marshal (VObject l)) :: (split_all rest).1, (split_all rest).2)).
  { intros rest. unfold sseEvent. pose proof (split_lines ("event: " +:+ t) "d" ("ata: " +:+ Marshal (VObject l)) rest) as S. rewrite !str_app_assoc in *.
    apply S; [apply all_bytes_app; [reflexivity|exact Pt]|]. change (all_bytes printable ("data: " +:+ Marshal (VObject l)) = true).
    apply all_bytes_app; [reflexivity|exact Pd]. }
  rewrite X. cbn [fst snd]. destruct IH as [IH1 IH2]. split; [exact IH1|]. refine (f_equal2 cons _ IH2).
  apply parse_sse_event; assumption.
Qed.
Lemma sse_data_read (datas : list string) : Forall (fun d => wordy d /\ all_bytes printable d = true) datas ->
  let read := split_all (String.concat "" (openAISSEData <$> datas)) in read.2 = "" /\ ParseEvent <$> read.1 = pair "" <$> datas.
Proof.
  cbv zeta. induction 1 as [|d datas [W P] _ IH]; [split; reflexivity|]. rewrite !fmap_cons, concat_cons.
  assert (X : forall rest, split_all (openAISSEData d +:+ rest) = (("data: " +:+ d) :: (split_all rest).1, (split_all rest).2)).
  { intros rest. unfold openAISSEData. rewrite !str_app_assoc, <- (str_app_assoc "data: "). apply split_line, all_bytes_app; [reflexivity|exact P]. }
  rewrite X.
  cbn [fst snd]. destruct IH as [IH1 IH2]. split; [exact IH1|]. refine (f_equal2 cons _ IH2). apply parse_sse_data; assumption.
Qed.
(** A client that reads JSON off a text. *)
Definition decodes (d : string) (v : JSON) : Prop := exists fuel, read_value fuel d = Some (valid_json v, "").
Lemma Marshal_decodes v : ints_fit v = true -> decodes (Marshal v) v.
Proof.
  intros F. exists (weight v). pose proof (marshal_read v "" (weight v) ltac:(lia) F I) as R. rewrite str_app_nil_r in R. exact R.
Qed.
Lemma out_tokens_fit text : len text < 2 ^ 63 -> ((- 2 ^ 63 <=? out_tokens text) && (out_tokens text <? 2 ^ 63))%bool = true.
Proof. intros L. unfold out_tokens. assert (0 <= len text) by (unfold len; lia). rewrite andb_true_iff, Z.leb_le, Z.ltb_lt. Z.to_euclidean_division_equations. lia. Qed.
Lemma wrap64_fit z : ((- 2 ^ 63 <=? wrap64 z) && (wrap64 z <? 2 ^ 63))%bool = true.
Proof.
  rewrite andb_true_iff, Z.leb_le, Z.ltb_lt. unfold wrap64, wrapS. pose proof (Z.mod_pos_bound (z + 2 ^ (64 - 1)) (2 ^ 64) eq_refl). lia.
Qed.

(** C35: a response the router writes itself is well formed.  The Anthropic stream is read by an
    event-stream client as exactly its seven events, in the order of the protocol, and the OpenAI stream as its two chunks and
    [DONE]; nothing is left over, whatever text the response carries; and each event's data, like the body of a
    response that is not streamed, decodes to the value it was written from. *)
Theorem synthetic_responses_read (msgID text : string) (inputTokens now : Z) :
  - 2 ^ 63 <= inputTokens < 2 ^ 63 -> 0 <= now < 2 ^ 63 -> len text < 2 ^ 63 ->
  (let read := split_all (Bytes (writeSyntheticAnthropicSSE msgID text inputTokens)) in
   read.2 = "" /\ ParseEvent <$> read.1 = (fun ev => (ev.1, Marshal ev.2)) <$> anthropic_events msgID text inputTokens) /\
  (forall t v, (t, v) ∈ anthropic_events msgID text inputTokens -> decodes (Marshal v) v) /\
  (let read := split_all (Bytes (writeSyntheticOpenAISSE msgID text inputTokens now)) in
   read.2 = "" /\ ParseEvent <$> read.1 = pair "" <$> ((Marshal <$> openai_chunks msgID text inputTokens now) ++ ["[DONE]"])%list) /\
  (forall v, v ∈ openai_chunks msgID text inputTokens now -> decodes (Marshal v) v) /\
  decodes (Bytes (writeSyntheticAnthropicJSON msgID text inputTokens)) (anthropic_message msgID text inputTokens) /\
  decodes (Bytes (writeSyntheticOpenAIJSON msgID text inputTokens now)) (openai_completion msgID text inputTokens now).
Proof.
  intros Li Ln Lt. pose proof (out_tokens_fit text Lt) as Fo. pose proof (wrap64_fit (inputTokens + out_tokens text)) as Fw.
  assert (Fi : ((- 2 ^ 63 <=? inputTokens) && (inputTokens <? 2 ^ 63))%bool = true) by lia.
  assert (Fn : ((- 2 ^ 63 <=? now / Second) && (now / Second <? 2 ^ 63))%bool = true).
  { assert (P : 0 < Second) by reflexivity. pose proof (Z.div_pos now Second ltac:(lia) P).
    pose proof (Z.div_le_upper_bound now Second now P ltac:(nia)). lia. }
  split; [|split; [|split; [|split; [|split]]]].
  - apply sse_events_read. unfold anthropic_events. repeat (apply Forall_cons; split;
      [split; [eexists _, _, _; split; [reflexivity|repeat split]|split; [reflexivity|eexists; reflexivity]]|]). apply Forall_nil; exact I.
  - intros t v E. apply Marshal_decodes. unfold anthropic_events in E.
    repeat (apply elem_of_cons in E as [[= -> ->]|E]; [unfold anthropic_usage; fits; rewrite ?Fi, ?Fo; reflexivity|]). inversion E.
  - cbn [Bytes writeSyntheticOpenAISSE sse_response]. change [openAISSEData "[DONE]"] with (openAISSEData <$> ["[DONE]"]). rewrite <- fmap_app.
    apply sse_data_read. apply Forall_app. split.
    + unfold openai_chunks. repeat (apply Forall_cons; split; [split; [apply object_wordy|apply Marshal_printable]|]). apply Forall_nil; exact I.
    + apply Forall_cons. split; [|apply Forall_nil; exact I]. split; [eexists _, _, _; split; [reflexivity|repeat split]|reflexivity].
  - intros v E. apply Marshal_decodes. unfold openai_chunks in E.
    repeat (apply elem_of_cons in E as [->|E]; [unfold openai_chunk, openai_usage; fits; rewrite ?Fi, ?Fo, ?Fn, ?Fw; reflexivity|]). inversion E.
  - apply Marshal_decodes. unfold anthropic_message, anthropic_usage. fits. rewrite ?Fi, ?Fo. reflexivity.
  - apply Marshal_decodes. unfold openai_completion, openai_usage. fits. rewrite ?Fi, ?Fo, ?Fn, ?Fw. reflexivity.
Qed.

(** A text with a line break, a markup character and a byte that is not UTF-8. *)
Definition ex_text : string := "stop <b>" +:+ LF +:+ byte 255.
Lemma synthetic_responses_read_witness :
  (split_all (Bytes (writeSyntheticAnthropicSSE "msg_1" ex_text 7))).2 = "" /\
  ParseEvent <$> (split_all (Bytes (writeSyntheticOpenAISSE "msg_1" ex_text 7 Second))).1 =
    pair "" <$> ((Marshal <$> openai_chunks "msg_1" ex_text 7 Second) ++ ["[DONE]"])%list.
Proof.
  destruct (synthetic_responses_read "msg_1" ex_text 7 Second ltac:(lia) ltac:(split; [discriminate|reflexivity]) ltac:(reflexivity))
    as ([A _] & _ & [_ B] & _).
  exact (conj A B).
Defined.
