(* ===== verification/History.v ===== *)
(** What the router reads of the history of a conversation: the assistant's tool calls and their canonical hashes
    (internal/translate/loop_detection.go), and the outcomes, file targets and monologues of
    internal/translate/spiral_signals.go. *)

From stdpp Require Import base gmap sets list strings sorting.
From Stdlib Require Import ZArith Lia Ascii.
From S2P Require Import Prelude Strings Sse Json Hash ThinkTag Toolcheck Types TurnTypes Exclusions Features.
Open Scope string_scope.
Open Scope Z_scope.

Record ToolCallSig := { sig_Name : string; InputHash : string }.
#[export] Instance ToolCallSig_eq_dec : EqDecision ToolCallSig.
Proof. solve_decision. Defined.
Record assistantToolCallEntry := { entry_Name : string; InputRaw : string }.

Section History.
Context `{Gjson}.

(** ** Canonical hashes (loop_detection.go) *)

Definition hexDigit (n : Z) : ascii := bchr (if n <? 10 then 48 + n else 97 + n - 10).
Definition quote_rune (r : Z) : string :=
  if r =? 34 then jq "\'" else if r =? 92 then "\\" else if r =? 10 then "\n" else if r =? 13 then "\r"
  else if r =? 9 then "\t"
  else if r <? 32 then "\u00" +:+ String (hexDigit (Z.shiftr r 4)) (String (hexDigit (Z.land r 15)) "")
  else encode_rune r.
Definition jsonQuote (s : string) : string := byte 34 +:+ String.concat "" (quote_rune <$> runes s) +:+ byte 34.

(** The insertion sort, byte order. *)
Fixpoint insert_last (x : string) (l : list string) : list string :=
  match l with
  | [] => [x]
  | y :: l' => if String.ltb x y then x :: l else y :: insert_last x l'
  end.
Definition sortStrings (s : list string) : list string := fold_left (fun l x => insert_last x l) s [].

(** [fields[k]] after every member was stored: the last one of that name. *)
Definition last_member (k : string) (l : list (string * Result)) : option Result :=
  snd <$> last (List.filter (fun p => String.eqb p.1 k) l).
(** The fuel bounds the nesting. *)
Fixpoint canonicalizeInto (fuel : nat) (r : Result) : string :=
  match fuel with
  | O => ""
  | S f =>
      if IsObject r then
        "{" +:+ Join ((fun k => jsonQuote k +:+ ":" +:+ match last_member k (members r) with
                                                         | Some v => canonicalizeInto f v
                                                         | None => ""
                                                         end) <$> sortStrings (members r).*1) "," +:+ "}"
      else if IsArray r then "[" +:+ Join (canonicalizeInto f <$> elements r) "," +:+ "]"
      else Raw r
  end.
(** A value is nested no deeper than its text is long. *)
Definition canonicalize (r : Result) : string := canonicalizeInto (S (String.length (Raw r))) r.
Definition hashCanonicalJSON (raw : string) : string :=
  if String.eqb raw "" then sha256_hex ""
  else
    let parsed := Parse raw in
    if negb (Exists parsed) then sha256_hex raw else sha256_hex (canonicalize parsed).

Definition isMeaningfulInputRaw (raw : string) : bool :=
  if in_strings raw [""; "{}"; "null"] then false
  else
    let parsed := Parse raw in
    if negb (IsObject parsed) then negb (String.eqb raw "")
    else match members parsed with [] => false | _ => true end.
Definition isMeaningfulInput (r : Result) : bool :=
  if negb (Exists r) then false
  else if IsObject r then match members r with [] => false | _ => true end
  else isMeaningfulInputRaw (Raw r).

(** ** The assistant's tool calls (loop_detection.go) *)

(** The blocks of an array that are tool calls with a name. *)
Definition named_calls (kind name : string) (v : Result) : list Result :=
  if IsArray v then List.filter (fun b => (type_is kind b && negb (String.eqb (field b name) ""))%bool) (elements v) else [].
Definition anthropic_calls (msg : Result) : list assistantToolCallEntry :=
  (fun b => {| entry_Name := field b "name"; InputRaw := Raw (GetPath b "input") |})
    <$> List.filter (fun b => isMeaningfulInput (GetPath b "input")) (named_calls "tool_use" "name" (content msg)).
Definition openai_calls (msg : Result) : list assistantToolCallEntry :=
  (fun tc => {| entry_Name := field tc "function.name"; InputRaw := field tc "function.arguments" |})
    <$> List.filter (fun tc => isMeaningfulInputRaw (field tc "function.arguments"))
          (named_calls "function" "function.name" (GetPath msg "tool_calls")).
(** A message after the calls collected so far: a prompt the user typed empties them. *)
Definition collect (calls : Result -> list assistantToolCallEntry) (entries : list assistantToolCallEntry) (msg : Result)
  : list assistantToolCallEntry :=
  if (role_is "user" msg && negb (String.eqb (userPromptTextGJSON (content msg)) ""))%bool then []
  else if negb (role_is "assistant" msg) then entries
  else (entries ++ calls msg)%list.
Definition anthropicAssistantToolCallEntries (body : string) : list assistantToolCallEntry :=
  fold_left (collect anthropic_calls) (messages body) [].
Definition openAIAssistantToolCallEntries (body : string) : list assistantToolCallEntry :=
  fold_left (collect openai_calls) (messages body) [].
Definition tool_call_entries (e : RequestEnvelope) : list assistantToolCallEntry :=
  match e.(env_format) with
  | FormatAnthropic => anthropicAssistantToolCallEntries e.(env_body)
  | FormatOpenAI => openAIAssistantToolCallEntries e.(env_body)
  end.
Definition sigsFromEntries (entries : list assistantToolCallEntry) : list ToolCallSig :=
  (fun e => {| sig_Name := e.(entry_Name); InputHash := hashCanonicalJSON e.(InputRaw) |}) <$> entries.
Definition AssistantToolCallSignatures (e : RequestEnvelope) : list ToolCallSig := sigsFromEntries (tool_call_entries e).
Definition assistantToolCallArgsPreview (entries : list assistantToolCallEntry) (offset : nat) (maxLen : nat) : list string :=
  (fun e => e.(entry_Name) +:+ ":" +:+ (if Nat.ltb maxLen (String.length e.(InputRaw)) then str_take maxLen e.(InputRaw) +:+ ellipsis
                                        else e.(InputRaw))) <$> skipn offset entries.
Definition AssistantToolCallArgsPreview (e : RequestEnvelope) (offset maxLen : nat) : list string :=
  assistantToolCallArgsPreview (tool_call_entries e) offset maxLen.

(** ** Errored results (spiral_signals.go) *)

Definition toolResultErrorScanLimit : nat := 2048.
Definition toolResultErrorMarkers : list string := ["Traceback (most recent call last)"; "FAILED"; "Error:"; "error:"].
(** Text blocks are read until the limit is reached. *)
Fixpoint result_text (blocks : list Result) (b : string) : string :=
  match blocks with
  | [] => b
  | inner :: rest =>
      let b := if type_is "text" inner then b +:+ field inner "text" else b in
      if Nat.ltb (String.length b) toolResultErrorScanLimit then result_text rest b else b
  end.
Definition has_error_marker (text : string) : bool := existsb (Contains (str_take toolResultErrorScanLimit text)) toolResultErrorMarkers.
Definition toolResultIsErrored (block : Result) : bool :=
  if BoolOf (GetPath block "is_error") then true
  else
    let content := content block in
    if IsStringType content then has_error_marker (StringOf content)
    else if IsArray content then has_error_marker (result_text (elements content) "")
    else false.

Record ToolResultErrorStats := { Total : Z; Errored : Z; TrailingErrStreak : Z }.
Definition no_results : ToolResultErrorStats := {| Total := 0; Errored := 0; TrailingErrStreak := 0 |}.
Definition count_result (s : ToolResultErrorStats) (block : Result) : ToolResultErrorStats :=
  if toolResultIsErrored block
  then {| Total := s.(Total) + 1; Errored := s.(Errored) + 1; TrailingErrStreak := s.(TrailingErrStreak) + 1 |}
  else {| Total := s.(Total) + 1; Errored := s.(Errored); TrailingErrStreak := 0 |}.
(** The blocks of a type in the messages of a role, in order. *)
Definition blocks_of (role kind : string) (msgs : list Result) : list Result :=
  flat_map (fun msg => if (role_is role msg && IsArray (content msg))%bool
                       then List.filter (type_is kind) (elements (content msg)) else []) msgs.
Definition anthropic_messages (e : RequestEnvelope) : list Result :=
  match e.(env_format) with FormatAnthropic => messages e.(env_body) | FormatOpenAI => [] end.
Definition ToolResultErrors (e : RequestEnvelope) : ToolResultErrorStats :=
  fold_left count_result (blocks_of "user" "tool_result" (anthropic_messages e)) no_results.

Record ToolCallOutcome := { out_Name : string; Resolved : bool; out_Errored : bool }.
Definition toolResultOutcomesByID (msgs : list Result) : gmap string bool :=
  fold_left (fun out block =>
    let id := field block "tool_use_id" in
    if String.eqb id "" then out else <[id := toolResultIsErrored block]> out) (blocks_of "user" "tool_result" msgs) ∅.
Definition named (block : Result) : bool := negb (String.eqb (field block "name") "").
Definition AssistantToolCallOutcomes (e : RequestEnvelope) : list ToolCallOutcome :=
  let msgs := anthropic_messages e in
  let errored := toolResultOutcomesByID msgs in
  (fun block => match errored !! field block "id" with
                | Some isErr => {| out_Name := field block "name"; Resolved := true; out_Errored := isErr |}
                | None => {| out_Name := field block "name"; Resolved := false; out_Errored := false |}
                end) <$> List.filter named (blocks_of "assistant" "tool_use" msgs).

Record ToolCallFilePath := { path_Name : string; Path : string }.
Definition call_path (block : Result) : string :=
  let path := field block "input.file_path" in
  if String.eqb path "" then field block "input.notebook_path" else path.
Definition AssistantToolCallFilePaths (e : RequestEnvelope) : list ToolCallFilePath :=
  (fun block => {| path_Name := field block "name"; Path := call_path block |})
    <$> List.filter (fun block => (named block && negb (String.eqb (call_path block) ""))%bool)
          (blocks_of "assistant" "tool_use" (anthropic_messages e)).

Definition assistantHasRealToolUse (msg : Result) : bool :=
  (IsArray (content msg) && existsb (type_is "tool_use") (elements (content msg)))%bool.
Definition userHasNonToolResultContent (msg : Result) : bool :=
  let content := content msg in
  if IsStringType content then negb (String.eqb (StringOf content) "")
  else (IsArray content && existsb (fun block => negb (type_is "tool_result" block)) (elements content))%bool.
Fixpoint monologue (rev_msgs : list Result) (streak : Z) : Z :=
  match rev_msgs with
  | [] => streak
  | msg :: rest =>
      if role_is "assistant" msg then if assistantHasRealToolUse msg then streak else monologue rest (streak + 1)
      else if (role_is "user" msg && userHasNonToolResultContent msg)%bool then streak
      else monologue rest streak
  end.
Definition TrailingAssistantMonologue (e : RequestEnvelope) : Z := monologue (rev (anthropic_messages e)) 0.
End History.
