(* ===== verification/Detectors.v ===== *)
(** The detectors of degenerate sessions, as far as they are functions of the request: the cyclic tool-call loop
    of internal/proxy/loop_detection.go, repeated narration (text_repetition.go), the spiral signals
    (spiral_detection.go), the thresholds of struggle_detection.go and the ring of dispatch fingerprints of
    no_progress.go. *)

From stdpp Require Import base gmap sets list strings.
From Stdlib Require Import ZArith Lia Ascii SpecFloat.
From S2P Require Import Prelude Strings Sse Hash Json Floats Types TurnTypes Features History.
Open Scope string_scope.
Open Scope Z_scope.

(** The last [n] of a list, and how often each key occurs. *)
Definition lastn {A} (n : nat) (l : list A) : list A := skipn (length l - n) l.
Definition bump (m : gmap string Z) (k : string) : gmap string Z := <[k := default 0 (m !! k) + 1]> m.
Definition tally (l : list string) : gmap string Z := fold_left bump l ∅.

(** ** Cyclic tool-call loops (loop_detection.go) *)

Definition cyclicLoopWindowSize : nat := 30.
Definition cyclicLoopMinCalls : nat := 24.
Definition cyclicLoopMaxDistinctRatio : f64 := f64_lit 2 5.
Definition editToolNames : list string := ["Edit"; "Write"; "MultiEdit"; "NotebookEdit"].
Definition is_edit (name : string) : bool := in_strings name editToolNames.
Definition NUL : string := byte 0.
Definition sig_key (s : ToolCallSig) : string := s.(sig_Name) +:+ NUL +:+ s.(InputHash).

Record CyclicLoop := { looped : bool; top : ToolCallSig; topCount : Z; distinctRatio : f64; window_total : Z }.
Definition zero_sig : ToolCallSig := {| sig_Name := ""; InputHash := "" |}.
Definition no_loop (ratio : f64) (total : Z) : CyclicLoop :=
  {| looped := false; top := zero_sig; topCount := 0; distinctRatio := ratio; window_total := total |}.
(** The entry of the largest count, the first of the equals in the order the map is visited in. *)
Definition top_entry (acc : Z * string) (kc : string * Z) : Z * string := if acc.1 <? kc.2 then (kc.2, kc.1) else acc.
Definition detectCyclicToolCallLoop `{Gjson} (map_range : gmap string Z -> list (string * Z)) (env : RequestEnvelope) : CyclicLoop :=
  let sigs := AssistantToolCallSignatures env in
  if Nat.ltb (length sigs) cyclicLoopMinCalls then no_loop f_zero 0
  else
    let window := lastn cyclicLoopWindowSize sigs in
    let n := Z.of_nat (length window) in
    if existsb (fun s => is_edit s.(sig_Name)) window then no_loop f_zero n
    else
      let counts := tally (sig_key <$> window) in
      let keys : gmap string ToolCallSig := fold_left (fun m s => <[sig_key s := s]> m) window ∅ in
      let ratio := f64_div (f64_of_Z (Z.of_nat (size counts))) (f64_of_Z n) in
      if f_ge ratio cyclicLoopMaxDistinctRatio then no_loop ratio n
      else
        let '(count, k) := fold_left top_entry (map_range counts) (0, "") in
        {| looped := true; top := default zero_sig (keys !! k); topCount := count; distinctRatio := ratio; window_total := n |}.

(** ** Repeated narration (text_repetition.go) *)

Definition textRepetitionWindow : nat := 12.
Definition textRepetitionThreshold : Z := 3.
Definition textRepetitionMinLen : Z := 40.
Section Text.
Context `{GoUnicode}.
Definition normalizeAssistantText (s : string) : string := ToLower (Join (Fields s) " ").
Record Scan := { counts : gmap string Z; best : Z; topKey : string }.
Definition scan_text (a : Scan) (t : string) : Scan :=
  let n := normalizeAssistantText t in
  if len n <? textRepetitionMinLen then a
  else
    let m := bump a.(counts) n in
    let c := default 0 (m !! n) in
    if a.(best) <? c then {| counts := m; best := c; topKey := n |}
    else {| counts := m; best := a.(best); topKey := a.(topKey) |}.
Definition scan_texts (l : list string) : Scan := fold_left scan_text l {| counts := ∅; best := 0; topKey := "" |}.
(** (looped, count, sampleHash) *)
Definition detectTextRepetition (texts : list string) : bool * Z * string :=
  if Z.of_nat (length texts) <? textRepetitionThreshold then (false, 0, "")
  else
    let a := scan_texts (lastn textRepetitionWindow texts) in
    if a.(best) <? textRepetitionThreshold then (false, a.(best), "")
    else (true, a.(best), str_take 16 (sha256_hex a.(topKey))).
End Text.

(** ** Spiral signals (spiral_detection.go) *)

Definition spiralMinToolCalls : Z := 12.
Definition spiralErrStreakThreshold : Z := 3.
Definition spiralSameFileEditThreshold : Z := 5.
Definition spiralRepeatWindow : nat := 12.
Definition spiralRepeatMinCalls : Z := 20.
Definition spiralRepeatFracThreshold : f64 := f64_lit 17 50.
Definition spiralMonologueThreshold : Z := 4.
Definition spiralPingPongThreshold : Z := 6.
Definition spiralNoProgressThreshold : Z := 15.

Inductive spiralReason := ErrStreak | SameFileThrash | Repetition | Monologue | PingPong | NoProgress.
Definition spiral_string (r : spiralReason) : string :=
  match r with
  | ErrStreak => "err_streak" | SameFileThrash => "same_file_thrash" | Repetition => "repetition"
  | Monologue => "monologue" | PingPong => "ping_pong" | NoProgress => "no_progress"
  end.
Record spiralSignals := {
  errStats : ToolResultErrorStats; maxSameFileEdits : Z; sameFilePathHash : string; repeatFrac : f64; monologueLen : Z;
  toolCallCount : Z; messageCount : Z; pingPongLen : Z; stepsSince : Z; editAttempted : bool
}.

(** How many steps back the sequence [a; b; l] alternates: each key is the one two before it. *)
Fixpoint alternation (a b : string) (l : list string) : nat :=
  match l with
  | [] => 0
  | x :: l' => if String.eqb x a then S (alternation b x l') else 0
  end.
Definition trailingPingPongLen (sigs : list ToolCallSig) : Z :=
  if Nat.ltb (length sigs) 4 then 0
  else match rev (sig_key <$> sigs) with
       | last :: prev :: before =>
           if String.eqb last prev then 0
           else
             let run := (2 + alternation last prev before)%nat in
             if Nat.ltb run 4 then 0 else Z.of_nat run
       | _ => 0
       end.
(** The outcomes with their positions: the last one that made progress, and whether an edit was attempted. *)
Fixpoint last_progress (i : Z) (outcomes : list ToolCallOutcome) (acc : Z * bool) : Z * bool :=
  match outcomes with
  | [] => acc
  | o :: rest =>
      let acc := if is_edit o.(out_Name)
                 then (if (negb o.(Resolved) || negb o.(out_Errored))%bool then i else acc.1, true)
                 else acc in
      last_progress (i + 1) rest acc
  end.
Definition stepsSinceProgress (outcomes : list ToolCallOutcome) : Z * bool :=
  let '(lastProgress, attempted) := last_progress 0 outcomes (-1, false) in
  if negb attempted then (0, false) else (Z.of_nat (length outcomes) - 1 - lastProgress, true).

(** Edits per file so far, the most edits of one file and its hash. *)
Definition count_edit (acc : gmap string Z * Z * string) (fp : ToolCallFilePath) : gmap string Z * Z * string :=
  let '(pathCounts, most, hash) := acc in
  if negb (is_edit fp.(path_Name)) then acc
  else
    let m := bump pathCounts fp.(Path) in
    let c := default 0 (m !! fp.(Path)) in
    if most <? c then (m, c, str_take 16 (sha256_hex fp.(Path))) else (m, most, hash).
Definition repeat_fraction (sigs : list ToolCallSig) : f64 :=
  if Nat.ltb (length sigs) spiralRepeatWindow then f_zero
  else
    let window := lastn spiralRepeatWindow sigs in
    let repeated := map_fold (fun _ c n => if 1 <? c then n + c else n) 0 (tally (sig_key <$> window)) in
    f64_div (f64_of_Z repeated) (f64_of_Z (Z.of_nat (length window))).
Definition computeSpiralSignals `{Gjson} (env : RequestEnvelope) (count : Z) : spiralSignals :=
  let sigs := AssistantToolCallSignatures env in
  let '(_, most, hash) := fold_left count_edit (AssistantToolCallFilePaths env) (∅, 0, "") in
  let '(steps, attempted) := stepsSinceProgress (AssistantToolCallOutcomes env) in
  {| errStats := ToolResultErrors env; maxSameFileEdits := most; sameFilePathHash := hash; repeatFrac := repeat_fraction sigs;
     monologueLen := TrailingAssistantMonologue env; toolCallCount := Z.of_nat (length sigs); messageCount := count;
     pingPongLen := trailingPingPongLen sigs; stepsSince := steps; editAttempted := attempted |}.
Definition spiralReasons (s : spiralSignals) : list spiralReason :=
  if s.(toolCallCount) <? spiralMinToolCalls then []
  else
    let on (c : bool) (r : spiralReason) := if c then [r] else [] in
    (on (spiralErrStreakThreshold <=? s.(errStats).(TrailingErrStreak)) ErrStreak
     ++ on (spiralSameFileEditThreshold <=? s.(maxSameFileEdits)) SameFileThrash
     ++ on ((spiralRepeatMinCalls <=? s.(toolCallCount)) && f_ge s.(repeatFrac) spiralRepeatFracThreshold)%bool Repetition
     ++ on (spiralMonologueThreshold <=? s.(monologueLen)) Monologue
     ++ on (spiralPingPongThreshold <=? s.(pingPongLen)) PingPong
     ++ on (s.(editAttempted) && (spiralNoProgressThreshold <=? s.(stepsSince)))%bool NoProgress)%list.

(** ** Struggling sessions (struggle_detection.go) *)

Definition struggleEarlyTurns : Z := 30.
Definition struggleEarlyWall : Z := 10 * Minute.
Definition struggleLateTurns : Z := 80.
Definition struggleLateWall : Z := 30 * Minute.
Definition struggleReasons (turnCount wall : Z) : list string :=
  if ((struggleLateTurns <=? turnCount) && (struggleLateWall <=? wall))%bool then ["late"]
  else if ((struggleEarlyTurns <=? turnCount) && (struggleEarlyWall <=? wall))%bool then ["early"] else [].

(** ** Counting *)

(** How often a key occurs, and how many keys there are. *)
Definition occ (k : string) (l : list string) : Z := Z.of_nat (length (filter (k =.) l)).
Definition distinct (l : list string) : nat := size (list_to_set l : gset string).

Lemma occ_snoc k l x : occ k (l ++ [x]) = occ k l + (if String.eqb k x then 1 else 0).
Proof.
  unfold occ. rewrite filter_app, length_app, Nat2Z.inj_add, filter_cons, filter_nil.
  destruct (String.eqb_spec k x); [rewrite decide_True by assumption|rewrite decide_False by assumption]; reflexivity.
Qed.
Lemma tally_snoc l x : tally (l ++ [x])%list = bump (tally l) x.
Proof. unfold tally. rewrite fold_left_app. reflexivity. Qed.
Lemma tally_count l k : default 0 (tally l !! k) = occ k l.
Proof.
  induction l as [|x l IH] using rev_ind; [reflexivity|]. rewrite tally_snoc, occ_snoc. unfold bump.
  destruct (String.eqb_spec k x) as [->|N].
  - rewrite lookup_insert_eq. cbn. rewrite IH. reflexivity.
  - rewrite lookup_insert_ne by congruence. rewrite IH. lia.
Qed.
Lemma tally_dom l : dom (tally l) = (list_to_set l : gset string).
Proof.
  induction l as [|x l IH] using rev_ind; [reflexivity|]. rewrite tally_snoc. unfold bump. rewrite dom_insert_L, IH.
  rewrite list_to_set_app_L. cbn. set_solver.
Qed.
Lemma tally_size l : size (tally l) = distinct l.
Proof. rewrite <- size_dom, tally_dom. reflexivity. Qed.
Lemma tally_lookup l k c : tally l !! k = Some c -> k ∈ l /\ c = occ k l.
Proof.
  intros E. split.
  - assert (D : k ∈ dom (tally l)) by (apply elem_of_dom; eauto). rewrite tally_dom, elem_of_list_to_set in D. exact D.
  - rewrite <- tally_count, E. reflexivity.
Qed.
Lemma tally_some l k : k ∈ l -> tally l !! k = Some (occ k l).
Proof.
  intros I. assert (D : k ∈ dom (tally l)) by (rewrite tally_dom, elem_of_list_to_set; exact I).
  apply elem_of_dom in D as [c D]. rewrite D. f_equal. exact (proj2 (tally_lookup _ _ _ D)).
Qed.
Lemma occ_pos k l : k ∈ l -> 0 < occ k l.
Proof.
  intros I. unfold occ. assert (F : k ∈ filter (k =.) l) by (apply list_elem_of_filter; auto).
  destruct (filter (k =.) l); [inversion F|cbn; lia].
Qed.
Lemma occ_zero k l : k ∉ l -> occ k l = 0.
Proof.
  intros N. unfold occ. destruct (filter (k =.) l) as [|x f] eqn:E; [reflexivity|].
  assert (X : x ∈ filter (k =.) l) by (rewrite E; constructor). apply list_elem_of_filter in X. destruct X as [-> X]. contradiction.
Qed.
Lemma occ_bound k l : 0 <= occ k l <= Z.of_nat (length l).
Proof. unfold occ. pose proof (length_filter (k =.) l). lia. Qed.
(** With no key more than [c] times there are at least [length l / c] keys. *)
Lemma occ_pigeonhole c l : 0 <= c -> (forall k, occ k l <= c) -> Z.of_nat (length l) <= c * Z.of_nat (distinct l).
Proof.
  intros C. remember (length l) as n eqn:E. revert l E. induction (lt_wf n) as [n _ IH]. intros l -> B.
  destruct l as [|x l0] eqn:El; [cbn; lia|]. rewrite <- El in *.
  assert (I : x ∈ l) by (subst l; constructor).
  set (m := filter (fun y => ~ (x = y)) l).
  assert (L : (length l = length (filter (x =.) l) + length m)%nat).
  { unfold m. clear. induction l as [|y l IHl]; [reflexivity|]. rewrite !filter_cons.
    destruct (decide (x = y)) as [->|N]; [rewrite decide_False by tauto|rewrite decide_True by assumption]; cbn; lia. }
  assert (S1 : (distinct l = S (distinct m))%nat).
  { unfold distinct, m. assert (X : (list_to_set l : gset string) = {[x]} ∪ list_to_set (filter (fun y => x <> y) l)).
    { apply set_eq. intros y. rewrite elem_of_union, elem_of_singleton, !elem_of_list_to_set, list_elem_of_filter.
      destruct (decide (x = y)) as [->|N]; [tauto|]. split; [tauto|intros [Y|[_ Y]]; [congruence|exact Y]]. }
    rewrite X, size_union, size_singleton; [lia|]. intros y. rewrite elem_of_singleton, elem_of_list_to_set, list_elem_of_filter. intros ->. tauto. }
  pose proof (occ_pos x l I) as P. unfold occ in P.
  assert (Q := IH (length m) ltac:(lia) m eq_refl).
  assert (Bm : forall k, occ k m <= c).
  { intros k. etransitivity; [|exact (B k)]. unfold occ, m. rewrite list_filter_filter. apply Nat2Z.inj_le.
    apply (submseteq_length). apply sublist_submseteq.
    clear. induction l as [|y l IHl]; [constructor|]. rewrite !filter_cons.
    destruct (decide (k = y)) as [->|N].
    - destruct (decide (y = y /\ x <> y)); [apply sublist_skip, IHl|apply sublist_cons, IHl].
    - rewrite decide_False by tauto. exact IHl. }
  specialize (Q Bm). pose proof (B x) as Bx. unfold occ in Bx. nia.
Qed.

Lemma top_entry_spec l c0 k0 : let r := fold_left top_entry l (c0, k0) in
  c0 <= r.1 /\ (forall k c, (k, c) ∈ l -> c <= r.1) /\ (r = (c0, k0) \/ (r.2, r.1) ∈ l).
Proof.
  revert c0 k0. induction l as [|[k c] l IH]; intros c0 k0; cbn [fold_left].
  - cbn. split; [lia|]. split; [intros k c I; inversion I|left; reflexivity].
  - cbv zeta. change (top_entry (c0, k0) (k, c)) with (if c0 <? c then (c, k) else (c0, k0)). destruct (Z.ltb_spec c0 c) as [L|L].
    + destruct (IH c k) as (A & B & C). split; [lia|]. split.
      * intros k' c' I. apply elem_of_cons in I as [[= -> ->]|I]; [exact A|exact (B _ _ I)].
      * right. destruct C as [C|C]; [|apply elem_of_cons; auto]. rewrite C. cbn. constructor.
    + destruct (IH c0 k0) as (A & B & C). split; [exact A|]. split.
      * intros k' c' I. apply elem_of_cons in I as [[= -> ->]|I]; [lia|exact (B _ _ I)].
      * destruct C as [C|C]; [left; exact C|right; apply elem_of_cons; auto].
Qed.
Lemma distinct_ratio d w : 24 <= w <= 30 -> 0 <= d <= w ->
  f_ge (f64_div (f64_of_Z d) (f64_of_Z w)) cyclicLoopMaxDistinctRatio = (2 * w <=? 5 * d).
Proof.
  intros W D.
  assert (F : forallb (fun w => forallb (fun d => Bool.eqb (f_ge (f64_div (f64_of_Z d) (f64_of_Z w)) cyclicLoopMaxDistinctRatio)
    (2 * w <=? 5 * d)) (seqZ 0 31)) (seqZ 24 7) = true) by (vm_compute; reflexivity).
  rewrite forallb_forall in F. specialize (F w). rewrite <- list_elem_of_In, elem_of_seqZ, forallb_forall in F. specialize (F ltac:(lia) d).
  rewrite <- list_elem_of_In, elem_of_seqZ in F. apply eqb_prop, F. lia.
Qed.
Lemma keys_lookup (l : list ToolCallSig) k (m := fold_left (fun m s => <[sig_key s := s]> m) l (∅ : gmap string ToolCallSig)) :
  (forall s, m !! k = Some s -> s ∈ l /\ sig_key s = k) /\ (k ∈ sig_key <$> l -> is_Some (m !! k)).
Proof.
  unfold m. clear m. induction l as [|x l [IH1 IH2]] using rev_ind; cbn.
  - split; [intros s E; rewrite lookup_empty in E; discriminate|intros I; inversion I].
  - rewrite fold_left_app. cbn. split.
    + intros s. destruct (decide (sig_key x = k)) as [<-|N].
      * rewrite lookup_insert_eq. intros [= ->]. split; [apply elem_of_app; right; constructor|reflexivity].
      * rewrite lookup_insert_ne by exact N. intros E. destruct (IH1 s E). split; [apply elem_of_app; auto|assumption].
    + rewrite fmap_app, elem_of_app. intros I. destruct (decide (sig_key x = k)) as [<-|N].
      * rewrite lookup_insert_eq. eauto.
      * rewrite lookup_insert_ne by exact N. destruct I as [I|I]; [auto|]. cbn in I. apply list_elem_of_singleton in I. congruence.
Qed.
Lemma lastn_length {A} n (l : list A) : length (lastn n l) = Nat.min n (length l).
Proof. unfold lastn. rewrite length_skipn. lia. Qed.
Lemma distinct_le l : (distinct l <= length l)%nat.
Proof.
  unfold distinct. induction l as [|x l IH]; [reflexivity|]. cbn [list_to_set length foldr fmap].
  pose proof (size_union_alt ({[x]} : gset string) (list_to_set l)) as U. cbn in *.
  rewrite U. rewrite size_singleton. pose proof (subseteq_size ((list_to_set l : gset string) ∖ {[x]}) (list_to_set l) ltac:(set_solver)). lia.
Qed.
Section Current.
Context `{Gjson}.
(** The messages after the last prompt the user typed: a user message with text of its own. *)
Definition typed_prompt (msg : Result) : bool := (role_is "user" msg && negb (String.eqb (userPromptTextGJSON (content msg)) ""))%bool.
Fixpoint since_prompt (l : list Result) : list Result :=
  match l with
  | [] => []
  | m :: rest => if existsb typed_prompt rest then since_prompt rest else if typed_prompt m then rest else l
  end.
(** The calls of the assistant's messages among them, those with a name and an input that is not empty, in order. *)
Definition message_calls (e : RequestEnvelope) (msg : Result) : list assistantToolCallEntry :=
  if role_is "assistant" msg then match e.(env_format) with FormatAnthropic => anthropic_calls msg | FormatOpenAI => openai_calls msg end else [].
Definition current_calls (e : RequestEnvelope) : list assistantToolCallEntry := flat_map (message_calls e) (since_prompt (messages e.(env_body))).
Definition call_sig (c : assistantToolCallEntry) : ToolCallSig := {| sig_Name := c.(entry_Name); InputHash := hashCanonicalJSON c.(InputRaw) |}.
Lemma since_prompt_snoc l m : since_prompt (l ++ [m])%list = if typed_prompt m then [] else (since_prompt l ++ [m])%list.
Proof.
  induction l as [|x l IH]; cbn [app since_prompt existsb]; [reflexivity|]. rewrite existsb_app, IH. cbn [existsb].
  destruct (typed_prompt m); rewrite ?orb_true_r; [reflexivity|]. rewrite ?orb_false_r. destruct (existsb typed_prompt l); [reflexivity|].
  destruct (typed_prompt x); reflexivity.
Qed.
Lemma collected calls l : fold_left (collect calls) l [] = flat_map (fun m => if role_is "assistant" m then calls m else []) (since_prompt l).
Proof.
  induction l as [|m l IH] using rev_ind; [reflexivity|]. rewrite fold_left_app, since_prompt_snoc. cbn [fold_left]. unfold collect at 1. fold (typed_prompt m).
  destruct (typed_prompt m); [reflexivity|]. rewrite IH, flat_map_app. cbn [flat_map]. rewrite app_nil_r.
  destruct (role_is "assistant" m); [reflexivity|]. cbn [negb]. by rewrite app_nil_r.
Qed.
Lemma current_signatures e : AssistantToolCallSignatures e = call_sig <$> current_calls e.
Proof.
  unfold AssistantToolCallSignatures, sigsFromEntries, tool_call_entries, current_calls, message_calls, anthropicAssistantToolCallEntries, openAIAssistantToolCallEntries.
  destruct (env_format e); rewrite collected; reflexivity.
Qed.
(** C33: a request counts as looping exactly when, of the assistant's tool calls since the last prompt the user typed — those that have a name and an input
    that is not empty —, there are at least twenty-four and the last thirty edit nothing and are less than two fifths distinct, by name and canonical
    input (the binary64 ratio decides exactly as the rational one); the call reported is one of them, repeated the number of times reported, at
    least three, and no other is repeated more. *)
Theorem cyclic_loop_iff (map_range : gmap string Z -> list (string * Z)) (env : RequestEnvelope)
  (Horder : forall m, map_range m ≡ₚ map_to_list m) :
  let calls := current_calls env in
  let window := lastn cyclicLoopWindowSize (call_sig <$> calls) in
  let keys := sig_key <$> window in
  let r := detectCyclicToolCallLoop map_range env in
  (r.(looped) = true <->
   (24 <= length calls)%nat /\ Forall (fun s => is_edit s.(sig_Name) = false) window /\
   5 * Z.of_nat (distinct keys) < 2 * Z.of_nat (length window)) /\
  (r.(looped) = true ->
   r.(top) ∈ window /\ r.(topCount) = occ (sig_key r.(top)) keys /\ 3 <= r.(topCount) /\ forall k, occ k keys <= r.(topCount)).
Proof.
  cbv zeta. unfold detectCyclicToolCallLoop. rewrite current_signatures. rewrite <- (length_fmap call_sig (current_calls env)).
  generalize (call_sig <$> current_calls env). intros sigs. set (window := lastn cyclicLoopWindowSize sigs). cbv zeta.
  destruct (Nat.ltb_spec (length sigs) cyclicLoopMinCalls) as [L|L]; unfold cyclicLoopMinCalls in L.
  { split; [|discriminate]. split; [discriminate|]. cbn. lia. }
  assert (W : (24 <= length window <= 30)%nat) by (unfold window; rewrite lastn_length; unfold cyclicLoopWindowSize; lia).
  destruct (existsb (fun s => is_edit (sig_Name s)) window) eqn:E.
  { split; [|discriminate]. split; [discriminate|]. intros (_ & F & _). apply existsb_exists in E as (s & I & E).
    apply list_elem_of_In in I. rewrite Forall_forall in F. rewrite (F s I) in E. discriminate. }
  assert (F : Forall (fun s => is_edit s.(sig_Name) = false) window).
  { apply Forall_forall. intros s I. destruct (is_edit (sig_Name s)) eqn:X; [|reflexivity].
    rewrite <- E. symmetry. apply existsb_exists. exists s. split; [apply list_elem_of_In; exact I|exact X]. }
  set (counts := tally (sig_key <$> window)).
  assert (Sz : size counts = distinct (sig_key <$> window)) by apply tally_size.
  pose proof (distinct_le (sig_key <$> window)) as Dl. rewrite length_fmap in Dl.
  rewrite distinct_ratio by lia. rewrite Sz.
  destruct (Z.leb_spec (2 * Z.of_nat (length window)) (5 * Z.of_nat (distinct (sig_key <$> window)))) as [R|R].
  { split; [|discriminate]. split; [discriminate|]. lia. }
  destruct (fold_left top_entry (map_range counts) (0, "")) as [c k] eqn:T.
  pose proof (top_entry_spec (map_range counts) 0 "") as S. rewrite T in S. cbn [fst snd] in S. destruct S as (S0 & S1 & S2).
  assert (M : forall k', occ k' (sig_key <$> window) <= c).
  { intros k'. destruct (decide (k' ∈ sig_key <$> window)) as [I|N]; [|rewrite occ_zero by exact N; exact S0].
    apply (S1 k'). rewrite Horder. apply elem_of_map_to_list, tally_some, I. }
  pose proof (occ_pigeonhole c _ S0 M) as P. rewrite length_fmap in P.
  assert (C3 : 3 <= c) by nia.
  destruct S2 as [[= -> ->]|S2]; [lia|]. rewrite Horder in S2. apply elem_of_map_to_list in S2.
  apply tally_lookup in S2 as [I Ec]. destruct (keys_lookup window k) as [K1 K2]. destruct (K2 I) as [s Es].
  destruct (K1 s Es) as [I' Ks]. cbn [looped top topCount]. rewrite Es. change (default zero_sig (Some s)) with s.
  split; [split; [intros _|reflexivity]; split; [exact L|split; [exact F|exact R]]|].
  intros _. rewrite Ks. repeat split; [exact I'|exact Ec|exact C3|exact M].
Qed.

End Current.

Section TextFacts.
Context `{GoUnicode}.
Definition long_text (n : string) : bool := textRepetitionMinLen <=? len n.
Definition narrations (l : list string) : list string := List.filter long_text (normalizeAssistantText <$> l).
Lemma narrations_snoc l t : narrations (l ++ [t])%list =
  (narrations l ++ (if long_text (normalizeAssistantText t) then [normalizeAssistantText t] else []))%list.
Proof. unfold narrations. rewrite fmap_app, List.filter_app. reflexivity. Qed.
Lemma scan_texts_spec l : let a := scan_texts l in let ns := narrations l in
  (forall k, default 0 (a.(counts) !! k) = occ k ns) /\ 0 <= a.(best) /\ (forall k, occ k ns <= a.(best)) /\
  (0 < a.(best) -> a.(best) = occ a.(topKey) ns /\ a.(topKey) ∈ ns).
Proof.
  induction l as [|t l IH] using rev_ind; cbv zeta.
  - split; [reflexivity|]. split; [reflexivity|]. split; [intros k; apply Z.le_refl|]. cbn. lia.
  - unfold scan_texts in *. rewrite fold_left_app, narrations_snoc. cbn [fold_left]. set (a := fold_left scan_text l _) in *.
    destruct IH as (I1 & I2 & I3 & I4). unfold scan_text, long_text. set (n := normalizeAssistantText t).
    rewrite Z.ltb_antisym. destruct (textRepetitionMinLen <=? len n); cbn [negb]; [|rewrite app_nil_r; auto].
    assert (C : forall k, default 0 (bump (counts a) n !! k) = occ k (narrations l ++ [n])).
    { intros k. rewrite occ_snoc. unfold bump. destruct (String.eqb_spec k n) as [->|N].
      - rewrite lookup_insert_eq. cbn. rewrite I1. reflexivity.
      - rewrite lookup_insert_ne by congruence. rewrite I1. lia. }
    assert (M : forall k, k <> n -> occ k (narrations l ++ [n]) = occ k (narrations l)).
    { intros k N. rewrite occ_snoc, (proj2 (String.eqb_neq _ _) N). lia. }
    cbv zeta. rewrite C. destruct (Z.ltb_spec (best a) (occ n (narrations l ++ [n]))) as [L|L]; cbn [counts best topKey].
    + split; [exact C|]. split; [lia|]. split.
      * intros k. destruct (decide (k = n)) as [->|N]; [lia|]. rewrite M by exact N. pose proof (I3 k). lia.
      * intros _. split; [reflexivity|]. apply elem_of_app. right. constructor.
    + split; [exact C|]. split; [exact I2|]. split.
      * intros k. destruct (decide (k = n)) as [->|N]; [lia|]. rewrite M by exact N. apply I3.
      * intros P. destruct (I4 P) as [E1 E2]. split; [|apply elem_of_app; left; exact E2].
        destruct (decide (topKey a = n)) as [T|N]; [|rewrite M by exact N; exact E1].
        rewrite T in *. rewrite occ_snoc, String.eqb_refl in *. lia.
Qed.
Lemma narrations_length l : (length (narrations l) <= length l)%nat.
Proof. unfold narrations. etransitivity; [apply List.filter_length_le|]. rewrite length_fmap. reflexivity. Qed.

(** A turn is broken off as a repetition exactly when one text of at least forty bytes, up to case
    and white space, was said at least three times in the last twelve messages of the assistant since the user's
    last input; the count reported is the count of the most repeated one, and the hash is of a text repeated that
    often. *)
Lemma text_repetition_iff (texts : list string) :
  let ns := narrations (lastn textRepetitionWindow texts) in
  let '(fires, count, hash) := detectTextRepetition texts in
  (fires = true <-> exists n, 3 <= occ n ns) /\
  (fires = true -> (forall k, occ k ns <= count) /\ exists n, n ∈ ns /\ occ n ns = count /\ hash = str_take 16 (sha256_hex n)).
Proof.
  cbv zeta. unfold detectTextRepetition, textRepetitionThreshold. set (w := lastn textRepetitionWindow texts).
  destruct (scan_texts_spec w) as (_ & S2 & S3 & S4). set (a := scan_texts w) in *.
  assert (B : forall n, occ n (narrations w) <= Z.of_nat (length texts)).
  { intros n. pose proof (occ_bound n (narrations w)). pose proof (narrations_length w).
    unfold w in *. rewrite lastn_length in *. lia. }
  destruct (Z.ltb_spec (Z.of_nat (length texts)) 3) as [L|L].
  { split; [|discriminate]. split; [discriminate|]. intros [n N]. pose proof (B n). lia. }
  destruct (Z.ltb_spec (best a) 3) as [L3|L3].
  { split; [|discriminate]. split; [discriminate|]. intros [n N]. pose proof (S3 n). lia. }
  destruct (S4 ltac:(lia)) as [E I]. split; [split; [intros _; exists (topKey a); lia|reflexivity]|].
  intros _. split; [exact S3|]. exists (topKey a). auto.
Qed.
End TextFacts.

(** ** Witnesses *)

Definition ex_read (path : string) : string := jq "{'type':'tool_use','name':'Read','input':{'file_path':" +:+ jsonQuote path +:+ "}}".
(** The user asks; the assistant reads two files over and over. *)
Definition ex_cycle : RequestEnvelope := {| env_format := FormatAnthropic; env_body :=
  jq "{'messages':[{'role':'assistant','content':[" +:+ ex_read "z" +:+ jq "]},{'role':'user','content':'go on'},{'role':'assistant','content':["
    +:+ Join (concat (repeat [ex_read "a"; ex_read "b"; ex_read "a"] 9)) "," +:+ "]}]}" |}.
Definition ex_call (path : string) : ToolCallSig :=
  {| sig_Name := "Read"; InputHash := @hashCanonicalJSON Reader.reader (jq "{'file_path':" +:+ jsonQuote path +:+ "}") |}.
Lemma cyclic_loop_iff_witness : let r := @detectCyclicToolCallLoop Reader.reader map_to_list ex_cycle in
  r.(looped) = true /\ r.(top) = ex_call "a" /\ r.(topCount) = 18 /\
  r.(top) ∈ lastn cyclicLoopWindowSize (@call_sig Reader.reader <$> @current_calls Reader.reader ex_cycle).
Proof.
  cbv zeta. split; [vm_compute; reflexivity|]. split; [vm_compute; reflexivity|]. split; [vm_compute; reflexivity|].
  apply (@cyclic_loop_iff Reader.reader map_to_list ex_cycle (fun m => Permutation_refl _)). vm_compute. reflexivity.
Defined.
