(* ===== verification/Lru.v ===== *)
(** The expiring LRU cache of hashicorp/golang-lru, a third-party package, as a class: a cache may forget an entry
    at any time, by age or for want of room, but it returns only what was added last under a key.  [unbounded]
    is a cache that forgets by age only, on which witnesses evaluate. *)

From stdpp Require Import base gmap sets list strings.
From Stdlib Require Import ZArith Lia.
From S2P Require Import Prelude.
Open Scope Z_scope.

Class LRU (V : Type) := {
  Cache : Type;
  lru_new : Cache;
  lru_Get : Z -> string -> Cache -> option V * Cache;   (** the clock is the cache's own *)
  lru_Add : Z -> string -> V -> Cache -> Cache
}.
#[global] Arguments Cache V {_}.

(** [holds c k v]: a lookup of [k] may still return [v]. *)
Class LRULaws (V : Type) `{LRU V} := {
  holds : Cache V -> string -> V -> Prop;
  holds_new k v : ~ holds lru_new k v;
  holds_get now k c v : (lru_Get now k c).1 = Some v -> holds c k v;
  get_holds now k c k' v : holds (lru_Get now k c).2 k' v -> holds c k' v;
  add_holds now k v c k' v' : holds (lru_Add now k v c) k' v' -> (k' = k /\ v' = v) \/ (k' <> k /\ holds c k' v')
}.

Section Unbounded.
Context {V : Type}.
Variable ttl : Z.
#[local] Instance unbounded : LRU V := {
  Cache := gmap string (V * Z);
  lru_new := ∅;
  lru_Get now k c := match c !! k with
                     | Some (v, at_) => if at_ + ttl <=? now then (None, delete k c) else (Some v, c)
                     | None => (None, c)
                     end;
  lru_Add now k v c := <[k := (v, now)]> c
}.
#[local] Program Instance unbounded_laws : LRULaws V := {
  holds c k v := exists now, c !! k = Some (v, now)
}.
Next Obligation. intros k v [now E]. cbn in E. rewrite lookup_empty in E. discriminate. Qed.
Next Obligation.
  intros now k c v E. cbn in *. destruct (c !! k) as [[u at_]|] eqn:L; [|discriminate].
  destruct (at_ + ttl <=? now); [discriminate|]. injection E as <-. eauto.
Qed.
Next Obligation.
  intros now k c k' v [t E]. cbn in *. exists t. destruct (c !! k) as [[u at_]|] eqn:L; [|exact E].
  destruct (at_ + ttl <=? now); cbn in E; [|exact E]. apply lookup_delete_Some in E. tauto.
Qed.
Next Obligation.
  intros now k v c k' v' [t E]. cbn in E. apply lookup_insert_Some in E as [[-> [= -> _]]|[N E]]; eauto.
Qed.
End Unbounded.
