(* ===== verification/Trackers.v ===== *)
(** The trackers of a process (internal/proxy/no_progress.go): the recent dispatches of each session, whose
    repetition breaks a turn, and the counts by which a trimmed history is noticed.  A ring of fingerprints is
    shared between the cache that finds it and the requests that record in it, so the cache holds references.
    The cache expires an entry some time after it was added and may evict it before: what it forgets begins anew. *)

From stdpp Require Import base gmap sets list strings.
From Stdlib Require Import ZArith Lia Ascii.
From S2P Require Import Prelude Strings Sse Hash Json Types Features History Detectors Lru.
Open Scope string_scope.
Open Scope Z_scope.

Definition noProgressWindowSize : nat := 8.
Definition noProgressMatchThreshold : Z := 5.
Definition noProgressTimeWindow : Z := 90 * Second.
Definition noProgressPromptPrefix : nat := 512.

(** The marker of a turn's progress: how many calls, and the last one. *)
Definition toolProgressMarker (sigs : list ToolCallSig) : string :=
  match last sigs with
  | None => ""
  | Some s => WriteJSONInt (Z.of_nat (length sigs)) +:+ NUL +:+ s.(sig_Name) +:+ NUL +:+ s.(InputHash)
  end.
(** A fingerprint is the digest, as its hexadecimal text. *)
Definition computeNoProgressFingerprint (model provider promptText : string) (messageCount : Z) (progressMarker : string) : string :=
  let p := str_take noProgressPromptPrefix promptText in
  let countPart := if String.eqb progressMarker "" then WriteJSONInt messageCount else "" in
  sha256_hex (model +:+ NUL +:+ provider +:+ NUL +:+ countPart +:+ NUL +:+ progressMarker +:+ NUL +:+ p).

(** ** Rings *)

Record fingerprintEntry := { fp : string; when_ : Z }.
Definition Ring : Type := list fingerprintEntry.
Definition recent (f : string) (now : Z) (e : fingerprintEntry) : bool :=
  (String.eqb e.(fp) f && negb (Before e.(when_) (now - noProgressTimeWindow)))%bool.
Definition matches (f : string) (now : Z) (l : Ring) : Z := Z.of_nat (length (List.filter (recent f now) l)).
Definition ring_recordAndDetect (f : string) (now : Z) (r : Ring) : Ring * (bool * Z) :=
  let r := lastn noProgressWindowSize (r ++ [{| fp := f; when_ := now |}])%list in
  let n := matches f now r in
  (r, (noProgressMatchThreshold <=? n, n)).

(** ** The tracker *)

Section Buckets.
(** [uuid.UUID.String], a third-party rendering. *)
Variable uuid_String : string -> string.

(** The bucket of a request; [None] when it has neither a session nor an installation. *)
Definition noProgressBucketKey (sessionKey installationID role : string) : option string :=
  if negb (String.eqb sessionKey zero_session_key) then Some ("session:" +:+ HexEncode sessionKey +:+ ":" +:+ role)
  else if negb (String.eqb installationID uuid_Nil) then Some ("install:" +:+ uuid_String installationID +:+ ":" +:+ role)
  else None.

Section Tracker.
Context `{LRU nat}.

(** The rings by reference; [next] is the next reference. *)
Record noProgressTracker := { cache : Cache nat; rings : gmap nat Ring; next : nat }.
Definition newNoProgressTracker : noProgressTracker := {| cache := lru_new; rings := ∅; next := 0 |}.
(** The ring of a bucket, created when the cache has none. *)
Definition ring_of (now : Z) (k : string) (t : noProgressTracker) : nat * noProgressTracker :=
  match lru_Get now k t.(cache) with
  | (Some r, c) => (r, {| cache := c; rings := t.(rings); next := t.(next) |})
  | (None, c) => (t.(next), {| cache := lru_Add now k t.(next) c; rings := <[t.(next) := []]> t.(rings); next := S t.(next) |})
  end.
Definition recordAndDetect (sessionKey installationID role f : string) (now : Z) (t : noProgressTracker)
  : noProgressTracker * (bool * Z) :=
  match noProgressBucketKey sessionKey installationID role with
  | None => (t, (false, 0))
  | Some k =>
      let '(r, t) := ring_of now k t in
      let '(l, answer) := ring_recordAndDetect f now (default [] (t.(rings) !! r)) in
      ({| cache := t.(cache); rings := <[r := l]> t.(rings); next := t.(next) |}, answer)
  end.
End Tracker.

(** ** Trimmed histories *)

Definition compactionMinHistoryMessages : Z := 8.
Record compactionState := { msgCount : Z; calls : Z }.
Definition trimmed (last : compactionState) (messageCount toolCallCount : Z) : bool :=
  (((messageCount <? last.(msgCount)) && (compactionMinHistoryMessages <=? last.(msgCount)))
   || ((toolCallCount <? last.(calls)) && (compactionMinHistoryMessages <=? messageCount)))%bool.
Definition checkAndRecord `{LRU compactionState} (sessionKey installationID role : string) (messageCount toolCallCount now : Z)
  (c : Cache compactionState) : Cache compactionState * bool :=
  match noProgressBucketKey sessionKey installationID role with
  | None => (c, false)
  | Some key =>
      let '(last, c) := lru_Get now key c in
      let c := lru_Add now key {| msgCount := messageCount; calls := toolCallCount |} c in
      (c, match last with None => false | Some last => trimmed last messageCount toolCallCount end)
  end.
End Buckets.

(** ** Facts on rings *)

Lemma lastn_app_all {A} n (l m : list A) : (n <= length m)%nat -> lastn n (l ++ m) = lastn n m.
Proof.
  intros L. unfold lastn. rewrite length_app, skipn_app. rewrite skipn_all2 by lia. cbn. f_equal. lia.
Qed.
Lemma lastn_lastn {A} n (l m : list A) : lastn n (lastn n l ++ m) = lastn n (l ++ m).
Proof.
  unfold lastn at 2. set (k := (length l - n)%nat).
  assert (E : (l ++ m)%list = (firstn k l ++ (skipn k l ++ m))%list) by (rewrite app_assoc, firstn_skipn; reflexivity).
  rewrite E. unfold lastn. rewrite (skipn_app _ (firstn k l)), (skipn_all2 (firstn k l)).
  - cbn. f_equal. rewrite !length_app, length_firstn, length_skipn. unfold k. lia.
  - rewrite !length_app, length_firstn, length_skipn. unfold k. lia.
Qed.
Lemma lastn_sublist {A} n (l : list A) : sublist (lastn n l) l.
Proof. unfold lastn. apply sublist_drop. Qed.
Definition entry_of (f : string) (now : Z) : fingerprintEntry := {| fp := f; when_ := now |}.
Definition ring_after (l : Ring) : Ring := fold_left (fun r e => (ring_recordAndDetect e.(fp) e.(when_) r).1) l [].
Lemma ring_after_lastn l : ring_after l = lastn noProgressWindowSize l.
Proof.
  induction l as [|e l IH] using rev_ind; [reflexivity|]. unfold ring_after in *. rewrite fold_left_app. cbn [fold_left].
  rewrite IH. unfold ring_recordAndDetect. cbv zeta. cbn [fst]. destruct e as [f w]. cbn. apply lastn_lastn.
Qed.
Lemma matches_app f now (l m : Ring) : matches f now (l ++ m)%list = matches f now l + matches f now m.
Proof. unfold matches. rewrite List.filter_app, length_app. lia. Qed.
Lemma matches_sublist f now (l m : Ring) : sublist l m -> matches f now l <= matches f now m.
Proof.
  unfold matches. induction 1 as [|x l m S IH|x l m S IH]; cbn [List.filter]; [lia| |]; destruct (recent f now x); cbn [length]; lia.
Qed.

Lemma lastn_suffix {A} n (front l : list A) : sublist (lastn n l) (lastn n (front ++ l)).
Proof.
  unfold lastn. rewrite length_app, skipn_app. replace (length front + length l - n - length front)%nat with (length l - n)%nat by lia.
  apply sublist_inserts_l. reflexivity.
Qed.
(** Of two ends of a list the shorter is an end of the longer. *)
Lemma suffix_suffix {A} (a b c d : list A) : (a ++ b = c ++ d)%list -> (length d <= length b)%nat -> exists x, b = (x ++ d)%list.
Proof.
  intros E L. exists (skipn (length a) c). pose proof (f_equal length E) as N. rewrite !length_app in N.
  etransitivity; [|etransitivity; [apply (f_equal (skipn (length a)) E)|]].
  - rewrite skipn_app, (skipn_all2 a), Nat.sub_diag by lia. reflexivity.
  - rewrite skipn_app. replace (length a - length c)%nat with 0%nat by lia. reflexivity.
Qed.

(** ** Facts on the tracker *)

Section Trace.
Context `{LRULaws nat}.
Variable uuid_String : string -> string.

(** A recorded dispatch, the tracker after a history of them, and the entries of a bucket. *)
Record Dispatch := { d_session : string; d_installation : string; d_role : string; d_fp : string; d_when : Z }.
Definition bucket (d : Dispatch) : option string := noProgressBucketKey uuid_String d.(d_session) d.(d_installation) d.(d_role).
Definition record_dispatch (t : noProgressTracker) (d : Dispatch) : noProgressTracker * (bool * Z) :=
  recordAndDetect uuid_String d.(d_session) d.(d_installation) d.(d_role) d.(d_fp) d.(d_when) t.
Definition tracker_after (ds : list Dispatch) : noProgressTracker :=
  fold_left (fun t d => (record_dispatch t d).1) ds newNoProgressTracker.
Definition entries_of (k : string) (ds : list Dispatch) : Ring :=
  (fun d => entry_of d.(d_fp) d.(d_when)) <$> filter (fun d => bucket d = Some k) ds.

Lemma entries_of_snoc k ds d : entries_of k (ds ++ [d])%list =
  (entries_of k ds ++ (if decide (bucket d = Some k) then [entry_of d.(d_fp) d.(d_when)] else []))%list.
Proof.
  unfold entries_of. rewrite filter_app, fmap_app, filter_cons, filter_nil. destruct (decide _); reflexivity.
Qed.
(** What the rings hold of a history: the ring the cache may return for a bucket ends with at least the last [m] entries of the bucket. *)
Definition kept (k : string) (ds : list Dispatch) (m : nat) (t : noProgressTracker) (r : nat) : Prop := exists front suf,
  entries_of k ds = (front ++ suf)%list /\ t.(rings) !! r = Some (lastn noProgressWindowSize suf) /\ (m <= length suf)%nat.
Definition covered (k : string) (ds : list Dispatch) (m : nat) (t : noProgressTracker) : Prop := forall r, holds t.(cache) k r -> kept k ds m t r.
Record traced (ds : list Dispatch) (t : noProgressTracker) : Prop := {
  traced_fresh : forall k r, holds t.(cache) k r -> (r < t.(next))%nat;
  traced_apart : forall k k' r, holds t.(cache) k r -> holds t.(cache) k' r -> k = k';
  traced_one : forall k r r', holds t.(cache) k r -> holds t.(cache) k r' -> r = r';
  traced_ring : forall k, covered k ds 0 t
}.
Lemma traced_new : traced [] newNoProgressTracker.
Proof. split; intros; try intros r Hr; exfalso; eapply holds_new; eassumption. Qed.
Definition hit (k : string) (now : Z) (t : noProgressTracker) : Prop := is_Some (lru_Get now k t.(cache)).1.
(** The ring a request gets is its bucket's alone; it is the one of before unless the cache has lost it. *)
Lemma ring_of_traced now k ds t r t' : traced ds t -> ring_of now k t = (r, t') ->
  (forall k' r', holds t'.(cache) k' r' -> (r' < t'.(next))%nat /\ (r' = r <-> k' = k) /\ (k' <> k -> holds t.(cache) k' r' /\ t'.(rings) !! r' = t.(rings) !! r')) /\
  (forall m, covered k ds m t -> hit k now t \/ m = 0%nat -> kept k ds m t' r).
Proof.
  intros [F A O R]. unfold ring_of, hit. destruct (lru_Get now k (cache t)) as [[r0|] c] eqn:G; intros [= <- <-]; cbn [cache rings next fst].
  - assert (Hk : holds (cache t) k r0) by (apply (holds_get now); rewrite G; reflexivity).
    assert (Sub : forall k' v, holds c k' v -> holds (cache t) k' v).
    { intros k' v X. apply (get_holds now k). rewrite G. exact X. }
    split; [|intros m C _; exact (C _ Hk)]. intros k' r' X. apply Sub in X. split; [eauto|]. split; [|auto].
    split; [intros ->; exact (A _ _ _ X Hk)|intros ->; exact (O _ _ _ X Hk)].
  - assert (Cases : forall k' v, holds (lru_Add now k (next t) c) k' v -> (k' = k /\ v = next t) \/ (k' <> k /\ (v < next t)%nat /\ holds (cache t) k' v)).
    { intros k' v X. apply add_holds in X as [X|[N X]]; [auto|right]. assert (Y : holds (cache t) k' v) by (apply (get_holds now k); rewrite G; exact X). eauto. }
    split.
    + intros k' r' X. apply Cases in X as [[-> ->]|(N & L & X)].
      * split; [lia|]. split; [tauto|]. intros N. congruence.
      * split; [lia|]. split; [split; [lia|congruence]|]. intros _. split; [exact X|]. rewrite lookup_insert_ne by lia. reflexivity.
    + intros m _ [[v E]| ->]; [discriminate E|]. exists (entries_of k ds), []. cbn [rings]. rewrite app_nil_r, lookup_insert_eq. split; [reflexivity|]. split; [reflexivity|cbn; lia].
Qed.
(** One dispatch: its bucket's ring takes its entry, the others keep theirs. *)
Lemma record_traced ds t d : traced ds t ->
  let '(t', (stops, n)) := record_dispatch t d in
  traced (ds ++ [d]) t' /\ stops = (5 <=? n) /\ (bucket d = None -> n = 0) /\
  (forall k m, bucket d <> Some k -> covered k ds m t -> covered k (ds ++ [d]) m t') /\
  (forall k m, bucket d = Some k -> covered k ds m t -> hit k d.(d_when) t \/ m = 0%nat ->
     covered k (ds ++ [d]) (S m) t' /\
     exists front suf, entries_of k ds = (front ++ suf)%list /\ (m <= length suf)%nat /\
       n = matches d.(d_fp) d.(d_when) (lastn noProgressWindowSize (suf ++ [entry_of d.(d_fp) d.(d_when)]))).
Proof.
  intros T. pose proof T as [F A O R]. unfold record_dispatch, recordAndDetect. fold (bucket d).
  assert (Other : forall k m t1, bucket d <> Some k -> (forall r, holds t1.(cache) k r -> kept k ds m t1 r) -> covered k (ds ++ [d]) m t1).
  { intros k m t1 N C r X. destruct (C r X) as (front & suf & E & P). exists front, suf. rewrite entries_of_snoc, decide_False, app_nil_r by exact N. auto. }
  destruct (bucket d) as [k|] eqn:B.
  2:{ split; [|split; [reflexivity|split; [reflexivity|split; [|discriminate]]]].
      - split; [exact F|exact A|exact O|]. intros k. apply Other; [discriminate|apply R].
      - intros k m N C. apply Other; [exact N|exact C]. }
  destruct (ring_of (d_when d) k t) as [r t1] eqn:Ro. destruct (ring_of_traced _ _ _ _ _ _ T Ro) as [P Q].
  destruct (Q 0%nat (R k) (or_intror eq_refl)) as (front0 & suf0 & E0 & G0 & _). rewrite G0.
  change (default [] (Some (lastn noProgressWindowSize suf0))) with (lastn noProgressWindowSize suf0).
  unfold ring_recordAndDetect. cbv zeta. fold (entry_of (d_fp d) (d_when d)). rewrite lastn_lastn.
  set (e := entry_of (d_fp d) (d_when d)). set (l' := lastn noProgressWindowSize (suf0 ++ [e])).
  assert (Away : forall k' m, k' <> k -> covered k' ds m t ->
    covered k' (ds ++ [d]) m {| cache := t1.(cache); rings := <[r := l']> t1.(rings); next := t1.(next) |}).
  { intros k' m N C. apply Other; [congruence|]. intros r' X. cbn [cache] in X. destruct (P _ _ X) as (_ & I & S). destruct (S N) as [X' Eq].
    destruct (C r' X') as (fr & su & E & G & L). exists fr, su. split; [exact E|]. split; [|exact L]. cbn [rings]. rewrite lookup_insert_ne; [exact (eq_trans Eq G)|].
    intros <-. apply N, I. reflexivity. }
  assert (Mine : forall m front suf, entries_of k ds = (front ++ suf)%list -> t1.(rings) !! r = Some (lastn noProgressWindowSize suf) -> (m <= length suf)%nat ->
    covered k (ds ++ [d]) (S m) {| cache := t1.(cache); rings := <[r := l']> t1.(rings); next := t1.(next) |}).
  { intros m front suf E G L r' X. cbn [cache] in X. destruct (P _ _ X) as (_ & I & _). rewrite (proj2 I eq_refl). exists front, (suf ++ [e])%list.
    rewrite entries_of_snoc, decide_True, E, app_assoc by exact B. split; [reflexivity|]. cbn [rings]. rewrite lookup_insert_eq. split.
    - unfold l'. rewrite <- (lastn_lastn _ suf0), <- (lastn_lastn _ suf). congruence.
    - rewrite length_app. cbn. lia. }
  split; [|split; [reflexivity|split; [discriminate|split]]].
  - split; cbn [cache next].
    + intros k' r' X. apply (P _ _ X).
    + intros k' k'' r' X Y. destruct (decide (r' = r)) as [->|N].
      * destruct (P _ _ X) as (_ & I & _), (P _ _ Y) as (_ & J & _). rewrite (proj1 I eq_refl), (proj1 J eq_refl). reflexivity.
      * destruct (P _ _ X) as (_ & I & SX), (P _ _ Y) as (_ & J & SY). apply (A k' k'' r'); [apply SX|apply SY]; intros ->; apply N; tauto.
    + intros k' r' r'' X Y. destruct (P _ _ X) as (_ & I & SX), (P _ _ Y) as (_ & J & SY). destruct (decide (k' = k)) as [->|N].
      * rewrite (proj2 I eq_refl), (proj2 J eq_refl). reflexivity.
      * apply (O k'); [apply SX, N|apply SY, N].
    + intros k'. destruct (decide (k' = k)) as [->|N]; [|exact (Away k' 0%nat N (R k'))].
      intros r' X. destruct (Mine 0%nat front0 suf0 E0 G0 ltac:(lia) r' X) as (fr & su & E & G & _). exists fr, su. split; [exact E|split; [exact G|lia]].
  - intros k' m N C. apply Away; [congruence|exact C].
  - intros k' m [= <-] C Hit. destruct (Q m C Hit) as (front & suf & E & G & L). split; [exact (Mine m front suf E G L)|].
    exists front, suf. split; [exact E|]. split; [exact L|]. rewrite G0 in G. injection G as G.
    rewrite <- (lastn_lastn _ suf), <- G, lastn_lastn. reflexivity.
Qed.

Lemma tracker_after_snoc ds d : tracker_after (ds ++ [d]) = (record_dispatch (tracker_after ds) d).1.
Proof. unfold tracker_after. rewrite fold_left_app. reflexivity. Qed.
Lemma tracker_traced ds : traced ds (tracker_after ds).
Proof.
  induction ds as [|x ds IH] using rev_ind; [exact traced_new|]. rewrite tracker_after_snoc. pose proof (record_traced ds (tracker_after ds) x IH) as R.
  destruct (record_dispatch _ _) as [t' [s n]]. exact (proj1 R).
Qed.
(** From some point on the cache does not lose the ring of a bucket: every dispatch of the bucket after the first finds it. *)
Definition stays_cached (k : string) (old recent : list Dispatch) : Prop := forall pre x post,
  recent = (pre ++ x :: post)%list -> bucket x = Some k -> entries_of k pre <> [] -> hit k x.(d_when) (tracker_after (old ++ pre)).
Lemma entries_of_app k a b : entries_of k (a ++ b)%list = (entries_of k a ++ entries_of k b)%list.
Proof. unfold entries_of. rewrite filter_app, fmap_app. reflexivity. Qed.
Lemma stays_covered k old recent : stays_cached k old recent ->
  covered k (old ++ recent) (length (entries_of k recent)) (tracker_after (old ++ recent)).
Proof.
  induction recent as [|x recent IH] using rev_ind; intros S.
  { rewrite app_nil_r. apply (traced_ring _ _ (tracker_traced old)). }
  assert (C : covered k (old ++ recent) (length (entries_of k recent)) (tracker_after (old ++ recent))).
  { apply IH. intros pre y post E B N. apply (S pre y (post ++ [x])%list); [rewrite E, <- app_assoc; reflexivity|exact B|exact N]. }
  rewrite app_assoc, tracker_after_snoc. pose proof (record_traced _ _ x (tracker_traced (old ++ recent))) as R.
  destruct (record_dispatch _ x) as [t' [st n]]. destruct R as (_ & _ & _ & Away & Mine). cbn [fst]. rewrite entries_of_snoc.
  destruct (decide (bucket x = Some k)) as [B|B].
  - rewrite length_app, Nat.add_comm. apply Mine; [exact B|exact C|]. destruct (entries_of k recent) as [|y l] eqn:E; [right; reflexivity|left].
    apply (S recent x []); [reflexivity|exact B|rewrite E; discriminate].
  - rewrite app_nil_r. apply Away; [exact B|exact C].
Qed.


(** No session is stopped for another's dispatches: whatever was recorded before, by whichever
    sessions, and whatever the cache forgot, a turn that is stopped has a bucket, and at least five of the
    dispatches recorded in that bucket, its own among them, have its fingerprint and are at most ninety seconds
    old. *)
Lemma no_false_alarm (ds : list Dispatch) (d : Dispatch) (n : Z)
  (Hstop : (record_dispatch (tracker_after ds) d).2 = (true, n)) :
  exists k, bucket d = Some k /\ 5 <= n <= matches d.(d_fp) d.(d_when) (entries_of k (ds ++ [d])).
Proof.
  pose proof (record_traced ds (tracker_after ds) d (tracker_traced ds)) as R.
  destruct (record_dispatch (tracker_after ds) d) as [t' [s m]]. cbn in Hstop. injection Hstop as -> ->. destruct R as (_ & E & Nb & _ & Mine).
  symmetry in E. apply Z.leb_le in E. destruct (bucket d) as [k|] eqn:B; [|specialize (Nb eq_refl); lia]. exists k. split; [reflexivity|].
  destruct (Mine k 0%nat eq_refl (traced_ring _ _ (tracker_traced ds) k) (or_intror eq_refl)) as (_ & front & suf & Es & _ & En). split; [exact E|].
  rewrite En. apply matches_sublist. rewrite entries_of_snoc, decide_True, Es, <- app_assoc by exact B. rewrite lastn_sublist. apply sublist_inserts_l. reflexivity.
Qed.
End Trace.

(** ** Witnesses *)

Definition ex_dispatch (session : string) (t : Z) : Dispatch :=
  {| d_session := session; d_installation := uuid_Nil; d_role := "default"; d_fp := "f"; d_when := t * Second |}.
Definition ex_history : list Dispatch :=
  ex_dispatch "session-a-000000" <$> [1; 2; 3; 4].
Lemma no_false_alarm_witness :
  let c := unbounded (5 * Minute) in
  let d := ex_dispatch "session-a-000000" 5 in
  (record_dispatch (fun s => s) (tracker_after (fun s => s) ex_history) d).2 = (true, 5) /\
  exists k, bucket (fun s => s) d = Some k /\ 5 <= 5 <= matches d.(d_fp) d.(d_when) (entries_of (fun s => s) k (ex_history ++ [d])).
Proof.
  cbv zeta. split; [vm_compute; reflexivity|].
  apply (@no_false_alarm (unbounded (5 * Minute)) (unbounded_laws (5 * Minute)) (fun s => s) ex_history). vm_compute. reflexivity.
Defined.
(** Four dispatches of one session, another's between, and the fifth. *)
Definition ex_mixed : list Dispatch := (ex_history ++ [ex_dispatch "session-b-000000" 4])%list.
