(* ===== verification/Escalation.v ===== *)
(** What the detectors do about a degenerate session: the rescue of a looping session (loop_detection.go), the
    move of a struggling one (struggle_escalation.go), the breaks of a stuck or repeating turn (no_progress.go,
    text_repetition.go) and the shadow records (spiral_detection.go, struggle_detection.go), all in
    internal/proxy.  A handler works on the pins and on a store of its events; logging is left out. *)

From stdpp Require Import base gmap sets list strings.
From Stdlib Require Import ZArith Lia Ascii SpecFloat.
From S2P Require Import Prelude Strings Sse Floats Types Catalog PinStore ForceNames Reasoning Exclusions GlobalExclusions Upstream PinPolicy HmmRoster ForcePins Json Hash ThinkTag Toolcheck TurnTypes Features Synthetic History Detectors Lru Trackers.
Open Scope string_scope.
Open Scope Z_scope.

(** ** Events *)

(** A store of events with a budget per key (LoopEscalationStore, StruggleEscalationStore, and the shadow stores). *)
Class EventStore (T E K : Type) := {
  InsertEvent : E -> Op T unit;
  CountEvents : K -> Op T Z
}.
(** Events are appended, and counted under their key. *)
Class EventStoreLaws (T E K : Type) `{EventStore T E K} := {
  event_key : E -> K;
  recorded : T -> list E;
  Insert_ok e now t t' : InsertEvent e now t = (t', Ok tt) -> recorded t' = (recorded t ++ [e])%list;
  Insert_err e now t t' x : InsertEvent e now t = (t', Err x) -> recorded t' = recorded t;
  Count_ok k now t t' n : CountEvents k now t = (t', Ok n) ->
    recorded t' = recorded t /\ (0 < n <-> exists e, e ∈ recorded t /\ event_key e = k);
  Count_err k now t t' x : CountEvents k now t = (t', Err x) -> recorded t' = recorded t
}.

(** Programs over one of two stores, as programs over both. *)
Definition on_pins {S T A} (m : Prog S A) : Prog (S * T) A := fun now st => let '(s, a) := m now st.1 in ((s, st.2), a).
Definition on_events {S T A} (m : Prog T A) : Prog (S * T) A := fun now st => let '(t, a) := m now st.2 in ((st.1, t), a).

(** [binary.BigEndian.Uint32(sessionKey[0:4])]. *)
Definition big_endian32 (s : string) : Z := fold_left (fun n b => n * 256 + b) (bytes_of (str_take 4 s)) 0.
Definition DeterministicHoldout (sessionKey : string) (pct : Z) : bool :=
  if pct <=? 0 then false else if 100 <=? pct then true else big_endian32 sessionKey mod 100 <? pct.

(** The key events are counted under: a session and a role, and for the shadow records the reason. *)
Abbreviation SessionRole := (string * string)%type.
Abbreviation SessionRoleReason := (string * string * string)%type.

(** ** The rescue of a looping session (loop_detection.go) *)

Definition escalateModel : string := "zai-org/glm-5.3".
Inductive LoopAction := LoopEscalated | LoopHoldout | LoopAlreadyStrong | LoopUserForced | LoopDisabled | LoopAutomaticRoutingDisabled.
Record LoopEscalationEvent := {
  le_InstallationID : string; le_SessionKey : string; le_Role : string; LoopingModel : string; le_Action : LoopAction;
  le_EscalationTarget : string; LoopTool : string; LoopInputHash : string; RepeatCount : Z; DistinctRatio : f64; WindowSize : Z
}.

Section Handlers.
Context `{GoUnicode} {S : Type} `{PinStore S}.
Variable uuid_String : string -> string.
Variable strat : option string.
Variable pinStore_set : bool.

Section Loop.
Context {T : Type} `{EventStore T LoopEscalationEvent SessionRole}.
Variable store_set : bool.
(** ResolveLoopEscalationEnabled, ResolveLoopEscalationHoldoutPct, and the list of withdrawn models. *)
Variable enabled : bool.
Variable holdoutPct : Z.
Variable withdrawn : option Exclusions.

(** The model that loops and whether the user forced it; [None] for a session rescued before. *)
Definition looping_model (inst key role routedModel : string) : Prog S (option (string * bool)) :=
  if (negb pinStore_set || String.eqb inst uuid_Nil)%bool then ret (Some (routedModel, false))
  else
    let* r := Get key role in
    match r with
    | Err _ | Ok None => ret (Some (routedModel, false))
    | Ok (Some existing) =>
        if negb (pinMatchesEffectiveStrategy strat existing) then ret (Some (routedModel, false))
        else if String.eqb existing.(Pin.Reason) ReasonLoopEscalation then ret None
        else ret (Some (if String.eqb existing.(Pin.Model) "" then routedModel else existing.(Pin.Model),
                        String.eqb existing.(Pin.Reason) ReasonUserForceModel))
    end.
Definition forced_over (forceKey : option string) (m : string * bool) : Prog S (string * bool) :=
  match forceKey with
  | None => ret m
  | Some k => let* (pin, active, _) := loadForceModelSessionPin pinStore_set k in
              ret (if (active : bool) then (pin.(Pin.Model), true) else m)
  end.
(** The session's one event is spent; a failed lookup does not spend it. *)
Definition budget_spent {U E : Type} `{EventStore U E SessionRole} (recording : bool) (key role : string) : Prog U bool :=
  if negb recording then ret false
  else
    let* r := CountEvents (key, role) in
    ret (match r with Ok n => 0 <? n | Err _ => false end).
Definition loop_action (userForced : bool) (loopingModel : string) (holdout : bool) : LoopAction :=
  let automaticRoutingDisabled := (negb userForced && (globalAutomaticExclusionReason withdrawn escalateModel).2)%bool in
  if negb enabled then LoopDisabled
  else if userForced then LoopUserForced
  else if automaticRoutingDisabled then LoopAutomaticRoutingDisabled
  else if String.eqb loopingModel escalateModel then LoopAlreadyStrong
  else if holdout then LoopHoldout
  else LoopEscalated.
(** The pin of the rescue, at the given time; whether it was written. *)
Definition rescue_pin (inst key role lastServed : string) (now : Z) : Pin.t :=
  Pin.set_LastServedModel lastServed
    (new_pin key role inst ProviderAiand escalateModel "" "" ReasonLoopEscalation (StrategyFromContext strat) "" (now + pinSessionTTL)).
Definition rescue (inst key role : string) : Prog S bool :=
  if (negb pinStore_set || String.eqb inst uuid_Nil)%bool then ret false
  else
    let* r := Get key role in
    let lastServed := match r with
                      | Ok (Some existing) => if pinMatchesEffectiveStrategy strat existing then existing.(Pin.LastServedModel) else ""
                      | _ => ""
                      end in
    let* now := clock_now in
    let* r := Upsert (rescue_pin inst key role lastServed now) in
    ret (match r with Ok _ => true | Err _ => false end).
Definition loop_event (inst key role loopingModel : string) (action : LoopAction) (top : ToolCallSig) (topCount : Z) (ratio : f64) (window : Z)
  : LoopEscalationEvent :=
  {| le_InstallationID := uuid_String inst; le_SessionKey := key; le_Role := role; LoopingModel := loopingModel; le_Action := action;
     le_EscalationTarget := escalateModel; LoopTool := top.(sig_Name); LoopInputHash := top.(InputHash);
     RepeatCount := wrap32 topCount; DistinctRatio := ratio; WindowSize := wrap32 window |}.
(** Rescue first, record second. *)
Definition act_on_loop (recording : bool) (inst key role : string) (event : LoopEscalationEvent) : Prog (S * T) unit :=
  let* ok := match event.(le_Action) with LoopEscalated => on_pins (rescue inst key role) | _ => ret true end in
  if (negb ok || negb recording)%bool then ret tt
  else let* _ := on_events (InsertEvent event) in ret tt.
Definition handleLoopEscalation (top : ToolCallSig) (topCount : Z) (distinctRatio : f64) (window : Z) (inst key role routedModel : string)
    (forceKey : option string) : Prog (S * T) unit :=
  let recording := (store_set && negb (String.eqb inst uuid_Nil))%bool in
  let* m := on_pins (looping_model inst key role routedModel) in
  match m with
  | None => ret tt
  | Some m =>
      let* (loopingModel, userForced) := on_pins (forced_over forceKey m) in
      let* spent := on_events (budget_spent recording key role) in
      if (spent : bool) then ret tt
      else
        let holdout := (recording && DeterministicHoldout key holdoutPct)%bool in
        let action := loop_action userForced loopingModel holdout in
        act_on_loop recording inst key role (loop_event inst key role loopingModel action top topCount distinctRatio window)
  end.
End Loop.

(** ** The move of a struggling session (struggle_escalation.go) *)

Inductive StruggleAction := StruggleUpCluster | StruggleSideways | StruggleHoldout | StruggleDisabled | StruggleUserForced
  | StruggleNoTarget | StruggleNoEligibleArms.
Definition struggleArmingTurnWall : string := "turn_wall".
(** [int64(wall.Seconds())]. *)
Definition wall_seconds (wall : Z) : Z :=
  f64_to_int (f64_add (f64_of_Z (Z.quot wall Second)) (f64_div (f64_of_Z (Z.rem wall Second)) (f64_of_Z 1000000000))).
Record StruggleEscalationEvent := {
  se_InstallationID : string; se_SessionKey : string; se_Role : string; StrugglingModel : string; se_Action : StruggleAction;
  se_EscalationTarget : string; se_TurnCount : Z; se_WallSeconds : Z; se_SessionEverSwitched : bool;
  ArmingMode : string; EvidenceReasons : list string
}.
Section Struggle.
Context {T : Type} `{EventStore T StruggleEscalationEvent SessionRole}.
Variable store_set : bool.
Variable enabled : bool.
Variable holdoutPct : Z.
(** The roster the sidecar answers, when one is wired. *)
Variable roster : option (res string Clusters).
Variable cfg : Config.
Variable ctx : Ctx.
Variable withdrawn : option Exclusions.

Definition deployed_model (model : string) : bool := match cfg.(availableModels) with None => true | Some l => in_set model l end.
Definition struggle_excluded : option (gset string) :=
  mergeExcludedModels (excludedModelsForRequest cfg ctx) (globalAutomaticExcludedModels withdrawn).
(** The action, the target with its provider and cluster when there is one. *)
Definition struggle_action (inst : string) (pin : Pin.t) (userForced holdout : bool) : StruggleAction * option (string * string * string) :=
  if negb enabled then (StruggleDisabled, None)
  else if userForced then (StruggleUserForced, None)
  else if holdout then (StruggleHoldout, None)
  else if String.eqb pin.(Pin.PolicyGroup) "" then (StruggleNoTarget, None)
  else match roster with
       | None => (StruggleNoTarget, None)
       | Some source =>
           match EscalationTarget source pin.(Pin.PolicyGroup) pin.(Pin.Model) struggle_excluded deployed_model with
           | Err _ => (StruggleNoEligibleArms, None)
           | Ok (target, cluster) =>
               if String.eqb target "" then (StruggleNoEligibleArms, None)
               else match ByID target with
                    | None => (StruggleNoEligibleArms, None)
                    | Some m =>
                        match m.(Providers) with
                        | [] => (StruggleNoEligibleArms, None)
                        | b :: _ =>
                            if String.eqb inst uuid_Nil then (StruggleNoEligibleArms, None)
                            else (if String.eqb cluster pin.(Pin.PolicyGroup) then StruggleSideways else StruggleUpCluster,
                                  Some (target, b.(Provider), cluster))
                        end
                    end
           end
       end.
Definition struggle_pin (inst key role : string) (pin : Pin.t) (target provider cluster : string) (now : Z) : Pin.t :=
  Pin.set_LastServedModel pin.(Pin.LastServedModel)
    (new_pin key role inst provider target "" "" ReasonStruggleEscalation (StrategyFromContext strat) cluster (now + pinSessionTTL)).
Definition struggle_wall (pin : Pin.t) (now : Z) : Z := if IsZero pin.(Pin.FirstPinnedAt) then 0 else Sub now pin.(Pin.FirstPinnedAt).
(** The early operating point, and not yet the late one. *)
Definition struggling (pin : Pin.t) (wall : Z) : bool :=
  match struggleReasons (pin.(Pin.TurnCount) + 1) wall with
  | reason :: _ => String.eqb reason "early"
  | [] => false
  end.
Definition struggle_event (inst key role : string) (pin : Pin.t) (wall : Z) (action : StruggleAction) (target : option (string * string * string)) (evidence : list spiralReason)
  : StruggleEscalationEvent :=
  {| se_InstallationID := uuid_String inst; se_SessionKey := key; se_Role := role;
     StrugglingModel := if String.eqb pin.(Pin.Model) "" then "unknown" else pin.(Pin.Model); se_Action := action;
     se_EscalationTarget := match target with Some (t, _, _) => t | None => "" end;
     se_TurnCount := wrap32 (pin.(Pin.TurnCount) + 1); se_WallSeconds := wall_seconds wall;
     se_SessionEverSwitched := pin.(Pin.HasEverSwitched); ArmingMode := struggleArmingTurnWall; EvidenceReasons := spiral_string <$> evidence |}.
Definition handleStruggleEscalation (inst key role : string) (evidence : list spiralReason) (forceKey : option string) : Prog (S * T) unit :=
  if negb pinStore_set then ret tt
  else
    let* r := on_pins (Get key role) in
    match r with
    | Err _ | Ok None => ret tt
    | Ok (Some pin) =>
        if (negb (pinMatchesEffectiveStrategy strat pin) || String.eqb pin.(Pin.Reason) ReasonStruggleEscalation)%bool then ret tt
        else
          let* now := clock_now in
          let wall := struggle_wall pin now in
          if negb (struggling pin wall) then ret tt
          else
            let* (_, userForced) := on_pins (forced_over forceKey ("", String.eqb pin.(Pin.Reason) ReasonUserForceModel)) in
            let recording := (store_set && negb (String.eqb inst uuid_Nil))%bool in
            let* spent := on_events (budget_spent recording key role) in
            if (spent : bool) then ret tt
            else
              let holdout := (recording && DeterministicHoldout key holdoutPct)%bool in
              let '(action, target) := struggle_action inst pin userForced holdout in
              let* ok := match target with
                         | None => ret true
                         | Some (model, provider, cluster) =>
                             on_pins (let* r := Upsert (struggle_pin inst key role pin model provider cluster now) in
                                      ret (match r with Ok _ => true | Err _ => false end))
                         end in
              if (negb ok || negb recording)%bool then ret tt
              else
                let* _ := on_events (InsertEvent (struggle_event inst key role pin wall action target evidence)) in
                ret tt
    end.
End Struggle.

(** ** Breaking a turn (no_progress.go, text_repetition.go), the pins it touches *)

(** The session has a row of its own. *)
Definition addressable (inst key : string) : bool :=
  (pinStore_set && negb (String.eqb inst uuid_Nil) && negb (String.eqb key zero_session_key))%bool.
(** Whether the user's pin is preserved, which the message says. *)
Definition break_stuck_pin (inst key role decisionReason : string) : Prog S bool :=
  let* preserve := if isUserForcedReason decisionReason then ret true
                   else if addressable inst key then
                     let* (pin, found) := loadPin strat key role in
                     ret (found && isUserForcedReason pin.(Pin.Reason))%bool
                   else ret false in
  if (addressable inst key && negb preserve)%bool then
    let* _ := expireSessionPinAndHMMHistory strat pinStore_set inst key role "no_progress_loop_break" in ret preserve
  else ret preserve.
Definition break_repeating_pin (inst key role : string) : Prog S unit :=
  if addressable inst key then
    let* _ := expireSessionPinAndHMMHistory strat pinStore_set inst key role "text_repetition_break" in ret tt
  else ret tt.
Definition handleNoProgressBreak `{Gjson} (env : RequestEnvelope) (count : Z) (inst key role decisionModel decisionProvider : string)
    (inputTokens : Z) (decisionReason : string) : Prog S Response :=
  let* preserve := break_stuck_pin inst key role decisionReason in
  let* now := clock_now in
  ret (no_progress_response env count preserve decisionModel decisionProvider inputTokens now).
Definition handleTextRepetitionBreak `{Gjson} (env : RequestEnvelope) (count : Z) (inst key role decisionModel decisionProvider : string)
    (inputTokens : Z) : Prog S Response :=
  let* _ := break_repeating_pin inst key role in
  let* now := clock_now in
  ret (text_repetition_response env count decisionModel decisionProvider inputTokens now).

(** ** Shadow records (spiral_detection.go, struggle_detection.go) *)

Record SpiralShadowEvent := {
  ss_InstallationID : string; ss_SessionKey : string; ss_Role : string; ss_RoutedModel : string; ss_TurnType : string; ss_Reason : string;
  ss_ErrStreak : Z; ss_ErroredResults : Z; ss_ToolResults : Z; ss_MaxSameFileEdits : Z; ss_SameFilePathHash : string; ss_RepeatFrac : f64;
  ss_MonologueLen : Z; ss_ToolCallCount : Z; ss_MessageCount : Z; ss_PingPongLen : Z; ss_StepsSinceProgress : Z
}.
Record StruggleShadowEvent := {
  sh_InstallationID : string; sh_SessionKey : string; sh_Role : string; sh_RoutedModel : string; sh_TurnType : string; sh_Reason : string;
  sh_TurnCount : Z; sh_WallSeconds : Z; sh_SessionEverSwitched : bool; sh_EstInputTokens : Z
}.
(** CaptureOff, CaptureHashed, CaptureFull. *)
Inductive ContentCaptureMode := CaptureOff | CaptureHashed | CaptureFull.
Definition turnSignalCaptureAllowed (trainingAllowed : bool) (capture : ContentCaptureMode) : bool :=
  (trainingAllowed && match capture with CaptureOff => false | _ => true end)%bool.
Definition spiralFiredKey (key role reason : string) : string := key +:+ NUL +:+ role +:+ NUL +:+ reason.

Section Shadow.
Context {T E : Type} `{EventStore T E SessionRoleReason} `{LRU unit}.
Variable store_set : bool.
(** One record of a reason, unless the process remembers it or the store has it; one not written is tried again. *)
Definition shadow_record (inst key role reason : string) (event : E) : Prog (T * Cache unit) unit := fun now tc =>
  let fired := spiralFiredKey key role reason in
  let '(seen, c) := lru_Get now fired tc.2 in
  match seen with
  | Some _ => ((tc.1, c), tt)
  | None =>
      if (store_set && negb (String.eqb inst uuid_Nil))%bool then
        let '(t, count) := CountEvents (key, role, reason) now tc.1 in
        if match count with Ok n => 0 <? n | Err _ => false end then ((t, lru_Add now fired tt c), tt)
        else
          let '(t, r) := InsertEvent event now t in
          ((t, match r with Ok _ => lru_Add now fired tt c | Err _ => c end), tt)
      else ((tc.1, lru_Add now fired tt c), tt)
  end.
End Shadow.

Definition spiral_event (s : spiralSignals) (inst key role routedModel turnType : string) (reason : spiralReason) : SpiralShadowEvent :=
  {| ss_InstallationID := uuid_String inst; ss_SessionKey := key; ss_Role := role; ss_RoutedModel := routedModel; ss_TurnType := turnType;
     ss_Reason := spiral_string reason; ss_ErrStreak := wrap32 s.(errStats).(TrailingErrStreak); ss_ErroredResults := wrap32 s.(errStats).(Errored);
     ss_ToolResults := wrap32 s.(errStats).(Total); ss_MaxSameFileEdits := wrap32 s.(maxSameFileEdits); ss_SameFilePathHash := s.(sameFilePathHash);
     ss_RepeatFrac := s.(repeatFrac); ss_MonologueLen := wrap32 s.(monologueLen); ss_ToolCallCount := wrap32 s.(toolCallCount);
     ss_MessageCount := wrap32 s.(messageCount); ss_PingPongLen := wrap32 s.(pingPongLen); ss_StepsSinceProgress := wrap32 s.(stepsSince) |}.
Fixpoint each_reason {U : Type} (f : spiralReason -> Prog U unit) (reasons : list spiralReason) : Prog U unit :=
  match reasons with
  | [] => ret tt
  | r :: rest => let* _ := f r in each_reason f rest
  end.
Definition handleSpiralShadow {T} `{EventStore T SpiralShadowEvent SessionRoleReason} `{LRU unit} (store_set : bool) (s : spiralSignals)
    (reasons : list spiralReason) (inst key role routedModel turnType : string) (trainingAllowed : bool) (capture : ContentCaptureMode)
  : Prog (T * Cache unit) unit :=
  if negb (turnSignalCaptureAllowed trainingAllowed capture) then ret tt
  else each_reason (fun r => shadow_record store_set inst key role (spiral_string r) (spiral_event s inst key role routedModel turnType r)) reasons.
Definition handleStruggleShadow {T} `{EventStore T StruggleShadowEvent SessionRoleReason} `{LRU unit} (store_set : bool)
    (reason inst key role routedModel turnType : string) (turnCount wall : Z) (sessionEverSwitched : bool) (estInputTokens : Z)
  : Prog (T * Cache unit) unit :=
  shadow_record store_set inst key role reason
    {| sh_InstallationID := uuid_String inst; sh_SessionKey := key; sh_Role := role; sh_RoutedModel := routedModel; sh_TurnType := turnType;
       sh_Reason := reason; sh_TurnCount := wrap32 turnCount; sh_WallSeconds := wall_seconds wall;
       sh_SessionEverSwitched := sessionEverSwitched; sh_EstInputTokens := wrap32 estInputTokens |}.
End Handlers.

(** ** Pins written *)

(** A row written for the request's strategy is the session's own, and is served while it lasts. *)
Lemma own_matches strat q : q.(Pin.Strategy) = StrategyFromContext strat -> pinMatchesEffectiveStrategy strat q = true.
Proof. intros E. unfold pinMatchesEffectiveStrategy. rewrite E, String.eqb_refl. destruct (isUserForcedReason _); reflexivity. Qed.
Lemma written_loads `{GoUnicode} (strat : option string) (key role : string) (now : Z) (db : gmap (string * string) Pin.t) (q : Pin.t) :
  q.(Pin.Strategy) = StrategyFromContext strat -> After q.(Pin.PinnedUntil) now = true ->
  (loadPin strat key role now (<[(key, role) := q]> db)).2 = (canonicalizePinModels q, true).
Proof.
  intros E L. unfold loadPin, bind, clock_now, ret. cbn. rewrite lookup_insert_eq, (own_matches strat q E). cbn. rewrite L. reflexivity.
Qed.

(** ** A session is rescued once *)

Section LoopFacts.
Context `{GoUnicode} {T : Type} `{EventStore T LoopEscalationEvent SessionRole}.
Variable uuid_String : string -> string.
Variable strat : option string.
Variable store_set enabled : bool.
Variable holdoutPct : Z.
Variable withdrawn : option Exclusions.
Abbreviation sigma := (StrategyFromContext strat).
Abbreviation Db := (gmap (string * string) Pin.t).
Abbreviation handle := (handleLoopEscalation uuid_String strat true store_set enabled holdoutPct withdrawn).

(** The model the session is on. *)
Definition session_model (db : Db) (key role routedModel : string) : string :=
  match db !! (key, role) with
  | Some p => if (pinMatchesEffectiveStrategy strat p && negb (String.eqb p.(Pin.Model) ""))%bool then p.(Pin.Model) else routedModel
  | None => routedModel
  end.
Definition recording (inst : string) : bool := (store_set && negb (String.eqb inst uuid_Nil))%bool.
(** What makes a rescue due: the switch, the operator and the user allow it, the session was not rescued before,
    it is on another model than the rescue's, and it is not held out. *)
Record rescue_due (db : Db) (t : T) (now : Z) (inst key role routedModel : string) (forceKey : option string) : Prop := {
  due_enabled : enabled = true;
  due_offered : (globalAutomaticExclusionReason withdrawn escalateModel).2 = false;
  due_row p : db !! (key, role) = Some p -> pinMatchesEffectiveStrategy strat p = true ->
    p.(Pin.Reason) <> ReasonLoopEscalation /\ p.(Pin.Reason) <> ReasonUserForceModel;
  due_unforced k : forceKey = Some k -> (loadForceModelSessionPin true k now db).2.1.2 = false;
  due_model : session_model db key role routedModel <> escalateModel;
  due_budget : (budget_spent (recording inst) key role now t).2 = false;
  due_acted : (recording inst && DeterministicHoldout key holdoutPct)%bool = false
}.
(** The row of a rescued session. *)
Definition rescued (db db' : Db) (now : Z) (key role : string) : Prop :=
  exists q, db' = <[(key, role) := q]> db /\ q.(Pin.Model) = escalateModel /\ q.(Pin.Provider) = ProviderAiand /\
    q.(Pin.Reason) = ReasonLoopEscalation /\ q.(Pin.Strategy) = sigma /\ q.(Pin.PinnedUntil) = pg_time (now + pinSessionTTL).

Lemma force_pin_reads (k : string) (now : Z) (db : Db) : (loadForceModelSessionPin true k now db).1 = db.
Proof.
  unfold loadForceModelSessionPin, bind, ret. cbn. destruct (db !! _) as [p|]; [|reflexivity].
  destruct (String.eqb p.(Pin.Reason) userUnforcedReason); [reflexivity|]. cbn. destruct (_ || _)%bool; reflexivity.
Qed.
Lemma forced_over_reads (forceKey : option string) (m : string * bool) (now : Z) (db : Db) : exists m', forced_over true forceKey m now db = (db, m') /\
  (m' = m \/ exists k, forceKey = Some k /\ m'.2 = true /\ (loadForceModelSessionPin true k now db).2.1.2 = true) /\
  (forall k, forceKey = Some k -> (loadForceModelSessionPin true k now db).2.1.2 = true -> m'.2 = true).
Proof.
  unfold forced_over. destruct forceKey as [k|]; [|exists m; repeat split; [left; reflexivity|discriminate]]. unfold bind, ret.
  pose proof (force_pin_reads k now db) as R. destruct (loadForceModelSessionPin true k now db) as [db' [[pin a] u]] eqn:E. cbn in R. subst db'.
  exists (if a then (pin.(Pin.Model), true) else m). split; [reflexivity|]. split.
  - destruct a; [right; exists k; rewrite E; auto|left; reflexivity].
  - intros k' [= <-]. rewrite E. cbn. intros ->. reflexivity.
Qed.
Lemma rescue_writes (inst key role : string) (now : Z) (db : Db) : inst <> uuid_Nil -> fits 32 role -> fits 32 sigma ->
  (forall p, db !! (key, role) = Some p -> p.(Pin.TurnCount) < max_int32) ->
  exists db', rescue strat true inst key role now db = (db', true) /\ rescued db db' now key role.
Proof.
  intros Ni Fr Fs Ft. unfold rescue, bind, clock_now, ret. rewrite (proj2 (String.eqb_neq _ _) Ni). cbn [negb orb Get Upsert SessionPinRepo repo_Get].
  match goal with |- context [rescue_pin strat inst key role ?l now] => set (ls := l) end.
  assert (Fp : pin_fits (rescue_pin strat inst key role ls now)) by (unfold pin_fits, fits in *; cbn; auto 10).
  destruct (repo_Upsert_succeeds _ now db Fp Ft) as [db1 E1]. unfold repo_Get. rewrite E1. exists db1. split; [reflexivity|].
  destruct (@Upsert_ok _ SessionPinRepo SessionPinRepo_laws _ now db db1 Fp E1) as (q & U & V). exists q. split; [exact V|].
  destruct (up_decision _ _ _ _ U) as (U1 & U2 & U3 & U4). pose proof (up_until _ _ _ _ U). auto.
Qed.
Lemma looping_model_reads (inst key role routedModel : string) (now : Z) (db : Db) : inst <> uuid_Nil ->
  looping_model strat true inst key role routedModel now db =
    (db, match db !! (key, role) with
         | Some p => if pinMatchesEffectiveStrategy strat p then
                       if String.eqb p.(Pin.Reason) ReasonLoopEscalation then None
                       else Some (session_model db key role routedModel, String.eqb p.(Pin.Reason) ReasonUserForceModel)
                     else Some (session_model db key role routedModel, false)
         | None => Some (session_model db key role routedModel, false)
         end).
Proof.
  intros Ni. unfold looping_model, session_model, bind, ret. rewrite (proj2 (String.eqb_neq _ _) Ni). cbn.
  destruct (db !! (key, role)) as [p|]; [|reflexivity]. destruct (pinMatchesEffectiveStrategy strat p); cbn; [|reflexivity].
  destruct (String.eqb p.(Pin.Reason) ReasonLoopEscalation); [reflexivity|]. destruct (String.eqb p.(Pin.Model) ""); reflexivity.
Qed.
(** A rescued session is served the rescue's model while the pin lasts, and another detection changes nothing. *)
Lemma rescued_loads (db db' : Db) (now now' : Z) (key role : string) : rescued db db' now key role -> now' < pg_time (now + pinSessionTTL) ->
  exists p, (loadPin strat key role now' db').2 = (p, true) /\ p.(Pin.Model) = escalateModel /\ p.(Pin.Reason) = ReasonLoopEscalation.
Proof.
  intros (q & -> & Em & Ep & Er & Es & Eu) L. exists (canonicalizePinModels q).
  split; [apply written_loads; [exact Es|unfold After; rewrite Eu; apply Z.ltb_lt, L]|].
  split; [cbn; rewrite Em; vm_compute; reflexivity|exact Er].
Qed.
Lemma rescued_idle (db db' : Db) (now now' : Z) (t : T) inst key role top n ratio w routedModel forceKey : rescued db db' now key role -> inst <> uuid_Nil ->
  handle top n ratio w inst key role routedModel forceKey now' (db', t) = ((db', t), tt).
Proof.
  intros (q & -> & Em & Ep & Er & Es & Eu) Ni. unfold handleLoopEscalation, bind at 1. unfold on_pins at 1. cbn [fst snd].
  rewrite (looping_model_reads inst key role routedModel now' _ Ni), lookup_insert_eq.
  rewrite (own_matches strat q Es), Er. reflexivity.
Qed.

Lemma act_on_loop_pins (b : bool) (inst key role : string) (e : LoopEscalationEvent) (now : Z) (st : Db * T) :
  (act_on_loop strat true b inst key role e now st).1.1 =
  match le_Action e with LoopEscalated => (rescue strat true inst key role now st.1).1 | _ => st.1 end.
Proof.
  unfold act_on_loop, on_pins, on_events, bind, ret. destruct st as [db t]. cbn [fst snd].
  destruct (le_Action e); cbn [fst snd]; [destruct (rescue strat true inst key role now db) as [db' []]|..]; destruct b; cbn;
    try reflexivity; destruct (InsertEvent e now t); reflexivity.
Qed.
(** The handler's pins: those of a rescue when the action is one, else those it found. *)
Lemma handle_pins (top : ToolCallSig) (n : Z) (ratio : f64) (w : Z) (inst key role routedModel : string) (forceKey : option string) (now : Z) (db : Db) (t : T) : inst <> uuid_Nil ->
  exists m u, (handle top n ratio w inst key role routedModel forceKey now (db, t)).1.1 =
    (if match db !! (key, role) with
        | Some p => (pinMatchesEffectiveStrategy strat p && String.eqb p.(Pin.Reason) ReasonLoopEscalation)%bool
        | None => false
        end then db
     else if (budget_spent (recording inst) key role now t).2 then db
     else match loop_action enabled withdrawn u m (recording inst && DeterministicHoldout key holdoutPct)%bool with
          | LoopEscalated => (rescue strat true inst key role now db).1
          | _ => db
          end) /\
    (u = false -> m = session_model db key role routedModel) /\
    (u = true <-> (exists p, db !! (key, role) = Some p /\ pinMatchesEffectiveStrategy strat p = true /\ p.(Pin.Reason) = ReasonUserForceModel) \/
       exists k, forceKey = Some k /\ (loadForceModelSessionPin true k now db).2.1.2 = true).
Proof.
  intros Ni. pose proof (looping_model_reads inst key role routedModel now db Ni) as L.
  set (sm := session_model db key role routedModel) in *.
  set (u0 := match db !! (key, role) with
             | Some p => (pinMatchesEffectiveStrategy strat p && String.eqb p.(Pin.Reason) ReasonUserForceModel)%bool
             | None => false end).
  destruct (forced_over_reads forceKey (sm, u0) now db) as ([m u] & F & A & B). exists m, u.
  assert (U : u0 = true <-> exists p, db !! (key, role) = Some p /\ pinMatchesEffectiveStrategy strat p = true /\ p.(Pin.Reason) = ReasonUserForceModel).
  { unfold u0. destruct (db !! (key, role)) as [p|]; [|split; [discriminate|intros (? & [=] & _)]].
    rewrite andb_true_iff, String.eqb_eq. split; [eauto|]. intros (? & [= <-] & ?). assumption. }
  split; [|split].
  - unfold handleLoopEscalation. fold (recording inst). unfold bind at 1. unfold on_pins at 1. cbn [fst snd]. rewrite L.
    assert (G : (bind (on_pins (forced_over true forceKey (sm, u0))) (fun '(loopingModel, userForced) =>
       bind (on_events (budget_spent (recording inst) key role)) (fun spent => if spent : bool then ret tt else
         act_on_loop strat true (recording inst) inst key role (loop_event uuid_String inst key role loopingModel
           (loop_action enabled withdrawn userForced loopingModel (recording inst && DeterministicHoldout key holdoutPct)%bool) top n ratio w))) now (db, t)).1.1
      = if (budget_spent (recording inst) key role now t).2 then db
        else match loop_action enabled withdrawn u m (recording inst && DeterministicHoldout key holdoutPct)%bool with
             | LoopEscalated => (rescue strat true inst key role now db).1 | _ => db end).
    { unfold bind at 1. unfold on_pins at 1. cbn [fst snd]. rewrite F. unfold bind, on_events. cbn [fst snd].
      destruct (budget_spent (recording inst) key role now t) as [t' []]; [reflexivity|]. rewrite act_on_loop_pins. reflexivity. }
    unfold u0 in G. destruct (db !! (key, role)) as [p|]; [|exact G]. destruct (pinMatchesEffectiveStrategy strat p); [|exact G].
    cbn [andb] in *. destruct (String.eqb (Pin.Reason p) ReasonLoopEscalation); [reflexivity|exact G].
  - destruct A as [[= -> _]|(k & _ & E & _)]; [reflexivity|]. cbn in E. congruence.
  - rewrite <- U. split.
    + intros ->. destruct A as [[= _ <-]|(k & E & _ & K)]; [left; reflexivity|right; eauto].
    + intros [E|(k & E & K)]; [|exact (B k E K)]. destruct A as [[= _ <-]|(k & Ek & _ & K)]; [exact E|exact (B k Ek K)].
Qed.
(** C28: a detected loop rescues the session exactly when that is due: rescue is switched on, its model
    offered, the session not rescued before, the model not the user's choice (by the session's row or a forced
    one) nor already the rescue's, the session's one event unspent and the session not held out.  The rescue writes the
    session's row and no other; until the pin ends the row loads as the session's pin, on the rescue's model (whether a turn may still be served it is
    decided by the guards of the turn loop), and further loops detected change nothing.  When it is not due no pin changes. *)
Theorem loop_rescue_exact (db : Db) (t : T) (now : Z) (inst key role routedModel : string)
  (forceKey : option string) (top : ToolCallSig) (n : Z) (ratio : f64) (w : Z) :
  inst <> uuid_Nil -> fits 32 role -> fits 32 sigma -> (forall p, db !! (key, role) = Some p -> p.(Pin.TurnCount) < max_int32) ->
  let db' := (handle top n ratio w inst key role routedModel forceKey now (db, t)).1.1 in
  (rescue_due db t now inst key role routedModel forceKey -> rescued db db' now key role /\
     (forall now', now' < pg_time (now + pinSessionTTL) -> exists p, (loadPin strat key role now' db').2 = (p, true) /\
        p.(Pin.Model) = escalateModel /\ p.(Pin.Reason) = ReasonLoopEscalation) /\
     (forall now' t' top n ratio w routedModel forceKey,
        handle top n ratio w inst key role routedModel forceKey now' (db', t') = ((db', t'), tt))) /\
  (~ rescue_due db t now inst key role routedModel forceKey -> db' = db).
Proof.
  intros Ni Fr Fs Ft. cbv zeta.
  assert (X : (rescue_due db t now inst key role routedModel forceKey ->
    rescued db (handle top n ratio w inst key role routedModel forceKey now (db, t)).1.1 now key role) /\
    (~ rescue_due db t now inst key role routedModel forceKey -> (handle top n ratio w inst key role routedModel forceKey now (db, t)).1.1 = db)).
  2:{ split; [|exact (proj2 X)]. intros D. pose proof (proj1 X D) as R. split; [exact R|]. split.
      - intros now' L. exact (rescued_loads db _ now now' key role R L).
      - intros. exact (rescued_idle db _ now now' t' _ _ _ _ _ _ _ _ _ R Ni). }
  destruct (handle_pins top n ratio w inst key role routedModel forceKey now db t Ni) as (m & u & -> & M & U).
  destruct (rescue_writes inst key role now db Ni Fr Fs Ft) as (db' & -> & R). cbn [fst].
  set (row := match db !! (key, role) with Some p => _ | None => false end).
  assert (Row : row = true <-> exists p, db !! (key, role) = Some p /\ pinMatchesEffectiveStrategy strat p = true /\ p.(Pin.Reason) = ReasonLoopEscalation).
  { unfold row. destruct (db !! (key, role)) as [p|]; [|split; [discriminate|intros (? & [=] & _)]].
    rewrite andb_true_iff, String.eqb_eq. split; [eauto|]. intros (? & [= <-] & ?). assumption. }
  assert (D : rescue_due db t now inst key role routedModel forceKey <->
    row = false /\ (budget_spent (recording inst) key role now t).2 = false /\
    loop_action enabled withdrawn u m (recording inst && DeterministicHoldout key holdoutPct)%bool = LoopEscalated).
  { unfold loop_action. split.
    - intros [D1 D2 D3 D4 D5 D6 D7]. assert (Eu : u = false).
      { apply not_true_iff_false. rewrite U. intros [(p & E1 & E2 & E3)|(k & E1 & E2)]; [exact (proj2 (D3 p E1 E2) E3)|].
        rewrite (D4 k E1) in E2. discriminate. }
      split; [|split; [exact D6|]].
      + apply not_true_iff_false. rewrite Row. intros (p & E1 & E2 & E3). exact (proj1 (D3 p E1 E2) E3).
      + rewrite Eu, D1, D2, D7, (M Eu), (proj2 (String.eqb_neq _ _) D5). reflexivity.
    - intros (D1 & D2 & D3). destruct enabled eqn:En; [|discriminate]. cbn in D3. destruct u; [discriminate|]. cbn in D3.
      assert (Nu : ~ (false = true)) by discriminate. rewrite U in Nu.
      destruct (globalAutomaticExclusionReason withdrawn escalateModel) as [r []] eqn:G; [discriminate|]. cbn in D3. rewrite (M eq_refl) in D3.
      destruct (String.eqb_spec (session_model db key role routedModel) escalateModel) as [|Nm]; [discriminate|].
      destruct (recording inst && _)%bool eqn:Ho; [discriminate|]. constructor; [exact En|rewrite G; reflexivity|..]; auto.
      + intros p E1 E2. split; intros E3; [|apply Nu; left; eauto]. apply not_true_iff_false in D1. apply D1, Row. eauto.
      + intros k E1. apply not_true_iff_false. intros E2. apply Nu. right. eauto. }
  rewrite D. destruct row; [split; [intros (? & _); discriminate|reflexivity]|].
  destruct (budget_spent _ _ _ _ _).2; [split; [intros (_ & ? & _); discriminate|reflexivity]|].
  destruct (loop_action _ _ _ _ _); (split; [intros (_ & _ & ?); (exact R || discriminate)|intros N; (reflexivity || (destruct N; auto))]).
Qed.
End LoopFacts.

(** ** A session's event is recorded once *)

Section Budget.
Context `{GoUnicode} {S : Type} `{PinStore S} {T : Type} `{EventStoreLaws T LoopEscalationEvent SessionRole}.
Variable uuid_String : string -> string.
Variable strat : option string.
Variable pinStore_set : bool.
(** Events are kept under their session and role. *)
Hypothesis keys : forall e, event_key e = (le_SessionKey e, le_Role e).

(** A detection: the request's flags and what was detected. *)
Record Detection := {
  d_now : Z; d_enabled : bool; d_holdoutPct : Z; d_withdrawn : option Exclusions; d_top : ToolCallSig; d_count : Z; d_ratio : f64; d_window : Z;
  d_inst : string; d_key : string; d_role : string; d_model : string; d_forceKey : option string
}.
Definition detect (st : S * T) (d : Detection) : S * T :=
  (handleLoopEscalation uuid_String strat pinStore_set true d.(d_enabled) d.(d_holdoutPct) d.(d_withdrawn) d.(d_top) d.(d_count) d.(d_ratio)
     d.(d_window) d.(d_inst) d.(d_key) d.(d_role) d.(d_model) d.(d_forceKey) d.(d_now) st).1.
Definition session_keys (t : T) : list SessionRole := event_key <$> recorded t.

(** The events of a session, and whether counting them fails at a detection. *)
Definition events_of (k : SessionRole) (t : T) : nat := length (List.filter (fun k' => bool_decide (k' = k)) (session_keys t)).
Definition count_fails (t : T) (d : Detection) : bool :=
  match (CountEvents (E := LoopEscalationEvent) (d.(d_key), d.(d_role)) d.(d_now) t).2 with Ok _ => false | Err _ => true end.
(** The detections of a session at which the count failed, along a run. *)
Fixpoint failed_counts (k : SessionRole) (st : S * T) (detections : list Detection) : nat :=
  match detections with
  | [] => 0
  | d :: ds => (if bool_decide ((d.(d_key), d.(d_role)) = k) then if count_fails st.2 d then 1 else 0 else 0) + failed_counts k (detect st d) ds
  end.

Lemma spent_false (b : bool) (key role : string) (now : Z) (t t' : T) : budget_spent (E := LoopEscalationEvent) b key role now t = (t', false) ->
  recorded t' = recorded t /\ (b = true -> (exists x, (CountEvents (E := LoopEscalationEvent) (key, role) now t).2 = Err x) \/ (key, role) ∉ session_keys t).
Proof.
  unfold budget_spent. destruct b; [|intros [= <-]; split; [reflexivity|discriminate]]. cbn [negb]. unfold bind, ret.
  destruct (CountEvents (key, role) now t) as [t1 [n|x]] eqn:C.
  - intros [= -> L]. destruct (Count_ok _ _ _ _ _ C) as [R N]. split; [exact R|]. intros _. right. intros M. apply Z.ltb_ge in L.
    apply list_elem_of_fmap in M as (e & K & E). assert (0 < n) by (apply N; exists e; auto). lia.
  - intros [= ->]. split; [exact (Count_err _ _ _ _ _ C)|]. intros _. left. by exists x.
Qed.
Lemma spent_true (b : bool) (key role : string) (now : Z) (t t' : T) : budget_spent (E := LoopEscalationEvent) b key role now t = (t', true) -> recorded t' = recorded t.
Proof.
  unfold budget_spent. destruct b; [|discriminate]. cbn [negb]. unfold bind, ret.
  destruct (CountEvents (key, role) now t) as [t1 [n|]] eqn:C; [|discriminate]. intros [= <- _]. exact (proj1 (Count_ok _ _ _ _ _ C)).
Qed.
Lemma act_records b inst key role e now (s : S) (t : T) : let t' := (act_on_loop strat pinStore_set b inst key role e now (s, t)).1.2 in
  recorded t' = recorded t \/ b = true /\ recorded t' = (recorded t ++ [e])%list.
Proof.
  unfold act_on_loop, on_pins, on_events, bind, ret. destruct (rescue strat pinStore_set inst key role now s) as [s' ok] eqn:R.
  destruct (InsertEvent e now t) as [t' r] eqn:I.
  assert (K : recorded t' = recorded t \/ recorded t' = (recorded t ++ [e])%list).
  { destruct r as [[]|x]; [right; exact (Insert_ok _ _ _ _ I)|left; exact (Insert_err _ _ _ _ _ I)]. }
  destruct (le_Action e); cbn [fst snd]; [rewrite R; cbn [fst snd]; destruct ok|..]; destruct b; cbn; rewrite ?I; cbn; tauto.
Qed.
Lemma detect_once k st d : (events_of k (detect st d).2 <=
  Nat.max 1 (events_of k st.2) + (if bool_decide ((d.(d_key), d.(d_role)) = k) then if count_fails st.2 d then 1 else 0 else 0))%nat.
Proof.
  destruct st as [s t]. cbn [snd]. unfold detect, handleLoopEscalation. set (b := (_ && negb _)%bool).
  unfold bind at 1. unfold on_pins at 1. cbn [fst snd]. destruct (looping_model _ _ _ _ _ _ _ s) as [s1 [m|]]; [|cbn; lia].
  unfold bind at 1. unfold on_pins at 1. cbn [fst snd]. destruct (forced_over _ _ _ _ s1) as [s2 [lm uf]].
  unfold bind at 1. unfold on_events at 1. cbn [fst snd]. destruct (budget_spent b _ _ _ t) as [t1 []] eqn:B.
  { unfold events_of, session_keys in *. cbn. rewrite (spent_true _ _ _ _ _ _ B). lia. }
  destruct (spent_false _ _ _ _ _ _ B) as [R N]. set (e := loop_event _ _ _ _ _ _ _ _ _ _).
  unfold events_of, session_keys.
  destruct (act_records b d.(d_inst) d.(d_key) d.(d_role) e d.(d_now) s2 t1) as [K|[Eb K]]; rewrite K, R; [lia|].
  rewrite fmap_app, List.filter_app, length_app. cbn [fmap list_fmap List.filter]. rewrite keys. change (le_SessionKey e, le_Role e) with (d.(d_key), d.(d_role)).
  case_bool_decide as Ek; [|cbn; lia]. cbn [length]. destruct (N Eb) as [[x Ex]|Nk].
  - unfold count_fails. rewrite Ex. lia.
  - rewrite Ek in Nk. assert (Z0 : List.filter (fun k' => bool_decide (k' = k)) (event_key <$> recorded t) = []); [|rewrite Z0; cbn; lia].
    destruct (List.filter _ _) as [|k' r] eqn:F; [done|]. assert (Hin : In k' (k' :: r)) by by left. rewrite <- F in Hin. apply filter_In in Hin as [Hin Hk].
    apply bool_decide_eq_true in Hk as ->. destruct Nk. by apply list_elem_of_In.
Qed.

(** C29: in a store that keeps events under their session and role, whatever loops are detected, one after the other and in whatever sessions, and whatever
    becomes of the rescues, a session has at most one event in a role, and at most one
    more for each of its detections at which counting its events failed (a failed count does not spend the budget). *)
Theorem one_event_per_session (s : S) (t : T) (detections : list Detection) (k : SessionRole) : recorded t = [] ->
  (events_of k (fold_left detect detections (s, t)).2 <= 1 + failed_counts k (s, t) detections)%nat.
Proof.
  intros E. enough (G : forall st, (events_of k (fold_left detect detections st).2 <= Nat.max 1 (events_of k st.2) + failed_counts k st detections)%nat).
  { specialize (G (s, t)). unfold events_of at 2, session_keys in G. cbn [snd] in G. rewrite E in G. cbn [fmap list_fmap List.filter length] in G. lia. }
  clear -keys. induction detections as [|d l IH]; intros st; cbn [fold_left failed_counts]; [lia|]. pose proof (IH (detect st d)). pose proof (detect_once k st d). lia.
Qed.
End Budget.

(** A store that keeps its events in a list. *)
Definition event_log : Type := list LoopEscalationEvent.
#[local] Instance log_store : EventStore event_log LoopEscalationEvent SessionRole := {
  InsertEvent e now l := ((l ++ [e])%list, Ok tt);
  CountEvents k now l := (l, Ok (Z.of_nat (length (filter (fun e => (le_SessionKey e, le_Role e) = k) l))))
}.
#[local] Program Instance log_laws : EventStoreLaws event_log LoopEscalationEvent SessionRole := {
  event_key e := (le_SessionKey e, le_Role e); recorded l := l
}.
Next Obligation. intros e now l l' E. injection E as <-. reflexivity. Qed.
Next Obligation. intros e now l l' x E. discriminate. Qed.
Next Obligation.
  intros k now l l' n E. cbn in E. injection E as <- <-. split; [reflexivity|]. split.
  - destruct (filter _ l) as [|e r] eqn:F; cbn; [lia|]. intros _. exists e.
    assert (M : e ∈ filter (fun e => (le_SessionKey e, le_Role e) = k) l) by (rewrite F; left). apply list_elem_of_filter in M. tauto.
  - intros (e & M & K). assert (X : e ∈ filter (fun e => (le_SessionKey e, le_Role e) = k) l) by (apply list_elem_of_filter; auto).
    destruct (filter _ l); [inversion X|cbn; lia].
Qed.
Next Obligation. intros k now l l' x E. discriminate. Qed.

(** ** The move of a struggling session *)

Section StruggleFacts.
Context `{GoUnicode} {T : Type} `{EventStore T StruggleEscalationEvent SessionRole}.
Variable uuid_String : string -> string.
Variable strat : option string.
Variable store_set enabled : bool.
Variable holdoutPct : Z.
Variable clusters : Clusters.
Variable cfg : Config.
Variable ctx : Ctx.
Variable withdrawn : option Exclusions.
Abbreviation sigma := (StrategyFromContext strat).
Abbreviation Db := (gmap (string * string) Pin.t).
Abbreviation move := (handleStruggleEscalation uuid_String strat true store_set enabled holdoutPct (Some (Ok clusters)) cfg ctx withdrawn).
Abbreviation may_serve p := (dispatchable p.(Pin.Model) (struggle_excluded cfg ctx withdrawn) (deployed_model cfg)).

(** The names of the roster fit their columns. *)
Definition roster_fits : Prop := forall g arms, (clusters : gmap string (list string)) !! g = Some arms ->
  fits 64 g /\ forall a, a ∈ arms -> fits 128 (CatalogIDForRoster a).
Lemma providers_fit target m b l : ByID target = Some m -> m.(Providers) = b :: l -> fits 32 b.(Provider).
Proof.
  intros E P. assert (C : forallb (fun m => forallb (fun b => String.eqb b.(Provider) ProviderAiand) m.(Providers)) Models = true) by (vm_compute; reflexivity).
  rewrite forallb_forall in C. assert (M : m ∈ Models).
  { unfold ByID, model_at in E. repeat case_match; try discriminate; exact (list_elem_of_lookup_2 _ _ _ E). }
  specialize (C m (proj1 (list_elem_of_In _ _) M)). rewrite P in C. cbn in C. apply andb_prop in C as [C _]. apply String.eqb_eq in C.
  rewrite C. vm_compute. reflexivity.
Qed.
Lemma struggling_iff p wall : struggling p wall = true <->
  30 <= p.(Pin.TurnCount) + 1 /\ 10 * Minute <= wall /\ (p.(Pin.TurnCount) + 1 < 80 \/ wall < 30 * Minute).
Proof.
  unfold struggling, struggleReasons, struggleLateTurns, struggleLateWall, struggleEarlyTurns, struggleEarlyWall.
  destruct (_ && _)%bool eqn:L.
  - split; [discriminate|]. rewrite andb_true_iff, !Z.leb_le in L. lia.
  - rewrite andb_false_iff, !Z.leb_gt in L. destruct (_ && _)%bool eqn:E.
    + rewrite andb_true_iff, !Z.leb_le in E. cbn. split; [intros _; lia|reflexivity].
    + rewrite andb_false_iff, !Z.leb_gt in E. split; [discriminate|lia].
Qed.
(** A target is chosen only for an automatic pin, and may serve the session. *)
Lemma struggle_target inst p forced holdout action target provider cluster : roster_fits ->
  struggle_action enabled (Some (Ok clusters)) cfg ctx withdrawn inst p forced holdout = (action, Some (target, provider, cluster)) ->
  enabled = true /\ forced = false /\ inst <> uuid_Nil /\ may_serve p target /\
  escalation_target clusters p.(Pin.PolicyGroup) p.(Pin.Model) (struggle_excluded cfg ctx withdrawn) (deployed_model cfg) = (target, cluster) /\
  fits 32 provider /\ fits 64 cluster /\ fits 128 target.
Proof.
  intros F E. unfold struggle_action in E. destruct enabled; [|discriminate]. cbn [negb] in E. destruct forced; [discriminate|].
  destruct holdout; [discriminate|]. destruct (String.eqb _ ""); [discriminate|].
  unfold EscalationTarget in E. cbn [res_bind] in E. destruct (escalation_target _ _ _ _ _) as [t c] eqn:X.
  destruct (String.eqb_spec t ""); [discriminate|]. destruct (ByID t) as [m|] eqn:B; [|discriminate].
  destruct m.(Providers) as [|b l] eqn:P; [discriminate|]. destruct (String.eqb_spec inst uuid_Nil); [discriminate|].
  injection E as <- <- <- <-. split; [reflexivity|]. split; [reflexivity|]. split; [assumption|].
  destruct (escalation_target_arm _ _ _ _ _ _ _ X ltac:(assumption)) as (D & _ & arms & a & L & I & Ea).
  split; [exact D|]. split; [reflexivity|]. destruct (F _ _ L) as [F1 F2]. split; [exact (providers_fit _ _ _ _ B P)|]. split; [exact F1|].
  rewrite <- Ea. exact (F2 a I).
Qed.

(** The arms of a cluster, and where a move goes. *)
Definition arms_of (g : string) : list string := CatalogIDForRoster <$> default [] ((clusters : gmap string (list string)) !! g).
Lemma moves_up p target cluster : escalation_target clusters p.(Pin.PolicyGroup) p.(Pin.Model) (struggle_excluded cfg ctx withdrawn) (deployed_model cfg) = (target, cluster) ->
  target <> "" -> target ∈ arms_of cluster /\
    (cluster = p.(Pin.PolicyGroup) \/ exists r r', rung_of (ToLower (TrimSpace p.(Pin.PolicyGroup))) = Some r /\ rung_of cluster = Some r' /\ (r < r')%nat) /\
    exists before after, (clustersAbove p.(Pin.PolicyGroup) ++ [p.(Pin.PolicyGroup)] = before ++ cluster :: after)%list /\
       forall g m, g ∈ before -> m ∈ arms_of g -> ~ may_serve p m.
Proof.
  intros X N. pose proof (escalation_target_cheapest clusters p.(Pin.PolicyGroup) p.(Pin.Model) (struggle_excluded cfg ctx withdrawn) (deployed_model cfg)) as C.
  cbv zeta in C. rewrite X in C. destruct C as (C & _ & R). destruct (C N) as (_ & (b & a & Ea & _) & (b' & a' & Eb & B)). split; [unfold arms_of; setoid_rewrite Ea; apply elem_of_app; right; left|].
  split; [|exists b', a'; split; [exact Eb|exact B]]. assert (I : cluster ∈ (clustersAbove p.(Pin.PolicyGroup) ++ [p.(Pin.PolicyGroup)])%list) by (rewrite Eb; apply elem_of_app; right; left).
  apply elem_of_app in I as [I|I%list_elem_of_singleton]; [right; exact (R cluster I)|by left].
Qed.

(** C30: a detection of struggle changes at most the session's own pin, and only when the move is switched on, neither the session's row nor a forced one is the
    user's choice, the row is not that of an earlier move and the session's one event is unspent, and it is in its thirtieth turn or a later one and ten
    minutes old or older, short of eighty turns or of half an hour.  The row then holds an arm that may serve the session: one of a cluster on a higher rung
    of the ladder than its own, or of its own, no cluster tried before having any; and it loads as the session's pin until it expires. *)
Theorem struggle_moves_within_bounds (inst key role : string) (evidence : list spiralReason) (forceKey : option string) (now : Z) (db : Db) (t : T) :
  fits 32 role -> fits 32 sigma -> roster_fits -> (forall p, db !! (key, role) = Some p -> p.(Pin.TurnCount) < max_int32) ->
  let db' := (move inst key role evidence forceKey now (db, t)).1.1 in
  db' = db \/
  exists p q target cluster, db !! (key, role) = Some p /\ pinMatchesEffectiveStrategy strat p = true /\
    enabled = true /\ p.(Pin.Reason) <> ReasonStruggleEscalation /\ p.(Pin.Reason) <> ReasonUserForceModel /\
    (forall k, forceKey = Some k -> (loadForceModelSessionPin true k now db).2.1.2 = false) /\
    (30 <= p.(Pin.TurnCount) + 1 /\ 10 * Minute <= struggle_wall p now /\ (p.(Pin.TurnCount) + 1 < 80 \/ struggle_wall p now < 30 * Minute)) /\
    (budget_spent (recording store_set inst) key role now t).2 = false /\
    may_serve p target /\ target ∈ arms_of cluster /\
    (cluster = p.(Pin.PolicyGroup) \/ exists r r', rung_of (ToLower (TrimSpace p.(Pin.PolicyGroup))) = Some r /\ rung_of cluster = Some r' /\ (r < r')%nat) /\
    (exists before after, (clustersAbove p.(Pin.PolicyGroup) ++ [p.(Pin.PolicyGroup)] = before ++ cluster :: after)%list /\
       forall g m, g ∈ before -> m ∈ arms_of g -> ~ may_serve p m) /\
    db' = <[(key, role) := q]> db /\ q.(Pin.Model) = target /\ q.(Pin.PolicyGroup) = cluster /\ q.(Pin.Reason) = ReasonStruggleEscalation /\
    forall now', now' < pg_time (now + pinSessionTTL) -> (loadPin strat key role now' db').2 = (canonicalizePinModels q, true).
Proof.
  intros Fr Fs Frs Ft. cbv zeta. remember (_ .1.1) as db' eqn:Edb. revert Edb. unfold handleStruggleEscalation. cbn [negb].
  unfold bind at 1. unfold on_pins at 1. cbn [fst snd Get SessionPinRepo repo_Get].
  destruct (db !! (key, role)) as [p|] eqn:Ep; [|intros ->; left; reflexivity].
  destruct (pinMatchesEffectiveStrategy strat p) eqn:M; [|intros ->; left; reflexivity]. cbn [negb orb].
  destruct (String.eqb_spec p.(Pin.Reason) ReasonStruggleEscalation) as [|Nr]; [intros ->; left; reflexivity|].
  unfold bind at 1. unfold clock_now at 1. cbv zeta. destruct (struggling p (struggle_wall p now)) eqn:St; [|intros ->; left; reflexivity]. cbn [negb].
  unfold bind at 1. unfold on_pins at 1. cbn [fst snd].
  destruct (forced_over_reads forceKey ("", String.eqb p.(Pin.Reason) ReasonUserForceModel) now db) as ([m u] & -> & A & B).
  unfold bind at 1. fold (recording store_set inst). set (holdout := (recording store_set inst && _)%bool).
  unfold on_events at 1. cbn [fst snd]. destruct (budget_spent _ _ _ _ t) as [t1 []] eqn:Bu; [intros ->; left; reflexivity|].
  destruct (struggle_action _ _ _ _ _ _ _ _ _) as [action target] eqn:Act.
  set (record := fun ok : bool => _). assert (R : forall ok st, (record ok now st).1.1 = st.1).
  { intros ok [d t0]. unfold record. destruct ok, (recording store_set inst); cbn; try reflexivity. unfold bind, on_events, ret. cbn.
    destruct (InsertEvent _ now t0). reflexivity. }
  unfold bind at 1. destruct target as [[[model provider] cluster]|]; [|intros ->; left; apply R].
  destruct (struggle_target _ _ _ _ _ _ _ _ Frs Act) as (En & Eu & Ni & D & X & Fp & Fc & Fm). cbn [snd] in *.
  set (w := struggle_pin strat inst key role p model provider cluster now).
  assert (Fw : pin_fits w) by (unfold pin_fits, fits in *; cbn; auto 10).
  destruct (repo_Upsert_succeeds w now db Fw ltac:(intros o Eo; apply Ft; rewrite <- Eo; symmetry; exact Ep)) as [db1 E1].
  unfold on_pins, bind. cbn [fst snd Upsert SessionPinRepo]. rewrite E1. cbn [ret]. rewrite R. cbn [fst]. intros ->.
  destruct (@Upsert_ok _ SessionPinRepo SessionPinRepo_laws w now db db1 Fw E1) as (q & U & V). cbn in V.
  destruct (up_decision _ _ _ _ U) as (U1 & U2 & U3 & U4). right. exists p, q, model, cluster.
  assert (Um : q.(Pin.PolicyGroup) = cluster).
  { refine (proj2 (proj2 (proj2 (up_new_model _ _ _ _ U _)))). intros o Eo. right. change (db !! (key, role) = Some o) in Eo. rewrite Ep in Eo. injection Eo as <-.
    exact (not_eq_sym (proj1 (proj2 D))). }
  split; [reflexivity|]. split; [assumption|]. split; [assumption|]. split; [assumption|]. split.
  { intros Er. destruct A as [[= _ A]|(k & Ek & A & _)]; [|congruence]. rewrite Eu, Er in A. discriminate. }
  split. { intros k Ek. apply not_true_iff_false. intros K. rewrite (B k Ek K) in Eu. discriminate. }
  split; [apply struggling_iff, St|].
  split; [first [reflexivity|by rewrite Bu]|]. split; [exact D|].
  destruct (moves_up p model cluster X (proj1 D)) as (M1 & M2 & M3). split; [exact M1|]. split; [exact M2|]. split; [exact M3|]. split; [exact V|].
  split; [exact U2|]. split; [exact Um|]. split; [exact U3|]. intros now' L. rewrite V. apply written_loads; [exact U4|].
  rewrite (up_until _ _ _ _ U). unfold After. apply Z.ltb_lt, L.
Qed.
End StruggleFacts.

(** ** Breaks *)

Section BreakFacts.
Context `{GoUnicode}.
Variable strat : option string.
Abbreviation sigma := (StrategyFromContext strat).
Abbreviation Db := (gmap (string * string) Pin.t).

(** The pin a request loads is one the user forced. *)
Definition serves_forced (db : Db) (key role : string) (now : Z) : bool :=
  let '(pin, found) := (loadPin strat key role now db).2 in (found && isUserForcedReason pin.(Pin.Reason))%bool.
Lemma loadPin_table (key role : string) (now : Z) (db : Db) : (loadPin strat key role now db).1 = db.
Proof.
  unfold loadPin, bind, clock_now, ret. cbn. destruct (db !! _) as [p|]; [|reflexivity].
  destruct (pinMatchesEffectiveStrategy strat p); cbn; [|reflexivity]. destruct (After _ _); reflexivity.
Qed.
Lemma expiry_ends (inst key role reason : string) (now now' : Z) (db : Db) :
  fits 32 role -> fits 32 (hmmHistoryRole role) -> fits 32 sigma -> (forall r p, db !! (key, r) = Some p -> p.(Pin.TurnCount) < max_int32) ->
  isUserForcedReason reason = false -> now <= now' ->
  (loadPin strat key role now' (expireSessionPinAndHMMHistory strat true inst key role reason now db).1).2.2 = false.
Proof.
  intros Fr Fh Fs Ft Nr L. exact (expired_not_loaded _ _ _ _ _ _ _ _ (expire_both strat inst key role reason now db Fr Fh Fs Ft) Nr L).
Qed.

(** The pins of both breaks. *)
Lemma broken_pins (inst key role decisionReason : string) (now now' : Z) (db : Db) :
  inst <> uuid_Nil -> key <> zero_session_key -> fits 32 role -> fits 32 (hmmHistoryRole role) -> fits 32 sigma ->
  (forall r p, db !! (key, r) = Some p -> p.(Pin.TurnCount) < max_int32) -> now <= now' ->
  let forced := (isUserForcedReason decisionReason || serves_forced db key role now)%bool in
  let '(db', preserved) := break_stuck_pin strat true inst key role decisionReason now db in
  preserved = forced /\ (if forced then db' = db else (loadPin strat key role now' db').2.2 = false) /\
  (loadPin strat key role now' (break_repeating_pin strat true inst key role now db).1).2.2 = false.
Proof.
  intros Ni Nk Fr Fh Fs Ft L. cbv zeta.
  assert (A : addressable true inst key = true).
  { unfold addressable. rewrite (proj2 (String.eqb_neq _ _) Ni), (proj2 (String.eqb_neq _ _) Nk). reflexivity. }
  assert (E : forall (k : bool) reason, isUserForcedReason reason = false ->
    (loadPin strat key role now' (bind (expireSessionPinAndHMMHistory strat true inst key role reason) (fun _ => ret k) now db).1).2.2 = false /\
    (bind (expireSessionPinAndHMMHistory strat true inst key role reason) (fun _ => ret k) now db).2 = k).
  { intros k reason Nr. pose proof (expiry_ends inst key role reason now now' db Fr Fh Fs Ft Nr L) as X. unfold bind, ret.
    destruct (expireSessionPinAndHMMHistory _ _ _ _ _ _ _ db). auto. }
  assert (Tx : (loadPin strat key role now' (break_repeating_pin strat true inst key role now db).1).2.2 = false).
  { unfold break_repeating_pin. rewrite A. pose proof (expiry_ends inst key role "text_repetition_break" now now' db Fr Fh Fs Ft eq_refl L) as X.
    unfold bind, ret. destruct (expireSessionPinAndHMMHistory _ _ _ _ _ _ _ db). exact X. }
  unfold break_stuck_pin. rewrite A. destruct (isUserForcedReason decisionReason).
  - unfold bind at 1. unfold ret at 1. cbn [andb orb negb]. unfold ret. split; [reflexivity|split; [reflexivity|exact Tx]].
  - unfold bind at 1 2. unfold serves_forced. pose proof (loadPin_table key role now db) as R.
    destruct (loadPin strat key role now db) as [db1 [pin found]]. cbn [fst snd] in *. subst db1. unfold ret at 1. cbn [orb].
    destruct (found && isUserForcedReason pin.(Pin.Reason))%bool; cbn [andb negb]; [unfold ret; split; [reflexivity|split; [reflexivity|exact Tx]]|].
    destruct (E false "no_progress_loop_break" eq_refl) as [E1 E2].
    destruct (bind _ _ now db) as [db' k]. cbn [fst snd] in *. split; [exact E2|split; [exact E1|exact Tx]].
Qed.
(** Breaking a stuck turn ends the session's pin, so that the next request routes afresh, unless the
    decision or the pin was the user's, which is then left as it was, and the caller is told so; breaking a repeating turn ends
    the pin whoever chose it. *)
Lemma breaks_end_the_pin `{Gjson} (env : RequestEnvelope) (count tokens : Z) (model provider inst key role decisionReason : string) (now now' : Z) (db : Db) :
  inst <> uuid_Nil -> key <> zero_session_key -> fits 32 role -> fits 32 (hmmHistoryRole role) -> fits 32 sigma ->
  (forall r p, db !! (key, r) = Some p -> p.(Pin.TurnCount) < max_int32) -> now <= now' ->
  let forced := (isUserForcedReason decisionReason || serves_forced db key role now)%bool in
  let '(db', response) := handleNoProgressBreak strat true env count inst key role model provider tokens decisionReason now db in
  response = no_progress_response env count forced model provider tokens now /\
  (if forced then db' = db else (loadPin strat key role now' db').2.2 = false) /\
  (loadPin strat key role now' (handleTextRepetitionBreak strat true env count inst key role model provider tokens now db).1).2.2 = false.
Proof.
  intros Ni Nk Fr Fh Fs Ft L. cbv zeta. pose proof (broken_pins inst key role decisionReason now now' db Ni Nk Fr Fh Fs Ft L) as X. cbv zeta in X.
  unfold handleNoProgressBreak, handleTextRepetitionBreak, bind, clock_now, ret.
  destruct (break_stuck_pin _ _ _ _ _ _ now db) as [db' preserved]. destruct (break_repeating_pin _ _ _ _ _ now db) as [db2 []].
  destruct X as (-> & X1 & X2). auto.
Qed.
End BreakFacts.

(** ** Witnesses *)

Definition ex_looping : Pin.t := Pin.set_Model "deepseek-ai/deepseek-v4-flash" (Pin.set_Reason "cluster" ex_own_pin).
Definition ex_loop_table : gmap (string * string) Pin.t := {[ (ex_skey, DefaultRole) := ex_looping ]}.
Lemma ex_turns p : ex_loop_table !! (ex_skey, DefaultRole) = Some p -> p.(Pin.TurnCount) < max_int32.
Proof. intros E. try unfold ex_loop_table in E; try unfold ex_struggle_table in E; apply lookup_singleton_Some in E as [_ <-]. reflexivity. Qed.
Definition ex_sig : ToolCallSig := {| sig_Name := "Read"; InputHash := "a" |}.
(** A session on a small model is rescued; with the switch off it is not. *)
Lemma loop_rescue_exact_witness :
  let on b := (@handleLoopEscalation _ SessionPinRepo (fun s => s) None true event_log log_store true b 0 None ex_sig 30 f_zero 30
     ex_uuid ex_skey DefaultRole "auto" None Hour (ex_loop_table, [])).1.1 in
  rescued None ex_loop_table (on true) Hour ex_skey DefaultRole /\ on false = ex_loop_table.
Proof.
  cbv zeta. split.
  - apply (proj1 (@loop_rescue_exact ascii_unicode event_log log_store (fun s => s) None true true 0 None ex_loop_table [] Hour ex_uuid ex_skey DefaultRole
      "auto" None ex_sig 30 f_zero 30 ltac:(discriminate) ltac:(vm_compute; reflexivity) ltac:(vm_compute; reflexivity) ex_turns)).
    constructor; try (vm_compute; first [reflexivity | discriminate]).
    intros p E _. try unfold ex_loop_table in E; try unfold ex_struggle_table in E; apply lookup_singleton_Some in E as [_ <-]. split; discriminate.
  - apply (proj2 (@loop_rescue_exact ascii_unicode event_log log_store (fun s => s) None true false 0 None ex_loop_table [] Hour ex_uuid ex_skey DefaultRole
      "auto" None ex_sig 30 f_zero 30 ltac:(discriminate) ltac:(vm_compute; reflexivity) ltac:(vm_compute; reflexivity) ex_turns)).
    intros [D _ _ _ _ _ _]. discriminate.
Defined.

(** Two detections in one session, the rescue switched off, leave one event. *)
Definition ex_detection : Detection :=
  {| d_now := Hour; d_enabled := false; d_holdoutPct := 0; d_withdrawn := None; d_top := ex_sig; d_count := 30; d_ratio := f_zero; d_window := 30;
     d_inst := ex_uuid; d_key := ex_skey; d_role := DefaultRole; d_model := "auto"; d_forceKey := None |}.
Lemma one_event_per_session_witness :
  (@events_of event_log log_store log_laws (ex_skey, DefaultRole)
     (fold_left (@detect _ SessionPinRepo event_log log_store (fun s => s) None true) [ex_detection; ex_detection] (ex_loop_table, [])).2 <= 1)%nat.
Proof.
  exact (@one_event_per_session _ SessionPinRepo event_log log_store log_laws (fun s => s) None true (fun _ => eq_refl) ex_loop_table [] [ex_detection; ex_detection]
    (ex_skey, DefaultRole) eq_refl).
Defined.

(** A session of the low cluster, in its thirtieth turn after a quarter of an hour, moves up. *)
Definition ex_struggling : Pin.t := Pin.set_PolicyGroup "low" (Pin.set_TurnCount 29 (Pin.set_FirstPinnedAt Minute ex_looping)).
Definition ex_struggle_table : gmap (string * string) Pin.t := {[ (ex_skey, DefaultRole) := ex_struggling ]}.
Definition struggle_log : Type := list StruggleEscalationEvent.
#[local] Instance struggle_store : EventStore struggle_log StruggleEscalationEvent SessionRole := {
  InsertEvent e now l := ((l ++ [e])%list, Ok tt);
  CountEvents k now l := (l, Ok (Z.of_nat (length (filter (fun e => (se_SessionKey e, se_Role e) = k) l))))
}.
Definition ex_move := (@handleStruggleEscalation ascii_unicode _ SessionPinRepo (fun s => s) None true struggle_log struggle_store true true 0
  (Some (Ok ex_clusters)) ex_cfg {| ctx_strategy := None; InstallationExcluded := []; InstallationAllowed := []; RequestAllowed := None |} None ex_uuid ex_skey
  DefaultRole [] None (16 * Minute) (ex_struggle_table, [])).1.1.
Lemma ex_roster_fits : @roster_fits ascii_unicode ex_clusters.
Proof.
  assert (C : map_Forall (fun g arms => (fits 64 g /\ Forall (fun a => fits 128 (@CatalogIDForRoster ascii_unicode a)) arms)) (ex_clusters : gmap string (list string))).
  { unfold ex_clusters. apply map_Forall_insert_2; [|apply map_Forall_singleton]; (split; [vm_compute; reflexivity|repeat constructor]). }
  intros g arms E. destruct (C g arms E) as [F A]. split; [exact F|]. rewrite Forall_forall in A. exact A.
Qed.
Lemma struggle_moves_within_bounds_witness :
  exists q, ex_move = <[(ex_skey, DefaultRole) := q]> ex_struggle_table /\ q.(Pin.Reason) = ReasonStruggleEscalation /\ q.(Pin.Model) ∈ @arms_of ascii_unicode ex_clusters q.(Pin.PolicyGroup).
Proof.
  destruct (@struggle_moves_within_bounds ascii_unicode struggle_log struggle_store (fun s => s) None true true 0 ex_clusters ex_cfg
    {| ctx_strategy := None; InstallationExcluded := []; InstallationAllowed := []; RequestAllowed := None |} None ex_uuid ex_skey DefaultRole [] None
    (16 * Minute) ex_struggle_table []) as [E|(p & q & target & cluster & _ & _ & _ & _ & _ & _ & _ & _ & _ & M & _ & _ & E & Em & Eg & Er & _)];
    [vm_compute; reflexivity|vm_compute; reflexivity|exact ex_roster_fits| | |].
  - intros p E. try unfold ex_loop_table in E; try unfold ex_struggle_table in E; apply lookup_singleton_Some in E as [_ <-]. reflexivity.
  - apply (f_equal (fun m : gmap (string * string) Pin.t => Pin.Model <$> m !! (ex_skey, DefaultRole))) in E. vm_compute in E. discriminate.
  - exists q. split; [exact E|]. split; [exact Er|]. rewrite Em, Eg. exact M.
Defined.

Definition ex_envelope : RequestEnvelope := {| env_body := "{}"; env_format := FormatOpenAI |}.
Lemma breaks_end_the_pin_witness :
  let '(db', response) := @handleNoProgressBreak ascii_unicode _ SessionPinRepo None true Reader.reader ex_envelope 5 ex_uuid ex_skey DefaultRole
    "zai-org/glm-5.3" "aiand" 7 "cluster" Hour ex_loop_table in
  response = @no_progress_response Reader.reader ex_envelope 5 false "zai-org/glm-5.3" "aiand" 7 Hour /\
  (@loadPin ascii_unicode _ SessionPinRepo None ex_skey DefaultRole Hour db').2.2 = false.
Proof.
  assert (T : forall r q, ex_loop_table !! (ex_skey, r) = Some q -> q.(Pin.TurnCount) < max_int32).
  { intros r q E. unfold ex_loop_table in E. apply lookup_singleton_Some in E as [_ <-]. reflexivity. }
  pose proof (@breaks_end_the_pin ascii_unicode None Reader.reader ex_envelope 5 7 "zai-org/glm-5.3" "aiand" ex_uuid ex_skey DefaultRole "cluster" Hour Hour
    ex_loop_table ltac:(discriminate) ltac:(discriminate) ltac:(vm_compute; reflexivity) ltac:(vm_compute; reflexivity) ltac:(vm_compute; reflexivity)
    T (Z.le_refl _)) as X.
  assert (F : @serves_forced ascii_unicode None ex_loop_table ex_skey DefaultRole Hour = false) by (vm_compute; reflexivity).
  cbv zeta in X. rewrite F in X. destruct (handleNoProgressBreak _ _ _ _ _ _ _ _ _ _ _ _ _) as [db' response].
  exact (conj (proj1 X) (proj1 (proj2 X))).
Defined.
