(* ===== verification/StreamState.v ===== *)
(** The Anthropic stream a client receives, and the state of the translator that writes it:
    AnthropicSSETranslator of internal/translate/stream.go.  [AEvent] is an event before it is rendered,
    [render] the bytes written for it, and the actions at the end of the file are the translator's emitters
    over its buffered writer, whose first failed flush is sticky. *)

From stdpp Require Import base gmap sets list strings.
From Stdlib Require Import ZArith Lia Ascii.
From coqutil Require Import Datatypes.RecordSettersUsingExistingGetters.
From S2P Require Import Prelude Strings Sse Json ThinkTag Lifecycle Toolcheck ToolIds.
Open Scope string_scope.
Open Scope Z_scope.

#[global] Arguments RecordSettersUsingExistingGetters.const {E} newValue _ /.

(** ** Events *)

(** The usage of a response: prompt, completion, cache-write and cache-read tokens. *)
Record Usage := { usageInputTokens : Z; usageOutputTokens : Z; usageCacheCreationTokens : Z; usageCacheReadTokens : Z }.
Definition no_usage : Usage := {| usageInputTokens := 0; usageOutputTokens := 0; usageCacheCreationTokens := 0; usageCacheReadTokens := 0 |}.
(** Calls of the usage sink. *)
Inductive UsageCall := RecordUsage (input output : Z) | RecordCacheUsage (creation read : Z).

Inductive AEvent :=
| MessageStart (id model : string) (input_tokens : Z)
| BlockStartText (index : Z)
| BlockStartThinking (index : Z)
| BlockStartTool (index : Z) (id name : string)
| DeltaText (index : Z) (text : string)
| DeltaThinking (index : Z) (text : string)
| DeltaJSON (index : Z) (partial : string)
| BlockStop (index : Z)
| MessageDelta (stop_reason : string) (usage : option Usage)
| MessageStop
| ErrorEvent (type message : string).

Definition sse_frame (name data : string) : string := "event: " +:+ name +:+ LF +:+ "data: " +:+ data +:+ LFLF.
Definition start_frame (index : Z) (block : string) : string :=
  sse_frame "content_block_start" (jq "{'type':'content_block_start','index':" +:+ WriteJSONInt index +:+ jq ",'content_block':" +:+ block +:+ "}").
Definition delta_frame (index : Z) (kind field text : string) : string :=
  sse_frame "content_block_delta"
    (jq "{'type':'content_block_delta','index':" +:+ WriteJSONInt index +:+ jq ",'delta':{'type':'" +:+ kind +:+ jq "','" +:+ field
     +:+ jq "':" +:+ WriteJSONString text +:+ "}}").
Definition usage_text (u : option Usage) : string :=
  match u with
  | Some u =>
      let freshInput := Z.max 0 (u.(usageInputTokens) - u.(usageCacheCreationTokens) - u.(usageCacheReadTokens)) in
      jq "'input_tokens':" +:+ WriteJSONInt freshInput +:+ jq ",'output_tokens':" +:+ WriteJSONInt u.(usageOutputTokens)
      +:+ (if 0 <? u.(usageCacheCreationTokens) then jq ",'cache_creation_input_tokens':" +:+ WriteJSONInt u.(usageCacheCreationTokens) else "")
      +:+ (if 0 <? u.(usageCacheReadTokens) then jq ",'cache_read_input_tokens':" +:+ WriteJSONInt u.(usageCacheReadTokens) else "")
  | None => jq "'output_tokens':0"
  end.
Definition render (e : AEvent) : string :=
  match e with
  | MessageStart id model n =>
      sse_frame "message_start"
        (jq "{'type':'message_start','message':{'id':" +:+ WriteJSONString id
         +:+ jq ",'type':'message','role':'assistant','content':[],'model':" +:+ WriteJSONString model
         +:+ jq ",'stop_reason':null,'stop_sequence':null,'usage':{'input_tokens':" +:+ WriteJSONInt n +:+ jq ",'output_tokens':0}}}")
  | BlockStartText i => start_frame i (jq "{'type':'text','text':''}")
  | BlockStartThinking i => start_frame i (jq "{'type':'thinking','thinking':''}")
  | BlockStartTool i id name =>
      start_frame i (jq "{'type':'tool_use','id':" +:+ WriteJSONString id +:+ jq ",'name':" +:+ WriteJSONString name +:+ jq ",'input':{}}")
  | DeltaText i t => delta_frame i "text_delta" "text" t
  | DeltaThinking i t => delta_frame i "thinking_delta" "thinking" t
  | DeltaJSON i t => delta_frame i "input_json_delta" "partial_json" t
  | BlockStop i => sse_frame "content_block_stop" (jq "{'type':'content_block_stop','index':" +:+ WriteJSONInt i +:+ "}")
  | MessageDelta r u =>
      sse_frame "message_delta" (jq "{'type':'message_delta','delta':{'stop_reason':" +:+ WriteJSONString r
        +:+ jq ",'stop_sequence':null},'usage':{" +:+ usage_text u +:+ "}}")
  | MessageStop => sse_frame "message_stop" (jq "{'type':'message_stop'}")
  | ErrorEvent t m => sse_frame "error" (jq "{'type':'error','error':{'type':" +:+ WriteJSONString t +:+ jq ",'message':" +:+ WriteJSONString m +:+ "}}")
  end.

(** ** The translator *)

(** What is set before the stream starts.  The random texts are the ones drawn for this response. *)
Record Config := {
  requestModel : string;
  hasSink : bool;
  estimatedInputTokens : Z;
  routingMarker : string;
  requestHadTools : bool;
  thinkTagReasoning : bool;
  random_message : string;      (** [randomHex(8)] *)
  random_nonce : string         (** [randomHex(6)] *)
}.
(** What changes while it translates.  [out] holds the events that reached the client, [flushes] counts the
    flushes and [dead] is the sticky error of the buffered writer; [sink] and [progress] are the calls of the
    usage sink and of the progress callback. *)
Record Tr := {
  out : list AEvent; flushes : nat; dead : bool;
  started : bool; closed : bool; blockIdx : Z; textOpen : bool; thinkingOpen : bool;
  pendingText : string;
  toolBlocks : gmap Z Z; suppressedTools : gset Z; toolArgsBuffer : gmap Z string; toolArgsInvalid : gset Z;
  toolNames : gmap Z string; toolCallIssues : list Issue; toolUseEmitted : bool; toolUseCount : Z;
  emittedStopReason : string; finishReason : string; usage : Usage; hasUsage : bool;
  messageID : string; modelFromUpstream : string;
  sink : list UsageCall; progress : nat; armed : bool;
  markerEmitted : bool; splitter : thinkTagSplitter; nudgeEmitted : bool; sawText : bool;
  leadingContent : string; stopReasonDemoted : bool;
  upstreamErrorStatus : Z; upstreamErrorBody : string; toolIDNonce : string;
  lifecycle : StreamLifecycle; toolLedger : ToolCallLedger
}.
Definition NewTr : Tr := {|
  out := []; flushes := 0; dead := false;
  started := false; closed := false; blockIdx := 0; textOpen := false; thinkingOpen := false;
  pendingText := "";
  toolBlocks := ∅; suppressedTools := ∅; toolArgsBuffer := ∅; toolArgsInvalid := ∅;
  toolNames := ∅; toolCallIssues := []; toolUseEmitted := false; toolUseCount := 0;
  emittedStopReason := ""; finishReason := ""; usage := no_usage; hasUsage := false;
  messageID := ""; modelFromUpstream := "";
  sink := []; progress := 0; armed := false;
  markerEmitted := false; splitter := splitter_init; nudgeEmitted := false; sawText := false;
  leadingContent := ""; stopReasonDemoted := false;
  upstreamErrorStatus := 0; upstreamErrorBody := ""; toolIDNonce := "";
  lifecycle := NewStreamLifecycle; toolLedger := NewToolCallLedger
|}.

(** ** Actions *)

Inductive TrError := LifecycleError (e : StreamError) | WriteError.
(** A method of the translator: the state after it, and the error it returned. *)
Definition act : Type := Tr -> Tr * option TrError.
Definition skip : act := fun t => (t, None).
Definition and_then (a b : act) : act := fun t => match a t with (t', None) => b t' | r => r end.
Definition upd (f : Tr -> Tr) : act := fun t => (f t, None).
Definition when (c : Tr -> bool) (a : act) : act := fun t => if c t then a t else (t, None).
(** An action that reads the state first. *)
Definition reading {A} (f : Tr -> A) (k : A -> act) : act := fun t => k (f t) t.
Declare Scope act_scope.
Delimit Scope act_scope with act.
Bind Scope act_scope with act.
Notation "a >>> b" := (and_then a b) (at level 62, right associativity) : act_scope.
Fixpoint each {A} (f : A -> act) (l : list A) : act :=
  match l with
  | [] => skip
  | x :: l' => and_then (f x) (each f l')
  end.
Open Scope act_scope.

Definition on_lifecycle (f : StreamLifecycle -> res StreamError StreamLifecycle) : act := fun t =>
  match f t.(lifecycle) with
  | Ok l => (t <| lifecycle := l |>, None)
  | Err e => (t, Some (LifecycleError e))
  end.
Definition mark_progress : act := upd (fun t => if t.(armed) then t <| progress ::= S |> else t).

Section Emit.
(** Which flushes of the client's connection fail. *)
Variable flush_fails : nat -> bool.

(** The event is written to the buffered writer and flushed. *)
Definition emit (e : AEvent) : act := fun t =>
  if t.(dead) then (t, Some WriteError)
  else
    let t := t <| flushes ::= S |> in
    if flush_fails t.(flushes) then (t <| dead := true |>, Some WriteError)
    else (t <| out ::= (fun l => l ++ [e])%list |>, None).
End Emit.
