(* ===== verification/AnthropicStream.v ===== *)
(** The translator of a chat-completion stream into an Anthropic stream: AnthropicSSETranslator of
    internal/translate/stream.go, streaming path.  The JSON reader, editor and schema validator are the
    classes of Json.v and Toolcheck.v; the order in which Go iterates over a map is a parameter. *)

From stdpp Require Import base gmap sets list strings.
From Stdlib Require Import ZArith Lia Ascii.
From coqutil Require Import Datatypes.RecordSettersUsingExistingGetters.
From S2P Require Import Prelude Strings Sse Json ThinkTag Lifecycle Toolcheck ToolIds StreamState.
Open Scope string_scope.
Open Scope Z_scope.
Open Scope act_scope.

(** ** Helpers of translate.go, openai_cache_usage.go and stream.go *)

Definition clientFacingModel (reqModel upstreamModel : string) : string :=
  if negb (String.eqb reqModel "") then reqModel else upstreamModel.
Definition openAIFinishToAnthropic (reason : string) : string :=
  if String.eqb reason "length" then "max_tokens"
  else if String.eqb reason "tool_calls" then "tool_use" else "end_turn".
Definition anthropicErrorTypeForStatus (status : Z) : string :=
  if status =? 429 then "rate_limit_error"
  else if status =? 503 then "overloaded_error"
  else if 500 <=? status then "api_error"
  else if status =? 400 then "invalid_request_error" else "api_error".

Definition toolishMarkupMarkers : list string :=
  ["<tool_call"; "</tool_call"; "<function"; "</function"; "<invoke"; "</invoke"; "<arg_key"; "</arg_key";
   "<arg_value"; "</arg_value"].
Definition leadsWithToolishMarkup (content : string) : bool :=
  existsb (HasPrefix (TrimLeftWS content)) toolishMarkupMarkers.
Definition leadingContentCap : nat := 64.
Definition upstreamErrorBodyCap : nat := 8192.
Definition routerNudgeCommand : string :=
  "echo '[router] previous turn produced no tool_use; use Edit/Write/Read/Bash/Grep " +:+ utf8 [226; 128; 148]%nat
  +:+ " do not respond with prose or thinking tags only.'".
(** [json.Marshal] sorts the keys. *)
Definition nudge_args : string :=
  jq "{'command':" +:+ WriteJSONString routerNudgeCommand +:+ jq ",'description':"
  +:+ WriteJSONString "router recovery nudge: previous turn had no tool_use" +:+ "}".

Section Translator.
Context `{Gjson} `{Sjson} `{JsonSchema}.
Variable cfg : Config.
Variable toolValidator : option Validator.
Variable flush_fails : nat -> bool.
(** The order a range over the map visits its entries in. *)
Variable map_range : gmap Z Z -> list (Z * Z).

Notation emit := (emit flush_fails).

Definition OpenAICacheTokens (u : Result) : Z * Z :=
  if negb (Exists u) then (0, 0)
  else fold_left (fun '(cacheWrite, cacheRead) prefix =>
    let details := GetPath u prefix in
    if negb (Exists details) then (cacheWrite, cacheRead)
    else
      let cacheRead := if cacheRead =? 0 then IntOf (GetPath details "cached_tokens") else cacheRead in
      let w := GetPath details "cache_write_tokens" in
      let cacheWrite := if cacheWrite =? 0
                        then if Exists w then IntOf w else IntOf (GetPath details "cache_creation_tokens")
                        else cacheWrite in
      (cacheWrite, cacheRead)) ["input_tokens_details"; "prompt_tokens_details"] (0, 0).

(** ** Emitters *)

Definition emitMessageStart : act :=
  upd (fun t => t <| messageID ::= (fun id => if String.eqb id "" then "msg_translated_" +:+ cfg.(random_message) else id) |>) >>>
  reading id (fun t =>
    emit (MessageStart t.(messageID) (clientFacingModel cfg.(requestModel) t.(modelFromUpstream)) cfg.(estimatedInputTokens))).
Definition emitContentBlockStartTool (index : Z) (id name sig : string) : act :=
  upd (fun t => t <| toolIDNonce ::= (fun n => if String.eqb n "" then cfg.(random_nonce) else n) |>) >>>
  reading toolIDNonce (fun nonce =>
    emit (BlockStartTool index (embedSignatureInID (uniqueToolUseIDWithNonce id nonce) sig) name)).
Definition emitRoutingMarkerIfConfigured : act :=
  when (fun t => (negb t.(markerEmitted) && negb (String.eqb cfg.(routingMarker) ""))%bool)
    (reading blockIdx (fun idx =>
       emit (BlockStartText idx) >>> emit (DeltaText idx cfg.(routingMarker)) >>> emit (BlockStop idx)) >>>
     upd (fun t => t <| blockIdx ::= Z.add 1 |> <| markerEmitted := true |>)).
Definition emitMessageDelta : act :=
  reading id (fun t =>
    let mapped := openAIFinishToAnthropic t.(finishReason) in
    let demoted := (negb t.(toolUseEmitted) && String.eqb mapped "tool_use")%bool in
    let stopReason := if t.(toolUseEmitted) then "tool_use" else if demoted then "end_turn" else mapped in
    upd (fun t => t <| stopReasonDemoted ::= orb demoted |> <| emittedStopReason := stopReason |>) >>>
    emit (MessageDelta stopReason (if t.(hasUsage) then Some t.(usage) else None))).
Definition upstreamErrorMessage (body : string) (status : Z) : string :=
  let m1 := GetBytes body "error.message" in
  let m2 := GetBytes body "message" in
  if (negb (String.eqb body "") && Exists m1 && negb (String.eqb (StringOf m1) ""))%bool then StringOf m1
  else if (negb (String.eqb body "") && Exists m2 && negb (String.eqb (StringOf m2) ""))%bool then StringOf m2
  else "upstream provider returned HTTP " +:+ WriteJSONInt status.
Definition emitErrorEvent : act :=
  reading id (fun t =>
    emit (ErrorEvent (anthropicErrorTypeForStatus t.(upstreamErrorStatus))
                     (upstreamErrorMessage t.(upstreamErrorBody) t.(upstreamErrorStatus)))).
Definition emitIncompleteErrorEvent : act :=
  on_lifecycle Fail >>>
  upd (fun t => t <| closed := true |>) >>>
  emit (ErrorEvent "api_error" "upstream stream ended before a terminal event").

(** ** Text and reasoning *)

Definition stop_text : act :=
  when textOpen (reading blockIdx (fun i => emit (BlockStop (i - 1))) >>> upd (fun t => t <| textOpen := false |>)).
Definition stop_thinking : act :=
  when thinkingOpen (reading blockIdx (fun i => emit (BlockStop (i - 1))) >>> upd (fun t => t <| thinkingOpen := false |>)).

Definition appendThinking (text : string) : act :=
  stop_text >>>
  when (fun t => negb t.(thinkingOpen))
    (reading blockIdx (fun i => emit (BlockStartThinking i)) >>>
     upd (fun t => t <| thinkingOpen := true |> <| blockIdx ::= Z.add 1 |>)) >>>
  reading blockIdx (fun i => emit (DeltaThinking (i - 1) text)).
Definition keep_leading (content lead : string) : string :=
  let n := String.length lead in
  if Nat.ltb n leadingContentCap
  then lead +:+ (if Nat.ltb (leadingContentCap - n) (String.length content) then str_take (leadingContentCap - n) content else content)
  else lead.
Definition appendText (content : string) : act := fun t =>
  if (negb t.(textOpen) && String.eqb (TrimSpace content) "")%bool
  then (t <| pendingText ::= (fun p => p +:+ content) |>, None)
  else
    (stop_thinking >>>
     when (fun t => negb t.(textOpen))
       (reading blockIdx (fun i => emit (BlockStartText i)) >>>
        upd (fun t => t <| textOpen := true |> <| blockIdx ::= Z.add 1 |>)) >>>
     reading pendingText (fun p =>
       let content := p +:+ content in
       upd (fun t => t <| pendingText := "" |> <| sawText := true |> <| leadingContent ::= keep_leading content |>) >>>
       reading blockIdx (fun i => emit (DeltaText (i - 1) content)))) t.
Definition append_segment (s : thinkSegment) : act :=
  match s with
  | segThinking text => appendThinking text
  | segText text => appendText text
  end.

(** ** Deltas *)

Definition output_here : act := reading blockIdx (fun i => on_lifecycle (Output i)).
Definition emit_reasoning (delta : Result) : act :=
  let reasoning := Str (GetPath delta "reasoning_content") in
  let reasoning := if String.eqb reasoning "" then Str (GetPath delta "reasoning") else reasoning in
  when (fun _ => negb (String.eqb reasoning "")) (output_here >>> mark_progress >>> appendThinking reasoning).
Definition emit_content (delta : Result) : act :=
  let content := Str (GetPath delta "content") in
  when (fun _ => negb (String.eqb content ""))
    (output_here >>> mark_progress >>>
     if cfg.(thinkTagReasoning)
     then reading splitter (fun s =>
            let '(s', segs) := Feed s content in
            upd (fun t => t <| splitter := s' |>) >>> each append_segment segs)
     else appendText content).

Definition buffer_args (block : Z) (args : string) : act :=
  when (fun _ => negb (String.eqb args ""))
    (upd (fun t => t <| toolArgsBuffer ::= (fun m => <[block := match m !! block with Some b => b | None => "" end +:+ args]> m) |>)).
(** The block of a call seen for the first time. *)
Definition open_tool (idx : Z) (tc : Result) (entry : ToolCallEntry) : act :=
  stop_text >>> stop_thinking >>>
  let sig := Str (GetPath tc "function.thought_signature") in
  let sig := if String.eqb sig "" then Str (GetPath tc "thought_signature") else sig in
  reading blockIdx (fun block =>
    upd (fun t => t <| toolBlocks ::= insert idx block |> <| toolNames ::= insert block entry.(Name) |>
                    <| toolUseEmitted := true |> <| toolUseCount ::= Z.add 1 |> <| blockIdx ::= Z.add 1 |>) >>>
    emitContentBlockStartTool block entry.(ExternalID) entry.(Name) sig >>>
    buffer_args block (Str (GetPath tc "function.arguments"))).
Definition emit_tool_call (tc : Result) : act :=
  let idx := IntOf (GetPath tc "index") in
  output_here >>>
  reading id (fun t =>
    if bool_decide (idx ∈ t.(suppressedTools)) then skip
    else match t.(toolBlocks) !! idx with
         | Some block => buffer_args block (Str (GetPath tc "function.arguments"))
         | None =>
             let '(entry, ledger) := Upsert idx (Str (GetPath tc "id")) (Str (GetPath tc "function.name")) t.(toolLedger) in
             upd (fun t => t <| toolLedger := ledger |>) >>>
             if String.eqb entry.(Name) "" then upd (fun t => t <| suppressedTools ::= union {[ idx ]} |>)
             else open_tool idx tc entry
         end).
Definition emit_tool_calls (delta : Result) : act :=
  let toolCalls := GetPath delta "tool_calls" in
  when (fun _ => IsArray toolCalls) (mark_progress >>> each emit_tool_call (elements toolCalls)).
Definition emitDelta (delta : Result) : act := emit_reasoning delta >>> emit_content delta >>> emit_tool_calls delta.

Definition extractAndForwardUsage (data : string) : act :=
  let u := GetBytes data "usage" in
  when (fun _ => Exists u)
    (let prompt := IntOf (GetPath u "prompt_tokens") in
     let completion := IntOf (GetPath u "completion_tokens") in
     let '(cacheCreation, cachedRead) := OpenAICacheTokens u in
     upd (fun t => t <| usage := {| usageInputTokens := prompt; usageOutputTokens := completion;
                                    usageCacheCreationTokens := cacheCreation; usageCacheReadTokens := cachedRead |} |>
                     <| hasUsage := true |>
                     <| sink ::= (fun l => if cfg.(hasSink)
                                           then (l ++ [RecordUsage prompt completion; RecordCacheUsage cacheCreation cachedRead])%list
                                           else l) |>)).

(** ** The end of the stream *)

Definition emitValidatedToolArgsDelta (block : Z) : act :=
  reading id (fun t =>
    match t.(toolArgsBuffer) !! block with
    | None => skip
    | Some payload =>
        if String.eqb payload "" then skip
        else
          let verdict := Check toolValidator (match t.(toolNames) !! block with Some n => n | None => "" end) payload in
          upd (fun t => match verdict.(Issue_) with
                        | Some i =>
                            let t := t <| toolCallIssues ::= (fun l => l ++ [i])%list |> in
                            match i.(Bucket_), i.(Repaired) with
                            | BucketInvalidJSON, false => t <| toolArgsInvalid ::= union {[ block ]} |>
                            | _, _ => t
                            end
                        | None => t
                        end) >>>
          emit (DeltaJSON block verdict.(Args))
    end).
Definition finish_tool (p : Z * Z) : act := emitValidatedToolArgsDelta p.2 >>> emit (BlockStop p.2).

Definition nudge_wanted (t : Tr) : bool :=
  if (t.(toolUseEmitted) || negb cfg.(requestHadTools) || negb t.(started))%bool then false
  else if negb (bool_decide (t.(suppressedTools) = ∅)) then false
  else if String.eqb t.(finishReason) "length" then false
  else if in_strings t.(finishReason) ["stop"; ""]
  then negb (t.(sawText) && negb (leadsWithToolishMarkup t.(leadingContent)))%bool
  else true.
Definition synthesizeTextOnlyTurnNudge : act :=
  when nudge_wanted
    (reading id (fun t =>
       emitContentBlockStartTool t.(blockIdx) ("toolu_router_nudge_" +:+ t.(messageID)) "Bash" "" >>>
       emit (DeltaJSON t.(blockIdx) nudge_args) >>>
       emit (BlockStop t.(blockIdx))) >>>
     upd (fun t => t <| blockIdx ::= Z.add 1 |> <| toolUseEmitted := true |> <| toolUseCount ::= Z.add 1 |> <| nudgeEmitted := true |>)).

Definition start_message : act :=
  emitMessageStart >>> upd (fun t => t <| started := true |>) >>> emitRoutingMarkerIfConfigured.
Definition finishStream : act :=
  when (fun t => negb t.(started)) start_message >>>
  when (fun _ => cfg.(thinkTagReasoning))
    (reading splitter (fun s =>
       let '(s', segs) := splitter_Flush s in
       upd (fun t => t <| splitter := s' |>) >>> each append_segment segs)) >>>
  stop_text >>> stop_thinking >>>
  reading toolBlocks (fun m => each finish_tool (map_range m)) >>>
  upd (fun t => t <| toolBlocks := ∅ |>) >>>
  reading upstreamErrorStatus (fun status =>
    if negb (status =? 0) then emitErrorEvent >>> upd (fun t => t <| closed := true |>)
    else synthesizeTextOnlyTurnNudge >>> emitMessageDelta >>> emit MessageStop >>> upd (fun t => t <| closed := true |>)).

(** ** One event of the upstream *)

Definition is_done (event : string) : bool := String.eqb (TrimSpace (ParseEvent event).2) "[DONE]".
Definition translate_done : act :=
  when (fun t => bool_decide (t.(lifecycle).(lc_state) = StreamIdle)) (on_lifecycle Start) >>>
  reading lifecycle (fun l =>
    if bool_decide (l.(lc_state) = StreamStarted) then on_lifecycle Terminal
    else if bool_decide (l.(lc_state) <> StreamTerminal) then (fun t => (t, Some (LifecycleError ErrStreamOrder)))
    else skip) >>>
  finishStream.
Definition translate_chunk (data : string) : act :=
  let mid := Str (GetBytes data "id") in
  let model := Str (GetBytes data "model") in
  upd (fun t => t <| messageID ::= (fun x => if (negb (String.eqb mid "") && String.eqb x "")%bool then mid else x) |>
                  <| modelFromUpstream ::= (fun x => if (negb (String.eqb model "") && String.eqb x "")%bool then model else x) |>) >>>
  let firstChoice := GetBytes data "choices.0" in
  if (negb (IsArray (GetBytes data "choices")) || negb (Exists firstChoice))%bool then extractAndForwardUsage data
  else
    when (fun t => negb t.(started)) (on_lifecycle Start >>> start_message) >>>
    (let delta := GetPath firstChoice "delta" in
     when (fun _ => Exists delta) (emitDelta delta)) >>>
    (let fr := Str (GetPath firstChoice "finish_reason") in
     when (fun _ => negb (String.eqb fr ""))
       (upd (fun t => t <| finishReason := fr |>) >>> on_lifecycle Terminal >>> mark_progress)) >>>
    extractAndForwardUsage data.
Definition translateOpenAIEvent (event : string) : act :=
  let data := (ParseEvent event).2 in
  if String.eqb data "" then skip
  else if is_done event then translate_done
  else translate_chunk data.

(** ** The response writer *)

(** The translator as the provider writes to it: [headers] holds the statuses the client's writer was given. *)
Record Writer := { tr : Tr; buf : string; streaming : bool; headersEmitted : bool; statusCode : Z; headers : list Z }.
Definition NewAnthropicSSETranslator : Writer :=
  {| tr := NewTr; buf := ""; streaming := false; headersEmitted := false; statusCode := 0; headers := [] |}.
Definition on_tr (a : act) (w : Writer) : Writer * option TrError :=
  let '(t, e) := a w.(tr) in (w <| tr := t |>, e).

Definition WriteHeader (code : Z) (contentType : string) (w : Writer) : Writer :=
  let w := if 400 <=? code then w <| tr ::= (fun t => t <| upstreamErrorStatus := code |>) |> else w in
  if w.(headersEmitted) then w
  else
    let w := w <| statusCode := code |> <| streaming := (Contains contentType "text/event-stream" && (code <? 400))%bool |> in
    if w.(streaming) then w <| headersEmitted := true |> <| headers ::= (fun l => l ++ [code])%list |> else w.
Definition TrPrelude (stream : bool) (w : Writer) : Writer * option TrError :=
  if (negb stream || w.(tr).(started))%bool then (w, None)
  else
    on_tr (on_lifecycle Start >>> start_message)
      (w <| statusCode := 200 |> <| streaming := true |> <| headersEmitted := true |> <| headers ::= (fun l => l ++ [200])%list |>).
Definition ArmOutputProgress (w : Writer) : Writer * bool :=
  if negb w.(streaming) then (w, false) else (w <| tr ::= (fun t => t <| armed := true |>) |>, true).

(** The loop over the complete events of the buffer; an event takes at least two bytes. *)
Fixpoint process_buffer (fuel : nat) (w : Writer) : Writer * option TrError :=
  match fuel with
  | O => (w, None)
  | S f =>
      match SplitNext w.(buf) with
      | None => (w, None)
      | Some (event, n) =>
          let '(w, e) := on_tr (translateOpenAIEvent event) w in
          let w := w <| buf ::= str_drop n |> in
          match e with
          | Some e => (w, Some e)
          | None => process_buffer f w
          end
      end
  end.
Definition divert (data : string) (body : string) : string :=
  let remaining := (upstreamErrorBodyCap - String.length body)%nat in
  if Nat.ltb 0 remaining then body +:+ str_take remaining data else body.
Definition Write (data : string) (w : Writer) : Writer * option TrError :=
  if (negb (w.(tr).(upstreamErrorStatus) =? 0) && w.(streaming))%bool
  then (w <| tr ::= (fun t => t <| upstreamErrorBody ::= divert data |>) |>, None)
  else
    let w := w <| buf ::= (fun b => b +:+ data) |> in
    if negb w.(streaming) then (w, None) else process_buffer (String.length w.(buf)) w.
Definition process_tail (w : Writer) : Writer * option TrError :=
  if String.eqb w.(buf) "" then (w, None)
  else on_tr (translateOpenAIEvent w.(buf)) (w <| buf := "" |>).

(** What follows the tail of a stream. *)
Definition end_stream : act :=
  reading id (fun t =>
    if negb (t.(upstreamErrorStatus) =? 0)
    then when (fun t => bool_decide (t.(lifecycle).(lc_state) = StreamStarted)) (on_lifecycle Fail) >>> finishStream
    else match EOF t.(lifecycle) with
         | None => finishStream
         | Some e =>
             (if t.(lifecycle).(outputStarted) then emitIncompleteErrorEvent
              else when (fun t => bool_decide (t.(lifecycle).(lc_state) = StreamStarted))
                     (on_lifecycle Fail >>> upd (fun t => t <| closed := true |>))) >>>
             (fun t => (t, Some (LifecycleError e)))
         end).
(** [Finalize] of a streaming response; a buffered one hands its status and body to the translation of whole
    responses. *)
Inductive Finalized := Streamed (e : option TrError) | Whole (status : Z) (body : string).
Definition Finalize (w : Writer) : Writer * Finalized :=
  if w.(streaming) then
    if w.(tr).(closed) then (w, Streamed None)
    else match process_tail w with
         | (w, Some e) => (w, Streamed (Some e))
         | (w, None) => let '(w, e) := on_tr end_stream w in (w, Streamed e)
         end
  else (w, Whole w.(statusCode) w.(buf)).

Record ResponseSummary := {
  UpstreamFinishReason : string; StopReason : string; StopReasonPromoted : bool; ToolUseBlocks : Z;
  InvalidToolArgsBlocks : nat; TextOnlyTurnNudged : bool; StopReasonDemoted : bool; SuppressedToolCalls : nat;
  ToolCallIssues : list Issue; SummaryUsage : Usage
}.
Definition Summary (t : Tr) : ResponseSummary := {|
  UpstreamFinishReason := t.(finishReason); StopReason := t.(emittedStopReason);
  StopReasonPromoted := (t.(toolUseEmitted) && negb (String.eqb (openAIFinishToAnthropic t.(finishReason)) "tool_use"))%bool;
  ToolUseBlocks := t.(toolUseCount); InvalidToolArgsBlocks := size t.(toolArgsInvalid);
  TextOnlyTurnNudged := t.(nudgeEmitted); StopReasonDemoted := t.(stopReasonDemoted);
  SuppressedToolCalls := size t.(suppressedTools); ToolCallIssues := t.(toolCallIssues); SummaryUsage := t.(usage)
|}.

(** A response the provider streams: the prelude, the header, the chunks until one is refused, and the end.
    The proxy only logs an error of the prelude. *)
Fixpoint write_all (chunks : list string) (w : Writer) : Writer * option TrError :=
  match chunks with
  | [] => (w, None)
  | c :: chunks' => match Write c w with
                    | (w, None) => write_all chunks' w
                    | r => r
                    end
  end.
Definition session (eager : bool) (code : Z) (contentType : string) (chunks : list string) : Writer * Finalized :=
  let w := (TrPrelude eager NewAnthropicSSETranslator).1 in
  let w := WriteHeader code contentType w in
  match write_all chunks w with
  | (w, Some e) => (w, Streamed (Some e))
  | (w, None) => Finalize w
  end.
End Translator.
