(* ===== verification/StreamProto.v ===== *)
(** What an Anthropic client accepts: the protocol of a message stream as an automaton over the events, and
    the rules for reasoning about the translator's actions against it.  An assertion speaks about the state of
    the automaton after the events that reached the client, and about the translator as long as the client's
    connection is alive. *)

From stdpp Require Import base gmap sets list strings.
From Stdlib Require Import ZArith Lia Ascii.
From coqutil Require Import Datatypes.RecordSettersUsingExistingGetters.
From S2P Require Import Prelude Strings Sse Json Lifecycle StreamState.
Open Scope string_scope.
Open Scope Z_scope.
Open Scope act_scope.

(** ** The protocol *)

Inductive Kind := KText | KThinking | KTool (args_sent : bool).
#[export] Instance Kind_eq_dec : EqDecision Kind.
Proof. solve_decision. Defined.
Inductive Phase := Body | Delivered | Over.
#[export] Instance Phase_eq_dec : EqDecision Phase.
Proof. solve_decision. Defined.
Record Proto := { p_started : bool; p_phase : Phase; p_next : Z; p_open : gmap Z Kind; p_tool : bool }.
Definition proto_init : Proto := {| p_started := false; p_phase := Body; p_next := 0; p_open := ∅; p_tool := false |}.

Definition open_block (i : Z) (k : Kind) (p : Proto) : option Proto :=
  if (bool_decide (p.(p_phase) = Body) && p.(p_started) && (i =? p.(p_next)))%bool
  then Some {| p_started := true; p_phase := Body; p_next := p.(p_next) + 1; p_open := <[i := k]> p.(p_open);
               p_tool := (p.(p_tool) || match k with KTool _ => true | _ => false end)%bool |}
  else None.
(** A delta goes to an open block of its kind; a tool block takes its arguments at once. *)
Definition delta_block (i : Z) (k : Kind) (p : Proto) : option Proto :=
  if (bool_decide (p.(p_phase) = Body) && bool_decide (p.(p_open) !! i = Some k))%bool
  then Some (match k with KTool _ => p <| p_open ::= insert i (KTool true) |> | _ => p end)
  else None.
Definition accepts (p : Proto) (e : AEvent) : option Proto :=
  match e with
  | MessageStart _ _ _ =>
      if (bool_decide (p.(p_phase) = Body) && negb p.(p_started))%bool then Some (p <| p_started := true |>) else None
  | BlockStartText i => open_block i KText p
  | BlockStartThinking i => open_block i KThinking p
  | BlockStartTool i _ _ => open_block i (KTool false) p
  | DeltaText i _ => delta_block i KText p
  | DeltaThinking i _ => delta_block i KThinking p
  | DeltaJSON i _ => delta_block i (KTool false) p
  | BlockStop i => if (bool_decide (p.(p_phase) = Body) && bool_decide (is_Some (p.(p_open) !! i)))%bool
                   then Some (p <| p_open ::= delete i |>) else None
  (* the stop reason tells the client whether there is a tool to run *)
  | MessageDelta r _ => if (bool_decide (p.(p_phase) = Body) && p.(p_started) && bool_decide (p.(p_open) = ∅)
                            && Bool.eqb (String.eqb r "tool_use") p.(p_tool))%bool
                        then Some (p <| p_phase := Delivered |>) else None
  | MessageStop => if bool_decide (p.(p_phase) = Delivered) then Some (p <| p_phase := Over |>) else None
  (* an error ends the message wherever it is *)
  | ErrorEvent _ _ => if bool_decide (p.(p_phase) = Body) then Some (p <| p_phase := Over |>) else None
  end.
Fixpoint protocol (p : Proto) (l : list AEvent) : option Proto :=
  match l with
  | [] => Some p
  | e :: l' => match accepts p e with Some p' => protocol p' l' | None => None end
  end.
Lemma protocol_snoc l : forall p e, protocol p (l ++ [e])%list = protocol p l ≫= fun q => accepts q e.
Proof.
  induction l as [|x l IH]; intros p e; cbn.
  - destruct (accepts p e); reflexivity.
  - destruct (accepts p x); [apply IH|reflexivity].
Qed.

(** ** Reasoning about actions *)

Definition assertion : Type := Proto -> Tr -> Prop.
(** The events follow the protocol and the connection is alive, in a state that satisfies [φ]. *)
Definition alive (φ : assertion) (t : Tr) : Prop :=
  exists p, protocol proto_init t.(out) = Some p /\ t.(dead) = false /\ φ p t.
(** The events follow the protocol, and the state satisfies [ε] unless the connection died. *)
Definition failed (ε : assertion) (t : Tr) : Prop :=
  exists p, protocol proto_init t.(out) = Some p /\ (t.(dead) = false -> ε p t).
(** From [φ], the action ends in [ψ], or returns an error in [ε]. *)
Definition hoare (φ : assertion) (a : act) (ψ ε : assertion) : Prop :=
  forall t, alive φ t -> match a t with (t', None) => alive ψ t' | (t', Some _) => failed ε t' end.

Lemma alive_mono (φ ψ : assertion) t : (forall p, φ p t -> ψ p t) -> alive φ t -> alive ψ t.
Proof. intros I (p & P & D & F). exists p. auto. Qed.
Lemma failed_mono (φ ψ : assertion) t : (forall p, φ p t -> ψ p t) -> failed φ t -> failed ψ t.
Proof. intros I (p & P & F). exists p. auto. Qed.
Lemma alive_failed (φ : assertion) t : alive φ t -> failed φ t.
Proof. intros (p & P & D & F). exists p. auto. Qed.
Lemma hoare_skip (φ ε : assertion) : hoare φ skip φ ε.
Proof. intros t A. exact A. Qed.
Lemma hoare_seq (φ χ ψ ε : assertion) a b : hoare φ a χ ε -> hoare χ b ψ ε -> hoare φ (a >>> b) ψ ε.
Proof.
  intros A B t P. unfold and_then. specialize (A t P). destruct (a t) as [t' [e|]]; [exact A|]. exact (B t' A).
Qed.
Lemma hoare_assoc (φ ψ ε : assertion) a b c : hoare φ ((a >>> b) >>> c) ψ ε -> hoare φ (a >>> b >>> c) ψ ε.
Proof. intros X t A. specialize (X t A). unfold and_then in *. destruct (a t) as [t' [e|]]; exact X. Qed.
Lemma hoare_pre (φ φ' ψ ε : assertion) a : (forall p t, φ p t -> φ' p t) -> hoare φ' a ψ ε -> hoare φ a ψ ε.
Proof. intros I A t P. apply A. revert P. apply alive_mono. intros p. apply I. Qed.
Lemma hoare_post (φ ψ ψ' ε : assertion) a : (forall p t, ψ' p t -> ψ p t) -> hoare φ a ψ' ε -> hoare φ a ψ ε.
Proof.
  intros I A t P. specialize (A t P). destruct (a t) as [t' [e|]]; [exact A|]. revert A. apply alive_mono. intros p. apply I.
Qed.
Lemma hoare_err (φ ψ ε ε' : assertion) a : (forall p t, ε' p t -> ε p t) -> hoare φ a ψ ε' -> hoare φ a ψ ε.
Proof.
  intros I A t P. specialize (A t P). destruct (a t) as [t' [e|]]; [|exact A]. revert A. apply failed_mono. intros p. apply I.
Qed.
Lemma hoare_upd (φ ψ ε : assertion) f : (forall t, out (f t) = out t /\ dead (f t) = dead t) ->
  (forall p t, φ p t -> ψ p (f t)) -> hoare φ (upd f) ψ ε.
Proof.
  intros F I t (p & P & D & X). exists p. destruct (F t) as [-> ->]. auto.
Qed.
Lemma hoare_when (φ ψ ε : assertion) c a : hoare (fun p t => φ p t /\ c t = true) a ψ ε ->
  (forall p t, φ p t -> c t = false -> ψ p t) -> hoare φ (when c a) ψ ε.
Proof.
  intros A I t P. unfold when. destruct (c t) eqn:C.
  - apply A. revert P. apply alive_mono. intros p F. split; [exact F|exact C].
  - revert P. apply alive_mono. intros p F. exact (I p t F C).
Qed.
Lemma hoare_reading {A} (φ ψ ε : assertion) (f : Tr -> A) k :
  (forall x, hoare (fun p t => φ p t /\ f t = x) (k x) ψ ε) -> hoare φ (reading f k) ψ ε.
Proof.
  intros K t P. apply (K (f t)). revert P. apply alive_mono. intros p F. split; [exact F|reflexivity].
Qed.
Lemma hoare_lifecycle (φ ψ ε : assertion) f :
  (forall p t, φ p t -> match f t.(lifecycle) with Ok l => ψ p (t <| lifecycle := l |>) | Err _ => ε p t end) ->
  hoare φ (on_lifecycle f) ψ ε.
Proof.
  intros I t (p & P & D & X). unfold on_lifecycle. specialize (I p t X). destruct (f (lifecycle t)); exists p; auto.
Qed.
Lemma hoare_fail (φ ψ : assertion) e : hoare φ (fun t => (t, Some e)) ψ φ.
Proof. intros t A. apply alive_failed, A. Qed.
Lemma hoare_each {A} (φ ε : assertion) (f : A -> act) l : (forall x, x ∈ l -> hoare φ (f x) φ ε) -> hoare φ (each f l) φ ε.
Proof.
  induction l as [|x l IH]; intros F; [apply hoare_skip|]. eapply hoare_seq; [apply F; left|]. apply IH.
  intros y Hy. apply F. right. exact Hy.
Qed.

Section Emitting.
Variable flush_fails : nat -> bool.
(** The events that follow the protocol reach the client, or the connection dies on one. *)
Lemma hoare_emit (φ ψ ε : assertion) e :
  (forall p t, φ p t -> exists p', accepts p e = Some p' /\
     forall t', t' = t <| flushes ::= S |> <| out ::= (fun l => l ++ [e])%list |> -> ψ p' t') ->
  hoare φ (emit flush_fails e) ψ ε.
Proof.
  intros I t (p & P & D & X). unfold emit. rewrite D.
  cbv zeta. destruct (flush_fails _); [exists p; split; [exact P|discriminate]|].
  destruct (I p t X) as (p' & A & B). exists p'. split; [cbn; rewrite protocol_snoc, P; exact A|].
  split; [exact D|]. apply B. reflexivity.
Qed.
End Emitting.

(** ** What an action leaves alone *)

(** The states before and after the action are related, whether it fails or not. *)
Definition preserves (R : Tr -> Tr -> Prop) (a : act) : Prop := forall t, R t (a t).1.
Section Preserves.
Context (R : Tr -> Tr -> Prop) `{!PreOrder R}.
Lemma preserves_skip : preserves R skip.
Proof. intros t. reflexivity. Qed.
Lemma preserves_seq a b : preserves R a -> preserves R b -> preserves R (a >>> b).
Proof.
  intros F G t. unfold and_then. specialize (F t). destruct (a t) as [t' [e|]]; [exact F|]. etransitivity; [exact F|apply G].
Qed.
Lemma preserves_when c a : preserves R a -> preserves R (when c a).
Proof. intros F t. unfold when. destruct (c t); [apply F|reflexivity]. Qed.
Lemma preserves_reading {B} (f : Tr -> B) k : (forall x, preserves R (k x)) -> preserves R (reading f k).
Proof. intros F t. apply F. Qed.
Lemma preserves_each {B} (f : B -> act) l : (forall x, preserves R (f x)) -> preserves R (each f l).
Proof. intros F. induction l as [|x l IH]; [apply preserves_skip|]. apply preserves_seq; [apply F|exact IH]. Qed.
End Preserves.
Create HintDb preserves.
#[export] Hint Extern 0 (PreOrder _) => exact _ : preserves.
#[export] Hint Resolve preserves_skip preserves_seq preserves_when preserves_reading preserves_each : preserves.

(** A field the action does not write. *)
Notation frame g := (preserves (fun t t' : Tr => g t' = g t)).
#[export] Instance frame_preorder {A} (g : Tr -> A) : PreOrder (fun t t' : Tr => g t' = g t).
Proof. split; [intros t; reflexivity|intros t u v E F; congruence]. Qed.
Lemma frame_emit {A} (g : Tr -> A) ff e : (forall t n, g (t <| flushes := n |>) = g t) -> (forall t b, g (t <| dead := b |>) = g t) ->
  (forall t l, g (t <| out := l |>) = g t) -> frame g (emit ff e).
Proof.
  intros F D O t. unfold emit. destruct (dead t) eqn:X; [reflexivity|]. cbv zeta.
  pose proof (F t (S (flushes t))) as F'. change (t <| flushes := S (flushes t) |>) with (t <| flushes ::= S |>) in F'.
  destruct (ff _); cbn [fst].
  - rewrite <- F'. apply D.
  - rewrite <- F'. apply (O (t <| flushes ::= S |>) (out t ++ [e])%list).
Qed.
#[export] Hint Extern 2 (preserves _ (upd _)) => intros ?; reflexivity : preserves.
#[export] Hint Extern 2 (preserves _ (emit _ _)) => apply frame_emit; intros; reflexivity : preserves.
Lemma hoare_frame {A} (g : Tr -> A) (φ ψ ε : assertion) a x : frame g a -> hoare φ a ψ ε ->
  hoare (fun p t => φ p t /\ g t = x) a (fun p t => ψ p t /\ g t = x) ε.
Proof.
  intros F T t (p & P & D & X & G). specialize (F t). specialize (T t (ex_intro _ p (conj P (conj D X)))).
  destruct (a t) as [t' [e|]]; [exact T|]. destruct T as (p' & P' & D' & X'). exists p'. cbn in F. rewrite F. auto.
Qed.
