(* ===== verification/StreamFacts.v ===== *)
(** The Anthropic stream the translator writes: it follows the protocol of StreamProto.v whatever the upstream
    sends, it carries the upstream's text and reasoning, and it does not depend on how the network cut the
    upstream's bytes. *)

From stdpp Require Import base gmap sets list strings.
From Stdlib Require Import ZArith Lia Ascii.
From coqutil Require Import Datatypes.RecordSettersUsingExistingGetters.
From S2P Require Import Prelude Strings Sse Json ThinkTag Lifecycle Toolcheck ToolIds StreamState AnthropicStream StreamProto.
Open Scope string_scope.
Open Scope Z_scope.
Open Scope act_scope.

(** ** The translator against the protocol *)

(** Which blocks are open, and of which kind. *)
Definition is_open_block (t : Tr) (i : Z) (k : Kind) : Prop :=
  (t.(textOpen) = true /\ i = t.(blockIdx) - 1 /\ k = KText) \/
  (t.(thinkingOpen) = true /\ i = t.(blockIdx) - 1 /\ k = KThinking) \/
  (k = KTool false /\ exists c, t.(toolBlocks) !! c = Some i).
Record well_formed (t : Tr) : Prop := {
  wf_one : t.(textOpen) = true -> t.(thinkingOpen) = true -> False;
  wf_tools : forall c i, t.(toolBlocks) !! c = Some i ->
    i < t.(blockIdx) /\ (t.(textOpen) = true \/ t.(thinkingOpen) = true -> i < t.(blockIdx) - 1);
  wf_inj : forall c d i, t.(toolBlocks) !! c = Some i -> t.(toolBlocks) !! d = Some i -> c = d
}.
(** In the middle of a message, with the routing marker sent when there is one. *)
Record in_body (p : Proto) (t : Tr) : Prop := {
  ib_phase : p.(p_phase) = Body;
  ib_started : p.(p_started) = t.(started);
  ib_next : p.(p_next) = t.(blockIdx);
  ib_tool : p.(p_tool) = t.(toolUseEmitted);
  ib_open : forall i k, p.(p_open) !! i = Some k <-> is_open_block t i k;
  ib_wf : well_formed t;
  ib_idle : t.(started) = false -> t.(textOpen) = false /\ t.(thinkingOpen) = false /\ t.(toolBlocks) = ∅;
  ib_closed : t.(closed) = false
}.
Definition running (p : Proto) (t : Tr) : Prop := in_body p t /\ t.(started) = true.

Section Facts.
Context `{Gjson} `{Sjson} `{JsonSchema}.
Variable cfg : Config.
Variable toolValidator : option Validator.
Variable flush_fails : nat -> bool.
Variable map_range : gmap Z Z -> list (Z * Z).
Hypothesis map_range_ok : forall m, map_range m ≡ₚ map_to_list m.

(** Updates that the protocol does not see. *)
Definition silent (f : Tr -> Tr) : Prop := forall t,
  out (f t) = out t /\ dead (f t) = dead t /\ started (f t) = started t /\ closed (f t) = closed t /\
  blockIdx (f t) = blockIdx t /\ textOpen (f t) = textOpen t /\ thinkingOpen (f t) = thinkingOpen t /\
  toolBlocks (f t) = toolBlocks t /\ toolUseEmitted (f t) = toolUseEmitted t.
Lemma in_body_silent p t t' : started t' = started t -> closed t' = closed t ->
  blockIdx t' = blockIdx t -> textOpen t' = textOpen t -> thinkingOpen t' = thinkingOpen t ->
  toolBlocks t' = toolBlocks t -> toolUseEmitted t' = toolUseEmitted t -> in_body p t -> in_body p t'.
Proof.
  intros E1 E2 E3 E4 E5 E6 E7 [I1 I2 I3 I4 I5 I6 I7 I8]. split; try congruence.
  - intros i k. rewrite I5. unfold is_open_block. rewrite E3, E4, E5, E6. reflexivity.
  - destruct I6 as [W1 W2 W3]. split; rewrite ?E3, ?E4, ?E5, ?E6; assumption.
  - rewrite E1, E4, E5, E6. exact I7.
Qed.

Notation emit := (StreamState.emit flush_fails).

(** A write the protocol accepts, the state of the translator as it is. *)
Definition after_emit (e : AEvent) (t : Tr) : Tr := t <| flushes ::= S |> <| out ::= (fun l => l ++ [e])%list |>.
Lemma in_body_emit p e t : in_body p t -> in_body p (after_emit e t).
Proof. apply in_body_silent; reflexivity. Qed.

Definition no_block (t : Tr) : Prop := t.(textOpen) = false /\ t.(thinkingOpen) = false.
(** The block at [blockIdx - 1] is closed and the flags cleared. *)
Lemma open_stopped p t : in_body p t -> t.(textOpen) = true \/ t.(thinkingOpen) = true ->
  in_body (p <| p_open ::= delete (t.(blockIdx) - 1) |>) (t <| textOpen := false |> <| thinkingOpen := false |>).
Proof.
  intros [I1 I2 I3 I4 I5 [W1 W2 W3] I7 I8] O. split; try assumption.
  - intros i k. cbn. rewrite lookup_delete_Some, I5. unfold is_open_block. cbn. split.
    + intros [N [(_ & -> & _)|[(_ & -> & _)|X]]]; try (destruct (N eq_refl)). right. right. exact X.
    + intros [(X & _)|[(X & _)|(-> & c & X)]]; try discriminate X. split; [|right; right; split; [reflexivity|exists c; exact X]].
      intros E. destruct (W2 c i X) as [_ L]. specialize (L O). lia.
  - split; cbn; [discriminate| |exact W3]. intros c i X. split; [apply (W2 c i X)|intros [Y|Y]; discriminate Y].
  - cbn. intros S. destruct (I7 S) as (X & Y & Z). auto.
Qed.
Lemma is_open_current p t : in_body p t -> t.(textOpen) = true \/ t.(thinkingOpen) = true -> is_Some (p.(p_open) !! (t.(blockIdx) - 1)).
Proof.
  intros I [O|O].
  - exists KText. apply (ib_open _ _ I). left. auto.
  - exists KThinking. apply (ib_open _ _ I). right. left. auto.
Qed.
Lemma stop_accepted p t i : in_body p t -> is_Some (p.(p_open) !! i) -> accepts p (BlockStop i) = Some (p <| p_open ::= delete i |>).
Proof.
  intros I S. cbn [accepts]. rewrite (bool_decide_eq_true_2 _ (ib_phase _ _ I)), (bool_decide_eq_true_2 _ S). reflexivity.
Qed.
Lemma hoare_stop_text (ε : assertion) : hoare running (stop_text flush_fails) (fun p t => running p t /\ t.(textOpen) = false) ε.
Proof.
  unfold stop_text. apply hoare_when; [|intros p t R T; split; assumption].
  eapply hoare_seq with (χ := fun p t => in_body p (t <| textOpen := false |>) /\ t.(started) = true).
  - apply hoare_reading. intros b. apply hoare_emit. intros p t ([[I S] T] & <-).
    exists (p <| p_open ::= delete (t.(blockIdx) - 1) |>). split.
    + apply (stop_accepted p t); [exact I|]. apply is_open_current; [exact I|left; exact T].
    + intros t' ->. split; [|exact S]. pose proof (open_stopped p t I (or_introl T)) as J. revert J. apply in_body_silent; try reflexivity.
      cbn. destruct (thinkingOpen t) eqn:X; [destruct (wf_one _ (ib_wf _ _ I) T X)|reflexivity].
  - apply hoare_upd; [intros t; split; reflexivity|]. intros p t [I S]. split; [split; [exact I|exact S]|reflexivity].
Qed.
Lemma hoare_stop_thinking (ε : assertion) : hoare running (stop_thinking flush_fails) (fun p t => running p t /\ t.(thinkingOpen) = false) ε.
Proof.
  unfold stop_thinking. apply hoare_when; [|intros p t R T; split; assumption].
  eapply hoare_seq with (χ := fun p t => in_body p (t <| thinkingOpen := false |>) /\ t.(started) = true).
  - apply hoare_reading. intros b. apply hoare_emit. intros p t ([[I S] T] & <-).
    exists (p <| p_open ::= delete (t.(blockIdx) - 1) |>). split.
    + apply (stop_accepted p t); [exact I|]. apply is_open_current; [exact I|right; exact T].
    + intros t' ->. split; [|exact S]. pose proof (open_stopped p t I (or_intror T)) as J. revert J. apply in_body_silent; try reflexivity.
      cbn. destruct (textOpen t) eqn:X; [destruct (wf_one _ (ib_wf _ _ I) X T)|reflexivity].
  - apply hoare_upd; [intros t; split; reflexivity|]. intros p t [I S]. split; [split; [exact I|exact S]|reflexivity].
Qed.

(** Both blocks closed, the state otherwise as it was. *)
Lemma hoare_stop_both (ε : assertion) :
  hoare running (stop_text flush_fails >>> stop_thinking flush_fails) (fun p t => running p t /\ no_block t) ε.
Proof.
  eapply hoare_seq; [apply hoare_stop_text|].
  eapply hoare_post; [|apply (hoare_frame textOpen running (fun p t => running p t /\ thinkingOpen t = false) ε)].
  - intros p t [[R T] X]. split; [exact R|split; assumption].
  - unfold stop_thinking. auto with preserves.
  - apply hoare_stop_thinking.
Qed.

Lemma open_accepted p t i k : running p t -> i = t.(blockIdx) ->
  open_block i k p = Some {| p_started := true; p_phase := Body; p_next := t.(blockIdx) + 1; p_open := <[i := k]> p.(p_open);
                             p_tool := (p.(p_tool) || match k with KTool _ => true | _ => false end)%bool |}.
Proof.
  intros [I S] ->. unfold open_block. rewrite (bool_decide_eq_true_2 _ (ib_phase _ _ I)), (ib_started _ _ I), S, (ib_next _ _ I), Z.eqb_refl.
  reflexivity.
Qed.
Lemma fresh_block p t : in_body p t -> p.(p_open) !! t.(blockIdx) = None.
Proof.
  intros I. destruct (p_open p !! blockIdx t) as [k|] eqn:E; [|reflexivity]. apply (ib_open _ _ I) in E.
  destruct E as [(_ & E & _)|[(_ & E & _)|(_ & c & E)]]; [lia|lia|]. destruct (wf_tools _ (ib_wf _ _ I) _ _ E). lia.
Qed.
(** A text or thinking block opened at the next index. *)
Lemma opened_block p t (th : bool) : running p t -> no_block t ->
  running {| p_started := true; p_phase := Body; p_next := t.(blockIdx) + 1;
             p_open := <[t.(blockIdx) := if th then KThinking else KText]> p.(p_open);
             p_tool := (p.(p_tool) || false)%bool |}
          (t <| textOpen := negb th |> <| thinkingOpen := th |> <| blockIdx ::= Z.add 1 |>).
Proof.
  intros [I S] [N1 N2]. pose proof (fresh_block p t I) as Fr. destruct I as [I1 I2 I3 I4 I5 [W1 W2 W3] I7 I8].
  split; [|exact S]. split; cbn; try assumption; try congruence; try lia.
  - rewrite orb_false_r. exact I4.
  - intros i k. rewrite lookup_insert_Some, I5. unfold is_open_block. cbn. rewrite N1, N2. split.
    + intros [[<- <-]|[N [(X & _)|[(X & _)|X]]]]; try discriminate X; [|auto].
      destruct th; [right; left|left]; repeat split; lia.
    + intros [(X & -> & ->)|[(X & -> & ->)|(-> & c & X)]].
      * left. destruct th; [discriminate X|]. split; [lia|reflexivity].
      * left. rewrite X. split; [lia|reflexivity].
      * right. split; [|right; right; split; [reflexivity|exists c; exact X]]. destruct (W2 c i X). lia.
  - split; cbn; [destruct th; discriminate| |exact W3]. intros c i X. destruct (W2 c i X) as [L _]. split; [lia|]. intros _. lia.
Qed.
Lemma delta_accepted p t i k : in_body p t -> is_open_block t i k -> match k with KTool _ => False | _ => True end ->
  delta_block i k p = Some p.
Proof.
  intros I O N. unfold delta_block. rewrite (bool_decide_eq_true_2 _ (ib_phase _ _ I)).
  rewrite (bool_decide_eq_true_2 _ (proj2 (ib_open _ _ I i k) O)). destruct k; [reflexivity..|destruct N].
Qed.
(** A running state stays one over updates the protocol does not see. *)
Lemma hoare_silent f (ε : assertion) : silent f -> hoare running (upd f) running ε.
Proof.
  intros F. apply hoare_upd; [intros t; destruct (F t) as (A & B & _); auto|].
  intros p t [I S]. destruct (F t) as (A1 & A2 & A3 & A4 & A5 & A6 & A7 & A8 & A9).
  split; [revert I; apply in_body_silent; assumption|congruence].
Qed.

Lemma hoare_open (th : bool) ev (ε : assertion) : (forall p i, accepts p (ev i) = open_block i (if th then KThinking else KText) p) ->
  hoare (fun p t => running p t /\ no_block t)
    (reading blockIdx (fun i => emit (ev i)) >>>
     upd (fun t => (if th then t <| thinkingOpen := true |> else t <| textOpen := true |>) <| blockIdx ::= Z.add 1 |>))
    (fun p t => running p t /\ t.(thinkingOpen) = th /\ t.(textOpen) = negb th) ε.
Proof.
  intros A. eapply hoare_seq with (χ := fun p t => running p (t <| textOpen := negb th |> <| thinkingOpen := th |> <| blockIdx ::= Z.add 1 |>) /\ no_block t).
  - apply hoare_reading. intros b. apply hoare_emit. intros p t ((R & N) & E).
    pose proof (opened_block p t th R N) as Op. rewrite A. rewrite (open_accepted p t b _ R) by (symmetry; exact E).
    eexists. split; [reflexivity|]. intros t' ->. subst b. split; [|exact N]. destruct Op as [I S]. split; [|exact S].
    replace (match (if th then KThinking else KText) with KTool _ => true | _ => false end) with false by (destruct th; reflexivity).
    revert I. apply in_body_silent; reflexivity.
  - apply hoare_upd; [intros t; destruct th; split; reflexivity|]. intros p t [R [N1 N2]]. split.
    + destruct R as [I S]. split; [|destruct th; exact S]. revert I. apply in_body_silent; destruct th; cbn; congruence || reflexivity.
    + destruct th; cbn; auto.
Qed.
Lemma hoare_appendThinking text : hoare running (appendThinking flush_fails text) running running.
Proof.
  unfold appendThinking. eapply hoare_seq; [apply hoare_stop_text|].
  eapply hoare_seq with (χ := fun p t => running p t /\ t.(thinkingOpen) = true).
  - apply hoare_when; [|intros p t [R _] X; apply negb_false_iff in X; auto].
    eapply hoare_pre; [|eapply hoare_post; [|apply (hoare_open true BlockStartThinking)]].
    + intros p t [[R T] X]. apply negb_true_iff in X. split; [exact R|split; assumption].
    + intros p t (R & X & _). auto.
    + reflexivity.
  - apply hoare_reading. intros b. apply hoare_emit. intros p t (([I S] & X) & <-). exists p. split.
    + apply (delta_accepted p t); [exact I|right; left; auto|exact Logic.I].
    + intros t' ->. split; [apply (in_body_emit p _ t I)|exact S].
Qed.
Lemma hoare_appendText text : hoare running (appendText flush_fails text) running running.
Proof.
  intros t P. unfold appendText. destruct (_ && _)%bool.
  { revert P. apply (hoare_silent (fun t => t <| pendingText ::= _ |>) running). intros t'. repeat split. }
  revert t P. change (hoare running (stop_thinking flush_fails >>> when (fun t => negb (textOpen t))
    (reading blockIdx (fun i => emit (BlockStartText i)) >>> upd (fun t => t <| textOpen := true |> <| blockIdx ::= Z.add 1 |>)) >>>
    reading pendingText (fun p => upd (fun t => t <| pendingText := "" |> <| sawText := true |> <| leadingContent ::= keep_leading (p +:+ text) |>) >>>
       reading blockIdx (fun i => emit (DeltaText (i - 1) (p +:+ text))))) running running).
  eapply hoare_seq; [apply hoare_stop_thinking|].
  eapply hoare_seq with (χ := fun p t => running p t /\ t.(textOpen) = true).
  - apply hoare_when; [|intros p t [R _] X; apply negb_false_iff in X; auto].
    eapply hoare_pre; [|eapply hoare_post; [|apply (hoare_open false BlockStartText)]].
    + intros p t [[R T] X]. apply negb_true_iff in X. split; [exact R|split; assumption].
    + intros p t (R & _ & X). auto.
    + reflexivity.
  - apply hoare_reading. intros pend. eapply hoare_seq with (χ := fun p t => running p t /\ t.(textOpen) = true).
    + apply hoare_upd; [intros t; split; reflexivity|]. intros p t [[[I S] X] _]. split; [split; [revert I; apply in_body_silent; reflexivity|exact S]|exact X].
    + apply hoare_reading. intros b. apply hoare_emit. intros p t (([I S] & X) & <-). exists p. split.
      * apply (delta_accepted p t); [exact I|left; auto|exact Logic.I].
      * intros t' ->. split; [apply (in_body_emit p _ t I)|exact S].
Qed.

Lemma hoare_output_here : hoare running output_here running running.
Proof.
  apply hoare_reading. intros b. apply hoare_lifecycle. intros p t [R _].
  destruct (Output b (lifecycle t)); [|exact R]. destruct R as [I S]. split; [revert I; apply in_body_silent; reflexivity|exact S].
Qed.
Lemma hoare_progress (ε : assertion) : hoare running mark_progress running ε.
Proof. apply hoare_silent. intros t. destruct (armed t) eqn:E; cbn; rewrite ?E; repeat split. Qed.
Lemma hoare_segments segs : hoare running (each (append_segment flush_fails) segs) running running.
Proof. apply hoare_each. intros [x|x] _; [apply hoare_appendThinking|apply hoare_appendText]. Qed.
Lemma hoare_emit_reasoning delta : hoare running (emit_reasoning flush_fails delta) running running.
Proof.
  unfold emit_reasoning. apply hoare_when; [|auto]. eapply hoare_pre; [intros p t [R _]; exact R|].
  eapply hoare_seq; [apply hoare_output_here|]. eapply hoare_seq; [apply hoare_progress|apply hoare_appendThinking].
Qed.
Lemma hoare_emit_content delta : hoare running (emit_content cfg flush_fails delta) running running.
Proof.
  unfold emit_content. apply hoare_when; [|auto]. eapply hoare_pre; [intros p t [R _]; exact R|].
  eapply hoare_seq; [apply hoare_output_here|]. eapply hoare_seq; [apply hoare_progress|].
  destruct (thinkTagReasoning cfg); [|apply hoare_appendText]. apply hoare_reading. intros s. destruct (Feed s _) as [s' segs].
  eapply hoare_pre; [intros p t [R _]; exact R|]. eapply hoare_seq; [|apply hoare_segments].
  apply hoare_silent. intros t. repeat split.
Qed.
Lemma hoare_buffer_args block args (ε : assertion) : hoare running (buffer_args block args) running ε.
Proof.
  unfold buffer_args. apply hoare_when; [|auto]. eapply hoare_pre; [intros p t [R _]; exact R|]. apply hoare_silent. intros t. repeat split.
Qed.

(** A tool block opened at the next index, before its event is sent. *)
Lemma opened_tool p t c : running p t -> no_block t -> t.(toolBlocks) !! c = None ->
  running {| p_started := true; p_phase := Body; p_next := t.(blockIdx) + 1;
             p_open := <[t.(blockIdx) := KTool false]> p.(p_open); p_tool := (p.(p_tool) || true)%bool |}
          (t <| toolBlocks ::= insert c t.(blockIdx) |> <| toolUseEmitted := true |> <| blockIdx ::= Z.add 1 |>).
Proof.
  intros [I S] [N1 N2] C. destruct I as [I1 I2 I3 I4 I5 [W1 W2 W3] I7 I8].
  split; [|exact S]. split; cbn; try assumption; try congruence; try lia.
    
  - intros i k. rewrite lookup_insert_Some, I5. unfold is_open_block. cbn. rewrite N1, N2. split.
    + intros [[<- <-]|[N [(X & _)|[(X & _)|(-> & d & X)]]]]; try discriminate X.
      * right. right. split; [reflexivity|]. exists c. apply lookup_insert_eq.
      * right. right. split; [reflexivity|]. exists d. rewrite lookup_insert_ne by congruence. exact X.
    + intros [(X & _)|[(X & _)|(-> & d & X)]]; try discriminate X. apply lookup_insert_Some in X as [[-> <-]|[N X]]; [auto|].
      right. split; [destruct (W2 d i X); lia|]. right. right. split; [reflexivity|]. exists d. exact X.
  - split; cbn; rewrite ?N1, ?N2; [discriminate| |].
    + intros d i X. split; [|intros [Y|Y]; discriminate Y]. apply lookup_insert_Some in X as [[-> <-]|[N X]]; [lia|]. destruct (W2 d i X). lia.
    + intros d e i X Y. apply lookup_insert_Some in X as [[-> <-]|[N X]], Y as [[-> Y]|[M Y]]; try congruence.
      * destruct (W2 e _ Y). lia.
      * subst. destruct (W2 d _ X). lia.
      * exact (W3 d e i X Y).
Qed.
Definition opening (i : Z) : assertion := fun p t => exists p', open_block i (KTool false) p = Some p' /\ running p' t.
Lemma hoare_start_tool i id name sig (ε : assertion) : hoare (opening i) (emitContentBlockStartTool cfg flush_fails i id name sig) running ε.
Proof.
  unfold emitContentBlockStartTool. eapply hoare_seq with (χ := opening i).
  - apply hoare_upd; [intros t; split; reflexivity|]. intros p t (p' & O & I & S). exists p'. split; [exact O|].
    split; [revert I; apply in_body_silent; reflexivity|exact S].
  - apply hoare_reading. intros n. apply hoare_emit. intros p t ((p' & O & I & S) & _). exists p'. split; [exact O|].
    intros t' ->. split; [apply (in_body_emit p' _ t I)|exact S].
Qed.
Lemma hoare_open_tool idx tc entry (ε : assertion) :
  hoare (fun p t => running p t /\ t.(toolBlocks) !! idx = None) (open_tool cfg flush_fails idx tc entry) running ε.
Proof.
  unfold open_tool. eapply hoare_seq with (χ := fun p t => (running p t /\ t.(textOpen) = false) /\ t.(toolBlocks) !! idx = None).
  { apply (hoare_frame (fun t => t.(toolBlocks) !! idx)); [unfold stop_text; auto with preserves|apply hoare_stop_text]. }
  eapply hoare_seq with (χ := fun p t => ((running p t /\ t.(thinkingOpen) = false) /\ t.(textOpen) = false) /\ t.(toolBlocks) !! idx = None).
  { apply (hoare_frame (fun t => t.(toolBlocks) !! idx)); [unfold stop_thinking; auto with preserves|].
    apply (hoare_frame textOpen); [unfold stop_thinking; auto with preserves|apply hoare_stop_thinking]. }
  apply hoare_reading. intros block. eapply hoare_seq with (χ := opening block).
  - apply hoare_upd; [intros t; split; reflexivity|]. intros p t ((((R & N2) & N1) & C) & <-).
    pose proof (opened_tool p t idx R (conj N1 N2) C) as [I S].
    eexists. split; [apply (open_accepted p t); [exact R|reflexivity]|].
    split; [revert I; apply in_body_silent; reflexivity|exact S].
  - eapply hoare_seq; [apply hoare_start_tool|apply hoare_buffer_args].
Qed.
Lemma hoare_emit_tool_call tc : hoare running (emit_tool_call cfg flush_fails tc) running running.
Proof.
  unfold emit_tool_call. eapply hoare_seq; [apply hoare_output_here|]. apply hoare_reading. intros t0.
  destruct (bool_decide _); [eapply hoare_pre; [intros p t [R _]; exact R|apply hoare_skip]|].
  destruct (toolBlocks t0 !! _) as [block|] eqn:B; [eapply hoare_pre; [intros p t [R _]; exact R|apply hoare_buffer_args]|].
  destruct (Upsert _ _ _ _) as [entry ledger].
  eapply hoare_seq with (χ := fun p t => running p t /\ t.(toolBlocks) !! IntOf (GetPath tc "index") = None).
  - apply hoare_upd; [intros t; split; reflexivity|]. intros p t [[I S] E]. unfold id in E. subst t0.
    split; [split; [revert I; apply in_body_silent; reflexivity|exact S]|exact B].
  - destruct (String.eqb _ _); [|apply hoare_open_tool]. eapply hoare_pre; [intros p t [R _]; exact R|].
    apply hoare_silent. intros t. repeat split.
Qed.
Lemma hoare_emitDelta delta : hoare running (emitDelta cfg flush_fails delta) running running.
Proof.
  unfold emitDelta. eapply hoare_seq; [apply hoare_emit_reasoning|]. eapply hoare_seq; [apply hoare_emit_content|].
  unfold emit_tool_calls. apply hoare_when; [|auto]. eapply hoare_pre; [intros p t [R _]; exact R|].
  eapply hoare_seq; [apply hoare_progress|]. apply hoare_each. intros tc _. apply hoare_emit_tool_call.
Qed.

(** *** The start of the message *)

Lemma hoare_marker (ε : assertion) :
  hoare (fun p t => running p t /\ no_block t) (emitRoutingMarkerIfConfigured cfg flush_fails) running ε.
Proof.
  unfold emitRoutingMarkerIfConfigured. apply hoare_when; [|intros p t [R _] _; exact R].
  set (moved := fun t : Tr => t <| blockIdx ::= Z.add 1 |> <| markerEmitted := true |>).
  eapply hoare_seq with (χ := fun p t => running p (moved t)).
  2:{ apply hoare_upd; [intros t; split; reflexivity|]. intros p t R. exact R. }
  apply hoare_reading. intros b. set (text_open := fun t : Tr => moved t <| textOpen := true |>).
  assert (TH : forall p t, running p (text_open t) -> is_open_block (text_open t) t.(blockIdx) KText).
  { intros p t _. left. cbn. repeat split. lia. }
  eapply hoare_seq with (χ := fun p t => (running p (text_open t) /\ no_block t) /\ t.(blockIdx) = b).
  { apply hoare_emit. intros p t (([R N] & _) & E). pose proof (opened_block p t false R N) as [I S].
    eexists. split; [apply (open_accepted p t b KText R); symmetry; exact E|]. intros t' ->. split; [split; [|exact N]|exact E].
    split; [|exact S]. subst b. revert I. apply in_body_silent; try reflexivity. cbn. apply N. }
  eapply hoare_seq with (χ := fun p t => (running p (text_open t) /\ no_block t) /\ t.(blockIdx) = b).
  { apply hoare_emit. intros p t ((R & N) & <-). exists p. split.
    - destruct R as [I S]. apply (delta_accepted p (text_open t)); [exact I|apply (TH p); split; assumption|exact Logic.I].
    - intros t' ->. split; [split; [|exact N]|reflexivity]. destruct R as [I S]. split; [revert I; apply in_body_silent; reflexivity|exact S]. }
  apply hoare_emit. intros p t ((R & N) & <-). destruct R as [I S]. eexists. split.
  - apply (stop_accepted p (text_open t)); [exact I|]. exists KText. apply (ib_open _ _ I). apply (TH p). split; assumption.
  - intros t' ->. pose proof (open_stopped p (text_open t) I (or_introl eq_refl)) as J. split; [|exact S].
    replace (blockIdx (text_open t) - 1) with (blockIdx t) in J by (cbn; lia). revert J. apply in_body_silent; try reflexivity.
    + cbn. apply N.
    + cbn. apply N.
Qed.
Lemma hoare_start_message (ε : assertion) :
  hoare (fun p t => in_body p t /\ t.(started) = false) (start_message cfg flush_fails) running ε.
Proof.
  unfold start_message. eapply hoare_seq with (χ := fun p t => in_body p (t <| started := true |>) /\ no_block t).
  - unfold emitMessageStart. eapply hoare_seq with (χ := fun p t => in_body p t /\ t.(started) = false).
    + apply hoare_upd; [intros t; split; reflexivity|]. intros p t [I S]. split; [revert I; apply in_body_silent; reflexivity|exact S].
    + apply hoare_reading. intros t0. apply hoare_emit. intros p t ([I S] & _). exists (p <| p_started := true |>). split.
      * cbn. rewrite (bool_decide_eq_true_2 _ (ib_phase _ _ I)), (ib_started _ _ I), S. reflexivity.
      * intros t' ->. destruct (ib_idle _ _ I S) as (N1 & N2 & N3). split; [|split; assumption].
        destruct I as [I1 I2 I3 I4 I5 [W1 W2 W3] I7 I8]. split; try assumption; [reflexivity|split; assumption|discriminate].
  - eapply hoare_seq; [|apply hoare_marker]. apply hoare_upd; [intros t; split; reflexivity|]. intros p t [I N].
    split; [split; [exact I|reflexivity]|exact N].
Qed.

(** *** One chunk *)

Lemma hoare_silent_body f (ε : assertion) : silent f -> hoare in_body (upd f) in_body ε.
Proof.
  intros F. apply hoare_upd; [intros t; destruct (F t) as (A & B & _); auto|].
  intros p t I. destruct (F t) as (A1 & A2 & A3 & A4 & A5 & A6 & A7 & A8 & A9). revert I; apply in_body_silent; assumption.
Qed.
Lemma running_body p t : running p t -> in_body p t.
Proof. intros [I _]. exact I. Qed.
Lemma hoare_usage data (ε : assertion) : hoare in_body (extractAndForwardUsage cfg data) in_body ε.
Proof.
  unfold extractAndForwardUsage. apply hoare_when; [|auto]. eapply hoare_pre; [intros p t [I _]; exact I|].
  destruct (OpenAICacheTokens _) as [a b]. apply hoare_silent_body. intros t. repeat split.
Qed.
Lemma hoare_chunk data : hoare in_body (translate_chunk cfg flush_fails data) in_body in_body.
Proof.
  unfold translate_chunk. eapply hoare_seq; [apply hoare_silent_body; intros t; repeat split|].
  destruct (_ || _)%bool; [apply hoare_usage|].
  eapply hoare_seq with (χ := running); [|eapply hoare_seq with (χ := running); [|eapply hoare_seq with (χ := in_body); [|apply hoare_usage]]].
  - apply hoare_when; [|intros p t I X; apply negb_false_iff in X; split; assumption].
    eapply hoare_seq with (χ := fun p t => in_body p t /\ t.(started) = false); [|apply hoare_start_message].
    apply hoare_lifecycle. intros p t [I X]. apply negb_true_iff in X.
    destruct (Start (lifecycle t)); [split; [revert I; apply in_body_silent; reflexivity|exact X]|exact I].
  - apply hoare_when; [|auto]. eapply hoare_pre; [intros p t [R _]; exact R|].
    eapply hoare_err; [apply running_body|apply hoare_emitDelta].
  - apply hoare_when; [|intros p t R _; apply running_body, R]. eapply hoare_pre; [intros p t [R _]; apply running_body, R|].
    eapply hoare_seq; [apply hoare_silent_body; intros t; repeat split|].
    eapply hoare_seq with (χ := in_body).
    + apply hoare_lifecycle. intros p t I. destruct (Terminal (lifecycle t)); [revert I; apply in_body_silent; reflexivity|exact I].
    + apply hoare_silent_body. intros t. destruct (armed t) eqn:E; cbn; rewrite ?E; repeat split.
Qed.

(** *** The end of the message *)

Record quiet (p : Proto) (t : Tr) : Prop := {
  qt_phase : p.(p_phase) = Body;
  qt_pstarted : p.(p_started) = true;
  qt_started : t.(started) = true;
  qt_next : p.(p_next) = t.(blockIdx);
  qt_tool : p.(p_tool) = t.(toolUseEmitted)
}.
(** The tool blocks still to finish. *)
Definition tools_left (l : list (Z * Z)) : assertion := fun p t =>
  quiet p t /\ NoDup l.*2 /\ forall i k, p.(p_open) !! i = Some k <-> k = KTool false /\ i ∈ l.*2.
Lemma hoare_check_args block : forall (ε : assertion) l c,
  hoare (tools_left ((c, block) :: l)) (emitValidatedToolArgsDelta toolValidator flush_fails block)
    (fun p t => quiet p t /\ is_Some (p.(p_open) !! block) /\ tools_left l (p <| p_open ::= delete block |>) t) ε.
Proof.
  intros ε l c. unfold emitValidatedToolArgsDelta. apply hoare_reading. intros t0.
  assert (G : forall p t, tools_left ((c, block) :: l) p t ->
    quiet p t /\ p.(p_open) !! block = Some (KTool false) /\ tools_left l (p <| p_open ::= delete block |>) t).
  { intros p t ([Q1 Q2 Q3 Q4 Q5] & ND & O). cbn in ND. apply NoDup_cons in ND as [NI ND].
    split; [split; assumption|]. split; [apply O; split; [reflexivity|left]|]. split; [split; assumption|]. split; [exact ND|].
    intros i k. cbn. rewrite lookup_delete_Some, O. cbn. rewrite elem_of_cons. split.
    - intros (N & -> & [E|E]); [congruence|auto].
    - intros [-> E]. split; [intros ->; contradiction|]. auto. }
  assert (Gs : forall p t, tools_left ((c, block) :: l) p t -> quiet p t /\ is_Some (p.(p_open) !! block) /\ tools_left l (p <| p_open ::= delete block |>) t).
  { intros p t T. destruct (G p t T) as (A & B & C). split; [exact A|]. split; [eexists; exact B|exact C]. }
  destruct (toolArgsBuffer t0 !! block) as [payload|]; [|eapply hoare_pre; [intros p t [T _]; exact (Gs p t T)|apply hoare_skip]].
  destruct (String.eqb payload ""); [eapply hoare_pre; [intros p t [T _]; exact (Gs p t T)|apply hoare_skip]|].
  eapply hoare_seq with (χ := tools_left ((c, block) :: l)).
  - apply hoare_upd.
    + intros t. destruct (Issue_ _) as [i|]; [|split; reflexivity]. destruct (Bucket_ i), (Repaired i); split; reflexivity.
    + intros p t [(Q & R) _]. split; [|exact R]. destruct Q as [Q1 Q2 Q3 Q4 Q5].
      destruct (Issue_ _) as [i|]; [|split; assumption]. destruct (Bucket_ i), (Repaired i); split; assumption.
  - apply hoare_emit. intros p t T. destruct (G p t T) as ([Q1 Q2 Q3 Q4 Q5] & B & C). eexists. split.
    + cbn [accepts]. unfold delta_block. rewrite (bool_decide_eq_true_2 _ Q1), (bool_decide_eq_true_2 _ B). reflexivity.
    + intros t' ->. split; [split; assumption|]. split; [exists (KTool true); apply lookup_insert_eq|].
      destruct C as ([C1 C2 C3 C4 C5] & ND & O). split; [split; assumption|]. split; [exact ND|].
      intros i k. cbn. rewrite delete_insert_eq. apply O.
Qed.
Lemma hoare_finish_tools (ε : assertion) l : hoare (tools_left l) (each (finish_tool toolValidator flush_fails) l) (tools_left []) ε.
Proof.
  induction l as [|[c block] l IH]; [apply hoare_skip|]. cbn [each]. eapply hoare_seq; [|exact IH].
  unfold finish_tool. cbn [snd]. eapply hoare_seq; [apply hoare_check_args|].
  apply hoare_emit. intros p t (Q & S & T). eexists. split.
  - cbn [accepts]. rewrite (bool_decide_eq_true_2 _ (qt_phase _ _ Q)), (bool_decide_eq_true_2 _ S). reflexivity.
  - intros t' ->. destruct T as ([C1 C2 C3 C4 C5] & R). split; [split; assumption|exact R].
Qed.
Definition ready (p : Proto) (t : Tr) : Prop := quiet p t /\ p.(p_open) = ∅.
Lemma hoare_tools (ε : assertion) :
  hoare (fun p t => running p t /\ no_block t)
    (reading toolBlocks (fun m => each (finish_tool toolValidator flush_fails) (map_range m)) >>> upd (fun t => t <| toolBlocks := ∅ |>)) ready ε.
Proof.
  eapply hoare_seq with (χ := tools_left []).
  - apply hoare_reading. intros m. eapply hoare_pre; [|apply hoare_finish_tools]. intros p t ([R [N1 N2]] & <-).
    destruct R as [I S]. split; [|split].
    + split; [exact (ib_phase _ _ I)|rewrite (ib_started _ _ I); exact S|exact S|exact (ib_next _ _ I)|exact (ib_tool _ _ I)].
    + rewrite map_range_ok. apply NoDup_fmap_2_strong; [|apply NoDup_map_to_list].
      intros [c i] [d j] Hc Hd. cbn. intros <-. apply elem_of_map_to_list in Hc, Hd.
      rewrite (wf_inj _ (ib_wf _ _ I) c d i Hc Hd). reflexivity.
    + intros i k. rewrite (ib_open _ _ I). unfold is_open_block. rewrite N1, N2, map_range_ok, list_elem_of_fmap. split.
      * intros [(X & _)|[(X & _)|(-> & c & X)]]; try discriminate X. split; [reflexivity|].
        exists (c, i). split; [reflexivity|]. apply elem_of_map_to_list, X.
      * intros (-> & [c j] & E & X). cbn in E. subst j. apply elem_of_map_to_list in X. right. right. split; [reflexivity|]. exists c. exact X.
  - apply hoare_upd; [intros t; split; reflexivity|]. intros p t ([C1 C2 C3 C4 C5] & _ & O). split; [split; assumption|].
    apply map_eq. intros i. rewrite lookup_empty. destruct (p_open p !! i) eqn:E; [|reflexivity]. apply O in E as [_ E].
    apply elem_of_nil in E. destruct E.
Qed.

Definition over (p : Proto) (t : Tr) : Prop := p.(p_phase) = Over /\ t.(started) = true /\ t.(closed) = true.
Lemma hoare_nudge (ε : assertion) : hoare ready (synthesizeTextOnlyTurnNudge cfg flush_fails) ready ε.
Proof.
  unfold synthesizeTextOnlyTurnNudge. apply hoare_when; [|auto].
  set (moved := fun t : Tr => t <| blockIdx ::= Z.add 1 |> <| toolUseEmitted := true |>).
  assert (MV : forall p t, quiet p (moved t) -> quiet p (t <| blockIdx ::= Z.add 1 |> <| toolUseEmitted := true |> <| toolUseCount ::= Z.add 1 |> <| nudgeEmitted := true |>)).
  { intros p t [Q1 Q2 Q3 Q4 Q5]. split; assumption. }
  eapply hoare_seq with (χ := fun p t => quiet p (moved t) /\ p.(p_open) = ∅).
  2:{ apply hoare_upd; [intros t; split; reflexivity|]. intros p t [Q O]. split; [apply MV, Q|exact O]. }
  apply hoare_reading. intros t0. unfold id.
  eapply hoare_seq with (χ := fun p t => quiet p (moved t) /\ p.(p_open) = {[ t0.(blockIdx) := KTool false ]}).
  - unfold emitContentBlockStartTool. eapply hoare_seq with (χ := fun p t => ready p t /\ t.(blockIdx) = t0.(blockIdx)).
    + apply hoare_upd; [intros t; split; reflexivity|]. intros p t [[[[Q1 Q2 Q3 Q4 Q5] O] _] E]. rewrite <- E. split; [split; [split; assumption|exact O]|reflexivity].
    + apply hoare_reading. intros n. apply hoare_emit. intros p t ((([Q1 Q2 Q3 Q4 Q5] & O) & E) & _). eexists. split.
      * cbn [accepts]. unfold open_block. rewrite (bool_decide_eq_true_2 _ Q1), Q2, Q4, E, Z.eqb_refl. reflexivity.
      * intros t' ->. split; [split; cbn; try assumption; try reflexivity; [lia|apply orb_true_r]|]. cbn. rewrite O. reflexivity.
  - eapply hoare_seq with (χ := fun p t => quiet p (moved t) /\ p.(p_open) = {[ t0.(blockIdx) := KTool true ]}).
    + apply hoare_emit. intros p t ([Q1 Q2 Q3 Q4 Q5] & O). eexists. split.
      * cbn [accepts]. unfold delta_block. rewrite (bool_decide_eq_true_2 _ Q1), O, lookup_singleton_eq. reflexivity.
      * intros t' ->. split; [split; assumption|]. cbn. rewrite O. apply insert_singleton_eq.
    + apply hoare_emit. intros p t ([Q1 Q2 Q3 Q4 Q5] & O). eexists. split.
      * cbn [accepts]. rewrite (bool_decide_eq_true_2 _ Q1), O, lookup_singleton_eq. reflexivity.
      * intros t' ->. split; [split; assumption|]. cbn. rewrite O. apply delete_singleton_eq.
Qed.
Lemma stop_reason_tool t :
  String.eqb (if t.(toolUseEmitted) then "tool_use"
              else if (negb t.(toolUseEmitted) && String.eqb (openAIFinishToAnthropic t.(finishReason)) "tool_use")%bool then "end_turn"
              else openAIFinishToAnthropic t.(finishReason)) "tool_use" = t.(toolUseEmitted).
Proof.
  destruct (toolUseEmitted t); [reflexivity|]. cbn [negb andb].
  destruct (String.eqb (openAIFinishToAnthropic (finishReason t)) "tool_use") eqn:E; [reflexivity|exact E].
Qed.
Lemma hoare_close (ε : assertion) :
  hoare ready (emitMessageDelta flush_fails >>> emit MessageStop >>> upd (fun t => t <| closed := true |>)) over ε.
Proof.
  eapply hoare_seq with (χ := fun p t => p.(p_phase) = Delivered /\ t.(started) = true).
  - unfold emitMessageDelta. apply hoare_reading. intros t0. unfold id. cbv zeta.
    eapply hoare_seq with (χ := fun p t => ready p t /\ t.(toolUseEmitted) = t0.(toolUseEmitted)).
    + apply hoare_upd; [intros t; split; reflexivity|]. intros p t (([Q1 Q2 Q3 Q4 Q5] & O) & E). rewrite <- E. split; [split; [split; assumption|exact O]|reflexivity].
    + apply hoare_emit. intros p t [[[Q1 Q2 Q3 Q4 Q5] O] E]. eexists. split.
      * cbn [accepts]. rewrite (bool_decide_eq_true_2 _ Q1), Q2, (bool_decide_eq_true_2 _ O), stop_reason_tool, Q5, E, eqb_reflx. reflexivity.
      * intros t' ->. split; [reflexivity|exact Q3].
  - eapply hoare_seq with (χ := fun p t => p.(p_phase) = Over /\ t.(started) = true).
    + apply hoare_emit. intros p t [P S]. eexists. split; [cbn [accepts]; rewrite (bool_decide_eq_true_2 _ P); reflexivity|].
      intros t' ->. split; [reflexivity|exact S].
    + apply hoare_upd; [intros t; split; reflexivity|]. intros p t [P S]. repeat split; assumption.
Qed.
Lemma hoare_error_event (ε : assertion) :
  hoare ready (emitErrorEvent flush_fails >>> upd (fun t => t <| closed := true |>)) over ε.
Proof.
  eapply hoare_seq with (χ := fun p t => p.(p_phase) = Over /\ t.(started) = true).
  - apply hoare_reading. intros t0. apply hoare_emit. intros p t (([Q1 Q2 Q3 Q4 Q5] & O) & _). eexists. split.
    + cbn [accepts]. rewrite (bool_decide_eq_true_2 _ Q1). reflexivity.
    + intros t' ->. split; [reflexivity|exact Q3].
  - apply hoare_upd; [intros t; split; reflexivity|]. intros p t [P S]. repeat split; assumption.
Qed.
Lemma hoare_finishStream : hoare in_body (finishStream cfg toolValidator flush_fails map_range) over in_body.
Proof.
  unfold finishStream. eapply hoare_seq with (χ := running).
  { apply hoare_when; [|intros p t I X; apply negb_false_iff in X; split; assumption].
    eapply hoare_pre; [|apply hoare_start_message]. intros p t [I X]. apply negb_true_iff in X. split; assumption. }
  eapply hoare_seq with (χ := running).
  { apply hoare_when; [|auto]. apply hoare_reading. intros s. destruct (splitter_Flush s) as [s' segs].
    eapply hoare_pre; [intros p t [[R _] _]; exact R|]. eapply hoare_seq; [apply hoare_silent; intros t; repeat split|].
    eapply hoare_err; [apply running_body|apply hoare_segments]. }
  eapply hoare_seq; [apply hoare_stop_text|].
  eapply hoare_seq with (χ := fun p t => running p t /\ no_block t).
  { eapply hoare_post; [|apply (hoare_frame textOpen running (fun p t => running p t /\ thinkingOpen t = false))].
    - intros p t [[R T] X]. split; [exact R|split; assumption].
    - unfold stop_thinking. auto with preserves.
    - apply hoare_stop_thinking. }
  apply hoare_assoc. eapply hoare_seq; [apply hoare_tools|]. apply hoare_reading. intros status.
  eapply hoare_pre; [intros p t [R _]; exact R|]. destruct (negb _); [apply hoare_error_event|].
  eapply hoare_seq; [apply hoare_nudge|apply hoare_close].
Qed.

(** *** After the end *)

(** A stream that has ended: nothing but a second end marker writes to it. *)
Definition ended (t : Tr) : Prop := t.(started) = true /\ t.(lifecycle).(lc_state) = StreamTerminal.
Definition same (t t' : Tr) : Prop := out t' = out t /\ dead t' = dead t /\ closed t' = closed t.
Definition leaves (a : act) : Prop := forall t, ended t -> same t (a t).1 /\ ended (a t).1.
Lemma leaves_upd f : (forall t, same t (f t) /\ started (f t) = started t /\ lifecycle (f t) = lifecycle t) -> leaves (upd f).
Proof. intros F t [S L]. destruct (F t) as (A & B & C). cbn. split; [exact A|]. split; congruence. Qed.
Lemma same_refl t : same t t.
Proof. repeat split. Qed.
Lemma leaves_seq a b : leaves a -> leaves b -> leaves (a >>> b).
Proof.
  intros A B t E. destruct (A t E) as [A1 A2]. unfold and_then. destruct (a t) as [t' [e|]]; [split; assumption|].
  cbn [fst] in *. destruct (B t' A2) as [B1 B2]. split; [|exact B2].
  destruct A1 as (?&?&?), B1 as (?&?&?). repeat split; congruence.
Qed.
Lemma leaves_when c a : leaves a -> leaves (when c a).
Proof. intros A t E. unfold when. destruct (c t); [apply A, E|split; [apply same_refl|exact E]]. Qed.
Lemma leaves_refused a : leaves (output_here >>> a).
Proof.
  intros t [S L]. unfold and_then, output_here, reading, on_lifecycle, Output. rewrite L.
  rewrite decide_False by discriminate. split; [apply same_refl|split; assumption].
Qed.
Lemma leaves_chunk data : leaves (translate_chunk cfg flush_fails data).
Proof.
  unfold translate_chunk. apply leaves_seq; [apply leaves_upd; intros t; repeat split|].
  assert (U : leaves (extractAndForwardUsage cfg data)).
  { unfold extractAndForwardUsage. apply leaves_when. destruct (OpenAICacheTokens _). apply leaves_upd. intros t. repeat split. }
  destruct (_ || _)%bool; [exact U|].
  apply leaves_seq; [intros t [S L]; unfold when; rewrite S; split; [apply same_refl|split; assumption]|].
  apply leaves_seq; [|apply leaves_seq; [|exact U]].
  - apply leaves_when. unfold emitDelta, emit_reasoning, emit_content, emit_tool_calls.
    apply leaves_seq; [apply leaves_when, leaves_refused|]. apply leaves_seq; [apply leaves_when, leaves_refused|]. apply leaves_when.
    apply leaves_seq; [apply leaves_upd; intros t; destruct (armed t); repeat split|].
    destruct (elements _) as [|tc l]; [intros t E; split; [apply same_refl|exact E]|]. cbn [each].
    intros t E. assert (X : emit_tool_call cfg flush_fails tc t = (t, Some (LifecycleError ErrStreamOrder))).
    { destruct E as [S L]. unfold emit_tool_call, and_then, output_here, reading, on_lifecycle, Output. rewrite L.
      rewrite decide_False by discriminate. reflexivity. }
    unfold and_then. rewrite X. split; [apply same_refl|exact E].
  - apply leaves_when. apply leaves_seq; [apply leaves_upd; intros t; repeat split|]. intros t [S L].
    unfold and_then, on_lifecycle, Terminal, leave. rewrite L, decide_False by discriminate. split; [apply same_refl|split; assumption].
Qed.

(** *** The whole stream *)

Notation event := (translateOpenAIEvent cfg toolValidator flush_fails map_range).
Notation finish := (finishStream cfg toolValidator flush_fails map_range).

(** A relation that every update of the translator's own bookkeeping and every write is in, is kept by the appending of text. *)
Section Coarse.
Context (R : Tr -> Tr -> Prop) `{!PreOrder R}.
Hypothesis R_upd : forall t t', out t' = out t -> dead t' = dead t -> upstreamErrorStatus t' = upstreamErrorStatus t ->
  lifecycle t' = lifecycle t -> R t t'.
Hypothesis R_emit : forall e, preserves R (emit e).
Local Hint Resolve R_emit : preserves.
Local Hint Extern 1 (preserves R (upd _)) => intros ?; apply R_upd; reflexivity : preserves.
Lemma preserves_appendText text : preserves R (appendText flush_fails text).
Proof.
  intros t. unfold appendText. destruct (_ && _)%bool; [apply R_upd; reflexivity|].
  revert t. match goal with |- forall t, R t (?a t).1 => change (preserves R a) end. unfold stop_thinking. auto 12 with preserves.
Qed.
End Coarse.

(** A relation that the appending of text, every write and every other update of the translator's own bookkeeping is in, is preserved. *)
Section Preserved.
Context (R : Tr -> Tr -> Prop) `{!PreOrder R}.
Hypothesis R_upd : forall t t', out t' = out t -> dead t' = dead t -> upstreamErrorStatus t' = upstreamErrorStatus t ->
  lifecycle t' = lifecycle t -> pendingText t' = pendingText t -> (textOpen t' = true -> textOpen t = true) -> R t t'.
Hypothesis R_emit : forall e, preserves R (emit e).
Hypothesis R_appendText : forall text, preserves R (appendText flush_fails text).
Local Ltac own := intros ?; apply R_upd; [reflexivity..|let O := fresh in intros O; first [exact O|discriminate O]].
Local Hint Resolve R_emit R_appendText : preserves.
Local Hint Extern 1 (preserves R (upd _)) => own : preserves.
Lemma preserves_progress : preserves R mark_progress.
Proof. intros t. apply R_upd; cbn; destruct (armed t); first [reflexivity|exact (fun O => O)]. Qed.
Local Hint Resolve preserves_progress : preserves.

Lemma preserves_appendThinking text : preserves R (appendThinking flush_fails text).
Proof. unfold appendThinking, stop_text. auto 12 with preserves. Qed.
Lemma preserves_segments segs : preserves R (each (append_segment flush_fails) segs).
Proof. apply preserves_each; [exact _|]. intros [x|x]; [apply preserves_appendThinking|apply R_appendText]. Qed.
Lemma preserves_start_message : preserves R (start_message cfg flush_fails).
Proof. unfold start_message, emitMessageStart, emitRoutingMarkerIfConfigured. auto 12 with preserves. Qed.
Lemma preserves_args block : preserves R (emitValidatedToolArgsDelta toolValidator flush_fails block).
Proof.
  unfold emitValidatedToolArgsDelta. apply preserves_reading. intros t0. destruct (_ !! _); [|auto with preserves].
  destruct (String.eqb _ _); [auto with preserves|]. apply preserves_seq; [exact _| |auto with preserves].
  intros t. cbn. destruct (Issue_ _) as [i|]; [|reflexivity]. destruct (Bucket_ i), (Repaired i); apply R_upd; first [reflexivity|exact (fun O => O)].
Qed.
Local Hint Resolve preserves_appendThinking preserves_segments preserves_start_message preserves_args : preserves.
Lemma preserves_finish : preserves R finish.
Proof.
  assert (F : preserves R (reading splitter (fun s => let '(s', segs) := splitter_Flush s in
                upd (fun t => t <| splitter := s' |>) >>> each (append_segment flush_fails) segs))).
  { apply preserves_reading. intros s. destruct (splitter_Flush s). auto with preserves. }
  assert (N : preserves R (synthesizeTextOnlyTurnNudge cfg flush_fails >>> emitMessageDelta flush_fails >>> emit MessageStop >>> upd (fun t => t <| closed := true |>))).
  { unfold synthesizeTextOnlyTurnNudge, emitContentBlockStartTool, emitMessageDelta, id. cbv zeta. auto 14 with preserves. }
  unfold finishStream, stop_text, stop_thinking. unfold finish_tool.
  apply preserves_seq; [exact _|auto with preserves|]. apply preserves_seq; [exact _|auto with preserves|].
  do 4 (apply preserves_seq; [exact _|auto 12 with preserves|]). apply preserves_reading. intros st.
  destruct (negb _); [|exact N]. unfold emitErrorEvent. auto 12 with preserves.
Qed.
Hypothesis R_lifecycle : forall f, preserves R (on_lifecycle f).
Local Hint Resolve R_lifecycle : preserves.
Lemma preserves_tool_call tc : preserves R (emit_tool_call cfg flush_fails tc).
Proof.
  unfold emit_tool_call, output_here. apply preserves_seq; [exact _|auto with preserves|]. apply preserves_reading. intros t0. unfold id.
  destruct (bool_decide _); [auto with preserves|]. unfold buffer_args. destruct (_ !! _); [auto with preserves|].
  destruct (Upsert _ _ _ _) as [en l]. apply preserves_seq; [exact _|auto with preserves|]. destruct (String.eqb _ _); [auto with preserves|].
  unfold open_tool, stop_text, stop_thinking, emitContentBlockStartTool, buffer_args. cbv zeta. auto 14 with preserves.
Qed.
Lemma preserves_chunk data : preserves R (translate_chunk cfg flush_fails data).
Proof.
  assert (U : preserves R (extractAndForwardUsage cfg data)).
  { unfold extractAndForwardUsage. destruct (OpenAICacheTokens _). auto with preserves. }
  assert (D : forall delta, preserves R (emitDelta cfg flush_fails delta)).
  { intros delta. unfold emitDelta, emit_reasoning, emit_content, emit_tool_calls, output_here.
    apply preserves_seq; [exact _|auto 12 with preserves|]. apply preserves_seq; [exact _| |].
    - apply preserves_when; [exact _|]. do 2 (apply preserves_seq; [exact _|auto with preserves|]).
      destruct (thinkTagReasoning cfg); [|auto with preserves]. apply preserves_reading. intros s. destruct (Feed s _). auto with preserves.
    - apply preserves_when; [exact _|]. apply preserves_seq; [exact _|auto with preserves|]. apply preserves_each; [exact _|apply preserves_tool_call]. }
  unfold translate_chunk. cbv zeta. apply preserves_seq; [exact _|auto with preserves|]. destruct (_ || _)%bool; [exact U|].
  auto 12 with preserves.
Qed.
Lemma preserves_event e : preserves R (event e).
Proof.
  unfold translateOpenAIEvent. destruct (String.eqb _ ""); [auto with preserves|]. destruct (is_done e); [|apply preserves_chunk].
  unfold translate_done. apply preserves_seq; [exact _|auto with preserves|]. apply preserves_seq; [exact _| |apply preserves_finish].
  apply preserves_reading. intros l. destruct (bool_decide _); [auto with preserves|]. destruct (bool_decide _); [intros t; reflexivity|auto with preserves].
Qed.
End Preserved.

(** Nothing reaches a dead connection, and no event changes the status of the upstream. *)
Definition muted (t t' : Tr) : Prop := dead t = true -> out t' = out t /\ dead t' = true.
#[local] Instance muted_preorder : PreOrder muted.
Proof.
  split; [intros t D; split; [reflexivity|exact D]|]. intros t u v A B D. destruct (A D) as [A1 A2], (B A2) as [B1 B2].
  split; [congruence|exact B2].
Qed.
Lemma muted_upd t t' : out t' = out t -> dead t' = dead t -> upstreamErrorStatus t' = upstreamErrorStatus t ->
  lifecycle t' = lifecycle t -> muted t t'.
Proof. intros O D _ _ X. split; congruence. Qed.
Lemma muted_lifecycle f : preserves muted (on_lifecycle f).
Proof. intros t D. unfold on_lifecycle. destruct (f (lifecycle t)); (split; [reflexivity|exact D]). Qed.
Lemma muted_emit e : preserves muted (emit e).
Proof. intros t D. unfold StreamState.emit. rewrite D. split; [reflexivity|exact D]. Qed.
Lemma mute_event e : preserves muted (event e).
Proof. apply preserves_event; [exact _|auto using muted_upd|exact muted_emit|apply preserves_appendText; auto using muted_upd, muted_emit with typeclass_instances|exact muted_lifecycle]. Qed.
Lemma mute_finish : preserves muted finish.
Proof. apply preserves_finish; [exact _|auto using muted_upd|exact muted_emit|apply preserves_appendText; auto using muted_upd, muted_emit with typeclass_instances]. Qed.
Lemma lifecycle_finish : frame lifecycle finish.
Proof.
  assert (E : forall ev, frame lifecycle (emit ev)) by (intros ev; apply frame_emit; intros; reflexivity).
  apply preserves_finish; [exact _|auto|exact E|]. intros text. apply preserves_appendText; [exact _|auto|exact E].
Qed.
Lemma status_event e : frame upstreamErrorStatus (event e).
Proof.
  assert (E : forall ev, frame upstreamErrorStatus (emit ev)) by (intros ev; apply frame_emit; intros; reflexivity).
  apply preserves_event; [exact _|auto|exact E| |].
  - intros text. apply preserves_appendText; [exact _|auto|exact E].
  - intros f t. unfold on_lifecycle. destruct (f (lifecycle t)); reflexivity.
Qed.

(** The bytes of the writes, read as the events they frame, whatever the writes cut. *)
Lemma each_app {A} (f : A -> act) l m t : each f (l ++ m)%list t = (each f l >>> each f m) t.
Proof.
  revert t; induction l as [|x l IH]; intros t; [reflexivity|]. cbn [app each]. unfold and_then in *.
  destruct (f x t) as [t' [e|]]; [reflexivity|]. apply IH.
Qed.
Lemma process_buffer_events f : forall w,
  let '(events, rest) := split_fuel f w.(buf) in
  let '(t, e) := each event events w.(tr) in
  let '(w', e') := process_buffer cfg toolValidator flush_fails map_range f w in
  e' = e /\ w'.(tr) = t /\ w'.(streaming) = w.(streaming) /\ (e = None -> w'.(buf) = rest).
Proof.
  induction f as [|f IH]; intros w; [cbn; auto|]. cbn [split_fuel process_buffer].
  destruct (SplitNext (buf w)) as [[ev n]|]; [|cbn; auto].
  specialize (IH (w <| tr := (event ev (tr w)).1 |> <| buf ::= str_drop n |>)). cbn [buf] in IH.
  change (buf _) with (str_drop n (buf w)) in IH at 1.
  destruct (split_fuel f (str_drop n (buf w))) as [events rest]. cbn [each]. unfold on_tr, and_then.
  destruct (event ev (tr w)) as [t1 [e|]]; cbn [fst] in IH; [repeat split; discriminate|]. cbn [tr] in IH.
  change (tr _) with t1 in IH at 1. destruct (each event events t1) as [t2 e2].
  destruct (process_buffer _ _ _ _ f _) as [w2 e3]. exact IH.
Qed.


(** A streaming translator that has seen no error status. *)
Definition flowing (w : Writer) : Prop := w.(streaming) = true /\ w.(tr).(upstreamErrorStatus) = 0.
Lemma Write_events data w : flowing w ->
  let '(events, rest) := split_all (w.(buf) +:+ data) in
  let '(t, e) := each event events w.(tr) in
  let '(w', e') := Write cfg toolValidator flush_fails map_range data w in
  e' = e /\ w'.(tr) = t /\ flowing w' /\ (e = None -> w'.(buf) = rest).
Proof.
  intros [St Up]. unfold Write. rewrite Up, St. cbn [negb Z.eqb andb]. unfold split_all.
  pose proof (process_buffer_events (String.length (buf w +:+ data)) (w <| buf ::= (fun b => b +:+ data) |>)) as P.
  change (buf (w <| buf ::= (fun b => b +:+ data) |>)) with (buf w +:+ data) in P.
  change (tr (w <| buf ::= (fun b => b +:+ data) |>)) with (tr w) in P.
  change (negb (streaming (w <| buf ::= (fun b => b +:+ data) |>))) with (negb (streaming w)). rewrite St. cbn [negb].
  destruct (split_fuel _ _) as [events rest]. destruct (each event events (tr w)) as [t e] eqn:E.
  change (buf (w <| buf ::= (fun b => b +:+ data) |>)) with (buf w +:+ data).
  destruct (process_buffer _ _ _ _ _ _) as [w' e']. destruct P as (-> & P2 & P3 & P4). split; [reflexivity|]. split; [exact P2|].
  split; [|exact P4]. split; [rewrite P3; exact St|]. rewrite P2.
  assert (F : frame upstreamErrorStatus (each event events)) by (apply preserves_each; [exact _|apply status_event]).
  specialize (F (tr w)). rewrite E in F. cbn [fst] in F. rewrite F. exact Up.
Qed.
Lemma write_all_events chunks : forall w, flowing w -> split_all w.(buf) = ([], w.(buf)) ->
  let '(events, rest) := split_all (w.(buf) +:+ String.concat "" chunks) in
  let '(t, e) := each event events w.(tr) in
  let '(w', e') := write_all cfg toolValidator flush_fails map_range chunks w in
  e' = e /\ w'.(tr) = t /\ flowing w' /\ (e = None -> w'.(buf) = rest).
Proof.
  induction chunks as [|c chunks IH]; intros w Fl R.
  - cbn [String.concat write_all]. rewrite str_app_nil_r, R. repeat split; apply Fl.
  - cbn [write_all]. rewrite concat_cons, <- str_app_assoc, split_all_app.
    pose proof (Write_events c w Fl) as W. pose proof (split_all_rest (buf w +:+ c)) as R'.
    destruct (split_all (buf w +:+ c)) as [ec rc]. cbn [snd] in R'.
    destruct (each event ec (tr w)) as [t e] eqn:E. destruct (Write _ _ _ _ c w) as [w1 e1]. destruct W as (-> & W2 & W3 & W4).
    destruct (split_all (rc +:+ String.concat "" chunks)) as [eb rb] eqn:Eb. rewrite each_app. unfold and_then. rewrite E.
    destruct e as [e|]; [repeat split; try apply W3; [exact W2|discriminate]|].
    specialize (IH w1 W3). rewrite (W4 eq_refl) in IH. specialize (IH R'). rewrite Eb, W2 in IH. exact IH.
Qed.

(** The state after a run of the events, given whether the end marker has been seen. *)
Definition state_after (seen : bool) (t : Tr) : Prop :=
  if seen then alive over t /\ ended t else alive in_body t.
Definition count_done (events : list string) : nat := length (List.filter is_done events).
Definition as_nat (b : bool) : nat := if b then 1%nat else 0%nat.
Lemma hoare_done : hoare in_body (translate_done cfg toolValidator flush_fails map_range)
  (fun p t => over p t /\ t.(lifecycle).(lc_state) = StreamTerminal) in_body.
Proof.
  unfold translate_done. eapply hoare_seq with (χ := in_body).
  { apply hoare_when; [|auto]. apply hoare_lifecycle. intros p t [I _]. destruct (Start _); [revert I; apply in_body_silent; reflexivity|exact I]. }
  eapply hoare_seq with (χ := fun p t => in_body p t /\ lc_state (lifecycle t) = StreamTerminal).
  - apply hoare_reading. intros l. destruct (bool_decide (lc_state l = StreamStarted)) eqn:B1.
    + apply hoare_lifecycle. intros p t [I E]. unfold Terminal, leave. apply bool_decide_eq_true_1 in B1.
      rewrite E, decide_True by exact B1. split; [revert I; apply in_body_silent; reflexivity|reflexivity].
    + destruct (bool_decide (lc_state l <> StreamTerminal)) eqn:B2.
      * eapply hoare_pre; [intros p t [I _]; exact I|apply hoare_fail].
      * apply bool_decide_eq_false_1 in B2. intros t. apply alive_mono. intros p [I E]. split; [exact I|]. rewrite E.
        destruct (decide (lc_state l = StreamTerminal)) as [D|D]; [exact D|destruct (B2 D)].
  - apply (hoare_frame (fun t => lc_state (lifecycle t))); [|apply hoare_finishStream].
    intros t. rewrite (lifecycle_finish t). reflexivity.
Qed.
Lemma events_states events : forall seen t, state_after seen t -> (count_done events + as_nat seen <= 1)%nat ->
  match each event events t with
  | (t', None) => state_after (seen || (0 <? count_done events)%nat) t'
  | (t', Some _) => is_Some (protocol proto_init t'.(out))
  end.
Proof.
  induction events as [|e events IH]; intros seen t St C.
  { cbn. rewrite orb_false_r. exact St. }
  cbn [each]. unfold and_then. unfold count_done in C |- *. cbn [List.filter] in C |- *.
  unfold translateOpenAIEvent at 1. destruct (String.eqb (ParseEvent e).2 "") eqn:E0.
  { apply String.eqb_eq in E0. assert (D : is_done e = false) by (unfold is_done; rewrite E0; reflexivity).
    rewrite D in C |- *. exact (IH seen t St C). }
  destruct (is_done e) eqn:D.
  - cbn [length] in C. destruct seen; [cbn [as_nat] in C; lia|].
    pose proof (hoare_done t St) as Hd. destruct (translate_done _ _ _ _ t) as [t1 [err|]].
    { destruct Hd as (p & P & _). exists p. exact P. }
    apply (IH true t1).
    + destruct Hd as (p & P & Al & (O & L)). split; [exists p; auto|]. split; [apply O|exact L].
    + unfold count_done. cbn [as_nat]. lia.
  - destruct seen.
    + destruct St as [(p & P & Al & O) En]. destruct (leaves_chunk (ParseEvent e).2 t En) as [(L1 & L2 & L3) L4].
      destruct (translate_chunk _ _ _ t) as [t1 [err|]]; cbn [fst] in *; [exists p; rewrite L1; exact P|].
      apply (IH true t1); [|exact C]. split; [|exact L4]. exists p. rewrite L1, L2. split; [exact P|]. split; [exact Al|].
      split; [apply O|]. split; [apply L4|rewrite L3; apply O].
    + pose proof (hoare_chunk (ParseEvent e).2 t St) as Hc. destruct (translate_chunk _ _ _ t) as [t1 [err|]].
      { destruct Hc as (p & P & _). exists p. exact P. }
      apply (IH false t1); [exact Hc|exact C].
Qed.
Lemma hoare_end : hoare in_body (end_stream cfg toolValidator flush_fails map_range) over (fun _ _ => True).
Proof.
  assert (Fin : hoare in_body finish over (fun _ _ => True)) by (eapply hoare_err; [|apply hoare_finishStream]; auto).
  assert (FL : forall c, hoare in_body (when c (on_lifecycle Fail)) in_body (fun _ _ => True)).
  { intros c. apply hoare_when; [|auto]. apply hoare_lifecycle. intros p t [I _].
    destruct (Fail _); [revert I; apply in_body_silent; reflexivity|exact Logic.I]. }
  unfold end_stream. apply hoare_reading. intros t0. unfold id. eapply hoare_pre; [intros p t [I _]; exact I|].
  destruct (negb _); [eapply hoare_seq; [apply FL|exact Fin]|]. destruct (EOF _) as [e|]; [|exact Fin].
  eapply hoare_seq with (χ := fun _ _ => True).
  2:{ intros t A. apply alive_failed in A. revert A. apply failed_mono. auto. }
  destruct (outputStarted _).
  - unfold emitIncompleteErrorEvent. eapply hoare_seq with (χ := in_body).
    { apply hoare_lifecycle. intros p t I. destruct (Fail _); [revert I; apply in_body_silent; reflexivity|exact Logic.I]. }
    eapply hoare_seq with (χ := fun p _ => p.(p_phase) = Body).
    + apply hoare_upd; [intros t; split; reflexivity|]. intros p t I. exact (ib_phase _ _ I).
    + apply hoare_emit. intros p t P. eexists. split; [cbn [accepts]; rewrite (bool_decide_eq_true_2 _ P); reflexivity|]. auto.
  - apply hoare_when; [|auto]. eapply hoare_pre; [intros p t [I _]; exact I|]. eapply hoare_seq with (χ := in_body).
    + apply hoare_lifecycle. intros p t I. destruct (Fail _); [revert I; apply in_body_silent; reflexivity|exact Logic.I].
    + apply hoare_upd; [intros t; split; reflexivity|]. auto.
Qed.

(** What the client has seen is a stream of the protocol, complete if no error was reported. *)
Definition served (r : Writer * Finalized) : Prop :=
  exists p, protocol proto_init r.1.(tr).(out) = Some p /\
    (r.2 = Streamed None -> r.1.(tr).(dead) = false -> p.(p_phase) = Over).

Notation Fin := (Finalize cfg toolValidator flush_fails map_range).
Notation Tail := (process_tail cfg toolValidator flush_fails map_range).
(** The end of a stream whose events were all translated. *)
Lemma finalize_served w seen : state_after seen w.(tr) -> is_done w.(buf) = false -> served (Fin w).
Proof.
  intros St D. unfold Finalize. destruct (streaming w).
  2:{ destruct seen; [destruct St as [(p & P & Al & _) _]|destruct St as (p & P & Al & _)]; exists p; (split; [exact P|discriminate]). }
  destruct seen.
  - destruct St as [(p & P & Al & O1 & O2 & O3) _]. rewrite O3. exists p. split; [exact P|]. intros _ _. exact O1.
  - assert (C : closed (tr w) = false) by (destruct St as (p & P & Al & I); exact (ib_closed _ _ I)). rewrite C.
    assert (T : match Tail w with
                | (w', None) => alive in_body (tr w')
                | (w', Some _) => is_Some (protocol proto_init (out (tr w')))
                end).
    { unfold process_tail. destruct (String.eqb (buf w) ""); [exact St|]. unfold on_tr. cbn [tr].
      unfold translateOpenAIEvent. rewrite D. destruct (String.eqb _ ""); [exact St|].
      pose proof (hoare_chunk (ParseEvent (buf w)).2 (tr w) St) as Hc.
      change (tr (w <| buf := "" |>)) with (tr w). destruct (translate_chunk _ _ _ (tr w)) as [t1 [e|]]; [|exact Hc].
      destruct Hc as (p & P & _). exists p. exact P. }
    destruct (Tail w) as [w1 [e|]]; [destruct T as [p P]; exists p; split; [exact P|discriminate]|].
    unfold on_tr. pose proof (hoare_end (tr w1) T) as He. destruct (end_stream _ _ _ _ (tr w1)) as [t2 [e|]].
    + destruct He as (p & P & _). exists p. split; [exact P|discriminate].
    + destruct He as (p & P & _ & O). exists p. split; [exact P|]. intros _ _. apply O.
Qed.

(** *** Writers that only buffer, divert or are dead *)

Notation writes := (write_all cfg toolValidator flush_fails map_range).
Lemma writes_invariant (I : Writer -> Prop) chunks :
  (forall c w, I w -> I (Write cfg toolValidator flush_fails map_range c w).1) -> forall w, I w -> I (writes chunks w).1.
Proof.
  intros Wr. induction chunks as [|c chunks IH]; intros w J; [exact J|]. cbn [write_all]. specialize (Wr c w J).
  destruct (Write _ _ _ _ c w) as [w' [e|]]; [exact Wr|apply IH, Wr].
Qed.
Lemma writes_buffered chunks w : w.(streaming) = false ->
  (writes chunks w).1.(tr) = w.(tr) /\ (writes chunks w).1.(streaming) = false /\ (writes chunks w).2 = None.
Proof.
  revert w; induction chunks as [|c chunks IH]; intros w St; [repeat split; exact St|]. cbn [write_all].
  assert (E : Write cfg toolValidator flush_fails map_range c w = (w <| buf ::= (fun b => b +:+ c) |>, None)).
  { unfold Write. rewrite St, andb_false_r. change (streaming (w <| buf ::= (fun b => b +:+ c) |>)) with (streaming w).
    destruct (streaming w); [discriminate St|reflexivity]. }
  rewrite E. destruct (IH (w <| buf ::= (fun b => b +:+ c) |>)) as (X1 & X2 & X3); [exact St|].
  rewrite X1, X2, X3. repeat split.
Qed.
(** A streaming writer that saw an error status: the body goes to the error message. *)
Lemma writes_diverted chunks w : w.(streaming) = true -> w.(tr).(upstreamErrorStatus) <> 0 ->
  (writes chunks w).2 = None /\ (writes chunks w).1.(buf) = w.(buf) /\ (writes chunks w).1.(streaming) = true /\
  exists b, (writes chunks w).1.(tr) = w.(tr) <| upstreamErrorBody := b |>.
Proof.
  revert w; induction chunks as [|c chunks IH]; intros w St Up.
  - repeat split; [exact St|]. exists (upstreamErrorBody (tr w)). cbn. destruct (tr w). reflexivity.
  - cbn [write_all].
    assert (E : Write cfg toolValidator flush_fails map_range c w = (w <| tr ::= (fun t => t <| upstreamErrorBody ::= divert c |>) |>, None)).
    { unfold Write. rewrite (proj2 (Z.eqb_neq _ _) Up). destruct (streaming w); [reflexivity|discriminate St]. }
    rewrite E.
    pose proof (IH (w <| tr ::= (fun t => t <| upstreamErrorBody ::= divert c |>) |>)) as X.
    destruct (X St Up) as (E1 & E2 & E3 & b & E4).
    rewrite E1, E2, E3. repeat split. exists b. rewrite E4. reflexivity.
Qed.
Definition muffled (l : list AEvent) (w : Writer) : Prop := dead (tr w) = true /\ out (tr w) = l.
Lemma on_tr_muffled l a w : preserves muted a -> muffled l w -> muffled l (on_tr a w).1.
Proof. intros M [D O]. destruct (M (tr w) D) as [O' D']. unfold on_tr. destruct (a (tr w)). split; cbn in *; congruence. Qed.
Lemma process_muffled l f : forall w, muffled l w -> muffled l (process_buffer cfg toolValidator flush_fails map_range f w).1.
Proof.
  induction f as [|f IH]; intros w M; [exact M|]. cbn [process_buffer]. destruct (SplitNext (buf w)) as [[ev n]|]; [|exact M].
  pose proof (on_tr_muffled l _ w (mute_event ev) M) as M'. destruct (on_tr _ w) as [w' [e|]]; [exact M'|]. apply IH. exact M'.
Qed.
Lemma Write_muffled l c w : muffled l w -> muffled l (Write cfg toolValidator flush_fails map_range c w).1.
Proof.
  intros M. unfold Write. destruct (_ && _)%bool; [exact M|]. destruct (negb _); [exact M|]. apply process_muffled, M.
Qed.
Lemma mute_end : preserves muted (end_stream cfg toolValidator flush_fails map_range).
Proof.
  assert (E : forall e, preserves muted (emit e)) by exact muted_emit.
  assert (U : forall f, (forall t, out (f t) = out t /\ dead (f t) = dead t) -> preserves muted (upd f)).
  { intros f F t D. destruct (F t). cbn. split; congruence. }
  pose proof muted_lifecycle as L. pose proof mute_finish as M.
  unfold end_stream, emitIncompleteErrorEvent. apply preserves_reading. intros t0. unfold id.
  destruct (negb _); [auto with preserves|]. destruct (EOF _); [|auto with preserves].
  apply preserves_seq; [exact _| |intros t D; split; [reflexivity|exact D]].
  destruct (outputStarted _); [|apply preserves_when; [exact _|]]; repeat (apply preserves_seq; [exact _|auto with preserves|]);
    auto with preserves; try (apply U; intros t; split; reflexivity).
Qed.
Lemma Finalize_muffled l w : muffled l w -> muffled l (Fin w).1.
Proof.
  intros M. unfold Finalize. destruct (streaming w); [|exact M]. destruct (closed (tr w)); [exact M|].
  assert (T : muffled l (Tail w).1).
  { unfold process_tail. destruct (String.eqb _ ""); [exact M|]. apply on_tr_muffled; [apply mute_event|exact M]. }
  destruct (Tail w) as [w1 [e|]]; [exact T|]. pose proof (on_tr_muffled l _ w1 mute_end T) as T'.
  destruct (on_tr _ w1). exact T'.
Qed.

(** *** A session *)

Lemma new_in_body : alive in_body NewTr.
Proof.
  exists proto_init. split; [reflexivity|]. split; [reflexivity|]. split; try reflexivity.
  - intros i k. cbn. rewrite lookup_empty. split; [discriminate|]. unfold is_open_block. cbn.
    intros [(X & _)|[(X & _)|(_ & c & X)]]; try discriminate X.
  - split; cbn; try discriminate; intros *; rewrite lookup_empty; discriminate.
  - auto.
Qed.
(** After the prelude: in the middle of a message, or on a dead connection. *)
Definition opened (eager : bool) (w : Writer) : Prop :=
  w.(buf) = "" /\ w.(streaming) = eager /\ w.(headersEmitted) = eager /\ w.(tr).(upstreamErrorStatus) = 0 /\
  (alive in_body w.(tr) \/ (w.(tr).(dead) = true /\ is_Some (protocol proto_init w.(tr).(out)))).
Lemma prelude_opened eager : opened eager (TrPrelude cfg flush_fails eager NewAnthropicSSETranslator).1.
Proof.
  destruct eager; [|repeat split; left; exact new_in_body]. 
  set (a := on_lifecycle Start >>> start_message cfg flush_fails).
  assert (A : hoare (fun p t => (in_body p t /\ t.(started) = false) /\ t.(lifecycle) = NewStreamLifecycle) a running (fun _ _ => False)).
  { unfold a. eapply hoare_seq; [|apply hoare_start_message]. apply hoare_lifecycle. intros p t ([I St] & L). rewrite L. cbn.
    split; [revert I; apply in_body_silent; reflexivity|exact St]. }
  assert (F : frame upstreamErrorStatus a).
  { unfold a. apply preserves_seq; [exact _| |].
    - intros t. unfold on_lifecycle. destruct (Start (lifecycle t)); reflexivity.
    - apply preserves_start_message; [exact _|auto|]. intros ev. apply frame_emit; intros; reflexivity. }
  specialize (A NewTr). specialize (F NewTr). 
  change (TrPrelude cfg flush_fails true NewAnthropicSSETranslator)
    with (let '(t, e) := a NewTr in
          ({| tr := t; buf := ""; streaming := true; headersEmitted := true; statusCode := 200; headers := [200] |}, e)).
  destruct (a NewTr) as [t [e|]]; cbn [fst] in *.
  - repeat split; [exact F|]. right. destruct A as (p & P & D).
    + destruct new_in_body as (p & P & D & I). exists p. auto.
    + destruct (dead t) eqn:X; [split; [exact X|exists p; exact P]|destruct (D eq_refl)].
  - repeat split; [exact F|]. left. cbn. destruct A as (p & P & D & [I _]); [|exists p; auto].
    destruct new_in_body as (p & P & D & I). exists p. auto.
Qed.

(** C4: whatever an upstream streams, however the network cuts it and whichever write to the client fails,
    the events that reach the client follow the Anthropic protocol: one message_start first; blocks numbered from
    zero in order, each opened once, its deltas of its kind and while it is open, closed once; tool arguments sent
    once per block; one message_delta when no block is open, whose stop reason is "tool_use" exactly when a tool
    block was sent; one message_stop after it, or an error, and nothing after that.  When the translator reports no
    error and the client is still there the stream is complete.  (The end marker must come at most once and be
    followed by its blank line.) *)
Theorem session_follows_protocol (eager : bool) (code : Z) (contentType : string) (chunks : list string)
  (Hdone : (count_done (split_all (String.concat "" chunks)).1 <= 1)%nat)
  (Htail : is_done (split_all (String.concat "" chunks)).2 = false) :
  served (session cfg toolValidator flush_fails map_range eager code contentType chunks).
Proof.
  unfold session. pose proof (prelude_opened eager) as O.
  destruct (TrPrelude cfg flush_fails eager NewAnthropicSSETranslator) as [w0 e0]. cbn [fst] in *. clear e0.
  destruct O as (B & St & He & Up & Al).
  assert (D : forall w, muffled (out (tr w0)) w -> is_Some (protocol proto_init (out (tr w0))) ->
    served (match writes chunks w with (w, Some e) => (w, Streamed (Some e)) | (w, None) => Fin w end)).
  { intros w M [p P]. pose proof (writes_invariant (muffled (out (tr w0))) chunks (Write_muffled _) w M) as M1.
    destruct (writes chunks w) as [w1 [e|]]; cbn [fst] in M1.
    - exists p. cbn. rewrite (proj2 M1). split; [exact P|discriminate].
    - pose proof (Finalize_muffled _ w1 M1) as [D2 O2]. exists p. rewrite O2. split; [exact P|]. intros _ X. congruence. }
  unfold WriteHeader. destruct (Z.leb_spec 400 code) as [L|L]; cbv zeta.
  - assert (Nz : code <> 0) by lia. destruct eager.
    + change (headersEmitted (w0 <| tr ::= _ |>)) with (headersEmitted w0). rewrite He.
      set (w := w0 <| tr ::= (fun t => t <| upstreamErrorStatus := code |>) |>). destruct Al as [Al|[Dd P]]; [|apply D; [split; [exact Dd|reflexivity]|exact P]].
      destruct (writes_diverted chunks w St Nz) as (E1 & E2 & E3 & b & E4).
      destruct (writes chunks w) as [w1 e1]. cbn [fst snd] in *. subst e1.
      apply (finalize_served w1 false); [|rewrite E2; unfold w; cbn; rewrite B; reflexivity]. rewrite E4. unfold state_after.
      destruct Al as (p & P & Dd & I). exists p. split; [exact P|]. split; [exact Dd|]. revert I. apply in_body_silent; reflexivity.
    + change (headersEmitted (w0 <| tr ::= _ |>)) with (headersEmitted w0). rewrite He.
      rewrite (proj2 (Z.ltb_ge code 400)) by lia. rewrite andb_false_r. cbn [streaming].
      match goal with |- context [writes chunks ?x] => set (w := x) end.
      destruct (writes_buffered chunks w eq_refl) as (E1 & E2 & E3). destruct (writes chunks w) as [w1 e1]. cbn [fst snd] in *. subst e1.
      unfold Finalize. rewrite E2. unfold served. cbn [fst snd]. rewrite E1.
      destruct Al as [(p & P & _)|[_ [p P]]]; exists p; (split; [exact P|discriminate]).
  - rewrite He. set (w := if eager then w0 else _).
    assert (W : tr w = tr w0 /\ buf w = buf w0).
    { unfold w. destruct eager; [split; reflexivity|]. match goal with |- context [if ?b then _ else _] => destruct b end; split; reflexivity. }
    destruct W as [W1 W2]. destruct Al as [Al|[Dd P]]; [|apply D; [split; [rewrite W1; exact Dd|rewrite W1; reflexivity]|exact P]].
    destruct (streaming w) eqn:Sw.
    2:{ destruct (writes_buffered chunks w Sw) as (E1 & E2 & E3). destruct (writes chunks w) as [w1 e1]. cbn [fst snd] in *. subst e1.
        unfold Finalize. rewrite E2. unfold served. cbn [fst snd]. rewrite E1, W1. destruct Al as (p & P & _). exists p. split; [exact P|discriminate]. }
    assert (Fl : flowing w) by (split; [exact Sw|rewrite W1; exact Up]).
    pose proof (write_all_events chunks w Fl) as E. rewrite W2, B in E. specialize (E eq_refl).
    change ("" +:+ String.concat "" chunks) with (String.concat "" chunks) in E.
    destruct (split_all (String.concat "" chunks)) as [events rest]. cbn [fst snd] in *.
    rewrite W1 in E. pose proof (events_states events false (tr w0) Al) as S. cbn [as_nat] in S. rewrite Nat.add_0_r in S. specialize (S Hdone).
    destruct (each event events (tr w0)) as [t e]. destruct (writes chunks w) as [w1 e1]. destruct E as (-> & E2 & E3 & E4).
    destruct e as [e|].
    + destruct S as [p P]. exists p. cbn. rewrite E2. split; [exact P|discriminate].
    + apply (finalize_served w1 (0 <? count_done events)%nat); [rewrite E2; exact S|]. rewrite (E4 eq_refl). exact Htail.
Qed.


Lemma writes_buffered_eq chunks w : w.(streaming) = false ->
  writes chunks w = (w <| buf ::= (fun b => b +:+ String.concat "" chunks) |>, None).
Proof.
  revert w; induction chunks as [|c chunks IH]; intros w St.
  - destruct w as [t b s h c l]. change (({| tr := t; buf := b; streaming := s; headersEmitted := h; statusCode := c; headers := l |}, None) =
      ({| tr := t; buf := b +:+ ""; streaming := s; headersEmitted := h; statusCode := c; headers := l |}, @None TrError)).
    rewrite str_app_nil_r. reflexivity.
  - destruct w as [t b s h k l]. cbn in St. subst s. cbn [write_all]. unfold Write. cbn [tr streaming upstreamErrorStatus].
    rewrite andb_false_r. cbn -[write_all String.concat]. rewrite IH; [|reflexivity]. rewrite concat_cons.
    change (({| tr := t; buf := (b +:+ c) +:+ String.concat "" chunks; streaming := false; headersEmitted := h; statusCode := k; headers := l |}, None) =
      ({| tr := t; buf := b +:+ (c +:+ String.concat "" chunks); streaming := false; headersEmitted := h; statusCode := k; headers := l |}, @None TrError)).
    rewrite str_app_assoc. reflexivity.
Qed.
(** C27: the translation of a streamed response does not depend on how the network cut it: the same bytes in
    other chunks give the same events to the client, the same state of the translator and the same result. *)
Theorem session_chunk_invariant (eager : bool) (code : Z) (contentType : string) (c1 c2 : list string)
  (Hsame : String.concat "" c1 = String.concat "" c2) (Hcode : code < 400) :
  let r1 := session cfg toolValidator flush_fails map_range eager code contentType c1 in
  let r2 := session cfg toolValidator flush_fails map_range eager code contentType c2 in
  r1.1.(tr) = r2.1.(tr) /\ r1.2 = r2.2.
Proof.
  unfold session. pose proof (prelude_opened eager) as O.
  destruct (TrPrelude cfg flush_fails eager NewAnthropicSSETranslator) as [w0 e0]. cbn [fst] in *. clear e0.
  destruct O as (B & St & He & Up & _). unfold WriteHeader. rewrite (proj2 (Z.leb_gt 400 code)) by lia. rewrite He.
  set (w := if eager then w0 else _).
  assert (W : tr w = tr w0 /\ buf w = buf w0).
  { unfold w. destruct eager; [split; reflexivity|]. match goal with |- context [if ?b then _ else _] => destruct b end; split; reflexivity. }
  destruct W as [W1 W2]. cbv zeta. destruct (streaming w) eqn:Sw.
  2:{ rewrite !writes_buffered_eq by exact Sw. rewrite Hsame. split; reflexivity. }
  assert (Fl : flowing w) by (split; [exact Sw|rewrite W1; exact Up]).
  pose proof (write_all_events c1 w Fl) as E1. pose proof (write_all_events c2 w Fl) as E2. rewrite W2, B in E1, E2.
  specialize (E1 eq_refl). specialize (E2 eq_refl). rewrite <- Hsame in E2.
  destruct (split_all _) as [events rest]. destruct (each event events (tr w)) as [t e].
  destruct (writes c1 w) as [w1 e1], (writes c2 w) as [w2 e2]. destruct E1 as (-> & A1 & A2 & A3), E2 as (-> & B1 & B2 & B3).
  destruct e as [e|]; [split; [cbn; congruence|reflexivity]|]. specialize (A3 eq_refl). specialize (B3 eq_refl).
  unfold Finalize. rewrite (proj1 A2), (proj1 B2), A1, B1. destruct (closed t); [split; [cbn; congruence|reflexivity]|].
  unfold process_tail. rewrite A3, B3. destruct (String.eqb rest "").
  - unfold on_tr. rewrite A1, B1. destruct (end_stream _ _ _ _ t) as [t' e']. split; reflexivity.
  - unfold on_tr. change (tr (w1 <| buf := "" |>)) with (tr w1). change (tr (w2 <| buf := "" |>)) with (tr w2). rewrite A1, B1.
    destruct (event rest t) as [t' [e'|]]; [split; reflexivity|]. cbn [tr set]. 
    match goal with |- context [end_stream _ _ _ _ ?x] => change x with t' end.
    destruct (end_stream _ _ _ _ _) as [t2 e2]. split; reflexivity.
Qed.
End Facts.
