(* ===== verification/StreamText.v ===== *)
(** The text of a translated stream: what the upstream sends as content and reasoning is what the client reads as
    text and thinking, and the end marker without its blank line closes a message twice. *)

From stdpp Require Import base gmap sets list strings.
From Stdlib Require Import ZArith Lia Ascii.
From coqutil Require Import Datatypes.RecordSettersUsingExistingGetters.
From S2P Require Import Prelude Strings Sse Json ThinkTag Lifecycle Toolcheck ToolIds StreamState AnthropicStream StreamProto StreamFacts.
Open Scope string_scope.
Open Scope Z_scope.
Open Scope act_scope.

(** ** What the client reads *)

Definition event_text (e : AEvent) : string := match e with DeltaText _ t => t | _ => "" end.
Definition event_thinking (e : AEvent) : string := match e with DeltaThinking _ t => t | _ => "" end.
Definition sent_text (l : list AEvent) : string := String.concat "" (event_text <$> l).
Definition sent_thinking (l : list AEvent) : string := String.concat "" (event_thinking <$> l).
#[local] Arguments sent_text : simpl never.
#[local] Arguments sent_thinking : simpl never.
(** Text made of space characters only. *)
Definition blank (s : string) : Prop := exists rs, Forall (.∈ space_runes) rs /\ s = String.concat "" rs.
(** What the translator may hold back: blank text, and only while no text block is open. *)
Definition held (t : Tr) : Prop := blank t.(pendingText) /\ (t.(textOpen) = true -> t.(pendingText) = "").
(** From one state to a later one, the client was sent the text and the thinking of the segments, but for a blank end of the text that is held. *)
Definition delivered (t t' : Tr) (l : list thinkSegment) : Prop :=
  sent_text t'.(out) +:+ t'.(pendingText) = (sent_text t.(out) +:+ t.(pendingText)) +:+ visible_of l /\
  sent_thinking t'.(out) = sent_thinking t.(out) +:+ thinking_of l /\ held t'.
(** For the proofs: text that has been sent, with what is held, and thinking that has been sent. *)
Definition shown (t : Tr) : string * string := (sent_text t.(out) +:+ t.(pendingText), sent_thinking t.(out)).
Definition shown_after (p : string * string) (l : list thinkSegment) : string * string :=
  (p.1 +:+ visible_of l, p.2 +:+ thinking_of l).

Lemma blank_empty : blank "".
Proof. exists []. split; [constructor|reflexivity]. Qed.
Lemma blank_app a b : blank a -> blank b -> blank (a +:+ b).
Proof.
  intros (rs & R & ->) (qs & Q & ->). exists (rs ++ qs)%list. split; [by apply Forall_app|]. symmetry. apply concat_app.
Qed.
Lemma HasPrefix_drop r s : HasPrefix s r = true -> s = r +:+ str_drop (String.length r) s.
Proof. intros P. apply HasPrefix_spec in P as [t ->]. by rewrite str_drop_app. Qed.
Lemma trim_left_runes f : forall s, exists rs, Forall (.∈ space_runes) rs /\ s = String.concat "" rs +:+ trim_left_fuel f s.
Proof.
  induction f as [|f IH]; intros s; [exists []; by split|]. cbn [trim_left_fuel]. unfold space_at.
  destruct (List.find _ space_runes) as [r|] eqn:F; cbn; [|exists []; by split].
  apply find_some in F as [I P]. destruct (IH (str_drop (String.length r) s)) as (rs & R & E). exists (r :: rs).
  split; [constructor; [by apply list_elem_of_In|done]|]. etrans; [apply HasPrefix_drop, P|]. rewrite E at 1.
  change (String.concat "" (r :: rs)) with (String.concat "" ([r] ++ rs)%list). rewrite concat_app. cbn. by rewrite str_app_assoc.
Qed.
Lemma trim_right_runes f : forall s, exists rs, Forall (.∈ space_runes) rs /\ s = trim_right_fuel f s +:+ String.concat "" rs.
Proof.
  induction f as [|f IH]; intros s; [exists []; split; [constructor|by rewrite str_app_nil_r]|]. cbn [trim_right_fuel]. unfold space_before.
  destruct (List.find _ space_runes) as [r|] eqn:F; cbn; [|exists []; split; [constructor|by rewrite str_app_nil_r]].
  apply find_some in F as [I P]. destruct (IH (str_take (String.length s - String.length r) s)) as (rs & R & E). exists (rs ++ [r])%list.
  split; [apply Forall_app; split; [done|]; apply Forall_singleton; by apply list_elem_of_In|].
  apply andb_prop in P as [_ P]. apply String.eqb_eq in P. rewrite <- (str_take_drop (String.length s - String.length r) s) at 1. rewrite P, E at 1.
  rewrite concat_app. cbn. by rewrite <- !str_app_assoc.
Qed.
Lemma TrimSpace_blank s : TrimSpace s = "" -> blank s.
Proof.
  unfold TrimSpace. intros T. destruct (trim_left_runes (String.length s) s) as (rs & R & E).
  set (l := trim_left_fuel _ s) in *. destruct (trim_right_runes (String.length l) l) as (qs & Q & E'). cbv zeta in T. rewrite T in E'. cbn in E'.
  exists (rs ++ qs)%list. split; [by apply Forall_app|]. rewrite concat_app. by rewrite E, E'.
Qed.

Section Text.
Context `{Gjson} `{Sjson} `{JsonSchema}.
Variable cfg : Config.
Variable toolValidator : option Validator.
Variable flush_fails : nat -> bool.
Variable map_range : gmap Z Z -> list (Z * Z).
Notation event := (translateOpenAIEvent cfg toolValidator flush_fails map_range).

(** The segments of one event: its reasoning, then its content as the splitter cuts it, when it is on. *)
Definition first_choice (ev : string) : Result := GetBytes (ParseEvent ev).2 "choices.0".
Definition has_choice (ev : string) : bool :=
  (negb (String.eqb (ParseEvent ev).2 "") && IsArray (GetBytes (ParseEvent ev).2 "choices") && Exists (first_choice ev)
   && Exists (GetPath (first_choice ev) "delta"))%bool.
Definition reasoning_in (ev : string) : string :=
  let delta := GetPath (first_choice ev) "delta" in
  let r := Str (GetPath delta "reasoning_content") in
  if has_choice ev then if String.eqb r "" then Str (GetPath delta "reasoning") else r else "".
Definition content_in (ev : string) : string :=
  if has_choice ev then Str (GetPath (GetPath (first_choice ev) "delta") "content") else "".
Definition cut_content (s : thinkTagSplitter) (content : string) : thinkTagSplitter * list thinkSegment :=
  if cfg.(thinkTagReasoning) then Feed s content else (s, nonempty_seg segText content).
Fixpoint segments (s : thinkTagSplitter) (events : list string) : thinkTagSplitter * list thinkSegment :=
  match events with
  | [] => (s, [])
  | ev :: events' =>
      let '(s1, l1) := cut_content s (content_in ev) in
      let '(s2, l2) := segments s1 events' in
      (s2, (nonempty_seg segThinking (reasoning_in ev) ++ l1 ++ l2)%list)
  end.

Lemma shown_after_nil p : shown_after p [] = p.
Proof. unfold shown_after. change (visible_of []) with "". change (thinking_of []) with "". rewrite !str_app_nil_r. destruct p; reflexivity. Qed.
Lemma shown_after_app p l m : shown_after p (l ++ m)%list = shown_after (shown_after p l) m.
Proof. unfold shown_after. rewrite visible_of_app, thinking_of_app, <- !str_app_assoc. reflexivity. Qed.
Lemma sent_text_snoc l e : sent_text (l ++ [e])%list = sent_text l +:+ event_text e.
Proof. unfold sent_text. rewrite fmap_app, concat_app. reflexivity. Qed.
Lemma sent_thinking_snoc l e : sent_thinking (l ++ [e])%list = sent_thinking l +:+ event_thinking e.
Proof. unfold sent_thinking. rewrite fmap_app, concat_app. reflexivity. Qed.

Notation emit := (StreamState.emit flush_fails).
Lemma frame_shown_emit e : event_text e = "" -> event_thinking e = "" -> frame shown (emit e).
Proof.
  intros E1 E2 t. unfold StreamState.emit. destruct (dead t); [reflexivity|]. cbv zeta. destruct (flush_fails _); [reflexivity|].
  unfold shown. cbn. rewrite sent_text_snoc, sent_thinking_snoc, E1, E2, !str_app_nil_r. reflexivity.
Qed.
Lemma frame_shown_lifecycle f : frame shown (on_lifecycle f).
Proof. intros t. unfold on_lifecycle. destruct (f (lifecycle t)); reflexivity. Qed.
Lemma frame_shown_progress : frame shown mark_progress.
Proof. intros t. cbn. destruct (armed t); reflexivity. Qed.
Local Hint Extern 1 (preserves _ (emit _)) => apply frame_shown_emit; reflexivity : preserves.
Local Hint Resolve frame_shown_lifecycle frame_shown_progress : preserves.

(** A successful action that adds the segments [l], in a message that has started. *)
Definition adds (l : list thinkSegment) (a : act) : Prop := forall t t',
  a t = (t', None) -> started t = true -> shown t' = shown_after (shown t) l /\ started t' = true.
Lemma adds_seq l m a b : adds l a -> adds m b -> adds (l ++ m)%list (a >>> b).
Proof.
  intros A B t t'. unfold and_then. destruct (a t) as [t1 [e|]] eqn:E; [discriminate|]. intros F S.
  destruct (A t t1 E S) as [A1 A2]. destruct (B t1 t' F A2) as [B1 B2]. split; [|exact B2]. rewrite B1, A1, shown_after_app. reflexivity.
Qed.
Lemma adds_frame a : frame shown a -> frame started a -> adds [] a.
Proof.
  intros F G t t' E S. specialize (F t). specialize (G t). rewrite E in F, G. cbn in F, G. rewrite F, G, shown_after_nil. auto.
Qed.
Lemma adds_emit_text i text : forall t t', emit (DeltaText i text) t = (t', None) ->
  sent_text t'.(out) = sent_text t.(out) +:+ text /\ sent_thinking t'.(out) = sent_thinking t.(out) /\
  pendingText t' = pendingText t /\ started t' = started t.
Proof.
  intros t t'. unfold StreamState.emit. destruct (dead t); [discriminate|]. cbv zeta. destruct (flush_fails _); [discriminate|].
  intros [= <-]. cbn. rewrite sent_text_snoc, sent_thinking_snoc. cbn. rewrite str_app_nil_r. auto.
Qed.
Lemma adds_appendThinking text : adds [segThinking text] (appendThinking flush_fails text).
Proof.
  unfold appendThinking. change [segThinking text] with ([] ++ ([] ++ [segThinking text]))%list.
  apply adds_seq; [apply adds_frame; unfold stop_text; auto 12 with preserves|].
  apply adds_seq; [apply adds_frame; auto 12 with preserves|].
  intros t t'. unfold reading, StreamState.emit. destruct (dead t); [discriminate|]. cbv zeta. destruct (flush_fails _); [discriminate|].
  intros [= <-] S. split; [|exact S]. unfold shown, shown_after. cbn. rewrite sent_text_snoc, sent_thinking_snoc. cbn.
  change (visible_of [segThinking text]) with "". change (thinking_of [segThinking text]) with text. rewrite !str_app_nil_r. reflexivity.
Qed.
Lemma adds_appendText text : adds [segText text] (appendText flush_fails text).
Proof.
  intros t t'. unfold appendText. destruct (_ && _)%bool.
  { intros [= <-] S. split; [|exact S]. unfold shown, shown_after. cbn [fst snd]. change (thinking_of [segText text]) with "".
    change (visible_of [segText text]) with text. rewrite str_app_nil_r.
    match goal with |- (?a, ?b) = _ => change a with (sent_text (out t) +:+ (pendingText t +:+ text)); change b with (sent_thinking (out t)) end.
    rewrite str_app_assoc. reflexivity. }
  revert t t'. match goal with |- forall t t', ?a t = _ -> _ => change (adds [segText text] a) end.
  change [segText text] with ([] ++ ([] ++ [segText text]))%list.
  apply adds_seq; [apply adds_frame; unfold stop_thinking; auto 12 with preserves|].
  apply adds_seq; [apply adds_frame; auto 12 with preserves|].
  intros t t'. unfold reading. intros E S. apply adds_emit_text in E as (E1 & E2 & E3 & E4). cbn in E1, E2, E3, E4.
  split; [|congruence]. unfold shown, shown_after. cbn [fst snd]. rewrite E1, E2, E3, str_app_nil_r, str_app_assoc.
  change (thinking_of [segText text]) with "". change (visible_of [segText text]) with text. rewrite str_app_nil_r. reflexivity.
Qed.
Lemma adds_segments l : adds l (each (append_segment flush_fails) l).
Proof.
  induction l as [|[x|x] l IH].
  - intros t t' [= <-] S. rewrite shown_after_nil. auto.
  - apply (adds_seq [segThinking x] l); [apply adds_appendThinking|exact IH].
  - apply (adds_seq [segText x] l); [apply adds_appendText|exact IH].
Qed.

Lemma adds_when_nonempty x l a : (x = "" -> l = []) -> adds l a -> adds l (when (fun _ => negb (String.eqb x "")) a).
Proof.
  intros N A t t' E S. unfold when in E. destruct (String.eqb_spec x "") as [X|X]; cbn [negb] in E; [|exact (A t t' E S)].
  injection E as <-. rewrite (N X), shown_after_nil. auto.
Qed.
Lemma frame_started_lifecycle {A} (g : Tr -> A) : (forall t l, g (t <| lifecycle := l |>) = g t) -> forall f, frame g (on_lifecycle f).
Proof. intros F f t. unfold on_lifecycle. destruct (f (lifecycle t)); [apply F|reflexivity]. Qed.
Lemma frame_progress {A} (g : Tr -> A) : (forall t n, g (t <| progress := n |>) = g t) -> frame g mark_progress.
Proof. intros F t. cbn. destruct (armed t); [apply (F t (S (progress t)))|reflexivity]. Qed.
Local Hint Extern 1 (preserves _ (on_lifecycle _)) => apply frame_started_lifecycle; intros; reflexivity : preserves.
Local Hint Extern 1 (preserves _ mark_progress) => apply frame_progress; intros; reflexivity : preserves.
Lemma adds_output_here : adds [] output_here.
Proof. apply adds_frame; unfold output_here; auto with preserves. Qed.
Lemma adds_progress : adds [] mark_progress.
Proof. apply adds_frame; auto with preserves. Qed.
Lemma adds_emit_reasoning delta :
  let r := Str (GetPath delta "reasoning_content") in
  let r := if String.eqb r "" then Str (GetPath delta "reasoning") else r in
  adds (nonempty_seg segThinking r) (emit_reasoning flush_fails delta).
Proof.
  intros r0 r. unfold emit_reasoning. fold r0. fold r. apply adds_when_nonempty; [intros ->; reflexivity|].
  destruct (String.eqb_spec r "") as [E|E].
  - intros t t' A S. unfold and_then in A. destruct (output_here t) as [t1 [e|]] eqn:O; [discriminate A|].
    destruct (mark_progress t1) as [t2 [e|]] eqn:M; [discriminate A|]. rewrite E in *.
    destruct (adds_output_here _ _ O S) as [O1 O2]. destruct (adds_progress _ _ M O2) as [M1 M2].
    destruct (adds_appendThinking "" _ _ A M2) as [A1 A2]. split; [|exact A2].
    rewrite A1, M1, O1, !shown_after_nil. unfold nonempty_seg. cbn [String.eqb]. rewrite ?shown_after_nil. unfold shown_after.
    change (visible_of [segThinking ""]) with "". change (thinking_of [segThinking ""]) with "". rewrite !str_app_nil_r. destruct (shown t); reflexivity.
  - replace (nonempty_seg segThinking r) with ([] ++ [] ++ [segThinking r])%list.
    2:{ unfold nonempty_seg. rewrite (proj2 (String.eqb_neq _ _) E). reflexivity. }
    apply adds_seq; [apply adds_output_here|]. apply adds_seq; [apply adds_progress|apply adds_appendThinking].
Qed.
Lemma nonempty_text c : c <> "" -> nonempty_seg segText c = [segText c].
Proof. intros N. unfold nonempty_seg. rewrite (proj2 (String.eqb_neq _ _) N). reflexivity. Qed.
Lemma emit_content_adds delta t t' : emit_content cfg flush_fails delta t = (t', None) -> started t = true ->
  let '(s', l) := cut_content t.(splitter) (Str (GetPath delta "content")) in
  shown t' = shown_after (shown t) l /\ started t' = true /\ splitter t' = s'.
Proof.
  unfold emit_content. set (c := Str (GetPath delta "content")). unfold when. intros E S. unfold cut_content.
  destruct (String.eqb_spec c "") as [C|C]; cbn [negb] in E.
  { injection E as <-. rewrite C. destruct (thinkTagReasoning cfg); cbn; rewrite shown_after_nil; auto. }
  unfold and_then in E. destruct (output_here t) as [t1 [e|]] eqn:O; [discriminate E|].
  destruct (mark_progress t1) as [t2 [e|]] eqn:M; [discriminate E|].
  destruct (adds_output_here _ _ O S) as [O1 O2]. destruct (adds_progress _ _ M O2) as [M1 M2]. rewrite shown_after_nil in O1, M1. rewrite O1 in M1.
  assert (Sp : splitter t2 = splitter t).
  { assert (F1 : frame splitter output_here) by (unfold output_here; auto with preserves).
    assert (F2 : frame splitter mark_progress) by auto with preserves.
    specialize (F1 t). specialize (F2 t1). rewrite O in F1. rewrite M in F2. cbn in F1, F2. congruence. }
  assert (Fs : forall segs, frame splitter (each (append_segment flush_fails) segs)).
  { intros segs. apply preserves_each; [exact _|]. intros [x|x]; cbn [append_segment].
    - unfold appendThinking, stop_text. auto 12 with preserves.
    - intros u. unfold appendText. destruct (_ && _)%bool; [reflexivity|].
      revert u. match goal with |- forall u, splitter (?a u).1 = _ => change (frame splitter a) end. unfold stop_thinking. auto 12 with preserves. }
  destruct (thinkTagReasoning cfg).
  - unfold reading in E. rewrite Sp in E. destruct (Feed (splitter t) c) as [s' segs]. cbn [upd] in E.
    destruct (adds_segments segs _ _ E M2) as [A1 A2]. specialize (Fs segs (t2 <| splitter := s' |>)). rewrite E in Fs. cbn in Fs.
    split; [|split; assumption]. rewrite A1. change (shown (t2 <| splitter := s' |>)) with (shown t2). rewrite M1. reflexivity.
  - destruct (adds_appendText c _ _ E M2) as [A1 A2]. rewrite (nonempty_text c C).
    split; [rewrite A1, M1; reflexivity|]. split; [exact A2|]. rewrite <- Sp.
    specialize (Fs [segText c] t2). cbn [each append_segment] in Fs. unfold and_then in Fs. rewrite E in Fs. exact Fs.
Qed.
Lemma frame_tool_calls delta {A} (g : Tr -> A) :
  (forall t l, g (t <| lifecycle := l |>) = g t) -> (forall t n, g (t <| progress := n |>) = g t) ->
  (forall e, event_text e = "" -> event_thinking e = "" -> frame g (emit e)) ->
  (forall t t', (t'.(out), t'.(pendingText), t'.(started), t'.(splitter)) = (t.(out), t.(pendingText), t.(started), t.(splitter)) -> g t' = g t) ->
  frame g (emit_tool_calls cfg flush_fails delta).
Proof.
  intros L P Em U. unfold emit_tool_calls, emit_tool_call, output_here, open_tool, stop_text, stop_thinking, emitContentBlockStartTool, buffer_args.
  cbv zeta. unfold id.
  Local Hint Extern 1 (preserves _ (emit _)) => match goal with E : context [event_text] |- _ => apply E; reflexivity end : preserves.
  Local Hint Extern 1 (preserves _ (upd _)) => match goal with E : context [pendingText] |- _ => intros ?; apply E; reflexivity end : preserves.
  apply preserves_when; [exact _|]. apply preserves_seq; [exact _|apply frame_progress, P|]. apply preserves_each; [exact _|]. intros tc.
  apply preserves_seq; [exact _|apply preserves_reading; intros i; apply frame_started_lifecycle, L|]. apply preserves_reading. intros t0.
  destruct (bool_decide _); [auto with preserves|]. destruct (_ !! _); [auto with preserves|]. destruct (Upsert _ _ _ _) as [en l].
  apply preserves_seq; [exact _|auto with preserves|]. destruct (String.eqb _ _); auto 14 with preserves.
Qed.

Lemma tool_calls_adds delta t t' : emit_tool_calls cfg flush_fails delta t = (t', None) -> started t = true ->
  shown t' = shown t /\ started t' = true /\ splitter t' = splitter t.
Proof.
  intros E S.
  assert (F1 : frame shown (emit_tool_calls cfg flush_fails delta)).
  { apply frame_tool_calls; [reflexivity|reflexivity|apply frame_shown_emit|]. intros u u' [= A B C D]. unfold shown. rewrite A, B. reflexivity. }
  assert (F2 : frame started (emit_tool_calls cfg flush_fails delta)).
  { apply frame_tool_calls; [reflexivity|reflexivity|intros; apply frame_emit; reflexivity|]. intros u u' [= A B C D]. exact C. }
  assert (F3 : frame splitter (emit_tool_calls cfg flush_fails delta)).
  { apply frame_tool_calls; [reflexivity|reflexivity|intros; apply frame_emit; reflexivity|]. intros u u' [= A B C D]. exact D. }
  specialize (F1 t). specialize (F2 t). specialize (F3 t). rewrite E in F1, F2, F3. cbn in F1, F2, F3.
  split; [exact F1|]. split; [congruence|exact F3].
Qed.
Lemma frame_usage {A} (g : Tr -> A) data : (forall t u h l, g (t <| usage := u |> <| hasUsage := h |> <| sink := l |>) = g t) ->
  frame g (extractAndForwardUsage cfg data).
Proof.
  intros F. unfold extractAndForwardUsage. destruct (OpenAICacheTokens _) as [a b]. apply preserves_when; [exact _|].
  intros t. apply (F t _ _ _).
Qed.

(** A successful action of a started message, by what it does to the splitter and the segments it adds. *)
Definition cutter : Type := thinkTagSplitter -> thinkTagSplitter * list thinkSegment.
Definition cuts (f : cutter) (a : act) : Prop := forall t t', a t = (t', None) -> started t = true ->
  shown t' = shown_after (shown t) (f t.(splitter)).2 /\ started t' = true /\ splitter t' = (f t.(splitter)).1.
Definition then_cut (f g : cutter) : cutter := fun s => ((g (f s).1).1, ((f s).2 ++ (g (f s).1).2)%list).
Definition cut_nothing : cutter := fun s => (s, []).
Lemma cuts_seq f g a b : cuts f a -> cuts g b -> cuts (then_cut f g) (a >>> b).
Proof.
  intros A B t t'. unfold and_then. destruct (a t) as [t1 [e|]] eqn:E; [discriminate|]. intros F S.
  destruct (A t t1 E S) as (A1 & A2 & A3). destruct (B t1 t' F A2) as (B1 & B2 & B3). unfold then_cut. cbn [fst snd].
  rewrite <- A3. split; [rewrite B1, A1, shown_after_app; reflexivity|]. split; assumption.
Qed.
Lemma cuts_frame a : frame shown a -> frame started a -> frame splitter a -> cuts cut_nothing a.
Proof.
  intros F1 F2 F3 t t' E S. specialize (F1 t). specialize (F2 t). specialize (F3 t). rewrite E in F1, F2, F3. cbn in *.
  rewrite shown_after_nil. split; [exact F1|]. split; congruence.
Qed.
Lemma cuts_ext f g a : (forall s, f s = g s) -> cuts f a -> cuts g a.
Proof. intros X A t t' E S. rewrite <- X. exact (A t t' E S). Qed.
Lemma cuts_seq_nil g a b : cuts cut_nothing a -> cuts g b -> cuts g (a >>> b).
Proof.
  intros A B. apply (cuts_ext (then_cut cut_nothing g)); [|apply cuts_seq; assumption].
  intros s. unfold then_cut, cut_nothing. cbn. destruct (g s); reflexivity.
Qed.
Lemma cuts_skipped (a : act) (c : Tr -> bool) : (forall t, started t = true -> c t = false) -> cuts cut_nothing (when c a).
Proof. intros N t t' E S. unfold when in E. rewrite (N t S) in E. injection E as <-. cbn. rewrite shown_after_nil. auto. Qed.
Lemma cuts_when f a (b : bool) : cuts f a -> cuts (if b then f else cut_nothing) (when (fun _ => b) a).
Proof. intros A. destruct b; [exact A|]. intros t t' [= <-] S. cbn. rewrite shown_after_nil. auto. Qed.
Lemma frame_splitter_reasoning delta : frame splitter (emit_reasoning flush_fails delta).
Proof. unfold emit_reasoning, output_here, appendThinking, stop_text. cbv zeta. auto 14 with preserves. Qed.
Lemma cuts_emitDelta delta :
  let r := Str (GetPath delta "reasoning_content") in
  let r := if String.eqb r "" then Str (GetPath delta "reasoning") else r in
  cuts (then_cut (fun s => (s, nonempty_seg segThinking r)) (fun s => cut_content s (Str (GetPath delta "content"))))
    (emitDelta cfg flush_fails delta).
Proof.
  intros r0 r. unfold emitDelta. apply cuts_seq.
  - intros t t' E S. destruct (adds_emit_reasoning delta _ _ E S) as [A1 A2]. split; [exact A1|]. split; [exact A2|].
    pose proof (frame_splitter_reasoning delta t) as F. rewrite E in F. exact F.
  - apply (cuts_ext (then_cut (fun s => cut_content s (Str (GetPath delta "content"))) cut_nothing)).
    { intros s. unfold then_cut, cut_nothing. cbn. rewrite app_nil_r. destruct (cut_content _ _); reflexivity. }
    apply cuts_seq.
    + intros t t' E S. pose proof (emit_content_adds delta t t' E S) as A. destruct (cut_content _ _) as [s' l]. exact A.
    + intros t t' E S. destruct (tool_calls_adds delta t t' E S) as (A & B & C). cbn. rewrite shown_after_nil. auto.
Qed.
Lemma cuts_usage data : cuts cut_nothing (extractAndForwardUsage cfg data).
Proof. apply cuts_frame; apply frame_usage; reflexivity. Qed.
(** One event of a message that has started. *)
Definition event_cutter (ev : string) : cutter :=
  fun s => let '(s', l) := cut_content s (content_in ev) in (s', (nonempty_seg segThinking (reasoning_in ev) ++ l)%list).
Lemma cut_content_empty s : cut_content s "" = (s, []).
Proof. unfold cut_content. destruct (thinkTagReasoning cfg); reflexivity. Qed.
Lemma event_cuts ev : is_done ev = false -> cuts (event_cutter ev) (event ev).
Proof.
  intros D. unfold translateOpenAIEvent. rewrite D. unfold event_cutter, content_in, reasoning_in, has_choice.
  destruct (String.eqb (ParseEvent ev).2 ""); cbn [negb andb].
  { apply (cuts_ext cut_nothing); [intros s; rewrite cut_content_empty; reflexivity|]. apply cuts_frame; intros t; reflexivity. }
  unfold translate_chunk. cbv zeta. fold (first_choice ev).
  apply cuts_seq_nil; [apply cuts_frame; intros t; reflexivity|].
  destruct (IsArray _); cbn [negb orb andb];
    [|apply (cuts_ext cut_nothing); [intros s; rewrite cut_content_empty; reflexivity|apply cuts_usage]].
  destruct (Exists (first_choice ev)); cbn [negb orb andb];
    [|apply (cuts_ext cut_nothing); [intros s; rewrite cut_content_empty; reflexivity|apply cuts_usage]].
  apply cuts_seq_nil; [apply cuts_skipped; intros t ->; reflexivity|]. eapply cuts_ext; [|eapply cuts_seq; [apply cuts_when, cuts_emitDelta|eapply cuts_seq_nil; [|apply cuts_usage]]].
  - intros s. unfold then_cut, cut_nothing. cbn [fst snd app].
    destruct (Exists (GetPath (first_choice ev) "delta")); cbn [fst snd app]; [|rewrite cut_content_empty; reflexivity].
    rewrite ?app_nil_r. destruct (cut_content _ _); reflexivity.
  - apply (cuts_ext (if negb (String.eqb (Str (GetPath (first_choice ev) "finish_reason")) "") then cut_nothing else cut_nothing)).
    { intros s. destruct (negb _); reflexivity. }
    apply cuts_when, cuts_frame; auto with preserves.
Qed.

(** *** What is held back *)

Definition keeps (t t' : Tr) : Prop := held t -> held t'.
#[local] Instance keeps_preorder : PreOrder keeps.
Proof. split; [intros t; exact id|intros t u v A B X; exact (B (A X))]. Qed.
Lemma keeps_same t t' : pendingText t' = pendingText t -> (textOpen t' = true -> textOpen t = true) -> keeps t t'.
Proof. intros E O [B N]. split; rewrite E; [exact B|auto]. Qed.
Lemma keeps_emit e : preserves keeps (emit e).
Proof. intros t. unfold StreamState.emit. destruct (dead t); [exact id|]. cbv zeta. destruct (flush_fails _); apply keeps_same; auto. Qed.
Lemma keeps_lifecycle f : preserves keeps (on_lifecycle f).
Proof. intros t. unfold on_lifecycle. destruct (f (lifecycle t)); apply keeps_same; auto. Qed.
(** Blank text is held only while no block is open; other text goes out at once, after what was held. *)
Lemma keeps_sending text t : held t -> held
  ((stop_thinking flush_fails >>>
    when (fun t => negb t.(textOpen))
      (reading blockIdx (fun i => emit (BlockStartText i)) >>> upd (fun t => t <| textOpen := true |> <| blockIdx ::= Z.add 1 |>)) >>>
    reading pendingText (fun p =>
      let content := p +:+ text in
      upd (fun t => t <| pendingText := "" |> <| sawText := true |> <| leadingContent ::= keep_leading content |>) >>>
      reading blockIdx (fun i => emit (DeltaText (i - 1) content)))) t).1.
Proof.
  intros H2. set (last := reading pendingText _).
  assert (L : forall u, held (last u).1).
  { intros u. unfold last, reading. cbv zeta. unfold and_then, upd. cbn beta iota.
    match goal with |- held (emit ?e ?v).1 => apply (keeps_emit e v) end. split; [exact blank_empty|reflexivity]. }
  unfold and_then at 1. assert (K : held (stop_thinking flush_fails t).1).
  { unfold stop_thinking, when. destruct (thinkingOpen t); [|exact H2]. unfold and_then, reading.
    pose proof (keeps_emit (BlockStop (blockIdx t - 1)) t H2) as X. destruct (emit _ t) as [u [e|]]; exact X. }
  destruct (stop_thinking flush_fails t) as [u [e|]]; [exact K|]. cbn [fst] in K.
  unfold and_then at 1. unfold when. destruct (negb (textOpen u)); [|apply L]. unfold and_then, reading.
  pose proof (keeps_emit (BlockStartText (blockIdx u)) u K) as X. destruct (emit _ u) as [v [e|]]; [exact X|]. apply L.
Qed.
Lemma keeps_appendText text : preserves keeps (appendText flush_fails text).
Proof.
  intros t I. unfold appendText. destruct (textOpen t) eqn:O; cbn [negb andb]; [by apply keeps_sending|].
  destruct (String.eqb_spec (TrimSpace text) "") as [E|E]; [|by apply keeps_sending].
  destruct I as [B N]. split; cbn; [apply blank_app; [exact B|apply TrimSpace_blank, E]|]. rewrite O. discriminate.
Qed.
Lemma keeps_event ev : preserves keeps (event ev).
Proof. apply preserves_event; [exact _|intros; by apply keeps_same|exact keeps_emit|exact keeps_appendText|exact keeps_lifecycle]. Qed.
Notation finish := (finishStream cfg toolValidator flush_fails map_range).
Lemma keeps_finish : preserves keeps finish.
Proof. apply preserves_finish; [exact _|intros; by apply keeps_same|exact keeps_emit|exact keeps_appendText]. Qed.

(** The end of the stream sends what the splitter still has. *)
Definition flushed (s : thinkTagSplitter) : list thinkSegment := if cfg.(thinkTagReasoning) then (splitter_Flush s).2 else [].
Lemma finish_adds t t' : finish t = (t', None) -> started t = true -> shown t' = shown_after (shown t) (flushed t.(splitter)).
Proof.
  unfold finishStream. intros E S. unfold and_then at 1, when at 1 in E. rewrite S in E. cbn [negb] in E.
  unfold and_then at 1 in E. destruct (when (fun _ => thinkTagReasoning cfg) _ t) as [t1 [e|]] eqn:F; [discriminate E|].
  assert (A : shown t1 = shown_after (shown t) (flushed (splitter t))).
  { unfold when in F. unfold flushed. destruct (thinkTagReasoning cfg); [|injection F as <-; by rewrite shown_after_nil].
    unfold reading in F. destruct (splitter_Flush (splitter t)) as [s' segs]. unfold and_then, upd in F. cbn beta iota in F.
    exact (proj1 (adds_segments segs _ _ F S)). }
  rewrite <- A. match type of E with ?a t1 = _ => assert (X : frame shown a) end.
  { assert (Ar : forall i, frame shown (emitValidatedToolArgsDelta toolValidator flush_fails i)).
    { intros i. unfold emitValidatedToolArgsDelta. apply preserves_reading. intros t0. destruct (_ !! _); [|auto with preserves].
      destruct (String.eqb _ _); [auto with preserves|]. apply preserves_seq; [exact _| |auto with preserves].
      intros u. cbn. destruct (Issue_ _) as [x|]; [|reflexivity]. destruct (Bucket_ x), (Repaired x); reflexivity. }
    unfold stop_text, stop_thinking, finish_tool, id. apply preserves_seq; [exact _|auto 12 with preserves|]. apply preserves_seq; [exact _|auto 12 with preserves|].
    apply preserves_seq; [exact _|auto 12 with preserves|]. apply preserves_seq; [exact _|auto 12 with preserves|]. apply preserves_reading. intros st.
    unfold synthesizeTextOnlyTurnNudge, emitContentBlockStartTool, emitMessageDelta, emitErrorEvent, id. cbv zeta.
    destruct (negb _); auto 14 with preserves. }
  specialize (X t1). rewrite E in X. exact X.
Qed.
Lemma shown_delivered t t' l : shown t' = shown_after (shown t) l -> held t' -> delivered t t' l.
Proof. unfold shown, shown_after. cbn. intros [= E1 E2] K. split; [exact E1|split; [exact E2|exact K]]. Qed.
Lemma events_shown (events : list string) : forall t t', (forall ev, ev ∈ events -> is_done ev = false) -> started t = true -> each event events t = (t', None) ->
  shown t' = shown_after (shown t) (segments t.(splitter) events).2 /\ started t' = true /\ splitter t' = (segments t.(splitter) events).1.
Proof.
  induction events as [|ev events IH]; intros t t' D S E.
  - injection E as <-. cbn. rewrite shown_after_nil. auto.
  - cbn [each segments] in *. unfold and_then in E. destruct (event ev t) as [t1 [e|]] eqn:E1; [discriminate E|].
    destruct (event_cuts ev (D ev (list_elem_of_here _ _)) t t1 E1 S) as (A1 & A2 & A3). unfold event_cutter in A1, A3.
    destruct (cut_content (splitter t) (content_in ev)) as [s1 l1]. cbn [fst snd] in A1, A3.
    destruct (IH t1 t' (fun x Hx => D x (list_elem_of_further _ _ _ Hx)) A2 E) as (B1 & B2 & B3). rewrite A3 in B1, B3.
    destruct (segments s1 events) as [s2 l2]. cbn [fst snd] in *. split; [|auto].
    rewrite B1, A1, <- shown_after_app, <- app_assoc. reflexivity.
Qed.

(** C26: in a message that has started, the text and the thinking the client has been sent are what the upstream's events carry, in order and
    whatever blocks, tool calls and other events come between: the content as text (when the model streams its thinking inline, as the
    think-tag splitter cuts it: the leading block as thinking, and blanks before any text dropped), the reasoning as thinking.  Only a blank end of the text
    may be unsent, held back while no text block is open; so it is after any of the events, and again when the stream is ended, which sends what
    the splitter still had.  (The events are all but the end marker, and every write reached the client.) *)
Theorem stream_text_preserved (events : list string) (t : Tr)
  (Hdone : forall ev, ev ∈ events -> is_done ev = false) (Hstarted : started t = true) (Hheld : held t) :
  let '(s, l) := segments t.(splitter) events in
  (forall t', each event events t = (t', None) -> delivered t t' l) /\
  (forall t', (each event events >>> finish) t = (t', None) -> delivered t t' (l ++ flushed s)).
Proof.
  pose proof (fun t' => events_shown events t t' Hdone Hstarted) as A. destruct (segments (splitter t) events) as [s l].
  assert (K : held (each event events t).1) by exact (preserves_each keeps event events keeps_event t Hheld). split.
  - intros t' E. rewrite E in K. destruct (A t' E) as (A1 & _). exact (shown_delivered t t' l A1 K).
  - intros t' E. unfold and_then in E. destruct (each event events t) as [t1 [e|]]; [discriminate E|].
    destruct (A t1 eq_refl) as (A1 & A2 & A3). pose proof (finish_adds t1 t' E A2) as F. rewrite A1, A3, <- shown_after_app in F.
    apply shown_delivered; [exact F|]. pose proof (keeps_finish t1 K) as X. rewrite E in X. exact X.
Qed.
End Text.

(** ** Concrete streams *)

Definition chat_config : Config := {|
  requestModel := "m"; hasSink := true; estimatedInputTokens := 5; routingMarker := "[m] "; requestHadTools := true;
  thinkTagReasoning := false; random_message := "ab"; random_nonce := "0c" |}.
Definition frame_of (s : string) : string := "data: " +:+ jq s.
Definition chat_events : list string := [
  frame_of "{'id':'x','choices':[{'delta':{'reasoning':'hm'}}]}";
  frame_of "{'choices':[{'delta':{'content':'hel'}}]}";
  frame_of "{'choices':[{'delta':{'content':'lo','tool_calls':[{'index':0,'id':'c1','function':{'name':'Read','arguments':'{'}}]}}]}";
  frame_of "{'choices':[{'delta':{},'finish_reason':'stop'}]}" ].
Definition done_frame : string := "data: [DONE]".
Definition chat_session (chunks : list string) : Writer * Finalized :=
  @session Reader.reader Reader.editor number_schema chat_config None (fun _ => false) map_to_list true 200 "text/event-stream" chunks.
Definition terminated : list string := ((fun e => e +:+ LFLF) <$> (chat_events ++ [done_frame])%list).

Lemma session_follows_protocol_witness :
  (chat_session terminated).1.(tr).(out) =
    [MessageStart "msg_translated_ab" "m" 5; BlockStartText 0; DeltaText 0 "[m] "; BlockStop 0;
     BlockStartThinking 1; DeltaThinking 1 "hm"; BlockStop 1; BlockStartText 2; DeltaText 2 "hel"; DeltaText 2 "lo"; BlockStop 2;
     BlockStartTool 3 "c1_0c" "Read"; DeltaJSON 3 "{}"; BlockStop 3; MessageDelta "tool_use" None; MessageStop] /\
  served (chat_session terminated).
Proof.
  split; [vm_compute; reflexivity|].
  apply (@session_follows_protocol Reader.reader Reader.editor number_schema chat_config None (fun _ => false) map_to_list
           (fun m => reflexivity (map_to_list m)) true 200 "text/event-stream" terminated).
  - apply Nat.leb_le. vm_compute. reflexivity.
  - vm_compute. reflexivity.
Defined.
Lemma session_chunk_invariant_witness :
  (chat_session [String.concat "" terminated]).1.(tr) = (chat_session terminated).1.(tr) /\
  (chat_session [String.concat "" terminated]).2 = (chat_session terminated).2.
Proof.
  apply (@session_chunk_invariant Reader.reader Reader.editor number_schema chat_config None (fun _ => false) map_to_list
           true 200 "text/event-stream" [String.concat "" terminated] terminated).
  - vm_compute. reflexivity.
  - reflexivity.
Defined.
Definition chat_start : Tr := (@TrPrelude chat_config (fun _ => false) true NewAnthropicSSETranslator).1.(tr).
(** The conversation of [chat_events], ended. *)
Definition chat_run : Tr * option TrError :=
  (each (@translateOpenAIEvent Reader.reader Reader.editor number_schema chat_config None (fun _ => false) map_to_list) chat_events >>>
   @finishStream Reader.reader Reader.editor number_schema chat_config None (fun _ => false) map_to_list) chat_start.
Lemma stream_text_preserved_witness :
  delivered chat_start chat_run.1 [segThinking "hm"; segText "hel"; segText "lo"] /\
  sent_text chat_run.1.(out) = "[m] hello" /\ sent_thinking chat_run.1.(out) = "hm".
Proof.
  split; [|split; vm_compute; reflexivity].
  pose proof (@stream_text_preserved Reader.reader Reader.editor number_schema chat_config None (fun _ => false) map_to_list chat_events chat_start
    ltac:(intros ev Hev; repeat (apply elem_of_cons in Hev as [->|Hev]; [vm_compute; reflexivity|]); apply elem_of_nil in Hev; destruct Hev)
    ltac:(reflexivity) ltac:(split; [exact blank_empty|discriminate])) as X.
  destruct X as [_ X]. specialize (X chat_run.1). 
  exact (X ltac:(vm_compute; reflexivity)).
Defined.

(** An end marker that is the last line of the stream, without the blank line after it, is translated by
    [Finalize], which then ends the message again: the client sees the message closed twice. *)
Lemma unterminated_done_closes_twice :
  let r := chat_session [frame_of "{'choices':[{'delta':{'content':'hi'},'finish_reason':'stop'}]}" +:+ LFLF; done_frame +:+ LF] in
  r.2 = Streamed None /\ protocol proto_init r.1.(tr).(out) = None /\
  drop 7 r.1.(tr).(out) = [MessageDelta "end_turn" None; MessageStop; MessageDelta "end_turn" None; MessageStop].
Proof. vm_compute. repeat split. Qed.
