(* ===== verification/Bits.v ===== *)
(** Machine representations: little-endian bytes (encoding/binary) and the IEEE 754 bits of a float
    (math.Float32bits, math.Float64bits and their inverses).  Every NaN is the one [math.NaN] returns. *)

From stdpp Require Import base list.
From Stdlib Require Import ZArith SpecFloat Lia.
From S2P Require Import Prelude Floats.
Open Scope Z_scope.

(** ** Little-endian integers *)

(** [binary.LittleEndian.PutUint32] and [PutUint64], for [n] = 4 and 8. *)
Fixpoint le_bytes (n : nat) (z : Z) : list Z :=
  match n with
  | O => []
  | S n' => z mod 256 :: le_bytes n' (z / 256)
  end.
(** [binary.LittleEndian.Uint32] and [Uint64]. *)
Fixpoint le_value (l : list Z) : Z :=
  match l with
  | [] => 0
  | b :: l' => b + 256 * le_value l'
  end.

Lemma le_bytes_length n z : length (le_bytes n z) = n.
Proof. revert z. induction n; intros; cbn; auto. Qed.
Lemma pow256_succ n : 256 ^ Z.of_nat (S n) = 256 * 256 ^ Z.of_nat n.
Proof. rewrite Nat2Z.inj_succ, Z.pow_succ_r; lia. Qed.
Lemma le_value_bytes n z : 0 <= z < 256 ^ Z.of_nat n -> le_value (le_bytes n z) = z.
Proof.
  revert z. induction n as [|n IH]; intros z Hz; [cbn in *; lia|]. rewrite pow256_succ in Hz. cbn [le_bytes le_value].
  rewrite IH; [|split; [apply Z.div_pos|apply Z.div_lt_upper_bound]; lia]. pose proof (Z.div_mod z 256). lia.
Qed.
Lemma le_bytes_inj n y z : 0 <= y < 256 ^ Z.of_nat n -> 0 <= z < 256 ^ Z.of_nat n -> le_bytes n y = le_bytes n z -> y = z.
Proof. intros Hy Hz E. rewrite <- (le_value_bytes n y), <- (le_value_bytes n z), E; auto. Qed.
Lemma le_value_bound l : Forall (fun b => 0 <= b < 256) l -> 0 <= le_value l < 256 ^ Z.of_nat (length l).
Proof.
  induction 1 as [|b l Hb _ IH]; [cbn; lia|]. cbn [le_value length]. rewrite pow256_succ. lia.
Qed.
Lemma le_bytes_value l : Forall (fun b => 0 <= b < 256) l -> le_bytes (length l) (le_value l) = l.
Proof.
  induction 1 as [|b l Hb _ IH]; [reflexivity|]. cbn [le_value length le_bytes].
  replace (b + 256 * le_value l) with (b + le_value l * 256) by lia.
  rewrite Z.mod_add, Z.mod_small, Z.div_add, Z.div_small, Z.add_0_l, IH by lia. reflexivity.
Qed.

(** ** The bits of a float *)

Section Bits.
Variables prec emax : Z.
(** The width of the mantissa field, and the sign bit. *)
Definition mant : Z := 2 ^ (prec - 1).
Definition sign_bit (s : bool) : Z := if s then 2 * emax * mant else 0.
Definition bits_of (x : spec_float) : Z :=
  match x with
  | S754_zero s => sign_bit s
  | S754_infinity s => sign_bit s + (2 * emax - 1) * mant
  | S754_nan => (2 * emax - 1) * mant + mant / 2 + 1
  | S754_finite s m e => sign_bit s + if Zpos m <? mant then Zpos m else (e - emin prec emax + 1) * mant + (Zpos m - mant)
  end.
Definition finite_of (s : bool) (m e : Z) : spec_float :=
  match m with Zpos p => S754_finite s p e | _ => S754_zero s end.
Definition of_bits (z : Z) : spec_float :=
  let s := 2 * emax * mant <=? z in
  let ex := z / mant mod (2 * emax) in
  let fr := z mod mant in
  if ex =? 0 then finite_of s fr (emin prec emax)
  else if ex =? 2 * emax - 1 then (if fr =? 0 then S754_infinity s else S754_nan)
  else finite_of s (fr + mant) (emin prec emax + ex - 1).
End Bits.

(** [math.Float64bits], [math.Float32bits], [math.Float32frombits]. *)
Definition Float64bits : f64 -> Z := bits_of 53 1024.
Definition Float32bits : f32 -> Z := bits_of 24 128.
Definition Float32frombits : Z -> f32 := of_bits 24 128.

(** ** The bits determine the float *)

Lemma digits2_bounds m : 2 ^ (Zpos (digits2_pos m) - 1) <= Zpos m < 2 ^ Zpos (digits2_pos m).
Proof.
  assert (G : forall d, Zpos (Pos.succ d) - 1 = Zpos d) by lia.
  assert (T : forall d, 2 ^ Zpos (Pos.succ d) = 2 * 2 ^ Zpos d)
    by (intros; rewrite Pos2Z.inj_succ, Z.pow_succ_r; lia).
  assert (U : forall d, 2 ^ Zpos d = 2 * 2 ^ (Zpos d - 1))
    by (intros; rewrite <- Z.pow_succ_r by lia; f_equal; lia).
  induction m as [m IH|m IH|]; cbn [digits2_pos]; rewrite ?G, ?T; [| |cbn; lia]; rewrite U in *; lia.
Qed.

Section Facts.
Variables prec emax : Z.
Hypothesis Hprec : 2 < prec.
Hypothesis Hemax : prec < emax.
Notation mant := (mant prec).
Notation emin := (emin prec emax).
Lemma mant_pos : 4 <= mant.
Proof. unfold Bits.mant. change 4 with (2 ^ 2). apply Z.pow_le_mono_r; lia. Qed.
Lemma valid_mantissa m e : bounded prec emax m e = true ->
  (Zpos m < mant /\ e = emin) \/ (mant <= Zpos m < 2 * mant /\ emin <= e <= emax - prec).
Proof.
  unfold bounded, canonical_mantissa, fexp. intros B. apply andb_prop in B as [C B].
  apply Z.eqb_eq in C. apply Z.leb_le in B. pose proof (digits2_bounds m) as D.
  set (d := Zpos (digits2_pos m)) in *.
  assert (2 * mant = 2 ^ prec) by (unfold Bits.mant; rewrite <- Z.pow_succ_r by lia; f_equal; lia).
  destruct (Z.eq_dec d prec) as [E|N].
  - right. rewrite E in D. unfold Bits.mant in *. lia.
  - assert (d <= prec - 1 /\ e = emin) as [L ->] by lia. left. split; [|reflexivity].
    assert (2 ^ d <= mant) by (unfold Bits.mant; apply Z.pow_le_mono_r; lia). lia.
Qed.
Lemma fields s ex fr : 0 <= ex < 2 * emax -> 0 <= fr < mant ->
  let z := sign_bit prec emax s + (ex * mant + fr) in
  (2 * emax * mant <=? z) = s /\ z / mant mod (2 * emax) = ex /\ z mod mant = fr.
Proof.
  intros He Hf z. pose proof mant_pos as M.
  assert (R : 0 <= ex * mant + fr < 2 * emax * mant) by nia.
  assert (S : z = ((if s then 2 * emax else 0) + ex) * mant + fr) by (unfold z, sign_bit; destruct s; lia).
  split; [unfold z, sign_bit; destruct s; lia|]. rewrite S.
  rewrite Z.div_add_l, (Z.div_small fr), Z.add_0_r by lia. split.
  - destruct s; [|apply Z.mod_small; lia]. rewrite Z.add_comm, <- (Z.mul_1_l (2 * emax)) at 1.
    rewrite Z.mod_add, Z.mod_small; lia.
  - rewrite Z.add_comm, Z.mod_add, Z.mod_small; lia.
Qed.
Lemma of_bits_of x : valid_binary prec emax x = true -> of_bits prec emax (bits_of prec emax x) = x.
Proof.
  pose proof mant_pos as M. intros V.
  assert (F : forall s ex fr, 0 <= ex < 2 * emax -> 0 <= fr < mant ->
    of_bits prec emax (sign_bit prec emax s + (ex * mant + fr)) =
    if ex =? 0 then finite_of s fr emin
    else if ex =? 2 * emax - 1 then (if fr =? 0 then S754_infinity s else S754_nan)
    else finite_of s (fr + mant) (emin + ex - 1)).
  { intros s ex fr He Hf. unfold of_bits. destruct (fields s ex fr He Hf) as (-> & -> & ->). reflexivity. }
  destruct x as [s|s| |s m e]; cbn [bits_of].
  - specialize (F s 0 0). rewrite Z.add_0_r in F. rewrite F by lia. reflexivity.
  - specialize (F s (2 * emax - 1) 0). rewrite Z.add_0_r in F. rewrite F by lia. rewrite Z.eqb_refl.
    destruct (Z.eqb_spec (2 * emax - 1) 0); [lia|reflexivity].
  - pose proof (Z.div_mod mant 2 ltac:(lia)). pose proof (Z.mod_pos_bound mant 2).
    specialize (F false (2 * emax - 1) (mant / 2 + 1)). cbn [sign_bit] in F. rewrite Z.add_0_l, Z.add_assoc in F. rewrite F by lia.
    rewrite Z.eqb_refl. destruct (Z.eqb_spec (2 * emax - 1) 0), (Z.eqb_spec (mant / 2 + 1) 0); lia || reflexivity.
  - destruct (valid_mantissa m e V) as [[Hm ->]|[Hm He]].
    + rewrite (proj2 (Z.ltb_lt _ _) Hm). specialize (F s 0 (Zpos m)). rewrite Z.mul_0_l, Z.add_0_l in F. rewrite F by lia. reflexivity.
    + rewrite (proj2 (Z.ltb_ge _ _)) by lia. unfold SpecFloat.emin in *. rewrite F by lia.
      destruct (Z.eqb_spec (e - (3 - emax - prec) + 1) 0), (Z.eqb_spec (e - (3 - emax - prec) + 1) (2 * emax - 1)); try lia.
      unfold finite_of. replace (Z.pos m - mant + mant) with (Zpos m) by lia. f_equal. lia.
Qed.
Lemma bits_of_range x : valid_binary prec emax x = true -> 0 <= bits_of prec emax x < 4 * emax * mant.
Proof.
  pose proof mant_pos as M. intros V. assert (S : forall s, 0 <= sign_bit prec emax s <= 2 * emax * mant) by (intros []; cbn; nia).
  destruct x as [s|s| |s m e]; cbn [bits_of].
  - specialize (S s). nia.
  - specialize (S s). nia.
  - pose proof (Z.div_mod mant 2 ltac:(lia)). pose proof (Z.mod_pos_bound mant 2). nia.
  - specialize (S s). unfold SpecFloat.emin in *. destruct (valid_mantissa m e V) as [[Hm He]|[Hm He]].
    + rewrite (proj2 (Z.ltb_lt _ _) Hm). nia.
    + rewrite (proj2 (Z.ltb_ge _ _)) by lia. unfold SpecFloat.emin in *. nia.
Qed.
End Facts.

Lemma Float64bits_inj x y : valid_binary 53 1024 x = true -> valid_binary 53 1024 y = true -> Float64bits x = Float64bits y -> x = y.
Proof.
  intros Vx Vy E. rewrite <- (of_bits_of 53 1024 ltac:(lia) ltac:(lia) x Vx), <- (of_bits_of 53 1024 ltac:(lia) ltac:(lia) y Vy).
  exact (f_equal (of_bits 53 1024) E).
Qed.
Lemma Float64bits_range x : valid_binary 53 1024 x = true -> 0 <= Float64bits x < 2 ^ 64.
Proof. intros V. exact (bits_of_range 53 1024 ltac:(lia) ltac:(lia) x V). Qed.
Lemma Float32frombits_bits x : valid_binary 24 128 x = true -> Float32frombits (Float32bits x) = x.
Proof. apply of_bits_of; lia. Qed.
Lemma Float32bits_range x : valid_binary 24 128 x = true -> 0 <= Float32bits x < 2 ^ 32.
Proof. intros V. exact (bits_of_range 24 128 ltac:(lia) ltac:(lia) x V). Qed.

Example bits_of_half : Float64bits (f64_lit 53 100) = 0x3fe0f5c28f5c28f6. Proof. reflexivity. Qed.
Example bits_of_third : Float32bits (f32_lit (-1) 3) = 0xbeaaaaab. Proof. reflexivity. Qed.
