(* ===== verification/Bundle.v ===== *)
(** The artifact bundles of the cluster router (internal/router/cluster/artifacts.go): the format of centroids.bin,
    what is checked when a bundle is loaded, and the models chosen from a bundle by price or by speed.  A file is the
    value encoding/json or yaml decodes it to; centroids.bin is read byte by byte. *)

From stdpp Require Import base gmap sets list strings sorting.
From Stdlib Require Import ZArith Lia Ascii.
From S2P Require Import Prelude Strings Sse Hash Floats Bits Types Catalog Toolcheck.
Open Scope string_scope.
Open Scope Z_scope.

(** ** The data of a bundle *)

Definition EmbedDim : Z := 768.
Definition EmbedderJinaV2 : string := "jina-v2-base-code-int8".
Definition EmbedderQwen3 : string := "qwen3-embedding-0.6b-int8".

Module Centroids.
Record t := { K : Z; Dim : Z; Data : list f32 }.
(** [Row(k)] *)
Definition Row (c : t) (k : Z) : list f32 := firstn (Z.to_nat c.(Dim)) (skipn (Z.to_nat (k * c.(Dim))) c.(Data)).
End Centroids.

(** [Rankings]: scores by cluster and model. *)
Definition Rankings : Type := gmap Z (gmap string f32).

Module Entry.
(** [DeployedEntry], without its notes. *)
Record t := { Model : string; Provider : string; BenchColumn : string }.
Definition set_Provider (p : string) (e : t) : t := {| Model := e.(Model); Provider := p; BenchColumn := e.(BenchColumn) |}.
End Entry.
Definition ModelRegistry : Type := list Entry.t.
(** [Models]: the names in order, each once. *)
Definition unseen (acc : list string * gset string) (e : Entry.t) : list string * gset string :=
  if in_set e.(Entry.Model) acc.2 then acc else (acc.1 ++ [e.(Entry.Model)], {[e.(Entry.Model)]} ∪ acc.2)%list.
Definition Registry_Models (r : ModelRegistry) : list string := (fold_left unseen r ([], ∅)).1.

Module Knobs.
(** [DefaultRoutingKnobs]; a nil [AlphaFloor] is [None]. *)
Record t := {
  Alpha : list f64; AlphaFloor : option (list f64); SpeedWeight : f64; OutputCostRatio : f64; ExpectedOutputTokens : Z;
  PerModelVerbosity : bool; ContextWindowWeight : f64
}.
Definition set_Alpha (a : list f64) (k : t) : t := {|
  Alpha := a; AlphaFloor := k.(AlphaFloor); SpeedWeight := k.(SpeedWeight); OutputCostRatio := k.(OutputCostRatio);
  ExpectedOutputTokens := k.(ExpectedOutputTokens); PerModelVerbosity := k.(PerModelVerbosity); ContextWindowWeight := k.(ContextWindowWeight) |}.
End Knobs.

Record CacheConfig := { DefaultThreshold : f32; PerClusterThreshold : gmap Z f32 }.
(** The fields of [ArtifactMetadata] the router reads. *)
Record ArtifactMetadata := {
  EmbedderModel : string;
  EmbedderDim : Z;
  DefaultKnobs : option Knobs.t;
  CostPer1KInputUSD : gmap string f64;
  TokPerS : gmap string (gmap string f64);
  CacheCfg : option CacheConfig
}.
Module Axis.
(** [ModelAxis] *)
Record t := {
  InputPer1KUSD : option f64; OutputPer1KUSD : option f64; TTFTSeconds : option f64; TPS : option f64; VerbosityTokens : option f64
}.
End Axis.

Record Bundle := {
  Version : string;
  bundle_Centroids : Centroids.t;
  bundle_Rankings : Rankings;
  Registry : ModelRegistry;
  bundle_Metadata : option ArtifactMetadata;
  IsV2 : bool;
  QualityMeans : Rankings;
  ModelAxes : gmap string Axis.t;
  MedianVerbosity : f64
}.
Definition EmbedderID (b : Bundle) : string :=
  match b.(bundle_Metadata) with
  | Some m => if String.eqb m.(EmbedderModel) "" then EmbedderJinaV2 else m.(EmbedderModel)
  | None => EmbedderJinaV2
  end.
Definition declaredDim (m : option ArtifactMetadata) : Z :=
  match m with Some m => if 0 <? m.(EmbedderDim) then m.(EmbedderDim) else EmbedDim | None => EmbedDim end.
Definition Bundle_EmbedDim (b : Bundle) : Z := declaredDim b.(bundle_Metadata).

(** ** centroids.bin *)

Inductive CentroidFault :=
| TooShort | BadMagic | BadVersion | ZeroDim | ZeroK | BadSize
| Panics.   (** [make] refuses the length, or a slice bound is out of range *)
Definition centroidsMagic : list Z := [67; 82; 84; 49].
Definition centroidsVersion : Z := 1.
Definition uint32_at (raw : list Z) (i : Z) : Z := le_value (firstn 4 (skipn (Z.to_nat i) raw)).
(** The most float32 elements [make] allocates: 2^48 bytes of address space. *)
Definition max_floats : Z := 2 ^ 46.
Fixpoint read_floats (n : nat) (raw : list Z) : list f32 :=
  match n with
  | O => []
  | S n' => Float32frombits (le_value (firstn 4 raw)) :: read_floats n' (skipn 4 raw)
  end.
Definition loadCentroids (raw : list Z) : res CentroidFault Centroids.t :=
  if Z.of_nat (length raw) <? 16 then Err TooShort
  else if negb (bool_decide (firstn 4 raw = centroidsMagic)) then Err BadMagic
  else if negb (uint32_at raw 4 =? centroidsVersion) then Err BadVersion
  else
    let k := uint32_at raw 8 in
    let dim := uint32_at raw 12 in
    if dim =? 0 then Err ZeroDim
    else if k =? 0 then Err ZeroK
    else if negb (Z.of_nat (length raw) =? wrap64 (16 + 4 * k * dim)) then Err BadSize
    else
      let n := wrap64 (k * dim) in
      if ((n <? 0) || (max_floats <? n))%bool then Err Panics
      else if Z.of_nat (length raw) <? 16 + 4 * n then Err Panics
      else Ok {| Centroids.K := k; Centroids.Dim := dim; Centroids.Data := read_floats (Z.to_nat n) (skipn 16 raw) |}.

(** ** The other files *)

(** A file of the bundle: absent, not what its decoder accepts, or decoded. *)
Inductive File (A : Type) := Missing | Malformed | Decoded (a : A).
Arguments Missing {A}.
Arguments Malformed {A}.
Arguments Decoded {A} a.
Inductive LoadFault :=
| Unreadable (name : string) | Undecodable (name : string) | CentroidsRefused (f : CentroidFault) | DimMismatch
| BadRegistry | BadClusterKey (name : string) | EmptyCluster (name : string) | NoClusters (name : string)
| MissingFromAxes (model : string) | MissingFromQuality (model : string) | MissingFromFeatures (model : string) | BadProbeLength.

Definition validateDeclaredDim (c : Centroids.t) (meta : option ArtifactMetadata) : res LoadFault unit :=
  if c.(Centroids.Dim) =? declaredDim meta then Ok tt else Err DimMismatch.

(** [loadRegistry], after decoding. *)
Definition entry_complete (e : Entry.t) : bool :=
  negb (String.eqb e.(Entry.Model) "" || String.eqb e.(Entry.Provider) "" || String.eqb e.(Entry.BenchColumn) "").
Definition loadRegistry (f : File ModelRegistry) : res LoadFault ModelRegistry :=
  match f with
  | Missing => Err (Unreadable "model_registry.json")
  | Malformed => Err (Undecodable "model_registry.json")
  | Decoded [] => Err BadRegistry
  | Decoded r => if forallb entry_complete r then Ok r else Err BadRegistry
  end.

(** [Sscanf(kStr, "%d", &k)] accepts more than the canonical numeral, printing [k] back refuses the rest: the
    key is a cluster when it is the numeral of an integer. *)
Definition cluster_key (kStr : string) : option Z :=
  match ParseInt kStr with
  | Some k => if String.eqb (WriteJSONInt k) kStr then Some k else None
  | None => None
  end.
(** The loops of [loadRankings] and [loadQualityMeans]; which of two faulty entries Go's range meets first is
    not determined, here a bad key comes before an empty cluster. *)
Definition by_cluster (name : string) (file : gmap string (gmap string f32)) : res LoadFault Rankings :=
  let entries := map_to_list file in
  if bool_decide (file = ∅) then Err (NoClusters name)
  else if negb (forallb (fun kv => match cluster_key kv.1 with Some _ => true | None => false end) entries) then Err (BadClusterKey name)
  else if negb (forallb (fun kv => negb (bool_decide (kv.2 = ∅))) entries) then Err (EmptyCluster name)
  else Ok (list_to_map (omap (fun kv => (fun k => (k, kv.2)) <$> cluster_key kv.1) entries)).
Definition clusters_of (name : string) (f : File (gmap string (gmap string f32))) : res LoadFault Rankings :=
  match f with
  | Missing => Err (Unreadable name)
  | Malformed => Err (Undecodable name)
  | Decoded m => by_cluster name m
  end.
Definition loadRankings : File (gmap string (gmap string f32)) -> res LoadFault Rankings := clusters_of "rankings.json".
Definition loadQualityMeans : File (gmap string (gmap string f32)) -> res LoadFault Rankings := clusters_of "quality_means.json".
Definition loadModelAxes (f : File (gmap string Axis.t)) : res LoadFault (gmap string Axis.t) :=
  match f with
  | Missing => Err (Unreadable "model_axes.json")
  | Malformed => Err (Undecodable "model_axes.json")
  | Decoded m => Ok m
  end.

(** [loadModelFeatures]: one column of probes for each model. *)
Record Feature := { PsiProbe : list f32; Operational : Axis.t }.
Definition probe (k : Z) (f : Feature) : f32 := nth (Z.to_nat k) f.(PsiProbe) f_zero.
Definition cluster_ids (k : Z) : list Z := Z.of_nat <$> seq 0 (Z.to_nat k).
Definition loadModelFeatures (models : gmap string Feature) (k : Z) : res LoadFault (Rankings * gmap string Axis.t) :=
  if bool_decide (models = ∅) then Err (NoClusters "model_features.json")
  else if negb (forallb (fun kv => Z.of_nat (length (PsiProbe kv.2)) =? k) (map_to_list models)) then Err BadProbeLength
  else Ok (list_to_map ((fun ki => (ki, probe ki <$> models)) <$> cluster_ids k), Operational <$> models).

(** ** Loading *)

Record Files := {
  centroids_bin : option (list Z);
  model_registry_json : File ModelRegistry;
  metadata_yaml : File ArtifactMetadata;
  quality_means_json : File (gmap string (gmap string f32));
  model_axes_json : File (gmap string Axis.t);
  model_features_json : File (gmap string Feature);
  rankings_json : File (gmap string (gmap string f32))
}.
Definition loadCoreArtifacts (fs : Files) : res LoadFault (Centroids.t * ModelRegistry * option ArtifactMetadata) :=
  match fs.(centroids_bin) with
  | None => Err (Unreadable "centroids.bin")
  | Some raw =>
      match loadCentroids raw with
      | Err f => Err (CentroidsRefused f)
      | Ok c =>
          let! registry := loadRegistry fs.(model_registry_json) in
          let! meta := match fs.(metadata_yaml) with Missing => Ok None | Malformed => Err (Undecodable "metadata.yaml") | Decoded m => Ok (Some m) end in
          let! _ := validateDeclaredDim c meta in
          Ok (c, registry, meta)
      end
  end.
Definition has_key {A} (m : gmap string A) (x : string) : bool := match m !! x with Some _ => true | None => false end.
(** The load-time validation of the v2 files. *)
Fixpoint validate_v2 (models : list string) (axes : gmap string Axis.t) (quality : Rankings) : res LoadFault unit :=
  match models with
  | [] => Ok tt
  | m :: rest =>
      if negb (has_key axes m) then Err (MissingFromAxes m)
      else if negb (forallb (fun kr => has_key kr.2 m) (map_to_list quality)) then Err (MissingFromQuality m)
      else validate_v2 rest axes quality
  end.
(** model_features.json replaces both tables when it is there. *)
Definition apply_features (fs : Files) (models : list string) (k : Z) (quality : Rankings) (axes : gmap string Axis.t)
  : res LoadFault (Rankings * gmap string Axis.t) :=
  match fs.(model_features_json) with
  | Missing => Ok (quality, axes)
  | Malformed => Err (Undecodable "model_features.json")
  | Decoded features =>
      let! t := loadModelFeatures features k in
      match List.find (fun m => negb (has_key t.2 m)) models with
      | Some m => Err (MissingFromFeatures m)
      | None => Ok t
      end
  end.
(** [sort.Float64s]: NaNs first. *)
Definition float_le (x y : f64) : Prop := f_lt y x = false /\ (is_nan y = true -> is_nan x = true).
#[global] Instance float_le_dec : RelDecision float_le.
Proof. intros x y. unfold float_le. apply _. Defined.
Definition median_verbosity (models : list string) (axes : gmap string Axis.t) : f64 :=
  match merge_sort float_le (omap (fun m => axes !! m ≫= Axis.VerbosityTokens) models) with
  | [] => f64_of_Z 1
  | vals => nth (length vals / 2) vals f_zero
  end.
Definition loadBundleFromPath (version : string) (fs : Files) : res LoadFault Bundle :=
  let! core := loadCoreArtifacts fs in
  let '(centroids, registry, meta) := core in
  let models := Registry_Models registry in
  match fs.(quality_means_json) with
  | Missing =>
      let! rankings := loadRankings fs.(rankings_json) in
      Ok {| Version := version; bundle_Centroids := centroids; bundle_Rankings := rankings; Registry := registry; bundle_Metadata := meta;
            IsV2 := false; QualityMeans := ∅; ModelAxes := ∅; MedianVerbosity := f64_of_Z 1 |}
  | _ =>
      let! quality := loadQualityMeans fs.(quality_means_json) in
      let! axes := loadModelAxes fs.(model_axes_json) in
      let! _ := validate_v2 models axes quality in
      let! t := apply_features fs models centroids.(Centroids.K) quality axes in
      Ok {| Version := version; bundle_Centroids := centroids; bundle_Rankings := ∅; Registry := registry; bundle_Metadata := meta;
            IsV2 := true; QualityMeans := t.1; ModelAxes := t.2; MedianVerbosity := median_verbosity models t.2 |}
  end.
Definition loadBundleV1Only (version : string) (fs : Files) : res LoadFault Bundle :=
  let! core := loadCoreArtifacts fs in
  let '(centroids, registry, meta) := core in
  let! rankings := loadRankings fs.(rankings_json) in
  Ok {| Version := version; bundle_Centroids := centroids; bundle_Rankings := rankings; Registry := registry; bundle_Metadata := meta;
        IsV2 := false; QualityMeans := ∅; ModelAxes := ∅; MedianVerbosity := f_zero |}.

(** [ResolveVersion]: the pointer names a directory, never itself. *)
Inductive VersionFault := PointerUnreadable | PointerEmpty | PointerRecurses | VersionNotFound (v : string).
Definition LatestVersion : string := "latest".
Section Versions.
(** The embedded tree: the content of artifacts/latest, and the directories under artifacts and artifacts/legacy. *)
Variable pointer : option string.
Variable directory : string -> bool.
Definition named_version (requested : string) : res VersionFault string :=
  if directory requested then Ok requested else Err (VersionNotFound requested).
Definition ResolveVersion (requested : string) : res VersionFault string :=
  if (String.eqb requested "" || String.eqb requested LatestVersion)%bool then
    match pointer with
    | None => Err PointerUnreadable
    | Some raw =>
        let v := TrimSpace raw in
        if String.eqb v "" then Err PointerEmpty
        else if String.eqb v LatestVersion then Err PointerRecurses
        else named_version v
    end
  else named_version requested.
End Versions.

(** ** Models chosen from a bundle *)

Section Choice.
Context `{GoUnicode}.
(** scorer.go: the provider that serves a registry entry under the available set. *)
Definition resolveProviderFor (modelID registryProvider : string) (available : gset string) : string :=
  match ByID modelID with
  | None => if in_set registryProvider available then registryProvider else ""
  | Some m =>
      match m.(model_Tier) with
      | TierUnknown => ""
      | _ => match List.find (fun b => in_set b.(Catalog.Provider) available) m.(Providers) with
             | Some b => b.(Catalog.Provider)
             | None => ""
             end
      end
  end.

(** What the loops of [cheapestModelFiltered] and [fastestModelFiltered] look at first. *)
Definition choosable (available denySet : gset string) (allowSet : option (gset string)) (e : Entry.t) : option string :=
  let resolved := resolveProviderFor e.(Entry.Model) e.(Entry.Provider) available in
  if String.eqb resolved "" then None
  else if match allowSet with Some s => negb (in_set e.(Entry.Model) s) | None => false end then None
  else if in_set e.(Entry.Model) denySet then None
  else Some resolved.
(** The best entry so far: its value, provider and model. *)
Definition Best : Type := option (f64 * string * string).
Definition cheaper (meta : ArtifactMetadata) (available denySet : gset string) (allowSet : option (gset string)) (best : Best) (e : Entry.t) : Best :=
  match choosable available denySet allowSet e, meta.(CostPer1KInputUSD) !! e.(Entry.Model) with
  | Some resolved, Some cost =>
      let bestCost := match best with Some (c, _, _) => c | None => f64_of_Z (-1) end in
      if (f_lt bestCost f_zero || f_lt cost bestCost)%bool then Some (cost, resolved, e.(Entry.Model)) else best
  | _, _ => best
  end.
Definition cheapestModelFiltered (meta : ArtifactMetadata) (registry : ModelRegistry) (available denySet : gset string) (allowSet : option (gset string)) : Best :=
  fold_left (cheaper meta available denySet allowSet) registry None.
Definition CheapestModel (meta : ArtifactMetadata) (registry : ModelRegistry) (available : gset string) : Best :=
  cheapestModelFiltered meta registry available ∅ None.
Definition CheapestModelInSet (meta : ArtifactMetadata) (registry : ModelRegistry) (available denySet : gset string) (allowSet : option (gset string)) : Best :=
  cheapestModelFiltered meta registry available denySet allowSet.
Definition faster (meta : ArtifactMetadata) (available denySet : gset string) (allowSet : option (gset string)) (best : Best) (e : Entry.t) : Best :=
  match choosable available denySet allowSet e with
  | Some resolved =>
      match meta.(TokPerS) !! resolved ≫= (fun byModel => byModel !! e.(Entry.Model)) with
      | Some speed =>
          let bestSpeed := match best with Some (s, _, _) => s | None => f64_of_Z (-1) end in
          if f_gt speed bestSpeed then Some (speed, resolved, e.(Entry.Model)) else best
      | None => best
      end
  | None => best
  end.
Definition fastestModelFiltered (meta : ArtifactMetadata) (registry : ModelRegistry) (available denySet : gset string) (allowSet : option (gset string)) : Best :=
  match fold_left (faster meta available denySet allowSet) registry None with
  | Some best => Some best
  | None => cheapestModelFiltered meta registry available denySet allowSet
  end.
Definition FastestModel (meta : ArtifactMetadata) (registry : ModelRegistry) (available : gset string) : Best :=
  fastestModelFiltered meta registry available ∅ None.
Definition FastestModelInSet (meta : ArtifactMetadata) (registry : ModelRegistry) (available denySet : gset string) (allowSet : option (gset string)) : Best :=
  fastestModelFiltered meta registry available denySet allowSet.
Definition RoutableModelSet (registry : ModelRegistry) (available : gset string) : gset string :=
  fold_left (fun out e => if String.eqb (resolveProviderFor e.(Entry.Model) e.(Entry.Provider) available) "" then out else {[e.(Entry.Model)]} ∪ out) registry ∅.
End Choice.
