(* ===== verification/Scorer.v ===== *)
(** The cluster router (internal/router/cluster/scorer.go, distribution.go, knobs.go, multiversion.go): a prompt is
    embedded, the clusters nearest to it are found, each eligible model is scored on them and the best one is served.
    The embedding model is a parameter; logs are left out. *)

From stdpp Require Import base gmap sets list strings sorting.
From Stdlib Require Import ZArith SpecFloat Lia Ascii.
From S2P Require Import Prelude Strings Sse Hash Floats Bits Types Catalog Resolver Bundle.
Open Scope string_scope.
Open Scope Z_scope.

(** ** Configuration and the embedder *)

Record Config := { TopP : Z; MaxPromptChars : Z; EmbedTimeout : Z; EmbedOverallTimeout : Z }.
Definition embedOverall (c : Config) : Z := if 0 <? c.(EmbedOverallTimeout) then c.(EmbedOverallTimeout) else wrap64 (2 * c.(EmbedTimeout)).
Definition DefaultConfig : Config := {| TopP := 4; MaxPromptChars := 1024; EmbedTimeout := 3000 * Millisecond; EmbedOverallTimeout := 0 |}.

(** An attempt at embedding a text: when it ends, if it does, and what it gives; a panic is an error. *)
Record Attempt := { finishes : option Z; outcome : option (list f32) }.
Record Embedder := { embedder_ID : string; embedder_Dim : Z; Embed : string -> Attempt }.
(** The wait: past the soft timeout it goes on with the same attempt; an answer that is there when the time is up
    still counts. *)
Definition awaited (c : Config) (a : Attempt) : option (list f32) :=
  match a.(finishes) with
  | Some t => if t <=? embedOverall c then a.(outcome) else None
  | None => None
  end.

(** [TailTruncate]: the last bytes, from a boundary between runes. *)
Fixpoint skip_continuation (s : string) : string :=
  match s with
  | String a s' => if Z.land (bval a) 0xC0 =? 0x80 then skip_continuation s' else s
  | EmptyString => s
  end.
Definition TailTruncate (s : string) (maxChars : Z) : string :=
  if len s <=? maxChars then s else skip_continuation (str_drop (Z.to_nat (len s - maxChars)) s).

(** ** The scorer *)

Record Scorer := {
  version : string;
  cfg : Config;
  embed : Embedder;
  centroids : Centroids.t;
  rankings : Rankings;
  candidates : list Entry.t;
  availableProviders : gset string;
  models : list string;
  metadata : option ArtifactMetadata;
  isV2 : bool;
  qualityMeans : Rankings;
  modelAxes : gmap string Axis.t;
  medianVerbosity : f64;
  dialAlphaBreakpoints : list f64
}.
Definition set_dialAlphaBreakpoints (l : list f64) (s : Scorer) : Scorer := {|
  version := s.(version); cfg := s.(cfg); embed := s.(embed); centroids := s.(centroids); rankings := s.(rankings);
  candidates := s.(candidates); availableProviders := s.(availableProviders); models := s.(models); metadata := s.(metadata);
  isV2 := s.(isV2); qualityMeans := s.(qualityMeans); modelAxes := s.(modelAxes); medianVerbosity := s.(medianVerbosity);
  dialAlphaBreakpoints := l |}.
Definition CacheThresholds (s : Scorer) : gmap Z f32 * f32 :=
  match s.(metadata) ≫= CacheCfg with
  | Some c => (c.(PerClusterThreshold), c.(DefaultThreshold))
  | None => (∅, f_zero)
  end.

(** ** Scores (topPNearest, argmax, runnerUp, blendScoresV2) *)

(** [sum += v * vec[i]] over a row; the vector has the row's length. *)
Definition dot (row vec : list f32) : f32 := fold_left (fun sum xy => f32_add sum (f32_mul xy.1 xy.2)) (combine row vec) f_zero.
(** The order of [sort.SliceStable] on (similarity, index).  It is an order unless a similarity is NaN; which
    clusters a vector with a NaN is nearest to is the sorting algorithm's. *)
Definition nearer (x y : f32 * Z) : Prop := if f_eq x.1 y.1 then x.2 <= y.2 else f_gt x.1 y.1 = true.
#[global] Instance nearer_dec : RelDecision nearer.
Proof. intros x y. unfold nearer. destruct (f_eq x.1 y.1); apply _. Defined.
Definition topPNearest (vec : list f32) (c : Centroids.t) (p : Z) : list Z :=
  let p := if c.(Centroids.K) <? p then c.(Centroids.K) else p in
  let scored := (fun k => (dot (Centroids.Row c k) vec, k)) <$> cluster_ids c.(Centroids.K) in
  merge_sort Z.le (snd <$> firstn (Z.to_nat p) (merge_sort nearer scored)).

Definition better (scores : gmap string f32) (best : option (string * f32)) (m : string) : option (string * f32) :=
  match scores !! m with
  | None => best
  | Some s => match best with
              | None => Some (m, s)
              | Some (_, bestScore) => if f_gt s bestScore then Some (m, s) else best
              end
  end.
Definition best_of (scores : gmap string f32) (order : list string) : option (string * f32) := fold_left (better scores) order None.
Definition argmax (scores : gmap string f32) (order : list string) : string * f32 := default ("", f_zero) (best_of scores order).
Definition runnerUp (scores : gmap string f32) (order : list string) (exclude : string) : string * f32 :=
  default ("", f_zero) (best_of scores (List.filter (fun m => negb (String.eqb m exclude)) order)).

Definition subsidyMaxBonus : f32 := f32_of_Z 1.
Definition preferredBonusBase : f32 := f32_lit 15 100.
Definition preferredBonusDecay : f64 := f64_lit 55 100.
(** [math.Pow(x, n)] for an integer [n >= 0] and [x] in [1/2, 1), whose [Frexp] is [(x, 0)]: squarings of the
    fraction, its exponent kept apart. *)
Fixpoint pow_loop (fuel : nat) (i : Z) (a1 : f64) (ae : Z) (x1 : f64) (xe : Z) : f64 * Z :=
  match fuel with
  | O => (a1, ae)
  | S f =>
      if i =? 0 then (a1, ae)
      else if (xe <? - 4096) || (4096 <? xe) then (a1, ae + xe)
      else
        let '(a1, ae) := if Z.odd i then (f64_mul a1 x1, ae + xe) else (a1, ae) in
        let x1 := f64_mul x1 x1 in
        let xe := 2 * xe in
        if f_lt x1 (f64_lit 1 2) then pow_loop f (Z.div2 i) a1 ae (f64_add x1 x1) (xe - 1)
        else pow_loop f (Z.div2 i) a1 ae x1 xe
  end%bool.
Definition math_Pow (x : f64) (n : Z) : f64 :=
  if n =? 0 then f64_of_Z 1
  else if n =? 1 then x
  else let '(a1, ae) := pow_loop 64 n (f64_of_Z 1) 0 x 0 in SFldexp 53 1024 a1 ae.
Definition priorityBonusFor (rank : Z) : f32 :=
  if rank <? 0 then f_zero else f32_mul preferredBonusBase (f32_of_f64 (math_Pow preferredBonusDecay rank)).

Definition contextWindowReference : Z := 256000.
Definition contextWindowEngageFloor : Z := 128000.

(** The least and greatest of a list: the loops that set both from the first value. *)
Definition widen (acc : option (spec_float * spec_float)) (v : spec_float) : option (spec_float * spec_float) :=
  match acc with
  | None => Some (v, v)
  | Some (lo, hi) => Some (if f_lt v lo then v else lo, if f_gt v hi then v else hi)
  end.
Definition extent (l : list spec_float) : option (spec_float * spec_float) := fold_left widen l None.
Definition quality (row : gmap string f32) (m : string) : f32 := default f_zero (row !! m).
Definition cluster_row (r : Rankings) (k : Z) : gmap string f32 := default ∅ (r !! k).

Section Blend.
Context `{GoUnicode}.
Variable s : Scorer.
Variable knobs : Knobs.t.
Definition zero_axis : Axis.t := Axis.Build_t None None None None None.
Definition axis_of (m : string) : Axis.t := default zero_axis (s.(modelAxes) !! m).
Definition cost_of (m : string) : f64 :=
  let axis := axis_of m in
  let vFactor := match axis.(Axis.VerbosityTokens) with
                 | Some v => if (knobs.(Knobs.PerModelVerbosity) && f_gt s.(medianVerbosity) f_zero)%bool then f64_div v s.(medianVerbosity) else f64_of_Z 1
                 | None => f64_of_Z 1
                 end in
  f64_add (default f_zero axis.(Axis.InputPer1KUSD))
          (f64_mul (f64_mul knobs.(Knobs.OutputCostRatio) (default f_zero axis.(Axis.OutputPer1KUSD))) vFactor).
Definition speed_of (m : string) : option f64 :=
  match (axis_of m).(Axis.TTFTSeconds), (axis_of m).(Axis.TPS) with
  | Some ttft, Some tps => if f_gt tps f_zero then Some (f64_add ttft (f64_div (f64_of_Z knobs.(Knobs.ExpectedOutputTokens)) tps)) else None
  | _, _ => None
  end.
(** The maps filled for the deployed models. *)
Definition costs : gmap string f64 := list_to_map ((fun m => (m, cost_of m)) <$> s.(models)).
Definition speeds : gmap string (option f64) := list_to_map ((fun m => (m, speed_of m)) <$> s.(models)).
Definition cost_extent : option (f64 * f64) := extent ((fun m => default f_zero (costs !! m)) <$> s.(models)).
Definition useSpeed : bool := f_gt knobs.(Knobs.SpeedWeight) f_zero.
Definition speed_extent : option (f64 * f64) :=
  if useSpeed then extent (omap (fun m => default None (speeds !! m)) s.(models)) else None.
Definition range64 (e : option (f64 * f64)) : f64 := match e with Some (lo, hi) => f64_sub hi lo | None => f_zero end.

Variable estimatedTokens : Z.
Definition margin : f64 :=
  let margin := f64_div (f64_of_Z (estimatedTokens - contextWindowEngageFloor)) (f64_of_Z (contextWindowReference - contextWindowEngageFloor)) in
  if f_gt margin (f64_of_Z 1) then f64_of_Z 1 else margin.
Definition ctx_bump (m : string) : option f32 :=
  if (f_eq knobs.(Knobs.ContextWindowWeight) f_zero || (estimatedTokens <=? contextWindowEngageFloor))%bool then None
  else
    let appear := f64_mul margin (f64_sub (f64_div (f64_of_Z (ContextWindowFor m)) (f64_of_Z contextWindowReference)) (f64_of_Z 1)) in
    Some (f32_mul (f32_of_f64 knobs.(Knobs.ContextWindowWeight)) (f32_of_f64 appear)).

Definition one32 : f32 := f32_of_Z 1.
(** The blend of one model on one cluster. *)
Definition blend (k : Z) (m : string) : f32 :=
  let row := cluster_row s.(qualityMeans) k in
  let wQ := f32_of_f64 (nth (Z.to_nat k) knobs.(Knobs.Alpha) f_zero) in
  let wS := if useSpeed then f32_of_f64 knobs.(Knobs.SpeedWeight) else f_zero in
  let wC := f32_sub (f32_sub one32 wQ) wS in
  let '(qMin, qMax) := default (f_zero, f_zero) (extent (quality row <$> s.(models))) in
  let qRange := f32_sub qMax qMin in
  let qNorm := if f_gt qRange f_zero then f32_div (f32_sub (quality row m) qMin) qRange else f_zero in
  let cRange := range64 cost_extent in
  let cMin := match cost_extent with Some (lo, _) => lo | None => f_zero end in
  let cVal := default f_zero (costs !! m) in
  let cNorm := if f_gt cRange f_zero then f32_of_f64 (f64_div (f64_sub cVal cMin) cRange) else f_zero in
  let sRange := range64 speed_extent in
  let sMin := match speed_extent with Some (lo, _) => lo | None => f_zero end in
  if f_gt sRange f_zero then
    let sNorm := match default None (speeds !! m) with
                 | Some v => f32_of_f64 (f64_div (f64_sub v sMin) sRange)
                 | None => one32
                 end in
    f32_add (f32_add (f32_mul wQ qNorm) (f32_mul wC (f32_sub one32 cNorm))) (f32_mul wS (f32_sub one32 sNorm))
  else
    let total := f32_add wQ wC in
    if f_gt total f_zero then f32_add (f32_mul (f32_div wQ total) qNorm) (f32_mul (f32_div wC total) (f32_sub one32 cNorm))
    else qNorm.

Variable subsidyFactors : gmap string f64.
Variable priorityBonus : gmap string f32.
(** What one cluster adds to the score of one model. *)
Definition plus (b : option f32) (x : f32) : f32 := match b with Some b => f32_add x b | None => x end.
Definition scored_on (k : Z) (m : string) (x : f32) : f32 :=
  plus (ctx_bump m) (plus (priorityBonus !! m)
    (plus ((fun f => f32_mul subsidyMaxBonus (f32_of_f64 (f64_sub (f64_of_Z 1) f))) <$> subsidyFactors !! m)
      (f32_add x (blend k m)))).
Definition score_step (k : Z) (scores : gmap string f32) (m : string) : gmap string f32 :=
  <[m := scored_on k m (default f_zero (scores !! m))]> scores.
End Blend.
Definition blendScoresV2 `{GoUnicode} (s : Scorer) (topClusters : list Z) (activeKnobs : Knobs.t) (eligibleModels : list string)
    (subsidyFactors : gmap string f64) (priorityBonus : gmap string f32) (estimatedTokens : Z) : gmap string f32 :=
  let step := score_step s activeKnobs (Z.max estimatedTokens 0) subsidyFactors priorityBonus in
  fold_left (fun scores k => fold_left (step k) eligibleModels scores) topClusters ∅.

(** ** The knobs (distribution.go, scorer.go, knobs.go) *)

Definition default_alpha : f64 := f64_lit 53 100.
Definition clone_floor (f : option (list f64)) : option (list f64) := match f with Some [] => None | f => f end.
Definition defaultActiveKnobs (s : Scorer) : Knobs.t :=
  match s.(metadata) ≫= DefaultKnobs with
  | Some k => {| Knobs.Alpha := k.(Knobs.Alpha); Knobs.AlphaFloor := clone_floor k.(Knobs.AlphaFloor); Knobs.SpeedWeight := k.(Knobs.SpeedWeight);
                 Knobs.OutputCostRatio := k.(Knobs.OutputCostRatio); Knobs.ExpectedOutputTokens := k.(Knobs.ExpectedOutputTokens);
                 Knobs.PerModelVerbosity := k.(Knobs.PerModelVerbosity); Knobs.ContextWindowWeight := k.(Knobs.ContextWindowWeight) |}
  | None => {| Knobs.Alpha := replicate (Z.to_nat s.(centroids).(Centroids.K)) default_alpha; Knobs.AlphaFloor := None; Knobs.SpeedWeight := f_zero;
               Knobs.OutputCostRatio := f_zero; Knobs.ExpectedOutputTokens := 2000; Knobs.PerModelVerbosity := false;
               Knobs.ContextWindowWeight := f_zero |}
  end.
Definition dialToAlpha (s : Scorer) (t : f64) : f64 :=
  if f_le t f_zero then f_zero
  else if f_ge t (f64_of_Z 1) then f64_of_Z 1
  else
    let bp := s.(dialAlphaBreakpoints) in
    let n := Z.of_nat (length bp) in
    if n <? 2 then t
    else
      let at_ (i : Z) := nth (Z.to_nat i) bp f_zero in
      let x := f64_mul t (f64_of_Z (n - 1)) in
      let i := f64_to_int x in
      if n - 1 <=? i then at_ (n - 1)
      else
        let frac := f64_sub x (f64_of_Z i) in
        f64_add (at_ i) (f64_mul frac (f64_sub (at_ (i + 1)) (at_ i))).
Definition applyDialAlpha (s : Scorer) (t : f64) (alpha : list f64) (floor : option (list f64)) : list f64 :=
  let a := dialToAlpha s t in
  match floor with
  | Some fl => imap (fun i _ => let f := nth i fl f_zero in if f_gt f a then f else a) alpha
  | None => (fun _ => a) <$> alpha
  end.

(** The bytes the hash is taken over, and the hash. *)
Definition knobs_buffer (k : Knobs.t) : list Z :=
  (le_bytes 4 (Z.of_nat (length k.(Knobs.Alpha)) mod 2 ^ 32) ++ List.flat_map (fun a => le_bytes 8 (Float64bits a)) k.(Knobs.Alpha)
   ++ le_bytes 8 (Float64bits k.(Knobs.SpeedWeight)) ++ le_bytes 8 (Float64bits k.(Knobs.OutputCostRatio))
   ++ le_bytes 4 (k.(Knobs.ExpectedOutputTokens) mod 2 ^ 32) ++ [if k.(Knobs.PerModelVerbosity) then 1 else 0]
   ++ le_bytes 8 (Float64bits k.(Knobs.ContextWindowWeight)))%list.
Definition ComputeKnobsHash (k : Knobs.t) : Z := le_value (firstn 8 (Sum256 (knobs_buffer k))).

(** ** The dial's calibration *)

Section Calibration.
Context `{GoUnicode}.
Definition allCentroidTopClusters (s : Scorer) : list (list Z) :=
  (fun c => topPNearest (Centroids.Row s.(centroids) c) s.(centroids) s.(cfg).(TopP)) <$> cluster_ids s.(centroids).(Centroids.K).
(** The winners of the centroids, an empty one skipped, counted. *)
Definition count (counts : gmap string Z) (winner : string) : gmap string Z :=
  if String.eqb winner "" then counts else <[winner := default 0 (counts !! winner) + 1]> counts.
Definition winner_of (s : Scorer) (knobs : Knobs.t) (eligible : list string) (topClusters : list Z) : string :=
  (argmax (blendScoresV2 s topClusters knobs eligible ∅ ∅ 0) eligible).1.
Definition mix (s : Scorer) (knobs : Knobs.t) (eligible : list string) (tops : list (list Z)) : gmap string Z :=
  fold_left (fun counts top => count counts (winner_of s knobs eligible top)) tops ∅.
Definition keys {A} (m : gmap string A) : list string := (map_to_list m).*1.
Definition mixSignature (counts : gmap string Z) : string :=
  String.concat "" ((fun m => m +:+ ":" +:+ WriteJSONInt (default 0 (counts !! m)) +:+ ",") <$> sort_strings (keys counts)).
Definition qualityBiasCalibrationGrid : Z := 401.
Definition grid_position (g n : Z) : f64 := f64_div (f64_of_Z g) (f64_of_Z (n - 1)).
Definition uniform (s : Scorer) (a : f64) : Knobs.t :=
  Knobs.set_Alpha (replicate (Z.to_nat s.(centroids).(Centroids.K)) a) (defaultActiveKnobs s).
Definition calibrate (s : Scorer) (tops : list (list Z)) (acc : list f64 * string) (g : Z) : list f64 * string :=
  let a := grid_position g qualityBiasCalibrationGrid in
  let sig := mixSignature (mix s (uniform s a) s.(models) tops) in
  if String.eqb sig acc.2 then acc else ((acc.1 ++ [a])%list, sig).
Definition computeDialCalibration (s : Scorer) : list f64 :=
  let bps := (fold_left (calibrate s (allCentroidTopClusters s)) (cluster_ids qualityBiasCalibrationGrid) ([], "")).1 in
  if (length bps <? 2)%nat then []
  else (f_zero :: removelast (tl bps) ++ [f64_of_Z 1])%list.
End Calibration.

(** ** Construction *)

Inductive ScorerFault :=
| TopPNotPositive | MaxPromptCharsNotPositive | NoProviders | EmbedderMismatch | EmbedderDimMismatch | FewerClustersThanTopP
| NothingDeployed | ClusterMissing (k : Z) | ClusterMissingModel (k : Z) (m : string) | AlphaLengthWrong | FloorLengthWrong | FloorOutOfRange.
Definition ensure {E : Type} (ok : bool) (e : E) : res E unit := if ok then Ok tt else Err e.

Section Construction.
Context `{GoUnicode}.
Definition filterByProviders (entries : list Entry.t) (available : gset string) : list Entry.t :=
  omap (fun e => let resolved := resolveProviderFor e.(Entry.Model) e.(Entry.Provider) available in
                 if String.eqb resolved "" then None else Some (Entry.set_Provider resolved e)) entries.
Definition model_le (a b : Entry.t) : Prop := str_le a.(Entry.Model) b.(Entry.Model).
#[global] Instance model_le_dec : RelDecision model_le.
Proof. intros a b. unfold model_le. apply _. Defined.
Fixpoint dedup_adjacent (last : option string) (l : list Entry.t) : list Entry.t :=
  match l with
  | [] => []
  | e :: l' => if bool_decide (last = Some e.(Entry.Model)) then dedup_adjacent last l' else e :: dedup_adjacent (Some e.(Entry.Model)) l'
  end.
(** Every cluster has a row, and every row a score for every model. *)
Fixpoint covered (table : Rankings) (ms : list string) (clusters : list Z) : res ScorerFault unit :=
  match clusters with
  | [] => Ok tt
  | k :: rest =>
      match table !! k with
      | None => Err (ClusterMissing k)
      | Some row => match List.find (fun m => negb (has_key row m)) ms with
                    | Some m => Err (ClusterMissingModel k m)
                    | None => covered table ms rest
                    end
      end
  end.
Definition floor_valid (f : f64) : bool := negb (f_lt f f_zero || f_gt f (f64_of_Z 1)).
Definition validate_defaults (k : Knobs.t) (K : Z) : res ScorerFault unit :=
  let! _ := ensure (Z.of_nat (length k.(Knobs.Alpha)) =? K) AlphaLengthWrong in
  match k.(Knobs.AlphaFloor) with
  | None => Ok tt
  | Some fl =>
      let! _ := ensure (Z.of_nat (length fl) =? K) FloorLengthWrong in
      ensure (forallb floor_valid fl) FloorOutOfRange
  end.
Definition deployable (bundle : Bundle) (available : gset string) : list Entry.t :=
  dedup_adjacent None (merge_sort model_le (filterByProviders bundle.(Registry) available)).
Definition validate_bundle (bundle : Bundle) (ms : list string) : res ScorerFault unit :=
  let clusters := cluster_ids bundle.(bundle_Centroids).(Centroids.K) in
  if bundle.(IsV2) then
    let! _ := covered bundle.(QualityMeans) ms clusters in
    match bundle.(bundle_Metadata) ≫= DefaultKnobs with
    | Some k => validate_defaults k bundle.(bundle_Centroids).(Centroids.K)
    | None => Ok tt
    end
  else covered bundle.(bundle_Rankings) ms clusters.
Definition scorer_of (bundle : Bundle) (cfg : Config) (embed : Embedder) (available : gset string) : Scorer :=
  let candidates := deployable bundle available in {|
    version := bundle.(Version); cfg := cfg; embed := embed; centroids := bundle.(bundle_Centroids); rankings := bundle.(bundle_Rankings);
    candidates := candidates; availableProviders := available; models := Entry.Model <$> candidates; metadata := bundle.(bundle_Metadata);
    isV2 := bundle.(IsV2); qualityMeans := bundle.(QualityMeans); modelAxes := bundle.(ModelAxes); medianVerbosity := bundle.(MedianVerbosity);
    dialAlphaBreakpoints := [] |}.
Definition NewScorer (bundle : Bundle) (cfg : Config) (embed : Embedder) (available : gset string) : res ScorerFault Scorer :=
  let K := bundle.(bundle_Centroids).(Centroids.K) in
  let! _ := ensure (0 <? cfg.(TopP)) TopPNotPositive in
  let! _ := ensure (0 <? cfg.(MaxPromptChars)) MaxPromptCharsNotPositive in
  let! _ := ensure (negb (bool_decide (available = ∅))) NoProviders in
  let! _ := ensure (String.eqb embed.(embedder_ID) (EmbedderID bundle)) EmbedderMismatch in
  let! _ := ensure (embed.(embedder_Dim) =? bundle.(bundle_Centroids).(Centroids.Dim)) EmbedderDimMismatch in
  let! _ := ensure (cfg.(TopP) <=? K) FewerClustersThanTopP in
  let! _ := ensure (match deployable bundle available with [] => false | _ => true end) NothingDeployed in
  let s := scorer_of bundle cfg embed available in
  let! _ := validate_bundle bundle s.(models) in
  Ok (if bundle.(IsV2) then set_dialAlphaBreakpoints (computeDialCalibration s) s else s).

(** ** Routing *)

(** The sentinel an error wraps decides the client's status. *)
Inductive Sentinel := ErrClusterUnavailable | ErrNoEligibleProvider | ErrInvalidRoutingKnobs.
Inductive RouteFault :=
| EmbedFailed | EmbeddingDimMismatch
| NoProviderOverlap | AllowlistEmptiesPool | ExclusionsEmptyPool
| QualityBiasInvalid | AlphaLength | SpeedWeightInvalid | AlphaInvalid (i : Z) | AlphaSpeedInvalid (i : Z) | OutputCostRatioInvalid
| ExpectedTokensInvalid | NothingScored | NotDeployed | VersionNotBuilt.
Definition wraps (f : RouteFault) : Sentinel :=
  match f with
  | EmbedFailed | EmbeddingDimMismatch | AlphaLength | NothingScored | NotDeployed | VersionNotBuilt => ErrClusterUnavailable
  | NoProviderOverlap | AllowlistEmptiesPool | ExclusionsEmptyPool => ErrNoEligibleProvider
  | _ => ErrInvalidRoutingKnobs
  end.

(** The request's provider gate, with the binding of each model that passes it. *)
Definition providers_of (s : Scorer) (enabled : gset string) : list (string * string) :=
  List.filter (fun mp => negb (String.eqb mp.2 "")) ((fun c => (c.(Entry.Model), resolveProviderFor c.(Entry.Model) c.(Entry.Provider) enabled)) <$> s.(candidates)).
Definition resolvedProvider (s : Scorer) (r : Request.t) : gmap string string :=
  match r.(Request.EnabledProviders) with Some enabled => list_to_map (providers_of s enabled) | None => ∅ end.
Definition nonempty {A E : Type} (l : list A) (e : E) : res E (list A) := match l with [] => Err e | _ => Ok l end.
Definition without (drop : gset string) (ms : list string) : list string := List.filter (fun m => negb (in_set m drop)) ms.
Definition gated (s : Scorer) (r : Request.t) : res RouteFault (list string) :=
  match r.(Request.EnabledProviders) with
  | Some enabled => nonempty (providers_of s enabled).*1 NoProviderOverlap
  | None => Ok s.(models)
  end.
Definition excluded (r : Request.t) (ms : list string) : res RouteFault (list string) :=
  if listed r.(Request.ExcludedModels) then
    nonempty (without (default ∅ r.(Request.ExcludedModels)) ms) (if listed r.(Request.AllowedModels) then AllowlistEmptiesPool else ExclusionsEmptyPool)
  else Ok ms.
(** A preference: it is not applied when nothing would be left. *)
Definition prefer_without (active : bool) (drop : gset string) (ms : list string) : list string :=
  if active then match without drop ms with [] => ms | kept => kept end else ms.
Definition preferred_pool (r : Request.t) (ms : list string) : list string :=
  prefer_without r.(Request.HasImages) ImageUnsupportedSet
    (prefer_without r.(Request.HasTools) AgenticLowSet
      (prefer_without r.(Request.HasTools) ToolUseLowSet
        (prefer_without true (default ∅ r.(Request.AutomaticExcludedModels)) ms))).
Definition eligible_pool (s : Scorer) (r : Request.t) : res RouteFault (list string) :=
  let! pool := gated s r in
  let! pool := excluded r pool in
  Ok (preferred_pool r pool).

(** Ranks are those of the preferences that are eligible, each counted once. *)
Definition ranked (pool : list string) (acc : gmap string f32 * Z) (m : string) : gmap string f32 * Z :=
  if (negb (in_strings m pool) || has_key acc.1 m)%bool then acc
  else (<[m := priorityBonusFor acc.2]> acc.1, acc.2 + 1).
Definition priority_bonus (preferred pool : list string) : gmap string f32 := (fold_left (ranked pool) preferred (∅, 0)).1.

Definition dial_valid (t : f64) : bool := negb (is_nan t || is_inf t || f_lt t f_zero || f_gt t (f64_of_Z 1)).
Definition override_alpha (s : Scorer) (o : Overrides) (k : Knobs.t) : res RouteFault Knobs.t :=
  match o.(QualityBias), o.(Alpha) with
  | Some t, _ => if dial_valid t then Ok (Knobs.set_Alpha (applyDialAlpha s t k.(Knobs.Alpha) k.(Knobs.AlphaFloor)) k) else Err QualityBiasInvalid
  | None, Some a => Ok (Knobs.set_Alpha ((fun _ => a) <$> k.(Knobs.Alpha)) k)
  | None, None => Ok k
  end.
Definition override_rest (o : Overrides) (k : Knobs.t) : Knobs.t := {|
  Knobs.Alpha := k.(Knobs.Alpha); Knobs.AlphaFloor := k.(Knobs.AlphaFloor);
  Knobs.SpeedWeight := default k.(Knobs.SpeedWeight) o.(SpeedWeight); Knobs.OutputCostRatio := default k.(Knobs.OutputCostRatio) o.(OutputCostRatio);
  Knobs.ExpectedOutputTokens := default k.(Knobs.ExpectedOutputTokens) o.(ExpectedOutputTokens);
  Knobs.PerModelVerbosity := default k.(Knobs.PerModelVerbosity) o.(PerModelVerbosity); Knobs.ContextWindowWeight := k.(Knobs.ContextWindowWeight) |}.
Definition override_knobs (s : Scorer) (o : option Overrides) : res RouteFault Knobs.t :=
  match o with
  | None => Ok (defaultActiveKnobs s)
  | Some o => let! k := override_alpha s o (defaultActiveKnobs s) in Ok (override_rest o k)
  end.
Definition weight_sum_limit : f64 := f64_lit 1000000001 1000000000.
Fixpoint check_alphas (speed : f64) (i : Z) (alphas : list f64) : res RouteFault unit :=
  match alphas with
  | [] => Ok tt
  | a :: rest =>
      if (f_lt a f_zero || f_gt a (f64_of_Z 1))%bool then Err (AlphaInvalid i)
      else if f_gt (f64_add a speed) weight_sum_limit then Err (AlphaSpeedInvalid i)
      else check_alphas speed (i + 1) rest
  end.
Definition validate_knobs (s : Scorer) (k : Knobs.t) : res RouteFault unit :=
  let outside (x : f64) (hi : Z) := (f_lt x f_zero || f_gt x (f64_of_Z hi))%bool in
  let! _ := ensure (Z.of_nat (length k.(Knobs.Alpha)) =? s.(centroids).(Centroids.K)) AlphaLength in
  let! _ := ensure (negb (outside k.(Knobs.SpeedWeight) 1)) SpeedWeightInvalid in
  let! _ := check_alphas k.(Knobs.SpeedWeight) 0 k.(Knobs.Alpha) in
  let! _ := ensure (negb (outside k.(Knobs.OutputCostRatio) 10)) OutputCostRatioInvalid in
  ensure ((0 <=? k.(Knobs.ExpectedOutputTokens)) && (k.(Knobs.ExpectedOutputTokens) <=? 100000))%bool ExpectedTokensInvalid.

(** The scores of the eligible models, with the hash of the knobs they were computed under. *)
Definition static_scores (s : Scorer) (topClusters : list Z) (pool : list string) : gmap string f32 :=
  fold_left (fun scores k => fold_left (fun scores m =>
    <[m := f32_add (default f_zero (scores !! m)) (quality (cluster_row s.(rankings) k) m)]> scores) pool scores) topClusters ∅.
Definition scored (s : Scorer) (req : PolicyRequest) (pool : list string) (topClusters : list Z) : res RouteFault (gmap string f32 * Z) :=
  if s.(isV2) then
    let! k := override_knobs s req.(RoutingKnobs) in
    let! _ := validate_knobs s k in
    Ok (blendScoresV2 s topClusters k pool req.(turn).(Request.SubsidizedModelCostFactor) (priority_bonus req.(PreferredModels) pool)
          req.(turn).(Request.EstimatedInputTokens), ComputeKnobsHash k)
  else Ok (static_scores s topClusters pool, 0).

Definition lookupCandidate (s : Scorer) (m : string) : option Entry.t := List.find (fun c => String.eqb c.(Entry.Model) m) s.(candidates).
Definition clusterIDsString (ks : list Z) : string := "[" +:+ String.concat "," (WriteJSONInt <$> ks) +:+ "]".
Definition provider_for (s : Scorer) (r : Request.t) (m : string) : string :=
  match resolvedProvider s r !! m with
  | Some p => p
  | None => match lookupCandidate s m with Some c => c.(Entry.Provider) | None => "" end
  end.
Definition candidate_providers (s : Scorer) (r : Request.t) (pool : list string) : gmap string string :=
  match r.(Request.EnabledProviders) with
  | Some _ => list_to_map (omap (fun m => (fun p => (m, p)) <$> resolvedProvider s r !! m) pool)
  | None => list_to_map ((fun c => (c.(Entry.Model), c.(Entry.Provider))) <$> s.(candidates))
  end.
Definition cluster_decision (s : Scorer) (r : Request.t) (vec : list f32) (topClusters : list Z) (pool : list string)
    (scores : gmap string f32) (hash : Z) (chosen : Entry.t) (chosenScore : f32) : Decision.t :=
  let provider := provider_for s r chosen.(Entry.Model) in
  let '(paired, pairedScore) := runnerUp scores pool chosen.(Entry.Model) in {|
    Decision.Provider := provider; Decision.Model := chosen.(Entry.Model); Decision.Effort := "";
    Decision.Reason := "cluster:" +:+ s.(version) +:+ " top_p=" +:+ clusterIDsString topClusters +:+ " model=" +:+ chosen.(Entry.Model)
                       +:+ " provider=" +:+ provider;
    Decision.Metadata := Some {|
      Metadata.ClusterIDs := topClusters; Metadata.CandidateModels := pool; Metadata.ChosenScore := chosenScore;
      Metadata.ClusterRouterVersion := s.(version); Metadata.Strategy := ""; Metadata.RouteID := ""; Metadata.PolicyRouteKey := "";
      Metadata.PolicyGroup := ""; Metadata.PolicyArtifactID := ""; Metadata.PolicyArtifactSHA256 := ""; Metadata.RosterVersion := "";
      Metadata.SelectedArmID := ""; Metadata.SelectedRosterArmID := ""; Metadata.SelectedUpstreamID := ""; Metadata.BindingIndex := 0;
      Metadata.CandidateArmIDs := []; Metadata.SidecarSchemaVersion := ""; Metadata.DebugRef := ""; Metadata.AuthoritativePerTurnSelection := false;
      Metadata.DisplayMarker := ""; Metadata.EffectiveKnobsHash := hash;
      Metadata.CandidateScores := list_to_map (omap (fun m => (fun v => (m, v)) <$> scores !! m) pool);
      Metadata.CandidateArmScores := ∅; Metadata.CandidateProviders := candidate_providers s r pool; Metadata.CandidateArmProviders := ∅;
      Metadata.Propensity := f32_of_Z 1; Metadata.PairedModel := paired;
      Metadata.PairedProvider := if String.eqb paired "" then "" else provider_for s r paired; Metadata.PairedScore := pairedScore;
      Metadata.ArmScores := ∅; Metadata.Embedding := vec |} |}.
(** After the embedding. *)
Definition route_vector (s : Scorer) (req : PolicyRequest) (vec : list f32) : res RouteFault Decision.t :=
  let! pool := eligible_pool s req.(turn) in
  let topClusters := topPNearest vec s.(centroids) s.(cfg).(TopP) in
  let! sh := scored s req pool topClusters in
  let '(chosenModel, chosenScore) := argmax sh.1 pool in
  if String.eqb chosenModel "" then Err NothingScored
  else match lookupCandidate s chosenModel with
       | None => Err NotDeployed
       | Some chosen => Ok (cluster_decision s req.(turn) vec topClusters pool sh.1 sh.2 chosen chosenScore)
       end.
Definition Route (s : Scorer) (req : PolicyRequest) : res RouteFault Decision.t :=
  match awaited s.(cfg) (s.(embed).(Embed) (TailTruncate req.(turn).(Request.PromptText) s.(cfg).(MaxPromptChars))) with
  | None => Err EmbedFailed
  | Some vec =>
      if Z.of_nat (length vec) =? s.(centroids).(Centroids.Dim) then route_vector s req vec else Err EmbeddingDimMismatch
  end.

(** ** The preview of the dial (distribution.go) *)

Definition eligibleForDistribution (s : Scorer) (excludedModels excludedProviders : gset string) : list string :=
  if bool_decide (excludedModels = ∅ /\ excludedProviders = ∅) then s.(models)
  else
    let effective := s.(availableProviders) ∖ excludedProviders in
    Entry.Model <$> List.filter (fun c => negb (in_set c.(Entry.Model) excludedModels) &&
                                          negb (String.eqb (resolveProviderFor c.(Entry.Model) c.(Entry.Provider) effective) ""))%bool s.(candidates).
Record ModelShare := { share_Model : string; Share : f64 }.
Record DistributionPoint := { Bias : f64; Shares : list ModelShare; ProjectedCost : f64 }.
Definition share_before (a b : ModelShare) : Prop :=
  if f_eq a.(Share) b.(Share) then str_le a.(share_Model) b.(share_Model) else f_gt a.(Share) b.(Share) = true.
#[global] Instance share_before_dec : RelDecision share_before.
Proof. intros a b. unfold share_before. destruct (f_eq a.(Share) b.(Share)); apply _. Defined.
(** The order a range over the map visits its entries in: the projected cost adds in it. *)
Variable map_range : gmap string Z -> list (string * Z).
Definition dial_knobs (s : Scorer) (t : f64) : Knobs.t :=
  let k := defaultActiveKnobs s in Knobs.set_Alpha (applyDialAlpha s t k.(Knobs.Alpha) k.(Knobs.AlphaFloor)) k.
Definition distribution_point (s : Scorer) (eligible : list string) (tops : list (list Z)) (t : f64) : DistributionPoint :=
  let share (c : Z) := f64_div (f64_of_Z c) (f64_of_Z s.(centroids).(Centroids.K)) in
  let counts := map_range (mix s (dial_knobs s t) eligible tops) in
  {| Bias := t;
     Shares := merge_sort share_before ((fun mc => {| share_Model := mc.1; Share := share mc.2 |}) <$> counts);
     ProjectedCost := fold_left (fun acc mc => match s.(modelAxes) !! mc.1 ≫= Axis.InputPer1KUSD with
                                               | Some p => f64_add acc (f64_mul (share mc.2) p)
                                               | None => acc
                                               end) counts f_zero |}.
Inductive DistributionFault := RequiresV2 | ExclusionsLeaveNothing | DefaultNotBuilt.
Definition defaultDistributionGrid : Z := 21.
Definition RoutingDistribution (s : Scorer) (gridN : Z) (excludedModels excludedProviders : gset string) : res DistributionFault (list DistributionPoint) :=
  let! _ := ensure s.(isV2) RequiresV2 in
  let gridN := if gridN <? 2 then defaultDistributionGrid else gridN in
  let! eligible := nonempty (eligibleForDistribution s excludedModels excludedProviders) ExclusionsLeaveNothing in
  Ok ((fun g => distribution_point s eligible (allCentroidTopClusters s) (grid_position g gridN)) <$> cluster_ids gridN).

(** ** Versions (multiversion.go) *)

Record Multiversion := { Default : string; Versions : gmap string Scorer }.
Inductive MultiversionFault := DefaultEmpty | DefaultMissing.
Definition NewMultiversion (defaultVersion : string) (versions : gmap string Scorer) : res MultiversionFault Multiversion :=
  if String.eqb defaultVersion "" then Err DefaultEmpty
  else match versions !! defaultVersion with
       | None => Err DefaultMissing
       | Some _ => Ok {| Default := defaultVersion; Versions := versions |}
       end.
Definition Built (m : Multiversion) : list string := sort_strings (map_to_list m.(Versions)).*1.
Definition WithVersion (ctx : string) (v : string) : string := if String.eqb v "" then ctx else v.
Definition chosen_version (m : Multiversion) (requested : string) : string :=
  if (negb (String.eqb requested "") && has_key m.(Versions) requested)%bool then requested else m.(Default).
Definition Multiversion_Route (m : Multiversion) (requested : string) (req : PolicyRequest) : res RouteFault Decision.t :=
  match m.(Versions) !! chosen_version m requested with
  | None => Err VersionNotBuilt
  | Some s => Route s req
  end.
Definition DefaultDeployedModels (m : Multiversion) : list Entry.t := match m.(Versions) !! m.(Default) with Some s => s.(candidates) | None => [] end.
Definition DefaultRoutingDistribution (m : Multiversion) (gridN : Z) (excludedModels excludedProviders : gset string) : res DistributionFault (list DistributionPoint) :=
  match m.(Versions) !! m.(Default) with
  | None => Err DefaultNotBuilt
  | Some s => RoutingDistribution s gridN excludedModels excludedProviders
  end.
End Construction.
