(* ===== verification/ScorerFacts.v ===== *)
(** What the cluster router promises: the shape of a scorer, that it serves an eligible model with a binding of the
    request, that the model is the best scored one, and that the dial's preview routes as live traffic does. *)

From stdpp Require Import base gmap sets list strings sorting.
From Stdlib Require Import ZArith SpecFloat Lia Ascii.
From S2P Require Import Prelude Strings Sse Hash Floats Bits Types Catalog Resolver Bundle Scorer.
Open Scope string_scope.
Open Scope Z_scope.

(** ** The best of a list *)

Lemma best_of_snoc scores l m : best_of scores (l ++ [m])%list = better scores (best_of scores l) m.
Proof. unfold best_of. apply fold_left_app. Qed.
(** The first of the models no other beats; one that is not a number beats none. *)
Definition first_best (scores : gmap string f32) (l : list string) (m : string) (c : f32) : Prop :=
  exists l1 l2, l = (l1 ++ m :: l2)%list /\ scores !! m = Some c /\
    (forall x (v : f32), x ∈ l -> scores !! x = Some v -> f_gt v c = false) /\
    (forall x (v : f32), x ∈ l1 -> scores !! x = Some v -> is_nan v = false -> f_lt v c = true).
Lemma best_of_spec scores l :
  match best_of scores l with
  | Some (m, c) => first_best scores l m c
  | None => forall x, x ∈ l -> scores !! x = None
  end.
Proof.
  unfold first_best, f32 in *. induction l as [|x l IH] using rev_ind; [cbn; intros x E; destruct (not_elem_of_nil x E)|].
  rewrite best_of_snoc. unfold better, f32 in *. destruct (scores !! x) as [v|] eqn:S.
  - destruct (best_of scores l) as [[m c]|].
    + destruct IH as (l1 & l2 & -> & Sm & Top & First). destruct (f_gt v c) eqn:G.
      * exists (l1 ++ m :: l2)%list, []. repeat split; [exact S| |].
        -- intros y w Hy Sy. apply elem_of_app in Hy as [Hy|Hy]; [|apply list_elem_of_singleton in Hy as ->; replace w with v by congruence; apply f_lt_irrefl].
           destruct (f_gt w v) eqn:Gw; [|reflexivity]. rewrite <- (Top y w Hy Sy). symmetry. exact (f_lt_trans _ _ _ G Gw).
        -- intros y w Hy Sy Nw. exact (f_not_lt_lt_trans _ _ _ G Nw (Top y w Hy Sy)).
      * exists l1, (l2 ++ [x])%list. repeat split; [rewrite <- app_assoc; reflexivity|exact Sm| |exact First].
        intros y w Hy Sy. apply elem_of_app in Hy as [Hy|Hy]; [exact (Top y w Hy Sy)|].
        apply list_elem_of_singleton in Hy as ->. replace w with v by congruence. exact G.
    + exists l, []. repeat split; [exact S| |].
      * intros y w Hy Sy. apply elem_of_app in Hy as [Hy|Hy]; [rewrite (IH y Hy) in Sy; discriminate|].
        apply list_elem_of_singleton in Hy as ->. replace w with v by congruence. apply f_lt_irrefl.
      * intros y w Hy Sy. rewrite (IH y Hy) in Sy. discriminate.
  - destruct (best_of scores l) as [[m c]|].
    + destruct IH as (l1 & l2 & -> & Sm & Top & First). exists l1, (l2 ++ [x])%list.
      repeat split; [rewrite <- app_assoc; reflexivity|exact Sm| |exact First].
      intros y w Hy Sy. apply elem_of_app in Hy as [Hy|Hy]; [exact (Top y w Hy Sy)|].
      apply list_elem_of_singleton in Hy as ->. congruence.
    + intros y Hy. apply elem_of_app in Hy as [Hy|Hy]; [exact (IH y Hy)|]. apply list_elem_of_singleton in Hy as ->. exact S.
Qed.
Lemma first_best_elem scores l m c : first_best scores l m c -> m ∈ l.
Proof. intros (l1 & l2 & -> & _). set_solver. Qed.

(** ** Which models are scored *)

Lemma step_dom {F : gmap string f32 -> string -> f32} (ms : list string) scores x :
  is_Some (fold_left (fun sc m => <[m := F sc m]> sc) ms scores !! x) <-> is_Some (scores !! x) \/ x ∈ ms.
Proof.
  revert scores. induction ms as [|m ms IH]; intros scores; cbn [fold_left]; [set_solver|].
  rewrite IH, lookup_insert_is_Some', elem_of_cons. split; [intros [[->|]|]|intros [|[->|]]]; auto.
Qed.
Lemma clusters_dom {F : Z -> gmap string f32 -> string -> f32} (ks : list Z) (ms : list string) x :
  ks <> [] -> is_Some (fold_left (fun scores k => fold_left (fun sc m => <[m := F k sc m]> sc) ms scores) ks ∅ !! x) <-> x ∈ ms.
Proof.
  intros N. destruct ks as [|k ks] using rev_ind; [congruence|]. clear IHks N. rewrite fold_left_app. cbn [fold_left].
  rewrite step_dom. split; [|auto]. intros [D|]; [|assumption].
  induction ks as [|j ks IH] using rev_ind; [cbn in D; rewrite lookup_empty in D; destruct D; discriminate|].
  rewrite fold_left_app in D. cbn [fold_left] in D. rewrite step_dom in D. destruct D; auto.
Qed.

(** ** Clusters *)

Lemma cluster_ids_elem n k : k ∈ cluster_ids n <-> 0 <= k < n.
Proof.
  unfold cluster_ids. rewrite list_elem_of_fmap. split.
  - intros (i & -> & Hi). apply elem_of_seq in Hi. lia.
  - intros Hk. exists (Z.to_nat k). rewrite elem_of_seq. lia.
Qed.
Lemma cluster_ids_length n : length (cluster_ids n) = Z.to_nat n.
Proof. unfold cluster_ids. rewrite length_fmap, length_seq. reflexivity. Qed.
Lemma topPNearest_range vec c p k : k ∈ topPNearest vec c p -> 0 <= k < c.(Centroids.K).
Proof.
  unfold topPNearest. rewrite merge_sort_Permutation. intros Hk. apply list_elem_of_fmap in Hk as ([v j] & -> & Hj).
  apply (sublist_elem _ _ _ (sublist_take _ _)) in Hj. rewrite merge_sort_Permutation in Hj.
  apply list_elem_of_fmap in Hj as (i & E & Hi). injection E as _ ->. apply cluster_ids_elem. exact Hi.
Qed.
Lemma topPNearest_length vec c p : 0 <= p -> 0 <= c.(Centroids.K) -> length (topPNearest vec c p) = Z.to_nat (Z.min p c.(Centroids.K)).
Proof.
  intros Hp HK. unfold topPNearest. rewrite merge_sort_Permutation, length_fmap, length_firstn, merge_sort_Permutation, length_fmap, cluster_ids_length.
  destruct (Z.ltb_spec c.(Centroids.K) p); lia.
Qed.
Lemma topPNearest_nonempty vec c p : 0 < p -> p <= c.(Centroids.K) -> topPNearest vec c p <> [].
Proof.
  intros Hp HK E. pose proof (topPNearest_length vec c p ltac:(lia) ltac:(lia)) as L. rewrite E in L. cbn in L. lia.
Qed.

(** ** Providers *)

Section Facts.
Context `{GoUnicode}.

Lemma resolve_available m p av : resolveProviderFor m p av <> "" -> resolveProviderFor m p av ∈ av.
Proof.
  unfold resolveProviderFor, in_set. destruct (ByID m) as [row|].
  - destruct (model_Tier row); [congruence| | |];
      (destruct (List.find _ _) as [b|] eqn:F; [|congruence]; apply find_some in F as [_ F]; intros _; exact (bool_decide_eq_true_1 _ F)).
  - destruct (bool_decide_reflect (p ∈ av)); congruence.
Qed.
Lemma resolve_idempotent m p av : resolveProviderFor m p av <> "" ->
  resolveProviderFor m (resolveProviderFor m p av) av = resolveProviderFor m p av.
Proof.
  intros N. pose proof (resolve_available m p av N) as A. unfold resolveProviderFor at 1.
  unfold resolveProviderFor in *. destruct (ByID m) as [row|]; [reflexivity|].
  unfold in_set in *. rewrite (bool_decide_eq_true_2 _ A). reflexivity.
Qed.
Lemma filterByProviders_elem es av e : e ∈ filterByProviders es av <->
  exists e0, e0 ∈ es /\ e = Entry.set_Provider (resolveProviderFor e0.(Entry.Model) e0.(Entry.Provider) av) e0 /\
             resolveProviderFor e0.(Entry.Model) e0.(Entry.Provider) av <> "".
Proof.
  unfold filterByProviders. rewrite list_elem_of_omap. split.
  - intros (e0 & H0 & E). exists e0. destruct (String.eqb_spec (resolveProviderFor e0.(Entry.Model) e0.(Entry.Provider) av) "") as [|N]; [discriminate|].
    injection E as <-. auto.
  - intros (e0 & H0 & -> & N). exists e0. split; [exact H0|]. apply String.eqb_neq in N. rewrite N. reflexivity.
Qed.

(** ** The candidates of a scorer *)

Lemma dedup_sublist last l : sublist (dedup_adjacent last l) l.
Proof.
  revert last. induction l as [|e l IH]; intros last; cbn; [constructor|].
  destruct (bool_decide _); constructor; apply IH.
Qed.
Lemma dedup_above y l : StronglySorted model_le l -> (forall e, e ∈ l -> str_le y e.(Entry.Model)) ->
  forall x, x ∈ dedup_adjacent (Some y) l -> x.(Entry.Model) <> y.
Proof.
  intros S. induction S as [|e l S IH F]; intros Above x Hx; [destruct (not_elem_of_nil x Hx)|]. cbn in Hx.
  destruct (bool_decide_reflect (Some y = Some e.(Entry.Model))) as [E|N].
  - apply IH; [|exact Hx]. intros. apply Above. set_solver.
  - apply elem_of_cons in Hx as [->|Hx]; [congruence|]. intros E. apply (sublist_elem _ _ _ (dedup_sublist _ _)) in Hx.
    rewrite Forall_forall in F. specialize (F x Hx). unfold model_le in F. rewrite E in F. apply N. f_equal.
    apply String.leb_antisym; [apply Above; set_solver|exact F].
Qed.
Lemma dedup_nodup last l : StronglySorted model_le l -> NoDup (Entry.Model <$> dedup_adjacent last l).
Proof.
  intros S. revert last. induction S as [|e l S IH F]; intros last; cbn; [constructor|].
  destruct (bool_decide _); [apply IH|]. rewrite fmap_cons. constructor; [|apply IH].
  intros Hx. apply list_elem_of_fmap in Hx as (x & E & Hx). symmetry in E. revert E.
  apply dedup_above with (l := l); [exact S| |exact Hx]. rewrite Forall_forall in F. intros z Hz. exact (F z Hz).
Qed.
Lemma dedup_sorted last l : StronglySorted model_le l -> StronglySorted model_le (dedup_adjacent last l).
Proof.
  intros S. revert last. induction S as [|e l S IH F]; intros last; cbn; [constructor|].
  destruct (bool_decide _); [apply IH|]. constructor; [apply IH|]. rewrite Forall_forall in *. intros x Hx.
  apply F. exact (sublist_elem _ _ _ (dedup_sublist _ _) Hx).
Qed.
Lemma dedup_keeps last l m : m ∈ Entry.Model <$> l -> last = Some m \/ m ∈ Entry.Model <$> dedup_adjacent last l.
Proof.
  revert last. induction l as [|e l IH]; intros last Hm; [destruct (not_elem_of_nil _ Hm)|]. cbn.
  rewrite fmap_cons in Hm. apply elem_of_cons in Hm.
  destruct (bool_decide_reflect (last = Some e.(Entry.Model))) as [->|N].
  - destruct Hm as [->|Hm]; [left; reflexivity|]. apply IH. exact Hm.
  - rewrite fmap_cons. destruct Hm as [->|Hm]; [right; apply elem_of_cons; auto|].
    destruct (IH (Some e.(Entry.Model)) Hm) as [[= ->]|]; right; apply elem_of_cons; auto.
Qed.
Lemma deployable_sorted b av : StronglySorted model_le (deployable b av).
Proof.
  apply dedup_sorted, StronglySorted_merge_sort.
  - intros x y z A B. exact (str_le_trans _ _ _ A B).
  - intros x y. apply str_le_total.
Qed.
Lemma deployable_nodup b av : NoDup (Entry.Model <$> deployable b av).
Proof.
  apply dedup_nodup, StronglySorted_merge_sort.
  - intros x y z A B. exact (str_le_trans _ _ _ A B).
  - intros x y. apply str_le_total.
Qed.
Lemma deployable_elem b av e : e ∈ deployable b av ->
  e.(Entry.Provider) <> "" /\ e.(Entry.Provider) ∈ av /\ resolveProviderFor e.(Entry.Model) e.(Entry.Provider) av = e.(Entry.Provider).
Proof.
  intros He. apply (sublist_elem _ _ _ (dedup_sublist _ _)) in He. rewrite merge_sort_Permutation in He.
  apply filterByProviders_elem in He as (e0 & _ & -> & N).
  cbn [Entry.Provider Entry.Model Entry.set_Provider]. split; [exact N|]. split; [exact (resolve_available _ _ _ N)|].
  exact (resolve_idempotent e0.(Entry.Model) e0.(Entry.Provider) av N).
Qed.
Lemma routable_elem reg av m : m ∈ RoutableModelSet reg av <->
  exists e, e ∈ reg /\ e.(Entry.Model) = m /\ resolveProviderFor e.(Entry.Model) e.(Entry.Provider) av <> "".
Proof.
  unfold RoutableModelSet. induction reg as [|e reg IH] using rev_ind.
  { cbn [fold_left]. split; [intros Hm; destruct (not_elem_of_empty m Hm)|intros (x & Hx & _); destruct (not_elem_of_nil x Hx)]. }
  rewrite fold_left_app. cbn [fold_left].
  destruct (String.eqb_spec (resolveProviderFor e.(Entry.Model) e.(Entry.Provider) av) "") as [E|N].
  - rewrite IH. split; [intros (x & ? & ?); exists x; rewrite elem_of_app; auto|]. intros (x & Hx & ? & Nx). exists x. split; [|auto].
    apply elem_of_app in Hx as [|Hx]; [assumption|]. apply list_elem_of_singleton in Hx as ->. destruct (Nx E).
  - rewrite elem_of_union, elem_of_singleton, IH. split.
    + intros [->|(x & ? & ?)]; [exists e|exists x]; rewrite elem_of_app, ?list_elem_of_singleton; auto.
    + intros (x & Hx & Ex & Nx). apply elem_of_app in Hx as [Hx|Hx]; [right; eauto|]. apply list_elem_of_singleton in Hx as ->. auto.
Qed.
Lemma deployable_models b av m : m ∈ Entry.Model <$> deployable b av <-> m ∈ RoutableModelSet b.(Registry) av.
Proof.
  rewrite routable_elem. split.
  - intros Hm. apply list_elem_of_fmap in Hm as (e & -> & He). apply (sublist_elem _ _ _ (dedup_sublist _ _)) in He.
    rewrite merge_sort_Permutation in He. apply filterByProviders_elem in He as (e0 & ? & -> & ?). exists e0. auto.
  - intros (e & He & <- & N). unfold deployable.
    edestruct (dedup_keeps None) as [D|D]; [|discriminate D|exact D]. rewrite list_elem_of_fmap.
    exists (Entry.set_Provider (resolveProviderFor e.(Entry.Model) e.(Entry.Provider) av) e). split; [reflexivity|].
    rewrite merge_sort_Permutation. apply filterByProviders_elem. eauto.
Qed.

(** ** The shape of a scorer *)

Record well_formed (s : Scorer) : Prop := {
  wf_models : s.(models) = Entry.Model <$> s.(candidates);
  wf_nodup : NoDup s.(models);
  wf_sorted : StronglySorted str_le s.(models);
  wf_some : s.(models) <> [];
  wf_bound c : c ∈ s.(candidates) -> c.(Entry.Provider) <> "" /\ c.(Entry.Provider) ∈ s.(availableProviders) /\
    resolveProviderFor c.(Entry.Model) c.(Entry.Provider) s.(availableProviders) = c.(Entry.Provider);
  wf_topP : 0 < s.(cfg).(TopP) <= s.(centroids).(Centroids.K);
  wf_table k m : 0 <= k < s.(centroids).(Centroids.K) -> m ∈ s.(models) ->
    is_Some (cluster_row (if s.(isV2) then s.(qualityMeans) else s.(rankings)) k !! m);
  wf_alpha : s.(isV2) = true -> Z.of_nat (length (defaultActiveKnobs s).(Knobs.Alpha)) = s.(centroids).(Centroids.K);
  wf_floor fl : s.(isV2) = true -> (defaultActiveKnobs s).(Knobs.AlphaFloor) = Some fl ->
    Z.of_nat (length fl) = s.(centroids).(Centroids.K) /\ forall f, f ∈ fl -> floor_valid f = true
}.
Lemma ensure_ok {E A : Type} (b : bool) (e : E) (k : res E A) (x : A) : res_bind (ensure b e) (fun _ => k) = Ok x -> b = true /\ k = Ok x.
Proof. destruct b; cbn; [auto|discriminate]. Qed.
Lemma covered_rows table ms ks : covered table ms ks = Ok tt -> forall k m, k ∈ ks -> m ∈ ms -> is_Some (cluster_row table k !! m).
Proof.
  intros C k m. induction ks as [|j ks IH]; intros Hk Hm; [destruct (not_elem_of_nil k Hk)|]. cbn [covered] in C.
  destruct (table !! j) as [row|] eqn:T; [|discriminate]. destruct (List.find _ ms) eqn:F; [discriminate|].
  apply elem_of_cons in Hk as [->|Hk]; [|exact (IH C Hk Hm)]. unfold cluster_row. rewrite T.
  apply list_elem_of_In in Hm. pose proof (find_none _ _ F m Hm) as N. unfold has_key in N. cbn in N |- *.
  destruct (row !! m) as [v|]; [exists v; reflexivity|discriminate N].
Qed.
Lemma defaults_validated k K : validate_defaults k K = Ok tt ->
  Z.of_nat (length k.(Knobs.Alpha)) = K /\
  forall fl, k.(Knobs.AlphaFloor) = Some fl -> Z.of_nat (length fl) = K /\ forall f, f ∈ fl -> floor_valid f = true.
Proof.
  unfold validate_defaults. intros V. apply ensure_ok in V as [L V]. split; [lia|]. intros fl E. rewrite E in V.
  apply ensure_ok in V as [L' V]. split; [lia|]. unfold ensure in V. destruct (forallb floor_valid fl) eqn:A; [|discriminate].
  rewrite forallb_forall in A. intros f Hf. apply A, list_elem_of_In, Hf.
Qed.
Lemma validated_tables b ms : validate_bundle b ms = Ok tt ->
  covered (if b.(IsV2) then b.(QualityMeans) else b.(bundle_Rankings)) ms (cluster_ids b.(bundle_Centroids).(Centroids.K)) = Ok tt.
Proof.
  unfold validate_bundle. destruct (IsV2 b); [|auto]. destruct (covered _ _ _) as [[]|]; [reflexivity|discriminate].
Qed.
Lemma validated_knobs b cfg e av : validate_bundle b (scorer_of b cfg e av).(models) = Ok tt -> b.(IsV2) = true ->
  0 <= b.(bundle_Centroids).(Centroids.K) ->
  let k := defaultActiveKnobs (scorer_of b cfg e av) in
  Z.of_nat (length k.(Knobs.Alpha)) = b.(bundle_Centroids).(Centroids.K) /\
  forall fl, k.(Knobs.AlphaFloor) = Some fl -> Z.of_nat (length fl) = b.(bundle_Centroids).(Centroids.K) /\ forall f, f ∈ fl -> floor_valid f = true.
Proof.
  unfold validate_bundle, defaultActiveKnobs, scorer_of. intros V V2 HK. rewrite V2 in V. cbn [metadata centroids].
  destruct (covered _ _ _); [|discriminate]. cbn [res_bind] in V. destruct (bundle_Metadata b ≫= DefaultKnobs) as [k|].
  - apply defaults_validated in V as [L F]. split; [exact L|]. cbn [Knobs.AlphaFloor]. intros fl E.
    destruct (Knobs.AlphaFloor k) as [[|f fl']|]; [discriminate| |discriminate]. injection E as <-. apply F. reflexivity.
  - split; [|discriminate]. cbn [Knobs.Alpha]. rewrite length_replicate. lia.
Qed.
Lemma NewScorer_checks b cfg e av s : NewScorer b cfg e av = Ok s ->
  embedder_ID e = EmbedderID b /\ embedder_Dim e = b.(bundle_Centroids).(Centroids.Dim) /\
  0 < cfg.(TopP) <= b.(bundle_Centroids).(Centroids.K) /\ deployable b av <> [] /\
  validate_bundle b (scorer_of b cfg e av).(models) = Ok tt /\
  s = (if b.(IsV2) then set_dialAlphaBreakpoints (computeDialCalibration (scorer_of b cfg e av)) (scorer_of b cfg e av) else scorer_of b cfg e av).
Proof.
  unfold NewScorer. intros N. apply ensure_ok in N as [H1 N]. apply ensure_ok in N as [_ N]. apply ensure_ok in N as [_ N].
  apply ensure_ok in N as [H2 N]. apply ensure_ok in N as [H3 N]. apply ensure_ok in N as [H4 N]. apply ensure_ok in N as [H5 N].
  apply String.eqb_eq in H2. split; [exact H2|]. split; [lia|]. split; [lia|].
  split; [intros E; rewrite E in H5; discriminate|].
  destruct (validate_bundle _ _) as [[]|]; [|discriminate]. cbn [res_bind] in N. injection N as <-. auto.
Qed.
Lemma wf_recalibrated l s : well_formed s -> well_formed (set_dialAlphaBreakpoints l s).
Proof. intros [? ? ? ? ? ? ? ? ?]. split; assumption. Qed.
Lemma sorted_models l : StronglySorted model_le l -> StronglySorted str_le (Entry.Model <$> l).
Proof.
  induction 1 as [|x l S IH F]; [constructor|]. rewrite fmap_cons. constructor; [exact IH|]. rewrite Forall_fmap. exact F.
Qed.
Lemma NewScorer_wf b cfg e av s : NewScorer b cfg e av = Ok s -> well_formed s.
Proof.
  intros N. apply NewScorer_checks in N as (_ & _ & P & D & V & ->).
  assert (W : well_formed (scorer_of b cfg e av)); [|destruct (IsV2 b); [apply wf_recalibrated|]; exact W].
  split; cbn [scorer_of models candidates availableProviders Scorer.cfg centroids isV2 qualityMeans rankings].
  - reflexivity.
  - apply deployable_nodup.
  - exact (sorted_models _ (deployable_sorted b av)).
  - intros E. apply D. destruct (deployable b av) as [|x l]; [reflexivity|discriminate E].
  - intros c Hc. exact (deployable_elem b av c Hc).
  - exact P.
  - intros k m Hk Hm. apply validated_tables in V. apply (covered_rows _ _ _ V); [apply cluster_ids_elem; exact Hk|exact Hm].
  - intros V2. exact (proj1 (validated_knobs b cfg e av V V2 ltac:(lia))).
  - intros fl V2. exact (proj2 (validated_knobs b cfg e av V V2 ltac:(lia)) fl).
Qed.

(** ** The pool of a request *)

Definition hard_pool (s : Scorer) (r : Request.t) : res RouteFault (list string) := let! pool := gated s r in excluded r pool.
Lemma eligible_hard s r pool : eligible_pool s r = Ok pool <-> exists hard, hard_pool s r = Ok hard /\ pool = preferred_pool r hard.
Proof.
  unfold eligible_pool, hard_pool. destruct (gated s r) as [p|f]; cbn [res_bind]; [|split; [discriminate|intros (? & ? & _); discriminate]].
  destruct (excluded r p) as [q|f]; cbn [res_bind]; split; try (intros E; try injection E as <-; eauto; discriminate).
  - intros (h & E & ->). injection E as ->. reflexivity.
  - intros (h & E & _). discriminate E.
Qed.
Lemma without_elem drop ms m : m ∈ without drop ms <-> m ∈ ms /\ m ∉ drop.
Proof.
  unfold without, in_set. rewrite !list_elem_of_In, filter_In. destruct (bool_decide_reflect (m ∈ drop)); intuition discriminate.
Qed.
Lemma prefer_elem active drop ms m : m ∈ prefer_without active drop ms ->
  m ∈ ms /\ (active = true -> m ∈ drop -> forall x, x ∈ ms -> x ∈ drop).
Proof.
  unfold prefer_without. destruct active; [|intros Hm; split; [exact Hm|discriminate]].
  destruct (without drop ms) as [|k ks] eqn:W; intros Hm.
  - split; [exact Hm|]. intros _ _ x Hx. destruct (decide (x ∈ drop)) as [|N]; [assumption|].
    assert (x ∈ without drop ms) as X by (apply without_elem; auto). rewrite W in X. destruct (not_elem_of_nil x X).
  - rewrite <- W in Hm. apply without_elem in Hm as [Hm N]. split; [exact Hm|]. intros _ D. destruct (N D).
Qed.
Lemma prefer_nonempty active drop ms : ms <> [] -> prefer_without active drop ms <> [].
Proof. unfold prefer_without. destruct active; [|auto]. destruct (without drop ms); [auto|discriminate]. Qed.
Lemma preferred_sub r hard m : m ∈ preferred_pool r hard -> m ∈ hard.
Proof. unfold preferred_pool. intros Hm. do 4 apply prefer_elem in Hm as [Hm _]. exact Hm. Qed.
Lemma preferred_nonempty r hard : hard <> [] -> preferred_pool r hard <> [].
Proof. intros N. unfold preferred_pool. repeat apply prefer_nonempty. exact N. Qed.
Lemma nonempty_ok {A E : Type} (l : list A) (e : E) k : nonempty l e = Ok k -> k = l /\ l <> [].
Proof. destruct l; cbn; [discriminate|]. intros [= <-]. split; [reflexivity|discriminate]. Qed.
Lemma providers_elem s en m p : (m, p) ∈ providers_of s en <->
  p <> "" /\ exists c, c ∈ s.(candidates) /\ m = c.(Entry.Model) /\ p = resolveProviderFor c.(Entry.Model) c.(Entry.Provider) en.
Proof.
  unfold providers_of. rewrite list_elem_of_In, filter_In, <- list_elem_of_In, list_elem_of_fmap. cbn [snd].
  rewrite negb_true_iff, String.eqb_neq. split.
  - intros [(c & E & Hc) N]. injection E as -> ->. eauto.
  - intros [N (c & Hc & -> & ->)]. eauto.
Qed.
Lemma gated_elem s r pool : well_formed s -> gated s r = Ok pool -> pool <> [] /\ forall m, m ∈ pool <->
  match r.(Request.EnabledProviders) with
  | Some en => exists p, (m, p) ∈ providers_of s en
  | None => m ∈ s.(models)
  end.
Proof.
  intros W. unfold gated. destruct (Request.EnabledProviders r) as [en|].
  - intros G. apply nonempty_ok in G as [-> N]. split; [exact N|]. intros m. rewrite list_elem_of_fmap. split.
    + intros ([m' p] & -> & Hp). eauto.
    + intros (p & Hp). exists (m, p). auto.
  - intros G. injection G as <-. split; [apply W|]. intros m. reflexivity.
Qed.
Lemma gated_deployed s r pool m : well_formed s -> gated s r = Ok pool -> m ∈ pool -> m ∈ s.(models).
Proof.
  intros W G Hm. apply (gated_elem s r pool W G) in Hm. destruct (Request.EnabledProviders r); [|exact Hm].
  destruct Hm as (p & Hp). apply providers_elem in Hp as (_ & c & Hc & -> & _). rewrite (wf_models s W).
  apply list_elem_of_fmap. eauto.
Qed.
Lemma hard_pool_elem s r hard : well_formed s -> hard_pool s r = Ok hard -> hard <> [] /\ exists pool, gated s r = Ok pool /\
  forall m, m ∈ hard <-> m ∈ pool /\ in_opt_set m r.(Request.ExcludedModels) = false.
Proof.
  intros W. unfold hard_pool. destruct (gated s r) as [pool|f] eqn:G; [|discriminate]. cbn [res_bind]. unfold excluded, listed.
  pose proof (proj1 (gated_elem s r pool W G)) as N. destruct (Request.ExcludedModels r) as [ex|]; cbn [default from_option in_opt_set id].
  - destruct (bool_decide_reflect (ex = ∅)) as [->|X]; cbn [negb].
    + intros E. injection E as <-. split; [exact N|]. exists pool. split; [reflexivity|]. intros m. unfold in_set.
      rewrite (bool_decide_eq_false_2 (m ∈ (∅ : gset string)) (not_elem_of_empty m)). tauto.
    + intros E. apply nonempty_ok in E as [-> N']. split; [exact N'|]. exists pool. split; [reflexivity|]. intros m.
      rewrite without_elem. unfold in_set. rewrite bool_decide_eq_false. reflexivity.
  - rewrite bool_decide_eq_true_2 by reflexivity. cbn [negb]. intros E. injection E as <-. split; [exact N|]. exists pool. split; [reflexivity|]. tauto.
Qed.

(** ** What a decision is made of *)

Lemma Route_decided s req d : Route s req = Ok d -> exists vec pool sh m score chosen,
  length vec = Z.to_nat s.(centroids).(Centroids.Dim) /\
  eligible_pool s req.(turn) = Ok pool /\
  scored s req pool (topPNearest vec s.(centroids) s.(cfg).(TopP)) = Ok sh /\
  argmax sh.1 pool = (m, score) /\ m <> "" /\ lookupCandidate s m = Some chosen /\
  d = cluster_decision s req.(turn) vec (topPNearest vec s.(centroids) s.(cfg).(TopP)) pool sh.1 sh.2 chosen score.
Proof.
  unfold Route, route_vector. destruct (awaited _ _) as [vec|]; [|discriminate].
  destruct (Z.eqb_spec (Z.of_nat (length vec)) s.(centroids).(Centroids.Dim)) as [L|]; [|discriminate].
  destruct (eligible_pool s req.(turn)) as [pool|]; [|discriminate]. cbn [res_bind].
  destruct (scored _ _ _ _) as [sh|] eqn:S; [|discriminate]. cbn [res_bind].
  destruct (argmax sh.1 pool) as [m score] eqn:A. destruct (String.eqb_spec m "") as [|N]; [discriminate|].
  destruct (lookupCandidate s m) as [chosen|] eqn:C; [|discriminate]. intros E. injection E as <-.
  exists vec, pool, sh, m, score, chosen. repeat split; auto. lia.
Qed.
Lemma lookup_chosen s m c : lookupCandidate s m = Some c -> c ∈ s.(candidates) /\ c.(Entry.Model) = m.
Proof. unfold lookupCandidate. intros F. apply find_some in F as [Hc E]. apply String.eqb_eq in E. split; [apply list_elem_of_In, Hc|exact E]. Qed.
Lemma scored_dom s req pool top sh x : top <> [] -> scored s req pool top = Ok sh -> is_Some (sh.1 !! x) <-> x ∈ pool.
Proof.
  intros N. unfold scored. destruct (isV2 s).
  - destruct (override_knobs s _) as [k|]; [|discriminate]. cbn [res_bind]. destruct (validate_knobs s k); [|discriminate].
    intros E. injection E as <-. apply (clusters_dom top pool x N).
  - intros E. injection E as <-. apply (clusters_dom top pool x N).
Qed.
Lemma argmax_best scores pool m score : argmax scores pool = (m, score) -> m <> "" -> first_best scores pool m score.
Proof.
  unfold argmax. intros A N. pose proof (best_of_spec scores pool) as B. destruct (best_of scores pool) as [[m' c]|]; cbn in A.
  - injection A as -> ->. exact B.
  - injection A as <- _. congruence.
Qed.
Lemma nodup_map {A} (l : list (string * A)) k v : NoDup l.*1 -> (k, v) ∈ l -> (list_to_map l : gmap string A) !! k = Some v.
Proof. intros N E. apply elem_of_list_to_map; assumption. Qed.
Lemma providers_nodup s en : well_formed s -> NoDup (providers_of s en).*1.
Proof.
  intros W. pose proof (wf_nodup s W) as N. rewrite (wf_models s W) in N. unfold providers_of.
  set (f := fun c => (Entry.Model c, resolveProviderFor (Entry.Model c) (Entry.Provider c) en)).
  assert (E : (f <$> candidates s).*1 = Entry.Model <$> candidates s) by (rewrite <- list_fmap_compose; reflexivity).
  rewrite <- E in N. clear E. induction (f <$> candidates s) as [|x l IH]; [exact N|]. rewrite fmap_cons in N. apply NoDup_cons in N as [X N].
  cbn [List.filter]. destruct (negb _); [|exact (IH N)]. rewrite fmap_cons. constructor; [|exact (IH N)].
  intros Hx. apply X. apply list_elem_of_fmap in Hx as (y & -> & Hy). apply list_elem_of_fmap. exists y. split; [reflexivity|].
  apply list_elem_of_In in Hy. apply filter_In in Hy as [Hy _]. apply list_elem_of_In, Hy.
Qed.
(** The provider of an eligible model: a binding of the request. *)
Lemma provider_bound s r hard m : well_formed s -> hard_pool s r = Ok hard -> m ∈ hard -> provider_for s r m <> "" /\
  provider_for s r m ∈ default s.(availableProviders) r.(Request.EnabledProviders).
Proof.
  intros W P Hm. apply (hard_pool_elem s r hard W) in P as (_ & pool & G & E). apply E in Hm as [Hm _].
  unfold provider_for, resolvedProvider. apply (gated_elem s r pool W G) in Hm. destruct (Request.EnabledProviders r) as [en|].
  - destruct Hm as (p & Hp). rewrite (nodup_map _ _ _ (providers_nodup s en W) Hp). apply providers_elem in Hp as (N & c & Hc & _ & ->).
    split; [exact N|]. cbn [default from_option]. exact (resolve_available _ _ _ N).
  - rewrite lookup_empty. rewrite (wf_models s W) in Hm. apply list_elem_of_fmap in Hm as (c & -> & Hc).
    destruct (lookupCandidate s (Entry.Model c)) as [c'|] eqn:L.
    + apply lookup_chosen in L as [Hc' _]. destruct (wf_bound s W c' Hc') as (? & ? & _). auto.
    + unfold lookupCandidate in L. apply list_elem_of_In in Hc. pose proof (find_none _ _ L c Hc) as F. cbn in F.
      rewrite String.eqb_refl in F. discriminate.
Qed.

(** ** Refusals *)

Lemma refused_pool s r f : eligible_pool s r = Err f -> wraps f = ErrNoEligibleProvider.
Proof.
  unfold eligible_pool, gated, excluded, nonempty. destruct (Request.EnabledProviders r) as [en|].
  - destruct (providers_of s en).*1; cbn [res_bind]; [intros E; injection E as <-; reflexivity|].
    destruct (listed _); [|discriminate]. destruct (without _ _); [|discriminate].
    cbn [res_bind]. destruct (listed _); intros E; injection E as <-; reflexivity.
  - cbn [res_bind]. destruct (listed _); [|discriminate]. destruct (without _ _); [|discriminate].
    cbn [res_bind]. destruct (listed _); intros E; injection E as <-; reflexivity.
Qed.
Lemma override_alpha_length s o k k' : override_alpha s o k = Ok k' -> length k'.(Knobs.Alpha) = length k.(Knobs.Alpha).
Proof.
  unfold override_alpha, applyDialAlpha. destruct (QualityBias o) as [t|].
  - destruct (dial_valid t); [|discriminate]. intros E. injection E as <-. cbn [Knobs.Alpha Knobs.set_Alpha].
    destruct (Knobs.AlphaFloor k); [apply length_imap|apply length_fmap].
  - destruct (Alpha o); intros E; injection E as <-; [|reflexivity]. cbn [Knobs.Alpha Knobs.set_Alpha]. apply length_fmap.
Qed.
Lemma override_length s o k : override_knobs s o = Ok k -> length k.(Knobs.Alpha) = length (defaultActiveKnobs s).(Knobs.Alpha).
Proof.
  unfold override_knobs. destruct o as [o|]; [|intros E; injection E as <-; reflexivity].
  destruct (override_alpha s o _) as [k'|] eqn:A; [|discriminate]. cbn [res_bind]. intros E. injection E as <-.
  exact (override_alpha_length _ _ _ _ A).
Qed.
Lemma check_alphas_refusal speed i l f : check_alphas speed i l = Err f -> wraps f = ErrInvalidRoutingKnobs.
Proof.
  revert i. induction l as [|a l IH]; intros i; cbn [check_alphas]; [discriminate|].
  destruct (_ || _)%bool; [intros E; injection E as <-; reflexivity|].
  destruct (f_gt _ _); [intros E; injection E as <-; reflexivity|apply IH].
Qed.
Lemma validate_refusal s k f : Z.of_nat (length k.(Knobs.Alpha)) = s.(centroids).(Centroids.K) -> validate_knobs s k = Err f ->
  wraps f = ErrInvalidRoutingKnobs.
Proof.
  intros L. unfold validate_knobs. rewrite (proj2 (Z.eqb_eq _ _) L). cbn [ensure res_bind]. unfold ensure.
  destruct (negb _); cbn [res_bind]; [|intros E; injection E as <-; reflexivity].
  destruct (check_alphas _ _ _) eqn:C; cbn [res_bind]; [|intros E; injection E as <-; exact (check_alphas_refusal _ _ _ _ C)].
  destruct (negb _); cbn [res_bind]; [|intros E; injection E as <-; reflexivity].
  destruct (_ && _)%bool; [discriminate|intros E; injection E as <-; reflexivity].
Qed.
Lemma scored_refusal s req pool top f : well_formed s -> scored s req pool top = Err f ->
  wraps f = ErrInvalidRoutingKnobs /\ s.(isV2) = true /\
  forall k, override_knobs s req.(RoutingKnobs) = Ok k -> validate_knobs s k <> Ok tt.
Proof.
  intros W. unfold scored. destruct (isV2 s) eqn:V2; [|discriminate].
  destruct (override_knobs s _) as [k|g] eqn:O; cbn [res_bind].
  - destruct (validate_knobs s k) as [[]|g] eqn:V; cbn [res_bind]; [discriminate|]. intros E. injection E as <-. split; [|split; [reflexivity|]].
    + apply (validate_refusal s k); [|exact V]. rewrite (override_length _ _ _ O). exact (wf_alpha s W V2).
    + intros k' E. injection E as <-. congruence.
  - intros E. injection E as <-. split; [|split; [reflexivity|discriminate]].
    unfold override_knobs, override_alpha in O. destruct (RoutingKnobs req) as [o|]; [|discriminate].
    destruct (QualityBias o) as [t|]; [destruct (dial_valid t)|destruct (Alpha o)]; cbn [res_bind] in O; try discriminate.
    injection O as <-. reflexivity.
Qed.
Lemma pool_deployed s r pool m : well_formed s -> eligible_pool s r = Ok pool -> m ∈ pool -> m ∈ s.(models).
Proof.
  intros W E Hm. apply eligible_hard in E as (hard & E & ->). apply preferred_sub in Hm.
  apply (hard_pool_elem s r hard W) in E as (_ & p & G & I). apply I in Hm as [Hm _]. exact (gated_deployed s r p m W G Hm).
Qed.
Lemma pool_nonempty s r pool : well_formed s -> eligible_pool s r = Ok pool -> pool <> [].
Proof.
  intros W E. apply eligible_hard in E as (hard & E & ->). apply (hard_pool_elem s r hard W) in E as [N _]. exact (preferred_nonempty r hard N).
Qed.
Lemma deployed_found s m : well_formed s -> m ∈ s.(models) -> exists c, lookupCandidate s m = Some c.
Proof.
  intros W Hm. destruct (lookupCandidate s m) as [c|] eqn:L; [eauto|]. rewrite (wf_models s W) in Hm.
  apply list_elem_of_fmap in Hm as (c & -> & Hc). apply list_elem_of_In in Hc. pose proof (find_none _ _ L c Hc) as F.
  cbn in F. rewrite String.eqb_refl in F. discriminate.
Qed.
Lemma tops_nonempty s vec : well_formed s -> topPNearest vec s.(centroids) s.(cfg).(TopP) <> [].
Proof. intros W. pose proof (wf_topP s W). apply topPNearest_nonempty; lia. Qed.
(** The chosen model is empty only when a deployed model has an empty name. *)
Lemma chosen_named s req pool vec sh : well_formed s -> eligible_pool s req.(turn) = Ok pool ->
  scored s req pool (topPNearest vec s.(centroids) s.(cfg).(TopP)) = Ok sh ->
  (argmax sh.1 pool).1 ∈ pool.
Proof.
  intros W P S. unfold argmax. pose proof (best_of_spec sh.1 pool) as B. destruct (best_of sh.1 pool) as [[m c]|]; [exact (first_best_elem _ _ _ _ B)|].
  pose proof (pool_nonempty s _ pool W P) as N. destruct pool as [|x pool]; [congruence|].
  assert (X : x ∈ x :: pool) by (apply elem_of_cons; auto).
  apply (scored_dom s req _ _ sh x (tops_nonempty s vec W) S) in X as [v X]. rewrite (B x) in X by (apply elem_of_cons; auto). discriminate.
Qed.
Lemma route_vector_total s req vec pool sh : well_formed s -> eligible_pool s req.(turn) = Ok pool ->
  scored s req pool (topPNearest vec s.(centroids) s.(cfg).(TopP)) = Ok sh -> (argmax sh.1 pool).1 <> "" ->
  exists d, route_vector s req vec = Ok d /\ d.(Decision.Model) = (argmax sh.1 pool).1.
Proof.
  intros W P S N. pose proof (chosen_named s req pool vec sh W P S) as C. unfold route_vector. rewrite P. cbn [res_bind]. rewrite S. cbn [res_bind].
  destruct (argmax sh.1 pool) as [m c]. cbn [fst] in *. apply String.eqb_neq in N. rewrite N.
  apply (pool_deployed s _ pool m W P) in C. destruct (deployed_found s m W C) as (e & L). rewrite L. eexists. split; [reflexivity|].
  apply lookup_chosen in L as [_ <-]. unfold cluster_decision. destruct (runnerUp _ _ _). reflexivity.
Qed.
Lemma refused_reason s r f x : well_formed s -> eligible_pool s r = Err f -> x ∈ s.(candidates) ->
  in_opt_set x.(Entry.Model) r.(Request.ExcludedModels) = true \/
  exists en, r.(Request.EnabledProviders) = Some en /\ resolveProviderFor x.(Entry.Model) x.(Entry.Provider) en = "".
Proof.
  intros W P Hx. destruct (in_opt_set (Entry.Model x) (Request.ExcludedModels r)) eqn:X; [left; reflexivity|right].
  assert (Hm : Entry.Model x ∈ s.(models)) by (rewrite (wf_models s W); apply list_elem_of_fmap; eauto).
  unfold eligible_pool in P. destruct (gated s r) as [pool|g] eqn:G; cbn [res_bind] in P.
  - destruct (excluded r pool) as [|g] eqn:X'; [discriminate P|]. clear P. pose proof (gated_elem s r pool W G) as [_ I].
    assert (Out : Entry.Model x ∉ pool).
    { intros Hp. unfold excluded, nonempty in X'. destruct (listed _); [|discriminate].
      destruct (without _ pool) eqn:Wo; [|discriminate]. assert (Q : Entry.Model x ∈ without (default ∅ (Request.ExcludedModels r)) pool).
      { apply without_elem. split; [exact Hp|]. destruct (Request.ExcludedModels r) as [ex|]; [|apply not_elem_of_empty].
        unfold in_opt_set, in_set in X. exact (bool_decide_eq_false_1 _ X). }
      rewrite Wo in Q. destruct (not_elem_of_nil _ Q). }
    destruct (Request.EnabledProviders r) as [en|]; [|destruct (Out (proj2 (I _) Hm))]. exists en. split; [reflexivity|].
    destruct (String.eqb_spec (resolveProviderFor (Entry.Model x) (Entry.Provider x) en) "") as [E|N]; [exact E|].
    destruct Out. apply I. eexists. apply providers_elem. split; [exact N|]. exists x. auto.
  - unfold gated in G. destruct (Request.EnabledProviders r) as [en|]; [|discriminate]. exists en. split; [reflexivity|].
    destruct (String.eqb_spec (resolveProviderFor (Entry.Model x) (Entry.Provider x) en) "") as [E|N]; [exact E|].
    assert (Q : (Entry.Model x, resolveProviderFor (Entry.Model x) (Entry.Provider x) en) ∈ providers_of s en)
      by (apply providers_elem; split; [exact N|]; exists x; auto).
    unfold nonempty in G. destruct (providers_of s en); [destruct (not_elem_of_nil _ Q)|discriminate].
Qed.
End Facts.
