(* ===== verification/ClusterRouting.v ===== *)
(** The theorems about the cluster router, each over a scorer as [NewScorer] builds it. *)

From stdpp Require Import base gmap sets list strings sorting.
From Stdlib Require Import ZArith SpecFloat Lia Ascii.
From S2P Require Import Prelude Strings Sse Hash Floats Bits Types Catalog Resolver Bundle Scorer ScorerFacts.
Open Scope string_scope.
Open Scope Z_scope.

Section Routing.
Context `{GoUnicode}.

(** A scorer that is built deploys exactly the models of the registry that an available provider serves,
    each once and in order, each with a provider that serves it; every cluster scores every one of them, and the default
    weights and floors have one valid entry for each cluster; the text is embedded by the model the bundle was trained with. *)
Lemma scorer_shape (b : Bundle) (c : Config) (e : Embedder) (av : gset string) (s : Scorer) (HN : NewScorer b c e av = Ok s) :
  (forall m, m ∈ s.(models) <-> m ∈ RoutableModelSet b.(Registry) av) /\ NoDup s.(models) /\ StronglySorted str_le s.(models) /\
  (forall x, x ∈ s.(candidates) -> x.(Entry.Provider) ∈ av) /\
  (forall k m, 0 <= k < s.(centroids).(Centroids.K) -> m ∈ s.(models) ->
     is_Some (cluster_row (if s.(isV2) then s.(qualityMeans) else s.(rankings)) k !! m)) /\
  (s.(isV2) = true -> Z.of_nat (length (defaultActiveKnobs s).(Knobs.Alpha)) = s.(centroids).(Centroids.K)) /\
  (forall fl f, s.(isV2) = true -> (defaultActiveKnobs s).(Knobs.AlphaFloor) = Some fl -> f ∈ fl -> floor_valid f = true) /\
  s.(embed).(embedder_ID) = EmbedderID b.
Proof.
  pose proof (NewScorer_wf b c e av s HN) as W. apply NewScorer_checks in HN as (Id & _ & _ & _ & _ & E).
  assert (M : s.(models) = Entry.Model <$> deployable b av /\ s.(embed) = e /\ s.(availableProviders) = av)
    by (rewrite E; destruct (IsV2 b); repeat split; reflexivity).
  destruct M as (M & -> & A). split; [intros m; rewrite M; apply deployable_models|].
  split; [exact (wf_nodup s W)|]. split; [exact (wf_sorted s W)|].
  split; [intros x Hx; rewrite <- A; apply (wf_bound s W x Hx)|]. split; [exact (wf_table s W)|].
  split; [exact (wf_alpha s W)|]. split; [|exact Id]. intros fl f V F Hf. exact (proj2 (wf_floor s W fl V F) f Hf).
Qed.

(** C8: the model served is deployed, has a binding among the request's providers and is not excluded; a model
    the operator withdrew, one weak at tools for a request with tools, or one blind to images for a request with images
    is served only when every model left at that point is such. *)
Theorem cluster_serves_eligible (b : Bundle) (c : Config) (e : Embedder) (av : gset string) (s : Scorer) (req : PolicyRequest) (d : Decision.t)
    (HN : NewScorer b c e av = Ok s) (HR : Route s req = Ok d) :
  let r := req.(turn) in
  let m := d.(Decision.Model) in
  m ∈ RoutableModelSet b.(Registry) av /\
  d.(Decision.Provider) <> "" /\ d.(Decision.Provider) ∈ default av r.(Request.EnabledProviders) /\
  in_opt_set m r.(Request.ExcludedModels) = false /\
  exists hard, hard_pool s r = Ok hard /\ m ∈ hard /\
    let automatic := default ∅ r.(Request.AutomaticExcludedModels) in
    let p1 := prefer_without true automatic hard in
    let p2 := prefer_without r.(Request.HasTools) ToolUseLowSet p1 in
    let p3 := prefer_without r.(Request.HasTools) AgenticLowSet p2 in
    (m ∈ automatic -> forall x, x ∈ hard -> x ∈ automatic) /\
    (r.(Request.HasTools) = true -> m ∈ ToolUseLowSet -> forall x, x ∈ p1 -> x ∈ ToolUseLowSet) /\
    (r.(Request.HasTools) = true -> m ∈ AgenticLowSet -> forall x, x ∈ p2 -> x ∈ AgenticLowSet) /\
    (r.(Request.HasImages) = true -> m ∈ ImageUnsupportedSet -> forall x, x ∈ p3 -> x ∈ ImageUnsupportedSet).
Proof.
  cbn zeta. pose proof (NewScorer_wf b c e av s HN) as W. apply NewScorer_checks in HN as (_ & _ & _ & _ & _ & E).
  apply Route_decided in HR as (vec & pool & sh & m & score & chosen & _ & P & _ & A & N & L & ->).
  apply lookup_chosen in L as [_ <-].
  unfold cluster_decision. destruct (runnerUp _ _ _) as [paired ps]. cbn [Decision.Model Decision.Provider].
  pose proof (first_best_elem _ _ _ _ (argmax_best _ _ _ _ A N)) as I. set (m := Entry.Model chosen) in *.
  pose proof (pool_deployed s _ pool m W P I) as Dm.
  apply eligible_hard in P as (hard & P & ->).
  assert (Ah : m ∈ hard) by exact (preferred_sub _ _ _ I).
  assert (M : s.(models) = Entry.Model <$> deployable b av /\ s.(availableProviders) = av)
    by (rewrite E; destruct (IsV2 b); split; reflexivity).
  destruct M as [M Av]. split; [rewrite M in Dm; apply deployable_models; exact Dm|].
  destruct (provider_bound s _ hard m W P Ah) as [Pn Pi]. split; [exact Pn|]. split; [rewrite Av in Pi; exact Pi|].
  pose proof P as P'. apply (hard_pool_elem s _ hard W) in P' as (_ & p & _ & Hp). split; [apply Hp; exact Ah|].
  exists hard. split; [exact P|]. split; [exact Ah|]. unfold preferred_pool in I.
  apply prefer_elem in I as [I Im]. apply prefer_elem in I as [I Ag]. apply prefer_elem in I as [I Tl]. apply prefer_elem in I as [I Au].
  repeat split; auto.
Qed.

(** ** The best model *)

Lemma first_best_ext (sc sc' : gmap string f32) l m v : (forall x, x ∈ l -> sc !! x = sc' !! x) -> first_best sc l m v -> first_best sc' l m v.
Proof.
  intros E (l1 & l2 & -> & S & T & F). exists l1, l2. split; [reflexivity|]. split; [rewrite <- E; [exact S|]; set_solver|]. split.
  - intros x w Hx Sx. rewrite <- E in Sx by exact Hx. exact (T x w Hx Sx).
  - intros x w Hx Sx. rewrite <- E in Sx by set_solver. exact (F x w Hx Sx).
Qed.
Lemma restricted (sc : gmap string f32) l x : x ∈ l ->
  (list_to_map (omap (fun m => (fun v => (m, v)) <$> sc !! m) l) : gmap string f32) !! x = sc !! x.
Proof.
  induction l as [|y l IH]; intros Hx; [destruct (not_elem_of_nil x Hx)|]. cbn [omap list_omap].
  destruct (decide (y = x)) as [->|N].
  - destruct (sc !! x) as [v|] eqn:S; cbn [fmap option_fmap option_map].
    + cbn [list_to_map foldr curry]. apply lookup_insert_eq.
    + destruct (decide (x ∈ l)) as [I|I]; [exact (IH I)|]. apply not_elem_of_list_to_map. intros Hk. apply I.
      apply list_elem_of_fmap in Hk as ([k v] & -> & Hk). apply list_elem_of_omap in Hk as (z & Hz & Ez).
      destruct (sc !! z); [|discriminate]. injection Ez as <- _. exact Hz.
  - apply elem_of_cons in Hx as [->|Hx]; [congruence|]. destruct (sc !! y) as [v|] eqn:S; cbn [fmap option_fmap option_map]; [|exact (IH Hx)].
    cbn [list_to_map foldr curry fst snd]. rewrite lookup_insert_ne by exact N. exact (IH Hx).
Qed.

(** C9: no eligible model scores above the one served, and of those that score as high it is the first; the runner-up is
    the best of the others in the same way, and there is none exactly when there is no other; every eligible model is scored. *)
Theorem cluster_serves_best (b : Bundle) (c : Config) (e : Embedder) (av : gset string) (s : Scorer) (req : PolicyRequest) (d : Decision.t)
    (HN : NewScorer b c e av = Ok s) (HR : Route s req = Ok d) :
  exists md, d.(Decision.Metadata) = Some md /\
    let pool := md.(Metadata.CandidateModels) in
    let scores := md.(Metadata.CandidateScores) in
    eligible_pool s req.(turn) = Ok pool /\
    (forall x, x ∈ pool -> is_Some (scores !! x)) /\
    first_best scores pool d.(Decision.Model) md.(Metadata.ChosenScore) /\
    let others := List.filter (fun x => negb (String.eqb x d.(Decision.Model))) pool in
    (others = [] /\ md.(Metadata.PairedModel) = "" \/ first_best scores others md.(Metadata.PairedModel) md.(Metadata.PairedScore)).
Proof.
  pose proof (NewScorer_wf b c e av s HN) as W. clear HN.
  apply Route_decided in HR as (vec & pool & sh & m & score & chosen & _ & P & S & A & N & L & ->).
  apply lookup_chosen in L as [_ <-]. unfold cluster_decision. destruct (runnerUp sh.1 pool (Entry.Model chosen)) as [paired ps] eqn:R.
  eexists. split; [reflexivity|]. cbn zeta. cbn [Metadata.CandidateModels Metadata.CandidateScores Metadata.ChosenScore Decision.Model Metadata.PairedModel Metadata.PairedScore].
  split; [exact P|].
  assert (Rs := fun x => restricted sh.1 pool x). split.
  { intros x Hx. rewrite Rs by exact Hx. apply (scored_dom s req _ _ sh x (tops_nonempty s vec W) S). exact Hx. }
  split; [apply (first_best_ext sh.1); [intros x Hx; symmetry; exact (Rs x Hx)|exact (argmax_best _ _ _ _ A N)]|].
  unfold runnerUp in R. set (others := List.filter _ pool) in *.
  assert (Sub : forall x, x ∈ others -> x ∈ pool) by (intros x Hx; apply list_elem_of_In in Hx; apply filter_In in Hx as [Hx _]; apply list_elem_of_In, Hx).
  pose proof (best_of_spec sh.1 others) as B. destruct (best_of sh.1 others) as [[q v]|]; cbn in R; injection R as <- <-.
  - right. apply (first_best_ext sh.1); [intros x Hx; symmetry; exact (Rs x (Sub x Hx))|exact B].
  - left. split; [|reflexivity]. destruct others as [|x rest]; [reflexivity|]. exfalso.
    assert (X : x ∈ x :: rest) by (apply elem_of_cons; auto). pose proof (proj2 (scored_dom s req _ _ sh x (tops_nonempty s vec W) S) (Sub x X)) as [v Y].
    rewrite (B x X) in Y. discriminate.
Qed.

(** The scores of an eligible pool name a deployed model whatever numbers they are, NaN included: no best one is named only
    where a deployed model has an empty name. *)
Lemma argmax_names_deployed s req pool vec sh : well_formed s -> eligible_pool s req.(turn) = Ok pool ->
  scored s req pool (topPNearest vec s.(centroids) s.(cfg).(TopP)) = Ok sh -> (argmax sh.1 pool).1 ∈ s.(models).
Proof. intros W P S. exact (pool_deployed s _ pool _ W P (chosen_named s req pool vec sh W P S)). Qed.
(** C11: a request is refused for want of an eligible model only when every deployed model with a binding is excluded, whatever
    the preferences; it is refused for its knobs only when they are invalid; and routing is unavailable only when the
    embedding is missing or of the wrong length, or when the scores of the eligible models name no best one. *)
Theorem cluster_refusals (b : Bundle) (c : Config) (e : Embedder) (av : gset string) (s : Scorer) (req : PolicyRequest) (f : RouteFault)
    (HN : NewScorer b c e av = Ok s) (HR : Route s req = Err f) :
  let r := req.(turn) in
  match wraps f with
  | ErrNoEligibleProvider => forall x, x ∈ s.(candidates) ->
      in_opt_set x.(Entry.Model) r.(Request.ExcludedModels) = true \/
      exists en, r.(Request.EnabledProviders) = Some en /\ resolveProviderFor x.(Entry.Model) x.(Entry.Provider) en = ""
  | ErrInvalidRoutingKnobs => s.(isV2) = true /\ forall k, override_knobs s req.(RoutingKnobs) = Ok k -> validate_knobs s k <> Ok tt
  | ErrClusterUnavailable =>
      match awaited s.(cfg) (s.(embed).(Embed) (TailTruncate r.(Request.PromptText) s.(cfg).(MaxPromptChars))) with
      | None => True
      | Some vec => Z.of_nat (length vec) <> s.(centroids).(Centroids.Dim) \/
          exists pool sh, eligible_pool s r = Ok pool /\ scored s req pool (topPNearest vec s.(centroids) s.(cfg).(TopP)) = Ok sh /\ (argmax sh.1 pool).1 = ""
      end
  end.
Proof.
  cbn zeta. pose proof (NewScorer_wf b c e av s HN) as W. clear HN. unfold Route in HR.
  destruct (awaited _ _) as [vec|] eqn:Aw; [|injection HR as <-; exact I].
  destruct (Z.eqb_spec (Z.of_nat (length vec)) s.(centroids).(Centroids.Dim)) as [L|L]; [|injection HR as <-; left; exact L].
  destruct (eligible_pool s req.(turn)) as [pool|g] eqn:P.
  - destruct (scored s req pool (topPNearest vec s.(centroids) s.(cfg).(TopP))) as [sh|g] eqn:S.
    + destruct (String.eqb_spec (argmax sh.1 pool).1 "") as [E|N].
      * assert (f = NothingScored) as ->.
        { unfold route_vector in HR. rewrite P in HR. cbn [res_bind] in HR. rewrite S in HR. cbn [res_bind] in HR.
          destruct (argmax sh.1 pool) as [m v]. cbn [fst] in E. rewrite E in HR. cbn in HR. congruence. }
        right. eauto.
      * destruct (route_vector_total s req vec pool sh W P S N) as (d & R & _). congruence.
    + assert (f = g) as -> by (unfold route_vector in HR; rewrite P in HR; cbn [res_bind] in HR; rewrite S in HR; cbn in HR; congruence).
      apply (scored_refusal s req pool _ g W) in S as (-> & V & K). split; [exact V|exact K].
  - assert (f = g) as -> by (unfold route_vector in HR; rewrite P in HR; cbn in HR; congruence).
    rewrite (refused_pool _ _ _ P). intros x Hx. exact (refused_reason s _ g x W P Hx).
Qed.

(** ** The dial *)

(** C40: the quality dial gives each cluster the larger of the dial's weight and the cluster's floor, and gives all the dial's
    weight when the bundle has no floors; so no position of the dial takes a cluster below its floor. *)
Theorem dial_respects_floor (b : Bundle) (c : Config) (e : Embedder) (av : gset string) (s : Scorer) (o : Overrides) (k : Knobs.t) (t : f64)
    (HN : NewScorer b c e av = Ok s) (HV : s.(isV2) = true) (HQ : o.(QualityBias) = Some t) (HK : override_knobs s (Some o) = Ok k) :
  dial_valid t = true /\ Z.of_nat (length k.(Knobs.Alpha)) = s.(centroids).(Centroids.K) /\
  forall i a, k.(Knobs.Alpha) !! i = Some a ->
    match (defaultActiveKnobs s).(Knobs.AlphaFloor) with
    | None => a = dialToAlpha s t
    | Some fl => exists f, fl !! i = Some f /\ (a = f \/ a = dialToAlpha s t) /\ f_lt a f = false /\ f_lt a (dialToAlpha s t) = false
    end.
Proof.
  pose proof (NewScorer_wf b c e av s HN) as W. pose proof (override_length s _ k HK) as L. rewrite <- Nat2Z.inj_iff in L.
  pose proof (wf_alpha s W HV) as LA. rewrite LA in L.
  unfold override_knobs, override_alpha in HK. rewrite HQ in HK. destruct (dial_valid t); [|discriminate]. split; [reflexivity|]. split; [exact L|].
  cbn [res_bind] in HK. injection HK as <-. cbn [override_rest Knobs.Alpha Knobs.set_Alpha]. unfold applyDialAlpha.
  destruct (Knobs.AlphaFloor (defaultActiveKnobs s)) as [fl|] eqn:F; intros i a Ha.
  - rewrite list_lookup_imap in Ha. destruct (Knobs.Alpha (defaultActiveKnobs s) !! i) as [x|] eqn:X; [|discriminate].
    destruct (wf_floor s W fl HV F) as [LF _]. apply lookup_lt_Some in X.
    destruct (lookup_lt_is_Some_2 fl i) as [f Hf]; [lia|]. exists f. split; [exact Hf|]. rewrite (nth_lookup_Some fl i f_zero f Hf) in Ha.
    cbn in Ha. destruct (f_gt f (dialToAlpha s t)) eqn:G; injection Ha as <-.
    + split; [auto|]. split; [apply f_lt_irrefl|exact (f_lt_asym _ _ G)].
    + split; [auto|]. split; [exact G|apply f_lt_irrefl].
  - rewrite list_lookup_fmap in Ha. destruct (_ !! i); [|discriminate]. injection Ha as <-. reflexivity.
Qed.

(** ** The hash of the knobs *)

(** Floats that are values of Go's float64. *)
Definition representable (k : Knobs.t) : Prop :=
  (forall a, a ∈ k.(Knobs.Alpha) -> valid_binary 53 1024 a = true) /\ valid_binary 53 1024 k.(Knobs.SpeedWeight) = true /\
  valid_binary 53 1024 k.(Knobs.OutputCostRatio) = true /\ valid_binary 53 1024 k.(Knobs.ContextWindowWeight) = true.
Lemma validated_knobs_bounds s k : validate_knobs s k = Ok tt ->
  Z.of_nat (length k.(Knobs.Alpha)) = s.(centroids).(Centroids.K) /\ 0 <= k.(Knobs.ExpectedOutputTokens) <= 100000.
Proof.
  unfold validate_knobs. intros V. apply ensure_ok in V as [L V]. apply ensure_ok in V as [_ V]. destruct (check_alphas _ _ _) as [[]|]; [|discriminate].
  cbn [res_bind] in V. apply ensure_ok in V as [_ V]. unfold ensure in V. destruct (_ && _)%bool eqn:B; [|discriminate].
  apply andb_prop in B as [B1 B2]. lia.
Qed.
Lemma float_bytes_inj x y : valid_binary 53 1024 x = true -> valid_binary 53 1024 y = true ->
  le_bytes 8 (Float64bits x) = le_bytes 8 (Float64bits y) -> x = y.
Proof. intros Vx Vy E. apply Float64bits_inj; [exact Vx|exact Vy|]. apply (le_bytes_inj 8); [apply Float64bits_range, Vx|apply Float64bits_range, Vy|exact E]. Qed.
Lemma floats_inj (l l' : list f64) : length l = length l' -> (forall a, a ∈ l -> valid_binary 53 1024 a = true) ->
  (forall a, a ∈ l' -> valid_binary 53 1024 a = true) ->
  List.flat_map (fun a => le_bytes 8 (Float64bits a)) l = List.flat_map (fun a => le_bytes 8 (Float64bits a)) l' -> l = l'.
Proof.
  revert l'. induction l as [|x l IH]; intros [|y l'] L V V' E; try discriminate; [reflexivity|]. cbn [List.flat_map] in E.
  apply app_inj_1 in E as [Ex E]; [|rewrite !le_bytes_length; reflexivity].
  f_equal; [apply float_bytes_inj; [apply V|apply V'|exact Ex]; apply elem_of_cons; auto|].
  apply IH; [injection L; auto|intros a Ha; apply V|intros a Ha; apply V'|exact E]; apply elem_of_cons; auto.
Qed.
Lemma floats_length (l : list f64) : length (List.flat_map (fun a => le_bytes 8 (Float64bits a)) l) = (8 * length l)%nat.
Proof. induction l as [|x l IH]; [reflexivity|]. cbn [List.flat_map length]. rewrite length_app, le_bytes_length, IH. lia. Qed.

(** The bytes that are hashed to keep apart what was cached under different knobs determine every knob a score depends on:
    two sets of knobs a request may have give the same bytes only when they are the same. *)
Lemma knobs_hash_separates (s : Scorer) (k k' : Knobs.t) (HK : validate_knobs s k = Ok tt) (HK' : validate_knobs s k' = Ok tt)
    (HR : representable k) (HR' : representable k') (HE : knobs_buffer k = knobs_buffer k') :
  k.(Knobs.Alpha) = k'.(Knobs.Alpha) /\ k.(Knobs.SpeedWeight) = k'.(Knobs.SpeedWeight) /\ k.(Knobs.OutputCostRatio) = k'.(Knobs.OutputCostRatio) /\
  k.(Knobs.ExpectedOutputTokens) = k'.(Knobs.ExpectedOutputTokens) /\ k.(Knobs.PerModelVerbosity) = k'.(Knobs.PerModelVerbosity) /\
  k.(Knobs.ContextWindowWeight) = k'.(Knobs.ContextWindowWeight).
Proof.
  apply validated_knobs_bounds in HK as [L T]. apply validated_knobs_bounds in HK' as [L' T'].
  destruct HR as (VA & VS & VO & VC), HR' as (VA' & VS' & VO' & VC'). unfold knobs_buffer in HE.
  apply app_inj_1 in HE as [_ HE]; [|rewrite !le_bytes_length; reflexivity].
  apply app_inj_1 in HE as [EA HE]; [|rewrite !floats_length; lia].
  apply app_inj_1 in HE as [ES HE]; [|rewrite !le_bytes_length; reflexivity].
  apply app_inj_1 in HE as [EO HE]; [|rewrite !le_bytes_length; reflexivity].
  apply app_inj_1 in HE as [ET HE]; [|rewrite !le_bytes_length; reflexivity].
  apply app_inj_1 in HE as [EP EC]; [|reflexivity].
  split; [apply floats_inj; auto; lia|]. split; [exact (float_bytes_inj _ _ VS VS' ES)|]. split; [exact (float_bytes_inj _ _ VO VO' EO)|].
  rewrite !Z.mod_small in ET by lia. split; [apply (le_bytes_inj 4); [cbn; lia|cbn; lia|exact ET]|]. split; [|exact (float_bytes_inj _ _ VC VC' EC)].
  destruct (Knobs.PerModelVerbosity k), (Knobs.PerModelVerbosity k'); [reflexivity|discriminate EP|discriminate EP|reflexivity].
Qed.

(** ** The preview of the dial *)

Lemma fold_ext {A B} (f g : A -> B -> A) l a : (forall a b, f a b = g a b) -> fold_left f l a = fold_left g l a.
Proof. intros E. revert a. induction l as [|b l IH]; intros a; cbn; [reflexivity|]. rewrite E. apply IH. Qed.
(** Below the floor of the window term the estimate does not matter. *)
Lemma small_estimate s tops k pool subsidy bonus est : est <= contextWindowEngageFloor ->
  blendScoresV2 s tops k pool subsidy bonus est = blendScoresV2 s tops k pool subsidy bonus 0.
Proof.
  intros L. unfold blendScoresV2. apply fold_ext. intros scores j. apply fold_ext. intros sc m. unfold score_step, scored_on, ctx_bump.
  rewrite (proj2 (Z.leb_le (Z.max est 0) _)) by (unfold contextWindowEngageFloor in *; lia).
  rewrite (proj2 (Z.leb_le (Z.max 0 0) _)) by (unfold contextWindowEngageFloor in *; lia). rewrite !orb_true_r. reflexivity.
Qed.
Definition bound_under (en : gset string) (x : Entry.t) : bool := negb (String.eqb (resolveProviderFor x.(Entry.Model) x.(Entry.Provider) en) "").
Lemma providers_models s en : (providers_of s en).*1 = Entry.Model <$> List.filter (bound_under en) s.(candidates).
Proof.
  unfold providers_of. induction (candidates s) as [|x l IH]; [reflexivity|]. rewrite fmap_cons. cbn [List.filter]. unfold bound_under at 1. cbn [snd].
  destruct (negb _); [|exact IH]. rewrite !fmap_cons, IH. reflexivity.
Qed.
Lemma without_models drop (l : list Entry.t) : without drop (Entry.Model <$> l) = Entry.Model <$> List.filter (fun x => negb (in_set x.(Entry.Model) drop)) l.
Proof.
  unfold without. induction l as [|x l IH]; [reflexivity|]. rewrite fmap_cons. cbn [List.filter]. destruct (negb _); [|exact IH]. rewrite fmap_cons, IH. reflexivity.
Qed.
Lemma filter_both {A} (f g : A -> bool) l : List.filter f (List.filter g l) = List.filter (fun x => f x && g x)%bool l.
Proof.
  induction l as [|x l IH]; [reflexivity|]. cbn [List.filter]. destruct (g x) eqn:G; cbn [List.filter].
  - destruct (f x); cbn; rewrite IH; reflexivity.
  - rewrite andb_false_r. exact IH.
Qed.
Lemma filter_all {A} (f : A -> bool) l : (forall x, x ∈ l -> f x = true) -> List.filter f l = l.
Proof.
  induction l as [|x l IH]; intros F; [reflexivity|]. cbn. rewrite F by (apply elem_of_cons; auto). f_equal. apply IH. intros y Hy. apply F, elem_of_cons. auto.
Qed.
Lemma preview_pool s exM exP : well_formed s -> eligibleForDistribution s exM exP =
  Entry.Model <$> List.filter (fun x => negb (in_set x.(Entry.Model) exM) && bound_under (s.(availableProviders) ∖ exP) x)%bool s.(candidates).
Proof.
  intros W. unfold eligibleForDistribution. case_bool_decide as E; [|reflexivity]. destruct E as [-> ->]. rewrite (wf_models s W). f_equal. symmetry.
  apply filter_all. intros x Hx. unfold in_set. rewrite (bool_decide_eq_false_2 (x.(Entry.Model) ∈ (∅ : gset string)) (not_elem_of_empty _)). cbn [negb andb].
  unfold bound_under. rewrite difference_empty_L. destruct (wf_bound s W x Hx) as (N & _ & R). rewrite R. apply String.eqb_neq in N. rewrite N. reflexivity.
Qed.

(** A request the preview stands for: the installation's exclusions, the dial, nothing else. *)
Record previewed (s : Scorer) (exM exP : gset string) (t : f64) (req : PolicyRequest) : Prop := {
  pv_enabled : req.(turn).(Request.EnabledProviders) = Some (s.(availableProviders) ∖ exP);
  pv_excluded : req.(turn).(Request.ExcludedModels) = Some exM;
  pv_automatic : req.(turn).(Request.AutomaticExcludedModels) = None;
  pv_tools : req.(turn).(Request.HasTools) = false;
  pv_images : req.(turn).(Request.HasImages) = false;
  pv_subsidy : req.(turn).(Request.SubsidizedModelCostFactor) = ∅;
  pv_estimate : req.(turn).(Request.EstimatedInputTokens) <= contextWindowEngageFloor;
  pv_preferred : req.(PreferredModels) = [];
  pv_knobs : req.(RoutingKnobs) = Some {| Alpha := None; QualityBias := Some t; SpeedWeight := None; OutputCostRatio := None;
    ExpectedOutputTokens := None; PerModelVerbosity := None; ForceEffort := "" |}
}.
Lemma previewed_pool s exM exP t req : well_formed s -> previewed s exM exP t req -> eligibleForDistribution s exM exP <> [] ->
  eligible_pool s req.(turn) = Ok (eligibleForDistribution s exM exP).
Proof.
  intros W V N. rewrite (preview_pool s exM exP W) in *. unfold eligible_pool, gated, excluded. rewrite (pv_enabled _ _ _ _ _ V), (pv_excluded _ _ _ _ _ V), providers_models.
  rewrite <- filter_both, <- without_models in *. set (g := Entry.Model <$> List.filter (bound_under _) _) in *.
  assert (P : preferred_pool (turn req) (without exM g) = without exM g).
  { unfold preferred_pool, prefer_without. rewrite (pv_automatic _ _ _ _ _ V), (pv_tools _ _ _ _ _ V), (pv_images _ _ _ _ _ V). cbn [default from_option].
    assert (E : forall l, without ∅ l = l).
    { intros l. unfold without. apply filter_all. intros x _. unfold in_set.
      rewrite (bool_decide_eq_false_2 (x ∈ (∅ : gset string)) (not_elem_of_empty x)). reflexivity. }
    rewrite E. destruct (without exM g); reflexivity. }
  assert (G : g <> []) by (intros G; apply N; rewrite G; reflexivity).
  unfold nonempty at 1. destruct g as [|x g']; [congruence|]. cbn [res_bind]. set (l := x :: g') in *.
  unfold listed. cbn [default from_option id]. case_bool_decide as B; cbn [negb res_bind].
  - rewrite <- P. f_equal. f_equal. unfold without. symmetry. apply filter_all. intros y _. unfold in_set. rewrite B.
    rewrite (bool_decide_eq_false_2 (y ∈ (∅ : gset string)) (not_elem_of_empty y)). reflexivity.
  - destruct (without exM l) as [|y r] eqn:Wo; [congruence|]. cbn [nonempty res_bind]. rewrite P. reflexivity.
Qed.
Lemma previewed_knobs s exM exP t req : previewed s exM exP t req -> dial_valid t = true -> override_knobs s req.(RoutingKnobs) = Ok (dial_knobs s t).
Proof.
  intros V D. rewrite (pv_knobs _ _ _ _ _ V). unfold override_knobs, override_alpha. cbn [QualityBias]. rewrite D. reflexivity.
Qed.
(** Whether the live route of a prompt embedded at a cluster's centroid serves the model. *)
Definition serves (s : Scorer) (req : PolicyRequest) (m : string) (c : Z) : bool :=
  match route_vector s req (Centroids.Row s.(centroids) c) with Ok d => String.eqb d.(Decision.Model) m | Err _ => false end.
Lemma preview_routes s exM exP t req m c : well_formed s -> previewed s exM exP t req -> s.(isV2) = true -> dial_valid t = true ->
  validate_knobs s (dial_knobs s t) = Ok tt -> eligibleForDistribution s exM exP <> [] -> m <> "" ->
  serves s req m c = String.eqb (winner_of s (dial_knobs s t) (eligibleForDistribution s exM exP)
                                   (topPNearest (Centroids.Row s.(centroids) c) s.(centroids) s.(cfg).(TopP))) m.
Proof.
  intros W V V2 D K N Hm. unfold serves. set (vec := Centroids.Row (centroids s) c). set (top := topPNearest vec (centroids s) (TopP (Scorer.cfg s))).
  pose proof (previewed_pool s exM exP t req W V N) as P. set (pool := eligibleForDistribution s exM exP) in *.
  assert (S : scored s req pool top = Ok (blendScoresV2 s top (dial_knobs s t) pool ∅ ∅ 0, ComputeKnobsHash (dial_knobs s t))).
  { unfold scored. rewrite V2, (previewed_knobs s exM exP t req V D). cbn [res_bind]. rewrite K. cbn [res_bind].
    rewrite (pv_subsidy _ _ _ _ _ V), (pv_preferred _ _ _ _ _ V), small_estimate by exact (pv_estimate _ _ _ _ _ V). reflexivity. }
  unfold winner_of. set (scores := blendScoresV2 _ _ _ _ _ _ _) in *.
  destruct (String.eqb_spec (argmax scores pool).1 "") as [E|E].
  - unfold route_vector. rewrite P. cbn [res_bind]. fold top. rewrite S. cbn [res_bind fst]. destruct (argmax scores pool) as [w v]. cbn [fst] in *. rewrite E.
    cbn. destruct m; [congruence|reflexivity].
  - destruct (route_vector_total s req vec pool _ W P S E) as (d & -> & ->). reflexivity.
Qed.

(** ** Tallies *)

Lemma count_lookup counts w m : m <> "" -> default 0 (count counts w !! m) = default 0 (counts !! m) + (if String.eqb w m then 1 else 0).
Proof.
  intros N. unfold count. destruct (String.eqb_spec w "") as [->|Hw].
  - destruct (String.eqb_spec "" m); [congruence|lia].
  - destruct (String.eqb_spec w m) as [->|D]; [rewrite lookup_insert_eq; reflexivity|]. rewrite lookup_insert_ne by exact D. lia.
Qed.
Lemma mix_count s k pool tops m : m <> "" ->
  default 0 (mix s k pool tops !! m) = Z.of_nat (length (List.filter (fun top => String.eqb (winner_of s k pool top) m) tops)).
Proof.
  intros N. unfold mix. induction tops as [|top tops IH] using rev_ind; [reflexivity|]. rewrite fold_left_app, List.filter_app, length_app. cbn [fold_left List.filter].
  rewrite count_lookup by exact N. rewrite IH. destruct (String.eqb _ m); cbn [length]; lia.
Qed.
Lemma mix_named s k pool tops : mix s k pool tops !! "" = None.
Proof.
  unfold mix. induction tops as [|top tops IH] using rev_ind; [reflexivity|]. rewrite fold_left_app. cbn [fold_left]. unfold count at 1.
  destruct (String.eqb_spec (winner_of s k pool top) "") as [|D]; [exact IH|]. rewrite lookup_insert_ne by congruence. exact IH.
Qed.
Lemma filter_map_length {A B} (f : A -> B) (p : B -> bool) l : length (List.filter p (f <$> l)) = length (List.filter (fun x => p (f x)) l).
Proof. induction l as [|x l IH]; [reflexivity|]. rewrite fmap_cons. cbn [List.filter]. destruct (p (f x)); cbn [length]; rewrite IH; reflexivity. Qed.

(** C10: what the dashboard is shown for a position of the dial is what live traffic with no other preference does there: a
    model's share is the number of clusters at whose centroid a request with the same exclusions and the same dial is
    served that model, over the number of clusters.  The request ([previewed]) has the dial as its only knob, no tools,
    images, preferred or subsidised models and no models withdrawn from automatic routing, and fits every model's
    window; and the position is one live traffic accepts: the dial is in range and the knobs it gives validate (the
    dashboard shows a share even where live traffic is refused for its knobs). *)
Theorem preview_is_live (b : Bundle) (c : Config) (e : Embedder) (av : gset string) (s : Scorer) (map_range : gmap string Z -> list (string * Z))
    (gridN : Z) (exM exP : gset string) (points : list DistributionPoint) (p : DistributionPoint) (req : PolicyRequest)
    (HN : NewScorer b c e av = Ok s) (Horder : forall m, map_range m ≡ₚ map_to_list m)
    (HD : RoutingDistribution map_range s gridN exM exP = Ok points) (Hp : p ∈ points) (HV : previewed s exM exP p.(Bias) req)
    (Hdial : dial_valid p.(Bias) = true) (Hlive : validate_knobs s (dial_knobs s p.(Bias)) = Ok tt) :
  forall ms, ms ∈ p.(Shares) ->
    ms.(Share) = f64_div (f64_of_Z (Z.of_nat (length (List.filter (serves s req ms.(share_Model)) (cluster_ids s.(centroids).(Centroids.K))))))
                   (f64_of_Z s.(centroids).(Centroids.K)).
Proof.
  pose proof (NewScorer_wf b c e av s HN) as W. clear HN. unfold RoutingDistribution in HD. apply ensure_ok in HD as [V2 HD].
  destruct (nonempty _ _) as [pool|] eqn:N; [|discriminate]. apply nonempty_ok in N as [-> N]. cbn [res_bind] in HD. injection HD as <-.
  apply list_elem_of_fmap in Hp as (g & E & _). set (t := grid_position _ _) in E.
  assert (B : p.(Bias) = t) by (rewrite E; reflexivity). rewrite B in *. clear B. subst p. intros ms Hms. cbn [distribution_point Shares] in Hms.
  rewrite merge_sort_Permutation in Hms. apply list_elem_of_fmap in Hms as ([m n] & -> & Hms). rewrite Horder in Hms. apply elem_of_map_to_list in Hms.
  cbn [Share share_Model fst snd]. set (pool := eligibleForDistribution s exM exP) in *. set (k := dial_knobs s t) in *.
  assert (Hm : m <> "") by (intros ->; rewrite mix_named in Hms; discriminate).
  pose proof (mix_count s k pool (allCentroidTopClusters s) m Hm) as C. rewrite Hms in C. cbn [default from_option id] in C. rewrite C. do 3 f_equal.
  unfold allCentroidTopClusters. rewrite filter_map_length. f_equal. apply List.filter_ext. intros j. symmetry.
  exact (preview_routes s exM exP t req m j W HV V2 Hdial Hlive N Hm).
Qed.
End Routing.

(** ** Witnesses *)

#[local] Existing Instance ascii_unicode.
Definition kimi : string := "moonshotai/kimi-k3".
Definition flash : string := "deepseek-ai/deepseek-v4-flash".
Definition ex_axis (input output : Z) : Axis.t := {|
  Axis.InputPer1KUSD := Some (f64_lit input 10000); Axis.OutputPer1KUSD := Some (f64_lit output 10000); Axis.TTFTSeconds := None;
  Axis.TPS := None; Axis.VerbosityTokens := None |}.
Definition ex_knobs : Knobs.t := {|
  Knobs.Alpha := [f64_lit 8 10; f64_lit 4 10]; Knobs.AlphaFloor := Some [f64_lit 6 10; f64_lit 2 10]; Knobs.SpeedWeight := f_zero;
  Knobs.OutputCostRatio := f64_of_Z 1; Knobs.ExpectedOutputTokens := 2000; Knobs.PerModelVerbosity := false; Knobs.ContextWindowWeight := f_zero |}.
Definition ex_entry (m : string) : Entry.t := {| Entry.Model := m; Entry.Provider := "aiand"; Entry.BenchColumn := m |}.
Definition ex_bundle : Bundle := {|
  Version := "v1"; bundle_Centroids := {| Centroids.K := 2; Centroids.Dim := 2; Centroids.Data := [f32_of_Z 1; f_zero; f_zero; f32_of_Z 1] |};
  bundle_Rankings := ∅; Registry := ex_entry <$> [kimi; flash];
  bundle_Metadata := Some {| EmbedderModel := ""; EmbedderDim := 2; DefaultKnobs := Some ex_knobs; CostPer1KInputUSD := ∅; TokPerS := ∅; CacheCfg := None |};
  IsV2 := true;
  QualityMeans := {[0 := {[kimi := f32_lit 9 10; flash := f32_lit 5 10]}; 1 := {[kimi := f32_lit 6 10; flash := f32_lit 5 10]}]};
  ModelAxes := {[kimi := ex_axis 30 150; flash := ex_axis 1 4]}; MedianVerbosity := f64_of_Z 1 |}.
(** Prompts about code are embedded at the first centroid, the others at the second. *)
Definition ex_embedder : Embedder := {| embedder_ID := EmbedderJinaV2; embedder_Dim := 2;
  Embed := fun text => {| finishes := Some 0; outcome := Some (if String.eqb text "code" then [f32_of_Z 1; f_zero] else [f_zero; f32_of_Z 1]) |} |}.
Definition ex_config : Config := {| TopP := 1; MaxPromptChars := 1024; EmbedTimeout := 3 * Second; EmbedOverallTimeout := 0 |}.
Definition ex_raw : Scorer := scorer_of ex_bundle ex_config ex_embedder {["aiand"]}.
Definition ex_scorer : Scorer := set_dialAlphaBreakpoints (computeDialCalibration ex_raw) ex_raw.
Lemma ex_built : NewScorer ex_bundle ex_config ex_embedder {["aiand"]} = Ok ex_scorer.
Proof.
  unfold NewScorer. replace (validate_bundle _ _) with (Ok (E := ScorerFault) tt) by (vm_compute; reflexivity).
  repeat match goal with |- context [ensure ?c _] => replace c with true by (vm_compute; reflexivity) end. reflexivity.
Qed.
Definition ex_turn (prompt : string) (en ex : option (gset string)) : Request.t := {|
  Request.RequestedModel := ""; Request.ForceModel := ""; Request.ForceCluster := ""; Request.EstimatedInputTokens := 1000;
  Request.OrganizationID := ""; Request.InstallationID := ""; Request.HasTools := false; Request.HasImages := false; Request.PromptText := prompt;
  Request.HistoryTruncated := false; Request.EnabledProviders := en; Request.ExcludedModels := ex; Request.AllowedModels := None;
  Request.SafetyExcludedModels := None; Request.AutomaticExcludedModels := None; Request.SubsidizedModelCostFactor := ∅ |}.
Definition ex_request (r : Request.t) (o : option Overrides) : PolicyRequest := {|
  turn := r; Requirements := {| req_Endpoint := "messages"; ReasoningReplay := false; ReasoningSignature := false |};
  ReasoningConfigurationSHA256 := ""; ToolConfigurationSHA256 := ""; AvailableTools := []; PreferredModels := []; RoutingKnobs := o;
  ClusterArmOverrides := ∅; ShadowMode := false; TrainingAllowed := true; DebugEnabled := false |}.
Definition ex_code : PolicyRequest := ex_request (ex_turn "code" None None) None.
Definition ex_routed_decision : Decision.t := match Route ex_scorer ex_code with Ok d => d | Err _ => Decision.zero end.
Lemma ex_route : Route ex_scorer ex_code = Ok ex_routed_decision.
Proof.
  unfold ex_routed_decision. destruct (Route ex_scorer ex_code) as [d|f] eqn:E; [reflexivity|]. exfalso.
  assert (R : match Route ex_scorer ex_code with Ok _ => true | Err _ => false end = true) by (vm_compute; reflexivity).
  rewrite E in R. discriminate.
Qed.
Lemma scorer_shape_witness : ex_scorer.(models) = [flash; kimi] /\ NoDup ex_scorer.(models) /\ ex_scorer.(embed).(embedder_ID) = EmbedderJinaV2.
Proof.
  split; [vm_compute; reflexivity|]. destruct (scorer_shape ex_bundle ex_config ex_embedder {["aiand"]} ex_scorer ex_built) as (_ & N & _ & _ & _ & _ & _ & I).
  split; [exact N|exact I].
Defined.
Lemma cluster_serves_eligible_witness : ex_routed_decision.(Decision.Model) = kimi /\ ex_routed_decision.(Decision.Provider) ∈ ({["aiand"]} : gset string).
Proof.
  split; [vm_compute; reflexivity|].
  destruct (cluster_serves_eligible ex_bundle ex_config ex_embedder {["aiand"]} ex_scorer ex_code ex_routed_decision ex_built ex_route) as (_ & _ & P & _). exact P.
Defined.
Lemma cluster_serves_best_witness : exists md, ex_routed_decision.(Decision.Metadata) = Some md /\ md.(Metadata.PairedModel) = flash /\
  first_best md.(Metadata.CandidateScores) md.(Metadata.CandidateModels) kimi md.(Metadata.ChosenScore).
Proof.
  destruct (cluster_serves_best ex_bundle ex_config ex_embedder {["aiand"]} ex_scorer ex_code ex_routed_decision ex_built ex_route) as (md & E & _ & _ & B & _).
  exists md. split; [exact E|].
  assert (X : match ex_routed_decision.(Decision.Metadata) with Some m => Metadata.PairedModel m | None => "" end = flash) by (vm_compute; reflexivity).
  rewrite E in X. split; [exact X|].
  replace kimi with (Decision.Model ex_routed_decision) by (vm_compute; reflexivity). exact B.
Defined.
Definition ex_refused : PolicyRequest := ex_request (ex_turn "code" None (Some {[kimi; flash]})) None.
Lemma cluster_refusals_witness : Route ex_scorer ex_refused = Err ExclusionsEmptyPool /\
  forall x, x ∈ ex_scorer.(candidates) -> in_opt_set x.(Entry.Model) (Some {[kimi; flash]}) = true \/
    exists en, None = Some en /\ resolveProviderFor x.(Entry.Model) x.(Entry.Provider) en = "".
Proof.
  assert (R : Route ex_scorer ex_refused = Err ExclusionsEmptyPool) by (vm_compute; reflexivity). split; [exact R|].
  exact (cluster_refusals ex_bundle ex_config ex_embedder {["aiand"]} ex_scorer ex_refused ExclusionsEmptyPool ex_built R).
Defined.
Definition ex_dial (t : f64) : Overrides := {| Alpha := None; QualityBias := Some t; SpeedWeight := None; OutputCostRatio := None;
  ExpectedOutputTokens := None; PerModelVerbosity := None; ForceEffort := "" |}.
Definition ex_dialed : Knobs.t := dial_knobs ex_scorer f_zero.
(** The dial all the way to the price: each cluster stays at its floor. *)
Lemma dial_respects_floor_witness : ex_dialed.(Knobs.Alpha) = [f64_lit 6 10; f64_lit 2 10] /\
  Z.of_nat (length ex_dialed.(Knobs.Alpha)) = ex_scorer.(centroids).(Centroids.K).
Proof.
  split; [vm_compute; reflexivity|].
  exact (proj1 (proj2 (dial_respects_floor ex_bundle ex_config ex_embedder {["aiand"]} ex_scorer (ex_dial f_zero) ex_dialed f_zero ex_built eq_refl eq_refl eq_refl))).
Defined.
Lemma ex_representable : representable ex_knobs.
Proof.
  split; [|split; [|split]]; try (vm_compute; reflexivity). intros a Ha. apply elem_of_cons in Ha as [->|Ha]; [vm_compute; reflexivity|].
  apply list_elem_of_singleton in Ha as ->. vm_compute. reflexivity.
Qed.
Lemma knobs_hash_separates_witness : knobs_buffer ex_knobs = knobs_buffer ex_knobs /\ ex_knobs.(Knobs.Alpha) = ex_knobs.(Knobs.Alpha).
Proof.
  split; [reflexivity|].
  exact (proj1 (knobs_hash_separates ex_scorer ex_knobs ex_knobs ltac:(vm_compute; reflexivity) ltac:(vm_compute; reflexivity) ex_representable ex_representable eq_refl)).
Defined.
Definition ex_previewed : PolicyRequest := ex_request (ex_turn "code" (Some ({["aiand"]} ∖ ∅)) (Some ∅)) (Some (ex_dial (f64_of_Z 1))).
Definition ex_points : list DistributionPoint := match RoutingDistribution map_to_list ex_scorer 2 ∅ ∅ with Ok ps => ps | Err _ => [] end.
Definition ex_point : DistributionPoint := nth 1 ex_points {| Bias := f_zero; Shares := []; ProjectedCost := f_zero |}.
(** All the way to quality, both clusters are served the better model, in the preview and live. *)
Lemma preview_is_live_witness : ex_point.(Shares) = [{| share_Model := kimi; Share := f64_of_Z 1 |}] /\
  f64_of_Z 1 = f64_div (f64_of_Z (Z.of_nat (length (List.filter (serves ex_scorer ex_previewed kimi) (cluster_ids 2))))) (f64_of_Z 2).
Proof.
  assert (B : ex_point.(Bias) = f64_of_Z 1) by (vm_compute; reflexivity).
  assert (S : ex_point.(Shares) = [{| share_Model := kimi; Share := f64_of_Z 1 |}]) by (vm_compute; reflexivity). split; [exact S|].
  refine (preview_is_live ex_bundle ex_config ex_embedder {["aiand"]} ex_scorer map_to_list 2 ∅ ∅ ex_points ex_point ex_previewed ex_built
            (fun m => reflexivity _) _ _ _ _ _ {| share_Model := kimi; Share := f64_of_Z 1 |} _).
  - unfold ex_points. destruct (RoutingDistribution _ _ _ _ _) as [ps|f] eqn:E; [reflexivity|]. exfalso.
    assert (R : match RoutingDistribution map_to_list ex_scorer 2 ∅ ∅ with Ok _ => true | Err _ => false end = true) by (vm_compute; reflexivity).
    rewrite E in R. discriminate.
  - apply list_elem_of_In, nth_In. apply Nat.ltb_lt. vm_compute. reflexivity.
  - rewrite B. split; reflexivity || (vm_compute; discriminate).
  - vm_compute. reflexivity.
  - vm_compute. reflexivity.
  - rewrite S. apply list_elem_of_singleton. reflexivity.
Defined.

(** The size a file should have wraps: sixteen bytes that announce 2^31 centroids of dimension 2^31 pass for complete. *)
Lemma centroids_size_wraps :
  loadCentroids (centroidsMagic ++ le_bytes 4 1 ++ le_bytes 4 (2 ^ 31) ++ le_bytes 4 (2 ^ 31))%list = Err Panics.
Proof. vm_compute. reflexivity. Qed.
