(* ===== verification/KeyCache.v ===== *)
(** The caches of the authentication service (internal/auth/apikey_cache.go, user_cluster_cache.go): a read-through
    cache with an index by installation that lets a change of settings drop every entry of an installation.  The
    expiring LRU is a third-party package: it may drop an entry at any time, and it calls the eviction callback for
    every entry it drops, on [Remove] too; storing a key it holds replaces the value without the callback.

    A call is several atomic steps, since the index's lock cannot be held while the LRU is written; concurrent calls are
    interleavings of these steps. *)

From stdpp Require Import base gmap sets list strings.
From Stdlib Require Import ZArith Lia.
From S2P Require Import Prelude.
Open Scope string_scope.
Open Scope Z_scope.

(** ** The cache of keys (apikey_cache.go) *)

Module ApiKeys.
Section Cache.
(** What an entry carries besides its installation: the key, the external keys, the cluster lists. *)
Context {V : Type}.
Record CachedKey := { Negative : bool; Installation : option string; payload : V }.
Definition instID (e : CachedKey) : string := default "" e.(Installation).
Record Cache := {
  positive : gmap string CachedKey;
  negative : gmap string CachedKey;
  byInstallation : gmap string (gset string);
  invalidationGen : gmap string Z
}.
Definition NewLRUAPIKeyCache : Cache := {| positive := ∅; negative := ∅; byInstallation := ∅; invalidationGen := ∅ |}.
Definition gen (i : string) (c : Cache) : Z := default 0 (c.(invalidationGen) !! i).
Definition hashes_of (i : string) (c : Cache) : gset string := default ∅ (c.(byInstallation) !! i).
Definition with_positive (p : gmap string CachedKey) (c : Cache) : Cache := {|
  positive := p; negative := c.(negative); byInstallation := c.(byInstallation); invalidationGen := c.(invalidationGen) |}.
Definition with_index (ix : gmap string (gset string)) (c : Cache) : Cache := {|
  positive := c.(positive); negative := c.(negative); byInstallation := ix; invalidationGen := c.(invalidationGen) |}.

(** Drops a hash from the index, and a bucket it leaves empty. *)
Definition unindex (i k : string) (c : Cache) : Cache :=
  match c.(byInstallation) !! i with
  | None => c
  | Some hashes => let rest := hashes ∖ {[k]} in
      with_index (if bool_decide (rest = ∅) then delete i c.(byInstallation) else <[i := rest]> c.(byInstallation)) c
  end.
Definition onPositiveEvict (k : string) (e : CachedKey) (c : Cache) : Cache := if String.eqb (instID e) "" then c else unindex (instID e) k c.
(** The LRU drops a key, with its callback. *)
Definition positive_Remove (k : string) (c : Cache) : Cache :=
  match c.(positive) !! k with
  | None => c
  | Some e => onPositiveEvict k e (with_positive (delete k c.(positive)) c)
  end.

(** [Get]; an entry past its lifetime that the LRU has not dropped yet is not served: [live] and [live_negative] tell
    which are within it. *)
Definition Get (live live_negative : string -> bool) (k : string) (c : Cache) : option CachedKey :=
  let within (live : string -> bool) (m : gmap string CachedKey) := if live k then m !! k else None in
  match within live c.(positive) with Some e => Some e | None => within live_negative c.(negative) end.
(** [Set], in three steps. *)
Definition set_negative (k : string) (e : CachedKey) (c : Cache) : Cache := {|
  positive := c.(positive); negative := <[k := e]> c.(negative); byInstallation := c.(byInstallation); invalidationGen := c.(invalidationGen) |}.
Definition set_begin (k : string) (e : CachedKey) (c : Cache) : Cache * Z :=
  let i := instID e in
  if String.eqb i "" then (c, 0)
  else (with_index (<[i := {[k]} ∪ hashes_of i c]> c.(byInstallation)) c, gen i c).
Definition set_add (k : string) (e : CachedKey) (c : Cache) : Cache := with_positive (<[k := e]> c.(positive)) c.
Definition set_check (k : string) (e : CachedKey) (preGen : Z) (c : Cache) : Cache * bool :=
  if gen (instID e) c =? preGen then (c, false) else (unindex (instID e) k c, true).
Definition Set_ (k : string) (e : CachedKey) (c : Cache) : Cache :=
  if e.(Negative) then set_negative k e c
  else
    let '(c, preGen) := set_begin k e c in
    let c := set_add k e c in
    if String.eqb (instID e) "" then c
    else let '(c, rolled) := set_check k e preGen c in if rolled : bool then positive_Remove k c else c.
(** [InvalidateInstallation]: the index is drained under the lock, then the hashes are removed. *)
Definition drain (i : string) (c : Cache) : Cache * gset string :=
  ({| positive := c.(positive); negative := c.(negative); byInstallation := delete i c.(byInstallation);
      invalidationGen := <[i := (gen i c + 1) mod 2 ^ 64]> c.(invalidationGen) |}, hashes_of i c).
Definition InvalidateInstallation (i : string) (c : Cache) : Cache :=
  if String.eqb i "" then c
  else let '(c, hashes) := drain i c in fold_left (fun c k => positive_Remove k c) (elements hashes) c.

(** ** Interleavings *)

(** A call in progress: a [Set] before the write to the LRU, a [Set] before its check, and the removals an
    invalidation or a rolled-back [Set] has still to make. *)
Inductive thread :=
| Adding (k : string) (e : CachedKey) (preGen : Z)
| Checking (k : string) (e : CachedKey) (preGen : Z)
| Removing (ks : gset string).
Record Sys := { cache : Cache; threads : list thread }.
Inductive event :=
| ESet (k : string) (e : CachedKey)       (** a call of [Set] begins *)
| ENext (n : nat)                         (** the n-th call in progress takes its step *)
| ERemove (n : nat) (k : string)          (** the n-th removes a key *)
| EInvalidate (i : string)                (** a call of [InvalidateInstallation] drains the index *)
| EEvict (k : string).                    (** the LRU drops a key *)
Definition replace_at (n : nat) (ts : list thread) (new : list thread) : list thread := (firstn n ts ++ new ++ skipn (S n) ts)%list.
Definition fire (s : Sys) (ev : event) : option Sys :=
  let c := s.(cache) in let ts := s.(threads) in
  match ev with
  | ESet k e =>
      if e.(Negative) then Some {| cache := set_negative k e c; threads := ts |}
      else let '(c, preGen) := set_begin k e c in Some {| cache := c; threads := Adding k e preGen :: ts |}
  | ENext n =>
      match ts !! n with
      | Some (Adding k e preGen) =>
          Some {| cache := set_add k e c; threads := replace_at n ts (if String.eqb (instID e) "" then [] else [Checking k e preGen]) |}
      | Some (Checking k e preGen) =>
          let '(c, rolled) := set_check k e preGen c in
          Some {| cache := c; threads := replace_at n ts (if rolled : bool then [Removing {[k]}] else []) |}
      | Some (Removing ks) => if bool_decide (ks = ∅) then Some {| cache := c; threads := replace_at n ts [] |} else None
      | None => None
      end
  | ERemove n k =>
      match ts !! n with
      | Some (Removing ks) => if in_set k ks then Some {| cache := positive_Remove k c; threads := replace_at n ts [Removing (ks ∖ {[k]})] |} else None
      | _ => None
      end
  | EInvalidate i =>
      if String.eqb i "" then Some s
      else let '(c, hashes) := drain i c in Some {| cache := c; threads := Removing hashes :: ts |}
  | EEvict k => Some {| cache := positive_Remove k c; threads := ts |}
  end.
Definition idle : Sys := {| cache := NewLRUAPIKeyCache; threads := [] |}.
Definition run (evs : list event) (s : Sys) : option Sys := fold_left (fun s ev => match s with Some s => fire s ev | None => None end) evs (Some s).

(** ** The index is complete as long as calls on one key do not overlap *)

(** Whether a call in progress is a [Set] of the key, or touches it at all. *)
Definition setting (k : string) (t : thread) : bool :=
  match t with Adding k' _ _ | Checking k' _ _ => String.eqb k k' | Removing _ => false end.
Definition touching (k : string) (t : thread) : bool := match t with Removing ks => in_set k ks | _ => setting k t end.
(** The steps that keep calls on one key apart: a [Set] begins when no call touches the key, the LRU does not drop a key that is
    being set; a hash belongs to one installation.  Invalidations may begin at any time. *)
Definition apart (owner : string -> string) (s : Sys) (ev : event) : Prop :=
  match ev with
  | ESet k e => e.(Negative) = false -> instID e = owner k /\ existsb (touching k) s.(threads) = false
  | EEvict k => existsb (setting k) s.(threads) = false
  | _ => True
  end.
Fixpoint all_apart (owner : string -> string) (s : Sys) (evs : list event) : Prop :=
  match evs with
  | [] => True
  | ev :: rest => apart owner s ev /\ match fire s ev with Some s' => all_apart owner s' rest | None => True end
  end.
Definition set_key (t : thread) : option string := match t with Adding k _ _ | Checking k _ _ => Some k | Removing _ => None end.
Definition sets (k : string) (pre : Z) (t : thread) : Prop :=
  match t with Adding k' _ pre' | Checking k' _ pre' => k' = k /\ pre' = pre | Removing _ => False end.
Definition sound (owner : string -> string) (t : thread) : Prop :=
  match t with Adding k e _ | Checking k e _ => instID e = owner k | Removing _ => True end.
Record inv (owner : string -> string) (n : Z) (s : Sys) : Prop := {
  inv_gen i : 0 <= gen i s.(cache) <= n;
  inv_owner i k : k ∈ hashes_of i s.(cache) -> i = owner k;
  inv_value k e : s.(cache).(positive) !! k = Some e -> instID e = owner k;
  inv_one : NoDup (omap set_key s.(threads));
  inv_sound t : t ∈ s.(threads) -> sound owner t;
  inv_pre t k pre : t ∈ s.(threads) -> sets k pre t -> owner k <> "" -> pre <= gen (owner k) s.(cache);
  inv_adding k e pre : Adding k e pre ∈ s.(threads) -> owner k <> "" -> k ∈ hashes_of (owner k) s.(cache) \/ pre <> gen (owner k) s.(cache);
  inv_removing t k pre ks : Removing ks ∈ s.(threads) -> k ∈ ks -> t ∈ s.(threads) -> sets k pre t -> owner k <> "" -> pre <> gen (owner k) s.(cache);
  inv_indexed k e : s.(cache).(positive) !! k = Some e -> owner k <> "" ->
    k ∈ hashes_of (owner k) s.(cache) \/ (exists ks, Removing ks ∈ s.(threads) /\ k ∈ ks) \/
    (exists e' pre, Checking k e' pre ∈ s.(threads) /\ pre <> gen (owner k) s.(cache))
}.

(** *** What the operations do to the index, the generations and the entries *)

Lemma hashes_with_positive i p c : hashes_of i (with_positive p c) = hashes_of i c.
Proof. reflexivity. Qed.
Lemma hashes_insert i j h c : hashes_of j (with_index (<[i := h]> c.(byInstallation)) c) = if decide (i = j) then h else hashes_of j c.
Proof. unfold hashes_of, with_index; simpl. by destruct (decide (i = j)) as [->|]; [rewrite lookup_insert_eq|rewrite lookup_insert_ne]. Qed.
Lemma hashes_unindex i k j k' c : k' ∈ hashes_of j (unindex i k c) <-> k' ∈ hashes_of j c /\ ~ (j = i /\ k' = k).
Proof.
  unfold unindex. destruct (byInstallation c !! i) as [h|] eqn:Eh; simpl.
  - assert (Hh : hashes_of i c = h) by (unfold hashes_of; by rewrite Eh).
    case_bool_decide as Hd.
    + unfold hashes_of at 1; simpl. destruct (decide (i = j)) as [<-|].
      * rewrite lookup_delete_eq; simpl. set_solver.
      * rewrite lookup_delete_ne by done. unfold hashes_of. naive_solver.
    + rewrite hashes_insert. destruct (decide (i = j)) as [<-|]; set_solver.
  - destruct (decide (j = i)) as [->|]; [unfold hashes_of; rewrite Eh; set_solver|naive_solver].
Qed.
Lemma unindex_frame i k c : positive (unindex i k c) = positive c /\ invalidationGen (unindex i k c) = invalidationGen c.
Proof. unfold unindex. by destruct (byInstallation c !! i). Qed.
Lemma gen_unindex i j k c : gen j (unindex i k c) = gen j c.
Proof. unfold gen. by destruct (unindex_frame i k c) as [_ ->]. Qed.
Lemma evicted_frame k e c : positive (onPositiveEvict k e c) = positive c /\ invalidationGen (onPositiveEvict k e c) = invalidationGen c.
Proof. unfold onPositiveEvict. destruct (String.eqb _ _); [done|apply unindex_frame]. Qed.
Lemma removed_positive k c : positive (positive_Remove k c) = delete k (positive c).
Proof.
  unfold positive_Remove. destruct (positive c !! k) eqn:E; [|by rewrite delete_id].
  by destruct (evicted_frame k c0 (with_positive (delete k (positive c)) c)) as [-> _].
Qed.
Lemma removed_gen k j c : gen j (positive_Remove k c) = gen j c.
Proof.
  unfold positive_Remove. destruct (positive c !! k) eqn:E; [|done].
  unfold gen. by destruct (evicted_frame k c0 (with_positive (delete k (positive c)) c)) as [_ ->].
Qed.
Lemma removed_index k j k' c : k' ∈ hashes_of j (positive_Remove k c) -> k' ∈ hashes_of j c.
Proof.
  unfold positive_Remove, onPositiveEvict. destruct (positive c !! k) as [e|]; [|done].
  destruct (String.eqb _ _); [done|]. rewrite hashes_unindex, hashes_with_positive. tauto.
Qed.
Lemma removed_index_others k j k' c : k' <> k -> k' ∈ hashes_of j c -> k' ∈ hashes_of j (positive_Remove k c).
Proof.
  intros Hk Hin. unfold positive_Remove, onPositiveEvict. destruct (positive c !! k) as [e|]; [|done].
  destruct (String.eqb _ _); [done|]. rewrite hashes_unindex, hashes_with_positive. tauto.
Qed.
(** *** Every step keeps the index complete *)

Lemma take_thread n (ts : list thread) t : ts !! n = Some t -> exists l1 l2, ts = (l1 ++ t :: l2)%list /\ forall new, replace_at n ts new = (l1 ++ new ++ l2)%list.
Proof. intros Ht. exists (take n ts), (drop (S n) ts). split; [by rewrite take_drop_middle|reflexivity]. Qed.
Lemma untouched k (ts : list thread) : existsb (touching k) ts = false -> forall t, t ∈ ts -> touching k t = false.
Proof. intros H t Ht. apply not_true_iff_false. intros Hc. apply not_true_iff_false in H. apply H, existsb_exists. exists t. split; [by apply list_elem_of_In|done]. Qed.
Lemma sets_setting k pre t : sets k pre t -> setting k t = true.
Proof. destruct t; simpl; [intros [-> _]|intros [-> _]|done]; apply String.eqb_refl. Qed.
Lemma sets_key k pre t : sets k pre t -> set_key t = Some k.
Proof. destruct t; simpl; intros H; [by destruct H as [-> _]|by destruct H as [-> _]|done]. Qed.
(** The keys being set by a list of calls. *)
Lemma setting_keys k (ts : list thread) : k ∈ omap set_key ts <-> exists t pre, t ∈ ts /\ sets k pre t.
Proof.
  rewrite list_elem_of_omap. split.
  - intros (t & Ht & Hk). destruct t as [k' e pre|k' e pre|]; simplify_eq/=; eexists _, pre; split; [exact Ht|done|exact Ht|done].
  - intros (t & pre & Ht & Hs). exists t. split; [done|by eapply sets_key].
Qed.

Section Steps.
Context (owner : string -> string) (n : Z).
(** A step that leaves generations and the calls alone and only drops a key no call is setting, or one being removed. *)
Lemma inv_drop c ts k : (forall t pre, t ∈ ts -> sets k pre t -> owner k <> "" -> pre <> gen (owner k) c) -> inv owner n {| cache := c; threads := ts |} ->
  inv owner n {| cache := positive_Remove k c; threads := ts |}.
Proof.
  intros Hk [Hg Ho Hv H1 Hs Hp Ha Hr Hi]; simpl in *. split; simpl; try setoid_rewrite removed_gen; eauto.
  - intros i k' Hin. eapply Ho, removed_index, Hin.
  - intros k' e. rewrite removed_positive. intros [_ He]%lookup_delete_Some. eauto.
  - intros k' e pre Hin Hne. destruct (decide (k' = k)) as [->|Hd]; [right; by eapply Hk|].
    destruct (Ha _ _ _ Hin Hne); [left; by apply removed_index_others|by right].
  - intros k' e. rewrite removed_positive. intros [Hd He]%lookup_delete_Some Hne.
    destruct (Hi _ _ He Hne) as [|?]; [left; by apply removed_index_others|by right].
Qed.
Lemma fire_evict s k : existsb (setting k) s.(threads) = false -> inv owner n s -> inv owner n {| cache := positive_Remove k s.(cache); threads := s.(threads) |}.
Proof.
  intros Hk Hinv. apply inv_drop; [|by destruct s]. intros t pre Ht Hs _. exfalso.
  apply not_true_iff_false in Hk. apply Hk, existsb_exists. exists t. split; [by apply list_elem_of_In|by eapply sets_setting].
Qed.
(** Forgetting that a key is to be removed, once it is not in the cache. *)
Lemma fire_remove s m k ks : s.(threads) !! m = Some (Removing ks) -> k ∈ ks -> inv owner n s ->
  inv owner n {| cache := positive_Remove k s.(cache); threads := replace_at m s.(threads) [Removing (ks ∖ {[k]})] |}.
Proof.
  intros Hm Hk Hinv. destruct s as [c ts]; simpl in *. destruct (take_thread _ _ _ Hm) as (l1 & l2 & -> & ->).
  assert (Hd : inv owner n {| cache := positive_Remove k c; threads := (l1 ++ Removing ks :: l2)%list |}).
  { apply inv_drop; [|done]. intros t pre Ht Hs Hne. eapply (inv_removing _ _ _ Hinv); simpl; [|exact Hk| | |]; eauto. set_solver. }
  destruct Hd as [Hg Ho Hv H1 Hs Hp Ha Hr Hi]; simpl in *.
  assert (Hsub : forall t, t ∈ (l1 ++ [Removing (ks ∖ {[k]})] ++ l2)%list -> t ∈ (l1 ++ Removing ks :: l2)%list \/ t = Removing (ks ∖ {[k]})) by set_solver.
  split; simpl; eauto.
  - revert H1. rewrite !omap_app. done.
  - intros t [Ht| ->]%Hsub; [auto|done].
  - intros t k' pre [Ht| ->]%Hsub; [eauto|done].
  - intros k' e pre [Ht|Ht]%Hsub; [eauto|done].
  - intros t k' pre ks' Hks Hin [Ht| ->]%Hsub; [|done].
    apply Hsub in Hks as [Hks|Heq]; [eauto|]. simplify_eq. eapply Hr; [|exact (proj1 (proj1 (elem_of_difference _ _ _) Hin))|exact Ht]. set_solver.
  - intros k' e He Hne. destruct (Hi _ _ He Hne) as [|[(ks' & Hin & Hk')|(e' & pre & Hin & Hpre)]]; [by left| |].
    + right; left. rewrite removed_positive in He. apply lookup_delete_Some in He as [Hd _].
      apply elem_of_app in Hin as [Hin|[Heq|Hin]%elem_of_cons]; [exists ks'; set_solver| |exists ks'; set_solver].
      simplify_eq. exists (ks ∖ {[k]}). set_solver.
    + right; right. exists e', pre. set_solver.
Qed.
Lemma fire_negative s k e : inv owner n s -> inv owner n {| cache := set_negative k e s.(cache); threads := s.(threads) |}.
Proof. intros [Hg Ho Hv H1 Hs Hp Ha Hr Hi]. by split. Qed.
Lemma fire_begin s k e : instID e = owner k -> existsb (touching k) s.(threads) = false -> inv owner n s ->
  inv owner n {| cache := fst (set_begin k e s.(cache)); threads := Adding k e (snd (set_begin k e s.(cache))) :: s.(threads) |}.
Proof.
  intros He Hk Hinv. destruct s as [c ts]; simpl in *. pose proof (untouched _ _ Hk) as Hfresh. clear Hk.
  assert (Hnone : forall t pre, t ∈ ts -> sets k pre t -> False).
  { intros t pre Ht Hst. specialize (Hfresh t Ht). apply sets_setting in Hst. by destruct t; simpl in *; [rewrite Hst in Hfresh|rewrite Hst in Hfresh|]. }
  destruct Hinv as [Hg Ho Hv H1 Hs Hp Ha Hr Hi]; simpl in *.
  set (c' := fst (set_begin k e c)).
  assert (Hgen : forall j, gen j c' = gen j c) by (intros j; unfold c', set_begin; by destruct (String.eqb _ _)).
  assert (Hpos : positive c' = positive c) by (unfold c', set_begin; by destruct (String.eqb _ _)).
  assert (Hpre : owner k <> "" -> snd (set_begin k e c) = gen (owner k) c).
  { intros Hne. unfold set_begin. rewrite He. apply String.eqb_neq in Hne as ->. done. }
  assert (Hidx : forall j k', k' ∈ hashes_of j c' <-> k' ∈ hashes_of j c \/ (j = owner k /\ k' = k /\ owner k <> "")).
  { intros j k'. unfold c', set_begin. rewrite He. destruct (String.eqb_spec (owner k) "") as [Hz|Hne]; simpl; [naive_solver|].
    rewrite hashes_insert. destruct (decide (owner k = j)) as [<-|]; set_solver. }
  assert (Hnew : forall t, t ∈ Adding k e (snd (set_begin k e c)) :: ts -> t ∈ ts \/ t = Adding k e (snd (set_begin k e c))) by set_solver.
  split; simpl; try setoid_rewrite Hgen; rewrite ?Hpos; eauto.
  - intros i k' [Hin|(-> & -> & _)]%Hidx; eauto.
  - constructor; [|done]. intros (t & pre & Ht & Hst)%setting_keys. by eapply Hnone.
  - intros t [Ht| ->]%Hnew; [auto|done].
  - intros t k' pre [Ht| ->]%Hnew Hst Hne; [eauto|]. destruct Hst as [-> <-]. rewrite Hpre by done. lia.
  - intros k' e' pre [Ht|Heq]%Hnew Hne.
    + destruct (Ha _ _ _ Ht Hne); [left; apply Hidx; by left|by right].
    + simplify_eq. left. apply Hidx. by right.
  - intros t k' pre ks Hks Hin [Ht| ->]%Hnew Hst Hne.
    + apply Hnew in Hks as [Hks|]; [eauto|done].
    + destruct Hst as [-> _]. apply Hnew in Hks as [Hks|]; [|done]. specialize (Hfresh _ Hks). simpl in Hfresh. by apply bool_decide_eq_false in Hfresh.
  - intros k' e' Hv' Hne. destruct (Hi _ _ Hv' Hne) as [|[(ks & ? & ?)|(e'' & pre & ? & ?)]].
    + left. apply Hidx. by left.
    + right; left. exists ks. set_solver.
    + right; right. exists e'', pre. set_solver.
Qed.
Lemma fire_add s m k e pre : s.(threads) !! m = Some (Adding k e pre) -> inv owner n s ->
  inv owner n {| cache := set_add k e s.(cache); threads := replace_at m s.(threads) (if String.eqb (instID e) "" then [] else [Checking k e pre]) |}.
Proof.
  intros Hm Hinv. destruct s as [c ts]; simpl in *. destruct (take_thread _ _ _ Hm) as (l1 & l2 & -> & ->).
  destruct Hinv as [Hg Ho Hv H1 Hs Hp Ha Hr Hi]; simpl in *.
  assert (Hsound : instID e = owner k) by (apply (Hs (Adding k e pre)); set_solver).
  assert (Hsub : forall t, t ∈ (l1 ++ (if String.eqb (instID e) "" then [] else [Checking k e pre]) ++ l2)%list ->
    t ∈ (l1 ++ Adding k e pre :: l2)%list \/ t = Checking k e pre) by (destruct (String.eqb _ _); set_solver).
  split; simpl; eauto.
  - intros k' e'. unfold set_add; simpl. intros [[-> ->]|[_ He]]%lookup_insert_Some; eauto.
  - revert H1. rewrite !omap_app. destruct (String.eqb _ _); simpl; [|done]. intros H1. eapply sublist_NoDup; [exact H1|]. apply sublist_app; [done|]. by constructor.
  - intros t [Ht| ->]%Hsub; [auto|done].
  - intros t k' pre' [Ht| ->]%Hsub; [eauto|]. intros [-> ->]. apply (Hp (Adding k' e pre')); [set_solver|done].
  - intros k' e' pre' [Ht|Ht]%Hsub; [eauto|done].
  - intros t k' pre' ks Hks Hin Ht Hst. apply Hsub in Hks as [Hks|]; [|done].
    apply Hsub in Ht as [Ht| ->]; [eauto|]. eapply (Hr (Adding k e pre)); eauto. set_solver.
  - intros k' e'. unfold set_add; simpl. intros He Hne. destruct (decide (k' = k)) as [->|Hd].
    + destruct (Ha k e pre) as [|Hpre]; [set_solver|done|by left|].
      right; right. exists e, pre. rewrite Hsound. apply String.eqb_neq in Hne as ->. set_solver.
    + rewrite lookup_insert_ne in He by done. destruct (Hi _ _ He Hne) as [|[(ks & ? & ?)|(e'' & pre' & ? & ?)]]; [by left| |].
      * right; left. exists ks. set_solver.
      * right; right. exists e'', pre'. set_solver.
Qed.
(** A call that ends, or goes on to remove a key no other call is setting. *)
Lemma inv_ends c l1 l2 t : (forall k e pre, t = Checking k e pre -> owner k <> "" -> pre = gen (owner k) c) ->
  (forall ks, t = Removing ks -> ks = ∅) -> (forall k e pre, t = Adding k e pre -> False) ->
  inv owner n {| cache := c; threads := (l1 ++ t :: l2)%list |} -> inv owner n {| cache := c; threads := (l1 ++ l2)%list |}.
Proof.
  intros Hc Hrm Hadd [Hg Ho Hv H1 Hs Hp Ha Hr Hi]; simpl in *.
  assert (Hsub : forall u, u ∈ (l1 ++ l2)%list -> u ∈ (l1 ++ t :: l2)%list) by set_solver.
  split; simpl; eauto.
  - revert H1. rewrite !omap_app. simpl. intros H1. eapply sublist_NoDup; [exact H1|]. apply sublist_app; [done|]. destruct (set_key t); [by constructor|done].
  - intros k e He Hne. destruct (Hi _ _ He Hne) as [|[(ks & Hin & Hk)|(e' & pre & Hin & Hpre)]]; [by left| |].
    + right; left. exists ks. split; [|done]. apply elem_of_app in Hin as [?|[Heq|?]%elem_of_cons]; [set_solver| |set_solver].
      rewrite (Hrm ks) in Hk by done. set_solver.
    + right; right. exists e', pre. split; [|done]. apply elem_of_app in Hin as [?|[Heq|?]%elem_of_cons]; [set_solver| |set_solver].
      by destruct (Hpre (Hc _ _ _ (eq_sym Heq) Hne)).
Qed.
Lemma fire_check s m k e pre : s.(threads) !! m = Some (Checking k e pre) -> inv owner n s ->
  inv owner n {| cache := fst (set_check k e pre s.(cache));
    threads := replace_at m s.(threads) (if snd (set_check k e pre s.(cache)) : bool then [Removing {[k]}] else []) |}.
Proof.
  intros Hm Hinv. destruct s as [c ts]; simpl in *. destruct (take_thread _ _ _ Hm) as (l1 & l2 & -> & ->).
  assert (Hsound : instID e = owner k) by (apply (inv_sound _ _ _ Hinv (Checking k e pre)); set_solver).
  unfold set_check. rewrite Hsound. destruct (Z.eqb_spec (gen (owner k) c) pre) as [Heq|Hgen]; simpl.
  { eapply (inv_ends _ _ _ (Checking k e pre)); [| |done|exact Hinv]; naive_solver. }
  destruct Hinv as [Hg Ho Hv H1 Hs Hp Ha Hr Hi]; simpl in *.
  assert (Halone : forall t pre', t ∈ (l1 ++ l2)%list -> sets k pre' t -> False).
  { intros t pre' Ht Hst. rewrite omap_app in H1. simpl in H1. apply NoDup_app in H1 as (_ & H1 & H2).
    apply NoDup_cons in H2 as [H2 _]. apply elem_of_app in Ht as [Ht|Ht].
    - apply (H1 k); [|set_solver]. apply setting_keys. eauto.
    - apply H2. apply (setting_keys k l2). eauto. }
  assert (Hsub : forall t, t ∈ (l1 ++ Removing {[k]} :: l2)%list -> t ∈ (l1 ++ l2)%list \/ t = Removing {[k]}) by set_solver.
  assert (Hold : forall t, t ∈ (l1 ++ l2)%list -> t ∈ (l1 ++ Checking k e pre :: l2)%list) by set_solver.
  split; simpl; try setoid_rewrite gen_unindex; try (rewrite (proj1 (unindex_frame _ _ _))); eauto.
  - intros i k' [Hin _]%hashes_unindex. eauto.
  - revert H1. rewrite !omap_app. simpl. intros H1. eapply sublist_NoDup; [exact H1|]. apply sublist_app; [done|]. by constructor.
  - intros t [Ht| ->]%Hsub; [auto|done].
  - intros t k' pre' [Ht| ->]%Hsub; [eauto|done].
  - intros k' e' pre' [Ht|]%Hsub Hne; [|done]. rewrite hashes_unindex.
    destruct (decide (k' = k)) as [->|]; [exfalso; by eapply Halone|]. destruct (Ha _ _ _ (Hold _ Ht) Hne); [left; naive_solver|by right].
  - intros t k' pre' ks Hks Hin [Ht| ->]%Hsub Hst; [|done].
    apply Hsub in Hks as [Hks|]; [eauto|]. simplify_eq. apply elem_of_singleton in Hin as ->. exfalso; by eapply Halone.
  - intros k' e' He Hne. rewrite hashes_unindex. destruct (decide (k' = k)) as [->|Hd].
    + right; left. exists {[k]}. set_solver.
    + destruct (Hi _ _ He Hne) as [|[(ks & Hin & Hk)|(e'' & pre' & Hin & Hpre)]]; [left; naive_solver| |].
      * right; left. exists ks. split; [|done]. set_solver.
      * right; right. exists e'', pre'. split; [|done].
        apply elem_of_app in Hin as [?|[Heq|?]%elem_of_cons]; [set_solver|by simplify_eq|set_solver].
Qed.
Lemma fire_drain s i : n + 1 < 2 ^ 64 -> i <> "" -> inv owner n s ->
  inv owner (n + 1) {| cache := fst (drain i s.(cache)); threads := Removing (hashes_of i s.(cache)) :: s.(threads) |}.
Proof.
  intros Hn Hi0 [Hg Ho Hv H1 Hs Hp Ha Hr Hi]. destruct s as [c ts]; cbn [cache threads] in *.
  set (c' := fst (drain i c)).
  assert (Hgen : forall j, gen j c' = if decide (j = i) then gen i c + 1 else gen j c).
  { intros j. unfold c', drain, gen at 1; simpl. destruct (decide (j = i)) as [->|].
    - rewrite lookup_insert_eq. simpl. apply Z.mod_small. specialize (Hg i). lia.
    - by rewrite lookup_insert_ne. }
  assert (Hidx : forall j k, k ∈ hashes_of j c' <-> k ∈ hashes_of j c /\ j <> i).
  { intros j k. unfold c', drain, hashes_of at 1; simpl. destruct (decide (j = i)) as [->|].
    - rewrite lookup_delete_eq. simpl. set_solver.
    - rewrite lookup_delete_ne by done. unfold hashes_of. naive_solver. }
  assert (Hsub : forall t, t ∈ Removing (hashes_of i c) :: ts -> t ∈ ts \/ t = Removing (hashes_of i c)) by set_solver.
  assert (Hup : forall j, gen j c <= gen j c') by (intros j; rewrite Hgen; destruct (decide (j = i)) as [->|]; lia).
  assert (Hmoved : forall t k pre, t ∈ ts -> sets k pre t -> owner k <> "" -> owner k = i \/ pre <> gen (owner k) c -> pre <> gen (owner k) c').
  { intros t k pre Ht Hst Hne Hor. specialize (Hp _ _ _ Ht Hst Hne). rewrite Hgen. destruct (decide (owner k = i)) as [<-|]; [lia|tauto]. }
  split; simpl; eauto.
  - intros j. rewrite Hgen. pose proof (Hg j). destruct (decide (j = i)) as [->|]; lia.
  - intros j k [Hin _]%Hidx. eauto.
  - intros t [Ht| ->]%Hsub; [auto|done].
  - intros t k pre [Ht| ->]%Hsub Hst Hne; [|done]. etrans; [by eapply Hp|apply Hup].
  - intros k e pre [Ht|]%Hsub Hne; [|done]. destruct (decide (owner k = i)) as [He|He].
    + right. eapply (Hmoved (Adding k e pre)); simpl; auto.
    + rewrite Hidx. destruct (Ha _ _ _ Ht Hne); [left; naive_solver|]. right. eapply (Hmoved (Adding k e pre)); simpl; auto.
  - intros t k pre ks [Hks|Heq]%Hsub Hin [Ht| ->]%Hsub Hst Hne; [|done| |done]; eapply Hmoved; eauto.
    left. simplify_eq. symmetry. by apply Ho.
  - intros k e He Hne. rewrite Hidx. destruct (Hi _ _ He Hne) as [Hin|[(ks & Hin & Hk)|(e' & pre & Hin & Hpre)]].
    + destruct (decide (owner k = i)) as [<-|]; [|by left]. right; left. exists (hashes_of (owner k) c). set_solver.
    + right; left. exists ks. set_solver.
    + right; right. exists e', pre. split; [set_solver|]. eapply Hmoved; eauto. done.
Qed.
Lemma fire_inv s ev s' : n + 1 < 2 ^ 64 -> apart owner s ev -> fire s ev = Some s' -> inv owner n s -> inv owner (n + 1) s'.
Proof.
  intros Hn Hap Hf Hinv.
  assert (Hmono : forall s, inv owner n s -> inv owner (n + 1) s).
  { intros s0 [Hg Ho Hv H1 Hs Hp Ha Hr Hi]. split; auto. intros j. specialize (Hg j). lia. }
  destruct ev as [k e|m|m k|i|k]; simpl in Hf.
  - destruct (Negative e) eqn:Hneg; [simplify_eq; by apply Hmono, fire_negative|].
    destruct Hap as [He Hk]; [done|]. pose proof (fire_begin s k e He Hk Hinv) as Hb.
    destruct (set_begin k e (cache s)) as [c pre]. simplify_eq. by apply Hmono.
  - destruct (threads s !! m) as [[k e pre|k e pre|ks]|] eqn:Hm; [| | |done].
    + simplify_eq. by apply Hmono, fire_add.
    + pose proof (fire_check s m k e pre Hm Hinv) as Hc. destruct (set_check k e pre (cache s)) as [c rolled]. simplify_eq. by apply Hmono.
    + case_bool_decide as Hks; simplify_eq. apply Hmono. destruct s as [c ts]; simpl in *.
      destruct (take_thread _ _ _ Hm) as (l1 & l2 & -> & ->). eapply (inv_ends _ _ _ (Removing ∅)); [done|naive_solver|done|exact Hinv].
  - destruct (threads s !! m) as [[| |ks]|] eqn:Hm; [done|done| |done].
    destruct (in_set k ks) eqn:Hk; simplify_eq. apply Hmono, fire_remove; [done|by apply bool_decide_eq_true in Hk|done].
  - destruct (String.eqb_spec i "") as [|Hne]; simplify_eq; [by apply Hmono|]. by apply fire_drain.
  - simplify_eq. by apply Hmono, fire_evict.
Qed.

(** *** After an invalidation *)

(** No entry of the installation is left but those a call in progress is about to drop, and no call in progress keeps
    one it adds. *)
Record flushed (i : string) (s : Sys) : Prop := {
  flushed_entry k e : s.(cache).(positive) !! k = Some e -> owner k = i ->
    (exists ks, Removing ks ∈ s.(threads) /\ k ∈ ks) \/ (exists e' pre, Checking k e' pre ∈ s.(threads));
  flushed_call t k pre : t ∈ s.(threads) -> sets k pre t -> owner k = i -> pre <> gen i s.(cache)
}.
Lemma flushed_drop i c ts k : flushed i {| cache := c; threads := ts |} -> flushed i {| cache := positive_Remove k c; threads := ts |}.
Proof.
  intros [He Hc]. split; simpl in *.
  - intros k' e. rewrite removed_positive. intros [_ H]%lookup_delete_Some. eauto.
  - intros t k' pre. rewrite removed_gen. eauto.
Qed.
Lemma flushed_begins i s : i <> "" -> n + 1 < 2 ^ 64 -> inv owner n s ->
  flushed i {| cache := fst (drain i s.(cache)); threads := Removing (hashes_of i s.(cache)) :: s.(threads) |}.
Proof.
  intros Hi0 Hn Hinv. pose proof (fire_drain s i Hn Hi0 Hinv) as Hinv'.
  assert (Hg : gen i (fst (drain i (cache s))) = gen i (cache s) + 1).
  { unfold drain, gen at 1; simpl. rewrite lookup_insert_eq. apply Z.mod_small. destruct (inv_gen _ _ _ Hinv i). lia. }
  split; cbn [cache threads].
  - intros k e He <-. destruct (inv_indexed _ _ _ Hinv' k e He Hi0) as [Hin|[|(e' & pre & ? & _)]]; cbn [cache threads] in *; eauto.
    exfalso. revert Hin. unfold drain, hashes_of; simpl. rewrite lookup_delete_eq. set_solver.
  - intros t k pre [->|Ht]%elem_of_cons Hst Ho; [done|]. rewrite Hg.
    pose proof (inv_pre _ _ _ Hinv t k pre Ht Hst). rewrite Ho in *. specialize (H Hi0). lia.
Qed.
(** The step of a call in progress. *)
Lemma flushed_next i s m s' : i <> "" -> fire s (ENext m) = Some s' -> inv owner n s -> flushed i s -> flushed i s'.
Proof.
  intros Hi0 Hf Hinv Hfl. simpl in Hf.
  destruct (threads s !! m) as [t|] eqn:Hm; [|done]. destruct s as [c ts]; simpl in *. destruct (take_thread _ _ _ Hm) as (l1 & l2 & -> & Hrep).
  destruct Hfl as [He Hc]; simpl in *. destruct t as [k e pre|k e pre|ks]; simplify_eq; rewrite ?Hrep.
  + assert (Hsound : instID e = owner k) by (apply (inv_sound _ _ _ Hinv (Adding k e pre)); set_solver). split; simpl.
    * intros k' e' Hl Ho. destruct (decide (k' = k)) as [->|Hd].
      { right. exists e, pre. rewrite Hsound, Ho. apply String.eqb_neq in Hi0 as ->. set_solver. }
      rewrite lookup_insert_ne in Hl by done. destruct (He _ _ Hl Ho) as [(ks & ? & ?)|(e'' & pre' & ?)]; [left; exists ks|right; exists e'', pre']; set_solver.
    * intros t k' pre' Ht Hst Ho. assert (Hcase : t ∈ (l1 ++ Adding k e pre :: l2)%list \/ t = Checking k e pre) by (destruct (String.eqb _ _); set_solver).
      destruct Hcase as [| ->]; [eauto|]. apply (Hc (Adding k e pre) k'); [set_solver|done|done].
  + assert (Hsound : instID e = owner k) by (apply (inv_sound _ _ _ Hinv (Checking k e pre)); set_solver).
    destruct (decide (owner k = i)) as [Ho|Ho].
    * unfold set_check in Hf. rewrite Hsound, Ho in Hf. assert (Hpre : pre <> gen i c) by (apply (Hc (Checking k e pre) k); [set_solver|done|done]).
      destruct (Z.eqb_spec (gen i c) pre); [congruence|]. simplify_eq. rewrite Hrep. split; simpl.
      -- intros k' e'. rewrite (proj1 (unindex_frame _ _ _)). intros Hl Ho'. destruct (decide (k' = k)) as [->|Hd]; [left; exists {[k]}; set_solver|].
         destruct (He _ _ Hl Ho') as [(ks & ? & ?)|(e'' & pre' & Hin)]; [left; exists ks; set_solver|right; exists e'', pre'].
         apply elem_of_app in Hin as [?|[Heq|?]%elem_of_cons]; [set_solver|by simplify_eq|set_solver].
      -- intros t k' pre' Ht. rewrite gen_unindex. apply elem_of_app in Ht as [?|[->|?]%elem_of_cons]; [|done|]; intros ? ?; eapply Hc; eauto; set_solver.
    * destruct (set_check k e pre c) as [c' rolled] eqn:Hck. simplify_eq. rewrite Hrep.
      assert (Hfr : positive c' = positive c /\ gen i c' = gen i c).
      { unfold set_check in Hck. destruct (_ =? _); simplify_eq; [done|]. split; [apply unindex_frame|apply gen_unindex]. }
      destruct Hfr as [Hp Hg]. split; simpl.
      -- intros k' e'. rewrite Hp. intros Hl Ho'. destruct (He _ _ Hl Ho') as [(ks & ? & ?)|(e'' & pre' & Hin)]; [left; exists ks; set_solver|right; exists e'', pre'].
         apply elem_of_app in Hin as [?|[Heq|?]%elem_of_cons]; [set_solver|by simplify_eq|set_solver].
      -- intros t k' pre' Ht Hst Ho'. rewrite Hg. apply elem_of_app in Ht as [?|[Hnew|?]%elem_of_app]; [eapply Hc; eauto; set_solver| |eapply Hc; eauto; set_solver].
         destruct rolled; [|set_solver]. apply list_elem_of_singleton in Hnew as ->. done.
  + case_bool_decide; simplify_eq. rewrite Hrep. split; simpl.
    * intros k' e' Hl Ho. destruct (He _ _ Hl Ho) as [(ks & Hin & ?)|(e'' & pre' & Hin)]; [left; exists ks|right; exists e'', pre'];
        apply elem_of_app in Hin as [?|[Heq|?]%elem_of_cons]; set_solver.
    * intros t k' pre' Ht. apply Hc. set_solver.
Qed.
Lemma fire_flushed i s ev s' : i <> "" -> n + 1 < 2 ^ 64 -> (forall k e, ev = ESet k e -> e.(Negative) = false -> owner k <> i) ->
  fire s ev = Some s' -> inv owner n s -> flushed i s -> flushed i s'.
Proof.
  intros Hi0 Hn Hev Hf Hinv Hfl. destruct ev as [k e|m|m k|j|k]; [|by eapply flushed_next| | |]; simpl in Hf.
  - destruct (Negative e) eqn:Hneg; [simplify_eq; destruct Hfl; by split|]. specialize (Hev k e eq_refl Hneg).
    destruct (set_begin k e (cache s)) as [c pre] eqn:Hb. simplify_eq. destruct Hfl as [He Hc].
    assert (Hfr : positive c = positive (cache s) /\ gen i c = gen i (cache s)) by (unfold set_begin in Hb; by destruct (String.eqb _ _); simplify_eq).
    destruct Hfr as [Hp Hg]. split; simpl.
    + intros k' e'. rewrite Hp. intros Hin Ho. destruct (He _ _ Hin Ho) as [(ks & ? & ?)|(e'' & pre' & ?)]; [left; exists ks|right; exists e'', pre']; set_solver.
    + intros t k' pre' [->|Ht]%elem_of_cons Hst Ho; [by destruct Hst as [-> _]|rewrite Hg; eauto].
  - destruct (threads s !! m) as [[| |ks]|] eqn:Hm; [done|done| |done]. destruct (in_set k ks); simplify_eq.
    destruct s as [c ts]; simpl in *. destruct (take_thread _ _ _ Hm) as (l1 & l2 & -> & ->). apply (flushed_drop i c _ k) in Hfl as [He Hc]; simpl in *. split; simpl.
    + intros k' e' Hl Ho. destruct (He _ _ Hl Ho) as [(ks' & Hin & Hk)|(e'' & pre' & Hin)]; [|right; exists e'', pre'; set_solver].
      left. apply elem_of_app in Hin as [?|[Heq|?]%elem_of_cons]; [exists ks'; set_solver| |exists ks'; set_solver].
      simplify_eq. exists (ks ∖ {[k]}). rewrite removed_positive in Hl. apply lookup_delete_Some in Hl as [? _]. set_solver.
    + intros t k' pre' Ht Hst. apply elem_of_app in Ht as [?|[->|?]%elem_of_cons]; [eapply Hc; eauto; set_solver|done|eapply Hc; eauto; set_solver].
  - destruct (String.eqb_spec j "") as [|Hne]; simplify_eq; [done|]. destruct (decide (j = i)) as [->|Hd]; [by apply flushed_begins|].
    destruct Hfl as [He Hc]. assert (Hg : gen i (fst (drain j (cache s))) = gen i (cache s)) by (unfold gen, drain; simpl; by rewrite lookup_insert_ne).
    split; cbn [cache threads].
    + intros k e Hl Ho. destruct (He _ _ Hl Ho) as [(ks & ? & ?)|(e'' & pre' & ?)]; [left; exists ks|right; exists e'', pre']; set_solver.
    + intros t k pre [->|Ht]%elem_of_cons Hst Ho; [done|]. simpl in Hg. rewrite Hg. eauto.
  - simplify_eq. by apply flushed_drop; destruct s.
Qed.
End Steps.

Lemma run_cons s ev evs : run (ev :: evs) s = match fire s ev with Some s' => run evs s' | None => None end.
Proof. unfold run. simpl. destruct (fire s ev); [done|]. induction evs; simpl; auto. Qed.
Lemma run_inv owner evs : forall n s s', n + Z.of_nat (length evs) < 2 ^ 64 -> all_apart owner s evs -> run evs s = Some s' -> inv owner n s ->
  inv owner (n + Z.of_nat (length evs)) s'.
Proof.
  induction evs as [|ev evs IH]; intros n s s' Hn Hap Hrun Hinv.
  - injection Hrun as <-. by rewrite Z.add_0_r.
  - rewrite run_cons in Hrun. destruct Hap as [Hap Hrest]. destruct (fire s ev) as [s1|] eqn:Hf; [|done]. simpl length in *.
    replace (n + Z.of_nat (S (length evs))) with ((n + 1) + Z.of_nat (length evs)) in * by lia.
    eapply IH; eauto. eapply fire_inv; eauto. lia.
Qed.
Lemma run_flushed owner i evs : forall n s s', i <> "" -> n + Z.of_nat (length evs) < 2 ^ 64 -> all_apart owner s evs ->
  (forall k e, ESet k e ∈ evs -> e.(Negative) = false -> owner k <> i) ->
  run evs s = Some s' -> inv owner n s -> flushed owner i s -> flushed owner i s'.
Proof.
  induction evs as [|ev evs IH]; intros n s s' Hi Hn Hap Hev Hrun Hinv Hfl; [by injection Hrun as <-|].
  rewrite run_cons in Hrun. destruct Hap as [Hap Hrest]. destruct (fire s ev) as [s1|] eqn:Hf; [|done]. simpl length in *.
  eapply (IH (n + 1)); eauto; [lia|set_solver|eapply fire_inv; eauto; lia|].
  eapply (fire_flushed owner n i s ev s1); eauto; [lia|]. intros k e ->. apply Hev. set_solver.
Qed.
Lemma inv_idle owner : inv owner 0 idle.
Proof.
  split; simpl.
  - intros i. unfold gen. simpl. by rewrite lookup_empty.
  - intros i k. unfold hashes_of. simpl. rewrite lookup_empty. set_solver.
  - intros k e. by rewrite lookup_empty.
  - constructor.
  - set_solver.
  - set_solver.
  - set_solver.
  - set_solver.
  - intros k e. by rewrite lookup_empty.
Qed.
Lemma removes_positive ks : forall c, positive (fold_left (fun c k => positive_Remove k c) ks c) = foldr delete (positive c) ks.
Proof.
  induction ks as [|k ks IH]; intros c; simpl; [done|]. rewrite IH, removed_positive. clear IH.
  induction ks as [|k' ks IH]; simpl; [done|]. by rewrite IH, delete_delete.
Qed.
Lemma removes_lookup ks c k e :
  positive (fold_left (fun c k => positive_Remove k c) ks c) !! k = Some e <-> positive c !! k = Some e /\ k ∉ ks.
Proof.
  rewrite removes_positive. induction ks as [|k' ks IH]; simpl; [set_solver|]. rewrite lookup_delete_Some, IH, not_elem_of_cons. naive_solver.
Qed.
Lemma all_apart_app owner before rest : forall s s1, all_apart owner s (before ++ rest) -> run before s = Some s1 -> all_apart owner s before /\ all_apart owner s1 rest.
Proof.
  induction before as [|ev before IH]; intros s s1 Hap Hrun; [by injection Hrun as <-|].
  rewrite run_cons in Hrun. destruct Hap as [Hap Hrest]. simpl. destruct (fire s ev) as [s'|]; [|done]. destruct (IH _ _ Hrest Hrun). tauto.
Qed.
(** An invalidation between calls. *)
Lemma invalidate_between owner n i s k e : i <> "" -> inv owner n s -> s.(threads) = [] ->
  (InvalidateInstallation i s.(cache)).(positive) !! k = Some e <-> s.(cache).(positive) !! k = Some e /\ instID e <> i.
Proof.
  intros Hi Hinv Hts. unfold InvalidateInstallation. apply String.eqb_neq in Hi as Hib. rewrite Hib. cbn [drain]. rewrite removes_lookup. cbn [positive].
  rewrite elem_of_elements. split; intros [He Hk]; (split; [done|]).
  - intros Heq. apply Hk. pose proof (inv_value _ _ _ Hinv _ _ He) as Ho. rewrite <- Heq, Ho.
    destruct (inv_indexed _ _ _ Hinv k e He) as [|[(ks & Hin & _)|(e' & pre & Hin & _)]]; [congruence|done| |]; rewrite Hts in Hin; set_solver.
  - intros Hin. apply Hk. rewrite (inv_value _ _ _ Hinv _ _ He). symmetry. by apply (inv_owner _ _ _ Hinv).
Qed.

(** C15: a change of settings reaches every cached key: whatever calls and evictions the cache has
    served, interleaved in any way that keeps two calls on one key apart, an invalidation of an installation in the
    middle of them leaves none of its entries once the calls in progress have ended and no later call has stored one —
    not even the entries of calls that were half way through storing one when it began — and an invalidation between calls
    drops exactly the entries of that installation. *)
Theorem invalidation_complete (owner : string -> string) (i : string) (before after : list event) (s s1 s2 : Sys) :
  i <> "" -> all_apart owner idle (before ++ EInvalidate i :: after) -> Z.of_nat (length (before ++ EInvalidate i :: after)) < 2 ^ 64 ->
  run before idle = Some s -> fire s (EInvalidate i) = Some s1 -> run after s1 = Some s2 ->
  (forall k e, ESet k e ∈ after -> e.(Negative) = false -> owner k <> i) -> s2.(threads) = [] ->
  (forall k e, s2.(cache).(positive) !! k = Some e -> instID e <> i) /\
  (forall k e, s.(threads) = [] ->
     (InvalidateInstallation i s.(cache)).(positive) !! k = Some e <-> s.(cache).(positive) !! k = Some e /\ instID e <> i).
Proof.
  intros Hi Hap Hlen Hb Hf Ha Hsets Hts. destruct (all_apart_app _ _ _ _ _ Hap Hb) as [Hapb [_ Hapa]]. rewrite Hf in Hapa.
  rewrite length_app in Hlen. simpl length in Hlen.
  pose proof (run_inv owner before 0 idle s ltac:(lia) Hapb Hb (inv_idle owner)) as Hinv. set (n := 0 + Z.of_nat (length before)) in Hinv.
  assert (Hinv1 : inv owner (n + 1) s1) by (eapply (fire_inv owner n s (EInvalidate i)); [lia|done|done|done]).
  assert (Hfl1 : flushed owner i s1).
  { simpl in Hf. apply String.eqb_neq in Hi as Hib. rewrite Hib in Hf. injection Hf as <-. eapply (flushed_begins owner n); [done|lia|done]. }
  pose proof (run_inv owner after (n + 1) s1 s2 ltac:(lia) Hapa Ha Hinv1) as Hinv2.
  destruct (run_flushed owner i after (n + 1) s1 s2 Hi ltac:(lia) Hapa Hsets Ha Hinv1 Hfl1) as [He _]. split.
  - intros k e Hk Heq. destruct (He k e Hk) as [(ks & Hin & _)|(e' & pre & Hin)].
    + by rewrite <- Heq, (inv_value _ _ _ Hinv2 _ _ Hk).
    + rewrite Hts in Hin. set_solver.
    + rewrite Hts in Hin. set_solver.
  - intros k e. by apply (invalidate_between owner n).
Qed.
End Cache.
End ApiKeys.

(** *** Concrete histories *)

Section Example.
Definition ex_entry (i v : string) : ApiKeys.CachedKey (V:=string) := {| ApiKeys.Negative := false; ApiKeys.Installation := Some i; ApiKeys.payload := v |}.
Definition ex_owner (k : string) : string := if String.eqb k "k3" then "b" else "a".
(** Two keys of "a" and one of "b" are stored; "k2" is being stored again when the settings of "a" change. *)
Definition ex_before : list (ApiKeys.event (V:=string)) :=
  [ApiKeys.ESet "k1" (ex_entry "a" "v1"); ApiKeys.ENext 0; ApiKeys.ENext 0; ApiKeys.ESet "k3" (ex_entry "b" "v3"); ApiKeys.ENext 0; ApiKeys.ENext 0;
   ApiKeys.ESet "k2" (ex_entry "a" "v2")].
Definition ex_after : list (ApiKeys.event (V:=string)) :=
  [ApiKeys.ENext 1; ApiKeys.ERemove 0 "k2"; ApiKeys.ENext 1; ApiKeys.ERemove 0 "k1"; ApiKeys.ENext 0; ApiKeys.ERemove 0 "k2"; ApiKeys.ENext 0].
Definition ex_state (evs : list (ApiKeys.event (V:=string))) (s : ApiKeys.Sys (V:=string)) : ApiKeys.Sys (V:=string) := default ApiKeys.idle (ApiKeys.run evs s).
Definition ex_s : ApiKeys.Sys (V:=string) := ex_state ex_before ApiKeys.idle.
Definition ex_s1 : ApiKeys.Sys (V:=string) := ex_state [ApiKeys.EInvalidate "a"] ex_s.
(** A history in which an invalidation has still to remove "k1" when "k1" is stored again. *)
Definition ex_overlap : list (ApiKeys.event (V:=string)) :=
  [ApiKeys.ESet "k1" (ex_entry "a" "old"); ApiKeys.ENext 0; ApiKeys.ENext 0; ApiKeys.EInvalidate "a"; ApiKeys.ESet "k1" (ex_entry "a" "new");
   ApiKeys.ERemove 1 "k1"; ApiKeys.ENext 0; ApiKeys.ENext 0; ApiKeys.ENext 0].
End Example.
(** After it no call is in progress and "k1" is cached, and another invalidation of its installation leaves it there: the
    late removal took the key out of the index that the newer [Set] had put it in. *)
Lemma overlap_leaves_stale :
  let s := ex_state ex_overlap ApiKeys.idle in
  s.(ApiKeys.threads) = [] /\
  (ApiKeys.InvalidateInstallation "a" s.(ApiKeys.cache)).(ApiKeys.positive) !! "k1" = Some (ex_entry "a" "new").
Proof. split; vm_compute; reflexivity. Qed.
Lemma invalidation_complete_witness :
  let s2 := ex_state ex_after ex_s1 in
  (forall k e, s2.(ApiKeys.cache).(ApiKeys.positive) !! k = Some e -> ApiKeys.instID e <> "a") /\
  s2.(ApiKeys.cache).(ApiKeys.positive) !! "k3" = Some (ex_entry "b" "v3").
Proof.
  split; [|vm_compute; reflexivity].
  apply (ApiKeys.invalidation_complete ex_owner "a" ex_before ex_after ex_s ex_s1); try (vm_compute; reflexivity).
  - done.
  - vm_compute. intuition (try discriminate).
  - unfold ex_after. intros k e Hin. set_solver.
Defined.

(** ** The cache of users' cluster selections (user_cluster_cache.go) *)

(** The same design, keyed by the router's user; the value does not name its installation, so a second map does.  Calls are
    taken one at a time here. *)
Module UserLists.
Section Cache.
Context {L : Type}.
Record Cache := {
  entries : gmap string L;
  byInstallation : gmap string (gset string);
  invalidationGen : gmap string Z;
  installationByUser : gmap string string
}.
Definition NewLRUUserClusterListCache : Cache := {| entries := ∅; byInstallation := ∅; invalidationGen := ∅; installationByUser := ∅ |}.
Definition gen (i : string) (c : Cache) : Z := default 0 (c.(invalidationGen) !! i).
Definition users_of (i : string) (c : Cache) : gset string := default ∅ (c.(byInstallation) !! i).
Definition with_entries (m : gmap string L) (c : Cache) : Cache := {|
  entries := m; byInstallation := c.(byInstallation); invalidationGen := c.(invalidationGen); installationByUser := c.(installationByUser) |}.
Definition removeFromIndexLocked (i u : string) (c : Cache) : Cache := {|
  entries := c.(entries);
  byInstallation :=
    match c.(byInstallation) !! i with
    | None => c.(byInstallation)
    | Some users => let rest := users ∖ {[u]} in if bool_decide (rest = ∅) then delete i c.(byInstallation) else <[i := rest]> c.(byInstallation)
    end;
  invalidationGen := c.(invalidationGen);
  installationByUser := delete u c.(installationByUser) |}.
Definition onEvict (u : string) (c : Cache) : Cache :=
  match c.(installationByUser) !! u with Some i => removeFromIndexLocked i u c | None => c end.
Definition entries_Remove (u : string) (c : Cache) : Cache :=
  match c.(entries) !! u with None => c | Some _ => onEvict u (with_entries (delete u c.(entries)) c) end.
Definition Get (live : string -> bool) (u : string) (c : Cache) : option L := if live u then c.(entries) !! u else None.
Definition Set_ (i u : string) (lists : L) (c : Cache) : Cache :=
  if String.eqb u "" then c
  else
    let preGen := gen i c in
    let c := if String.eqb i "" then c else {|
      entries := c.(entries); byInstallation := <[i := {[u]} ∪ users_of i c]> c.(byInstallation);
      invalidationGen := c.(invalidationGen); installationByUser := <[u := i]> c.(installationByUser) |} in
    let c := with_entries (<[u := lists]> c.(entries)) c in
    if String.eqb i "" then c
    else if gen i c =? preGen then c else entries_Remove u (removeFromIndexLocked i u c).
Definition InvalidateInstallation (i : string) (c : Cache) : Cache :=
  if String.eqb i "" then c
  else
    let users := users_of i c in
    let c := {|
      entries := c.(entries); byInstallation := delete i c.(byInstallation);
      invalidationGen := <[i := (gen i c + 1) mod 2 ^ 64]> c.(invalidationGen);
      installationByUser := fold_left (fun m u => delete u m) (elements users) c.(installationByUser) |} in
    fold_left (fun c u => entries_Remove u c) (elements users) c.

(** A call, or the LRU dropping an entry. *)
Inductive call := CSet (i u : string) (lists : L) | CInvalidate (i : string) | CEvict (u : string).
Definition serve (c : Cache) (cl : call) : Cache :=
  match cl with CSet i u lists => Set_ i u lists c | CInvalidate i => InvalidateInstallation i c | CEvict u => entries_Remove u c end.
(** The installation a user's selections were last stored under, and the selections. *)
Fixpoint last_set (u : string) (calls : list call) : option (string * L) :=
  match calls with
  | [] => None
  | cl :: rest =>
      match last_set u rest with
      | Some r => Some r
      | None => match cl with CSet i u' lists => if String.eqb u u' && negb (String.eqb u' "") then Some (i, lists) else None | _ => None end
      end
  end.

Lemma last_set_app u calls cl : last_set u (calls ++ [cl]) =
  match cl with CSet i u' lists => if String.eqb u u' && negb (String.eqb u' "") then Some (i, lists) else last_set u calls | _ => last_set u calls end.
Proof. induction calls as [|c calls IH]; simpl; [by destruct cl; simpl; try destruct (_ && _)|]. rewrite IH. destruct cl; try done. by destruct (_ && _). Qed.
Lemma removed_entries u c : entries (entries_Remove u c) = delete u (entries c).
Proof.
  unfold entries_Remove. destruct (entries c !! u) eqn:E; [|by rewrite delete_id]. unfold onEvict.
  by destruct (installationByUser _ !! u).
Qed.
Lemma removed_others u u' i c : u' <> u -> u' ∈ users_of i c -> u' ∈ users_of i (entries_Remove u c).
Proof.
  intros Hu Hin. unfold entries_Remove. destruct (entries c !! u); [|done]. unfold onEvict. destruct (installationByUser _ !! u) as [j|]; [|done].
  unfold removeFromIndexLocked, users_of in *. simpl. destruct (byInstallation c !! j) as [users|] eqn:Ej; [|done]. case_bool_decide as Hd.
  - destruct (decide (i = j)) as [->|]; [rewrite Ej in Hin; set_solver|by rewrite lookup_delete_ne].
  - destruct (decide (i = j)) as [->|]; [rewrite Ej in Hin; rewrite lookup_insert_eq; set_solver|by rewrite lookup_insert_ne].
Qed.
Lemma removes_entries us : forall c u l, entries (fold_left (fun c u => entries_Remove u c) us c) !! u = Some l <-> entries c !! u = Some l /\ u ∉ us.
Proof. induction us as [|u' us IH]; intros c u l; simpl; [set_solver|]. rewrite IH, removed_entries, lookup_delete_Some, not_elem_of_cons. naive_solver. Qed.
Lemma removes_users us : forall c u i, u ∉ us -> u ∈ users_of i c -> u ∈ users_of i (fold_left (fun c u => entries_Remove u c) us c).
Proof. induction us as [|u' us IH]; intros c u i Hu Hin; simpl; [done|]. apply not_elem_of_cons in Hu as [? ?]. by apply IH, removed_others. Qed.
Lemma set_entries i u l c : u <> "" -> entries (Set_ i u l c) = <[u := l]> (entries c) /\
  (forall j u', u' ∈ users_of j (Set_ i u l c) <-> u' ∈ users_of j c \/ (j = i /\ u' = u /\ i <> "")).
Proof.
  intros Hu. unfold Set_. apply String.eqb_neq in Hu as ->. destruct (String.eqb_spec i "") as [->|Hi]; [split; [done|]; naive_solver|].
  match goal with |- context [gen i (with_entries ?m ?d)] => change (gen i (with_entries m d)) with (gen i c) end. rewrite Z.eqb_refl. split; [done|]. intros j u'. unfold users_of; simpl.
  destruct (decide (i = j)) as [<-|]; [rewrite lookup_insert_eq; simpl; set_solver|rewrite lookup_insert_ne by done; naive_solver].
Qed.
(** What the index knows after any sequence of calls. *)
Lemma serve_index calls u l : let c := fold_left serve calls NewLRUUserClusterListCache in
  entries c !! u = Some l -> exists i, last_set u calls = Some (i, l) /\ (i <> "" -> u ∈ users_of i c).
Proof.
  simpl. revert l. induction calls as [|cl calls IH] using rev_ind; intros l; simpl; [by rewrite lookup_empty|].
  rewrite fold_left_app. simpl. set (c := fold_left serve calls NewLRUUserClusterListCache) in *. rewrite last_set_app. destruct cl as [i u' l'|i|u']; simpl.
  - destruct (String.eqb_spec u' "") as [->|Hu']; [unfold Set_; simpl; rewrite andb_false_r; apply IH|].
    destruct (set_entries i u' l' c Hu') as [-> Hidx]. rewrite andb_true_r. destruct (String.eqb_spec u u') as [->|Hne].
    + rewrite lookup_insert_eq. intros [= <-]. exists i. split; [done|]. intros Hi. apply Hidx. naive_solver.
    + rewrite lookup_insert_ne by done. intros (j & Hj & Hin)%IH. exists j. split; [done|]. intros Hj0. apply Hidx. naive_solver.
  - unfold InvalidateInstallation. destruct (String.eqb i ""); [apply IH|]. rewrite removes_entries. simpl. intros [(j & Hj & Hin)%IH Hu].
    exists j. split; [done|]. intros Hj0. apply removes_users; [done|]. specialize (Hin Hj0). unfold users_of; simpl.
    rewrite elem_of_elements in Hu. destruct (decide (j = i)) as [->|]; [done|]. by rewrite lookup_delete_ne.
  - rewrite removed_entries, lookup_delete_Some. intros [Hne (j & Hj & Hin)%IH]. exists j. split; [done|]. intros. apply removed_others; auto.
Qed.
(** What is served is what was last stored for the user, and no selections stored under an installation outlive a
    change of its settings. *)
Lemma selections_invalidated calls i u live l : i <> "" -> Get live u (InvalidateInstallation i (fold_left serve calls NewLRUUserClusterListCache)) = Some l ->
  exists j, last_set u calls = Some (j, l) /\ j <> i.
Proof.
  intros Hi. unfold Get. destruct (live u); [|done]. unfold InvalidateInstallation. apply String.eqb_neq in Hi as Hb. rewrite Hb, removes_entries. simpl.
  intros [(j & Hj & Hin)%serve_index Hu]. exists j. split; [done|]. intros ->. apply Hu. rewrite elem_of_elements. auto.
Qed.
End Cache.
End UserLists.
