(* ===== verification/SemCache.v ===== *)
(** The semantic cache (internal/router/cache/cache.go) and the turns that use it (internal/proxy/cache_hit.go,
    cache_writer.go and the calls in service.go): responses kept by prompt embedding, apart for each installation, wire
    format, cluster, version and knobs.

    The LRU is a third-party package; the cache is written against the class [Lru] of its operations, and the theorems
    against [LruLaws], the documented behaviour they need.  Buckets are shared by reference, as in the code; a call is a
    program of atomic actions on the shared state, and concurrent calls are interleavings of these actions. *)

From stdpp Require Import base gmap sets list strings.
From Stdlib Require Import ZArith Lia.
From S2P Require Import Prelude Types Floats Bits Hash Scorer.
Open Scope string_scope.
Open Scope Z_scope.

(** ** The LRU *)

Class Lru (L : Type -> Type -> Type) := {
  lru_New {K V : Type} : Z -> option (L K V);
  lru_Get {K V : Type} `{EqDecision K} : K -> L K V -> option V * L K V;
  lru_Add {K V : Type} `{EqDecision K} : K -> V -> L K V -> L K V;
  lru_Remove {K V : Type} `{EqDecision K} : K -> L K V -> L K V;
  lru_Keys {K V : Type} : L K V -> list K
}.
Definition holds {L} `{Lru L} {K V} `{EqDecision K} (k : K) (l : L K V) : option V := fst (lru_Get k l).
(** A lookup only moves entries in the order of eviction, an insertion may evict others, and the keys listed are the
    keys held. *)
Class LruLaws (L : Type -> Type -> Type) `{Lru L} := {
  new_some {K V} size : 0 < size -> is_Some (lru_New (K := K) (V := V) size);
  new_empty {K V} `{EqDecision K} size (l : L K V) k : lru_New size = Some l -> holds k l = None;
  get_same {K V} `{EqDecision K} (l : L K V) k k' : holds k' (snd (lru_Get k l)) = holds k' l;
  add_held {K V} `{EqDecision K} (l : L K V) k v : holds k (lru_Add k v l) = Some v;
  add_others {K V} `{EqDecision K} (l : L K V) k v k' w : k' <> k -> holds k' (lru_Add k v l) = Some w -> holds k' l = Some w;
  remove_held {K V} `{EqDecision K} (l : L K V) k k' : holds k' (lru_Remove k l) = if decide (k' = k) then None else holds k' l;
  keys_held {K V} `{EqDecision K} (l : L K V) k : k ∈ lru_Keys l <-> is_Some (holds k l)
}.

(** ** Programs of atomic actions *)

Section Programs.
Context {St : Type}.
Inductive prog (A : Type) : Type :=
| Ret (a : A)
| Act {X : Type} (f : St -> St * X) (k : X -> prog A).
Arguments Ret {A} a.
Arguments Act {A X} f k.
(** A call that nothing interrupts. *)
Fixpoint run_alone {A} (p : prog A) (s : St) : St * A :=
  match p with
  | Ret a => (s, a)
  | Act f k => let '(s, x) := f s in run_alone (k x) s
  end.
End Programs.
Arguments prog St A : clear implicits.
Arguments Ret {St A} a.
Arguments Act {St A X} f k.

(** ** The cache *)

Record CachedResponse := { StatusCode : Z; Headers : gmap string (list string); Body : string }.
Record Config := {
  PerClusterThreshold : gmap Z f32;
  DefaultThreshold : f32;
  BucketSize : Z;
  MaxBucketsPerInstallation : Z;
  MaxInstallations : Z;
  TTL : Z;
  MaxBodyBytes : Z
}.
Definition DefaultConfig : Config := {|
  PerClusterThreshold := ∅; DefaultThreshold := f32_lit 95 100; BucketSize := 1024; MaxBucketsPerInstallation := 512;
  MaxInstallations := 1024; TTL := 3600000000000; MaxBodyBytes := 1048576 |}.
Definition with_defaults (cfg : Config) : Config := {|
  PerClusterThreshold := cfg.(PerClusterThreshold);
  DefaultThreshold := if f_eq cfg.(DefaultThreshold) f_zero then DefaultConfig.(DefaultThreshold) else cfg.(DefaultThreshold);
  BucketSize := if cfg.(BucketSize) <=? 0 then DefaultConfig.(BucketSize) else cfg.(BucketSize);
  MaxBucketsPerInstallation :=
    if cfg.(MaxBucketsPerInstallation) <=? 0 then DefaultConfig.(MaxBucketsPerInstallation) else cfg.(MaxBucketsPerInstallation);
  MaxInstallations := if cfg.(MaxInstallations) <=? 0 then DefaultConfig.(MaxInstallations) else cfg.(MaxInstallations);
  TTL := if cfg.(TTL) <=? 0 then DefaultConfig.(TTL) else cfg.(TTL);
  MaxBodyBytes := if cfg.(MaxBodyBytes) <=? 0 then DefaultConfig.(MaxBodyBytes) else cfg.(MaxBodyBytes) |}.
Record bucketKey := { format : string; clusterID : Z; clusterVersion : string; knobsHash : Z }.
#[global] Instance bucketKey_eq : EqDecision bucketKey.
Proof. solve_decision. Defined.
Record entry := { embedding : list f32; response : CachedResponse; storedAt : Z }.
(** The first sixteen bytes of the digest. *)
Definition entryKey : Type := list Z.
Definition entryKeyFor (embedding : list f32) : entryKey :=
  match embedding with
  | [] => repeat 0 16
  | _ => firstn 16 (Sum256 (List.flat_map (fun v => le_bytes 4 (Float32bits v)) embedding))
  end.
Definition cosine (a b : list f32) : f32 := if bool_decide (length a = length b) then dot a b else f_zero.

Section Cache.
Context {L : Type -> Type -> Type} `{Lru L} (cfg : Config).
(** The shared state: [installations] holds references to the LRU of an installation's buckets, which holds references
    to the LRU of a bucket's entries; [clock] is what [c.now] reads. *)
Record State := {
  installations : L string nat;
  caches : gmap nat (L bucketKey nat);
  lrus : gmap nat (L entryKey entry);
  fresh : nat;
  clock : Z
}.
Definition with_installations (v : L string nat) (s : State) : State := {|
  installations := v; caches := s.(caches); lrus := s.(lrus); fresh := s.(fresh); clock := s.(clock) |}.
Definition with_cache (r : nat) (v : L bucketKey nat) (s : State) : State := {|
  installations := s.(installations); caches := <[r := v]> s.(caches); lrus := s.(lrus); fresh := s.(fresh); clock := s.(clock) |}.
Definition with_bucket (r : nat) (v : L entryKey entry) (s : State) : State := {|
  installations := s.(installations); caches := s.(caches); lrus := <[r := v]> s.(lrus); fresh := s.(fresh); clock := s.(clock) |}.
(** A new reference. *)
Definition alloc (s : State) : State * nat :=
  ({| installations := s.(installations); caches := s.(caches); lrus := s.(lrus); fresh := S s.(fresh); clock := s.(clock) |}, s.(fresh)).
Definition New (given : Config) : option (Config * State) :=
  let cfg := with_defaults given in
  match lru_New cfg.(MaxInstallations) with
  | Some l => Some (cfg, {| installations := l; caches := ∅; lrus := ∅; fresh := 0; clock := 0 |})
  | None => None
  end.

Definition thresholdFor (cid : Z) : f32 := default cfg.(DefaultThreshold) (cfg.(PerClusterThreshold) !! cid).
(** The LRU of an installation's buckets, made on demand. *)
Definition installation_cache (i : string) (create : bool) (s : State) : State * option nat :=
  let '(found, insts) := lru_Get i s.(installations) in
  let s := with_installations insts s in
  match found with
  | Some r => (s, Some r)
  | None =>
      if negb create then (s, None)
      else match lru_New cfg.(MaxBucketsPerInstallation) with
           | None => (s, None)
           | Some buckets =>
               let '(s, r) := alloc s in
               let s := with_cache r buckets s in
               (with_installations (lru_Add i r s.(installations)) s, Some r)
           end
  end.
(** [bucket], which runs under the cache's lock. *)
Definition bucket (i : string) (key : bucketKey) (create : bool) (s : State) : State * option nat :=
  let '(s, ic) := installation_cache i create s in
  match ic with
  | None => (s, None)
  | Some r =>
      match s.(caches) !! r with
      | None => (s, None)
      | Some buckets =>
          let '(found, buckets) := lru_Get key buckets in
          let s := with_cache r buckets s in
          match found with
          | Some b => (s, Some b)
          | None =>
              if negb create then (s, None)
              else match lru_New cfg.(BucketSize) with
                   | None => (s, None)
                   | Some l =>
                       let '(s, b) := alloc s in
                       let s := with_bucket b l s in
                       (with_cache r (lru_Add key b buckets) s, Some b)
                   end
          end
      end
  end.
(** The operations on a bucket, each under the lock of the LRU. *)
Definition bucket_Keys (b : nat) (s : State) : State * list entryKey :=
  (s, match s.(lrus) !! b with Some l => lru_Keys l | None => [] end).
Definition bucket_Get (b : nat) (k : entryKey) (s : State) : State * option entry :=
  match s.(lrus) !! b with
  | Some l => let '(e, l) := lru_Get k l in (with_bucket b l s, e)
  | None => (s, None)
  end.
Definition bucket_Remove (b : nat) (k : entryKey) (s : State) : State * unit :=
  match s.(lrus) !! b with Some l => (with_bucket b (lru_Remove k l) s, tt) | None => (s, tt) end.
Definition bucket_Add (b : nat) (k : entryKey) (e : entry) (s : State) : State * unit :=
  match s.(lrus) !! b with Some l => (with_bucket b (lru_Add k e l) s, tt) | None => (s, tt) end.
Definition now (s : State) : State * Z := (s, s.(clock)).

(** The walk over the keys of a bucket; [rest] goes on with the next cluster. *)
Fixpoint scan (emb : list f32) (now : Z) (threshold : f32) (b : nat) (ks : list entryKey) (rest : prog State (option CachedResponse)) :
    prog State (option CachedResponse) :=
  match ks with
  | [] => rest
  | k :: ks =>
      Act (bucket_Get b k) (fun found =>
        match found with
        | None => scan emb now threshold b ks rest
        | Some e =>
            if cfg.(TTL) <? now - e.(storedAt) then Act (bucket_Remove b k) (fun _ => scan emb now threshold b ks rest)
            else if f_ge (cosine emb e.(embedding)) threshold then Ret (Some e.(response))
            else scan emb now threshold b ks rest
        end)
  end.
Fixpoint over_clusters (i fmt : string) (emb : list f32) (version : string) (hash : Z) (now : Z) (cids : list Z) : prog State (option CachedResponse) :=
  match cids with
  | [] => Ret None
  | cid :: rest =>
      let next := over_clusters i fmt emb version hash now rest in
      Act (bucket i {| format := fmt; clusterID := cid; clusterVersion := version; knobsHash := hash |} false) (fun b =>
        match b with
        | None => next
        | Some b => Act (bucket_Keys b) (fun ks => scan emb now (thresholdFor cid) b ks next)
        end)
  end.
Definition Lookup (i fmt : string) (emb : list f32) (cids : list Z) (version : string) (hash : Z) : prog State (option CachedResponse) :=
  if bool_decide (emb = []) || bool_decide (cids = []) then Ret None
  else Act now (fun t => over_clusters i fmt emb version hash t cids).
Definition Store (i fmt : string) (emb : list f32) (cid : Z) (resp : CachedResponse) (version : string) (hash : Z) : prog State unit :=
  if bool_decide (emb = []) then Ret tt
  else if cfg.(MaxBodyBytes) <? Z.of_nat (String.length resp.(Body)) then Ret tt
  else
    Act (bucket i {| format := fmt; clusterID := cid; clusterVersion := version; knobsHash := hash |} true) (fun b =>
      match b with
      | None => Ret tt
      | Some b => Act now (fun t =>
          Act (bucket_Add b (entryKeyFor emb) {| embedding := emb; response := resp; storedAt := t |}) (fun _ => Ret tt))
      end).

(** ** Concurrent calls *)

Inductive call :=
| CLookup (i fmt : string) (emb : list f32) (cids : list Z) (version : string) (hash : Z)
| CStore (i fmt : string) (emb : list f32) (cid : Z) (resp : CachedResponse) (version : string) (hash : Z).
Fixpoint then_none (p : prog State unit) : prog State (option CachedResponse) :=
  match p with Ret _ => Ret None | Act f k => Act f (fun x => then_none (k x)) end.
Definition program (c : call) : prog State (option CachedResponse) :=
  match c with
  | CLookup i fmt emb cids version hash => Lookup i fmt emb cids version hash
  | CStore i fmt emb cid resp version hash => then_none (Store i fmt emb cid resp version hash)
  end.
(** The calls in progress, the results of those that ended, and which call took a step when. *)
Record machine := {
  shared : State;
  running : list (call * prog State (option CachedResponse));
  results : list (call * option CachedResponse);
  steps : list (call * Z)
}.
Inductive event := Begin (c : call) | Step (n : nat) | Tick (t : Z).
Definition fire (m : machine) (ev : event) : option machine :=
  match ev with
  | Begin c => Some {| shared := m.(shared); running := (m.(running) ++ [(c, program c)])%list; results := m.(results); steps := m.(steps) |}
  | Step n =>
      match m.(running) !! n with
      | None => None
      | Some (c, Ret r) => Some {| shared := m.(shared); running := delete n m.(running); results := (c, r) :: m.(results); steps := m.(steps) |}
      | Some (c, Act f k) =>
          let '(s, x) := f m.(shared) in
          Some {| shared := s; running := <[n := (c, k x)]> m.(running); results := m.(results); steps := (c, m.(shared).(clock)) :: m.(steps) |}
      end
  | Tick t =>
      let s := m.(shared) in
      Some {| shared := {| installations := s.(installations); caches := s.(caches); lrus := s.(lrus); fresh := s.(fresh); clock := Z.max t s.(clock) |};
              running := m.(running); results := m.(results); steps := m.(steps) |}
  end.
Definition fire_all (evs : list event) (m : option machine) : option machine :=
  fold_left (fun m ev => match m with Some m => fire m ev | None => None end) evs m.
Definition idle (s : State) : machine := {| shared := s; running := []; results := []; steps := [] |}.
(** What the result of a lookup is worth: a response within the lifetime that a store put under the same installation,
    format, version and knobs for one of the clusters asked, for an embedding near enough. *)
Definition served (log : list (call * Z)) (c : call) (r : option CachedResponse) : Prop :=
  match c, r with
  | CLookup i fmt emb cids version hash, Some resp =>
      exists cid emb' t t', cid ∈ cids /\ (CStore i fmt emb' cid resp version hash, t) ∈ log /\ (c, t') ∈ log /\
        emb' <> [] /\ Z.of_nat (String.length resp.(Body)) <= cfg.(MaxBodyBytes) /\
        t' - t <= cfg.(TTL) /\ f_ge (cosine emb emb') (thresholdFor cid) = true
  | _, _ => True
  end.

(** ** Every bucket belongs to one installation and key *)

(** What a reference points to: the buckets of an installation, or one bucket. *)
Local Notation owner := (gmap nat (string * option bucketKey)).
Definition stored (log : list (call * Z)) (i : string) (key : bucketKey) (e : entry) : Prop :=
  (CStore i key.(format) e.(embedding) key.(clusterID) e.(response) key.(clusterVersion) key.(knobsHash), e.(storedAt)) ∈ log /\
  e.(embedding) <> [] /\ Z.of_nat (String.length e.(response).(Body)) <= cfg.(MaxBodyBytes).
Record wf (own : owner) (log : list (call * Z)) (s : State) : Prop := {
  wf_fresh r : is_Some (own !! r) -> (r < s.(fresh))%nat;
  wf_installation i r : holds i s.(installations) = Some r -> own !! r = Some (i, None);
  wf_caches r : is_Some (s.(caches) !! r) <-> exists i, own !! r = Some (i, None);
  wf_cache r buckets i key b : s.(caches) !! r = Some buckets -> own !! r = Some (i, None) -> holds key buckets = Some b ->
    own !! b = Some (i, Some key);
  wf_lrus b : is_Some (s.(lrus) !! b) <-> exists i key, own !! b = Some (i, Some key);
  wf_lru b l i key k e : s.(lrus) !! b = Some l -> own !! b = Some (i, Some key) -> holds k l = Some e -> stored log i key e
}.

Section Facts.
Context `{!LruLaws L}.
Lemma stored_mono log log' i key e : log ⊆ log' -> stored log i key e -> stored log' i key e.
Proof. intros Hl [Hin ?]. split; [by apply Hl|done]. Qed.
Lemma wf_log own log log' s : log ⊆ log' -> wf own log s -> wf own log' s.
Proof. intros Hl [Hf Hi Hcs Hc Hls Hb]. split; auto. intros. eapply stored_mono; eauto. Qed.
Lemma wf_with_installations own log s v : (forall i r, holds i v = Some r -> own !! r = Some (i, None)) -> wf own log s -> wf own log (with_installations v s).
Proof. intros Hv [Hf Hi Hcs Hc Hls Hb]. by split. Qed.
Lemma wf_clock own log s t : wf own log s ->
  wf own log {| installations := s.(installations); caches := s.(caches); lrus := s.(lrus); fresh := s.(fresh); clock := t |}.
Proof. intros [Hf Hi Hcs Hc Hls Hb]. by split. Qed.
Lemma wf_with_cache own log s r v i : own !! r = Some (i, None) -> (forall key b, holds key v = Some b -> own !! b = Some (i, Some key)) ->
  wf own log s -> wf own log (with_cache r v s).
Proof.
  intros Hr Hv [Hf Hi Hcs Hc Hls Hb]. split; simpl; auto.
  - intros r'. rewrite lookup_insert_is_Some, Hcs. split; [intros [<-|[_ ?]]; eauto|].
    intros [j Hj]. destruct (decide (r = r')); [by left|right; eauto].
  - intros r' bs j key b. destruct (decide (r = r')) as [<-|]; [rewrite lookup_insert_eq|rewrite lookup_insert_ne by done; by apply Hc].
    intros [= <-] Hj Hk. rewrite Hr in Hj. injection Hj as <-. by apply Hv.
Qed.
Lemma wf_with_bucket own log s b v i key : own !! b = Some (i, Some key) -> (forall k e, holds k v = Some e -> stored log i key e) ->
  wf own log s -> wf own log (with_bucket b v s).
Proof.
  intros Hr Hv [Hf Hi Hcs Hc Hls Hb]. split; simpl; auto.
  - intros b'. rewrite lookup_insert_is_Some, Hls. split; [intros [<-|[_ ?]]; eauto|].
    intros (j & key' & Hj). destruct (decide (b = b')); [by left|right; eauto].
  - intros b' l j key' k e. destruct (decide (b = b')) as [<-|]; [rewrite lookup_insert_eq|rewrite lookup_insert_ne by done; by apply Hb].
    intros [= <-] Hj Hk. rewrite Hr in Hj. injection Hj as <- <-. by eapply Hv.
Qed.
(** A new reference, to an empty LRU. *)
Lemma wf_alloc own log s : wf own log s -> own !! s.(fresh) = None.
Proof. intros Hw. apply eq_None_not_Some. intros Hs. pose proof (wf_fresh _ _ _ Hw _ Hs). lia. Qed.
Lemma wf_new_cache own log s i v : (forall key, holds key v = None) -> wf own log s ->
  own ⊆ <[s.(fresh) := (i, None)]> own /\ wf (<[s.(fresh) := (i, None)]> own) log (with_cache s.(fresh) v (fst (alloc s))).
Proof.
  intros Hv Hw. pose proof (wf_alloc _ _ _ Hw) as Hnew. destruct Hw as [Hf Hi Hcs Hc Hls Hb]. split; [by apply insert_subseteq|]. split; simpl.
  - intros r. rewrite lookup_insert_is_Some. intros [<-|[_ Hr]]; [lia|]. specialize (Hf _ Hr). lia.
  - intros j r Hr%Hi. rewrite lookup_insert_ne; [done|]. intros <-. congruence.
  - intros r. rewrite lookup_insert_is_Some, Hcs. destruct (decide (s.(fresh) = r)) as [<-|Hd].
    + rewrite lookup_insert_eq. split; eauto.
    + rewrite lookup_insert_ne by done. naive_solver.
  - intros r bs j key b. destruct (decide (s.(fresh) = r)) as [<-|Hd].
    + rewrite !lookup_insert_eq. intros [= <-] _. by rewrite Hv.
    + rewrite !lookup_insert_ne by done. intros Hl Hr Hk. pose proof (Hc _ _ _ _ _ Hl Hr Hk) as Ho. rewrite lookup_insert_ne; [done|]. intros <-. congruence.
  - intros b. rewrite Hls. destruct (decide (s.(fresh) = b)) as [<-|Hd]; [rewrite lookup_insert_eq, Hnew; naive_solver|by rewrite lookup_insert_ne].
  - intros b l j key k e Hl. destruct (decide (s.(fresh) = b)) as [<-|Hd]; [by rewrite lookup_insert_eq|rewrite lookup_insert_ne by done; eauto].
Qed.
Lemma wf_new_bucket own log s i key v : (forall k, holds k v = None) -> wf own log s ->
  own ⊆ <[s.(fresh) := (i, Some key)]> own /\ wf (<[s.(fresh) := (i, Some key)]> own) log (with_bucket s.(fresh) v (fst (alloc s))).
Proof.
  intros Hv Hw. pose proof (wf_alloc _ _ _ Hw) as Hnew. destruct Hw as [Hf Hi Hcs Hc Hls Hb]. split; [by apply insert_subseteq|]. split; simpl.
  - intros r. rewrite lookup_insert_is_Some. intros [<-|[_ Hr]]; [lia|]. specialize (Hf _ Hr). lia.
  - intros j r Hr%Hi. rewrite lookup_insert_ne; [done|]. intros <-. congruence.
  - intros r. rewrite Hcs. destruct (decide (s.(fresh) = r)) as [<-|Hd]; [rewrite lookup_insert_eq, Hnew; naive_solver|by rewrite lookup_insert_ne].
  - intros r bs j key' b Hl. destruct (decide (s.(fresh) = r)) as [<-|Hd]; [by rewrite lookup_insert_eq|rewrite lookup_insert_ne by done].
    intros Hr Hk. pose proof (Hc _ _ _ _ _ Hl Hr Hk) as Ho. rewrite lookup_insert_ne; [done|]. intros <-. congruence.
  - intros b. rewrite lookup_insert_is_Some, Hls. destruct (decide (s.(fresh) = b)) as [<-|Hd].
    + rewrite lookup_insert_eq. split; eauto.
    + rewrite lookup_insert_ne by done. naive_solver.
  - intros b l j key' k e. destruct (decide (s.(fresh) = b)) as [<-|Hd].
    + rewrite !lookup_insert_eq. intros [= <-] _. by rewrite Hv.
    + rewrite !lookup_insert_ne by done. eauto.
Qed.
Lemma installation_cache_ok own log s i create : wf own log s ->
  exists own', own ⊆ own' /\ wf own' log (fst (installation_cache i create s)) /\
    forall r, snd (installation_cache i create s) = Some r -> own' !! r = Some (i, None).
Proof.
  intros Hw. unfold installation_cache. destruct (lru_Get i (installations s)) as [found insts] eqn:E.
  assert (Hsame : forall j, holds j insts = holds j (installations s)) by (intros j; rewrite <- (get_same (installations s) i j), E; done).
  assert (Hw1 : wf own log (with_installations insts s)).
  { apply wf_with_installations; [|done]. intros j r. rewrite Hsame. apply (wf_installation _ _ _ Hw). }
  destruct found as [r|].
  - exists own. split; [done|]. split; [done|]. intros r' [= <-]. apply (wf_installation _ _ _ Hw). unfold holds. by rewrite E.
  - destruct create; simpl; [|exists own; done].
    destruct (lru_New (MaxBucketsPerInstallation cfg)) as [v|] eqn:Ev; [|exists own; done]. simpl.
    destruct (wf_new_cache own log (with_installations insts s) i v) as [Hsub Hw2]; [intros key; by eapply new_empty|done|].
    exists (<[fresh s := (i, None)]> own). split; [done|]. split; [|intros r [= <-]; apply lookup_insert_eq].
    apply (wf_with_installations _ _ (with_cache (fresh s) v (fst (alloc (with_installations insts s))))); [|exact Hw2].
    intros j r Hr. destruct (decide (j = i)) as [->|Hd].
    + rewrite add_held in Hr. injection Hr as <-. apply lookup_insert_eq.
    + apply add_others in Hr; [|done]. by apply (wf_installation _ _ _ Hw2).
Qed.
Lemma bucket_ok own log s i key create : wf own log s ->
  exists own', own ⊆ own' /\ wf own' log (fst (bucket i key create s)) /\
    forall b, snd (bucket i key create s) = Some b -> own' !! b = Some (i, Some key).
Proof.
  intros Hw. unfold bucket. destruct (installation_cache_ok _ _ _ i create Hw) as (own1 & Hsub1 & Hw1 & Hr).
  destruct (installation_cache i create s) as [s1 ic]; simpl in *. destruct ic as [r|]; [|exists own1; done]. specialize (Hr r eq_refl).
  destruct (caches s1 !! r) as [buckets|] eqn:Eb; [|exists own1; done].
  destruct (lru_Get key buckets) as [found buckets'] eqn:E.
  assert (Hsame : forall j, holds j buckets' = holds j buckets) by (intros j; rewrite <- (get_same buckets key j), E; done).
  assert (Hown : forall key' b, holds key' buckets' = Some b -> own1 !! b = Some (i, Some key')).
  { intros key' b. rewrite Hsame. by apply (wf_cache _ _ _ Hw1 _ _ _ _ _ Eb). }
  assert (Hw2 : wf own1 log (with_cache r buckets' s1)) by (by eapply wf_with_cache).
  destruct found as [b|].
  - exists own1. split; [done|]. split; [done|]. intros b' [= <-]. apply (wf_cache _ _ _ Hw1 _ _ _ _ _ Eb Hr). unfold holds. by rewrite E.
  - destruct create; simpl; [|exists own1; done].
    destruct (lru_New (BucketSize cfg)) as [v|] eqn:Ev; [|exists own1; done]. simpl.
    pose proof (wf_alloc _ _ _ Hw1) as Hnew.
    destruct (wf_new_bucket own1 log (with_cache r buckets' s1) i key v) as [Hsub2 Hw3]; [intros k; by eapply new_empty|done|].
    exists (<[fresh s1 := (i, Some key)]> own1). split; [by etrans|]. split; [|intros b [= <-]; apply lookup_insert_eq].
    eapply wf_with_cache; [|  |exact Hw3].
    + eapply lookup_weaken; [exact Hr|exact Hsub2].
    + intros key' b Hb. destruct (decide (key' = key)) as [->|Hd].
      * rewrite add_held in Hb. injection Hb as <-. apply lookup_insert_eq.
      * apply add_others in Hb; [|done]. eapply lookup_weaken; [by apply Hown|exact Hsub2].
Qed.
Lemma bucket_Get_ok own log s i key b k : own !! b = Some (i, Some key) -> wf own log s ->
  wf own log (fst (bucket_Get b k s)) /\ forall e, snd (bucket_Get b k s) = Some e -> stored log i key e.
Proof.
  intros Hb Hw. unfold bucket_Get. destruct (lrus s !! b) as [l|] eqn:El; [|done]. destruct (lru_Get k l) as [e l'] eqn:E; simpl. split.
  - eapply wf_with_bucket; [exact Hb| |done]. intros k' e'. replace (holds k' l') with (holds k' l) by (rewrite <- (get_same l k k'), E; done).
    by eapply wf_lru.
  - intros e' ->. eapply (wf_lru _ _ _ Hw b l i key k); [done|done|]. unfold holds. by rewrite E.
Qed.
Lemma bucket_Remove_ok own log s i key b k : own !! b = Some (i, Some key) -> wf own log s -> wf own log (fst (bucket_Remove b k s)).
Proof.
  intros Hb Hw. unfold bucket_Remove. destruct (lrus s !! b) as [l|] eqn:El; [|done]. simpl.
  eapply wf_with_bucket; [exact Hb| |done]. intros k' e'. rewrite remove_held. destruct (decide (k' = k)); [done|]. by eapply wf_lru.
Qed.
Lemma bucket_Add_ok own log s i key b k e : own !! b = Some (i, Some key) -> stored log i key e -> wf own log s -> wf own log (fst (bucket_Add b k e s)).
Proof.
  intros Hb He Hw. unfold bucket_Add. destruct (lrus s !! b) as [l|] eqn:El; [|done]. simpl.
  eapply wf_with_bucket; [exact Hb| |done]. intros k' e' Hh. destruct (decide (k' = k)) as [->|].
  - rewrite add_held in Hh. by injection Hh as <-.
  - apply add_others in Hh; [|done]. by eapply wf_lru.
Qed.

(** ** Programs under interference *)

(** From any state other calls may leave, the program keeps the buckets apart, and its result is what [Q] says. *)
Fixpoint safe (c : call) (Q : list (call * Z) -> option CachedResponse -> Prop) (own : owner) (log : list (call * Z))
    (p : prog State (option CachedResponse)) : Prop :=
  match p with
  | Ret r => Q log r
  | Act f k => forall own' log' s, own ⊆ own' -> log ⊆ log' -> wf own' log' s ->
      exists own'', own' ⊆ own'' /\ wf own'' ((c, s.(clock)) :: log') (fst (f s)) /\ safe c Q own'' ((c, s.(clock)) :: log') (k (snd (f s)))
  end.
Lemma safe_mono c Q own own' log log' p : (forall l l' r, l ⊆ l' -> Q l r -> Q l' r) -> own ⊆ own' -> log ⊆ log' -> safe c Q own log p -> safe c Q own' log' p.
Proof.
  intros HQ Ho Hl. destruct p; simpl; [by apply HQ|]. intros Hs o l s Ho' Hl'. apply Hs; [by etrans|by etrans].
Qed.
Lemma served_mono c l l' r : l ⊆ l' -> served l c r -> served l' c r.
Proof. intros Hl. destruct c, r; simpl; try done. intros (cid & e & t & t' & ? & ? & ? & ?). exists cid, e, t, t'. auto. Qed.
Lemma log_grows (c : call) (t : Z) (log : list (call * Z)) : log ⊆ (c, t) :: log.
Proof. set_solver. Qed.

Section Lookups.
Context (i fmt : string) (emb : list f32) (cids : list Z) (version : string) (hash : Z).
Let c := CLookup i fmt emb cids version hash.
Let key (cid : Z) : bucketKey := {| format := fmt; clusterID := cid; clusterVersion := version; knobsHash := hash |}.
Lemma scan_safe cid t b ks rest : forall own log, cid ∈ cids -> (c, t) ∈ log -> own !! b = Some (i, Some (key cid)) ->
  safe c (fun log => served log c) own log rest -> safe c (fun log => served log c) own log (scan emb t (thresholdFor cid) b ks rest).
Proof.
  induction ks as [|k ks IH]; intros own log Hcid Ht Hb Hrest; [exact Hrest|]. simpl. intros own' log' s Ho Hl Hw.
  assert (Hb' : own' !! b = Some (i, Some (key cid))) by (by eapply lookup_weaken).
  destruct (bucket_Get_ok own' log' s i (key cid) b k Hb' Hw) as [Hw' He]. exists own'. split; [done|]. split; [by eapply wf_log; [apply log_grows|]|].
  assert (Hgo : forall own'' log'', own' ⊆ own'' -> log' ⊆ log'' -> safe c (fun log => served log c) own'' log'' (scan emb t (thresholdFor cid) b ks rest)).
  { intros o l Ho' Hl'. apply IH; [done|by apply Hl', Hl|by eapply lookup_weaken|]. eapply safe_mono; [by apply served_mono| | |exact Hrest]; by etrans. }
  destruct (snd (bucket_Get b k s)) as [e|]; [|apply Hgo; [done|apply log_grows]]. specialize (He e eq_refl) as (Hin & Hne & Hsize).
  destruct (Z.ltb_spec (TTL cfg) (t - storedAt e)) as [|Hage].
  - simpl. intros own2 log2 s2 Ho2 Hl2 Hw2. exists own2. split; [done|]. split.
    + eapply wf_log; [apply log_grows|]. eapply bucket_Remove_ok; [by eapply lookup_weaken|done].
    + apply Hgo; [done|]. etrans; [apply log_grows|]. etrans; [exact Hl2|apply log_grows].
  - destruct (f_ge _ _) eqn:Hsim; [|apply Hgo; [done|apply log_grows]]. simpl. exists cid, (embedding e), (storedAt e), t.
    split; [done|]. split; [by apply log_grows|]. split; [by apply log_grows, Hl|]. done.
Qed.
Lemma over_clusters_safe t cids' : forall own log, cids' ⊆ cids -> (c, t) ∈ log ->
  safe c (fun log => served log c) own log (over_clusters i fmt emb version hash t cids').
Proof.
  induction cids' as [|cid cids' IH]; intros own log Hsub Ht; [done|]. simpl. intros own' log' s Ho Hl Hw.
  destruct (bucket_ok own' log' s i (key cid) false Hw) as (own2 & Ho2 & Hw2 & Hb). exists own2. split; [done|]. split; [by eapply wf_log; [apply log_grows|]|].
  assert (Hgo : forall o l, log' ⊆ l -> safe c (fun log => served log c) o l (over_clusters i fmt emb version hash t cids')).
  { intros o l Hl'. apply IH; [set_solver|by apply Hl', Hl]. }
  fold (key cid). destruct (snd (bucket i (key cid) false s)) as [b|]; [|apply Hgo, log_grows]. specialize (Hb b eq_refl).
  simpl. intros own3 log3 s3 Ho3 Hl3 Hw3. exists own3. split; [done|]. split; [by eapply wf_log; [apply log_grows|]|].
  assert (Hlog : log' ⊆ (c, clock s3) :: log3) by (etrans; [apply log_grows|]; etrans; [exact Hl3|apply log_grows]).
  apply scan_safe; [set_solver|by apply Hlog, Hl|by eapply lookup_weaken|by apply Hgo].
Qed.
Lemma Lookup_safe own log : safe c (fun log => served log c) own log (Lookup i fmt emb cids version hash).
Proof.
  unfold Lookup. destruct (_ || _); [done|]. simpl. intros own' log' s Ho Hl Hw. exists own'. split; [done|]. split; [by eapply wf_log; [apply log_grows|]|].
  apply over_clusters_safe; [done|]. set_solver.
Qed.
End Lookups.
Lemma Store_safe i fmt emb cid resp version hash own log : let c := CStore i fmt emb cid resp version hash in
  safe c (fun log => served log c) own log (then_none (Store i fmt emb cid resp version hash)).
Proof.
  intros c. unfold Store. case_bool_decide as Hne; [done|]. destruct (Z.ltb_spec (MaxBodyBytes cfg) (Z.of_nat (String.length (Body resp)))) as [|Hsize]; [done|].
  simpl. intros own' log' s Ho Hl Hw. set (key := {| format := fmt; clusterID := cid; clusterVersion := version; knobsHash := hash |}).
  destruct (bucket_ok own' log' s i key true Hw) as (own2 & Ho2 & Hw2 & Hb). exists own2. split; [done|]. split; [by eapply wf_log; [apply log_grows|]|].
  destruct (snd (bucket i key true s)) as [b|]; [|done]. specialize (Hb b eq_refl).
  simpl. intros own3 log3 s3 Ho3 Hl3 Hw3. exists own3. split; [done|]. split; [by eapply wf_log; [apply log_grows|]|].
  intros own4 log4 s4 Ho4 Hl4 Hw4. exists own4. split; [done|]. split; [|done].
  eapply (bucket_Add_ok own4 _ s4 i key).
  - eapply lookup_weaken; [exact Hb|]. by etrans.
  - unfold stored; simpl. split; [|done]. apply log_grows, Hl4. set_solver.
  - by eapply wf_log; [apply log_grows|].
Qed.
Lemma program_safe c own log : safe c (fun log => served log c) own log (program c).
Proof. destruct c; [apply Lookup_safe|apply Store_safe]. Qed.

(** ** The invariant of the machine *)

Record inv (own : owner) (m : machine) : Prop := {
  inv_wf : wf own m.(steps) m.(shared);
  inv_running c p : (c, p) ∈ m.(running) -> safe c (fun log => served log c) own m.(steps) p;
  inv_results c r : (c, r) ∈ m.(results) -> served m.(steps) c r
}.
Lemma machine_step_inv own m ev m' : inv own m -> fire m ev = Some m' -> exists own', inv own' m'.
Proof.
  intros [Hw Hr Hres] Hf. destruct ev as [c|n|t]; simpl in Hf.
  - injection Hf as <-. exists own. split; simpl; [done| |done]. intros c' p [Hin|Hin]%elem_of_app; [by apply Hr|].
    apply list_elem_of_singleton in Hin. injection Hin as -> ->. apply program_safe.
  - destruct (running m !! n) as [[c p]|] eqn:Hn; [|done]. pose proof (Hr c p (list_elem_of_lookup_2 _ _ _ Hn)) as Hs. destruct p as [r|X f k].
    + injection Hf as <-. exists own. split; simpl; [done| |].
      * intros c' p Hin. apply Hr. rewrite (delete_take_drop (running m) n) in Hin. rewrite <- (take_drop_middle _ _ _ Hn). set_solver.
      * intros c' r' [Heq|Hin]%elem_of_cons; [injection Heq as -> ->; exact Hs|by apply Hres].
    + destruct (Hs own (steps m) (shared m) ltac:(done) ltac:(done) Hw) as (own' & Ho & Hw' & Hs'). destruct (f (shared m)) as [s x]. injection Hf as <-. simpl in *.
      exists own'. split; simpl; [done| |].
      * intros c' p Hin. apply list_elem_of_lookup in Hin as [j Hj]. apply list_lookup_insert_Some in Hj as [(-> & [= <- <-] & _)|[_ Hj]]; [exact Hs'|].
        eapply safe_mono; [intros l l' r' Hl; by apply served_mono|exact Ho|apply log_grows|]. eapply Hr, list_elem_of_lookup_2, Hj.
      * intros c' r' Hin. eapply served_mono; [apply log_grows|by apply Hres].
  - injection Hf as <-. exists own. split; simpl; [by apply wf_clock|done|done].
Qed.
Lemma fire_all_inv evs : forall own m m', inv own m -> fire_all evs (Some m) = Some m' -> exists own', inv own' m'.
Proof.
  induction evs as [|ev evs IH]; intros own m m' Hi Hf; [injection Hf as <-; eauto|]. unfold fire_all in Hf. simpl in Hf.
  destruct (fire m ev) as [m1|] eqn:E; [|by clear -Hf; exfalso; induction evs; simpl in *; auto].
  destruct (machine_step_inv _ _ _ _ Hi E) as [own1 Hi1]. eapply IH; eauto.
Qed.

(** ** What a call leaves in the cache *)

(** The bucket of an installation and key. *)
Definition bucket_of (i : string) (key : bucketKey) (s : State) : option nat :=
  match holds i s.(installations) with
  | Some r => match s.(caches) !! r with Some buckets => holds key buckets | None => None end
  | None => None
  end.
Lemma get_holds {K V} `{EqDecision K} (l l' : L K V) k found : lru_Get k l = (found, l') -> found = holds k l /\ forall k', holds k' l' = holds k' l.
Proof. intros E. unfold holds at 1. rewrite E. split; [done|]. intros k'. by rewrite <- (get_same l k k'), E. Qed.
(** Looking for a bucket only reorders the LRUs. *)
Lemma bucket_found i key s : snd (bucket i key false s) = bucket_of i key s /\ lrus (fst (bucket i key false s)) = lrus s /\ clock (fst (bucket i key false s)) = clock s /\
  forall j key', bucket_of j key' (fst (bucket i key false s)) = bucket_of j key' s.
Proof.
  unfold bucket, installation_cache. destruct (lru_Get i (installations s)) as [found insts] eqn:E. apply get_holds in E as [-> Hi].
  assert (Hb : forall j key', bucket_of j key' (with_installations insts s) = bucket_of j key' s) by (intros; unfold bucket_of; simpl; by rewrite Hi).
  unfold bucket_of at 1. destruct (holds i (installations s)) as [r|] eqn:Er; simpl; [|done].
  destruct (caches s !! r) as [buckets|] eqn:Eb; [|done]. destruct (lru_Get key buckets) as [found buckets'] eqn:E. apply get_holds in E as [-> Hk].
  assert (Hb' : forall j key', bucket_of j key' (with_cache r buckets' (with_installations insts s)) = bucket_of j key' s).
  { intros j key'. rewrite <- Hb. unfold bucket_of; simpl. destruct (holds j insts) as [r'|]; [|done].
    destruct (decide (r = r')) as [<-|]; [rewrite lookup_insert_eq, Eb; apply Hk|by rewrite lookup_insert_ne]. }
  destruct (holds key buckets); by simpl.
Qed.
(** An entry in its bucket. *)
Definition cached (i : string) (key : bucketKey) (b : nat) (k : entryKey) (e : entry) (s : State) : Prop :=
  bucket_of i key s = Some b /\ exists l, s.(lrus) !! b = Some l /\ holds k l = Some e.
Lemma with_bucket_of i key b l s : bucket_of i key (with_bucket b l s) = bucket_of i key s.
Proof. reflexivity. Qed.
Lemma cached_Get i key b k e s b' k' : cached i key b k e s -> cached i key b k e (fst (bucket_Get b' k' s)) /\ clock (fst (bucket_Get b' k' s)) = clock s.
Proof.
  intros (Hb & l & Hl & Hh). unfold bucket_Get. destruct (lrus s !! b') as [l'|] eqn:El; [|split; [split; eauto|done]].
  destruct (lru_Get k' l') as [found l''] eqn:E. apply get_holds in E as [_ Hs]. split; [|done]. split; [done|]. simpl.
  destruct (decide (b' = b)) as [->|]; [rewrite lookup_insert_eq|rewrite lookup_insert_ne by done]; [|eauto].
  exists l''. split; [done|]. rewrite Hs. by simplify_eq.
Qed.
Lemma cached_Remove i key b k e s b' k' : (b', k') <> (b, k) -> cached i key b k e s ->
  cached i key b k e (fst (bucket_Remove b' k' s)) /\ clock (fst (bucket_Remove b' k' s)) = clock s.
Proof.
  intros Hd (Hb & l & Hl & Hh). unfold bucket_Remove. destruct (lrus s !! b') as [l'|] eqn:El; [|split; [split; eauto|done]].
  split; [|done]. split; [done|]. simpl. destruct (decide (b' = b)) as [->|]; [rewrite lookup_insert_eq|rewrite lookup_insert_ne by done]; [|eauto].
  eexists. split; [done|]. rewrite remove_held. simplify_eq. destruct (decide (k = k')) as [->|]; [by destruct Hd|done].
Qed.
(** A walk keeps a live entry, and one that reaches it when it is near enough ends with a response. *)
Lemma scan_step i key b k e emb t cid b' k' ks rest s : t - e.(storedAt) <= cfg.(TTL) -> cached i key b k e s ->
  ((b', k') = (b, k) -> f_ge (cosine emb e.(embedding)) (thresholdFor cid) = false) ->
  (forall s, cached i key b k e s -> is_Some (snd (run_alone (scan emb t (thresholdFor cid) b' ks rest) s))) ->
  is_Some (snd (run_alone (scan emb t (thresholdFor cid) b' (k' :: ks) rest) s)).
Proof.
  intros Hage Hc Hsim Hgo. simpl. destruct (cached_Get _ _ _ _ _ _ b' k' Hc) as [Hc' _]. destruct (decide ((b', k') = (b, k))) as [Heq|Hd].
  - specialize (Hsim Heq). injection Heq as -> ->. revert Hc'. destruct Hc as (_ & l & Hl & Hh). unfold bucket_Get. rewrite Hl. destruct (lru_Get k l) as [found l'] eqn:E.
    apply get_holds in E as [-> _]. rewrite Hh. intros Hc'. destruct (Z.ltb_spec (TTL cfg) (t - storedAt e)); [lia|]. rewrite Hsim. by apply Hgo.
  - revert Hc'. destruct (bucket_Get b' k' s) as [s' [e'|]]; simpl; intros Hc'; [|by apply Hgo].
    destruct (_ <? _); [|destruct (f_ge (cosine emb (embedding e')) (thresholdFor cid)); [by eexists|by apply Hgo]]. simpl.
    destruct (cached_Remove i key b k e s' b' k' Hd Hc') as [Hc'' _]. revert Hc''. destruct (bucket_Remove b' k' s') as [s'' []]. by apply Hgo.
Qed.
Lemma scan_finds i key b k e emb t cid b' ks rest : t - e.(storedAt) <= cfg.(TTL) ->
  (b' = b /\ k ∈ ks /\ f_ge (cosine emb e.(embedding)) (thresholdFor cid) = true) \/ (forall s, cached i key b k e s -> is_Some (snd (run_alone rest s))) ->
  forall s, cached i key b k e s -> is_Some (snd (run_alone (scan emb t (thresholdFor cid) b' ks rest) s)).
Proof.
  intros Hage. induction ks as [|k' ks IH]; intros Hor s Hc; [destruct Hor as [(_ & Hin & _)|Hr]; [set_solver|by apply Hr]|].
  destruct (f_ge (cosine emb (embedding e)) (thresholdFor cid)) eqn:Hsim; [|eapply scan_step; [exact Hage|exact Hc|intros _; exact Hsim|]; apply IH; right; by destruct Hor as [(_ & _ & ?)|]].
  destruct (decide ((b', k') = (b, k))) as [Heq|Hd].
  - injection Heq as -> ->. simpl. destruct Hc as (_ & l & Hl & Hh). unfold bucket_Get. rewrite Hl. destruct (lru_Get k l) as [found l'] eqn:E.
    apply get_holds in E as [-> _]. rewrite Hh. destruct (Z.ltb_spec (TTL cfg) (t - storedAt e)); [lia|]. rewrite Hsim. by eexists.
  - eapply scan_step; [exact Hage|exact Hc|intros Heq; by destruct (Hd Heq)|]. apply IH. destruct Hor as [(-> & [->|Hin]%elem_of_cons & _)|]; [by destruct Hd|by left|by right].
Qed.
Lemma lookup_finds i fmt emb version hash cids b k e cid s : 
  let key := {| format := fmt; clusterID := cid; clusterVersion := version; knobsHash := hash |} in
  cid ∈ cids -> emb <> [] -> cached i key b k e s -> s.(clock) - e.(storedAt) <= cfg.(TTL) ->
  f_ge (cosine emb e.(embedding)) (thresholdFor cid) = true -> is_Some (snd (run_alone (Lookup i fmt emb cids version hash) s)).
Proof.
  intros key Hcid Hne Hc Hage Hsim. unfold Lookup. destruct (bool_decide_reflect (emb = [])); [done|]. destruct (bool_decide_reflect (cids = [])); [set_solver|]. simpl.
  generalize dependent s. intros s. generalize (clock s). intros t. revert s. clear n n0.
  induction cids as [|cid' cids IH]; intros s Hc Hage; [set_solver|]. simpl.
  set (key' := {| format := fmt; clusterID := cid'; clusterVersion := version; knobsHash := hash |}).
  destruct (bucket_found i key' s) as (Hf & Hlru & _ & Hof). destruct (bucket i key' false s) as [s' found]; simpl in *.
  assert (Hc' : cached i key b k e s') by (unfold cached; by rewrite Hof, Hlru). destruct (decide (cid' = cid)) as [->|Hd].
  - fold key in key'. destruct Hc as (Hb & l & Hl & Hh). subst key'. rewrite Hb in Hf. subst found. simpl.
    eapply (scan_finds i key b k e); [exact Hage| |exact Hc']. left. split; [done|]. split; [|done].
    rewrite Hlru, Hl. apply keys_held. by rewrite Hh.
  - assert (Hin : cid ∈ cids) by set_solver. destruct found as [b'|]; [|by apply IH]. simpl.
    eapply (scan_finds i key b k e); [exact Hage| |exact Hc']. right. intros s2 Hc2. by apply IH.
Qed.
Definition sized : Prop := 0 < cfg.(MaxBucketsPerInstallation) /\ 0 < cfg.(BucketSize).
(** Making a bucket. *)
Lemma installation_cache_made own log i s : sized -> wf own log s ->
  exists r, snd (installation_cache i true s) = Some r /\ holds i (fst (installation_cache i true s)).(installations) = Some r.
Proof.
  intros [Hsize _] Hw. unfold installation_cache. destruct (lru_Get i (installations s)) as [found insts] eqn:E. apply get_holds in E as [-> Hi].
  destruct (holds i (installations s)) as [r|] eqn:Er; simpl; [exists r; by rewrite Hi|].
  destruct (new_some (K := bucketKey) (V := nat) _ Hsize) as [v ->]. simpl. eexists. split; [done|]. apply add_held.
Qed.
Lemma bucket_made own log i key s : sized -> wf own log s ->
  exists b, snd (bucket i key true s) = Some b /\ bucket_of i key (fst (bucket i key true s)) = Some b.
Proof.
  intros Hsize Hw. unfold bucket. destruct (installation_cache_ok _ _ _ i true Hw) as (own1 & _ & Hw1 & Hr).
  destruct (installation_cache_made _ _ i s Hsize Hw) as (r & Hsome & Hh). destruct (installation_cache i true s) as [s1 ic]; simpl in *. subst ic.
  destruct (proj2 (wf_caches _ _ _ Hw1 r) (ex_intro _ i (Hr r eq_refl))) as [buckets Eb]. rewrite Eb.
  destruct (lru_Get key buckets) as [found buckets'] eqn:E. apply get_holds in E as [-> Hk].
  destruct (holds key buckets) as [b|] eqn:Ek; simpl.
  - exists b. split; [done|]. unfold bucket_of; simpl. by rewrite Hh, lookup_insert_eq, Hk.
  - destruct Hsize as [_ Hsize]. destruct (new_some (K := entryKey) (V := entry) _ Hsize) as [v ->]. simpl. eexists. split; [done|].
    unfold bucket_of; simpl. rewrite Hh, lookup_insert_eq. apply add_held.
Qed.
Lemma store_found i fmt emb cid resp version hash own log s : let key := {| format := fmt; clusterID := cid; clusterVersion := version; knobsHash := hash |} in
  sized -> wf own log s -> emb <> [] -> Z.of_nat (String.length resp.(Body)) <= cfg.(MaxBodyBytes) ->
  exists b, cached i key b (entryKeyFor emb) {| embedding := emb; response := resp; storedAt := s.(clock) |} (fst (run_alone (Store i fmt emb cid resp version hash) s)) /\
    clock (fst (run_alone (Store i fmt emb cid resp version hash) s)) = clock s.
Proof.
  intros key Hsize Hw Hne Hbody. unfold Store. case_bool_decide; [done|]. destruct (Z.ltb_spec (MaxBodyBytes cfg) (Z.of_nat (String.length (Body resp)))); [lia|]. simpl.
  fold key. destruct (bucket_made own log i key s Hsize Hw) as (b & Hb & Hof). destruct (bucket_ok own log s i key true Hw) as (own1 & _ & Hw1 & Hown).
  assert (Hclock : clock (fst (bucket i key true s)) = clock s).
  { unfold bucket, installation_cache. destruct (lru_Get i _) as [[r|] insts]; simpl.
    - destruct (caches s !! r); [|done]. destruct (lru_Get key _) as [[|] ?]; simpl; [done|]. by destruct (lru_New _).
    - destruct (lru_New (MaxBucketsPerInstallation cfg)); [|done]. simpl. rewrite lookup_insert_eq. destruct (lru_Get key _) as [[|] ?]; simpl; [done|]. by destruct (lru_New _). }
  specialize (Hown b Hb). destruct (bucket i key true s) as [s1 found]; simpl in *. subst found. simpl.
  destruct (proj2 (wf_lrus _ _ _ Hw1 b) (ex_intro _ i (ex_intro _ key Hown))) as [l El]. unfold bucket_Add. rewrite El. simpl. exists b.
  split; [|done]. split; [by rewrite with_bucket_of|]. exists (lru_Add (entryKeyFor emb) {| embedding := emb; response := resp; storedAt := clock s1 |} l). simpl.
  rewrite lookup_insert_eq. split; [done|]. rewrite add_held. by rewrite Hclock.
Qed.

(** What the bucket of an installation and key holds. *)
Definition contents (i : string) (key : bucketKey) (s : State) : option (L entryKey entry) :=
  match bucket_of i key s with Some b => s.(lrus) !! b | None => None end.
(** Another installation's buckets stay as they are, unless a new installation takes the place of that one. *)
Definition untouched (i j : string) (s s' : State) : Prop :=
  (forall key, contents j key s' = contents j key s) \/ (holds j s'.(installations) = None /\ holds i s.(installations) = None).
Lemma contents_with_cache own log i j r v key s : j <> i -> wf own log s -> own !! r = Some (i, None) -> contents j key (with_cache r v s) = contents j key s.
Proof.
  intros Hj Hw Hr. unfold contents, bucket_of; simpl. destruct (holds j (installations s)) as [r'|] eqn:Er; [|done].
  pose proof (wf_installation _ _ _ Hw _ _ Er) as Ho. rewrite lookup_insert_ne; [done|]. intros ->. congruence.
Qed.
Lemma contents_with_bucket own log i j b v key key' s : j <> i -> wf own log s -> own !! b = Some (i, Some key') -> contents j key (with_bucket b v s) = contents j key s.
Proof.
  intros Hj Hw Hb. unfold contents. rewrite with_bucket_of. destruct (bucket_of j key s) as [b'|] eqn:Eb; [|done]. simpl.
  rewrite lookup_insert_ne; [done|]. intros ->. unfold bucket_of in Eb. destruct (holds j (installations s)) as [r|] eqn:Er; [|done].
  destruct (caches s !! r) as [buckets|] eqn:Ec; [|done].
  pose proof (wf_cache _ _ _ Hw _ _ _ _ _ Ec (wf_installation _ _ _ Hw _ _ Er) Eb). congruence.
Qed.
Lemma installation_cache_untouched own log i j create s : j <> i -> wf own log s -> untouched i j s (fst (installation_cache i create s)).
Proof.
  intros Hj Hw. unfold installation_cache. destruct (lru_Get i (installations s)) as [found insts] eqn:E. apply get_holds in E as [-> Hi].
  assert (Hsame : forall key, contents j key (with_installations insts s) = contents j key s) by (intros key; unfold contents, bucket_of; simpl; by rewrite Hi).
  destruct (holds i (installations s)) as [r|] eqn:Er; [by left|]. destruct create; [|by left]. simpl.
  destruct (lru_New (MaxBucketsPerInstallation cfg)) as [v|]; [|by left]. simpl.
  destruct (holds j (lru_Add i (fresh s) insts)) as [r|] eqn:Ej; [|right; simpl; by rewrite Er]. left. intros key. rewrite <- Hsame.
  pose proof (add_others _ _ _ _ _ Hj Ej) as Hold. unfold contents, bucket_of; simpl. rewrite Ej, Hold. rewrite Hi in Hold.
  pose proof (wf_installation _ _ _ Hw _ _ Hold) as Ho. pose proof (wf_fresh _ _ _ Hw r (ex_intro _ _ Ho)). by rewrite lookup_insert_ne by lia.
Qed.
Lemma bucket_untouched own log i j key create s : j <> i -> wf own log s -> untouched i j s (fst (bucket i key create s)).
Proof.
  intros Hj Hw. unfold bucket. destruct (installation_cache_ok _ _ _ i create Hw) as (own1 & _ & Hw1 & Hr).
  pose proof (installation_cache_untouched own log i j create s Hj Hw) as Hu. destruct (installation_cache i create s) as [s1 ic]; simpl in *.
  destruct ic as [r|]; [|done]. specialize (Hr r eq_refl). destruct (caches s1 !! r) as [buckets|] eqn:Eb; [|done]. destruct (lru_Get key buckets) as [found buckets'] eqn:E.
  assert (Hstep : forall s2 : State, installations s2 = installations s1 -> (forall key', contents j key' s2 = contents j key' s1) -> untouched i j s s2).
  { intros s2 Hs Hc. destruct Hu as [Hu|[Hu ?]]; [left; intros key'; by rewrite Hc|right; by rewrite Hs]. }
  destruct found as [b|]; [apply Hstep; [done|]; intros key'; by eapply contents_with_cache|].
  destruct create; simpl; [|apply Hstep; [done|]; intros key'; by eapply contents_with_cache].
  destruct (lru_New (BucketSize cfg)) as [v|]; simpl; [|apply Hstep; [done|]; intros key'; by eapply contents_with_cache].
  apply Hstep; [done|]. intros key'. unfold contents, bucket_of; simpl. destruct (holds j (installations s1)) as [r'|] eqn:Er'; [|done].
  pose proof (wf_installation _ _ _ Hw1 _ _ Er') as Ho. rewrite !lookup_insert_ne by (intros ->; congruence).
  destruct (caches s1 !! r') as [bs|] eqn:Ebs; [|done]. destruct (holds key' bs) as [b|] eqn:Ek; [|done].
  pose proof (wf_cache _ _ _ Hw1 _ _ _ _ _ Ebs Ho Ek) as Hob. pose proof (wf_fresh _ _ _ Hw1 b (ex_intro _ _ Hob)). by rewrite lookup_insert_ne by lia.
Qed.
Lemma store_untouched own log i fmt emb cid resp version hash j s : j <> i -> wf own log s -> untouched i j s (fst (run_alone (Store i fmt emb cid resp version hash) s)).
Proof.
  intros Hj Hw. unfold Store. case_bool_decide; [by left|]. destruct (_ <? _); [by left|]. simpl.
  set (key := {| format := fmt; clusterID := cid; clusterVersion := version; knobsHash := hash |}).
  destruct (bucket_ok own log s i key true Hw) as (own1 & _ & Hw1 & Hown). pose proof (bucket_untouched own log i j key true s Hj Hw) as Hu.
  destruct (bucket i key true s) as [s1 found]; simpl in *. destruct found as [b|]; [|done]. specialize (Hown b eq_refl). simpl.
  unfold bucket_Add. destruct (lrus s1 !! b) as [l|]; [|done]. simpl.
  destruct Hu as [Hu|Hu]; [left; intros key'; rewrite <- Hu; by eapply contents_with_bucket|by right].
Qed.
End Facts.
End Cache.
Section Initial.
Context {L : Type -> Type -> Type} `{LruLaws L}.
Lemma New_wf given cfg s : New given = Some (cfg, s) -> wf cfg ∅ [] s.
Proof.
  unfold New. destruct (lru_New _) as [l|] eqn:E; [|done]. intros [= <- <-]. split; simpl.
  - intros r. rewrite lookup_empty. by intros [].
  - intros i r. by rewrite (new_empty _ _ i E).
  - intros r. rewrite !lookup_empty. split; [by intros []|by intros [? ?]].
  - intros r bs i key b. by rewrite lookup_empty.
  - intros r. rewrite !lookup_empty. split; [by intros []|by intros (? & ? & ?)].
  - intros b l' i key k e. by rewrite lookup_empty.
Qed.
Lemma New_sized given cfg s : New given = Some (cfg, s) -> sized cfg.
Proof.
  unfold New. destruct (lru_New _); [|done]. intros [= <- _]. unfold sized, with_defaults; simpl.
  split; [destruct (Z.leb_spec (MaxBucketsPerInstallation given) 0)|destruct (Z.leb_spec (BucketSize given) 0)]; lia.
Qed.
End Initial.
Arguments State L : clear implicits.
Arguments machine L : clear implicits.

(** ** Properties *)

Section Properties.
Context {L : Type -> Type -> Type} `{LruLaws L}.
(** C12: whatever calls are in progress at once and however their steps interleave, a lookup answers only with a
    response that a store put, for the same installation, wire format, version and knobs, in one of the clusters
    asked for, not longer ago than the cache's lifetime, for an embedding whose similarity reaches the cluster's
    threshold; and never with a body over the limit. *)
Theorem cache_serves_own (given cfg : Config) (s : State L) (evs : list event) (m : machine L)
    (i fmt : string) (emb : list f32) (cids : list Z) (version : string) (hash : Z) (resp : CachedResponse)
    (HN : New given = Some (cfg, s)) (HR : fire_all cfg evs (Some (idle s)) = Some m)
    (Hres : (CLookup i fmt emb cids version hash, Some resp) ∈ m.(results)) :
  exists cid emb' t t', cid ∈ cids /\ (CStore i fmt emb' cid resp version hash, t) ∈ m.(steps) /\
    (CLookup i fmt emb cids version hash, t') ∈ m.(steps) /\ t' - t <= cfg.(TTL) /\
    f_ge (cosine emb emb') (thresholdFor cfg cid) = true /\ Z.of_nat (String.length resp.(Body)) <= cfg.(MaxBodyBytes).
Proof.
  destruct (fire_all_inv cfg evs ∅ (idle s) m) as [own [_ _ Hr]]; [|exact HR|].
  - split; simpl; [|set_solver|set_solver]. exact (New_wf given cfg s HN).
  - destruct (Hr _ _ Hres) as (cid & emb' & t & t' & ? & ? & ? & _ & ? & ? & ?). exists cid, emb', t, t'. auto 10.
Qed.

(** C13: what a store does, in any state the cache can be in: the same prompt asked again within the lifetime is
    answered — the cluster among those asked, the similarity reaching the threshold — however many entries the cache had
    to evict; and the buckets of every other installation stay as they were, unless this installation is new and took
    the place of that one. *)
Theorem cache_store_effect (given cfg : Config) (s : State L) (evs : list event) (m : machine L)
    (i fmt : string) (emb : list f32) (cid : Z) (resp : CachedResponse) (version : string) (hash : Z)
    (HN : New given = Some (cfg, s)) (HR : fire_all cfg evs (Some (idle s)) = Some m) :
  let before := m.(shared) in
  let after := fst (run_alone (Store cfg i fmt emb cid resp version hash) before) in
  (forall emb' cids t, emb <> [] -> emb' <> [] -> Z.of_nat (String.length resp.(Body)) <= cfg.(MaxBodyBytes) -> cid ∈ cids ->
     f_ge (cosine emb' emb) (thresholdFor cfg cid) = true -> before.(clock) <= t <= before.(clock) + cfg.(TTL) ->
     is_Some (snd (run_alone (Lookup cfg i fmt emb' cids version hash)
       {| installations := after.(installations); caches := after.(caches); lrus := after.(lrus); fresh := after.(fresh); clock := t |}))) /\
  (forall j, j <> i -> (forall key, contents j key after = contents j key before) \/
     (holds j after.(installations) = None /\ holds i before.(installations) = None)).
Proof.
  cbn zeta. destruct (fire_all_inv cfg evs ∅ (idle s) m) as [own [Hw _ _]]; [|exact HR|].
  { split; simpl; [|set_solver|set_solver]. exact (New_wf given cfg s HN). }
  split.
  - intros emb' cids t Hne Hne' Hbody Hcid Hsim Ht.
    destruct (store_found cfg i fmt emb cid resp version hash own _ _ (New_sized _ _ _ HN) Hw Hne Hbody) as (b & Hc & _).
    eapply (lookup_finds cfg i fmt emb' version hash cids b); [exact Hcid|exact Hne'|exact Hc|simpl; lia|exact Hsim].
  - intros j Hj. by apply (store_untouched cfg own m.(steps)).
Qed.
End Properties.

(** ** An LRU *)

(** A list of entries, the last used first, at most [cap] of them. *)
Module ListLru.
Record t (K V : Type) := mk { cap : nat; items : list (K * V) }.
Arguments mk {K V}.
Arguments cap {K V}.
Arguments items {K V}.
Section Ops.
Context {K V : Type} `{EqDecision K}.
Fixpoint find (k : K) (l : list (K * V)) : option V :=
  match l with [] => None | (k', v) :: l => if decide (k = k') then Some v else find k l end.
Definition drop_key (k : K) (l : list (K * V)) : list (K * V) := List.filter (fun kv => negb (bool_decide (k = kv.1))) l.
Lemma find_drop k k' l : find k' (drop_key k l) = if decide (k' = k) then None else find k' l.
Proof.
  induction l as [|[k1 v1] l IH]; simpl; [by destruct (decide (k' = k))|]. destruct (bool_decide_reflect (k = k1)) as [->|Hd]; simpl.
  - rewrite IH. destruct (decide (k' = k1)); done.
  - rewrite IH. destruct (decide (k' = k1)) as [->|]; [|done]. destruct (decide (k1 = k)) as [->|]; [by destruct Hd|done].
Qed.
Lemma find_take k n l v : find k (take n l) = Some v -> find k l = Some v.
Proof. revert n. induction l as [|[k1 v1] l IH]; intros [|n]; simpl; try done. destruct (decide (k = k1)); [done|apply IH]. Qed.
Lemma find_keys k l : k ∈ l.*1 <-> is_Some (find k l).
Proof.
  induction l as [|[k1 v1] l IH]; simpl; [split; [set_solver|by intros []]|]. rewrite elem_of_cons, IH.
  destruct (decide (k = k1)) as [->|]; [split; eauto|naive_solver].
Qed.
End Ops.
#[global] Instance ops : Lru t := {
  lru_New K V size := if size <=? 0 then None else Some (mk (Z.to_nat size) []);
  lru_Get K V eq k l := match find k l.(items) with Some v => (Some v, mk l.(cap) ((k, v) :: drop_key k l.(items))) | None => (None, l) end;
  lru_Add K V eq k v l := mk (l.(cap)) ((k, v) :: take (pred l.(cap)) (drop_key k l.(items)));
  lru_Remove K V eq k l := mk l.(cap) (drop_key k l.(items));
  lru_Keys K V l := rev (l.(items).*1)
}.
#[global] Instance laws : LruLaws t.
Proof.
  assert (Hh : forall K V (eq : EqDecision K) (l : t K V) k, holds k l = find k l.(items)) by (intros; unfold holds; simpl; by destruct (find k _)).
  split.
  - intros K V size Hs. simpl. destruct (Z.leb_spec size 0); [lia|eauto].
  - intros K V eq size l k. rewrite Hh. simpl. destruct (size <=? 0); [done|]. by intros [= <-].
  - intros K V eq l k k'. rewrite !Hh. simpl. destruct (find k (items l)) as [v|] eqn:E; [|done]. simpl. rewrite find_drop.
    destruct (decide (k' = k)) as [->|]; [done|done].
  - intros K V eq l k v. rewrite Hh. simpl. by destruct (decide (k = k)).
  - intros K V eq l k v k' w Hd. rewrite !Hh. simpl. destruct (decide (k' = k)); [done|]. intros Hf%find_take. rewrite find_drop in Hf. by destruct (decide (k' = k)).
  - intros K V eq l k k'. rewrite !Hh. apply find_drop.
  - intros K V eq l k. rewrite Hh. unfold lru_Keys; simpl.  rewrite <- find_keys. rewrite list_elem_of_In, <- in_rev, <- list_elem_of_In. done.
Qed.
End ListLru.

(** ** Concrete histories *)

Definition ex_config : Config := {| PerClusterThreshold := {[7 := f32_lit 9 10]}; DefaultThreshold := f_zero; BucketSize := 2;
  MaxBucketsPerInstallation := 1; MaxInstallations := 2; TTL := 100; MaxBodyBytes := 10 |}.
Definition ex_reply (body : string) : CachedResponse := {| StatusCode := 200; Headers := ∅; Body := body |}.
Definition ex_x : list f32 := [f32_of_Z 1; f_zero].
Definition ex_near : list f32 := [f32_lit 99 100; f32_lit 1 10].
Definition ex_cfg : Config := with_defaults ex_config.
Definition ex_start : State ListLru.t := match New (L := ListLru.t) ex_config with Some (_, s) => s | None => {| installations := ListLru.mk 0 []; caches := ∅; lrus := ∅; fresh := 0; clock := 0 |} end.
Definition ex_store : call := CStore "acme" "openai" ex_x 7 (ex_reply "hello") "v1" 5.
Definition ex_lookup : call := CLookup "acme" "openai" ex_near [3; 7] "v1" 5.
(** The lookup begins before the store has added its entry, and reads the bucket's keys after. *)
Definition ex_events : list event :=
  [Begin ex_store; Tick 10; Step 0; Begin ex_lookup; Step 1; Step 1; Tick 20; Step 0; Step 1; Step 0; Step 1; Step 1; Step 1].
Definition ex_machine : machine ListLru.t := default (idle ex_start) (fire_all ex_cfg ex_events (Some (idle ex_start))).
Lemma cache_serves_own_witness : (ex_lookup, Some (ex_reply "hello")) ∈ ex_machine.(results) /\
  exists cid emb' t t', cid ∈ [3; 7] /\ (CStore "acme" "openai" emb' cid (ex_reply "hello") "v1" 5, t) ∈ ex_machine.(steps) /\
    (ex_lookup, t') ∈ ex_machine.(steps) /\ t' - t <= 100 /\ f_ge (cosine ex_near emb') (thresholdFor ex_cfg cid) = true /\ 5 <= 10.
Proof.
  assert (Hin : (ex_lookup, Some (ex_reply "hello")) ∈ ex_machine.(results)).
  { replace ex_machine.(results) with [(ex_lookup, Some (ex_reply "hello"))] by (vm_compute; reflexivity). set_solver. }
  split; [exact Hin|].
  apply (cache_serves_own ex_config ex_cfg ex_start ex_events ex_machine "acme" "openai" ex_near [3; 7] "v1" 5 (ex_reply "hello")); [reflexivity|vm_compute; reflexivity|exact Hin].
Defined.
Definition ex_stored : State ListLru.t := fst (run_alone (Store ex_cfg "acme" "openai" ex_x 7 (ex_reply "again") "v2" 5) ex_machine.(shared)).
Lemma cache_store_effect_witness :
  is_Some (snd (run_alone (Lookup ex_cfg "acme" "openai" ex_near [7] "v2" 5)
    {| installations := ex_stored.(installations); caches := ex_stored.(caches); lrus := ex_stored.(lrus); fresh := ex_stored.(fresh); clock := 120 |})) /\
  snd (run_alone (Lookup ex_cfg "acme" "openai" ex_near [7] "v1" 5) ex_stored) = None.
Proof.
  split; [|vm_compute; reflexivity].
  apply (cache_store_effect ex_config ex_cfg ex_start ex_events ex_machine "acme" "openai" ex_x 7 (ex_reply "again") "v2" 5);
    try (vm_compute; first [reflexivity|discriminate]); [set_solver|].
  vm_compute. split; discriminate.
Defined.
(** Of two live entries near enough the one used longest ago is served, since the keys are listed from the oldest. *)
Definition ex_two : State ListLru.t :=
  fst (run_alone (Store ex_cfg "acme" "openai" ex_near 7 (ex_reply "newer") "v1" 5) (fst (run_alone (Store ex_cfg "acme" "openai" ex_x 7 (ex_reply "older") "v1" 5) ex_start))).
Lemma lookup_prefers_oldest : snd (run_alone (Lookup ex_cfg "acme" "openai" ex_near [7] "v1" 5) ex_two) = Some (ex_reply "older").
Proof. vm_compute. reflexivity. Qed.
