(* ===== verification/CacheTurn.v ===== *)
(** The turns that read and fill the semantic cache (internal/proxy/cache_hit.go, cache_writer.go and the calls in
    service.go): when a turn may, what is kept of its response, and what a hit writes. *)

From stdpp Require Import base gmap sets list strings.
From Stdlib Require Import ZArith Lia Ascii.
From S2P Require Import Prelude Strings Floats Types Catalog ForceNames Resolver Sidecar Sse Exclusions SemCache.
Open Scope string_scope.
Open Scope Z_scope.

(** ** Headers (net/http) *)

(** The bytes of a header name; any other byte leaves the name as it is. *)
Definition token_byte (b : Z) : bool :=
  ((48 <=? b) && (b <=? 57) || (65 <=? b) && (b <=? 90) || (97 <=? b) && (b <=? 122)
   || bool_decide (b ∈ [33; 35; 36; 37; 38; 39; 42; 43; 45; 46; 94; 95; 96; 124; 126]))%bool.
(** Upper case at the start and after a dash, lower case elsewhere. *)
Fixpoint canonical (upper : bool) (l : list ascii) : list ascii :=
  match l with
  | [] => []
  | a :: l =>
      let b := bval a in
      let a := if (upper && (97 <=? b) && (b <=? 122))%bool then bchr (b - 32)
               else if (negb upper && (65 <=? b) && (b <=? 90))%bool then bchr (b + 32) else a in
      a :: canonical (b =? 45) l
  end.
Definition CanonicalHeaderKey (s : string) : string :=
  let l := String.list_ascii_of_string s in
  if forallb (fun a => token_byte (bval a)) l then String.string_of_list_ascii (canonical true l) else s.
Local Notation Header := (gmap string (list string)).
Definition Header_Set (k v : string) (h : Header) : Header := <[CanonicalHeaderKey k := [v]]> h.
Definition Header_Add (k v : string) (h : Header) : Header :=
  let k := CanonicalHeaderKey k in <[k := (default [] (h !! k) ++ [v])%list]> h.

Definition HeaderRouterDecision : string := "x-router-decision".
Definition HeaderRouterProvider : string := "x-router-provider".
Definition HeaderRouterModel : string := "x-router-model".
Definition HeaderRouterContextWindow : string := "x-router-context-window".
Definition HeaderRouterCache : string := "x-router-cache".
Definition RouterCacheHit : string := "hit".
Definition HeaderRouterFallbackFrom : string := "x-router-fallback-from".
Definition headersToSkipOnHit : gset string := list_to_set
  (["Request-Id"; "X-Request-Id"; "X-Router-Decision"; "X-Router-Provider"; "X-Router-Model"; "X-Router-Context-Window"; "X-Router-Cache";
    "X-Router-Feedback-Url"]
   ++ (CanonicalHeaderKey <$> ["x-router-cost-usd"; "x-router-cost-input-usd"; "x-router-cost-output-usd"; "x-router-cache-read-tokens";
                               "x-router-cache-creation-tokens"]))%list.
Definition cloneCacheHeaders (h : Header) : Header := filter (fun kv => CanonicalHeaderKey kv.1 ∉ headersToSkipOnHit) h.

(** ** The capture of a response (cache_writer.go) *)

Section Capture.
(** What the writer below is handed, in order: a status, or bytes. *)
Record captureWriter := { below : list (Z + string); body : string; statusCode : Z; wroteHeader : bool; maxBytes : Z; overflow : bool }.
Definition newCaptureWriter (maxBytes : Z) : captureWriter :=
  {| below := []; body := ""; statusCode := 200; wroteHeader := false; maxBytes := maxBytes; overflow := false |}.
Definition WriteHeader (code : Z) (c : captureWriter) : captureWriter :=
  if c.(wroteHeader) then c
  else {| below := (c.(below) ++ [inl code])%list; body := c.(body); statusCode := code; wroteHeader := true; maxBytes := c.(maxBytes); overflow := c.(overflow) |}.
Definition Write (p : string) (c : captureWriter) : captureWriter :=
  let over := (c.(maxBytes) <? Z.of_nat (String.length c.(body)) + Z.of_nat (String.length p)) in
  {| below := (c.(below) ++ [inr p])%list;
     body := if c.(overflow) then c.(body) else if over then "" else c.(body) +:+ p;
     statusCode := c.(statusCode); wroteHeader := c.(wroteHeader); maxBytes := c.(maxBytes); overflow := c.(overflow) || over |}.
Definition captured (c : captureWriter) : option (string * Z) := if c.(overflow) then None else Some (c.(body), c.(statusCode)).
End Capture.
Definition write_op (c : captureWriter) (op : Z + string) : captureWriter := match op with inl code => WriteHeader code c | inr p => Write p c end.
(** The bytes and the first status of a sequence of calls. *)
Definition bytes_written (ops : list (Z + string)) : string := String.concat "" (omap (fun op => match op with inr p => Some p | inl _ => None end) ops).
Fixpoint first_status (ops : list (Z + string)) : option Z :=
  match ops with [] => None | inl code :: _ => Some code | inr _ :: ops => first_status ops end.

(** ** The turn *)

(** What decides whether a turn may use the cache. *)
Record Turn := {
  authoritativePerTurnSelection : bool;
  cacheConfigured : bool;
  stream : bool;
  externalID : string;
  bypassEval : bool;
  extraExclusion : bool;         (** a compaction handover ran, or a Responses call passed through *)
  requestAllowedModelsPresent : bool;
  usageBypassEngaged : bool;
  turn_decision : Decision.t;
  fresh_metadata : option Metadata.t   (** [routeRes.Fresh.Metadata] *)
}.
Definition semanticCacheAllowed (t : Turn) : bool := negb t.(authoritativePerTurnSelection).
Definition cacheMetadataFor (t : Turn) : option Metadata.t :=
  match t.(turn_decision).(Decision.Metadata) with Some md => Some md | None => t.(fresh_metadata) end.
(** [cacheEligible] of the store; a lookup also wants no usage bypass. *)
Definition cacheEligible (t : Turn) : option Metadata.t :=
  match cacheMetadataFor t with
  | Some md =>
      if (semanticCacheAllowed t && t.(cacheConfigured) && negb t.(stream) && negb (String.eqb t.(externalID) "") && negb t.(bypassEval)
          && negb t.(extraExclusion) && negb t.(requestAllowedModelsPresent))%bool
      then Some md else None
  | None => None
  end.
Definition lookupEligible (t : Turn) : option Metadata.t := if t.(usageBypassEngaged) then None else cacheEligible t.

Section Service.
Context {L : Type -> Type -> Type} `{Lru L} (cfg : Config).
(** The lookup of [tryServeSemanticCacheHit]. *)
Definition tryLookup (format : string) (t : Turn) : prog (State L) (option CachedResponse) :=
  match lookupEligible t with
  | Some md => Lookup cfg t.(externalID) format md.(Metadata.Embedding) md.(Metadata.ClusterIDs) md.(Metadata.ClusterRouterVersion) md.(Metadata.EffectiveKnobsHash)
  | None => Ret None
  end.
(** The end of a dispatched turn: the store, or the panic of the index into an empty list of clusters. *)
Inductive stored_turn := Stored (p : prog (State L) unit) | IndexPanic.
Definition storeTurn (format : string) (t : Turn) (proxyErr : bool) (w : Header) (c : captureWriter) : stored_turn :=
  match cacheEligible t with
  | Some md =>
      if proxyErr then Stored (Ret tt)
      else match captured c with
           | Some (b, status) =>
               if status =? 200 then
                 match md.(Metadata.ClusterIDs) with
                 | [] => IndexPanic
                 | cid :: _ =>
                     Stored (Store cfg t.(externalID) format md.(Metadata.Embedding) cid
                       {| StatusCode := status; Headers := cloneCacheHeaders w; Body := b |} md.(Metadata.ClusterRouterVersion) md.(Metadata.EffectiveKnobsHash))
                 end
               else Stored (Ret tt)
           | None => Stored (Ret tt)
           end
  | None => Stored (Ret tt)
  end.
End Service.
(** What a hit writes: the headers, the status when it is not the default, the body. *)
Record Written := { w_header : Header; w_status : option Z; w_body : string }.
Definition writeCachedResponse `{GoUnicode} (w : Header) (resp : CachedResponse) (d : Decision.t) : Written :=
  let h := fold_left (fun h kvs => fold_left (fun h v => Header_Add kvs.1 v h) kvs.2 h) (map_to_list resp.(Headers)) w in
  let h := Header_Set HeaderRouterDecision d.(Decision.Reason) h in
  let h := Header_Set HeaderRouterProvider d.(Decision.Provider) h in
  let h := Header_Set HeaderRouterModel d.(Decision.Model) h in
  let h := Header_Set HeaderRouterContextWindow (WriteJSONInt (contextWindowForRequest d.(Decision.Model) d.(Decision.Provider))) h in
  let h := Header_Set HeaderRouterCache RouterCacheHit h in
  {| w_header := h;
     w_status := if (negb (resp.(StatusCode) =? 0) && negb (resp.(StatusCode) =? 200))%bool then Some resp.(StatusCode) else None;
     w_body := resp.(Body) |}.

(** ** What is captured is what was written *)

Lemma bytes_written_app ops p : bytes_written (ops ++ [inr p]) = bytes_written ops +:+ p.
Proof. unfold bytes_written. rewrite omap_app. cbn [omap list_omap]. rewrite Strings.concat_app. cbn. reflexivity. Qed.
Lemma bytes_written_header ops code : bytes_written (ops ++ [inl code]) = bytes_written ops.
Proof. unfold bytes_written. rewrite omap_app. cbn [omap list_omap]. by rewrite app_nil_r. Qed.
Lemma first_status_app ops op : first_status (ops ++ [op]) =
  match first_status ops with Some code => Some code | None => match op with inl code => Some code | inr _ => None end end.
Proof. induction ops as [|[code|p] ops IH]; simpl; [by destruct op| |]; auto. Qed.
(** The capture stands in nobody's way, and is the whole body with the first status, unless the body is over the
    limit, and then there is none. *)
Lemma capture_exact limit ops : 0 <= limit -> let c := fold_left write_op ops (newCaptureWriter limit) in
  c.(maxBytes) = limit /\ c.(wroteHeader) = bool_decide (is_Some (first_status ops)) /\
  bytes_written c.(below) = bytes_written ops /\
  captured c = if Z.of_nat (String.length (bytes_written ops)) <=? limit then Some (bytes_written ops, default 200 (first_status ops)) else None.
Proof.
  intros Hl. simpl. induction ops as [|op ops IH] using rev_ind.
  { split; [done|]. split; [symmetry; apply bool_decide_eq_false_2; by intros []|]. split; [done|]. unfold captured, bytes_written; simpl. destruct (Z.leb_spec (Z.of_nat 0) limit); [done|lia]. }
  rewrite fold_left_app. cbn [fold_left]. set (c := fold_left write_op ops (newCaptureWriter limit)) in *. destruct IH as (Hm & Hh & Hb & Hc).
  rewrite first_status_app. destruct op as [code|p]; cbn [write_op].
  - rewrite bytes_written_header. unfold WriteHeader. rewrite Hh. destruct (first_status ops) as [st|] eqn:Est; [done|]. rewrite bool_decide_eq_false_2 by (by intros []).
    simpl. rewrite bytes_written_header. split; [done|]. split; [done|]. split; [done|].
    revert Hc. unfold captured; simpl. destruct (overflow c), (_ <=? limit); try done. intros [= <- _]. done.
  - rewrite bytes_written_app. unfold Write, captured in *; simpl. rewrite bytes_written_app, Hb, Hm, Hh.
    split; [done|]. split; [by destruct (first_status ops)|]. split; [done|]. rewrite str_length_app.
    destruct (overflow c); simpl.
    + destruct (Z.leb_spec (Z.of_nat (String.length (bytes_written ops))) limit); [done|]. destruct (Z.leb_spec (Z.of_nat (String.length (bytes_written ops) + String.length p)) limit); [lia|done].
    + destruct (Z.leb_spec (Z.of_nat (String.length (bytes_written ops))) limit); [|done]. injection Hc as -> ->.
      destruct (Z.ltb_spec limit (Z.of_nat (String.length (bytes_written ops)) + Z.of_nat (String.length p)));
        destruct (Z.leb_spec (Z.of_nat (String.length (bytes_written ops) + String.length p)) limit); try lia; [done|]. by destruct (first_status ops).
Qed.

(** ** The headers of a hit *)

Lemma canonical_names : CanonicalHeaderKey HeaderRouterDecision = "X-Router-Decision" /\ CanonicalHeaderKey HeaderRouterProvider = "X-Router-Provider" /\
  CanonicalHeaderKey HeaderRouterModel = "X-Router-Model" /\ CanonicalHeaderKey HeaderRouterContextWindow = "X-Router-Context-Window" /\
  CanonicalHeaderKey HeaderRouterCache = "X-Router-Cache".
Proof. vm_compute. repeat split. Qed.
(** The routing headers of a hit are those of the live decision, whatever the stored response carries. *)
Lemma hit_headers_live `{GoUnicode} w resp d : let h := (writeCachedResponse w resp d).(w_header) in
  h !! "X-Router-Decision" = Some [d.(Decision.Reason)] /\ h !! "X-Router-Provider" = Some [d.(Decision.Provider)] /\
  h !! "X-Router-Model" = Some [d.(Decision.Model)] /\ h !! "X-Router-Cache" = Some ["hit"].
Proof.
  destruct canonical_names as (E1 & E2 & E3 & E4 & E5). cbn zeta. unfold writeCachedResponse, Header_Set. cbn [w_header]. rewrite E1, E2, E3, E4, E5. unfold RouterCacheHit.
  repeat split; repeat (rewrite lookup_insert_eq || rewrite lookup_insert_ne by done); reflexivity.
Qed.
(** What is stored carries none of the headers that are not to be replayed. *)
Lemma cloned_headers w k : is_Some (cloneCacheHeaders w !! k) -> CanonicalHeaderKey k ∉ headersToSkipOnHit.
Proof. intros [v Hv]. unfold cloneCacheHeaders in Hv. by apply map_lookup_filter_Some in Hv as [_ ?]. Qed.
(** The header that names the provider a turn fell back from is not among them: the hit of a turn that was served after a fallback
    says that it fell back. *)
Lemma fallback_replayed :
  cloneCacheHeaders {[CanonicalHeaderKey HeaderRouterFallbackFrom := ["aiand"]; CanonicalHeaderKey HeaderRouterProvider := ["openai"]]}
  = {["X-Router-Fallback-From" := ["aiand"]]}.
Proof. vm_compute. reflexivity. Qed.

(** ** A turn whose decision came from a sidecar *)

(** A decision of a sidecar names no clusters, so once such a turn ended well, was not streamed and was captured, the store indexes an empty list;
    only a strategy whose selection is authoritative keeps away from it. *)
Lemma sidecar_turn_panics `{GoUnicode} `{Lru L} Fault cfg format r routeID req d t w c b : Sidecar.Route Fault r routeID req = Ok d ->
  t.(turn_decision) = d -> semanticCacheAllowed t = true -> t.(cacheConfigured) = true -> t.(stream) = false -> t.(externalID) <> "" ->
  t.(bypassEval) = false -> t.(extraExclusion) = false -> t.(requestAllowedModelsPresent) = false -> captured c = Some (b, 200) ->
  storeTurn (L := L) cfg format t false w c = IndexPanic.
Proof.
  intros HR Hd Ha Hc Hs Hx Hb He Hm Hcap. apply String.eqb_neq in Hx.
  assert (Hmd : exists md, d.(Decision.Metadata) = Some md /\ md.(Metadata.ClusterIDs) = []) by (apply Route_routed in HR as (? & ? & ? & ? & ? & ? & R); rewrite (rt_decision _ _ _ _ _ _ _ _ _ _ _ R); eexists; split; reflexivity).
  destruct Hmd as (md & Emd & Ecl). unfold storeTurn, cacheEligible, cacheMetadataFor. rewrite Hd, Emd, Ha, Hc, Hs, Hx, Hb, He, Hm. simpl.
  by rewrite Hcap, Ecl.
Qed.
