(* ===== verification/Exploration.v ===== *)
(** The routers that randomise the cluster scorer's choice: the explorer of the quality-tie band
    (internal/router/banditexplore/explorer.go) and the Thompson-sampling bandit (internal/router/bandit).  Both wrap
    another router; the random source and the order in which a map is ranged over are arguments. *)

From stdpp Require Import base gmap sets list strings sorting.
From Stdlib Require Import ZArith Lia SpecFloat.
From S2P Require Import Prelude Strings Floats Types Sse Hash Bits Catalog Resolver Bundle Scorer ScorerFacts ClusterRouting.
Open Scope string_scope.
Open Scope Z_scope.

(** FNV-1a over 64 bits (hash/fnv), and the model mixed into the key of the semantic cache. *)
Definition fnv64a (bytes : list Z) : Z := fold_left (fun h b => (Z.lxor h b * 1099511628211) mod 2 ^ 64) bytes 14695981039346656037.
Definition mixModel (h : Z) (model : string) : Z := fnv64a (le_bytes 8 h ++ bytes_of model).
Example fnv_empty : fnv64a [] = 0xcbf29ce484222325. Proof. reflexivity. Qed.
Example fnv_a : fnv64a (bytes_of "a") = 0xaf63dc4c8601ec8c. Proof. vm_compute. reflexivity. Qed.

(** The provider of the request for a model, from the decision's metadata. *)
Definition candidate_provider (md : Metadata.t) (model : string) : option string :=
  match md.(Metadata.CandidateProviders) !! model with
  | Some p => if String.eqb p "" then None else Some p
  | None => None
  end.

(** ** The explorer *)

Module Explore.
Section Explorer.
Context {E : Type}.
(** The wrapped router, the bindings known at boot, the width of the band, [rand.IntN], and the order of a range. *)
Variable inner : PolicyRequest -> res E Decision.t.
Variable providerFor : option (string -> option string).
Variable bandWidth : f32.
Variable intn : Z -> Z.
Variable map_range : gmap string f32 -> list (string * f32).

Definition providerForRequest (dec : Decision.t) (model : string) : option string :=
  match dec.(Decision.Metadata) ≫= (fun md => candidate_provider md model) with
  | Some p => Some p
  | None => match providerFor with Some f => f model | None => None end
  end.
Definition maxScore (scores : gmap string f32) : option f32 :=
  fold_left (fun acc mv => match acc with None => Some mv.2 | Some max => if f_gt mv.2 max then Some mv.2 else Some max end) (map_range scores) None.
(** A model in the band and its provider. *)
Record bandEntry := { model : string; provider : string }.
Definition in_band (scores : gmap string f32) (threshold : f32) (m : string) : bool :=
  match scores !! m with Some v => f_ge v threshold | None => false end.
Definition servableBand (dec : Decision.t) (md : Metadata.t) : list bandEntry :=
  let scores := md.(Metadata.CandidateScores) in
  match maxScore scores with
  | None => []
  | Some max =>
      let threshold := f32_sub max bandWidth in
      let models := sort_strings (List.filter (in_band scores threshold) (map_to_list scores).*1) in
      omap (fun m => if String.eqb m dec.(Decision.Model) then Some {| model := m; provider := dec.(Decision.Provider) |}
                     else (fun p => {| model := m; provider := p |}) <$> providerForRequest dec m) models
  end.
(** The metadata of a decision that may be explored. *)
Definition shouldExplore (dec : Decision.t) : option Metadata.t :=
  if f_le bandWidth f_zero then None
  else match dec.(Decision.Metadata) with
       | Some md => if bool_decide (2 <= size md.(Metadata.CandidateScores))%nat then Some md else None
       | None => None
       end.
Definition annotate_md (m : string) (bandSize : Z) (md : Metadata.t) : Metadata.t :=
  let md := Metadata.set_Propensity (f32_div (f32_of_Z 1) (f32_of_Z bandSize)) md in
  match md.(Metadata.CandidateScores) !! m with Some s => Metadata.set_ChosenScore s md | None => md end.
Definition annotate (dec : Decision.t) (md : Metadata.t) (pick : bandEntry) (bandSize : Z) : Decision.t := {|
  Decision.Provider := pick.(provider); Decision.Model := pick.(model); Decision.Effort := dec.(Decision.Effort);
  Decision.Reason := "explore:band=" +:+ WriteJSONInt bandSize +:+ " " +:+ pick.(model) +:+ " provider=" +:+ pick.(provider) +:+ " base=["
                     +:+ dec.(Decision.Reason) +:+ "]";
  Decision.Metadata := Some md |}.
(** The runner-up against the model served: the best score among the models with a provider, the first by name on a tie. *)
Definition best_peer (dec : Decision.t) (scores : gmap string f32) (served : string) : string * string * f32 :=
  fold_left (fun best m =>
    let '(bestModel, _, bestScore) := best in
    if String.eqb m served then best
    else
      let sc := default f_zero (scores !! m) in
      if (negb (String.eqb bestModel "") && f_le sc bestScore)%bool then best
      else match providerForRequest dec m with None => best | Some p => (m, p, sc) end)
    (sort_strings (map_to_list scores).*1) ("", "", f_zero).
Definition repairBandPair (dec : Decision.t) (served : string) (md : Metadata.t) : Metadata.t :=
  let '(m, p, s) := best_peer dec md.(Metadata.CandidateScores) served in
  Metadata.set_PairedScore s (Metadata.set_PairedProvider p (Metadata.set_PairedModel m md)).
Definition explored (dec : Decision.t) (md : Metadata.t) (pick : bandEntry) (bandSize : Z) : Decision.t :=
  let md := annotate_md pick.(model) bandSize md in
  let md := if String.eqb pick.(model) dec.(Decision.Model) then md
            else repairBandPair dec pick.(model) (Metadata.set_EffectiveKnobsHash (mixModel md.(Metadata.EffectiveKnobsHash) pick.(model)) md) in
  annotate dec md pick bandSize.
Definition Route (req : PolicyRequest) : res E Decision.t :=
  match inner req with
  | Err e => Err e
  | Ok dec =>
      if negb (String.eqb req.(turn).(Request.ForceModel) "") then Ok dec
      else match shouldExplore dec with
           | None => Ok dec
           | Some md =>
               let band := servableBand dec md in
               if bool_decide (length band < 2)%nat then Ok dec
               else match band !! Z.to_nat (intn (Z.of_nat (length band))) with
                    | None => Ok dec
                    | Some pick => Ok (explored dec md pick (Z.of_nat (length band)))
                    end
           end
  end.
End Explorer.
End Explore.

(** ** The bandit *)

Module Bandit.
Record Arm := { Mean : f64; Variance : f64 }.
Notation Posterior := (gmap Z (gmap string Arm)).
Definition f_sqrt : f64 -> f64 := SFsqrt 53 1024.
(** The faults of [LoadPosterior] once the file is parsed: [posterior] gives the cells by the text of their cluster. *)
Inductive PosteriorFault := NoCells | BadCluster (text : string) | NegativeVariance (cid : Z) (model : string).
Definition negative_arm (arms : list (string * Arm)) : option string := fst <$> List.find (fun ma => f_lt ma.2.(Variance) f_zero) arms.
(** [cells] is the file's map, and each cell's, in the order they are ranged over; [Atoi] is [strconv.Atoi]. *)
Definition LoadPosterior (Atoi : string -> option Z) (cells : list (string * list (string * Arm))) : res PosteriorFault Posterior :=
  match cells with
  | [] => Err NoCells
  | _ =>
      fold_left (fun acc cell =>
        let! cells := acc in
        match Atoi cell.1 with
        | None => Err (BadCluster cell.1)
        | Some cid =>
            match negative_arm cell.2 with
            | Some m => Err (NegativeVariance cid m)
            | None => Ok (<[cid := list_to_map cell.2]> cells)
            end
        end) cells (Ok ∅)
  end.

(** Standard normal variates, drawn one after the other: the n-th is [norm n]. *)
Section Sampling.
Variable norm : nat -> f64.
Definition draw (arm : Arm) (n : nat) : f64 * nat :=
  if f_gt arm.(Variance) f_zero then (f64_add arm.(Mean) (f64_mul (norm n) (f_sqrt arm.(Variance))), S n) else (arm.(Mean), n).
(** [Posterior.Sample]: the best draw over the clusters that have an arm for the model. *)
Definition Sample (p : Posterior) (clusterIDs : list Z) (model : string) (n : nat) : option f64 * nat :=
  fold_left (fun acc cid =>
    let '(best, n) := acc in
    match p !! cid ≫= (fun cell => cell !! model) with
    | None => acc
    | Some arm =>
        let '(v, n) := draw arm n in
        (match best with Some b => if f_gt v b then Some v else Some b | None => Some v end, n)
    end) clusterIDs (None, n).
Definition sample_or (p : Posterior) (clusterIDs : list Z) (model : string) (fallback : f64) (n : nat) : f64 * nat :=
  let '(s, n) := Sample p clusterIDs model n in (default fallback s, n).
End Sampling.

Record candidate := { model : string; provider : string; sample : f64; fallback : f64 }.
Definition before (a b : candidate) : Prop :=
  if f_eq a.(sample) b.(sample) then str_le a.(model) b.(model) else f_gt a.(sample) b.(sample) = true.
#[global] Instance before_dec : RelDecision before.
Proof. intros a b. unfold before. destruct (f_eq a.(sample) b.(sample)); apply _. Defined.

Section Router.
Context {E : Type}.
Variable inner : option (PolicyRequest -> res E Decision.t).
Variable post : option Posterior.
Variable norm : nat -> f64.
Variable trials : Z.
Variable map_range : gmap string f32 -> list (string * f32).
(** [%.4g], for the reason. *)
Variable format_4g : f64 -> string.
Inductive Fault := ErrBanditUnavailable | Inner (e : E).
Definition defaultPropensityTrials : Z := 1024.

Definition providerFor (dec : Decision.t) (md : Metadata.t) (m : string) : option string :=
  match candidate_provider md m with
  | Some p => Some p
  | None => if (String.eqb m dec.(Decision.Model) && negb (String.eqb dec.(Decision.Provider) ""))%bool then Some dec.(Decision.Provider) else None
  end.
(** The candidates, in the order of the range, each drawn once. *)
Definition candidate_step (p : Posterior) (dec : Decision.t) (md : Metadata.t) (acc : list candidate * nat) (mv : string * f32) : list candidate * nat :=
  let '(cs, n) := acc in
  match providerFor dec md mv.1 with
  | None => acc
  | Some pr =>
      let fb := f64_of_f32 mv.2 in
      let '(s, n) := sample_or norm p md.(Metadata.ClusterIDs) mv.1 fb n in
      ((cs ++ [{| model := mv.1; provider := pr; sample := s; fallback := fb |}])%list, n)
  end.
Definition candidates (p : Posterior) (dec : Decision.t) (md : Metadata.t) : list candidate * nat :=
  fold_left (candidate_step p dec md) (map_range md.(Metadata.CandidateScores)) ([], 0%nat).
(** One replay of the selection: the model that wins. *)
Definition replay (p : Posterior) (clusterIDs : list Z) (cands : list candidate) (n : nat) : string * nat :=
  let '(best, _, n) := fold_left (fun acc c =>
    let '(bestModel, bestVal, n) := acc in
    let '(v, n) := sample_or norm p clusterIDs c.(model) c.(fallback) n in
    if (String.eqb bestModel "" || f_gt v bestVal || (f_eq v bestVal && String.ltb c.(model) bestModel))%bool then (c.(model), v, n) else (bestModel, bestVal, n))
    cands ("", f_zero, n) in (best, n).
Definition wins (p : Posterior) (clusterIDs : list Z) (cands : list candidate) (served : string) (n : nat) : Z :=
  fst (Nat.iter (Z.to_nat trials) (fun acc => let '(w, n) := acc in
    let '(best, n) := replay p clusterIDs cands n in (if String.eqb best served then w + 1 else w, n)) (0, n)).
Definition propensity (p : Posterior) (clusterIDs : list Z) (cands : list candidate) (served : string) (n : nat) : f32 :=
  if ((trials <=? 0) || bool_decide (length cands < 2)%nat)%bool then f32_of_Z 1
  else f32_div (f32_of_Z (Z.max 1 (wins p clusterIDs cands served n))) (f32_of_Z trials).
Definition annotate (dec : Decision.t) (md : Metadata.t) (pick : candidate) (prop : f32) : Decision.t :=
  let md' := Metadata.set_Propensity prop md in
  let md' := match md.(Metadata.CandidateScores) !! pick.(model) with Some s => Metadata.set_ChosenScore s md' | None => md' end in
  let md' := if (negb (String.eqb pick.(model) dec.(Decision.Model)) && negb (md.(Metadata.EffectiveKnobsHash) =? 0))%bool
             then Metadata.set_EffectiveKnobsHash (mixModel md.(Metadata.EffectiveKnobsHash) pick.(model)) md' else md' in {|
  Decision.Provider := pick.(provider); Decision.Model := pick.(model); Decision.Effort := dec.(Decision.Effort);
  Decision.Reason := "bandit:ts p=" +:+ format_4g (f64_of_f32 prop) +:+ " sample=" +:+ format_4g pick.(sample) +:+ " " +:+ pick.(model)
                     +:+ " provider=" +:+ pick.(provider) +:+ " base=[" +:+ dec.(Decision.Reason) +:+ "]";
  Decision.Metadata := Some md' |}.
Definition resample (p : Posterior) (dec : Decision.t) (md : Metadata.t) : Decision.t :=
  let '(cs, n) := candidates p dec md in
  if bool_decide (length cs < 2)%nat then dec
  else match merge_sort before cs with
       | pick :: _ => annotate dec md pick (propensity p md.(Metadata.ClusterIDs) (merge_sort before cs) pick.(model) n)
       | [] => dec
       end.
Definition Route (req : PolicyRequest) : res Fault Decision.t :=
  match inner, post with
  | Some inner, Some p =>
      match inner req with
      | Err e => Err (Inner e)
      | Ok dec =>
          match dec.(Decision.Metadata) with
          | Some md =>
              if bool_decide (size md.(Metadata.CandidateScores) < 2)%nat then Ok dec
              else match md.(Metadata.ClusterIDs) with [] => Ok dec | _ => Ok (resample p dec md) end
          | None => Ok dec
          end
      end
  | _, _ => Err ErrBanditUnavailable
  end.
End Router.
End Bandit.

(** ** The scorer's decision as the decorators see it *)

Section Scored.
Context `{GoUnicode}.
Lemma offered_provider s r pool m : well_formed s -> eligible_pool s r = Ok pool -> m ∈ pool -> candidate_providers s r pool !! m = Some (provider_for s r m).
Proof.
  intros W P Hm. apply eligible_hard in P as (hard & P & ->). pose proof (preferred_sub _ _ _ Hm) as Hh.
  apply (hard_pool_elem s r hard W) in P as (_ & g & G & I). apply I in Hh as [Hg _]. apply (gated_elem s r g W G) in Hg.
  unfold candidate_providers, provider_for, resolvedProvider. destruct (Request.EnabledProviders r) as [en|].
  - destruct Hg as (p & Hp). pose proof (nodup_map _ _ _ (providers_nodup s en W) Hp) as Hl. rewrite Hl. apply elem_of_list_to_map_1'.
    + intros y Hy. apply list_elem_of_omap in Hy as (x & _ & Hx). destruct (list_to_map (providers_of s en) !! x) eqn:Ex; [|discriminate].
      injection Hx as -> ->. congruence.
    + apply list_elem_of_omap. exists m. split; [exact Hm|]. by rewrite Hl.
  - rewrite lookup_empty, (wf_models s W) in *. apply list_elem_of_fmap in Hg as (c & -> & Hc).
    destruct (lookupCandidate s (Entry.Model c)) as [c'|] eqn:L.
    + apply lookup_chosen in L as [Hc' Em]. apply nodup_map.
      * rewrite <- list_fmap_compose. pose proof (wf_nodup s W) as N. rewrite (wf_models s W) in N. exact N.
      * apply list_elem_of_fmap. exists c'. rewrite Em. auto.
    + unfold lookupCandidate in L. apply list_elem_of_In in Hc. pose proof (find_none _ _ L c Hc) as F. cbn in F. rewrite String.eqb_refl in F. discriminate.
Qed.
(** Every model scored is eligible and comes with its provider of the request. *)
Lemma scored_offer s req d : well_formed s -> Scorer.Route s req = Ok d -> exists pool md,
  eligible_pool s req.(turn) = Ok pool /\ d.(Decision.Metadata) = Some md /\
  d.(Decision.Model) ∈ pool /\ d.(Decision.Provider) = provider_for s req.(turn) d.(Decision.Model) /\
  forall m, is_Some (md.(Metadata.CandidateScores) !! m) -> m ∈ pool /\ candidate_provider md m = Some (provider_for s req.(turn) m).
Proof.
  intros W HR. apply Route_decided in HR as (vec & pool & sh & m & score & chosen & _ & P & _ & A & N & Lk & ->).
  apply lookup_chosen in Lk as [_ Em]. pose proof (first_best_elem _ _ _ _ (argmax_best _ _ _ _ A N)) as I.
  unfold cluster_decision. destruct (runnerUp _ _ _) as [paired ps]. eexists pool, _. split; [exact P|]. split; [reflexivity|]. cbn [Decision.Model Decision.Provider].
  split; [rewrite Em; exact I|]. split; [reflexivity|]. intros m' [v Hv]. cbn [Metadata.CandidateScores] in Hv.
  assert (Hm' : m' ∈ pool).
  { apply elem_of_list_to_map_2 in Hv. apply list_elem_of_omap in Hv as (x & Hx & E). destruct (sh.1 !! x); [|discriminate]. injection E as -> _. exact Hx. }
  split; [exact Hm'|]. unfold candidate_provider. cbn [Metadata.CandidateProviders]. rewrite (offered_provider s _ pool m' W P Hm').
  apply eligible_hard in P as (hard & P & ->). destruct (provider_bound s _ hard m' W P (preferred_sub _ _ _ Hm')) as [Hne _].
  apply String.eqb_neq in Hne. rewrite Hne. reflexivity.
Qed.
End Scored.

(** ** Sorting by an order that is total only on the elements at hand *)

Section SortAgree.
Context {A : Type} (R R' : relation A) `{!RelDecision R, !RelDecision R'}.
Fixpoint flatten (st : list (option (list A))) : list A :=
  match st with [] => [] | None :: st => flatten st | Some l :: st => (l ++ flatten st)%list end.
Definition agree (l : list A) : Prop := forall x y, x ∈ l -> y ∈ l -> R x y <-> R' x y.
Lemma agree_sub l l' : (forall x, x ∈ l -> x ∈ l') -> agree l' -> agree l.
Proof. unfold agree. eauto. Qed.
Lemma list_merge_agree l1 : forall l2, agree (l1 ++ l2) -> list_merge R l1 l2 = list_merge R' l1 l2.
Proof.
  induction l1 as [|x l1 IH1]; intros l2; [intros _; by rewrite !list_merge_nil_l|]. induction l2 as [|y l2 IH2]; intros Ha; [done|].
  rewrite !list_merge_cons. rewrite (decide_ext (R x y) (R' x y)) by (apply Ha; set_solver).
  destruct (decide (R' x y)); f_equal; [apply IH1|apply IH2]; eapply agree_sub; [|exact Ha| |exact Ha]; set_solver.
Qed.
Lemma flatten_push st : forall l x, x ∈ flatten (merge_list_to_stack R st l) <-> x ∈ l \/ x ∈ flatten st.
Proof.
  induction st as [|[l'|] st IH]; intros l x; simpl; [set_solver| |set_solver]. rewrite IH, (merge_Permutation R l' l). set_solver.
Qed.
Lemma push_agree st : forall l, agree (l ++ flatten st) -> merge_list_to_stack R st l = merge_list_to_stack R' st l.
Proof.
  induction st as [|[l'|] st IH]; intros l Ha; simpl in *; [done| |done].
  rewrite <- list_merge_agree by (eapply agree_sub; [|exact Ha]; set_solver). f_equal. apply IH. eapply agree_sub; [|exact Ha].
  intros x. rewrite elem_of_app, (merge_Permutation R l' l). set_solver.
Qed.
Lemma stack_elem st x : x ∈ merge_stack R st <-> x ∈ flatten st.
Proof. induction st as [|[l|] st IH]; simpl; [done| |done]. rewrite (merge_Permutation R). set_solver. Qed.
Lemma stack_agree st : agree (flatten st) -> merge_stack R st = merge_stack R' st.
Proof.
  induction st as [|[l|] st IH]; intros Ha; simpl in *; [done| |auto]. rewrite <- IH by (eapply agree_sub; [|exact Ha]; set_solver).
  apply list_merge_agree. eapply agree_sub; [|exact Ha]. intros x. rewrite elem_of_app, stack_elem. set_solver.
Qed.
Lemma sort_aux_agree l : forall st, agree (l ++ flatten st) -> merge_sort_aux R st l = merge_sort_aux R' st l.
Proof.
  induction l as [|x l IH]; intros st Ha; simpl; [by apply stack_agree|].
  rewrite <- push_agree by (eapply agree_sub; [|exact Ha]; set_solver). apply IH. eapply agree_sub; [|exact Ha].
  intros y. rewrite elem_of_app, flatten_push. set_solver.
Qed.
Lemma sort_agree l : agree l -> merge_sort R l = merge_sort R' l.
Proof. intros Ha. apply sort_aux_agree. simpl. by rewrite app_nil_r. Qed.
End SortAgree.
(** The head of a sorted list comes before every element, when the order agrees with a total one on the list. *)
Lemma sort_head {A} (R R' : relation A) `{!RelDecision R, !RelDecision R', !Transitive R', !Total R'} l x l' y :
  agree R R' l -> merge_sort R l = x :: l' -> y ∈ l -> x = y \/ R x y.
Proof.
  intros Ha E Hy. pose proof (StronglySorted_merge_sort R' l) as S. rewrite <- (sort_agree R R') in S by done. rewrite E in S.
  pose proof (merge_sort_Permutation R l) as P. rewrite E in P. apply StronglySorted_inv in S as [_ F].
  assert (Hy' : y ∈ x :: l') by (by rewrite P). apply elem_of_cons in Hy' as [->|Hy']; [by left|right].
  rewrite Forall_forall in F. apply Ha; [rewrite <- P; set_solver|done|by apply F].
Qed.

(** ** The band *)

Lemma best_fold (l : list (string * f32)) : forall acc r,
  fold_left (fun acc mv => match acc with None => Some mv.2 | Some max => if f_gt mv.2 max then Some mv.2 else Some max end) l acc = Some r ->
  (acc = Some r \/ r ∈ l.*2) /\ ((forall v, v ∈ l.*2 -> is_nan v = false) -> (forall a, acc = Some a -> is_nan a = false) ->
    (forall v, v ∈ l.*2 -> f_gt v r = false) /\ (forall a, acc = Some a -> f_gt a r = false)).
Proof.
  induction l as [|[m v] l IH]; intros acc r Hf; simpl in *.
  - subst acc. split; [by left|]. intros _ _. split; [set_solver|]. intros a [= ->]. apply f_lt_irrefl.
  - set (acc' := match acc with None => Some v | Some max => if f_gt v max then Some v else Some max end) in *.
    destruct (IH acc' r Hf) as [Hor Hmax]. split.
    + destruct Hor as [Hor|]; [|set_solver]. unfold acc' in Hor. destruct acc as [a|]; [destruct (f_gt v a)|]; simplify_eq; set_solver.
    + intros Hnan Hacc. assert (Hv : is_nan v = false) by (apply Hnan; set_solver).
      destruct (Hmax) as [Hl Ha]; [set_solver| |].
      { intros a. unfold acc'. destruct acc as [a0|]; [destruct (f_gt v a0)|]; intros [= <-]; auto. }
      assert (Hboth : f_gt v r = false /\ forall a, acc = Some a -> f_gt a r = false).
      { unfold acc' in Ha. destruct acc as [a|]; [|split; [by apply Ha|done]]. specialize (Hacc a eq_refl). destruct (f_gt v a) eqn:Hg.
        - specialize (Ha v eq_refl). split; [done|]. intros a' [= <-]. destruct (f_gt a r) eqn:Hra; [|done].
          pose proof (f_lt_trans r a v Hra Hg) as Hrv. unfold f_gt, f_lt in *. congruence.
        - specialize (Ha a eq_refl). split; [|by intros a' [= <-]]. destruct (f_gt v r) eqn:Hrv; [|done].
          pose proof (f_lt_not_lt_trans r v a Hrv Hacc Hg) as Hra. unfold f_gt, f_lt in *. congruence. }
      destruct Hboth. split; [|done]. set_solver.
Qed.

Section ExploreFacts.
Context {E : Type} (inner : PolicyRequest -> res E Decision.t) (providerFor : option (string -> option string)) (bandWidth : f32) (intn : Z -> Z)
  (map_range : gmap string f32 -> list (string * f32)).
Context (Horder : forall m, map_range m ≡ₚ map_to_list m).
(** The top of a set of scores: one of them, that none exceeds. *)
Definition top_score (scores : gmap string f32) (top : f32) : Prop :=
  (exists m, scores !! m = Some top) /\ ((forall m v, scores !! m = Some v -> is_nan v = false) -> forall m v, scores !! m = Some v -> f_gt v top = false).
Lemma max_is_top scores top : Explore.maxScore map_range scores = Some top -> top_score scores top.
Proof.
  intros Hm. destruct (best_fold _ _ _ Hm) as [[|Hin] Hmax]; [done|].
  assert (Hval : forall v, v ∈ (map_range scores).*2 <-> exists m, scores !! m = Some v).
  { intros v. rewrite (Horder scores), list_elem_of_fmap. split.
    - intros ([m w] & -> & Hmw). exists m. by apply elem_of_map_to_list.
    - intros [m Hv]. exists (m, v). split; [done|]. by apply elem_of_map_to_list. }
  split; [by apply Hval|]. intros Hnan. destruct Hmax as [Hl _]; [|done|].
  - intros v [m Hv]%Hval. eauto.
  - intros m v Hv. apply Hl, Hval. eauto.
Qed.
(** The band when every scored model has a provider: the models within the width of the top, each once. *)
Lemma band_models dec md top : (forall m, is_Some (md.(Metadata.CandidateScores) !! m) -> is_Some (candidate_provider md m)) ->
  dec.(Decision.Metadata) = Some md -> Explore.maxScore map_range md.(Metadata.CandidateScores) = Some top ->
  let band := Explore.servableBand providerFor bandWidth map_range dec md in
  NoDup (Explore.model <$> band) /\
  forall e, e ∈ band <-> (exists v, md.(Metadata.CandidateScores) !! Explore.model e = Some v /\ f_ge v (f32_sub top bandWidth) = true) /\
    Some (Explore.provider e) = if String.eqb (Explore.model e) dec.(Decision.Model) then Some dec.(Decision.Provider) else candidate_provider md (Explore.model e).
Proof.
  intros Hp Hmd Htop. unfold Explore.servableBand. rewrite Htop. cbn zeta. set (scores := Metadata.CandidateScores md) in *.
  set (f := fun m => if String.eqb m (Decision.Model dec) then _ else _).
  set (keys := List.filter (Explore.in_band scores (f32_sub top bandWidth)) (map_to_list scores).*1).
  assert (Hkeys : forall m, m ∈ keys <-> exists v, scores !! m = Some v /\ f_ge v (f32_sub top bandWidth) = true).
  { intros m. unfold keys. rewrite list_elem_of_In, filter_In, <- list_elem_of_In, list_elem_of_fmap. unfold Explore.in_band. split.
    - intros [([m' w] & -> & Hmw%elem_of_map_to_list) Hb]. simpl in *. unfold f32 in *; rewrite Hmw in Hb. eauto.
    - intros (v & Hv & Hb). rewrite Hv. split; [|done]. exists (m, v). split; [done|]. by apply elem_of_map_to_list. }
  assert (Hf : forall m, m ∈ keys -> exists p, f m = Some {| Explore.model := m; Explore.provider := p |} /\
    Some p = if String.eqb m (Decision.Model dec) then Some dec.(Decision.Provider) else candidate_provider md m).
  { intros m Hm%Hkeys. unfold f. destruct (String.eqb m _); [eauto|]. unfold Explore.providerForRequest. rewrite Hmd. cbn.
    destruct Hm as (v & Hv & _). destruct (Hp m) as [p ->]; [exists v; exact Hv|]. cbn. eauto. }
  assert (Hperm : sort_strings keys ≡ₚ keys) by apply merge_sort_Permutation.
  assert (Hnd : NoDup (sort_strings keys)).
  { rewrite Hperm. apply NoDup_ListNoDup, List.NoDup_filter, NoDup_ListNoDup, NoDup_fst_map_to_list. }
  assert (Hin : forall m, m ∈ sort_strings keys -> m ∈ keys) by (intros m; by rewrite Hperm).
  split.
  - revert Hnd Hin. clear Hperm. induction (sort_strings keys) as [|m l IH]; intros Hnd Hin; [constructor|]. cbn.
    destruct (Hf m) as (p & -> & _); [apply Hin; set_solver|]. cbn. apply NoDup_cons in Hnd as [Hm Hnd]. constructor; [|apply IH; [done|set_solver]].
    intros Hx. apply Hm. apply list_elem_of_fmap in Hx as (e & -> & He). apply list_elem_of_omap in He as (m' & Hm' & Hfm).
    destruct (Hf m') as (p' & Ef & _); [apply Hin; set_solver|]. rewrite Ef in Hfm. by injection Hfm as <-.
  - intros e. rewrite list_elem_of_omap. split.
    + intros (m & Hm & He). rewrite Hperm in Hm. destruct (Hf m Hm) as (p & Ef & Hprov). rewrite Ef in He. injection He as <-. cbn. split; [by apply Hkeys|done].
    + intros [Hm Hprov]. apply Hkeys in Hm. exists (Explore.model e). split; [by rewrite Hperm|].
      destruct (Hf _ Hm) as (p & Ef & Hprov'). rewrite Ef. rewrite <- Hprov in Hprov'. injection Hprov' as ->. by destruct e.
Qed.
End ExploreFacts.

(** ** Properties *)

(** What a served model must be, whoever chose it: in the pool of the request, served by the request's binding of it. *)
Definition servable `{GoUnicode} (s : Scorer) (av : gset string) (r : Request.t) (m p : string) : Prop :=
  (exists pool, eligible_pool s r = Ok pool /\ m ∈ pool) /\ p = provider_for s r m /\ p <> "" /\
  p ∈ default av r.(Request.EnabledProviders) /\ in_opt_set m r.(Request.ExcludedModels) = false.
Lemma pool_servable `{GoUnicode} b c e av s r pool m : NewScorer b c e av = Ok s -> eligible_pool s r = Ok pool -> m ∈ pool -> servable s av r m (provider_for s r m).
Proof.
  intros HN P Hm. pose proof (NewScorer_wf b c e av s HN) as W. apply NewScorer_checks in HN as (_ & _ & _ & _ & _ & Es).
  assert (A : s.(availableProviders) = av) by (rewrite Es; destruct (IsV2 b); reflexivity).
  split; [eauto|]. split; [done|]. apply eligible_hard in P as (hard & P & ->). pose proof (preferred_sub _ _ _ Hm) as Hh. rewrite <- A.
  destruct (provider_bound s r hard m W P Hh) as [Hne Hin]. split; [done|]. split; [done|].
  apply (hard_pool_elem s r hard W) in P as (_ & g & G & I). apply I in Hh as [_ Hx]. exact Hx.
Qed.

(** The decision that serves a pick. *)
Lemma explored_fields providerFor dec md pick n v : md.(Metadata.CandidateScores) !! Explore.model pick = Some v ->
  let d := Explore.explored providerFor dec md pick n in
  d.(Decision.Model) = Explore.model pick /\ d.(Decision.Provider) = Explore.provider pick /\
  exists md', d.(Decision.Metadata) = Some md' /\ md'.(Metadata.Propensity) = f32_div (f32_of_Z 1) (f32_of_Z n) /\ md'.(Metadata.ChosenScore) = v /\
    md'.(Metadata.EffectiveKnobsHash) = if String.eqb (Explore.model pick) dec.(Decision.Model) then md.(Metadata.EffectiveKnobsHash)
                                        else mixModel md.(Metadata.EffectiveKnobsHash) (Explore.model pick).
Proof.
  intros Hv. unfold Explore.explored, Explore.annotate, Explore.annotate_md, Explore.repairBandPair.
  generalize (f32_div (f32_of_Z 1) (f32_of_Z n)). intros x. generalize (WriteJSONInt n). intros text. cbv zeta. cbn [Metadata.set_Propensity Metadata.CandidateScores].
  unfold f32 in *. rewrite Hv. split; [reflexivity|]. split; [reflexivity|]. cbn [Decision.Metadata]. eexists. split; [reflexivity|].
  destruct (String.eqb (Explore.model pick) (Decision.Model dec)); [auto|]. destruct (Explore.best_peer _ _ _ _) as [[? ?] ?]. auto.
Qed.
Section Decorated.
Context `{GoUnicode}.
End Decorated.

(** ** The draws of the bandit *)

Lemma f_eq_key x y : f_eq x y = true <-> is_nan x = false /\ is_nan y = false /\ key x = key y.
Proof.
  destruct x as [[]|[]| |[] m e], y as [[]|[]| |[] n d]; unfold f_eq, SFeqb, SFcompare; cbn;
    try (split; [discriminate|intros (? & ? & ?); congruence]); try (split; [auto|reflexivity]).
  all: change (Pos.compare_cont Eq m n) with (m ?= n)%positive.
  all: destruct (Z.compare_spec e d), (Pos.compare_spec m n); cbn; subst;
    (split; [first [discriminate | auto]|first [reflexivity | intros (_ & _ & K); injection K as; lia]]).
Qed.
(** The order by rank, draw and name, total whatever the draws are. *)
Definition rank (c : Bandit.candidate) : Z := if is_nan c.(Bandit.sample) then 1 else 0.
Definition ordered (a b : Bandit.candidate) : Prop :=
  rank a < rank b \/ (rank a = rank b /\
    (key_lt (key b.(Bandit.sample)) (key a.(Bandit.sample)) \/ (key a.(Bandit.sample) = key b.(Bandit.sample) /\ str_le a.(Bandit.model) b.(Bandit.model)))).
#[global] Instance key_lt_dec : RelDecision key_lt.
Proof. intros [[a1 a2] a3] [[b1 b2] b3]. unfold key_lt. apply _. Defined.
#[global] Instance ordered_dec : RelDecision ordered.
Proof. intros a b. unfold ordered. apply _. Defined.
#[global] Instance ordered_trans : Transitive ordered.
Proof.
  intros a b c [Hab|[Hab [Hab'|[Eab Sab]]]] [Hbc|[Hbc [Hbc'|[Ebc Sbc]]]]; unfold ordered; try (left; lia); right; (split; [lia|]).
  - left. eauto using key_lt_trans.
  - left. by rewrite <- Ebc.
  - left. by rewrite Eab.
  - right. split; [congruence|]. etrans; eauto.
Qed.
#[global] Instance ordered_total : Total ordered.
Proof.
  intros a b. unfold ordered. destruct (Z.lt_trichotomy (rank a) (rank b)) as [|[Er|]]; [left; by left| |right; by left].
  destruct (key_lt_total (key (Bandit.sample a)) (key (Bandit.sample b))) as [|[Ek|]]; [right; right; auto| |left; right; auto].
  destruct (str_le_total (Bandit.model a) (Bandit.model b)); [left|right]; right; auto.
Qed.
Lemma str_ltb_le a b : String.ltb a b = true -> str_le a b.
Proof. unfold String.ltb, str_le, String.leb. by destruct (String.compare a b). Qed.
Lemma str_ltb_ge a b : String.ltb a b = false -> str_le b a.
Proof. unfold String.ltb, str_le, String.leb. rewrite (String.compare_antisym b a). by destruct (String.compare a b). Qed.
Lemma before_ordered l : (forall c, c ∈ l -> is_nan c.(Bandit.sample) = false) -> agree Bandit.before ordered l.
Proof.
  intros Hn a b Ha Hb. apply Hn in Ha, Hb. unfold Bandit.before, ordered, rank. rewrite Ha, Hb.
  destruct (f_eq (Bandit.sample a) (Bandit.sample b)) eqn:E.
  - apply f_eq_key in E as (_ & _ & ->). split; [intros; right; split; [done|]; right; auto|]. intros [|[_ [Hlt|[_ ?]]]]; [lia| |done].
    destruct (key _) as [[]]; simpl in Hlt; lia.
  - split.
    + intros Hgt. right. split; [done|]. left. by apply f_lt_key in Hgt as (_ & _ & ?).
    + intros [|[_ [Hlt|[Ek _]]]]; [lia| |].
      * apply f_lt_key. auto.
      * assert (X : f_eq (Bandit.sample a) (Bandit.sample b) = true) by (by apply f_eq_key). congruence.
Qed.

Section BanditFacts.
Context (norm : nat -> f64) (p : Bandit.Posterior) (map_range : gmap string f32 -> list (string * f32)).
Context (Horder : forall m, map_range m ≡ₚ map_to_list m).
(** What a candidate is: a scored model with its provider, drawn from the posterior, or its score when no cluster has an arm. *)
Definition drawn (md : Metadata.t) (c : Bandit.candidate) : Prop :=
  exists v n, md.(Metadata.CandidateScores) !! Bandit.model c = Some v /\ candidate_provider md (Bandit.model c) = Some (Bandit.provider c) /\
    Bandit.fallback c = f64_of_f32 v /\
    Bandit.sample c = default (f64_of_f32 v) (fst (Bandit.Sample norm p md.(Metadata.ClusterIDs) (Bandit.model c) n)).
Lemma candidates_fold dec md l : forall cs n, (forall mv, mv ∈ l -> md.(Metadata.CandidateScores) !! mv.1 = Some mv.2) ->
  (forall mv, mv ∈ l -> is_Some (candidate_provider md mv.1)) -> Forall (drawn md) cs ->
  let r := fold_left (Bandit.candidate_step norm p dec md) l (cs, n) in
  Forall (drawn md) r.1 /\ Bandit.model <$> r.1 = ((Bandit.model <$> cs) ++ l.*1)%list.
Proof.
  induction l as [|[m v] l IH]; intros cs n Hs Hp Hcs; cbn [fold_left]; [cbn; by rewrite app_nil_r|].
  destruct (Hp (m, v)) as [pr Hpr]; [set_solver|]. cbn in Hpr.
  destruct (Bandit.sample_or norm p md.(Metadata.ClusterIDs) m (f64_of_f32 v) n) as [x n'] eqn:E.
  assert (Estep : Bandit.candidate_step norm p dec md (cs, n) (m, v) =
    ((cs ++ [{| Bandit.model := m; Bandit.provider := pr; Bandit.sample := x; Bandit.fallback := f64_of_f32 v |}])%list, n')).
  { unfold Bandit.candidate_step, Bandit.providerFor. cbn [fst snd]. rewrite Hpr. cbv zeta. by rewrite E. }
  rewrite Estep.
  destruct (IH (cs ++ [{| Bandit.model := m; Bandit.provider := pr; Bandit.sample := x; Bandit.fallback := f64_of_f32 v |}])%list n') as [Hf Hm];
    [set_solver|set_solver| |].
  - apply Forall_app. split; [done|]. apply Forall_singleton. exists v, n. cbn. split; [apply (Hs (m, v)); set_solver|]. split; [done|]. split; [done|].
    unfold Bandit.sample_or in E. destruct (Bandit.Sample norm p _ m n) as [o n'']. by injection E as <- _.
  - split; [exact Hf|]. etrans; [exact Hm|]. rewrite fmap_app, <- app_assoc. done.
Qed.
Lemma candidates_drawn dec md : (forall m, is_Some (md.(Metadata.CandidateScores) !! m) -> is_Some (candidate_provider md m)) ->
  Forall (drawn md) (Bandit.candidates norm map_range p dec md).1 /\
  Bandit.model <$> (Bandit.candidates norm map_range p dec md).1 ≡ₚ (map_to_list md.(Metadata.CandidateScores)).*1.
Proof.
  intros Hp. unfold Bandit.candidates.
  assert (Hl : forall mv, mv ∈ map_range md.(Metadata.CandidateScores) -> md.(Metadata.CandidateScores) !! mv.1 = Some mv.2).
  { intros [m v]. rewrite (Horder _). apply elem_of_map_to_list. }
  destruct (candidates_fold dec md (map_range md.(Metadata.CandidateScores)) [] 0%nat) as [Hf Hm]; [exact Hl| |constructor|].
  - intros mv Hmv. apply Hp. exists mv.2. by apply Hl.
  - split; [exact Hf|]. rewrite Hm. cbn. by rewrite (Horder _).
Qed.
(** The winners of a run of replays, each drawing on from where the one before stopped. *)
Fixpoint replay_winners (ids : list Z) (cands : list Bandit.candidate) (k : nat) (n : nat) : list string :=
  match k with
  | O => []
  | S k => let '(best, n') := Bandit.replay norm p ids cands n in best :: replay_winners ids cands k n'
  end.
Lemma wins_count trials ids cands served n :
  Bandit.wins norm trials p ids cands served n = Z.of_nat (length (List.filter (fun m => String.eqb m served) (replay_winners ids cands (Z.to_nat trials) n))).
Proof.
  unfold Bandit.wins. generalize (Z.to_nat trials). intros k.
  assert (X : forall k w n, fst (Nat.iter k (fun acc => let '(w, n) := acc in
    let '(best, n) := Bandit.replay norm p ids cands n in (if String.eqb best served then w + 1 else w, n)) (w, n)) =
    w + Z.of_nat (length (List.filter (fun m => String.eqb m served) (replay_winners ids cands k n)))).
  { clear k n. intros k. induction k as [|k IH]; intros w n; [cbn; lia|]. rewrite Nat.iter_succ_r. cbn [replay_winners].
    destruct (Bandit.replay norm p ids cands n) as [best n']. rewrite IH. cbn [List.filter]. destruct (String.eqb best served); cbn [length]; lia. }
  apply X.
Qed.
(** A replay draws every candidate anew; when no draw is NaN the greatest wins, the first by name on a tie. *)
Definition replay_won (md : Metadata.t) (cands : list Bandit.candidate) (winner : string) : Prop :=
  exists redrawn, Forall (drawn md) redrawn /\ Bandit.model <$> redrawn = Bandit.model <$> cands /\
    ((forall c, c ∈ redrawn -> is_nan c.(Bandit.sample) = false /\ c.(Bandit.model) <> "") ->
     exists c, c ∈ redrawn /\ c.(Bandit.model) = winner /\ forall c', c' ∈ redrawn -> c = c' \/ Bandit.before c c').
Definition redraw (c : Bandit.candidate) (v : f64) : Bandit.candidate :=
  {| Bandit.model := c.(Bandit.model); Bandit.provider := c.(Bandit.provider); Bandit.sample := v; Bandit.fallback := c.(Bandit.fallback) |}.
Definition leads (redrawn : list Bandit.candidate) (m : string) (v : f64) : Prop :=
  (redrawn = [] /\ m = "") \/ exists c, c ∈ redrawn /\ c.(Bandit.model) = m /\ c.(Bandit.sample) = v /\ forall c', c' ∈ redrawn -> c = c' \/ ordered c c'.
Lemma leads_step redrawn m v c : (forall x, x ∈ (redrawn ++ [c])%list -> is_nan x.(Bandit.sample) = false /\ x.(Bandit.model) <> "") ->
  leads redrawn m v ->
  if (String.eqb m "" || f_gt c.(Bandit.sample) v || (f_eq c.(Bandit.sample) v && String.ltb c.(Bandit.model) m))%bool
  then leads (redrawn ++ [c]) c.(Bandit.model) c.(Bandit.sample) else leads (redrawn ++ [c]) m v.
Proof.
  intros Hok L.
  assert (Hag : agree Bandit.before ordered (redrawn ++ [c])%list) by (apply before_ordered; intros x Hx; by apply Hok).
  assert (Hc : c ∈ (redrawn ++ [c])%list) by set_solver.
  destruct L as [[-> ->]|(b & Hb & <- & <- & Hbest)].
  - cbn. right. exists c. split; [set_solver|]. split; [done|]. split; [done|]. intros c' Hc'. left. set_solver.
  - destruct (Hok b) as [Hn Hne]; [set_solver|]. rewrite (proj2 (String.eqb_neq _ _) Hne). cbn [orb].
    destruct (_ || _)%bool eqn:E.
    + assert (Hcb : ordered c b).
      { apply Hag; [set_solver..|]. unfold Bandit.before. apply orb_true_iff in E as [E|E].
        - destruct (f_eq _ _) eqn:Q; [|exact E]. apply f_lt_key in E as (_ & _ & E). apply f_eq_key in Q as (_ & _ & Q). rewrite Q in E.
          destruct (key _) as [[]]; simpl in E; lia.
        - apply andb_true_iff in E as [-> E]. by apply str_ltb_le. }
      right. exists c. split; [set_solver|]. split; [done|]. split; [done|]. intros c' Hc'.
      apply elem_of_app in Hc' as [Hc'|Hc']; [|left; set_solver]. destruct (Hbest c' Hc') as [<-|?]; right; [done|]. by etrans.
    + right. exists b. split; [set_solver|]. split; [done|]. split; [done|]. intros c' Hc'.
      apply elem_of_app in Hc' as [Hc'|Hc']; [by apply Hbest|]. apply list_elem_of_singleton in Hc' as ->. right.
      destruct (total ordered b c) as [|Hcb]; [done|]. apply Hag in Hcb; [|set_solver..]. unfold Bandit.before in Hcb.
      apply orb_false_iff in E as [E1 E2]. destruct (f_eq (Bandit.sample c) (Bandit.sample b)) eqn:Q; [|congruence]. cbn in E2.
      apply Hag; [set_solver..|]. unfold Bandit.before. assert (Q' : f_eq (Bandit.sample b) (Bandit.sample c) = true).
      { apply f_eq_key in Q as (? & ? & ?). apply f_eq_key. auto. }
      rewrite Q'. by apply str_ltb_ge.
Qed.
Lemma replay_winner md cands n : Forall (drawn md) cands -> cands <> [] -> replay_won md cands (Bandit.replay norm p md.(Metadata.ClusterIDs) cands n).1.
Proof.
  intros Hd Hne. unfold Bandit.replay, replay_won.
  assert (X : forall l m v n done, Forall (drawn md) l -> Forall (drawn md) done ->
    ((forall c, c ∈ done -> is_nan c.(Bandit.sample) = false /\ c.(Bandit.model) <> "") -> leads done m v) ->
    exists redrawn, Forall (drawn md) redrawn /\ Bandit.model <$> redrawn = ((Bandit.model <$> done) ++ (Bandit.model <$> l))%list /\
      ((forall c, c ∈ redrawn -> is_nan c.(Bandit.sample) = false /\ c.(Bandit.model) <> "") ->
       exists top, leads redrawn (fst (fst (fold_left (fun acc c => let '(bestModel, bestVal, n) := acc in
          let '(v, n) := Bandit.sample_or norm p md.(Metadata.ClusterIDs) c.(Bandit.model) c.(Bandit.fallback) n in
          if (String.eqb bestModel "" || f_gt v bestVal || (f_eq v bestVal && String.ltb c.(Bandit.model) bestModel))%bool
          then (c.(Bandit.model), v, n) else (bestModel, bestVal, n)) l (m, v, n)))) top)).
  { clear Hd n. induction l as [|c l IH]; intros m v n dn Hl Hdn HL.
    - exists dn. rewrite app_nil_r. cbn. eauto.
    - apply Forall_cons in Hl as [Hc Hl]. cbn [fold_left].
      destruct (Bandit.sample_or norm p (Metadata.ClusterIDs md) (Bandit.model c) (Bandit.fallback c) n) as [x n'] eqn:E.
      assert (Hx : drawn md (redraw c x)).
      { destruct Hc as (s & k & H1 & H2 & H3 & H4). exists s, n. cbn. split; [done|]. split; [done|]. split; [done|].
        unfold Bandit.sample_or in E. rewrite H3 in E. destruct (Bandit.Sample _ _ _ _ n) as [o n'']. by injection E as <- _. }
      assert (Hs : (forall y, y ∈ (dn ++ [redraw c x])%list -> is_nan y.(Bandit.sample) = false /\ y.(Bandit.model) <> "") ->
        if (String.eqb m "" || f_gt x v || (f_eq x v && String.ltb c.(Bandit.model) m))%bool
        then leads (dn ++ [redraw c x]) c.(Bandit.model) x else leads (dn ++ [redraw c x]) m v).
      { intros Hok. apply (leads_step dn m v (redraw c x) Hok). apply HL. intros y Hy. apply Hok. set_solver. }
      assert (Hdn' : Forall (drawn md) (dn ++ [redraw c x])%list) by (apply Forall_app; split; [done|by apply Forall_singleton]).
      cbn beta iota zeta. destruct (_ || _)%bool.
      + destruct (IH (Bandit.model c) x n' (dn ++ [redraw c x])%list Hl) as (rd & R1 & R2 & R3); [exact Hdn'|exact Hs|].
        exists rd. split; [done|]. split; [|exact R3]. rewrite R2, fmap_app, <- app_assoc. done.
      + destruct (IH m v n' (dn ++ [redraw c x])%list Hl) as (rd & R1 & R2 & R3); [exact Hdn'|exact Hs|].
        exists rd. split; [done|]. split; [|exact R3]. rewrite R2, fmap_app, <- app_assoc. done. }
  destruct (X cands "" f_zero n [] Hd ltac:(constructor) ltac:(intros; left; done)) as (rd & R1 & R2 & R3).
  exists rd. split; [done|]. split; [exact R2|]. intros Hok. destruct (R3 Hok) as [v L]. destruct (fold_left _ _ _) as [[best bv] n']. cbn [fst] in *.
  destruct L as [[-> ->]|(c & H1 & H2 & _ & H3)].
  - destruct cands; [done|discriminate R2].
  - exists c. split; [done|]. split; [done|]. intros c' Hc'. destruct (H3 c' Hc'); [by left|right].
    apply (before_ordered rd); [intros y Hy; by apply Hok|done..].
Qed.
Lemma replays_won md cands k : Forall (drawn md) cands -> cands <> [] -> forall n,
  Forall (replay_won md cands) (replay_winners md.(Metadata.ClusterIDs) cands k n).
Proof.
  intros Hd Hne. induction k as [|k IH]; intros n; [constructor|]. cbn [replay_winners]. pose proof (replay_winner md cands n Hd Hne) as R.
  destruct (Bandit.replay _ _ _ _ _) as [best n']. constructor; [exact R|apply IH].
Qed.
Lemma replay_winners_length ids cands k : forall n, length (replay_winners ids cands k n) = k.
Proof. induction k as [|k IH]; intros n; [reflexivity|]. cbn [replay_winners]. destruct (Bandit.replay _ _ _ _ _). cbn. by rewrite IH. Qed.
End BanditFacts.

(** The decision that serves a draw. *)
Lemma annotated_fields format_4g dec md pick prop v : md.(Metadata.CandidateScores) !! Bandit.model pick = Some v ->
  let d := Bandit.annotate format_4g dec md pick prop in
  d.(Decision.Model) = Bandit.model pick /\ d.(Decision.Provider) = Bandit.provider pick /\
  exists md', d.(Decision.Metadata) = Some md' /\ md'.(Metadata.Propensity) = prop /\ md'.(Metadata.ChosenScore) = v.
Proof.
  intros Hv. unfold Bandit.annotate. cbv zeta. unfold f32 in *. rewrite Hv. split; [reflexivity|]. split; [reflexivity|]. cbn [Decision.Metadata]. eexists. split; [reflexivity|].
  destruct (_ && _)%bool; auto.
Qed.

Section Sampled.
Context `{GoUnicode}.
End Sampled.

(** ** The posterior's file *)

Lemma loaded_variances Atoi cells post : Bandit.LoadPosterior Atoi cells = Ok post -> cells <> [] /\
  forall cid cell m arm, post !! cid = Some cell -> cell !! m = Some arm -> f_lt arm.(Bandit.Variance) f_zero = false.
Proof.
  unfold Bandit.LoadPosterior. destruct cells as [|x l]; [done|]. intros HL. split; [done|]. revert HL.
  generalize (x :: l). clear x l. intros l.
  set (step := fun (acc : res Bandit.PosteriorFault Bandit.Posterior) (cell : string * list (string * Bandit.Arm)) => _).
  assert (X : forall l acc post, fold_left step l acc = Ok post ->
    (forall post0, acc = Ok post0 -> forall cid cell m arm, post0 !! cid = Some cell -> cell !! m = Some arm -> f_lt arm.(Bandit.Variance) f_zero = false) ->
    forall cid cell m arm, post !! cid = Some cell -> cell !! m = Some arm -> f_lt arm.(Bandit.Variance) f_zero = false).
  { clear l post. induction l as [|[text arms] l IH]; intros acc post HL Hacc; [by apply Hacc|]. apply (IH _ _ HL). intros post0 Hs. destruct acc as [cells|f]; [|done].
    unfold step in Hs. cbn [res_bind fst snd] in Hs. destruct (Atoi text) as [cid0|]; [|done]. destruct (Bandit.negative_arm arms) as [|] eqn:En; [done|]. injection Hs as <-.
    intros cid cell m arm Hc Harm. destruct (decide (cid0 = cid)) as [->|].
    - rewrite lookup_insert_eq in Hc. injection Hc as <-. apply elem_of_list_to_map_2 in Harm. unfold Bandit.negative_arm in En.
      destruct (List.find _ arms) eqn:Ef; [done|]. apply list_elem_of_In in Harm. exact (find_none _ _ Ef _ Harm).
    - rewrite lookup_insert_ne in Hc by done. by eapply (Hacc cells). }
  intros HL. apply (X _ _ _ HL). intros post0 [= <-] cid cell m arm Hc. by rewrite lookup_empty in Hc.
Qed.

(** ** Concrete routes *)

#[local] Existing Instance ascii_unicode.
Definition ex_width : f32 := f32_of_Z 1.
Definition ex_explore (n : Z) : res RouteFault Decision.t := Explore.Route (Scorer.Route ex_scorer) None ex_width (fun _ => n) map_to_list ex_code.
Definition ex_model (r : res RouteFault Decision.t) : string := match r with Ok d => d.(Decision.Model) | Err _ => "" end.
(** The posterior knows one arm, for the model the scorer would not serve. *)
Definition ex_posterior : Bandit.Posterior := {[0 := {[flash := {| Bandit.Mean := f64_of_Z 9; Bandit.Variance := f64_of_Z 4 |}]}]}.
Definition ex_bandit : res (Bandit.Fault (E := RouteFault)) Decision.t :=
  Bandit.Route (Some (Scorer.Route ex_scorer)) (Some ex_posterior) (fun _ => f64_of_Z 1) 4 map_to_list (fun _ => "") ex_code.
(** A decorator is to keep the choice of a request that forces a model; the bandit does not look at it. *)
Definition ex_forced : PolicyRequest := ex_request {|
  Request.RequestedModel := ""; Request.ForceModel := kimi; Request.ForceCluster := ""; Request.EstimatedInputTokens := 1000;
  Request.OrganizationID := ""; Request.InstallationID := ""; Request.HasTools := false; Request.HasImages := false; Request.PromptText := "code";
  Request.HistoryTruncated := false; Request.EnabledProviders := None; Request.ExcludedModels := None; Request.AllowedModels := None;
  Request.SafetyExcludedModels := None; Request.AutomaticExcludedModels := None; Request.SubsidizedModelCostFactor := ∅ |} None.
Lemma bandit_ignores_force :
  ex_model (Explore.Route (Scorer.Route ex_scorer) None ex_width (fun _ => 0) map_to_list ex_forced) = kimi /\
  match Bandit.Route (Some (Scorer.Route ex_scorer)) (Some ex_posterior) (fun _ => f64_of_Z 1) 4 map_to_list (fun _ => "") ex_forced with
  | Ok d => d.(Decision.Model) = flash
  | Err _ => False
  end.
Proof. split; vm_compute; reflexivity. Qed.
