(* ===== verification/Auth.v ===== *)
(** The authentication service (internal/auth/service.go, analytics_key.go, playground_key.go, api_key.go, id.go, hashing.go) over its
    database (internal/postgres, internal/sqlc) and its cache of keys: issuing, rotating and deleting keys, the settings
    of an installation, and the verification of a bearer token.

    A repository call may fail, as [Faults] tells; what the service does not read — the secret of a provider key, the
    columns no method writes — is a type variable.  Timestamps of use are left out: they are stamped off the request's
    path and no decision reads them. *)

From stdpp Require Import base gmap sets list strings.
From Stdlib Require Import ZArith Lia Ascii.
From S2P Require Import Prelude Strings Floats Hash KeyCache.
Open Scope string_scope.
Open Scope Z_scope.

(** ** Tokens (id.go, hashing.go, api_key.go) *)

Definition APIKeyPrefix : string := "rk".
Definition AnalyticsAPIKeyPrefix : string := "ra".
Definition idLength : nat := 24.
Definition alphaNumericCharacters : string := "0123456789abcdefghijklmnopqrstuvwxyzABCDEFGHIJKLMNOPQRSTUVWXYZ".
(** [GenerateID] on the bytes the random source gives, [None] while they do not suffice. *)
Definition limit : Z := 256 - 256 mod 62.
Fixpoint draw_id (n : nat) (bytes : list Z) : option string :=
  match n, bytes with
  | O, _ => Some ""
  | S _, [] => None
  | S n', x :: bytes =>
      if limit <=? x then draw_id n bytes
      else (fun s => match String.get (Z.to_nat (x mod 62)) alphaNumericCharacters with Some a => String a s | None => s end) <$> draw_id n' bytes
  end.
Definition GenerateID (prefix : string) (bytes : list Z) : option string := (fun s => prefix +:+ "_" +:+ s) <$> draw_id idLength bytes.
Definition HasAPIKeyPrefix (token : string) : bool := HasPrefix token (APIKeyPrefix +:+ "_") || HasPrefix token (AnalyticsAPIKeyPrefix +:+ "_").
Definition HashAPIKeySHA256 (key : string) : string := sha256_hex key.
Definition APITokenPrefixLen : nat := 8.
Definition APITokenSuffixLen : nat := 4.
Definition APITokenFingerprint (token : string) : string * string * string :=
  let hashHex := HashAPIKeySHA256 token in
  if Nat.leb (String.length token) (APITokenPrefixLen + APITokenSuffixLen) then (hashHex, token, "")
  else (hashHex, str_take APITokenPrefixLen token, str_drop (String.length token - APITokenSuffixLen) token).
Definition ScopeRouting : string := "routing".
Definition ScopeAnalyticsRead : string := "analytics_read".
Definition Normalized (scope : string) : string := if String.eqb scope "" then ScopeRouting else scope.
Definition Valid (scope : string) : bool := let n := Normalized scope in String.eqb n ScopeRouting || String.eqb n ScopeAnalyticsRead.
Definition TokenPrefix (scope : string) : string := if String.eqb scope ScopeAnalyticsRead then AnalyticsAPIKeyPrefix else APIKeyPrefix.

(** ** The rows *)

(** [uuid.Parse], a third-party function: the canonical text of an identifier, which it keeps. *)
Class Uuid := { uuid_Parse : string -> option string; uuid_canonical s c : uuid_Parse s = Some c -> uuid_Parse c = Some c /\ c <> "" }.

(** The order of strings under the database's collation. *)
Class Collation := { collate : string -> string -> bool }.
(** [ORDER BY] of a column; rows that tie keep their order. *)
Fixpoint insert_by `{Collation} {A} (key : A -> string) (r : A) (l : list A) : list A :=
  match l with [] => [r] | x :: l' => if collate (key r) (key x) then r :: l else x :: insert_by key r l' end.
Definition order_by `{Collation} {A} (key : A -> string) (l : list A) : list A := foldr (insert_by key) [] l.

Section Service.
Context `{Uuid} `{Collation} {X Y : Type}.
Record APIKey := { ID : string; InstallationID : string; ExternalID : string; Name : option string; KeyPrefix : string; KeyHash : string;
  KeySuffix : string; Scope : string; CreatedBy : option string; Deleted : bool }.
Record Installation := { inst_ID : string; inst_ExternalID : string; inst_Deleted : bool; ExcludedModels : list string; AllowedModels : list string;
  RoutingQualityWeight : option f64; HideTerminalSurfaces : bool; ContentCaptureMode : option string; other_columns : Y }.
(** A provider key: [None] when its secret does not decrypt. *)
Record ExternalRow := { ext_ID : string; ext_Installation : string; Provider : string; ext_Deleted : bool; decrypted : option X }.
Record ClusterModelList := { APIKeyID : string; ClusterLabel : string; Models : list string }.
Record DB := { api_keys : list APIKey; installations : gmap string Installation; external_keys : list ExternalRow; cluster_lists : list ClusterModelList }.
Definition with_keys (v : list APIKey) (db : DB) : DB :=
  {| api_keys := v; installations := db.(installations); external_keys := db.(external_keys); cluster_lists := db.(cluster_lists) |}.
Definition with_installations (v : gmap string Installation) (db : DB) : DB :=
  {| api_keys := db.(api_keys); installations := v; external_keys := db.(external_keys); cluster_lists := db.(cluster_lists) |}.
Definition with_external (v : list ExternalRow) (db : DB) : DB :=
  {| api_keys := db.(api_keys); installations := db.(installations); external_keys := v; cluster_lists := db.(cluster_lists) |}.

(** *** The statements *)

Definition active_installation (db : DB) (id : string) : option Installation :=
  match db.(installations) !! id with Some i => if i.(inst_Deleted) then None else Some i | None => None end.
Definition matches (db : DB) (hash : string) (k : APIKey) : bool :=
  (String.eqb k.(KeyHash) hash && negb k.(Deleted) && bool_decide (is_Some (active_installation db k.(InstallationID))))%bool.
Definition GetActiveByHashWithInstallation (db : DB) (hash : string) : option (APIKey * Installation) :=
  match List.find (matches db hash) db.(api_keys) with
  | Some k => (fun i => (k, i)) <$> active_installation db k.(InstallationID)
  | None => None
  end.
(** Newest first. *)
Definition ListForInstallation (db : DB) (i : string) : list APIKey :=
  rev (List.filter (fun k => (String.eqb k.(InstallationID) i && negb k.(Deleted))%bool) db.(api_keys)).
Definition set_Deleted (k : APIKey) : APIKey := {| ID := k.(ID); InstallationID := k.(InstallationID); ExternalID := k.(ExternalID); Name := k.(Name);
  KeyPrefix := k.(KeyPrefix); KeyHash := k.(KeyHash); KeySuffix := k.(KeySuffix); Scope := k.(Scope); CreatedBy := k.(CreatedBy); Deleted := true |}.
Definition deletable (i id : string) (k : APIKey) : bool := (String.eqb k.(ID) id && String.eqb k.(InstallationID) i && negb k.(Deleted))%bool.
(** The rows affected, and the table after. *)
Definition SoftDelete (i id : string) (db : DB) : Z * DB :=
  (Z.of_nat (length (List.filter (deletable i id) db.(api_keys))),
   with_keys ((fun k => if deletable i id k then set_Deleted k else k) <$> db.(api_keys)) db).
(** The row is refused when its hash is that of an active key, or its installation does not exist. *)
Definition Create (k : APIKey) (db : DB) : option DB :=
  if (existsb (fun k' => (String.eqb k'.(KeyHash) k.(KeyHash) && negb k'.(Deleted))%bool) db.(api_keys)
      || negb (bool_decide (is_Some (db.(installations) !! k.(InstallationID)))))%bool then None
  else Some (with_keys (db.(api_keys) ++ [k])%list db).
(** By provider, then newest first. *)
Definition ext_rows (db : DB) (i : string) : list ExternalRow :=
  order_by Provider (rev (List.filter (fun r => (String.eqb r.(ext_Installation) i && negb r.(ext_Deleted))%bool) db.(external_keys))).
(** One secret that does not decrypt fails the call. *)
Definition GetForInstallation (db : DB) (i : string) : option (list X) := mapM decrypted (ext_rows db i).
Definition ext_SoftDelete (i id : string) (db : DB) : DB :=
  with_external ((fun r => if (String.eqb r.(ext_ID) id && String.eqb r.(ext_Installation) i)%bool
                           then {| ext_ID := r.(ext_ID); ext_Installation := r.(ext_Installation); Provider := r.(Provider); ext_Deleted := true; decrypted := r.(decrypted) |} else r)
                 <$> db.(external_keys)) db.
Definition GetForAPIKey (db : DB) (id : string) : list ClusterModelList := order_by ClusterLabel (List.filter (fun l => String.eqb l.(APIKeyID) id) db.(cluster_lists)).
(** An update of an installation's row: [None] when no row matches. *)
Definition update_installation (f : Installation -> Installation) (externalID id : string) (db : DB) : option DB :=
  match active_installation db id with
  | Some i => if String.eqb i.(inst_ExternalID) externalID then Some (with_installations (<[id := f i]> db.(installations)) db) else None
  | None => None
  end.

(** *** The service's state *)

Record Payload := { p_APIKey : option APIKey; p_Installation : option Installation; p_ExternalKeys : list X; p_ClusterModelLists : list ClusterModelList }.
Notation Cache := (ApiKeys.Cache (V := Payload)).
Notation CachedKey := (ApiKeys.CachedKey (V := Payload)).
Record World := { db : DB; cache : Cache }.
Definition negative_entry : CachedKey := {| ApiKeys.Negative := true; ApiKeys.Installation := None;
  ApiKeys.payload := {| p_APIKey := None; p_Installation := None; p_ExternalKeys := []; p_ClusterModelLists := [] |} |}.
Definition positive_entry (k : APIKey) (i : Installation) (ext : list X) (lists : list ClusterModelList) : CachedKey := {|
  ApiKeys.Negative := false; ApiKeys.Installation := Some i.(inst_ID);
  ApiKeys.payload := {| p_APIKey := Some k; p_Installation := Some i; p_ExternalKeys := ext; p_ClusterModelLists := lists |} |}.
(** Which repository calls of a request fail, and which repositories are wired. *)
Record Faults := { f_get : bool; f_external : bool; f_lists : bool; f_list : bool; f_delete : bool; f_create : bool; f_update : bool }.
Definition no_faults : Faults := {| f_get := false; f_external := false; f_lists := false; f_list := false; f_delete := false; f_create := false; f_update := false |}.
Inductive AuthError :=
| ErrInvalidPrefix | ErrInvalidToken | ErrWrongKeyScope | ErrInvalidKeyScope | ErrAPIKeyNotFound | ErrUnknownModel (m : string)
| ErrInvalidCaptureMode (m : string) | ErrInstallationNotFound | ErrRepository.
Record Verified := { v_Installation : option Installation; v_APIKey : APIKey; v_ExternalKeys : list X; v_ClusterModelLists : list ClusterModelList }.
Context (wired_external wired_lists : bool).
(** Which entries of the cache are within their lifetime. *)
Context (live live_negative : string -> bool).
Definition cache_Set (h : string) (e : CachedKey) (w : World) : World := {| db := w.(db); cache := ApiKeys.Set_ h e w.(cache) |}.

(** ** Verification *)

(** The lists cached with a key, [None] when the call failed: then nothing is cached. *)
Definition fetch_external (f : Faults) (w : World) (i : string) : list X :=
  if negb wired_external then []
  else if f.(f_external) then []
  else match uuid_Parse i with Some i => default [] (GetForInstallation w.(db) i) | None => [] end.
Definition fetch_lists (f : Faults) (w : World) (id : string) : option (list ClusterModelList) :=
  if negb wired_lists then Some []
  else if f.(f_lists) then None
  else (fun id => GetForAPIKey w.(db) id) <$> uuid_Parse id.
Definition VerifyAPIKey (f : Faults) (rawToken : string) (w : World) : res AuthError Verified * World :=
  if negb (HasAPIKeyPrefix rawToken) then (Err ErrInvalidPrefix, w)
  else
    let keyHash := HashAPIKeySHA256 rawToken in
    let lookup :=
      if f.(f_get) then (Err ErrRepository, w)
      else match GetActiveByHashWithInstallation w.(db) keyHash with
           | None => (Err ErrInvalidToken, cache_Set keyHash negative_entry w)
           | Some (k, i) =>
               if negb (String.eqb (Normalized k.(Scope)) ScopeRouting) then (Err ErrWrongKeyScope, w)
               else
                 let ext := fetch_external f w k.(InstallationID) in
                 match fetch_lists f w k.(ID) with
                 | Some lists => (Ok {| v_Installation := Some i; v_APIKey := k; v_ExternalKeys := ext; v_ClusterModelLists := lists |},
                                  cache_Set keyHash (positive_entry k i ext lists) w)
                 | None => (Ok {| v_Installation := Some i; v_APIKey := k; v_ExternalKeys := ext; v_ClusterModelLists := [] |}, w)
                 end
           end in
    match ApiKeys.Get live live_negative keyHash w.(cache) with
    | Some cached =>
        if cached.(ApiKeys.Negative) then (Err ErrInvalidToken, w)
        else match cached.(ApiKeys.payload).(p_APIKey) with
             | Some k =>
                 if negb (String.eqb (Normalized k.(Scope)) ScopeRouting) then (Err ErrWrongKeyScope, w)
                 else (Ok {| v_Installation := cached.(ApiKeys.payload).(p_Installation); v_APIKey := k;
                             v_ExternalKeys := cached.(ApiKeys.payload).(p_ExternalKeys); v_ClusterModelLists := cached.(ApiKeys.payload).(p_ClusterModelLists) |}, w)
             | None => lookup
             end
    | None => lookup
    end.
Definition VerifyAnalyticsAPIKey (f : Faults) (rawToken : string) (w : World) : res AuthError (option Installation * APIKey) * World :=
  if negb (HasPrefix rawToken (AnalyticsAPIKeyPrefix +:+ "_")) then (Err ErrInvalidPrefix, w)
  else
    let keyHash := HashAPIKeySHA256 rawToken in
    let lookup :=
      if f.(f_get) then (Err ErrRepository, w)
      else match GetActiveByHashWithInstallation w.(db) keyHash with
           | None => (Err ErrInvalidToken, cache_Set keyHash negative_entry w)
           | Some (k, i) =>
               if negb (String.eqb k.(Scope) ScopeAnalyticsRead) then (Err ErrWrongKeyScope, w)
               else (Ok (Some i, k), cache_Set keyHash (positive_entry k i [] []) w)
           end in
    match ApiKeys.Get live live_negative keyHash w.(cache) with
    | Some cached =>
        if cached.(ApiKeys.Negative) then (Err ErrInvalidToken, w)
        else match cached.(ApiKeys.payload).(p_APIKey) with
             | Some k => if negb (String.eqb k.(Scope) ScopeAnalyticsRead) then (Err ErrWrongKeyScope, w)
                         else (Ok (cached.(ApiKeys.payload).(p_Installation), k), w)
             | None => lookup
             end
    | None => lookup
    end.

(** ** Changes *)

Definition invalidateInstallation (i : string) (w : World) : World :=
  if String.eqb i "" then w else {| db := w.(db); cache := ApiKeys.InvalidateInstallation i w.(cache) |}.
Definition with_db (v : DB) (w : World) : World := {| db := v; cache := w.(cache) |}.
Definition repo_SoftDelete (f : Faults) (i id : string) (w : World) : res AuthError Z * World :=
  if f.(f_delete) then (Err ErrRepository, w)
  else match uuid_Parse i, uuid_Parse id with
       | Some i, Some id => let '(n, db') := SoftDelete i id w.(db) in (Ok n, with_db db' w)
       | _, _ => (Err ErrRepository, w)
       end.
(** [token_id] and [kid] are the characters drawn for the token and the external identifier, [newID] is the database's. *)
Definition IssueScopedAPIKey (f : Faults) (i scope : string) (name createdBy : option string) (newID token_id kid : string) (w : World) :
    res AuthError (APIKey * string) * World :=
  if negb (Valid scope) then (Err ErrInvalidKeyScope, w)
  else
    let scope := Normalized scope in
    let rawToken := TokenPrefix scope +:+ "_" +:+ token_id in
    let '(keyHash, keyPrefix, keySuffix) := APITokenFingerprint rawToken in
    if f.(f_create) then (Err ErrRepository, w)
    else match uuid_Parse i with
         | None => (Err ErrRepository, w)
         | Some i =>
             let k := {| ID := newID; InstallationID := i; ExternalID := "kid_" +:+ kid; Name := name; KeyPrefix := keyPrefix; KeyHash := keyHash;
                         KeySuffix := keySuffix; Scope := scope; CreatedBy := createdBy; Deleted := false |} in
             match Create k w.(db) with
             | Some db' => (Ok (k, rawToken), with_db db' w)
             | None => (Err ErrRepository, w)
             end
         end.
Definition repo_List (f : Faults) (i : string) (w : World) : res AuthError (list APIKey) :=
  if f.(f_list) then Err ErrRepository else match uuid_Parse i with Some i => Ok (ListForInstallation w.(db) i) | None => Err ErrRepository end.
Definition RotateAPIKey (f : Faults) (i keyID : string) (createdBy : option string) (newID token_id kid : string) (w : World) :
    res AuthError (APIKey * string) * World :=
  match repo_List f i w with
  | Err e => (Err e, w)
  | Ok existing =>
      match List.find (fun k => String.eqb k.(ID) keyID) existing with
      | None => (Err ErrAPIKeyNotFound, w)
      | Some target =>
          match repo_SoftDelete f i target.(ID) w with
          | (Err e, w) => (Err e, w)
          | (Ok n, w) =>
              if n =? 0 then (Err ErrAPIKeyNotFound, w)
              else match IssueScopedAPIKey f i target.(Scope) target.(Name) createdBy newID token_id kid w with
                   | (Ok issued, w) => (Ok issued, invalidateInstallation i w)
                   | (Err e, w) => (Err e, w)
                   end
          end
      end
  end.
Definition DeleteAPIKey (f : Faults) (i id : string) (w : World) : res AuthError unit * World :=
  match repo_SoftDelete f i id w with
  | (Err e, w) => (Err e, w)
  | (Ok _, w) => (Ok tt, invalidateInstallation i w)
  end.
Definition DeleteExternalAPIKey (f : Faults) (i id : string) (w : World) : res AuthError unit * World :=
  if f.(f_delete) then (Err ErrRepository, w)
  else match uuid_Parse i, uuid_Parse id with
       | Some i', Some id => (Ok tt, invalidateInstallation i (with_db (ext_SoftDelete i' id w.(db)) w))
       | _, _ => (Err ErrRepository, w)
       end.
Definition repo_update (f : Faults) (g : Installation -> Installation) (externalID id : string) (w : World) : res AuthError unit * World :=
  if f.(f_update) then (Err ErrRepository, w)
  else match uuid_Parse id with
       | None => (Err ErrRepository, w)
       | Some id' => match update_installation g externalID id' w.(db) with
                     | Some db' => (Ok tt, with_db db' w)
                     | None => (Err ErrInstallationNotFound, w)
                     end
       end.
(** An update of the row, then the invalidation. *)
Definition change {A} (f : Faults) (g : Installation -> Installation) (externalID i : string) (a : A) (w : World) : res AuthError A * World :=
  match repo_update f g externalID i w with
  | (Ok _, w) => (Ok a, invalidateInstallation i w)
  | (Err e, w) => (Err e, w)
  end.
(** The first of each, in order. *)
Definition dedupe (models : list string) : list string :=
  (fold_left (fun acc m => let '(seen, out) := acc in if in_set m seen then acc else ({[m]} ∪ seen, (out ++ [m])%list)) models (∅ : gset string, [])).2.
Definition unknown_model (allowed : option (gset string)) (models : list string) : option string :=
  match allowed with Some a => List.find (fun m => negb (in_set m a)) models | None => None end.
Definition set_ExcludedModels (v : list string) (i : Installation) : Installation := {| inst_ID := i.(inst_ID); inst_ExternalID := i.(inst_ExternalID);
  inst_Deleted := i.(inst_Deleted); ExcludedModels := v; AllowedModels := i.(AllowedModels); RoutingQualityWeight := i.(RoutingQualityWeight);
  HideTerminalSurfaces := i.(HideTerminalSurfaces); ContentCaptureMode := i.(ContentCaptureMode); other_columns := i.(other_columns) |}.
Definition set_AllowedModels (v : list string) (i : Installation) : Installation := {| inst_ID := i.(inst_ID); inst_ExternalID := i.(inst_ExternalID);
  inst_Deleted := i.(inst_Deleted); ExcludedModels := i.(ExcludedModels); AllowedModels := v; RoutingQualityWeight := i.(RoutingQualityWeight);
  HideTerminalSurfaces := i.(HideTerminalSurfaces); ContentCaptureMode := i.(ContentCaptureMode); other_columns := i.(other_columns) |}.
Definition set_RoutingQualityWeight (v : option f64) (i : Installation) : Installation := {| inst_ID := i.(inst_ID); inst_ExternalID := i.(inst_ExternalID);
  inst_Deleted := i.(inst_Deleted); ExcludedModels := i.(ExcludedModels); AllowedModels := i.(AllowedModels); RoutingQualityWeight := v;
  HideTerminalSurfaces := i.(HideTerminalSurfaces); ContentCaptureMode := i.(ContentCaptureMode); other_columns := i.(other_columns) |}.
Definition set_HideTerminalSurfaces (v : bool) (i : Installation) : Installation := {| inst_ID := i.(inst_ID); inst_ExternalID := i.(inst_ExternalID);
  inst_Deleted := i.(inst_Deleted); ExcludedModels := i.(ExcludedModels); AllowedModels := i.(AllowedModels); RoutingQualityWeight := i.(RoutingQualityWeight);
  HideTerminalSurfaces := v; ContentCaptureMode := i.(ContentCaptureMode); other_columns := i.(other_columns) |}.
Definition set_ContentCaptureMode (v : option string) (i : Installation) : Installation := {| inst_ID := i.(inst_ID); inst_ExternalID := i.(inst_ExternalID);
  inst_Deleted := i.(inst_Deleted); ExcludedModels := i.(ExcludedModels); AllowedModels := i.(AllowedModels); RoutingQualityWeight := i.(RoutingQualityWeight);
  HideTerminalSurfaces := i.(HideTerminalSurfaces); ContentCaptureMode := v; other_columns := i.(other_columns) |}.
Definition SetInstallationExcludedModels (f : Faults) (externalID i : string) (models : list string) (allowed : option (gset string)) (w : World) :
    res AuthError (list string) * World :=
  match unknown_model allowed models with
  | Some m => (Err (ErrUnknownModel m), w)
  | None => let out := dedupe models in change f (set_ExcludedModels out) externalID i out w
  end.
(** Its twin for the allowlist; clearing the list needs no catalog, which the loop over no models gives too. *)
Definition SetInstallationAllowedModels (f : Faults) (externalID i : string) (models : list string) (allowed : option (gset string)) (w : World) :
    res AuthError (list string) * World :=
  match (if bool_decide (models = []) then None else unknown_model allowed models) with
  | Some m => (Err (ErrUnknownModel m), w)
  | None => let out := dedupe models in change f (set_AllowedModels out) externalID i out w
  end.
Definition SetInstallationRoutingPreference (f : Faults) (externalID i : string) (v : option f64) (w : World) : res AuthError unit * World :=
  change f (set_RoutingQualityWeight v) externalID i tt w.
Definition SetInstallationHideTerminalSurfaces (f : Faults) (externalID i : string) (v : bool) (w : World) : res AuthError unit * World :=
  change f (set_HideTerminalSurfaces v) externalID i tt w.
Definition SetInstallationContentCaptureMode (f : Faults) (externalID i : string) (mode : option string) (w : World) : res AuthError unit * World :=
  match mode with
  | Some m => if bool_decide (m ∈ ["off"; "hashed"; "full"]) then change f (set_ContentCaptureMode mode) externalID i tt w else (Err (ErrInvalidCaptureMode m), w)
  | None => change f (set_ContentCaptureMode mode) externalID i tt w
  end.
Definition PlaygroundAPIKeyName : string := "Playground".
Definition ResolvePlaygroundAPIKeyID (f : Faults) (i newID token_id kid : string) (w : World) : res AuthError string * World :=
  if String.eqb i "" then (Ok "", w)
  else match repo_List f i w with
       | Err e => (Err e, w)
       | Ok keys =>
           match List.find (fun k => (String.eqb (Normalized k.(Scope)) ScopeRouting &&
                                      match k.(Name) with Some n => String.eqb n PlaygroundAPIKeyName | None => false end)%bool) keys with
           | Some k => (Ok k.(ID), w)
           | None => match IssueScopedAPIKey f i ScopeRouting (Some PlaygroundAPIKeyName) None newID token_id kid w with
                     | (Ok (k, _), w) => (Ok k.(ID), w)
                     | (Err e, w) => (Err e, w)
                     end
           end
       end.
End Service.
