(* ===== verification/AuthFacts.v ===== *)
(** What the authentication service guarantees: the cache of keys never answers with anything but what the database
    holds, whatever calls the service has served. *)

From stdpp Require Import base gmap sets list strings.
From Stdlib Require Import ZArith Lia Ascii.
From S2P Require Import Prelude Strings Floats Hash KeyCache Auth.
Open Scope string_scope.
Open Scope Z_scope.

(** ** Histories *)

Section Service.
Context `{Uuid} `{Collation} {X Y : Type} (wired_external wired_lists : bool).
Notation DB := (DB (X := X) (Y := Y)).
Notation World := (World (X := X) (Y := Y)).
Notation Installation := (Installation (Y := Y)).
Notation CachedKey := (ApiKeys.CachedKey (V := Payload (X := X) (Y := Y))).
Notation Cache := (ApiKeys.Cache (V := Payload (X := X) (Y := Y))).
(** A call of the service with the repository calls that fail, or the cache dropping an entry. *)
Inductive op :=
| OVerify (live live_negative : string -> bool) (f : Faults) (token : string)
| OVerifyAnalytics (live live_negative : string -> bool) (f : Faults) (token : string)
| OIssue (f : Faults) (i scope : string) (name createdBy : option string) (newID token_id kid : string)
| ORotate (f : Faults) (i keyID : string) (createdBy : option string) (newID token_id kid : string)
| ODelete (f : Faults) (i id : string)
| ODeleteExternal (f : Faults) (i id : string)
| OExcluded (f : Faults) (externalID i : string) (models : list string) (allowed : option (gset string))
| OAllowed (f : Faults) (externalID i : string) (models : list string) (allowed : option (gset string))
| OPreference (f : Faults) (externalID i : string) (v : option f64)
| OHide (f : Faults) (externalID i : string) (v : bool)
| OCapture (f : Faults) (externalID i : string) (mode : option string)
| OPlayground (f : Faults) (i newID token_id kid : string)
| OEvict (hash : string)
| OEvictNegative (hash : string).
Definition evict_negative (h : string) (c : Cache) : Cache := {| ApiKeys.positive := c.(ApiKeys.positive); ApiKeys.negative := delete h c.(ApiKeys.negative);
  ApiKeys.byInstallation := c.(ApiKeys.byInstallation); ApiKeys.invalidationGen := c.(ApiKeys.invalidationGen) |}.
Definition serve (w : World) (o : op) : World :=
  match o with
  | OVerify live liven f token => (VerifyAPIKey wired_external wired_lists live liven f token w).2
  | OVerifyAnalytics live liven f token => (VerifyAnalyticsAPIKey live liven f token w).2
  | OIssue f i scope name by_ newID tok kid => (IssueScopedAPIKey f i scope name by_ newID tok kid w).2
  | ORotate f i keyID by_ newID tok kid => (RotateAPIKey f i keyID by_ newID tok kid w).2
  | ODelete f i id => (DeleteAPIKey f i id w).2
  | ODeleteExternal f i id => (DeleteExternalAPIKey f i id w).2
  | OExcluded f x i models allowed => (SetInstallationExcludedModels f x i models allowed w).2
  | OAllowed f x i models allowed => (SetInstallationAllowedModels f x i models allowed w).2
  | OPreference f x i v => (SetInstallationRoutingPreference f x i v w).2
  | OHide f x i v => (SetInstallationHideTerminalSurfaces f x i v w).2
  | OCapture f x i mode => (SetInstallationContentCaptureMode f x i mode w).2
  | OPlayground f i newID tok kid => (ResolvePlaygroundAPIKeyID f i newID tok kid w).2
  | OEvict h => {| db := w.(db); cache := ApiKeys.positive_Remove h w.(cache) |}
  | OEvictNegative h => {| db := w.(db); cache := evict_negative h w.(cache) |}
  end.
Definition canonical (id : string) : Prop := uuid_Parse id = Some id.
(** The callers name installations by their canonical identifier, the database's new identifiers are canonical, and no
    rotation fails between the deletion of the old key and the creation of the new one. *)
Definition clean (w : World) (o : op) : Prop :=
  match o with
  | OVerify _ _ _ _ | OVerifyAnalytics _ _ _ _ | OEvict _ | OEvictNegative _ => True
  | OIssue _ _ _ _ _ newID _ _ | OPlayground _ _ newID _ _ => canonical newID
  | ORotate f i keyID by_ newID tok kid => canonical i /\ canonical newID /\
      ((RotateAPIKey f i keyID by_ newID tok kid w).2.(db) = w.(db) \/ exists r, (RotateAPIKey f i keyID by_ newID tok kid w).1 = Ok r)
  | ODelete _ i _ | ODeleteExternal _ i _ | OExcluded _ _ i _ _ | OAllowed _ _ i _ _ | OPreference _ _ i _ | OHide _ _ i _ | OCapture _ _ i _ => canonical i
  end.
Fixpoint all_clean (w : World) (ops : list op) : Prop :=
  match ops with [] => True | o :: ops => clean w o /\ all_clean (serve w o) ops end.

(** ** The database *)

Record db_wf (d : DB) : Prop := {
  wf_keys k : k ∈ d.(api_keys) -> canonical k.(ID) /\ canonical k.(InstallationID);
  wf_installations id i : d.(installations) !! id = Some i -> i.(inst_ID) = id /\ canonical id
}.
Definition lists_of (d : DB) (k : APIKey) : list ClusterModelList := if wired_lists then GetForAPIKey d k.(ID) else [].
(** What a database answers for a token, and that another answers the same unless the key is of installation [j]. *)
Definition same_but (j : option string) (d d' : DB) : Prop :=
  forall h k i, GetActiveByHashWithInstallation d h = Some (k, i) -> Some k.(InstallationID) <> j ->
    GetActiveByHashWithInstallation d' h = Some (k, i) /\ GetForAPIKey d' k.(ID) = GetForAPIKey d k.(ID) /\
    GetForInstallation d' k.(InstallationID) = GetForInstallation d k.(InstallationID).
Lemma active_key d h k i : db_wf d -> GetActiveByHashWithInstallation d h = Some (k, i) ->
  k ∈ d.(api_keys) /\ k.(KeyHash) = h /\ k.(Deleted) = false /\ d.(installations) !! k.(InstallationID) = Some i /\ i.(inst_Deleted) = false /\ i.(inst_ID) = k.(InstallationID).
Proof.
  intros W. unfold GetActiveByHashWithInstallation. destruct (List.find _ _) as [k'|] eqn:F; [|done]. apply find_some in F as [Hin Hm].
  unfold active_installation. destruct (installations d !! InstallationID k') as [i'|] eqn:Ei; [|done]. destruct (inst_Deleted i') eqn:Ed; [done|]. intros [= <- <-].
  unfold matches in Hm. apply andb_prop in Hm as [Hm _]. apply andb_prop in Hm as [Hh Hd]. apply String.eqb_eq in Hh. apply negb_true_iff in Hd.
  split; [by apply list_elem_of_In|]. split; [done|]. split; [done|]. split; [done|]. split; [done|]. by apply (wf_installations d W).
Qed.
Lemma find_fmap_agree {A} (f : A -> bool) (g : A -> A) (l : list A) x : (forall y, f (g y) = true -> f y = true) -> List.find f l = Some x -> g x = x ->
  List.find f (g <$> l) = Some x.
Proof.
  intros Hg. induction l as [|y l IH]; [done|]. rewrite fmap_cons. cbn [List.find]. destruct (f y) eqn:Fy.
  - intros [= ->] Hx. by rewrite Hx, Fy.
  - intros Hf Hx. destruct (f (g y)) eqn:Fg; [|by apply IH]. rewrite (Hg y Fg) in Fy. done.
Qed.
Lemma find_app_some {A} (f : A -> bool) (l l' : list A) x : List.find f l = Some x -> List.find f (l ++ l') = Some x.
Proof. induction l as [|y l IH]; [done|]. cbn. destruct (f y); auto. Qed.
Lemma find_ext {A} (f g : A -> bool) (l : list A) : (forall x, f x = g x) -> List.find f l = List.find g l.
Proof. intros E. induction l as [|y l IH]; [done|]. cbn. rewrite E, IH. done. Qed.

(** *** What each statement leaves *)

Lemma soft_delete_frame i id d : same_but (Some i) d (SoftDelete i id d).2.
Proof.
  intros h k inst. unfold GetActiveByHashWithInstallation. destruct (List.find (matches d h) (api_keys d)) as [k'|] eqn:F; [|done].
  destruct (active_installation d (InstallationID k')) as [i'|] eqn:Ea; [|done]. intros [= <- <-] Hi. cbn [SoftDelete snd api_keys with_keys].
  rewrite (find_ext _ (matches d h)) by done. rewrite (find_fmap_agree (matches d h) _ _ k'); [| |exact F|].
  - split; [|done]. change (active_installation _ (InstallationID k')) with (active_installation d (InstallationID k')). by rewrite Ea.
  - intros y. destruct (deletable i id y); [|done]. unfold matches. cbn. by rewrite andb_false_r.
  - unfold deletable. destruct (String.eqb_spec (InstallationID k') i) as [E|]; [by rewrite E in Hi|]. by rewrite andb_false_r.
Qed.
Lemma soft_delete_wf i id d : db_wf d -> db_wf (SoftDelete i id d).2.
Proof.
  intros [Wk Wi]. split; [|exact Wi]. intros k. cbn. intros Hk. apply list_elem_of_fmap in Hk as (k' & -> & Hk'). specialize (Wk k' Hk'). by destruct (deletable i id k').
Qed.
Lemma create_frame k d d' : Create k d = Some d' -> same_but None d d' /\ (db_wf d -> canonical k.(ID) -> db_wf d').
Proof.
  unfold Create. destruct (_ || _)%bool eqn:E; [done|]. intros [= <-]. apply orb_false_elim in E as [_ Ei]. split.
  - intros h k0 i0. unfold GetActiveByHashWithInstallation. destruct (List.find _ (api_keys d)) as [k'|] eqn:F; [|done]. intros Ha _. cbn [api_keys with_keys].
    rewrite (find_ext _ (matches d h)) by done. by rewrite (find_app_some _ _ _ _ F).
  - intros [Wk Wi] Hk. split; [|exact Wi]. intros k0 Hin. cbn in Hin. apply elem_of_app in Hin as [|Hin]; [by apply Wk|]. apply list_elem_of_singleton in Hin as ->.
    split; [done|]. apply negb_false_iff, bool_decide_eq_true in Ei as [inst Hi]. by apply (Wi _ _ Hi).
Qed.
Lemma ext_delete_frame i id d : same_but (Some i) d (ext_SoftDelete i id d).
Proof.
  intros h k inst Ha Hi. split; [exact Ha|]. split; [done|]. unfold GetForInstallation, ext_rows. cbn [external_keys with_external ext_SoftDelete].
  do 3 f_equal. induction (external_keys d) as [|r l IH]; [done|]. rewrite fmap_cons. cbn [List.filter]. rewrite IH.
  destruct (String.eqb (ext_ID r) id && String.eqb (ext_Installation r) i)%bool eqn:E; [|done]. apply andb_prop in E as [_ Er]. apply String.eqb_eq in Er.
  cbn [ext_Installation ext_Deleted]. destruct (String.eqb_spec (ext_Installation r) (InstallationID k)) as [Ek|]; [congruence|done].
Qed.
Lemma update_frame g x i d d' : (forall j : Installation, inst_ID (g j) = inst_ID j /\ inst_Deleted (g j) = inst_Deleted j) ->
  update_installation g x i d = Some d' -> same_but (Some i) d d' /\ (db_wf d -> db_wf d').
Proof.
  intros Hg. unfold update_installation, active_installation. destruct (installations d !! i) as [inst|] eqn:Ei; [|done]. destruct (inst_Deleted inst) eqn:Ed; [done|].
  destruct (String.eqb _ _); [|done]. intros [= <-]. set (d' := with_installations _ d).
  assert (Hact : forall id, is_Some (active_installation d' id) <-> is_Some (active_installation d id)).
  { intros id. unfold active_installation, d'. cbn [installations with_installations]. destruct (decide (i = id)) as [<-|]; [|by rewrite lookup_insert_ne].
    rewrite lookup_insert_eq, Ei. destruct (Hg inst) as [_ ->]. rewrite Ed. split; eauto. }
  split.
  - intros h k0 i0. unfold GetActiveByHashWithInstallation. rewrite (find_ext (matches d' h) (matches d h)).
    2: { intros k. unfold matches. by rewrite (bool_decide_ext _ _ (Hact (InstallationID k))). }
    change (api_keys d') with (api_keys d). destruct (List.find _ _) as [k'|]; [|done]. intros Ha Hi.
    destruct (active_installation d (InstallationID k')) as [i1|] eqn:Ea; [|done]. injection Ha as <- <-. split; [|done].
    unfold active_installation in *. unfold d'; cbn [installations with_installations]. rewrite lookup_insert_ne by congruence. by rewrite Ea.
  - intros [Wk Wi]. split; [exact Wk|]. intros id j. cbn [d' installations with_installations]. unfold d'; cbn [installations with_installations].
    destruct (decide (i = id)) as [<-|]; [rewrite lookup_insert_eq|rewrite lookup_insert_ne by done; apply Wi]. intros [= <-].
    destruct (Hg inst) as [-> _]. by apply Wi.
Qed.

(** ** Coherence *)

(** An entry of the cache holds what the database holds under its hash: the key and its installation; the provider keys,
    when any are cached; the cluster lists, which a key of the analytics scope is cached without. *)
Definition current (d : DB) (h : string) (e : CachedKey) : Prop :=
  exists k i, GetActiveByHashWithInstallation d h = Some (k, i) /\ e.(ApiKeys.Negative) = false /\ ApiKeys.instID e = k.(InstallationID) /\
    e.(ApiKeys.payload).(p_APIKey) = Some k /\ e.(ApiKeys.payload).(p_Installation) = Some i /\
    (e.(ApiKeys.payload).(p_ExternalKeys) = [] \/ GetForInstallation d k.(InstallationID) = Some e.(ApiKeys.payload).(p_ExternalKeys)) /\
    (e.(ApiKeys.payload).(p_ClusterModelLists) = lists_of d k \/ k.(Scope) = ScopeAnalyticsRead).
Record coherent (w : World) : Prop := {
  coh_db : db_wf w.(db);
  coh_positive h e : w.(cache).(ApiKeys.positive) !! h = Some e -> current w.(db) h e;
  coh_indexed h e : w.(cache).(ApiKeys.positive) !! h = Some e -> h ∈ ApiKeys.hashes_of (ApiKeys.instID e) w.(cache);
  coh_negative h e : w.(cache).(ApiKeys.negative) !! h = Some e -> e.(ApiKeys.Negative) = true
}.
Lemma canonical_nonempty i : canonical i -> i <> "".
Proof. intros Hc. by apply (uuid_canonical i i). Qed.
Lemma current_same j d d' h e : same_but j d d' -> Some (ApiKeys.instID e) <> j -> current d h e -> current d' h e.
Proof.
  intros S Hj (k & i & Hg & Hn & Hi & Hk & Hpi & Hx & Hl). rewrite Hi in Hj. destruct (S h k i Hg Hj) as (Hg' & Hl' & Hx').
  exists k, i. unfold lists_of in *. rewrite Hg', Hl', Hx'. done.
Qed.
Lemma coherent_db w d : same_but None w.(db) d -> db_wf d -> coherent w -> coherent (with_db d w).
Proof. intros S W C. split; [exact W| |apply C|apply C]. intros h e He. apply (current_same None (db w)); [done|done|]. by apply C. Qed.
Lemma removes_hashes ks : forall (c : Cache) h j, h ∉ ks -> h ∈ ApiKeys.hashes_of j c -> h ∈ ApiKeys.hashes_of j (fold_left (fun c k => ApiKeys.positive_Remove k c) ks c).
Proof. induction ks as [|k ks IH]; intros c h j Hk Hin; [done|]. apply not_elem_of_cons in Hk as [? ?]. cbn. apply IH; [done|]. by apply ApiKeys.removed_index_others. Qed.
Lemma removed_negative k (c : Cache) : ApiKeys.negative (ApiKeys.positive_Remove k c) = ApiKeys.negative c.
Proof.
  unfold ApiKeys.positive_Remove, ApiKeys.onPositiveEvict. destruct (ApiKeys.positive c !! k); [|done]. destruct (String.eqb _ _); [done|].
  unfold ApiKeys.unindex. by destruct (ApiKeys.byInstallation _ !! _).
Qed.
Lemma removes_negative ks : forall c : Cache, ApiKeys.negative (fold_left (fun c k => ApiKeys.positive_Remove k c) ks c) = ApiKeys.negative c.
Proof. induction ks as [|k ks IH]; intros c; [done|]. cbn. by rewrite IH, removed_negative. Qed.
(** A change of what the database answers for one installation, followed by the invalidation of that installation. *)
Lemma coherent_invalidate w i d : i <> "" -> same_but (Some i) w.(db) d -> db_wf d -> coherent w -> coherent (invalidateInstallation i (with_db d w)).
Proof.
  intros Hi S W C. unfold invalidateInstallation. apply String.eqb_neq in Hi as E. rewrite E. unfold ApiKeys.InvalidateInstallation. rewrite E.
  destruct (ApiKeys.drain i (cache (with_db d w))) as [c hs] eqn:Dr. unfold ApiKeys.drain in Dr. injection Dr as <- <-.
  assert (Kept : forall h e, w.(cache).(ApiKeys.positive) !! h = Some e -> h ∉ elements (ApiKeys.hashes_of i w.(cache)) -> ApiKeys.instID e <> i).
  { intros h e He Hh <-. apply Hh, elem_of_elements. by apply C. }
  split; [exact W| | |].
  - intros h e. cbn [cache db]. intros He. apply ApiKeys.removes_lookup in He as [He Hh]. cbn [ApiKeys.positive] in He. apply (current_same (Some i) (db w)); [done| |by apply C].
    specialize (Kept h e He Hh). congruence.
  - intros h e. cbn [cache db]. intros He. apply ApiKeys.removes_lookup in He as [He Hh]. cbn [ApiKeys.positive] in He. apply removes_hashes; [done|].
    unfold ApiKeys.hashes_of; cbn [ApiKeys.byInstallation]. specialize (Kept h e He Hh). rewrite lookup_delete_ne by congruence. by apply C.
  - intros h e. cbn [cache db]. rewrite removes_negative. apply C.
Qed.
Lemma coherent_evict h w : coherent w -> coherent {| db := w.(db); cache := ApiKeys.positive_Remove h w.(cache) |}.
Proof.
  intros C. split; [apply C| | |]; cbn [db cache]; intros h' e.
  - rewrite ApiKeys.removed_positive, lookup_delete_Some. intros [_ He]. by apply C.
  - rewrite ApiKeys.removed_positive, lookup_delete_Some. intros [Hh He]. apply ApiKeys.removed_index_others; [congruence|]. by apply C.
  - rewrite removed_negative. apply C.
Qed.
Lemma coherent_evict_negative h w : coherent w -> coherent {| db := w.(db); cache := evict_negative h w.(cache) |}.
Proof. intros C. split; [apply C|apply C|apply C|]. intros h' e. cbn. rewrite lookup_delete_Some. intros [_ He]. by apply (coh_negative w C h'). Qed.
Lemma coherent_set_negative h w : coherent w -> coherent (cache_Set h negative_entry w).
Proof.
  intros C. split; [apply C|apply C|apply C|]. intros h' e. cbn. destruct (decide (h = h')) as [<-|]; [|rewrite lookup_insert_ne by done; apply C].
  rewrite lookup_insert_eq. by intros [= <-].
Qed.
(** With no call beside it, a [Set] is never rolled back. *)
Lemma set_alone h (e : CachedKey) (c : Cache) : e.(ApiKeys.Negative) = false -> ApiKeys.instID e <> "" ->
  ApiKeys.Set_ h e c = ApiKeys.set_add h e (ApiKeys.set_begin h e c).1.
Proof.
  intros Hn Hi. unfold ApiKeys.Set_. rewrite Hn. unfold ApiKeys.set_begin. apply String.eqb_neq in Hi as ->. cbn [fst]. unfold ApiKeys.set_check.
  match goal with |- context [ApiKeys.gen ?j ?c' =? ?g] => change (ApiKeys.gen j c') with g end. by rewrite Z.eqb_refl.
Qed.
Lemma coherent_set h e w : ApiKeys.instID e <> "" -> current w.(db) h e -> coherent w -> coherent (cache_Set h e w).
Proof.
  intros Hi Cur C. assert (Hn : ApiKeys.Negative e = false) by (by destruct Cur as (? & ? & _ & ? & _)).
  unfold cache_Set. rewrite (set_alone h e _ Hn Hi). unfold ApiKeys.set_begin. apply String.eqb_neq in Hi as ->. cbn [fst].
  assert (Ix : forall h' j, h' ∈ ApiKeys.hashes_of j w.(cache) \/ (h' = h /\ j = ApiKeys.instID e) ->
    h' ∈ ApiKeys.hashes_of j (ApiKeys.set_add h e (ApiKeys.with_index (<[ApiKeys.instID e := {[h]} ∪ ApiKeys.hashes_of (ApiKeys.instID e) w.(cache)]> w.(cache).(ApiKeys.byInstallation)) w.(cache)))).
  { intros h' j Hin. unfold ApiKeys.set_add. rewrite ApiKeys.hashes_with_positive, ApiKeys.hashes_insert. destruct (decide (ApiKeys.instID e = j)) as [<-|]; set_solver. }
  split; [apply C| | |apply C]; intros h' e'; cbn [cache db]; change (ApiKeys.positive (ApiKeys.set_add h e ?c)) with (<[h := e]> (ApiKeys.positive w.(cache))).
  all: destruct (decide (h = h')) as [<-|]; [rewrite lookup_insert_eq; intros [= <-]|rewrite lookup_insert_ne by done; intros He].
  - done.
  - by apply C.
  - apply Ix. by right.
  - apply Ix. left. by apply C.
Qed.

(** *** Every call keeps it *)

Lemma same_trans j d1 d2 d3 : same_but j d1 d2 -> same_but None d2 d3 -> same_but j d1 d3.
Proof.
  intros S1 S2 h k i Hg Hj. destruct (S1 h k i Hg Hj) as (Hg2 & Hl & Hx). destruct (S2 h k i Hg2 ltac:(done)) as (Hg3 & Hl3 & Hx3).
  by rewrite Hl3, Hx3.
Qed.
Lemma same_weaken j d d' : same_but None d d' -> same_but j d d'.
Proof. intros S h k i Hg _. by apply S. Qed.
Lemma fetched_external (w : World) f k : canonical k -> let x := fetch_external wired_external f w k in x = [] \/ GetForInstallation w.(db) k = Some x.
Proof.
  intros Hc x. unfold x, fetch_external. destruct wired_external, (f_external f); cbn [negb]; auto. rewrite Hc.
  destruct (GetForInstallation (db w) k); auto.
Qed.
Lemma fetched_lists w f k l : canonical k.(ID) -> fetch_lists wired_lists f w k.(ID) = Some l -> l = lists_of w.(db) k.
Proof.
  intros Hc. unfold fetch_lists, lists_of. destruct wired_lists; cbn [negb]; [|by intros [= <-]]. destruct (f_lists f); [done|]. rewrite Hc. by intros [= <-].
Qed.
Lemma current_of_row w h k i x l : db_wf w.(db) -> GetActiveByHashWithInstallation w.(db) h = Some (k, i) ->
  (x = [] \/ GetForInstallation w.(db) k.(InstallationID) = Some x) -> (l = lists_of w.(db) k \/ k.(Scope) = ScopeAnalyticsRead) ->
  current w.(db) h (positive_entry k i x l) /\ ApiKeys.instID (positive_entry k i x l) <> "".
Proof.
  intros W Hg Hx Hl. destruct (active_key _ _ _ _ W Hg) as (Hin & _ & _ & _ & _ & Hid). destruct (wf_keys _ W k Hin) as [_ Hci].
  assert (E : ApiKeys.instID (positive_entry k i x l) = InstallationID k) by done. rewrite E. split; [|by apply canonical_nonempty].
  exists k, i. done.
Qed.
Lemma verify_keeps live liven f token w : coherent w -> coherent (VerifyAPIKey wired_external wired_lists live liven f token w).2.
Proof.
  intros C. unfold VerifyAPIKey. destruct (negb _); [done|].
  set (h := HashAPIKeySHA256 token).
  assert (L : coherent (if f_get f then (@Err AuthError (Verified (X := X) (Y := Y)) ErrRepository, w)
      else match GetActiveByHashWithInstallation (db w) h with
           | None => (Err ErrInvalidToken, cache_Set h negative_entry w)
           | Some (k, i) =>
               if negb (String.eqb (Normalized (Scope k)) ScopeRouting) then (Err ErrWrongKeyScope, w)
               else
                 let ext := fetch_external wired_external f w (InstallationID k) in
                 match fetch_lists wired_lists f w (ID k) with
                 | Some lists => (Ok {| v_Installation := Some i; v_APIKey := k; v_ExternalKeys := ext; v_ClusterModelLists := lists |},
                                  cache_Set h (positive_entry k i ext lists) w)
                 | None => (Ok {| v_Installation := Some i; v_APIKey := k; v_ExternalKeys := ext; v_ClusterModelLists := [] |}, w)
                 end
           end).2).
  { destruct (f_get f); [done|]. destruct (GetActiveByHashWithInstallation (db w) h) as [[k i]|] eqn:Hg; [|by apply coherent_set_negative].
    destruct (negb _); [done|]. destruct (active_key _ _ _ _ (coh_db w C) Hg) as (Hin & _). destruct (wf_keys _ (coh_db w C) k Hin) as [Hid Hinst].
    destruct (fetch_lists _ f w (ID k)) as [l|] eqn:El; [|done]. apply (fetched_lists w f k l Hid) in El as ->. cbn [snd].
    destruct (current_of_row w h k i (fetch_external wired_external f w (InstallationID k)) (lists_of (db w) k) (coh_db w C) Hg) as [Cur Hne]; [|by left|].
    - by apply (fetched_external w f (InstallationID k)).
    - by apply coherent_set. }
  destruct (ApiKeys.Get _ _ h (cache w)) as [e|]; [|exact L]. destruct (ApiKeys.Negative e); [done|]. destruct (p_APIKey _); [|exact L]. by destruct (negb _).
Qed.
Lemma verify_analytics_keeps live liven f token w : coherent w -> coherent (VerifyAnalyticsAPIKey live liven f token w).2.
Proof.
  intros C. unfold VerifyAnalyticsAPIKey. destruct (negb _); [done|]. set (h := HashAPIKeySHA256 token).
  assert (L : coherent (if f_get f then (@Err AuthError (option Installation * APIKey) ErrRepository, w)
      else match GetActiveByHashWithInstallation (db w) h with
           | None => (Err ErrInvalidToken, cache_Set h negative_entry w)
           | Some (k, i) => if negb (String.eqb (Scope k) ScopeAnalyticsRead) then (Err ErrWrongKeyScope, w) else (Ok (Some i, k), cache_Set h (positive_entry k i [] []) w)
           end).2).
  { destruct (f_get f); [done|]. destruct (GetActiveByHashWithInstallation (db w) h) as [[k i]|] eqn:Hg; [|by apply coherent_set_negative].
    destruct (String.eqb_spec (Scope k) ScopeAnalyticsRead) as [Hs|]; [|done]. cbn [negb snd].
    destruct (current_of_row w h k i [] [] (coh_db w C) Hg) as [Cur Hne]; [by left|by right|]. by apply coherent_set. }
  destruct (ApiKeys.Get _ _ h (cache w)) as [e|]; [|exact L]. destruct (ApiKeys.Negative e); [done|]. destruct (p_APIKey _); [|exact L]. by destruct (negb _).
Qed.
(** Issuing a key changes no answer of the database but the new key's. *)
Lemma issue_effect f i scope name by_ newID tok kid (w : World) r w' : IssueScopedAPIKey f i scope name by_ newID tok kid w = (r, w') ->
  (w' = w /\ exists e, r = Err e) \/ (exists (d : DB) k raw, w' = with_db d w /\ r = Ok (k, raw) /\ k.(ID) = newID /\ Create k w.(db) = Some d).
Proof.
  unfold IssueScopedAPIKey. destruct (negb _); [intros [= <- <-]; eauto|]. destruct (APITokenFingerprint _) as [[h p] s].
  destruct (f_create f); [intros [= <- <-]; eauto|]. destruct (uuid_Parse i) as [i'|]; [|intros [= <- <-]; eauto].
  destruct (Create _ (db w)) as [d|] eqn:Ec; [|intros [= <- <-]; eauto]. intros [= <- <-]. right. eexists _, _, _. split; [done|]. split; [done|]. split; [|exact Ec]. done.
Qed.
Lemma issue_keeps f i scope name by_ newID tok kid w : canonical newID -> coherent w -> coherent (IssueScopedAPIKey f i scope name by_ newID tok kid w).2.
Proof.
  intros Hn C. destruct (IssueScopedAPIKey f i scope name by_ newID tok kid w) as [r w'] eqn:E.
  destruct (issue_effect _ _ _ _ _ _ _ _ _ _ _ E) as [[-> _]|(d & k & raw & -> & _ & Hid & Hc)]; [done|]. cbn [snd].
  destruct (create_frame k _ _ Hc) as [S W]. apply coherent_db; [done| |done]. apply W; [apply C|by rewrite Hid].
Qed.
Lemma deleted_effect f i id (w : World) r w' : canonical i -> repo_SoftDelete f i id w = (r, w') ->
  (w' = w /\ exists e, r = Err e) \/ (exists (d : DB) n, w' = with_db d w /\ r = Ok n /\ same_but (Some i) w.(db) d /\ (db_wf w.(db) -> db_wf d)).
Proof.
  intros Hi. unfold repo_SoftDelete. destruct (f_delete f); [intros [= <- <-]; eauto|]. rewrite Hi. destruct (uuid_Parse id) as [id'|]; [|intros [= <- <-]; eauto].
  destruct (SoftDelete i id' (db w)) as [n d] eqn:Es. intros [= <- <-]. right. exists d, n. split; [done|]. split; [done|].
  replace d with (SoftDelete i id' (db w)).2 by by rewrite Es. split; [apply soft_delete_frame|apply soft_delete_wf].
Qed.
Lemma delete_keeps f i id w : canonical i -> coherent w -> coherent (DeleteAPIKey f i id w).2.
Proof.
  intros Hi C. unfold DeleteAPIKey. destruct (repo_SoftDelete f i id w) as [r w'] eqn:E.
  destruct (deleted_effect _ _ _ _ _ _ Hi E) as [[-> [e ->]]|(d & n & -> & -> & S & W)]; [done|]. cbn [snd].
  apply coherent_invalidate; [by apply canonical_nonempty|done| |done]. by apply W, C.
Qed.
Lemma delete_external_keeps f i id w : canonical i -> coherent w -> coherent (DeleteExternalAPIKey f i id w).2.
Proof.
  intros Hi C. unfold DeleteExternalAPIKey. destruct (f_delete f); [done|]. rewrite Hi. destruct (uuid_Parse id) as [id'|]; [|done]. cbn [snd].
  apply coherent_invalidate; [by apply canonical_nonempty|apply ext_delete_frame| |done]. destruct (coh_db w C) as [Wk Wi]. by split.
Qed.
Lemma rotate_keeps f i keyID by_ newID tok kid w : clean w (ORotate f i keyID by_ newID tok kid) -> coherent w -> coherent (RotateAPIKey f i keyID by_ newID tok kid w).2.
Proof.
  intros (Hi & Hn & Hr) C. revert Hr. unfold RotateAPIKey. destruct (repo_List f i w) as [keys|]; [|done]. destruct (List.find _ keys) as [target|]; [|done].
  destruct (repo_SoftDelete f i (ID target) w) as [r w1] eqn:E1. destruct (deleted_effect _ _ _ _ _ _ Hi E1) as [[-> [e ->]]|(d & n & -> & -> & S & W)]; [done|].
  assert (Same : db (with_db d w) = db w -> coherent (with_db d w)) by (cbn; intros ->; by destruct w).
  destruct (n =? 0); cbn [fst snd]; [intros [Hd|[? Hd]]; [by apply Same|done]|].
  destruct (IssueScopedAPIKey _ _ _ _ _ _ _ _ _) as [r w2] eqn:E2.
  destruct (issue_effect _ _ _ _ _ _ _ _ _ _ _ E2) as [[-> [e ->]]|(d2 & k & raw & -> & -> & Hid & Hc)]; cbn [fst snd]; [intros [Hd|[? Hd]]; [by apply Same|done]|].
  intros _. destruct (create_frame k _ _ Hc) as [S2 W2]. cbn [db with_db] in *. change (with_db d2 (with_db d w)) with (with_db d2 w).
  apply coherent_invalidate; [by apply canonical_nonempty|by apply (same_trans _ _ d)| |done]. apply W2; [by apply W, C|by rewrite Hid].
Qed.
Lemma change_keeps {A} f g x i (a : A) w : (forall j : Installation, inst_ID (g j) = inst_ID j /\ inst_Deleted (g j) = inst_Deleted j) -> canonical i ->
  coherent w -> coherent (change f g x i a w).2.
Proof.
  intros Hg Hi C. unfold change, repo_update. destruct (f_update f); [done|]. rewrite Hi. destruct (update_installation g x i (db w)) as [d|] eqn:E; [|done].
  destruct (update_frame g x i _ _ Hg E) as [S W]. cbn [snd]. apply coherent_invalidate; [by apply canonical_nonempty|done| |done]. by apply W, C.
Qed.
Lemma playground_keeps f i newID tok kid w : canonical newID -> coherent w -> coherent (ResolvePlaygroundAPIKeyID f i newID tok kid w).2.
Proof.
  intros Hn C. unfold ResolvePlaygroundAPIKeyID. destruct (String.eqb i ""); [done|]. destruct (repo_List f i w); [|done]. destruct (List.find _ _); [done|].
  pose proof (issue_keeps f i ScopeRouting (Some PlaygroundAPIKeyName) None newID tok kid w Hn C) as K.
  destruct (IssueScopedAPIKey _ _ _ _ _ _ _ _ _) as [[[k raw]|e] w']; exact K.
Qed.
Lemma serve_keeps o w : clean w o -> coherent w -> coherent (serve w o).
Proof.
  destruct o; cbn [serve clean]; intros Hc C.
  - by apply verify_keeps.
  - by apply verify_analytics_keeps.
  - by apply issue_keeps.
  - by apply rotate_keeps.
  - by apply delete_keeps.
  - by apply delete_external_keeps.
  - unfold SetInstallationExcludedModels. destruct (unknown_model _ _); [done|]. by apply change_keeps.
  - unfold SetInstallationAllowedModels. destruct (if bool_decide _ then _ else _); [done|]. by apply change_keeps.
  - by apply change_keeps.
  - by apply change_keeps.
  - unfold SetInstallationContentCaptureMode. destruct mode; [case_bool_decide; [|done]|]; by apply change_keeps.
  - by apply playground_keeps.
  - by apply coherent_evict.
  - by apply coherent_evict_negative.
Qed.
Definition started (d : DB) : World := {| db := d; cache := ApiKeys.NewLRUAPIKeyCache |}.
Lemma coherent_started d : db_wf d -> coherent (started d).
Proof. intros W. split; [exact W| | |]; intros h e; cbn; by rewrite lookup_empty. Qed.
Lemma history_coherent ops : forall w, all_clean w ops -> coherent w -> coherent (fold_left serve ops w).
Proof. induction ops as [|o ops IH]; intros w; [done|]. intros [Hc Hr] C. cbn. apply IH; [done|]. by apply serve_keeps. Qed.

(** ** What a verification answers *)

(** The entry served is one of the database's rows, unless it is the negative one. *)
Lemma served_entry live liven h w e : coherent w -> ApiKeys.Get live liven h w.(cache) = Some e ->
  (e.(ApiKeys.Negative) = false /\ current w.(db) h e) \/ (e.(ApiKeys.Negative) = true /\ liven h = true /\ w.(cache).(ApiKeys.negative) !! h = Some e).
Proof.
  intros C. unfold ApiKeys.Get. destruct (live h); [destruct (ApiKeys.positive (cache w) !! h) as [e'|] eqn:Ep|].
  - intros [= ->]. left. pose proof (coh_positive w C h e Ep) as Cur. split; [|done]. by destruct Cur as (? & ? & _ & ? & _).
  - destruct (liven h) eqn:El; [|done]. intros He. right. split; [by apply (coh_negative w C h)|done].
  - destruct (liven h) eqn:El; [|done]. intros He. right. split; [by apply (coh_negative w C h)|done].
Qed.
Definition answers (d : DB) (f : Faults) (h : string) (v : Verified (X := X) (Y := Y)) : Prop :=
  exists i, GetActiveByHashWithInstallation d h = Some (v.(v_APIKey), i) /\ v.(v_Installation) = Some i /\ Normalized v.(v_APIKey).(Scope) = ScopeRouting /\
    (v.(v_ExternalKeys) = [] \/ GetForInstallation d v.(v_APIKey).(InstallationID) = Some v.(v_ExternalKeys)) /\
    (v.(v_ClusterModelLists) = lists_of d v.(v_APIKey) \/ (v.(v_ClusterModelLists) = [] /\ f.(f_lists) = true)).
Lemma verify_sound live liven f token w v w' : coherent w -> VerifyAPIKey wired_external wired_lists live liven f token w = (Ok v, w') ->
  HasAPIKeyPrefix token = true /\ answers w.(db) f (HashAPIKeySHA256 token) v.
Proof.
  intros C. unfold VerifyAPIKey. destruct (HasAPIKeyPrefix token); cbn [negb]; [|done]. set (h := HashAPIKeySHA256 token).
  destruct (ApiKeys.Get _ _ h (cache w)) as [e|] eqn:Eg.
  - destruct (served_entry _ _ _ _ _ C Eg) as [[-> (k & i & Hg & _ & _ & Hk & Hi & Hx & Hl)]|[-> _]]; [|done]. rewrite Hk.
    destruct (String.eqb_spec (Normalized (Scope k)) ScopeRouting) as [Hs|]; cbn [negb]; [|done]. intros [= <- <-]. split; [done|]. exists i. cbn [v_APIKey v_Installation v_ExternalKeys v_ClusterModelLists].
    split; [done|]. split; [done|]. split; [done|]. split; [done|]. destruct Hl as [Hl|Hl]; [by left|]. rewrite Hl in Hs. by vm_compute in Hs.
  - destruct (f_get f); [done|]. destruct (GetActiveByHashWithInstallation (db w) h) as [[k i]|] eqn:Hg; [|done].
    destruct (String.eqb_spec (Normalized (Scope k)) ScopeRouting) as [Hs|]; cbn [negb]; [|done].
    destruct (active_key _ _ _ _ (coh_db w C) Hg) as (Hin & _). destruct (wf_keys _ (coh_db w C) k Hin) as [Hid Hci].
    destruct (fetch_lists _ f w (ID k)) as [l|] eqn:El; intros [= <- <-]; (split; [done|]; exists i; cbn [v_APIKey v_Installation v_ExternalKeys v_ClusterModelLists];
      split; [exact Hg|]; split; [done|]; split; [done|]; split; [by apply fetched_external|]).
    + left. by apply (fetched_lists w f).
    + right. split; [done|]. unfold fetch_lists in El. destruct (negb wired_lists); [done|]. destruct (f_lists f); [done|]. by rewrite Hid in El.
Qed.
Lemma analytics_sound live liven f token w i k w' : coherent w -> VerifyAnalyticsAPIKey live liven f token w = (Ok (i, k), w') ->
  HasPrefix token (AnalyticsAPIKeyPrefix +:+ "_") = true /\ k.(Scope) = ScopeAnalyticsRead /\
  exists inst, i = Some inst /\ GetActiveByHashWithInstallation w.(db) (HashAPIKeySHA256 token) = Some (k, inst).
Proof.
  intros C. unfold VerifyAnalyticsAPIKey. destruct (HasPrefix token _); cbn [negb]; [|done]. set (h := HashAPIKeySHA256 token).
  destruct (ApiKeys.Get _ _ h (cache w)) as [e|] eqn:Eg.
  - destruct (served_entry _ _ _ _ _ C Eg) as [[-> (k' & i' & Hg & _ & _ & Hk & Hi & _)]|[-> _]]; [|done]. rewrite Hk.
    destruct (String.eqb_spec (Scope k') ScopeAnalyticsRead) as [Hs|]; cbn [negb]; [|done]. intros [= <- <- <-]. eauto.
  - destruct (f_get f); [done|]. destruct (GetActiveByHashWithInstallation (db w) h) as [[k' i']|] eqn:Hg; [|done].
    destruct (String.eqb_spec (Scope k') ScopeAnalyticsRead) as [Hs|]; cbn [negb]; [|done]. intros [= <- <- <-]. eauto.
Qed.
(** An active key is served unless the database fails, or a refusal of its hash is still cached. *)
Lemma verify_complete live liven f token w k i : coherent w -> HasAPIKeyPrefix token = true ->
  GetActiveByHashWithInstallation w.(db) (HashAPIKeySHA256 token) = Some (k, i) -> Normalized k.(Scope) = ScopeRouting -> f.(f_get) = false ->
  (liven (HashAPIKeySHA256 token) = true -> w.(cache).(ApiKeys.negative) !! HashAPIKeySHA256 token = None) ->
  exists v, (VerifyAPIKey wired_external wired_lists live liven f token w).1 = Ok v.
Proof.
  intros C Hp Hg Hs Hf Hneg. unfold VerifyAPIKey. rewrite Hp. cbn [negb]. set (h := HashAPIKeySHA256 token) in *.
  destruct (ApiKeys.Get _ _ h (cache w)) as [e|] eqn:Eg.
  - destruct (served_entry _ _ _ _ _ C Eg) as [[-> (k' & i' & Hg' & _ & _ & Hk & _)]|(_ & Hl & He)]; [|by rewrite (Hneg Hl) in He].
    rewrite Hg in Hg'. injection Hg' as <- <-. rewrite Hk, Hs. cbn. eauto.
  - rewrite Hf, Hg, Hs. cbn. destruct (fetch_lists _ f w (ID k)); eauto.
Qed.

(** C14: after any calls — issues, deletions, rotations that complete, changes of an installation's settings, verifications, in any order
    and with any of the database's calls failing — and whatever the cache has dropped, a token is accepted for routing only when it has a router's prefix and
    the database holds, now, an active key of routing scope under its hash, in an installation that exists: the answer is that row and its
    installation as they stand now, with the current provider keys or none, and the current cluster lists, or none when their fetch fails on this call.  The analytics endpoint
    likewise accepts only the active analytics keys.  So a deleted or rotated key is refused at once, and a changed setting
    is in force at the next request.  Conversely a key that is active is accepted, unless the database fails or a recent refusal of the
    same token is still cached. *)
Theorem verified_is_current (d : DB) (ops : list op) (live liven : string -> bool) (f : Faults) (token : string) :
  db_wf d -> all_clean (started d) ops ->
  let w := fold_left serve ops (started d) in
  let h := HashAPIKeySHA256 token in
  (forall v w', VerifyAPIKey wired_external wired_lists live liven f token w = (Ok v, w') -> HasAPIKeyPrefix token = true /\ answers w.(db) f h v) /\
  (forall i k w', VerifyAnalyticsAPIKey live liven f token w = (Ok (i, k), w') ->
    HasPrefix token (AnalyticsAPIKeyPrefix +:+ "_") = true /\ k.(Scope) = ScopeAnalyticsRead /\
    exists inst, i = Some inst /\ GetActiveByHashWithInstallation w.(db) h = Some (k, inst)) /\
  (forall k i, HasAPIKeyPrefix token = true -> GetActiveByHashWithInstallation w.(db) h = Some (k, i) -> Normalized k.(Scope) = ScopeRouting ->
    f.(f_get) = false -> (liven h = true -> w.(cache).(ApiKeys.negative) !! h = None) ->
    exists v, (VerifyAPIKey wired_external wired_lists live liven f token w).1 = Ok v).
Proof.
  intros W Hc w h. assert (C : coherent w) by (by apply history_coherent, coherent_started).
  split; [|split].
  - intros v w'. by apply verify_sound.
  - intros i k w'. by apply analytics_sound.
  - intros k i. by apply verify_complete.
Qed.
End Service.

(** ** Concrete histories *)

#[local] Instance any_uuid : Uuid := {| uuid_Parse s := if String.eqb s "" then None else Some s;
  uuid_canonical s c := ltac:(cbn; destruct (String.eqb_spec s ""); [done|intros [= <-]; by destruct (String.eqb_spec s "")]) |}.
#[local] Instance bytewise : Collation := {| collate := String.leb |}.
Definition an_installation : Installation (Y := unit) := {| inst_ID := "i1"; inst_ExternalID := "org"; inst_Deleted := false; ExcludedModels := []; AllowedModels := [];
  RoutingQualityWeight := None; HideTerminalSurfaces := false; ContentCaptureMode := None; other_columns := tt |}.
Definition a_db : DB (X := unit) (Y := unit) := {| api_keys := []; installations := {["i1" := an_installation]}; external_keys := []; cluster_lists := [] |}.
Lemma a_db_wf : db_wf a_db.
Proof.
  split; [intros k Hk; by apply elem_of_nil in Hk|]. intros id i. cbn. destruct (decide ("i1" = id)) as [<-|]; [|by rewrite lookup_singleton_ne].
  rewrite lookup_singleton_eq. by intros [= <-].
Qed.
Definition always : string -> bool := fun _ => true.
Definition failing_create : Faults := {| f_get := false; f_external := false; f_lists := false; f_list := false; f_delete := false; f_create := true; f_update := false |}.
Definition issue_and_use : list (op) := [OIssue no_faults "i1" "" None None "k1" "abcdefgh" "x"; OVerify always always no_faults "rk_abcdefgh"].
(** A rotation whose new key cannot be created leaves the old one deleted in the database and served from the cache. *)
Lemma half_rotation_stale :
  let w := fold_left (serve (X := unit) (Y := unit) false false) (issue_and_use ++ [ORotate failing_create "i1" "k1" None "k2" "ijklmnop" "y"])%list (started a_db) in
  GetActiveByHashWithInstallation w.(db) (HashAPIKeySHA256 "rk_abcdefgh") = None /\
  exists v, (VerifyAPIKey false false always always no_faults "rk_abcdefgh" w).1 = Ok v.
Proof. vm_compute. split; [reflexivity|eexists; reflexivity]. Qed.
Lemma verified_is_current_witness :
  let ops := (issue_and_use ++ [ODelete no_faults "i1" "k1"])%list in
  let w := fold_left (serve (X := unit) (Y := unit) false false) ops (started a_db) in
  all_clean (X := unit) (Y := unit) false false (started a_db) ops /\
  (exists v, (VerifyAPIKey false false always always no_faults "rk_abcdefgh" (fold_left (serve (X := unit) (Y := unit) false false) issue_and_use (started a_db))).1 = Ok v) /\
  (forall v w', VerifyAPIKey false false always always no_faults "rk_abcdefgh" w <> (Ok v, w')).
Proof.
  intros ops w. assert (Hc : all_clean (X := unit) (Y := unit) false false (started a_db) ops) by (cbn; repeat split; reflexivity).
  split; [exact Hc|]. split; [vm_compute; eexists; reflexivity|]. intros v w' E.
  destruct (verified_is_current false false a_db ops always always no_faults "rk_abcdefgh" a_db_wf Hc) as (S & _ & _).
  destruct (S v w' E) as [_ (i & Hg & _)]. vm_compute in Hg. discriminate Hg.
Defined.
