(* ===== verification/Flags.v ===== *)
(** Behavioral flags (internal/flags, proxy/flag_resolution.go, postgres/flag_definitions.go): the registry, the overrides of an
    organization and their text in the database, and what a request reads of them.

    A map is ranged over in an order Go leaves open: of several errors the first in that order is reported. *)

From stdpp Require Import base gmap sets list strings sorting.
From Stdlib Require Import ZArith Lia Ascii.
From S2P Require Import Prelude Strings Sse Floats Marshal Hash KeyCache Auth.
Open Scope string_scope.
Open Scope Z_scope.

(** ** The registry *)

Inductive FlagKind := KindBool | KindInt | KindFloat | KindString.
#[export] Instance FlagKind_eq_dec : EqDecision FlagKind.
Proof. solve_decision. Defined.
Record FlagDefinition := { Key : string; EnvVar : string; Kind : FlagKind; Description : string; OrgOverridable : bool }.
Definition KeyStruggleShadowEnabled : string := "struggle_shadow_enabled".
Definition KeyStruggleEscalationEnabled : string := "struggle_escalation_enabled".
Definition KeyStruggleEscalationHoldout : string := "struggle_escalation_holdout_pct".
Definition KeySpiralShadowEnabled : string := "spiral_shadow_enabled".
Definition KeyTurnSignalCapture : string := "turn_signal_capture_enabled".
Definition KeyLoopEscalationEnabled : string := "loop_escalation_enabled".
Definition KeyLoopEscalationHoldoutPct : string := "loop_escalation_holdout_pct".
Definition KeyTextRepetitionBreak : string := "text_repetition_break_enabled".
Definition KeyPlannerEnabled : string := "planner_enabled".
Definition KeyScoreToolResultTurns : string := "score_tool_result_turns".
Definition KeyPrefixTrimFreeSwitch : string := "prefix_trim_free_switch".
Definition KeyAuthoritativeUpgradeGate : string := "authoritative_upgrade_gate".
Definition KeyAuthorityCacheShadow : string := "authority_cache_shadow".
Definition KeySiblingFailover : string := "sibling_failover".
Definition KeyEffortEscalation : string := "effort_escalation".
Definition KeyCyberRefusalRepin : string := "cyber_refusal_repin".
Definition KeyCyberRefusalFallback : string := "cyber_refusal_fallback_model".
Definition KeyEmbedOnlyUserMessage : string := "embed_only_user_message".
Definition KeyOpenAIResponsesBroad : string := "openai_responses_broad".
Definition KeyAllowedModelsHeader : string := "allowed_models_header".
Definition RegistryVersion : Z := 6.
Definition Registry : list FlagDefinition := [
  {| Key := KeyStruggleShadowEnabled; EnvVar := "ROUTER_STRUGGLE_SHADOW_ENABLED"; Kind := KindBool; OrgOverridable := true;
     Description := "Session-level struggle detector (log-only; writes struggle_shadow_events)." |};
  {| Key := KeyStruggleEscalationEnabled; EnvVar := "ROUTER_STRUGGLE_ESCALATION_ENABLED"; Kind := KindBool; OrgOverridable := true;
     Description := "Early sideways escalation for sessions struggling in a repeated tool-call cycle." |};
  {| Key := KeyStruggleEscalationHoldout; EnvVar := "ROUTER_STRUGGLE_ESCALATION_HOLDOUT_PCT"; Kind := KindInt; OrgOverridable := true;
     Description := "Percent of struggle detections recorded without escalating, as a self-recovery baseline. 0-100." |};
  {| Key := KeySpiralShadowEnabled; EnvVar := "ROUTER_SPIRAL_SHADOW_ENABLED"; Kind := KindBool; OrgOverridable := true;
     Description := "Per-turn spiral detector (log-only)." |};
  {| Key := KeyTurnSignalCapture; EnvVar := "ROUTER_TURN_SIGNAL_CAPTURE_ENABLED"; Kind := KindBool; OrgOverridable := true;
     Description := "Persist the per-turn behavioral signal snapshot onto telemetry rows. Skipped regardless for installations that opted out of AI training or set content capture to off." |};
  {| Key := KeyLoopEscalationEnabled; EnvVar := "ROUTER_LOOP_ESCALATION_ENABLED"; Kind := KindBool; OrgOverridable := true;
     Description := "Cyclic-loop escalate-to-opus action. Detection telemetry continues when off." |};
  {| Key := KeyLoopEscalationHoldoutPct; EnvVar := "ROUTER_LOOP_ESCALATION_HOLDOUT_PCT"; Kind := KindInt; OrgOverridable := true;
     Description := "Percent of loop detections recorded without escalating, as a self-recovery baseline. 0-100." |};
  {| Key := KeyTextRepetitionBreak; EnvVar := "ROUTER_TEXT_REPETITION_BREAK_ENABLED"; Kind := KindBool; OrgOverridable := true;
     Description := "Enforcing text-repetition loop break." |};
  {| Key := KeyPlannerEnabled; EnvVar := "ROUTER_PLANNER_ENABLED"; Kind := KindBool; OrgOverridable := true;
     Description := "Cache-aware EV planner for mid-session model switches." |};
  {| Key := KeyScoreToolResultTurns; EnvVar := "ROUTER_SCORE_TOOL_RESULT_TURNS"; Kind := KindBool; OrgOverridable := true;
     Description := "Re-score tool-result turns instead of following the session pin." |};
  {| Key := KeyPrefixTrimFreeSwitch; EnvVar := "ROUTER_PREFIX_TRIM_FREE_SWITCH"; Kind := KindBool; OrgOverridable := true;
     Description := "Treat a trimmed prompt prefix as a free switch point (cache already lost)." |};
  {| Key := KeyAuthoritativeUpgradeGate; EnvVar := "ROUTER_AUTHORITATIVE_UPGRADE_GATE"; Kind := KindBool; OrgOverridable := true;
     Description := "Keep the confidence floor active for authoritative-per-turn policies." |};
  {| Key := KeyAuthorityCacheShadow; EnvVar := "ROUTER_AUTHORITY_CACHE_SHADOW"; Kind := KindBool; OrgOverridable := true;
     Description := "Record the HMM cache gate's counterfactual verdict on authoritative-per-turn turns. Observation only; never changes what is served." |};
  {| Key := KeySiblingFailover; EnvVar := "ROUTER_SIBLING_FAILOVER"; Kind := KindBool; OrgOverridable := true;
     Description := "Degrade to a same-cluster candidate when every binding for the routed model is exhausted." |};
  {| Key := KeyEffortEscalation; EnvVar := "ROUTER_EFFORT_ESCALATION"; Kind := KindBool; OrgOverridable := true;
     Description := "Apply policy-requested reasoning-effort escalation." |};
  {| Key := KeyCyberRefusalRepin; EnvVar := "ROUTER_CYBER_REFUSAL_REPIN"; Kind := KindBool; OrgOverridable := true;
     Description := "Re-pin a session off a model that returned a cyber safety refusal." |};
  {| Key := KeyCyberRefusalFallback; EnvVar := "ROUTER_CYBER_REFUSAL_FALLBACK_MODEL"; Kind := KindString; OrgOverridable := true;
     Description := "Fallback model for a cyber-refusal re-pin with no runner-up." |};
  {| Key := KeyEmbedOnlyUserMessage; EnvVar := "ROUTER_EMBED_ONLY_USER_MESSAGE"; Kind := KindBool; OrgOverridable := true;
     Description := "Embed user-role text only, instead of the concatenated stream." |};
  {| Key := KeyOpenAIResponsesBroad; EnvVar := "ROUTER_OPENAI_RESPONSES_BROAD"; Kind := KindBool; OrgOverridable := true;
     Description := "Serve every direct-OpenAI turn on /v1/responses. Off, only the reasoning tool turn chat/completions rejects is promoted." |};
  {| Key := KeyAllowedModelsHeader; EnvVar := "ROUTER_ALLOWED_MODELS_HEADER"; Kind := KindBool; OrgOverridable := true;
     Description := "Honor the x-aiand-allowed-models request header (per-request routing subset) for this organization even when the installation is not authorized for policy headers." |}
].
Definition definitions : gmap string FlagDefinition := foldl (fun m d => <[d.(Key) := d]> m) ∅ Registry.
Definition Lookup (key : string) : option FlagDefinition := definitions !! key.

(** ** Overrides *)

Record Overrides := { Bools : gmap string bool; Ints : gmap string Z; Floats : gmap string f64; Strings : gmap string string }.
Definition no_overrides : Overrides := {| Bools := ∅; Ints := ∅; Floats := ∅; Strings := ∅ |}.
Definition IsEmpty (o : Overrides) : bool :=
  (bool_decide (o.(Bools) = ∅) && bool_decide (o.(Ints) = ∅) && bool_decide (dom o.(Floats) = ∅) && bool_decide (o.(Strings) = ∅))%bool.
Inductive FlagError :=
| ErrUnknownKey (k : string) | ErrNotOverridable (k : string) | ErrWrongKind (k : string) | ErrInvalidValue (k : string)
| ErrDecode | ErrExpects (k : string).
(** The keys sorted. *)
Definition Keys (o : Overrides) : list string :=
  merge_sort (fun a b => String.leb a b = true)
    ((map_to_list o.(Bools)).*1 ++ (map_to_list o.(Ints)).*1 ++ (map_to_list o.(Floats)).*1 ++ (map_to_list o.(Strings)).*1)%list.

(** [check] of [ValidateOverrides], over the keys seen before. *)
Definition check (key : string) (kind : FlagKind) (seen : gset string) : res FlagError (gset string) :=
  if in_set key seen then Err (ErrWrongKind key)
  else
    let seen := {[key]} ∪ seen in
    match definitions !! key with
    | None => Err (ErrUnknownKey key)
    | Some def =>
        if negb def.(OrgOverridable) then Err (ErrNotOverridable key)
        else if bool_decide (def.(Kind) = kind) then Ok seen else Err (ErrWrongKind key)
    end.
Definition range {A S} (f : string -> A -> S -> res FlagError S) (m : gmap string A) (s : S) : res FlagError S :=
  foldl (fun acc kv => let! s := acc in f kv.1 kv.2 s) (Ok s) (map_to_list m).
Definition holdout (key : string) : bool := (String.eqb key KeyLoopEscalationHoldoutPct || String.eqb key KeyStruggleEscalationHoldout)%bool.
Definition check_int (key : string) (value : Z) (seen : gset string) : res FlagError (gset string) :=
  let! seen := check key KindInt seen in
  if (holdout key && ((value <? 0) || (100 <? value)))%bool then Err (ErrInvalidValue key) else Ok seen.
Definition check_string (key value : string) (seen : gset string) : res FlagError (gset string) :=
  let! seen := check key KindString seen in
  if (String.eqb key KeyCyberRefusalFallback && String.eqb (TrimSpace value) "")%bool then Err (ErrInvalidValue key) else Ok seen.
Definition ValidateOverrides (o : Overrides) : res FlagError unit :=
  let! seen := range (fun key _ => check key KindBool) o.(Bools) ∅ in
  let! seen := range check_int o.(Ints) seen in
  let! seen := range (fun key _ => check key KindFloat) o.(Floats) seen in
  let! _ := range check_string o.(Strings) seen in
  Ok tt.

(** *** Their text *)

(** A value as [json.Unmarshal] meets it: a number is an int when it is one without fraction or exponent in the range of an int64, and a
    float64 when it is in its range. *)
Inductive raw := RNull | RBool (b : bool) | RNumber (int : option Z) (float : option f64) | RString (s : string) | ROther.
(** The JSON reader, the text of a float64, and the column of type jsonb: what it returns for a text it was given, unless it refuses it. *)
Class FlagColumn := {
  float_text : f64 -> option string;
  decode_object : string -> option (gmap string raw);
  column_text : string -> option string
}.
Definition as_raw (v : JSON) : raw :=
  match v with
  | VNull => RNull | VBool b => RBool b | VInt n => RNumber (Some n) (Some (f64_of_Z n)) | VString s => RString s | VArray _ | VObject _ => ROther
  end.
(** What the column returns is read as what was written. *)
Class FlagColumnLaws `{FlagColumn} := {
  stored_read (m : gmap string JSON) t : json_fits (VMap (map_to_list m)) -> column_text (Marshal (VMap (map_to_list m))) = Some t ->
    decode_object t = Some (as_raw <$> m) /\ t <> ""
}.
Definition set_Bool (k : string) (v : bool) (o : Overrides) : Overrides := {| Bools := <[k := v]> o.(Bools); Ints := o.(Ints); Floats := o.(Floats); Strings := o.(Strings) |}.
Definition set_Int (k : string) (v : Z) (o : Overrides) : Overrides := {| Bools := o.(Bools); Ints := <[k := v]> o.(Ints); Floats := o.(Floats); Strings := o.(Strings) |}.
Definition set_Float (k : string) (v : f64) (o : Overrides) : Overrides := {| Bools := o.(Bools); Ints := o.(Ints); Floats := <[k := v]> o.(Floats); Strings := o.(Strings) |}.
Definition set_String (k : string) (v : string) (o : Overrides) : Overrides := {| Bools := o.(Bools); Ints := o.(Ints); Floats := o.(Floats); Strings := <[k := v]> o.(Strings) |}.
(** [set]; [json.Unmarshal] of null leaves a variable as it was declared. *)
Definition set (def : FlagDefinition) (v : raw) (o : Overrides) : res FlagError Overrides :=
  match def.(Kind), v with
  | KindBool, RNull => Ok (set_Bool def.(Key) false o)
  | KindBool, RBool b => Ok (set_Bool def.(Key) b o)
  | KindInt, RNull => Ok (set_Int def.(Key) 0 o)
  | KindInt, RNumber (Some n) _ => Ok (set_Int def.(Key) n o)
  | KindFloat, RNull => Ok (set_Float def.(Key) (f64_of_Z 0) o)
  | KindFloat, RNumber _ (Some x) => Ok (set_Float def.(Key) x o)
  | KindString, RNull => Ok (set_String def.(Key) "" o)
  | KindString, RString s => Ok (set_String def.(Key) s o)
  | _, _ => Err (ErrExpects def.(Key))
  end.
Definition parse_entry (name : string) (v : raw) (o : Overrides) : res FlagError Overrides :=
  match definitions !! name with
  | None => Err (ErrUnknownKey name)
  | Some def => if negb def.(OrgOverridable) then Err (ErrNotOverridable name) else set def v o
  end.
(** [ParseOverrides] after decoding. *)
Definition parse_decoded (decoded : gmap string raw) : res FlagError Overrides :=
  let! o := range parse_entry decoded no_overrides in
  let! _ := ValidateOverrides o in
  Ok o.
Definition ParseOverrides `{FlagColumn} (raw : string) : res FlagError Overrides :=
  if String.eqb raw "" then Ok no_overrides
  else match decode_object raw with None => Err ErrDecode | Some decoded => parse_decoded decoded end.
(** The flat map; a key of two maps takes the value of the later one. *)
Inductive flat_value := FJson (v : JSON) | FFloat (x : f64).
Definition flat (o : Overrides) : gmap string flat_value :=
  ((fun s => FJson (VString s)) <$> o.(Strings)) ∪ (FFloat <$> o.(Floats)) ∪ ((fun n => FJson (VInt n)) <$> o.(Ints)) ∪ ((fun b => FJson (VBool b)) <$> o.(Bools)).
Definition flat_text `{FlagColumn} (v : flat_value) : option string := match v with FJson v => Some (Marshal v) | FFloat x => float_text x end.
Definition flat_le (a b : string * flat_value) : Prop := String.leb a.1 b.1 = true.
#[export] Instance flat_le_dec : RelDecision flat_le.
Proof. intros a b. unfold flat_le. apply _. Defined.
Definition MarshalJSON `{FlagColumn} (o : Overrides) : option string :=
  let sorted := merge_sort flat_le (map_to_list (flat o)) in
  bracket 123 125 <$> mapM (fun kv => (fun t => marshal_string kv.1 +:+ ":" +:+ t) <$> flat_text kv.2) sorted.

(** *** What a request reads *)

(** The overrides a context carries. *)
Notation Ctx := (option Overrides).
Definition WithOverrides (ctx : Ctx) (o : Overrides) : Ctx := if IsEmpty o then ctx else Some o.
Definition value_or {A} (f : Overrides -> gmap string A) (ctx : Ctx) (key : string) (deploymentDefault : A) : A :=
  match ctx with Some o => default deploymentDefault (f o !! key) | None => deploymentDefault end.
Definition BoolOr : Ctx -> string -> bool -> bool := value_or Bools.
Definition IntOr : Ctx -> string -> Z -> Z := value_or Ints.
Definition FloatOr : Ctx -> string -> f64 -> f64 := value_or Floats.
Definition StringOr : Ctx -> string -> string -> string := value_or Strings.
(** The deployment's defaults, fields of the proxy service. *)
Record Deployment := {
  struggleShadowEnabled : bool; struggleEscalationEnabled : bool; struggleEscalationHoldoutPct : Z; spiralShadowEnabled : bool; turnSignalCaptureEnabled : bool; loopEscalationEnabled : bool; loopEscalationHoldoutPct : Z; textRepetitionBreakEnabled : bool; plannerEnabled : bool; scoreToolResultTurns : bool; prefixTrimFreeSwitch : bool; authoritativeUpgradeGate : bool; authorityCacheShadow : bool; siblingFailover : bool; openAIResponsesBroad : bool; allowedModelsHeader : bool; effortEscalation : bool; cyberRefusalRepin : bool; cyberRefusalFallbackModel : string; embedOnlyUserMessage : bool }.
Definition ResolveStruggleShadowEnabled (s : Deployment) (ctx : Ctx) : bool := BoolOr ctx KeyStruggleShadowEnabled s.(struggleShadowEnabled).
Definition ResolveStruggleEscalationEnabled (s : Deployment) (ctx : Ctx) : bool := BoolOr ctx KeyStruggleEscalationEnabled s.(struggleEscalationEnabled).
Definition ResolveStruggleEscalationHoldoutPct (s : Deployment) (ctx : Ctx) : Z := IntOr ctx KeyStruggleEscalationHoldout s.(struggleEscalationHoldoutPct).
Definition ResolveSpiralShadowEnabled (s : Deployment) (ctx : Ctx) : bool := BoolOr ctx KeySpiralShadowEnabled s.(spiralShadowEnabled).
Definition ResolveTurnSignalCaptureEnabled (s : Deployment) (ctx : Ctx) : bool := BoolOr ctx KeyTurnSignalCapture s.(turnSignalCaptureEnabled).
Definition ResolveLoopEscalationEnabled (s : Deployment) (ctx : Ctx) : bool := BoolOr ctx KeyLoopEscalationEnabled s.(loopEscalationEnabled).
Definition ResolveLoopEscalationHoldoutPct (s : Deployment) (ctx : Ctx) : Z := IntOr ctx KeyLoopEscalationHoldoutPct s.(loopEscalationHoldoutPct).
Definition ResolveTextRepetitionBreakEnabled (s : Deployment) (ctx : Ctx) : bool := BoolOr ctx KeyTextRepetitionBreak s.(textRepetitionBreakEnabled).
Definition ResolvePlannerEnabled (s : Deployment) (ctx : Ctx) : bool := BoolOr ctx KeyPlannerEnabled s.(plannerEnabled).
Definition ResolveScoreToolResultTurns (s : Deployment) (ctx : Ctx) : bool := BoolOr ctx KeyScoreToolResultTurns s.(scoreToolResultTurns).
Definition ResolvePrefixTrimFreeSwitch (s : Deployment) (ctx : Ctx) : bool := BoolOr ctx KeyPrefixTrimFreeSwitch s.(prefixTrimFreeSwitch).
Definition ResolveAuthoritativeUpgradeGate (s : Deployment) (ctx : Ctx) : bool := BoolOr ctx KeyAuthoritativeUpgradeGate s.(authoritativeUpgradeGate).
Definition ResolveAuthorityCacheShadow (s : Deployment) (ctx : Ctx) : bool := BoolOr ctx KeyAuthorityCacheShadow s.(authorityCacheShadow).
Definition ResolveSiblingFailover (s : Deployment) (ctx : Ctx) : bool := BoolOr ctx KeySiblingFailover s.(siblingFailover).
Definition ResolveOpenAIResponsesBroad (s : Deployment) (ctx : Ctx) : bool := BoolOr ctx KeyOpenAIResponsesBroad s.(openAIResponsesBroad).
Definition ResolveAllowedModelsHeader (s : Deployment) (ctx : Ctx) : bool := BoolOr ctx KeyAllowedModelsHeader s.(allowedModelsHeader).
Definition ResolveEffortEscalation (s : Deployment) (ctx : Ctx) : bool := BoolOr ctx KeyEffortEscalation s.(effortEscalation).
Definition ResolveCyberRefusalRepin (s : Deployment) (ctx : Ctx) : bool := BoolOr ctx KeyCyberRefusalRepin s.(cyberRefusalRepin).
Definition ResolveCyberRefusalFallbackModel (s : Deployment) (ctx : Ctx) : string := StringOr ctx KeyCyberRefusalFallback s.(cyberRefusalFallbackModel).
(** The header's value, when there is one, comes first. *)
Definition ResolveEmbedOnlyUserMessage (s : Deployment) (ctx : Ctx) (header : option bool) : bool :=
  match header with Some v => v | None => BoolOr ctx KeyEmbedOnlyUserMessage s.(embedOnlyUserMessage) end.

(** ** The service and the middleware *)

Section Service.
Context `{Uuid} `{Collation} `{FlagColumn} {X : Type}.
(** The column flag_overrides stands for the columns the service of [Auth] does not write. *)
Notation Installation := (Installation (Y := string)).
Notation World := (World (X := X) (Y := string)).
Definition set_FlagOverrides (text : string) (i : Installation) : Installation := {| inst_ID := i.(inst_ID); inst_ExternalID := i.(inst_ExternalID);
  inst_Deleted := i.(inst_Deleted); ExcludedModels := i.(ExcludedModels); AllowedModels := i.(AllowedModels); RoutingQualityWeight := i.(RoutingQualityWeight);
  HideTerminalSurfaces := i.(HideTerminalSurfaces); ContentCaptureMode := i.(ContentCaptureMode); other_columns := text |}.
Inductive SetFlagsError := ErrFlagNotOverridable (k : string) | FlagsInvalid (e : FlagError) | FlagsRepository (e : AuthError).
Definition SetInstallationFlagOverrides (f : Faults) (externalID i : string) (o : Overrides) (w : World) : res SetFlagsError unit * World :=
  match List.find (fun key => match Lookup key with Some def => negb def.(OrgOverridable) | None => true end) (Keys o) with
  | Some key => (Err (ErrFlagNotOverridable key), w)
  | None =>
      match ValidateOverrides o with
      | Err e => (Err (FlagsInvalid e), w)
      | Ok _ =>
          match MarshalJSON o ≫= column_text with
          | None => (Err (FlagsRepository ErrRepository), w)
          | Some text => match change f (set_FlagOverrides text) externalID i tt w with
                         | (Ok _, w) => (Ok tt, w)
                         | (Err e, w) => (Err (FlagsRepository e), w)
                         end
          end
      end
  end.
(** [toAuthInstallation]: a payload that does not parse counts as no overrides. *)
Definition FlagOverrides (i : Installation) : Overrides := match ParseOverrides i.(other_columns) with Ok o => o | Err _ => no_overrides end.
(** The part of [withAPIKey] that sets the flags of a request. *)
Definition request_flags (flagOverridesDisabled : bool) (installation : option Installation) (ctx : Ctx) : Ctx :=
  match installation with
  | Some i => if flagOverridesDisabled then ctx else WithOverrides ctx (FlagOverrides i)
  | None => ctx
  end.
End Service.

(** ** Publication of the registry *)

Record PublishedDefinition := { Definition_ : FlagDefinition; DeploymentDefault : string }.
Record FlagRow := { row_Definition : PublishedDefinition; registry_version : Z }.
(** The defaults by key; a flag without one is published with the empty string. *)
Definition published (defaults : gmap string string) : list PublishedDefinition :=
  (fun def => {| Definition_ := def; DeploymentDefault := default "" (defaults !! def.(Key)) |}) <$> Registry.
Definition UpsertFlagDefinition (version : Z) (def : PublishedDefinition) (t : gmap string FlagRow) : gmap string FlagRow :=
  <[def.(Definition_).(Key) := {| row_Definition := def; registry_version := version |}]> t.
Definition DeleteFlagDefinitionsNotIn (version : Z) (keys : list string) (t : gmap string FlagRow) : gmap string FlagRow :=
  filter (fun kr => ~ (kr.2.(registry_version) <= version /\ kr.1 ∉ keys)) t.
(** [Publish]: the call fails at the first statement that fails, [fails] of them going through before. *)
Definition Publish (version : Z) (defs : list PublishedDefinition) (fails : option nat) (t : gmap string FlagRow) : option unit * gmap string FlagRow :=
  let upserts := foldl (fun t def => UpsertFlagDefinition version def t) t in
  match fails with
  | Some n => if Nat.leb n (length defs) then (None, upserts (take n defs)) else (Some tt, DeleteFlagDefinitionsNotIn version ((fun d => d.(Definition_).(Key)) <$> defs) (upserts defs))
  | None => (Some tt, DeleteFlagDefinitionsNotIn version ((fun d => d.(Definition_).(Key)) <$> defs) (upserts defs))
  end.
