(* ===== verification/FlagFacts.v ===== *)
(** What the flags guarantee: overrides come back from the database as they were set, and the requests of the organization read them. *)

From stdpp Require Import base gmap sets list strings sorting.
From Stdlib Require Import ZArith Lia Ascii.
From S2P Require Import Prelude Strings Sse Floats Marshal Hash KeyCache Auth AuthFacts Flags.
Open Scope string_scope.
Open Scope Z_scope.

(** ** Ranges *)

Lemma range_err {A S} (f : string -> A -> S -> res FlagError S) l e : foldl (fun acc kv => let! s := acc in f kv.1 kv.2 s) (Err e) l = Err e.
Proof. by induction l. Qed.
Lemma range_passed {A S} (f : string -> A -> S -> res FlagError S) (m : gmap string A) s s' k v :
  range f m s = Ok s' -> m !! k = Some v -> exists s0 s1, f k v s0 = Ok s1.
Proof.
  unfold range. rewrite <- elem_of_map_to_list. revert s. induction (map_to_list m) as [|[k' v'] l IH]; intros s Hr Hin; [by apply elem_of_nil in Hin|].
  cbn in Hr. destruct (f k' v' s) as [s1|e] eqn:E; [|by rewrite range_err in Hr]. apply elem_of_cons in Hin as [[= -> ->]|Hin]; [eauto|]. by apply (IH s1).
Qed.
Lemma range_total {A S} (f : string -> A -> S -> res FlagError S) (g : string -> A -> S -> S) (m : gmap string A) s :
  (forall k v s, m !! k = Some v -> f k v s = Ok (g k v s)) -> range f m s = Ok (foldl (fun s kv => g kv.1 kv.2 s) s (map_to_list m)).
Proof.
  intros Hf. unfold range. assert (Hl : forall kv, kv ∈ map_to_list m -> m !! kv.1 = Some kv.2) by (intros [k v]; apply elem_of_map_to_list).
  revert s Hl. induction (map_to_list m) as [|[k v] l IH]; intros s Hl; [done|]. cbn [foldl res_bind fst snd].
  rewrite Hf by (apply (Hl (k, v)); left). apply IH. intros kv Hkv. apply Hl. by right.
Qed.

(** ** Valid overrides *)

Definition registered (kind : FlagKind) (k : string) : Prop :=
  exists def, definitions !! k = Some def /\ def.(Key) = k /\ def.(OrgOverridable) = true /\ def.(Kind) = kind.
Lemma registry_keys k def : definitions !! k = Some def -> def.(Key) = k /\ def.(Kind) <> KindFloat.
Proof.
  assert (H : map_Forall (fun k d => Key d = k /\ Kind d <> KindFloat) definitions) by (vm_compute definitions; apply (bool_decide_unpack _); by vm_compute).
  apply H.
Qed.
Lemma check_passed key kind seen seen' : check key kind seen = Ok seen' -> registered kind key.
Proof.
  unfold check, registered. destruct (in_set key seen); [done|]. destruct (definitions !! key) as [def|] eqn:E; [|done].
  destruct (OrgOverridable def) eqn:Eo; [|done]. cbn [negb]. case_bool_decide; [|done]. intros _. exists def. split; [done|]. split; [|done]. by apply registry_keys.
Qed.
Record valid (o : Overrides) : Prop := {
  valid_bools k b : o.(Bools) !! k = Some b -> registered KindBool k;
  valid_ints k n : o.(Ints) !! k = Some n -> registered KindInt k /\ (holdout k = true -> 0 <= n <= 100);
  valid_floats : o.(Floats) = ∅;
  valid_strings k s : o.(Strings) !! k = Some s -> registered KindString k
}.
Lemma validated_overrides o : ValidateOverrides o = Ok tt -> valid o.
Proof.
  unfold ValidateOverrides. destruct (range (fun key _ => check key KindBool) (Bools o) ∅) as [s1|] eqn:E1; [|done]. cbn [res_bind].
  destruct (range check_int (Ints o) s1) as [s2|] eqn:E2; [|done]. cbn [res_bind].
  destruct (range (fun key _ => check key KindFloat) (Floats o) s2) as [s3|] eqn:E3; [|done]. cbn [res_bind].
  destruct (range check_string (Strings o) s3) as [s4|] eqn:E4; [|done]. intros _. split.
  - intros k b Hk. destruct (range_passed _ _ _ _ _ _ E1 Hk) as (s & s' & Hc). by eapply check_passed.
  - intros k n Hk. destruct (range_passed _ _ _ _ _ _ E2 Hk) as (s & s' & Hc). unfold check_int in Hc.
    destruct (check k KindInt s) as [s''|] eqn:Ec; [|done]. cbn [res_bind] in Hc. split; [by eapply check_passed|]. intros Hh. rewrite Hh in Hc. cbn [andb] in Hc.
    destruct ((n <? 0) || (100 <? n))%bool eqn:Eb; [done|]. lia.
  - apply map_eq. intros k. rewrite lookup_empty. destruct (Floats o !! k) as [x|] eqn:Ex; [|done]. exfalso.
    destruct (range_passed _ _ _ _ _ _ E3 Ex) as (s & s' & Hc). destruct (check_passed _ _ _ _ Hc) as (def & Hd & _ & _ & Hk).
    by destruct (registry_keys k def Hd).
  - intros k s Hk. destruct (range_passed _ _ _ _ _ _ E4 Hk) as (s0 & s' & Hc). unfold check_string in Hc.
    destruct (check k KindString s0) as [s''|] eqn:Ec; [|done]. by eapply check_passed.
Qed.
Lemma registered_one k kind kind' : registered kind k -> registered kind' k -> kind = kind'.
Proof. intros (d & Hd & _ & _ & <-) (d' & Hd' & _ & _ & <-). congruence. Qed.

(** ** The text of valid overrides *)

(** What the text reads as: the kinds keep the maps apart. *)
Definition decoded_of (o : Overrides) : gmap string JSON :=
  (VString <$> o.(Strings)) ∪ (VInt <$> o.(Ints)) ∪ (VBool <$> o.(Bools)).
Lemma decoded_lookup o k v : valid o -> decoded_of o !! k = Some v <->
  (exists b, o.(Bools) !! k = Some b /\ v = VBool b) \/ (exists n, o.(Ints) !! k = Some n /\ v = VInt n) \/ (exists s, o.(Strings) !! k = Some s /\ v = VString s).
Proof.
  intros V. unfold decoded_of. rewrite !lookup_union, !lookup_fmap.
  pose proof (valid_bools o V k) as Vb. pose proof (valid_ints o V k) as Vi. pose proof (valid_strings o V k) as Vs.
  destruct (Bools o !! k) as [b|], (Ints o !! k) as [n|], (Strings o !! k) as [s|]; cbn.
  all: try (exfalso; by pose proof (registered_one _ _ _ (Vb _ eq_refl) (proj1 (Vi _ eq_refl)))).
  all: try (exfalso; by pose proof (registered_one _ _ _ (Vb _ eq_refl) (Vs _ eq_refl))).
  all: try (exfalso; by pose proof (registered_one _ _ _ (proj1 (Vi _ eq_refl)) (Vs _ eq_refl))).
  all: naive_solver.
Qed.
Lemma flat_decoded o : valid o -> flat o = FJson <$> decoded_of o.
Proof.
  intros V. unfold flat, decoded_of. rewrite (valid_floats o V). rewrite fmap_empty, map_union_empty, !map_fmap_union, <- !map_fmap_compose. done.
Qed.
(** Sorting commutes with a map that keeps the order. *)
Section Sort.
Context {A B : Type} (R1 : relation A) (R2 : relation B) `{!RelDecision R1, !RelDecision R2} (g : A -> B) (same_order : forall x y, R1 x y <-> R2 (g x) (g y)).
Lemma merge_fmap l1 : forall l2, list_merge R2 (g <$> l1) (g <$> l2) = g <$> list_merge R1 l1 l2.
Proof.
  induction l1 as [|x l1 IH1]; intros l2; [by destruct l2|]. induction l2 as [|y l2 IH2]; [done|]. rewrite !fmap_cons. cbn [list_merge].
  unfold decide_rel. destruct (decide (R1 x y)) as [H1|H1], (decide (R2 (g x) (g y))) as [H2|H2]; try (by apply same_order in H1); try (by apply same_order in H2).
  - rewrite fmap_cons. f_equal. exact (IH1 (y :: l2)).
  - rewrite fmap_cons. f_equal. exact IH2.
Qed.
Definition on_stack (st : list (option (list A))) : list (option (list B)) := map (option_map (map g)) st.
Lemma stack_fmap st : forall l, merge_list_to_stack R2 (on_stack st) (g <$> l) = on_stack (merge_list_to_stack R1 st l).
Proof. induction st as [|[l'|] st IH]; intros l; [done| |done]. cbn. f_equal. rewrite <- IH. f_equal. apply merge_fmap. Qed.
Lemma unstack_fmap st : merge_stack R2 (on_stack st) = g <$> merge_stack R1 st.
Proof. induction st as [|[l|] st IH]; cbn; [done| |exact IH]. rewrite <- merge_fmap. f_equal. exact IH. Qed.
Lemma merge_sort_fmap l : merge_sort R2 (g <$> l) = g <$> merge_sort R1 l.
Proof.
  unfold merge_sort. change (@nil (option (list B))) with (on_stack []). generalize ([] : list (option (list A))).
  induction l as [|x l IH]; intros st; [apply unstack_fmap|]. rewrite fmap_cons. cbn [merge_sort_aux].
  rewrite <- IH. f_equal. apply (stack_fmap st [x]).
Qed.
End Sort.
Section Text.
Context `{FlagColumnLaws}.
Lemma marshal_valid o : valid o -> MarshalJSON o = Some (Marshal (VMap (map_to_list (decoded_of o)))).
Proof.
  intros V. unfold MarshalJSON. rewrite (flat_decoded o V), map_to_list_fmap.
  rewrite (merge_sort_fmap key_le flat_le (prod_map id FJson)) by done. unfold VMap. cbn [Marshal].
  set (l := merge_sort key_le _). clearbody l. change (map ?f ?l) with (f <$> l).
  assert (E : mapM (fun kv : string * flat_value => (fun t => marshal_string kv.1 +:+ ":" +:+ t) <$> flat_text kv.2) (prod_map id FJson <$> l) =
    Some ((fun kv => marshal_string kv.1 +:+ ":" +:+ Marshal kv.2) <$> l)); [|by rewrite E].
  induction l as [|[k v] l IH]; [done|]. rewrite !fmap_cons. cbn [mapM flat_text prod_map fst snd]. by rewrite IH.
Qed.
Definition apply_entry (k : string) (v : raw) (o : Overrides) : Overrides :=
  match v with RBool b => set_Bool k b o | RNumber (Some n) _ => set_Int k n o | RString s => set_String k s o | _ => o end.
Lemma applied l : forall o, NoDup l.*1 -> let o' := foldl (fun o kv => apply_entry kv.1 kv.2 o) o l in
  o'.(Floats) = o.(Floats) /\ forall k, let v := (list_to_map l : gmap string raw) !! k in
  o'.(Bools) !! k = match v with Some (RBool b) => Some b | _ => o.(Bools) !! k end /\
  o'.(Ints) !! k = match v with Some (RNumber (Some n) _) => Some n | _ => o.(Ints) !! k end /\
  o'.(Strings) !! k = match v with Some (RString s) => Some s | _ => o.(Strings) !! k end.
Proof.
  induction l as [|[k' v] l IH]; intros o Hd; [cbn; by setoid_rewrite lookup_empty|]. rewrite fmap_cons in Hd. apply NoDup_cons in Hd as [Hk Hd]. cbn [foldl fst snd]. rewrite list_to_map_cons.
  destruct (IH (apply_entry k' v o) Hd) as [F L]. split.
  - rewrite F. by destruct v as [| |[]| |].
  - intros k. destruct (L k) as (-> & -> & ->). cbn [fst]. destruct (decide (k' = k)) as [<-|Hne].
    + rewrite lookup_insert_eq. cbn [fst] in Hk. apply not_elem_of_list_to_map in Hk. rewrite Hk.
      destruct v as [|b|[n|] x|s|]; cbn [apply_entry set_Bool set_Int set_String Bools Ints Strings]; rewrite ?lookup_insert_eq; done.
    + rewrite lookup_insert_ne by done.
      destruct v as [|b|[n|] x|s|]; cbn [apply_entry set_Bool set_Int set_String Bools Ints Strings]; rewrite ?lookup_insert_ne by done; done.
Qed.
Lemma overrides_eq o o' : o.(Bools) = o'.(Bools) -> o.(Ints) = o'.(Ints) -> o.(Floats) = o'.(Floats) -> o.(Strings) = o'.(Strings) -> o = o'.
Proof. destruct o, o'; cbn. by intros -> -> -> ->. Qed.
Lemma decoded_parts o k : valid o -> let v := as_raw <$> decoded_of o !! k in
  match v with Some (RBool b) => Some b | _ => None end = o.(Bools) !! k /\
  match v with Some (RNumber (Some n) _) => Some n | _ => None end = o.(Ints) !! k /\
  match v with Some (RString s) => Some s | _ => None end = o.(Strings) !! k.
Proof.
  intros V v. pose proof (fun x => decoded_lookup o k x V) as D. unfold v. destruct (Bools o !! k) as [b|] eqn:Eb; [|destruct (Ints o !! k) as [n|] eqn:En; [|destruct (Strings o !! k) as [s|] eqn:Es]].
  - assert (E : decoded_of o !! k = Some (VBool b)) by (apply D; eauto). rewrite E. cbn.
    destruct (Ints o !! k) as [n|] eqn:En; [assert (decoded_of o !! k = Some (VInt n)) by (apply D; eauto); congruence|].
    destruct (Strings o !! k) as [s|] eqn:Es; [assert (decoded_of o !! k = Some (VString s)) by (apply D; eauto 6); congruence|done].
  - assert (E : decoded_of o !! k = Some (VInt n)) by (apply D; eauto). rewrite E. cbn.
    destruct (Strings o !! k) as [s|] eqn:Es; [assert (decoded_of o !! k = Some (VString s)) by (apply D; eauto 6); congruence|done].
  - assert (E : decoded_of o !! k = Some (VString s)) by (apply D; eauto 6). by rewrite E.
  - destruct (decoded_of o !! k) as [x|] eqn:E; [|done]. exfalso. destruct (proj1 (D x) eq_refl) as [(? & ? & _)|[(? & ? & _)|(? & ? & _)]]; congruence.
Qed.
Lemma parse_valid o : ValidateOverrides o = Ok tt -> parse_decoded (as_raw <$> decoded_of o) = Ok o.
Proof.
  intros Hv. pose proof (validated_overrides o Hv) as V. unfold parse_decoded.
  rewrite (range_total parse_entry apply_entry).
  2: { intros k v s. rewrite lookup_fmap_Some. intros (x & <- & Hx). apply (decoded_lookup o k x V) in Hx as [(b & Hb & ->)|[(n & Hn & ->)|(t & Ht & ->)]].
       - destruct (valid_bools o V k b Hb) as (def & Hd & Hkey & Ho & Hk). unfold parse_entry, set. by rewrite Hd, Ho, Hk, Hkey.
       - destruct (valid_ints o V k n Hn) as [(def & Hd & Hkey & Ho & Hk) _]. unfold parse_entry, set. by rewrite Hd, Ho, Hk, Hkey.
       - destruct (valid_strings o V k t Ht) as (def & Hd & Hkey & Ho & Hk). unfold parse_entry, set. by rewrite Hd, Ho, Hk, Hkey. }
  cbn [res_bind]. set (o' := foldl _ no_overrides _). assert (E : o' = o); [|by rewrite E, Hv].
  destruct (applied (map_to_list (as_raw <$> decoded_of o)) no_overrides (NoDup_fst_map_to_list _)) as [F L].
  change (foldl _ no_overrides _) with o' in F, L.
  apply overrides_eq; [| |rewrite F; by rewrite (valid_floats o V)|]; apply map_eq; intros k; destruct (L k) as (Lb & Li & Ls); rewrite ?Lb, ?Li, ?Ls, list_to_map_to_list, lookup_fmap;
    cbn [no_overrides Bools Ints Strings]; rewrite lookup_empty; destruct (decoded_parts o k V) as (Db & Di & Ds); [exact Db|exact Di|exact Ds].
Qed.
(** Valid UTF-8 in the strings, and integers of Go's width. *)
Definition storable (o : Overrides) : Prop :=
  (forall k s, o.(Strings) !! k = Some s -> to_valid s = s) /\ (forall k n, o.(Ints) !! k = Some n -> - 2 ^ 63 <= n < 2 ^ 63).
Lemma registered_valid kind k : registered kind k -> to_valid k = k.
Proof.
  assert (A : map_Forall (fun k _ => to_valid k = k) definitions) by (vm_compute definitions; apply (bool_decide_unpack _); by vm_compute).
  intros (def & Hd & _). exact (A k def Hd).
Qed.
Lemma decoded_fits o : valid o -> storable o -> json_fits (VMap (map_to_list (decoded_of o))).
Proof.
  intros V [Us Is]. assert (E : forall kv, kv ∈ map_to_list (decoded_of o) -> to_valid kv.1 = kv.1 /\ valid_json kv.2 = kv.2 /\ ints_fit kv.2 = true).
  { intros [k v] Hkv. apply elem_of_map_to_list in Hkv. apply (decoded_lookup o k v V) in Hkv as [(b & Hb & ->)|[(n & Hn & ->)|(t & Ht & ->)]]; cbn.
    - split; [|done]. by eapply registered_valid, valid_bools.
    - split; [by eapply registered_valid, (proj1 (valid_ints o V k n Hn))|]. split; [done|]. specialize (Is k n Hn). lia.
    - split; [by eapply registered_valid, valid_strings|]. split; [|done]. by rewrite (Us k t Ht). }
  split.
  - unfold VMap. cbn [valid_json]. f_equal. set (l := merge_sort key_le _).
    assert (El : forall kv, kv ∈ l -> to_valid kv.1 = kv.1 /\ valid_json kv.2 = kv.2) by (intros kv; unfold l; rewrite (merge_sort_Permutation key_le); intros Hkv; by destruct (E kv Hkv) as (? & ? & _)).
    clearbody l. induction l as [|[k v] l IH]; [done|]. cbn [map]. destruct (El (k, v) ltac:(left)) as [-> ->]. f_equal. apply IH. intros kv Hkv. apply El. by right.
  - rewrite ints_fit_map, forallb_forall. intros kv Hkv. apply list_elem_of_In in Hkv. by destruct (E kv Hkv) as (_ & _ & ?).
Qed.
(** What is stored comes back. *)
Lemma stored_overrides o text t : ValidateOverrides o = Ok tt -> storable o -> MarshalJSON o = Some text -> column_text text = Some t -> ParseOverrides t = Ok o.
Proof.
  intros Hv Hs Hm Hc. pose proof (validated_overrides o Hv) as V. rewrite (marshal_valid o V) in Hm. injection Hm as <-.
  destruct (stored_read _ _ (decoded_fits o V Hs) Hc) as [Hd Hne]. unfold ParseOverrides. apply String.eqb_neq in Hne as ->. rewrite Hd. by apply parse_valid.
Qed.
End Text.

(** ** From the setting to the request *)

Lemma empty_lookup o : IsEmpty o = true -> o.(Bools) = ∅ /\ o.(Ints) = ∅ /\ o.(Floats) = ∅ /\ o.(Strings) = ∅.
Proof.
  unfold IsEmpty. intros Hb. apply andb_prop in Hb as [Hb H4]. apply andb_prop in Hb as [Hb H3]. apply andb_prop in Hb as [H1 H2].
  apply bool_decide_eq_true in H1, H2, H3, H4. by apply dom_empty_inv_L in H3.
Qed.
Lemma with_overrides_read {A} (f : Overrides -> gmap string A) o k dflt : (IsEmpty o = true -> f o = ∅) ->
  value_or f (WithOverrides None o) k dflt = default dflt (f o !! k).
Proof. intros Hf. unfold WithOverrides. destruct (IsEmpty o) eqn:E; [|done]. by rewrite (Hf eq_refl), lookup_empty. Qed.
Section Service.
Context `{Uuid} `{Collation} `{FlagColumnLaws} {X : Type} (wired_external wired_lists : bool).
Notation World := (World (X := X) (Y := string)).
Notation DB := (DB (X := X) (Y := string)).
Lemma flags_set f x i o (w w1 : World) : canonical i -> coherent wired_lists w -> storable o -> SetInstallationFlagOverrides f x i o w = (Ok tt, w1) ->
  coherent wired_lists w1 /\ exists inst, w1.(db).(installations) !! i = Some inst /\ FlagOverrides inst = o.
Proof.
  intros Hi C Hs. unfold SetInstallationFlagOverrides. destruct (List.find _ (Keys o)); [done|]. destruct (ValidateOverrides o) as [[]|] eqn:Ev; [|done].
  destruct (MarshalJSON o ≫= column_text) as [t|] eqn:Et; [|done]. apply bind_Some in Et as (text & Em & Ec).
  pose proof (change_keeps wired_lists f (set_FlagOverrides t) x i tt w ltac:(done) Hi C) as K.
  destruct (change f (set_FlagOverrides t) x i tt w) as [[[]|e] w'] eqn:E; [|done]. intros [= <-]. split; [exact K|].
  unfold change, repo_update in E. destruct (f_update f); [done|]. rewrite Hi in E. destruct (update_installation _ x i (db w)) as [d|] eqn:Ed; [|done]. injection E as <-.
  unfold update_installation in Ed. destruct (active_installation (db w) i) as [inst|]; [|done]. destruct (String.eqb _ _); [|done]. injection Ed as <-.
  exists (set_FlagOverrides t inst). split.
  - unfold invalidateInstallation. destruct (String.eqb i ""); cbn; apply lookup_insert_eq.
  - unfold FlagOverrides. cbn [set_FlagOverrides other_columns]. by rewrite (stored_overrides o text t Ev Hs Em Ec).
Qed.

(** C19: once an organization's overrides are set — after any history of calls of the service — they are in force at the next request made with
    any key of the installation, whatever the cache held: a flag reads as the override where there is one and as the deployment's default
    otherwise, through the text of the column, its parser and the request's context; with overrides disabled for the deployment every flag reads as its default.  The text is valid for
    the parser because the setting was, so no override is lost to the fallback for rows that do not parse. *)
Theorem flags_take_effect (d : DB) (ops : list op) (f fv : Faults) (externalID i token : string) (o : Overrides) (live liven : string -> bool)
    (w1 w2 : World) (v : Verified (X := X) (Y := string)) (disabled : bool) :
  db_wf d -> all_clean wired_external wired_lists (started d) ops -> canonical i -> storable o ->
  SetInstallationFlagOverrides f externalID i o (fold_left (serve wired_external wired_lists) ops (started d)) = (Ok tt, w1) ->
  VerifyAPIKey wired_external wired_lists live liven fv token w1 = (Ok v, w2) -> v.(v_APIKey).(InstallationID) = i ->
  let ctx := request_flags disabled v.(v_Installation) None in
  let read {A} (f : Overrides -> gmap string A) (key : string) (dflt : A) := if disabled then dflt else default dflt (f o !! key) in
  (forall key dflt, BoolOr ctx key dflt = read Bools key dflt) /\ (forall key dflt, IntOr ctx key dflt = read Ints key dflt) /\
  (forall key dflt, FloatOr ctx key dflt = read Floats key dflt) /\ (forall key dflt, StringOr ctx key dflt = read Strings key dflt).
Proof.
  intros W Hc Hi Hs Hset Hver Hinst ctx read. pose proof (history_coherent wired_external wired_lists ops _ Hc (coherent_started wired_lists d W)) as C.
  destruct (flags_set _ _ _ _ _ _ Hi C Hs Hset) as [C1 (inst & Hdb & Hf)].
  destruct (verify_sound _ _ _ _ _ _ _ _ _ C1 Hver) as [_ (inst' & Hg & Hvi & _)]. destruct (active_key _ _ _ _ (coh_db _ _ C1) Hg) as (_ & _ & _ & Hdb' & _).
  rewrite Hinst, Hdb in Hdb'. injection Hdb' as <-. unfold ctx. rewrite Hvi. unfold request_flags. rewrite Hf.
  destruct disabled; [done|]. unfold read, BoolOr, IntOr, FloatOr, StringOr.
  repeat split; intros key dflt; apply with_overrides_read; intros E; by destruct (empty_lookup o E) as (? & ? & ? & ?).
Qed.
End Service.

(** ** A concrete column *)

Definition read_object (s : string) : option (gmap string raw) :=
  match read_value (String.length s) s with
  | Some (VObject l, EmptyString) => Some (as_raw <$> (foldl (fun m kv => <[kv.1 := kv.2]> m) ∅ l : gmap string JSON))
  | Some (VNull, EmptyString) => Some ∅
  | _ => None
  end.
#[local] Instance plain_column : FlagColumn := {| float_text _ := None; decode_object := read_object; column_text := Some |}.
Lemma length_join (l : list string) : (list_sum (map String.length l) + pred (length l) <= String.length (String.concat "," l))%nat.
Proof.
  induction l as [|x l IH]; [done|]. change (list_sum (map String.length (x :: l))) with (String.length x + list_sum (map String.length l))%nat.
  destruct l as [|y l]; [cbn; lia|]. change (String.concat "," (x :: y :: l)) with (x +:+ "," +:+ String.concat "," (y :: l)).
  rewrite !str_length_app. cbn [String.length length pred] in *. lia.
Qed.
Lemma list_sum_le {A} (f g : A -> nat) l : Forall (fun x => (f x <= g x)%nat) l -> (list_sum (map f l) <= list_sum (map g l))%nat.
Proof. induction 1; [done|]. cbn. unfold list_sum in *. lia. Qed.
(** The fuel a value needs is at most the length of its text. *)
Lemma marshal_weight v : (weight v <= String.length (Marshal v))%nat.
Proof.
  assert (One : forall w, (1 <= String.length (Marshal w))%nat) by (intros w; destruct (marshal_opens w) as (a & s & -> & _); cbn; lia).
  induction v as [|b|n|s|l IH|l IH] using JSON_rect'; try apply One; cbn [weight Marshal]; unfold bracket; cbn [String.length]; rewrite str_length_app; cbn [String.length].
  - pose proof (length_join (map Marshal l)) as L. rewrite map_map, length_map in L. pose proof (list_sum_le _ _ _ IH). lia.
  - pose proof (length_join (map (fun kv => marshal_string kv.1 +:+ ":" +:+ Marshal kv.2) l)) as L. rewrite map_map, length_map in L.
    assert (B : (list_sum (map (fun kv => weight kv.2) l) <= list_sum (map (fun kv => String.length (marshal_string kv.1 +:+ ":" +:+ Marshal kv.2)) l))%nat); [|lia].
    apply list_sum_le. eapply Forall_impl; [exact IH|]. intros kv Hkv. cbn beta in *. rewrite !str_length_app. lia.
Qed.
Lemma foldl_inserts {A} (l : list (string * A)) : forall m : gmap string A, foldl (fun m kv => <[kv.1 := kv.2]> m) m l = list_to_map (rev l) ∪ m.
Proof.
  induction l as [|[k v] l IH]; intros m; cbn [foldl rev fst snd]; [by rewrite list_to_map_nil, map_empty_union|]. rewrite IH. change (List.app ?a ?b) with (a ++ b)%list.
  rewrite list_to_map_app, list_to_map_cons, list_to_map_nil, <- map_union_assoc. f_equal. by rewrite insert_union_singleton_l.
Qed.
#[local] Instance plain_column_laws : FlagColumnLaws.
Proof.
  split. intros m t [Hv Hi] Ht. assert (t = Marshal (VMap (map_to_list m))) as -> by (change (column_text ?s) with (Some s) in Ht; congruence). clear Ht. split.
  - change (decode_object ?t) with (read_object t). unfold read_object. pose proof (marshal_read (VMap (map_to_list m)) "" _ (marshal_weight _) Hi I) as R.
    replace (Marshal (VMap (map_to_list m)) +:+ "") with (Marshal (VMap (map_to_list m))) in R by (symmetry; apply str_app_nil_r).
    rewrite R, Hv. unfold VMap at 1. do 2 f_equal. rewrite foldl_inserts, map_union_empty.
    rewrite <- (list_to_map_to_list m) at 2. apply list_to_map_proper.
    + rewrite <- Permutation_rev, merge_sort_Permutation. apply NoDup_fst_map_to_list.
    + by rewrite <- Permutation_rev, merge_sort_Permutation.
  - unfold VMap. cbn [Marshal]. done.
Qed.
(** A null is read as the zero of the flag's kind, not refused. *)
Lemma null_override : parse_decoded {[KeyPlannerEnabled := RNull]} = Ok (set_Bool KeyPlannerEnabled false no_overrides) /\
  parse_decoded {[KeyLoopEscalationHoldoutPct := RNull]} = Ok (set_Int KeyLoopEscalationHoldoutPct 0 no_overrides).
Proof. split; vm_compute; reflexivity. Qed.
#[local] Existing Instance any_uuid.
#[local] Existing Instance bytewise.
Definition flag_db : DB (X := unit) (Y := string) := {| api_keys := []; external_keys := []; cluster_lists := [];
  installations := {["i1" := {| inst_ID := "i1"; inst_ExternalID := "org"; inst_Deleted := false; ExcludedModels := []; AllowedModels := [];
    RoutingQualityWeight := None; HideTerminalSurfaces := false; ContentCaptureMode := None; other_columns := "{}" |}]} |}.
Lemma flag_db_wf : db_wf flag_db.
Proof.
  split; [intros k Hk; by apply elem_of_nil in Hk|]. intros id i. cbn. destruct (decide ("i1" = id)) as [<-|]; [|by rewrite lookup_singleton_ne].
  rewrite lookup_singleton_eq. by intros [= <-].
Qed.
Definition some_overrides : Overrides := {| Bools := {[KeyPlannerEnabled := false]}; Ints := {[KeyLoopEscalationHoldoutPct := 50]}; Floats := ∅;
  Strings := {[KeyCyberRefusalFallback := "a model"]} |}.
Lemma flags_take_effect_witness :
  let w := fold_left (serve (X := unit) (Y := string) false false) issue_and_use (started flag_db) in
  let w1 := (SetInstallationFlagOverrides no_faults "org" "i1" some_overrides w).2 in
  exists v w2, VerifyAPIKey false false always always no_faults "rk_abcdefgh" w1 = (Ok v, w2) /\
    BoolOr (request_flags false v.(v_Installation) None) KeyPlannerEnabled true = false /\
    IntOr (request_flags false v.(v_Installation) None) KeyLoopEscalationHoldoutPct 7 = 50 /\
    BoolOr (request_flags false v.(v_Installation) None) KeySiblingFailover true = true.
Proof.
  intros w w1. assert (Hc : all_clean (X := unit) (Y := string) false false (started flag_db) issue_and_use) by (cbn; repeat split; reflexivity).
  assert (Hi : canonical "i1") by reflexivity.
  assert (Hs : storable some_overrides).
  { split; intros k x; cbn [some_overrides Strings Ints]; rewrite lookup_singleton_Some; intros [_ <-]; [vm_compute; reflexivity|lia]. }
  destruct (SetInstallationFlagOverrides no_faults "org" "i1" some_overrides w) as [r w1'] eqn:Eset.
  assert (Er : r = Ok tt) by (change r with (r, w1').1; rewrite <- Eset; vm_compute; reflexivity). rewrite Er in Eset. change w1' with (r, w1').2 in w1.
  destruct (VerifyAPIKey false false always always no_faults "rk_abcdefgh" w1') as [rv w2] eqn:Ev.
  assert (Evr : exists v, rv = Ok v /\ v.(v_APIKey).(InstallationID) = "i1").
  { change rv with (rv, w2).1. rewrite <- Ev. change w1' with (@Ok SetFlagsError unit tt, w1').2. rewrite <- Eset. vm_compute. eexists. split; reflexivity. }
  destruct Evr as (v & -> & Hv). exists v, w2. split; [exact Ev|].
  destruct (flags_take_effect false false flag_db issue_and_use no_faults no_faults "org" "i1" "rk_abcdefgh" some_overrides always always w1' w2 v false
    flag_db_wf Hc Hi Hs Eset Ev Hv) as (B & I & _).
  split; [rewrite B; vm_compute; reflexivity|]. split; [rewrite I; vm_compute; reflexivity|]. rewrite B. vm_compute. reflexivity.
Defined.

(** ** The published registry *)

Lemma upserts_lookup version defs : forall t k, NoDup ((fun d => d.(Definition_).(Key)) <$> defs) ->
  foldl (fun t def => UpsertFlagDefinition version def t) t defs !! k =
  match List.find (fun d => String.eqb d.(Definition_).(Key) k) defs with Some d => Some {| row_Definition := d; registry_version := version |} | None => t !! k end.
Proof.
  induction defs as [|d defs IH]; intros t k Hd; [done|]. rewrite fmap_cons in Hd. apply NoDup_cons in Hd as [Hk Hd]. cbn [foldl List.find]. rewrite (IH _ _ Hd).
  unfold UpsertFlagDefinition. destruct (String.eqb_spec (Key (Definition_ d)) k) as [<-|Hne]; [|by rewrite lookup_insert_ne].
  destruct (List.find _ defs) as [d'|] eqn:F; [|by rewrite lookup_insert_eq]. exfalso. apply find_some in F as [Hin He]. apply String.eqb_eq in He.
  apply Hk. rewrite <- He. apply list_elem_of_fmap. exists d'. split; [done|]. by apply list_elem_of_In.
Qed.
(** A publication that goes through leaves its own rows, and of the others those a newer revision wrote. *)
Lemma publish_table version defs t k : NoDup ((fun d => d.(Definition_).(Key)) <$> defs) ->
  (Publish version defs None t).2 !! k =
  match List.find (fun d => String.eqb d.(Definition_).(Key) k) defs with
  | Some d => Some {| row_Definition := d; registry_version := version |}
  | None => match t !! k with Some r => if version <? r.(registry_version) then Some r else None | None => None end
  end.
Proof.
  intros Hd. unfold Publish, DeleteFlagDefinitionsNotIn. cbn [snd]. pose proof (upserts_lookup version defs t k Hd) as L.
  set (t' := foldl _ t defs) in *. destruct (List.find _ defs) as [d|] eqn:F.
  - apply map_lookup_filter_Some. split; [done|]. cbn [fst snd]. intros [_ Hk]. apply Hk. apply find_some in F as [Hin He]. apply String.eqb_eq in He as <-.
    apply list_elem_of_fmap. exists d. split; [done|]. by apply list_elem_of_In.
  - assert (Hk : k ∉ (fun d => Key (Definition_ d)) <$> defs).
    { intros Hin. apply list_elem_of_fmap in Hin as (d & -> & Hin). apply list_elem_of_In in Hin. pose proof (find_none _ _ F d Hin) as Hf. cbn in Hf. by rewrite String.eqb_refl in Hf. }
    destruct (t !! k) as [r|] eqn:Et; [destruct (Z.ltb_spec version (registry_version r))|].
    + apply map_lookup_filter_Some. split; [done|]. cbn [fst snd]. lia.
    + apply map_lookup_filter_None. right. intros r' Hr'. rewrite L in Hr'. injection Hr' as <-. cbn [fst snd]. intros Hn. apply Hn. split; [lia|done].
    + apply map_lookup_filter_None. by left.
Qed.
