(* ===== verification/Any.v ===== *)
(** Decoded JSON as Go holds it in an [any]: maps, slices, strings, float64s, booleans, nil.  A map is a list of its members with distinct
    keys, in the order a range over it takes; the values decoded from one body share nothing. *)

From stdpp Require Import base list strings.
From Stdlib Require Import ZArith Lia.
From S2P Require Import Prelude Floats.
Open Scope string_scope.
Open Scope Z_scope.

Inductive any := ANil | ABool (b : bool) | ANumber (x : f64) | AString (s : string) | AArray (l : list any) | AMap (m : list (string * any)).
Notation obj := (list (string * any)).
Fixpoint any_rect' (P : any -> Prop) (nil : P ANil) (bool : forall b, P (ABool b)) (num : forall x, P (ANumber x)) (str : forall s, P (AString s))
    (array : forall l, Forall P l -> P (AArray l)) (map : forall m, Forall (fun kv => P kv.2) m -> P (AMap m)) (v : any) : P v :=
  let rec := any_rect' P nil bool num str array map in
  match v with
  | ANil => nil
  | ABool b => bool b
  | ANumber x => num x
  | AString s => str s
  | AArray l => array l ((fix go l := match l return Forall P l with [] => Forall_nil_2 P | x :: r => Forall_cons_2 P x r (rec x) (go r) end) l)
  | AMap m => map m ((fix go l := match l return Forall (fun kv => P kv.2) l with
                       | [] => Forall_nil_2 _ | x :: r => Forall_cons_2 (fun kv => P kv.2) x r (rec x.2) (go r) end) m)
  end.
(** The decoder and the encoder of encoding/json. *)
Class JsonCodec := { json_Unmarshal : string -> option any; json_Marshal : any -> option string }.

(** [m[k]], [m[k] = v], [delete(m, k)]. *)
Fixpoint get (k : string) (m : obj) : option any :=
  match m with [] => None | (k', v) :: m' => if String.eqb k' k then Some v else get k m' end.
Fixpoint put (k : string) (v : any) (m : obj) : obj :=
  match m with [] => [(k, v)] | (k', v') :: m' => if String.eqb k' k then (k', v) :: m' else (k', v') :: put k v m' end.
Definition del (k : string) (m : obj) : obj := List.filter (fun kv => negb (String.eqb kv.1 k)) m.
(** The type assertions of the source. *)
Definition as_map (v : option any) : option obj := match v with Some (AMap m) => Some m | _ => None end.
Definition as_array (v : option any) : option (list any) := match v with Some (AArray l) => Some l | _ => None end.
Definition as_string (v : option any) : option string := match v with Some (AString s) => Some s | _ => None end.

Lemma get_put k v m j : get j (put k v m) = if String.eqb k j then Some v else get j m.
Proof.
  induction m as [|[k' v'] m IH]; cbn; [done|]. destruct (String.eqb_spec k' k) as [->|Hne]; cbn.
  - by destruct (String.eqb k j).
  - rewrite IH. destruct (String.eqb_spec k' j) as [->|]; [|done]. by destruct (String.eqb_spec k j).
Qed.
Lemma get_put_same k v m : get k (put k v m) = Some v.
Proof. by rewrite get_put, String.eqb_refl. Qed.
Lemma get_put_other k v m j : k <> j -> get j (put k v m) = get j m.
Proof. intros H. rewrite get_put. by apply String.eqb_neq in H as ->. Qed.
Lemma put_put k v v' m : put k v (put k v' m) = put k v m.
Proof.
  induction m as [|[k' w] m IH]; cbn; [by rewrite String.eqb_refl|]. destruct (String.eqb k' k) eqn:E; cbn; rewrite E; [done|]. by rewrite IH.
Qed.
Lemma put_get k v m : get k m = Some v -> put k v m = m.
Proof. induction m as [|[k' w] m IH]; cbn; [done|]. destruct (String.eqb_spec k' k) as [->|]; [by intros [= ->]|]. intros Hm. by rewrite (IH Hm). Qed.
Lemma del_absent k m : get k m = None -> del k m = m.
Proof. unfold del. induction m as [|[k' w] m IH]; cbn; [done|]. destruct (String.eqb k' k); [done|]. intros Hm. cbn. by rewrite (IH Hm). Qed.
Lemma del_put k v m : get k m = None -> del k (put k v m) = m.
Proof.
  unfold del. induction m as [|[k' w] m IH]; cbn; [by rewrite String.eqb_refl|]. destruct (String.eqb k' k) eqn:E; [done|]. intros Hm. cbn. rewrite E. cbn.
  by rewrite (IH Hm).
Qed.
(** Induction on the size of a value: a member or an element is smaller, and so are theirs. *)
Fixpoint any_size (v : any) : nat :=
  match v with
  | AArray l => S (list_sum (map any_size l))
  | AMap m => S (list_sum (map (fun kv => any_size kv.2) m))
  | _ => 1%nat
  end.
Lemma list_sum_in n l : In n l -> (n <= list_sum l)%nat.
Proof. induction l as [|x l IH]; [done|]. change (list_sum (x :: l)) with (x + list_sum l)%nat. intros [->|Hin]; [lia|]. apply IH in Hin. lia. Qed.
Lemma element_smaller x l : In x l -> (any_size x < any_size (AArray l))%nat.
Proof. intros Hin%(in_map any_size)%list_sum_in. by apply Nat.lt_succ_r. Qed.
Lemma member_smaller kv m : In kv m -> (any_size kv.2 < any_size (AMap m))%nat.
Proof. intros Hin%(in_map (fun kv => any_size kv.2))%list_sum_in. by apply Nat.lt_succ_r. Qed.
Lemma any_size_ind (P : any -> Prop) : (forall v, (forall w, (any_size w < any_size v)%nat -> P w) -> P v) -> forall v, P v.
Proof. exact (induction_ltof1 any any_size P). Qed.
