(* ===== verification/CachePolicy.v ===== *)
(** The prompt-cache breakpoints of a request to Anthropic (internal/translate/cache_control.go): a client's breakpoints are validated, and
    the router adds its own where the provider's capacity leaves room. *)

From stdpp Require Import base list strings sets.
From Stdlib Require Import ZArith Lia.
From S2P Require Import Prelude Floats Any.
Open Scope string_scope.
Open Scope Z_scope.

Inductive PolicyError := ErrDecode | ErrEncode | ErrAnthropicCacheControlInvalid | ErrAnthropicCacheControlOverflow (got : Z).
Definition anthropicCacheControlCapacity : Z := 4.
Inductive anthropicCacheControlTTL := TTL1h | TTL5m.
Definition ttl_eqb (a b : anthropicCacheControlTTL) : bool := match a, b with TTL1h, TTL1h | TTL5m, TTL5m => true | _, _ => false end.

(** ** Validation *)

(** One member of a policy. *)
Definition policy_member (acc : res PolicyError anthropicCacheControlTTL) (kv : string * any) : res PolicyError anthropicCacheControlTTL :=
  let! ttl := acc in
  if String.eqb kv.1 "type" then Ok ttl
  else if String.eqb kv.1 "ttl" then
    match kv.2 with
    | AString s => if String.eqb s "1h" then Ok TTL1h else if String.eqb s "5m" then Ok ttl else Err ErrAnthropicCacheControlInvalid
    | _ => Err ErrAnthropicCacheControlInvalid
    end
  else Err ErrAnthropicCacheControlInvalid.
Definition validateAnthropicCacheControl (v : any) : res PolicyError anthropicCacheControlTTL :=
  match v with
  | AMap policy =>
      match get "type" policy with
      | Some (AString s) => if String.eqb s "ephemeral" then fold_left policy_member policy (Ok TTL5m) else Err ErrAnthropicCacheControlInvalid
      | _ => Err ErrAnthropicCacheControlInvalid
      end
  | _ => Err ErrAnthropicCacheControlInvalid
  end.
(** [visit], on whether a breakpoint of five minutes was seen and the count. *)
Definition visit (acc : res PolicyError (bool * Z)) (block : any) : res PolicyError (bool * Z) :=
  let! (seenFiveMinuteTTL, count) := acc in
  match as_map (Some block) with
  | None => Ok (seenFiveMinuteTTL, count)
  | Some object =>
      match get "cache_control" object with
      | None => Ok (seenFiveMinuteTTL, count)
      | Some policy =>
          let! ttl := validateAnthropicCacheControl policy in
          if (seenFiveMinuteTTL && ttl_eqb ttl TTL1h)%bool then Err ErrAnthropicCacheControlInvalid
          else Ok ((ttl_eqb ttl TTL5m || seenFiveMinuteTTL)%bool, count + 1)
      end
  end.
Definition content_blocks (message : any) : list any :=
  match as_map (Some message) with Some object => default [] (as_array (get "content" object)) | None => [] end.
Definition tools_of (request : obj) : list any := default [] (as_array (get "tools" request)).
Definition system_of (request : obj) : list any := default [] (as_array (get "system" request)).
Definition messages_of (request : obj) : list any := default [] (as_array (get "messages" request)).
(** The blocks in the order they are visited. *)
Definition visited (request : obj) : list any := (tools_of request ++ system_of request ++ flat_map content_blocks (messages_of request))%list.
Definition validateAnthropicCacheControls (request : obj) : res PolicyError Z :=
  let! (_, count) := fold_left visit (visited request) (Ok (false, 0)) in Ok count.

(** ** The router's breakpoints *)

Definition ephemeral : any := AMap [("type", AString "ephemeral")].
(** The last element of a slice replaced. *)
Definition with_last {A} (x : A) (l : list A) : list A := (removelast l ++ [x])%list.
(** What is changed, and how it is undone. *)
Definition addCacheControlToLastSystemBlock (request : obj) : option (obj * (obj -> obj)) :=
  match as_array (get "system" request) with
  | None | Some [] => None
  | Some system =>
      match List.last system ANil with
      | AMap block =>
          match get "cache_control" block with
          | Some _ => None
          | None => Some (put "system" (AArray (with_last (AMap (put "cache_control" ephemeral block)) system)) request,
                          fun r => match as_array (get "system" r) with
                                   | Some system' => match List.last system' ANil with
                                                     | AMap block' => put "system" (AArray (with_last (AMap (del "cache_control" block')) system')) r
                                                     | _ => r
                                                     end
                                   | None => r
                                   end)
          end
      | _ => None
      end
  end.
(** The last message and the rest. *)
Definition last_message (request : obj) : option (list any * obj) :=
  match as_array (get "messages" request) with
  | None | Some [] => None
  | Some messages => match List.last messages ANil with AMap message => Some (messages, message) | _ => None end
  end.
Definition with_last_message (messages : list any) (message request : obj) : obj := put "messages" (AArray (with_last (AMap message) messages)) request.
(** The blocks of a message's content, a text promoted to one, and whether it was. *)
Definition promoted_blocks (message : obj) : option (list any * bool) :=
  match get "content" message with
  | Some (AArray blocks) => Some (blocks, false)
  | Some (AString content) => Some ([AMap [("type", AString "text"); ("text", AString content)]], true)
  | _ => None
  end.
(** The source puts a promoted text in the message before it looks at the last block; a promoted block always takes the breakpoint. *)
Definition addCacheControlToLastMessageBlock (request : obj) : option (obj * (obj -> obj)) :=
  match last_message request with
  | None => None
  | Some (messages, message) =>
      match promoted_blocks message with
      | None | Some ([], _) => None
      | Some (blocks, promoted) =>
          match List.last blocks ANil with
          | AMap block =>
              match get "cache_control" block with
              | Some _ => None
              | None =>
                  Some (with_last_message messages (put "content" (AArray (with_last (AMap (put "cache_control" ephemeral block)) blocks)) message) request,
                        fun r => match last_message r with
                                 | Some (messages', message') =>
                                     if promoted : bool then with_last_message messages' (put "content" (default ANil (get "content" message)) message') r
                                     else match as_array (get "content" message') with
                                          | Some blocks' => match List.last blocks' ANil with
                                                            | AMap block' => with_last_message messages' (put "content" (AArray (with_last (AMap (del "cache_control" block')) blocks')) message') r
                                                            | _ => r
                                                            end
                                          | None => r
                                          end
                                 | None => r
                                 end)
              end
          | _ => None
          end
      end
  end.
(** A breakpoint is kept when the request still validates. *)
Definition try_breakpoint (add : obj -> option (obj * (obj -> obj))) (request : obj) (remaining : Z) : obj * Z :=
  match add request with
  | None => (request, remaining)
  | Some (request', undo) =>
      match validateAnthropicCacheControls request' with
      | Ok _ => (request', remaining - 1)
      | Err _ => (undo request', remaining)
      end
  end.
Definition with_breakpoints (request : obj) (count : Z) : obj :=
  let remaining := anthropicCacheControlCapacity - count in
  let '(request, remaining) := try_breakpoint addCacheControlToLastSystemBlock request remaining in
  if 0 <? remaining then (try_breakpoint addCacheControlToLastMessageBlock request remaining).1 else request.
Definition applyAnthropicCachePolicy `{JsonCodec} (body : string) (injectRouterBreakpoints : bool) : res PolicyError string :=
  match json_Unmarshal body with
  | Some (AMap request) =>
      let! count := validateAnthropicCacheControls request in
      if anthropicCacheControlCapacity <? count then Err (ErrAnthropicCacheControlOverflow count)
      else if negb injectRouterBreakpoints then Ok body
      else if anthropicCacheControlCapacity - count =? 0 then Ok body
      else
        let request := with_breakpoints request count in
        let! count := validateAnthropicCacheControls request in
        if anthropicCacheControlCapacity <? count then Err (ErrAnthropicCacheControlOverflow count)
        else match json_Marshal (AMap request) with Some encoded => Ok encoded | None => Err ErrEncode end
  | Some ANil =>
      (* null decodes to a nil map: nothing to validate, no blocks to mark, written back as null *)
      if negb injectRouterBreakpoints then Ok body
      else match json_Marshal ANil with Some encoded => Ok encoded | None => Err ErrEncode end
  | _ => Err ErrDecode
  end.

(** ** Facts *)

Definition control (block : any) : option any := as_map (Some block) ≫= get "cache_control".
Definition controls (blocks : list any) : list any := omap control blocks.
Lemma controls_app l l' : controls (l ++ l')%list = (controls l ++ controls l')%list.
Proof. apply omap_app. Qed.
Lemma visit_err e l : fold_left visit l (Err e) = Err e.
Proof. by induction l. Qed.
Lemma visit_count l : forall s n s' n', fold_left visit l (Ok (s, n)) = Ok (s', n') -> n' = n + Z.of_nat (length (controls l)).
Proof.
  induction l as [|b l IH]; intros s n s' n'; cbn [fold_left]; [intros [= <- <-]; cbn; lia|].
  unfold visit at 2. cbn [res_bind]. unfold controls. cbn [omap list_omap]. unfold control at 1. fold (controls l).
  destruct (as_map (Some b)) as [o|]; cbn [mbind option_bind]; [|apply IH]. destruct (get "cache_control" o) as [p|]; [|apply IH].
  destruct (validateAnthropicCacheControl p) as [ttl|e]; cbn [res_bind]; [|by rewrite visit_err].
  destruct (_ && _)%bool; [by rewrite visit_err|]. intros Hf. apply IH in Hf. cbn [length]. lia.
Qed.
Lemma validate_count request n : validateAnthropicCacheControls request = Ok n -> n = Z.of_nat (length (controls (visited request))).
Proof.
  unfold validateAnthropicCacheControls. destruct (fold_left visit _ _) as [[s m]|e] eqn:E; cbn; [|done]. intros [= <-]. by apply visit_count in E.
Qed.
(** The last element of a list and the list with another in its place. *)
Lemma last_split {A} (l : list A) x d : List.last l d = x -> l <> [] -> l = (removelast l ++ [x])%list.
Proof. intros <- H. by apply app_removelast_last. Qed.
Lemma last_with_last {A} (x : A) l d : List.last (with_last x l) d = x.
Proof. apply last_last. Qed.
Lemma with_last_twice {A} (x y : A) l : with_last x (with_last y l) = with_last x l.
Proof. unfold with_last. by rewrite removelast_last. Qed.
Lemma with_last_id {A} (l : list A) d : l <> [] -> with_last (List.last l d) l = l.
Proof. intros H. symmetry. by apply last_split with (d := d). Qed.
Lemma with_last_nonempty {A} (x : A) l : with_last x l <> [].
Proof. unfold with_last. by destruct (removelast l). Qed.
Lemma nonempty_match {A B} (l : list A) (x y : B) : l <> [] -> match l with [] => x | _ :: _ => y end = y.
Proof. by destruct l. Qed.
Lemma control_marked block : control (AMap (put "cache_control" ephemeral block)) = Some ephemeral.
Proof. unfold control. cbn [as_map mbind option_bind]. apply get_put_same. Qed.
Lemma controls_marked (l : list any) block d : List.last l d = AMap block -> l <> [] -> get "cache_control" block = None ->
  controls (with_last (AMap (put "cache_control" ephemeral block)) l) = (controls l ++ [ephemeral])%list.
Proof.
  intros Hl Hne Hb. rewrite (last_split l _ d Hl Hne) at 2. unfold with_last. rewrite !controls_app.
  replace (controls [AMap block]) with (@nil any) by (unfold controls; cbn; unfold control; cbn; by rewrite Hb). rewrite app_nil_r. f_equal.
  unfold controls. cbn [omap list_omap]. by rewrite control_marked.
Qed.

Lemma system_marked request request' undo : addCacheControlToLastSystemBlock request = Some (request', undo) ->
  undo request' = request /\ tools_of request' = tools_of request /\ messages_of request' = messages_of request /\
  controls (system_of request') = (controls (system_of request) ++ [ephemeral])%list.
Proof.
  unfold addCacheControlToLastSystemBlock. destruct (as_array (get "system" request)) as [system|] eqn:Es; [|done].
  assert (Hg : get "system" request = Some (AArray system)) by (destruct (get "system" request) as [[]|]; try done; by injection Es as ->).
  destruct system as [|b0 rest]; [done|]. set (system := b0 :: rest) in *. destruct (List.last system ANil) as [| | | | |block] eqn:El; try done.
  destruct (get "cache_control" block) eqn:Ec; [done|]. intros [= <- <-]. split; [|split; [|split]].
  - rewrite get_put_same. cbn [as_array]. rewrite last_with_last, del_put, with_last_twice, put_put by done. rewrite <- El, with_last_id by done. by apply put_get.
  - unfold tools_of. by rewrite get_put_other.
  - unfold messages_of. by rewrite get_put_other.
  - unfold system_of. rewrite get_put_same, Es. cbn [as_array default]. by apply controls_marked with (d := ANil).
Qed.
Lemma promoted_controls message blocks promoted : promoted_blocks message = Some (blocks, promoted) ->
  controls (default [] (as_array (get "content" message))) = controls blocks.
Proof. unfold promoted_blocks. destruct (get "content" message) as [[]|]; try done; by intros [= <- <-]. Qed.
Lemma message_marked request request' undo : addCacheControlToLastMessageBlock request = Some (request', undo) ->
  undo request' = request /\ tools_of request' = tools_of request /\ system_of request' = system_of request /\
  controls (flat_map content_blocks (messages_of request')) = (controls (flat_map content_blocks (messages_of request)) ++ [ephemeral])%list.
Proof.
  unfold addCacheControlToLastMessageBlock, last_message. destruct (as_array (get "messages" request)) as [messages|] eqn:Em; [|done].
  assert (Hg : get "messages" request = Some (AArray messages)) by (destruct (get "messages" request) as [[]|]; try done; by injection Em as ->).
  destruct messages as [|m0 rest]; [done|]. set (messages := m0 :: rest) in *. destruct (List.last messages ANil) as [| | | | |message] eqn:El; try done.
  destruct (promoted_blocks message) as [[blocks promoted]|] eqn:Ep; [|done]. destruct blocks as [|b0 brest]; [done|]. set (blocks := b0 :: brest) in *.
  destruct (List.last blocks ANil) as [| | | | |block] eqn:Eb; try done. destruct (get "cache_control" block) eqn:Ec; [done|].
  set (content := AArray (with_last (AMap (put "cache_control" ephemeral block)) blocks)). intros [= <- <-].
  assert (Hm : get "messages" (with_last_message messages (put "content" content message) request) = Some (AArray (with_last (AMap (put "content" content message)) messages))) by apply get_put_same.
  assert (Restored : forall c, get "content" message = Some c -> with_last_message (with_last (AMap (put "content" content message)) messages) (put "content" c (put "content" content message))
    (with_last_message messages (put "content" content message) request) = request).
  { intros c Hc. unfold with_last_message. rewrite with_last_twice, !put_put, (put_get _ _ _ Hc). rewrite <- El, with_last_id by done. by apply put_get. }
  split; [|split; [|split]].
  - rewrite Hm. cbn [as_array]. rewrite nonempty_match by apply with_last_nonempty. rewrite last_with_last. destruct promoted.
    + apply Restored. unfold promoted_blocks in Ep. destruct (get "content" message); [done|]. done.
    + rewrite get_put_same. unfold content at 1. cbn [as_array]. rewrite last_with_last, del_put, with_last_twice by done. rewrite <- Eb, with_last_id by done.
      apply Restored. unfold promoted_blocks in Ep. destruct (get "content" message) as [[]|]; try done. by injection Ep as ->.
  - unfold tools_of, with_last_message. by rewrite get_put_other.
  - unfold system_of, with_last_message. by rewrite get_put_other.
  - unfold messages_of. rewrite Hm, Em. cbn [as_array from_option id]. unfold id. replace (flat_map content_blocks messages) with (flat_map content_blocks (removelast messages ++ [AMap message])) by (f_equal; symmetry; by apply (last_split messages _ ANil)).
    unfold with_last. rewrite !flat_map_app, !controls_app, <- app_assoc. f_equal.
    cbn [flat_map]. rewrite !app_nil_r. unfold content_blocks. cbn [as_map]. rewrite get_put_same. unfold content. cbn [as_array from_option id]. unfold id.
    rewrite (controls_marked blocks block ANil Eb) by done. f_equal.
    symmetry. by apply promoted_controls with (promoted := promoted).
Qed.

(** One attempt: a request that validates stays one, and gains at most the breakpoint. *)
Lemma system_attempt request n remaining request' remaining' : validateAnthropicCacheControls request = Ok n ->
  try_breakpoint addCacheControlToLastSystemBlock request remaining = (request', remaining') ->
  (exists n', validateAnthropicCacheControls request' = Ok n') /\ tools_of request' = tools_of request /\ messages_of request' = messages_of request /\
  exists s, controls (system_of request') = (controls (system_of request) ++ s)%list /\
    ((s = [] /\ request' = request /\ remaining' = remaining) \/ (s = [ephemeral] /\ remaining' = remaining - 1)).
Proof.
  intros Hv. unfold try_breakpoint. destruct (addCacheControlToLastSystemBlock request) as [[r undo]|] eqn:Ea.
  - destruct (system_marked _ _ _ Ea) as (Hu & Ht & Hm & Hc). destruct (validateAnthropicCacheControls r) as [n'|e] eqn:Er; intros [= <- <-].
    + split; [by eexists|]. split; [done|]. split; [done|]. exists [ephemeral]. auto.
    + rewrite Hu. split; [by eexists|]. split; [done|]. split; [done|]. exists []. rewrite app_nil_r. auto.
  - intros [= <- <-]. split; [by eexists|]. split; [done|]. split; [done|]. exists []. rewrite app_nil_r. auto.
Qed.
Lemma message_attempt request n remaining : validateAnthropicCacheControls request = Ok n ->
  let request' := (try_breakpoint addCacheControlToLastMessageBlock request remaining).1 in
  (exists n', validateAnthropicCacheControls request' = Ok n') /\ tools_of request' = tools_of request /\ system_of request' = system_of request /\
  exists m, controls (flat_map content_blocks (messages_of request')) = (controls (flat_map content_blocks (messages_of request)) ++ m)%list /\
    ((m = [] /\ request' = request) \/ m = [ephemeral]).
Proof.
  intros Hv. unfold try_breakpoint. destruct (addCacheControlToLastMessageBlock request) as [[r undo]|] eqn:Ea; cbn [fst].
  - destruct (message_marked _ _ _ Ea) as (Hu & Ht & Hs & Hc). destruct (validateAnthropicCacheControls r) as [n'|e] eqn:Er; cbn [fst].
    + split; [by eexists|]. split; [done|]. split; [done|]. exists [ephemeral]. auto.
    + rewrite Hu. split; [by eexists|]. split; [done|]. split; [done|]. exists []. rewrite app_nil_r. auto.
  - split; [by eexists|]. split; [done|]. split; [done|]. exists []. rewrite app_nil_r. auto.
Qed.
(** What the router may add to the breakpoints of a request: one after the system's, one after all. *)
Definition extended (request request' : obj) : Prop :=
  exists s m, s ∈ [[]; [ephemeral]] /\ m ∈ [[]; [ephemeral]] /\ (s = [] -> m = [] -> request' = request) /\
    controls (visited request') = (controls (tools_of request) ++ controls (system_of request) ++ s ++ controls (flat_map content_blocks (messages_of request)) ++ m)%list.
Lemma breakpoints_added request count : validateAnthropicCacheControls request = Ok count -> count < anthropicCacheControlCapacity ->
  let request' := with_breakpoints request count in
  extended request request' /\ exists count', validateAnthropicCacheControls request' = Ok count' /\ count' <= anthropicCacheControlCapacity.
Proof.
  intros Hv Hc. pose proof (validate_count _ _ Hv) as Hn. unfold with_breakpoints.
  destruct (try_breakpoint addCacheControlToLastSystemBlock request _) as [r remaining] eqn:Es.
  destruct (system_attempt _ _ _ _ _ Hv Es) as ([n1 Hr] & Ht & Hm & s & Hs & Hcase).
  assert (S : s ∈ [[]; [ephemeral]]) by (destruct Hcase as [(-> & _)|(-> & _)]; set_solver).
  assert (V1 : controls (visited r) = (controls (tools_of request) ++ controls (system_of request) ++ s ++ controls (flat_map content_blocks (messages_of request)) ++ [])%list).
  { unfold visited. rewrite !controls_app, Ht, Hm, Hs, app_nil_r, <- !app_assoc. done. }
  destruct (Z.ltb_spec 0 remaining).
  - destruct (message_attempt r n1 remaining Hr) as ([n2 Hr2] & Ht2 & Hs2 & m & Hm2 & Hcase2). set (r2 := (try_breakpoint _ r remaining).1) in *.
    assert (V2 : controls (visited r2) = (controls (tools_of request) ++ controls (system_of request) ++ s ++ controls (flat_map content_blocks (messages_of request)) ++ m)%list).
    { unfold visited. rewrite !controls_app, Ht2, Hs2, Hm2, Ht, Hm, Hs, <- !app_assoc. done. }
    split.
    + exists s, m. split; [done|]. split; [destruct Hcase2 as [[-> _]| ->]; set_solver|]. split; [|done].
      intros -> ->. destruct Hcase as [(_ & -> & _)|(? & _)]; [|done]. by destruct Hcase2 as [[_ ->]|?].
    + exists n2. split; [done|]. rewrite (validate_count _ _ Hr2), V2. unfold visited in Hn. rewrite !controls_app, !length_app in Hn. rewrite !length_app.
      unfold anthropicCacheControlCapacity in *. destruct Hcase as [(-> & _ & ->)|(-> & ->)], Hcase2 as [[-> _]| ->]; cbn [length] in *; lia.
  - split.
    + exists s, []. split; [done|]. split; [set_solver|]. split; [|done]. intros -> _. by destruct Hcase as [(_ & -> & _)|(? & _)].
    + exists n1. split; [done|]. rewrite (validate_count _ _ Hr), V1. unfold visited in Hn. rewrite !controls_app, !length_app in Hn. rewrite !length_app.
      unfold anthropicCacheControlCapacity in *. destruct Hcase as [(-> & _ & ->)|(-> & ->)]; cbn [length] in *; lia.
Qed.

Definition ex_request : obj := [("system", AArray [AMap [("type", AString "text"); ("text", AString "s")]]);
  ("messages", AArray [AMap [("role", AString "user"); ("content", AString "hello")]])].
#[local] Instance ex_codec : JsonCodec := {| json_Unmarshal _ := Some (AMap ex_request); json_Marshal _ := Some "encoded" |}.
(** Both breakpoints are added, and one of five minutes is not put before one of an hour. *)
Lemma both_added : controls (visited (with_breakpoints ex_request 0)) = [ephemeral; ephemeral].
Proof. reflexivity. Qed.
Lemma hour_kept_first : let hour := AMap [("type", AString "ephemeral"); ("ttl", AString "1h")] in
  let request := put "messages" (AArray [AMap [("role", AString "user"); ("content", AArray [AMap [("type", AString "text"); ("cache_control", hour)]; AMap [("type", AString "text")]])]]) ex_request in
  controls (visited (with_breakpoints request 1)) = [hour; ephemeral] /\ get "system" (with_breakpoints request 1) = get "system" request.
Proof. vm_compute. auto. Qed.
