(* ===== verification/Strict.v ===== *)
(** Tool schemas in OpenAI's strict mode (internal/translate/strictify_openai.go): every object closed and all of its properties required, what was
    optional made nullable, and the constraints strict mode refuses moved into descriptions. *)

From stdpp Require Import base list strings sorting sets.
From Stdlib Require Import ZArith Lia.
From S2P Require Import Prelude Floats Any.
Open Scope string_scope.
Open Scope Z_scope.

Definition strictifyMaxDepth : nat := 10.
Definition strictifyMaxProperties : Z := 1000.
Definition strictifyBailKeywords : list string := ["oneOf"; "allOf"; "not"; "if"; "then"; "else"; "patternProperties"; "$ref";
  "dependentSchemas"; "unevaluatedProperties"; "unevaluatedItems"; "prefixItems"].
Definition strictifyDropKeywords : list string := ["format"; "pattern"; "default"; "examples";
  "minimum"; "maximum"; "exclusiveMinimum"; "exclusiveMaximum"; "multipleOf"; "minLength"; "maxLength"; "minItems"; "maxItems"; "uniqueItems";
  "minProperties"; "maxProperties"; "propertyNames"; "contains"; "minContains"; "maxContains"; "dependentRequired"].
(** The text fmt gives a float64. *)
Class GoFmt := { fmt_float : f64 -> string }.

(** ** Notes on what is dropped *)

Definition str_le (a b : string) : Prop := String.leb a b = true.
#[export] Instance str_le_dec : RelDecision str_le.
Proof. intros a b. unfold str_le. apply _. Defined.
Definition sort_Strings (l : list string) : list string := merge_sort str_le l.
(** [%v]; a map is printed with its keys sorted. *)
Definition pair_le (a b : string * string) : Prop := String.leb a.1 b.1 = true.
#[export] Instance pair_le_dec : RelDecision pair_le.
Proof. intros a b. unfold pair_le. apply _. Defined.
Fixpoint fmt_v `{GoFmt} (v : any) : string :=
  match v with
  | ANil => "<nil>"
  | ABool b => if b then "true" else "false"
  | ANumber x => fmt_float x
  | AString s => s
  | AArray l => "[" +:+ String.concat " " (map fmt_v l) +:+ "]"
  | AMap m => "map[" +:+ String.concat " " (map (fun kt => kt.1 +:+ ":" +:+ kt.2) (merge_sort pair_le (map (fun kv => (kv.1, fmt_v kv.2)) m))) +:+ "]"
  end.
Definition compactJSONValue `{GoFmt} (v : any) : string := fmt_v v.
Definition is_in (k : string) (l : list string) : bool := existsb (String.eqb k) l.
Definition dropped_notes `{GoFmt} (node : obj) : list string :=
  sort_Strings (map (fun kv => kv.1 +:+ ": " +:+ compactJSONValue kv.2) (List.filter (fun kv => is_in kv.1 strictifyDropKeywords) node)).
(** The node without what is dropped, and the notes in its description. *)
Definition stripped `{GoFmt} (node : obj) : obj :=
  let res := List.filter (fun kv => negb (is_in kv.1 strictifyDropKeywords)) node in
  match dropped_notes node with
  | [] => res
  | notes =>
      let note := "(" +:+ String.concat ", " notes +:+ ")" in
      match as_string (get "description" res) with
      | Some desc => put "description" (AString (if String.eqb desc "" then note else desc +:+ " " +:+ note)) res
      | None => put "description" (AString note) res
      end
  end.

(** ** Types *)

Definition typeIncludesArray (t : option any) : bool :=
  match t with
  | Some (AString v) => String.eqb v "array"
  | Some (AArray l) => existsb (fun e => match e with AString s => String.eqb s "array" | _ => false end) l
  | _ => false
  end.
Definition schemaHasStrictType (node : obj) : bool :=
  match get "type" node, get "anyOf" node, get "enum" node with None, None, None => false | _, _, _ => true end.
Definition strings (l : list string) : any := AArray (map AString l).
Definition permissiveAnySchema : obj := [("type", strings ["string"; "number"; "boolean"; "null"])].
Definition null_schema : any := AMap [("type", AString "null")].
(** The members of the second map over those of the first. *)
Definition over (base node : obj) : obj := foldr (fun kv m => put kv.1 kv.2 m) base node.
Definition any_type : obj := [("type", strings ["string"; "number"; "boolean"; "object"; "array"; "null"]); ("additionalProperties", ABool false);
  ("properties", AMap []); ("required", AArray []); ("items", AMap permissiveAnySchema)].
Definition makeNullable (node : obj) : obj :=
  match get "type" node with
  | Some (AString t) => if String.eqb t "null" then node else put "type" (strings [t; "null"]) node
  | Some (AArray l) => if existsb (fun e => match e with AString s => String.eqb s "null" | _ => false end) l then node
                       else put "type" (AArray (l ++ [AString "null"])) node
  | _ => match get "anyOf" node with
         | Some (AArray branches) => put "anyOf" (AArray (branches ++ [null_schema])) node
         | _ => [("anyOf", AArray [AMap (over any_type node); null_schema])]
         end
  end.

(** ** The transformation *)

(** The loops over the branches of an anyOf and over properties; the counter of properties is shared by the whole schema. *)
Fixpoint each_branch (rec : obj -> Z -> option (obj * Z)) (branches : list any) (propCount : Z) : option (list any * Z) :=
  match branches with
  | [] => Some ([], propCount)
  | AMap b :: rest =>
      '(sb, propCount) ← rec b propCount;
      if schemaHasStrictType sb then '(out, propCount) ← each_branch rec rest propCount; Some (AMap sb :: out, propCount) else None
  | _ :: _ => None
  end.
Fixpoint each_property (rec : obj -> Z -> option (obj * Z)) (originallyRequired : list string) (properties : obj) (propCount : Z) : option (obj * Z) :=
  match properties with
  | [] => Some ([], propCount)
  | (name, p) :: rest =>
      let propCount := propCount + 1 in
      if strictifyMaxProperties <? propCount then None
      else match p with
           | AMap pm =>
               '(sp, propCount) ← rec pm propCount;
               let sp := if is_in name originallyRequired then sp else makeNullable sp in
               '(out, propCount) ← each_property rec originallyRequired rest propCount; Some ((name, AMap sp) :: out, propCount)
           | _ => None
           end
  end.
Definition required_names (res : obj) : list string := omap (fun r => as_string (Some r)) (default [] (as_array (get "required" res))).
(** The three stages of a node. *)
Definition anyOf_stage (rec : obj -> Z -> option (obj * Z)) (res : obj) (propCount : Z) : option (obj * Z) :=
  match as_array (get "anyOf" res) with
  | Some branches => '(out, propCount) ← each_branch rec branches propCount; Some (put "anyOf" (AArray out) res, propCount)
  | None => Some (res, propCount)
  end.
Definition items_stage (rec : obj -> Z -> option (obj * Z)) (res : obj) (propCount : Z) : option (obj * Z) :=
  match get "items" res with
  | Some (AMap im) => '(si, propCount) ← rec im propCount; if schemaHasStrictType si then Some (put "items" (AMap si) res, propCount) else None
  | Some _ => None
  | None => if typeIncludesArray (get "type" res) then None else Some (res, propCount)
  end.
Definition object_stage (rec : obj -> Z -> option (obj * Z)) (res : obj) (propCount : Z) : option (obj * Z) :=
  let properties := as_map (get "properties" res) in
  let isObject := (match as_string (get "type" res) with Some t => String.eqb t "object" | None => false end || match properties with Some _ => true | None => false end)%bool in
  if negb isObject then Some (res, propCount)
  else
    let res := put "additionalProperties" (ABool false) (put "type" (AString "object") res) in
    '(outProps, propCount) ← each_property rec (required_names res) (default [] properties) propCount;
    Some (put "required" (strings (sort_Strings (map fst (default [] properties)))) (put "properties" (AMap outProps) res), propCount).
(** [levels] is how many levels the depth leaves, this one included. *)
Fixpoint strictifyNode `{GoFmt} (levels : nat) (node : obj) (propCount : Z) : option (obj * Z) :=
  match levels with
  | O => None
  | S below =>
      if existsb (fun kw => match get kw node with Some _ => true | None => false end) strictifyBailKeywords then None
      else
        let rec := strictifyNode below in
        '(res, propCount) ← anyOf_stage rec (stripped node) propCount;
        '(res, propCount) ← items_stage rec res propCount;
        object_stage rec res propCount
  end.
Definition strictifyOpenAISchema `{GoFmt} (schema : any) : option any :=
  match schema with
  | AMap root =>
      match as_string (get "type" root) with
      | Some t => if String.eqb t "object" then (fun r => AMap r.1) <$> strictifyNode (S strictifyMaxDepth) root 0 else None
      | None => None
      end
  | _ => None
  end.

(** ** What strict mode accepts *)

Definition object_typed (m : obj) : Prop :=
  get "type" m = Some (AString "object") \/ get "type" m = Some (strings ["object"; "null"]) \/ get "type" m = Some (strings ["object"]).
(** A node of a strict schema: none of the keywords it refuses; branches, items and properties strict nodes with a type; arrays with items; a node of
    type "object", or with properties and of a type that [object_typed] names, closed, with exactly its properties required. *)
Inductive strict : obj -> Prop :=
| strict_node m
    (s_keys : forall k, (is_in k strictifyBailKeywords || is_in k strictifyDropKeywords)%bool = true -> get k m = None)
    (s_branches : forall l, get "anyOf" m = Some (AArray l) -> forall b, b ∈ l -> exists bm, b = AMap bm /\ schemaHasStrictType bm = true /\ strict bm)
    (s_items : forall v, get "items" m = Some v -> exists im, v = AMap im /\ schemaHasStrictType im = true /\ strict im)
    (s_array : typeIncludesArray (get "type" m) = true -> get "items" m <> None)
    (s_object : get "type" m = Some (AString "object") -> exists props, get "properties" m = Some (AMap props))
    (s_closed : forall props, get "properties" m = Some (AMap props) -> object_typed m ->
       get "additionalProperties" m = Some (ABool false) /\ get "required" m = Some (strings (sort_Strings (map fst props))) /\
       (Z.of_nat (length props) <= strictifyMaxProperties) /\ forall k v, (k, v) ∈ props -> exists pm, v = AMap pm /\ strict pm)
  : strict m.
Definition nullable (m : obj) : Prop :=
  get "type" m = Some (AString "null") \/ (exists l, get "type" m = Some (AArray l) /\ AString "null" ∈ l) \/ (exists l, get "anyOf" m = Some (AArray l) /\ null_schema ∈ l).

Lemma strict_closed m props : strict m -> get "properties" m = Some (AMap props) -> object_typed m ->
  get "additionalProperties" m = Some (ABool false) /\ get "required" m = Some (strings (sort_Strings (map fst props))) /\
  (Z.of_nat (length props) <= strictifyMaxProperties) /\ forall k v, (k, v) ∈ props -> exists pm, v = AMap pm /\ strict pm.
Proof. intros [m' K B I A O C]. apply C. Qed.
Lemma get_over k base node : get k (over base node) = match get k node with Some v => Some v | None => get k base end.
Proof.
  induction node as [|[k' v] node IH]; [done|]. cbn [over foldr get fst snd]. rewrite get_put. fold (over base node). rewrite IH. by destruct (String.eqb k' k).
Qed.
Lemma typed_null : strict [("type", AString "null")].
Proof.
  constructor; try done.
  intros k Hk. cbn [get]. destruct (String.eqb_spec "type" k) as [<-|]; [by vm_compute in Hk|done].
Qed.
Lemma typed_permissive : strict permissiveAnySchema.
Proof.
  constructor; try done.
  intros k Hk. unfold permissiveAnySchema. cbn [get]. destruct (String.eqb_spec "type" k) as [<-|]; [by vm_compute in Hk|done].
Qed.
Lemma type_kept k : (is_in k strictifyBailKeywords || is_in k strictifyDropKeywords)%bool = true -> k ∉ ["type"; "anyOf"; "items"; "properties"; "required"; "additionalProperties"; "description"].
Proof. intros Hk Hin. repeat (apply elem_of_cons in Hin as [->|Hin]; [by vm_compute in Hk|]). by apply elem_of_nil in Hin. Qed.
Ltac other_key := rewrite get_put_other by (intros <-; match goal with H : _ = true |- _ => apply type_kept in H; set_solver end).
Lemma nullable_branch m : strict m -> (forall t, get "type" m <> Some (AString t)) -> (forall l, get "type" m <> Some (AArray l)) -> (forall l, get "anyOf" m <> Some (AArray l)) ->
  strict (over any_type m).
Proof.
  intros S Ht Hl Ha. destruct S as [m K B I A O C]. constructor; intros k; rewrite ?get_over.
  - intros Hk. rewrite (K k Hk). pose proof (type_kept k Hk) as N. unfold any_type. cbn [get].
    repeat match goal with |- context [String.eqb ?x k] => destruct (String.eqb_spec x k) as [<-|_]; [set_solver|] end. done.
  - destruct (get "anyOf" m) as [a|] eqn:E; [|done]. intros [= ->]. by destruct (Ha k).
  - destruct (get "items" m) as [a|] eqn:E; [intros [= <-]; by apply I|]. intros [= <-]. exists permissiveAnySchema. split; [done|]. split; [done|exact typed_permissive].
  - by destruct (get "items" m).
  - rewrite get_over in k. destruct (get "type" m) as [[| | |t| |]|] eqn:E; try done. by destruct (Ht t).
  - intros _ T. unfold object_typed in T. rewrite !get_over in T. destruct (get "type" m) as [v|] eqn:E; [|by destruct T as [T|[T|T]]; vm_compute in T].
    destruct v as [| | |t|l|]; try (by destruct T as [T|[T|T]]); [by destruct (Ht t)|by destruct (Hl l)].
Qed.
(** A change of the type of a strict node that closes no object and keeps arrays arrays. *)
Lemma strict_retyped m t : strict m -> (typeIncludesArray (Some t) = true -> typeIncludesArray (get "type" m) = true) -> (forall s, t <> AString s) ->
  (object_typed (put "type" t m) -> object_typed m) -> strict (put "type" t m).
Proof.
  intros [m' K B I A O C] Ha Hs Ho. constructor; intros k; rewrite ?get_put_same, ?get_put_other by done.
  - intros Hk. other_key. by apply K.
  - apply B.
  - apply I.
  - rewrite get_put_same in k. by apply A, Ha.
  - rewrite get_put_same in k. injection k as k. by destruct (Hs "object").
  - intros Hk T. apply Ho in T. by apply C.
Qed.
Lemma strict_pair m : strict m -> strict [("anyOf", AArray [AMap m; null_schema])] \/ schemaHasStrictType m = false.
Proof.
  intros S. destruct (schemaHasStrictType m) eqn:T; [left|by right]. constructor; intros k; try done.
  - intros Hk. cbn [get]. destruct (String.eqb_spec "anyOf" k) as [<-|]; [by vm_compute in Hk|done].
  - cbn [get]. change (String.eqb "anyOf" "anyOf") with true. cbn iota. intros [= <-] b Hb. apply elem_of_cons in Hb as [->|Hb]; [by exists m|].
    apply list_elem_of_singleton in Hb as ->. eexists. split; [done|]. split; [done|exact typed_null].
Qed.
Lemma more_branches m l : strict m -> get "anyOf" m = Some (AArray l) -> strict (put "anyOf" (AArray (l ++ [null_schema])) m).
Proof.
  intros [m' K B I A O C] Hl. constructor; intros k; rewrite ?get_put_same, ?get_put_other by done.
  - intros Hk. other_key. by apply K.
  - intros [= <-] b Hb. apply elem_of_app in Hb as [Hb|Hb]; [by apply (B l)|]. apply list_elem_of_singleton in Hb as ->.
    eexists. split; [done|]. split; [done|exact typed_null].
  - apply I.
  - rewrite get_put_other in k by done. by apply A.
  - rewrite get_put_other in k by done. by apply O.
  - unfold object_typed. rewrite get_put_other by done. by apply C.
Qed.
Lemma strict_nullable m : strict m -> strict (makeNullable m).
Proof.
  intros S. unfold makeNullable.
  assert (W : (forall t, get "type" m <> Some (AString t)) -> (forall l, get "type" m <> Some (AArray l)) ->
    strict (match get "anyOf" m with Some (AArray branches) => put "anyOf" (AArray (branches ++ [null_schema])) m | _ => [("anyOf", AArray [AMap (over any_type m); null_schema])] end)).
  { intros Ht Hl. assert (P : (forall l, get "anyOf" m <> Some (AArray l)) -> strict [("anyOf", AArray [AMap (over any_type m); null_schema])]).
    { intros Ha. destruct (strict_pair _ (nullable_branch m S Ht Hl Ha)) as [|T]; [done|]. unfold schemaHasStrictType in T. rewrite get_over in T. by destruct (get "type" m). }
    destruct (get "anyOf" m) as [[| | | |l|]|] eqn:Ea; try (by apply P). by apply more_branches. }
  destruct (get "type" m) as [[| | |t|l|]|] eqn:Et; try (by apply W).
  - destruct (String.eqb_spec t "null") as [|Hne]; [done|]. apply strict_retyped; try done.
    + rewrite Et. cbn. destruct (String.eqb t "array"); [done|]. done.
    + unfold object_typed. rewrite get_put_same, Et. intros [?|[E|?]]; [done| |done]. left. by injection E as ->.
  - destruct (existsb _ l); [done|]. apply strict_retyped; try done.
    + rewrite Et. cbn. rewrite existsb_app, orb_false_r. done.
    + unfold object_typed. rewrite get_put_same, Et. intros [E|[E|E]]; [done| |].
      * injection E as E. right. right. do 2 f_equal. destruct l as [|x [|y l]]; [done| |by destruct l]. cbn in E. by injection E as ->.
      * injection E as E. destruct l as [|x l]; [done|]. by destruct l.
Qed.

(** ** The transformation gives strict nodes *)

Lemma nullable_made m : strict m -> nullable (makeNullable m).
Proof.
  intros _. unfold makeNullable, nullable. destruct (get "type" m) as [[| | |t|l|]|] eqn:Et.
  4: { destruct (String.eqb_spec t "null") as [->|]; [by left|]. right. left. rewrite get_put_same. eexists. split; [done|]. cbn. set_solver. }
  4: { right. left. destruct (existsb _ l) eqn:Ex.
       - exists l. split; [done|]. apply existsb_exists in Ex as ([| | |s| |] & Hin & Hs); try done. apply String.eqb_eq in Hs as ->. by apply list_elem_of_In.
       - rewrite get_put_same. eexists. split; [done|]. set_solver. }
  all: right; right; destruct (get "anyOf" m) as [[| | | |l|]|]; try (rewrite get_put_same; eexists; split; [done|set_solver]); (eexists; split; [done|set_solver]).
Qed.
Definition good (rec : obj -> Z -> option (obj * Z)) : Prop :=
  forall m n m' n', 0 <= n <= strictifyMaxProperties -> rec m n = Some (m', n') -> strict m' /\ n <= n' <= strictifyMaxProperties.
Section Stages.
Context (rec : obj -> Z -> option (obj * Z)) (G : good rec).
Lemma each_branch_good l : forall n out n', 0 <= n <= strictifyMaxProperties -> each_branch rec l n = Some (out, n') ->
  (forall b, b ∈ out -> exists bm, b = AMap bm /\ schemaHasStrictType bm = true /\ strict bm) /\ n <= n' <= strictifyMaxProperties.
Proof.
  induction l as [|b l IH]; intros n out n' Hn; cbn [each_branch]; [intros [= <- <-]; split; [by intros b ?%elem_of_nil|lia]|].
  destruct b as [| | | | |bm]; try done. destruct (rec bm n) as [[sb n1]|] eqn:Er; [|done]. cbn [mbind option_bind]. destruct (G _ _ _ _ Hn Er) as [Sb Hn1].
  destruct (schemaHasStrictType sb) eqn:T; [|done]. destruct (each_branch rec l n1) as [[out' n2]|] eqn:El; [|done]. intros [= <- <-].
  destruct (IH n1 out' n2 ltac:(lia) El) as [B Hn2]. split; [|lia]. intros b Hb. apply elem_of_cons in Hb as [->|Hb]; [by exists sb|by apply B].
Qed.
Lemma each_property_good req l : forall n out n', 0 <= n <= strictifyMaxProperties -> each_property rec req l n = Some (out, n') ->
  map fst out = map fst l /\ n + Z.of_nat (length out) <= n' <= strictifyMaxProperties /\
  forall k v, (k, v) ∈ out -> exists pm, v = AMap pm /\ strict pm /\ (is_in k req = false -> nullable pm).
Proof.
  induction l as [|[name p] l IH]; intros n out n' Hn; cbn [each_property]; [intros [= <- <-]; split; [done|]; split; [cbn; lia|by intros k v ?%elem_of_nil]|].
  destruct (Z.ltb_spec strictifyMaxProperties (n + 1)); [done|]. destruct p as [| | | | |pm]; try done. destruct (rec pm (n + 1)) as [[sp n1]|] eqn:Er; [|done]. cbn [mbind option_bind].
  destruct (G pm (n + 1) _ _ ltac:(lia) Er) as [Sp Hn1]. destruct (each_property rec req l n1) as [[out' n2]|] eqn:El; [|done]. intros [= <- <-].
  destruct (IH n1 out' n2 ltac:(lia) El) as (N & Hn2 & P). split; [cbn; by rewrite N|]. split; [cbn [length]; lia|].
  intros k v Hkv. apply elem_of_cons in Hkv as [[= -> ->]|Hkv]; [|by apply P]. eexists. split; [done|].
  destruct (is_in name req); [done|]. split; [by apply strict_nullable|]. intros _. by apply nullable_made.
Qed.
(** What the first two stages leave: the clauses of [strict] but those of objects. *)
Definition no_keyword (m : obj) : Prop := forall k, (is_in k strictifyBailKeywords || is_in k strictifyDropKeywords)%bool = true -> get k m = None.
Definition good_branches (m : obj) : Prop := forall l, get "anyOf" m = Some (AArray l) -> forall b, b ∈ l -> exists bm, b = AMap bm /\ schemaHasStrictType bm = true /\ strict bm.
Definition good_items (m : obj) : Prop := (forall v, get "items" m = Some v -> exists im, v = AMap im /\ schemaHasStrictType im = true /\ strict im) /\
  (typeIncludesArray (get "type" m) = true -> get "items" m <> None).
Lemma anyOf_good res n res' n' : 0 <= n <= strictifyMaxProperties -> no_keyword res -> anyOf_stage rec res n = Some (res', n') ->
  no_keyword res' /\ good_branches res' /\ n <= n' <= strictifyMaxProperties /\ (forall k, k <> "anyOf" -> get k res' = get k res).
Proof.
  intros Hn K. unfold anyOf_stage. destruct (as_array (get "anyOf" res)) as [l|] eqn:E.
  - destruct (each_branch rec l n) as [[out n1]|] eqn:Eb; [|done]. intros [= <- <-]. destruct (each_branch_good _ _ _ _ Hn Eb) as [B Hn1].
    split; [intros k Hk; other_key; by apply K|]. split; [|split; [done|]].
    + intros l'. rewrite get_put_same. intros [= <-]. exact B.
    + intros k Hk. by rewrite get_put_other.
  - intros [= <- <-]. split; [done|]. split; [|split; [lia|done]]. intros l Hl. by rewrite Hl in E.
Qed.
Lemma items_good res n res' n' : 0 <= n <= strictifyMaxProperties -> no_keyword res -> good_branches res -> items_stage rec res n = Some (res', n') ->
  no_keyword res' /\ good_branches res' /\ good_items res' /\ n <= n' <= strictifyMaxProperties /\ (forall k, k <> "items" -> get k res' = get k res).
Proof.
  intros Hn K B. unfold items_stage. destruct (get "items" res) as [[| | | | |im]|] eqn:E; try done.
  - destruct (rec im n) as [[si n1]|] eqn:Er; [|done]. cbn [mbind option_bind]. destruct (schemaHasStrictType si) eqn:T; [|done]. intros [= <- <-].
    destruct (G _ _ _ _ Hn Er) as [Si Hn1]. split; [intros k Hk; other_key; by apply K|]. split; [|split; [|split; [done|]]].
    + intros l. rewrite get_put_other by done. apply B.
    + split; rewrite get_put_same; [|done]. intros v [= <-]. by exists si.
    + intros k Hk. by rewrite get_put_other.
  - destruct (typeIncludesArray (get "type" res)) eqn:T; [done|]. intros [= <- <-]. split; [done|]. split; [done|]. split; [|split; [lia|done]].
    split; [by rewrite E|]. by rewrite T.
Qed.
Lemma object_good res n res' n' : 0 <= n <= strictifyMaxProperties -> no_keyword res -> good_branches res -> good_items res -> object_stage rec res n = Some (res', n') ->
  strict res' /\ n <= n' <= strictifyMaxProperties /\
  (get "type" res = Some (AString "object") -> get "type" res' = Some (AString "object") /\ exists props, get "properties" res' = Some (AMap props) /\
    map fst props = map fst (default [] (as_map (get "properties" res))) /\
    forall k v, (k, v) ∈ props -> is_in k (required_names res) = false -> exists pm, v = AMap pm /\ nullable pm).
Proof.
  intros Hn K B [I A]. unfold object_stage. destruct (negb _) eqn:Eo.
  - intros [= <- <-]. apply negb_true_iff, orb_false_elim in Eo as [Et Ep]. split; [|split; [lia|]].
    + constructor; try done; [intros T; rewrite T in Et; by vm_compute in Et|]. intros props Hp. by rewrite Hp in Ep.
    + intros T. rewrite T in Et. by vm_compute in Et.
  - set (base := put "additionalProperties" (ABool false) (put "type" (AString "object") res)). set (properties := default [] (as_map (get "properties" res))).
    replace (required_names base) with (required_names res) by (unfold required_names, base; by rewrite !get_put_other).
    destruct (each_property rec (required_names res) properties n) as [[out n1]|] eqn:El; [|done]. intros [= <- <-].
    destruct (each_property_good _ _ _ _ _ Hn El) as (N & Hn1 & P). split; [|split; [lia|]].
    + constructor; intros k; unfold base in *; rewrite ?get_put_same, ?get_put_other by done.
      * intros Hk. do 4 other_key. by apply K.
      * apply B.
      * apply I.
      * rewrite !get_put_other, get_put_same in k by done. done.
      * exists out. apply get_put_same.
      * rewrite ?get_put_same. intros [= <-] _. split; [by rewrite get_put_other, get_put_other, get_put_same by done|]. split; [by rewrite N|]. split; [lia|]. intros k' v Hkv. destruct (P _ _ Hkv) as (pm & -> & Sp & _). by exists pm.
    + intros _. split; [unfold base; rewrite !get_put_other, get_put_same by done; done|]. exists out. split; [by rewrite get_put_other, get_put_same by done|]. split; [done|].
      intros k v Hkv Hk. destruct (P _ _ Hkv) as (pm & -> & _ & Hnull). exists pm. auto.
Qed.
End Stages.

Lemma get_filter f k m : f k = true -> get k (List.filter (fun kv : string * any => f kv.1) m) = get k m.
Proof.
  intros Hf. induction m as [|[k' v] m IH]; [done|]. cbn [List.filter fst get]. destruct (String.eqb_spec k' k) as [->|Hne].
  - rewrite Hf. cbn [get]. by rewrite String.eqb_refl.
  - destruct (f k'); [|exact IH]. cbn [get]. apply String.eqb_neq in Hne as ->. exact IH.
Qed.
Lemma get_filtered f k m : f k = false -> get k (List.filter (fun kv : string * any => f kv.1) m) = None.
Proof.
  intros Hf. induction m as [|[k' v] m IH]; [done|]. cbn [List.filter fst]. destruct (f k') eqn:E; [|exact IH]. cbn [get].
  destruct (String.eqb_spec k' k) as [->|]; [congruence|exact IH].
Qed.
Section Schema.
Context `{GoFmt}.
Lemma stripped_get k node : k <> "description" -> get k (stripped node) = if is_in k strictifyDropKeywords then None else get k node.
Proof.
  intros Hk. assert (E : get k (List.filter (fun kv => negb (is_in kv.1 strictifyDropKeywords)) node) = if is_in k strictifyDropKeywords then None else get k node).
  { destruct (is_in k strictifyDropKeywords) eqn:D; [apply (get_filtered (fun k => negb (is_in k strictifyDropKeywords)))|apply (get_filter (fun k => negb (is_in k strictifyDropKeywords)))]; by rewrite D. }
  unfold stripped. destruct (dropped_notes node); [exact E|]. destruct (as_string _); by rewrite get_put_other.
Qed.
Lemma stripped_no_keyword node : existsb (fun kw => match get kw node with Some _ => true | None => false end) strictifyBailKeywords = false -> no_keyword (stripped node).
Proof.
  intros Hb k Hk. pose proof (type_kept k Hk) as N. rewrite stripped_get by (intros ->; set_solver). destruct (is_in k strictifyDropKeywords) eqn:D; [done|].
  rewrite orb_false_r in Hk. unfold is_in in Hk. apply existsb_exists in Hk as (kw & Hin & He). apply String.eqb_eq in He as <-.
  destruct (get k node) eqn:E; [|done]. assert (X : existsb (fun kw => match get kw node with Some _ => true | None => false end) strictifyBailKeywords = true); [|congruence].
  apply existsb_exists. exists k. by rewrite E.
Qed.
(** A node's result, and for an object what became of its properties. *)
Lemma node_good levels : forall m n m' n', 0 <= n <= strictifyMaxProperties -> strictifyNode levels m n = Some (m', n') ->
  strict m' /\ n <= n' <= strictifyMaxProperties /\
  (get "type" m = Some (AString "object") -> get "type" m' = Some (AString "object") /\ exists props, get "properties" m' = Some (AMap props) /\
    map fst props = map fst (default [] (as_map (get "properties" m))) /\
    forall k v, (k, v) ∈ props -> is_in k (required_names m) = false -> exists pm, v = AMap pm /\ nullable pm).
Proof.
  induction levels as [|below IH]; intros m n m' n' Hn; cbn [strictifyNode]; [done|]. destruct (existsb _ strictifyBailKeywords) eqn:Eb; [done|].
  assert (G : good (strictifyNode below)) by (intros a b c d Hb He; by destruct (IH a b c d Hb He) as (? & ? & _)).
  destruct (anyOf_stage _ (stripped m) n) as [[r1 n1]|] eqn:E1; [|done]. cbn [mbind option_bind].
  destruct (anyOf_good _ G _ _ _ _ Hn (stripped_no_keyword m Eb) E1) as (K1 & B1 & Hn1 & S1).
  destruct (items_stage _ r1 n1) as [[r2 n2]|] eqn:E2; [|done]. cbn [mbind option_bind]. intros E3.
  assert (Hb1 : 0 <= n1 <= strictifyMaxProperties) by lia.
  destruct (items_good _ G _ _ _ _ Hb1 K1 B1 E2) as (K2 & B2 & I2 & Hn2 & S2). assert (Hb2 : 0 <= n2 <= strictifyMaxProperties) by lia.
  destruct (object_good _ G _ _ _ _ Hb2 K2 B2 I2 E3) as (Sm & Hn3 & O). split; [done|]. split; [lia|].
  assert (Same : forall k, k ∈ ["type"; "properties"; "required"] -> get k r2 = get k m).
  { intros k Hk. repeat (apply elem_of_cons in Hk as [->|Hk]; [by rewrite S2, S1, stripped_get by done|]). by apply elem_of_nil in Hk. }
  unfold required_names in *. rewrite !Same in O by set_solver. exact O.
Qed.

End Schema.
#[local] Instance ex_fmt : GoFmt := {| fmt_float _ := "1" |}.
Definition ex_schema : any := AMap [("type", AString "object"); ("required", AArray [AString "a"]);
  ("properties", AMap [("b", AMap [("type", AString "array"); ("minItems", ANumber (f64_of_Z 1)); ("items", AMap [("type", AString "string")])]);
                       ("a", AMap [("type", AString "string"); ("description", AString "d"); ("format", AString "uri")])])].
(** A nullable object loses its null when it has properties, and stays open when it has none; an optional property without a type keeps what
    it says of additional properties. *)
Lemma nullable_object_lost : strictifyNode 5 [("type", strings ["object"; "null"]); ("properties", AMap [])] 0 =
  Some ([("type", AString "object"); ("properties", AMap []); ("additionalProperties", ABool false); ("required", AArray [])], 0).
Proof. reflexivity. Qed.
Lemma nullable_object_open : strictifyNode 5 [("type", strings ["object"; "null"])] 0 = Some ([("type", strings ["object"; "null"])], 0).
Proof. reflexivity. Qed.
Lemma untyped_stays_open : exists m, makeNullable [("additionalProperties", ABool true)] = [("anyOf", AArray [AMap m; null_schema])] /\ get "additionalProperties" m = Some (ABool true).
Proof. eexists. split; reflexivity. Qed.
