(* ===== verification/Account.v ===== *)
(** Self-service login (internal/auth/account_login.go, account.go, internal/api/account, internal/postgres, internal/sqlc): an aiand key proves
    who the user is, and gives them an account, the account's installation and a session of the dashboard.

    Each statement of the database is atomic; concurrent logins interleave theirs.  A provider key's row carries the key its ciphertext
    decrypts to.  Left out: times of creation and of use, cookies' attributes, and the cached keys a login drops (Auth). *)

From stdpp Require Import base gmap list strings.
From Stdlib Require Import ZArith Lia Ascii.
From S2P Require Import Prelude Strings Floats Hash Lru KeyCache Auth.
Open Scope string_scope.
Open Scope Z_scope.

(** ** Rows and statements *)

Record AiandIdentity := { UserID : string; OrganizationID : string }.
Record Account := { acct_ID : string; AiandUserID : string; AiandOrganizationID : string; DisplayName : option string; acct_Deleted : bool }.
Record AcctInstallation := { ai_ID : string; ai_ExternalID : string; ai_Name : string; ai_Deleted : bool }.
Record LoginSession := { sess_ID : string; AccountID : string; sess_InstallationID : string; TokenHash : string; TokenPrefix : string; TokenSuffix : string;
  ExpiresAt : Z; Revoked : bool }.
(** A provider key for aiand, the only provider the table admits. *)
Record LoginKey := { lk_Installation : string; lk_Key : string; lk_Deleted : bool }.
Record Tables := { accounts : list Account; acct_installations : list AcctInstallation; login_keys : list LoginKey; sessions : list LoginSession }.
Definition with_accounts (v : list Account) (t : Tables) : Tables :=
  {| accounts := v; acct_installations := t.(acct_installations); login_keys := t.(login_keys); sessions := t.(sessions) |}.
Definition with_acct_installations (v : list AcctInstallation) (t : Tables) : Tables :=
  {| accounts := t.(accounts); acct_installations := v; login_keys := t.(login_keys); sessions := t.(sessions) |}.
Definition with_login_keys (v : list LoginKey) (t : Tables) : Tables :=
  {| accounts := t.(accounts); acct_installations := t.(acct_installations); login_keys := v; sessions := t.(sessions) |}.
Definition with_sessions (v : list LoginSession) (t : Tables) : Tables :=
  {| accounts := t.(accounts); acct_installations := t.(acct_installations); login_keys := t.(login_keys); sessions := v |}.
Definition active_user (user : string) (a : Account) : bool := (String.eqb a.(AiandUserID) user && negb a.(acct_Deleted))%bool.
(** The conflict with the active account of the user refreshes it; the display name is kept when none is given. *)
Definition refreshed (org : string) (name : option string) (a : Account) : Account := {| acct_ID := a.(acct_ID); AiandUserID := a.(AiandUserID);
  AiandOrganizationID := org; DisplayName := match name with Some n => Some n | None => a.(DisplayName) end; acct_Deleted := a.(acct_Deleted) |}.
Definition UpsertByAiandUser (id user org : string) (name : option string) (t : Tables) : option (Account * Tables) :=
  match List.find (active_user user) t.(accounts) with
  | Some a => Some (refreshed org name a, with_accounts (map (fun b => if active_user user b then refreshed org name b else b) t.(accounts)) t)
  | None =>
      if existsb (fun a => String.eqb a.(acct_ID) id) t.(accounts) then None
      else let a := {| acct_ID := id; AiandUserID := user; AiandOrganizationID := org; DisplayName := name; acct_Deleted := false |} in
           Some (a, with_accounts (t.(accounts) ++ [a])%list t)
  end.
Definition GetByID (id : string) (t : Tables) : option Account := List.find (fun a => String.eqb a.(acct_ID) id && negb a.(acct_Deleted))%bool t.(accounts).
(** Newest first. *)
Definition ListForExternalID (externalID : string) (t : Tables) : list AcctInstallation :=
  rev (List.filter (fun i => String.eqb i.(ai_ExternalID) externalID && negb i.(ai_Deleted))%bool t.(acct_installations)).
Definition same_name (externalID name : string) (i : AcctInstallation) : bool :=
  (String.eqb i.(ai_ExternalID) externalID && String.eqb i.(ai_Name) name && negb i.(ai_Deleted))%bool.
(** Refused when the external identifier has an active installation of the same name. *)
Definition CreateInstallation (id externalID name : string) (t : Tables) : option (AcctInstallation * Tables) :=
  if (existsb (same_name externalID name) t.(acct_installations) || existsb (fun i => String.eqb i.(ai_ID) id) t.(acct_installations))%bool then None
  else let i := {| ai_ID := id; ai_ExternalID := externalID; ai_Name := name; ai_Deleted := false |} in
       Some (i, with_acct_installations (t.(acct_installations) ++ [i])%list t).
Definition GetInstallation (externalID id : string) (t : Tables) : option AcctInstallation :=
  List.find (fun i => String.eqb i.(ai_ID) id && String.eqb i.(ai_ExternalID) externalID && negb i.(ai_Deleted))%bool t.(acct_installations).
Definition live_key (installation : string) (k : LoginKey) : bool := (String.eqb k.(lk_Installation) installation && negb k.(lk_Deleted))%bool.
Definition SoftDeleteByProvider (installation : string) (t : Tables) : Tables :=
  with_login_keys ((fun k => if live_key installation k then {| lk_Installation := k.(lk_Installation); lk_Key := k.(lk_Key); lk_Deleted := true |} else k) <$> t.(login_keys)) t.
(** Refused when the installation has an active key for the provider, or does not exist. *)
Definition CreateExternalAPIKey (installation key : string) (t : Tables) : option Tables :=
  if (existsb (live_key installation) t.(login_keys) || negb (existsb (fun i => String.eqb i.(ai_ID) installation) t.(acct_installations)))%bool then None
  else Some (with_login_keys (t.(login_keys) ++ [{| lk_Installation := installation; lk_Key := key; lk_Deleted := false |}])%list t).
(** The hash is unique, and the account exists. *)
Definition InsertSession (s : LoginSession) (t : Tables) : option Tables :=
  if (existsb (fun s' => String.eqb s'.(TokenHash) s.(TokenHash)) t.(sessions) || negb (existsb (fun a => String.eqb a.(acct_ID) s.(AccountID)) t.(accounts)))%bool then None
  else Some (with_sessions (t.(sessions) ++ [s])%list t).
Definition GetActiveByTokenHash (now : Z) (hash : string) (t : Tables) : option LoginSession :=
  List.find (fun s => String.eqb s.(TokenHash) hash && negb s.(Revoked) && (now <? s.(ExpiresAt)))%bool t.(sessions).

(** [RevokeByID], [RevokeAllForAccount]: a session revoked stays so. *)
Definition revoked (s : LoginSession) : LoginSession := {| sess_ID := s.(sess_ID); AccountID := s.(AccountID); sess_InstallationID := s.(sess_InstallationID);
  TokenHash := s.(TokenHash); TokenPrefix := s.(TokenPrefix); TokenSuffix := s.(TokenSuffix); ExpiresAt := s.(ExpiresAt); Revoked := true |}.
Definition RevokeByID (accountID sessionID : string) (t : Tables) : Tables :=
  with_sessions ((fun s => if (String.eqb s.(AccountID) accountID && String.eqb s.(sess_ID) sessionID && negb s.(Revoked))%bool then revoked s else s) <$> t.(sessions)) t.
Definition RevokeAllForAccount (accountID : string) (t : Tables) : Tables :=
  with_sessions ((fun s => if (String.eqb s.(AccountID) accountID && negb s.(Revoked))%bool then revoked s else s) <$> t.(sessions)) t.

(** ** Login *)

Inductive LoginError := ErrLoginDisabled | ErrKeyInvalid | ErrKeyInsufficientCredits | ErrLoginRateLimited | ErrKeyUnavailable | ErrLoginSessionInvalid | ErrStore.
(** What aiand answers a probe with a key: [None] when it cannot be reached. *)
Record ProbeResponse := { StatusCode : Z; X_Org_Id : string }.
Definition Validate (resp : option ProbeResponse) : res LoginError AiandIdentity :=
  match resp with
  | None => Err ErrKeyUnavailable
  | Some r =>
      if r.(StatusCode) =? 200 then
        let orgID := TrimSpace r.(X_Org_Id) in
        if String.eqb orgID "" then Err ErrKeyUnavailable else Ok {| UserID := orgID; OrganizationID := orgID |}
      else if ((r.(StatusCode) =? 401) || (r.(StatusCode) =? 403))%bool then Err ErrKeyInvalid
      else if r.(StatusCode) =? 402 then Err ErrKeyInsufficientCredits
      else if r.(StatusCode) =? 429 then Err ErrLoginRateLimited
      else Err ErrKeyUnavailable
  end.
(** The name of an account's installation. *)
Definition installation_name (a : Account) : string :=
  match a.(DisplayName) with Some n => if String.eqb n "" then a.(AiandUserID) else n | None => a.(AiandUserID) end.
Definition findAccountInstallation (accountID : string) (t : Tables) : option AcctInstallation := head (ListForExternalID accountID t).
Definition DefaultLoginSessionTTL : Z := 7 * 24 * 3600.
(** A login between two of its statements. *)
Inductive login :=
| Upserting (identity : AiandIdentity)
| Listing (a : Account)
| Creating (a : Account)
| Relisting (a : Account)
| Replacing (a : Account) (i : AcctInstallation)
| Storing (a : Account) (i : AcctInstallation)
| Issuing (a : Account) (i : AcctInstallation)
| Done (a : Account) (i : AcctInstallation) (token : string) (expiresAt : Z)
| Failed (e : LoginError).
(** What one statement meets: whether it fails, the identifier or token drawn for it, the identifier the database draws for
    a session's row, the clock. *)
Record Input := { fails : bool; fresh : string; row_id : string; now : Z }.
Definition advance (key : string) (l : login) (x : Input) (t : Tables) : login * Tables :=
  match l with
  | Upserting identity =>
      if String.eqb identity.(UserID) "" then (Failed ErrKeyInvalid, t)
      else if x.(fails) then (Failed ErrStore, t)
      else match UpsertByAiandUser ("acct_" +:+ x.(fresh)) identity.(UserID) identity.(OrganizationID) None t with
           | Some (a, t) => (Listing a, t)
           | None => (Failed ErrStore, t)
           end
  | Listing a =>
      if x.(fails) then (Failed ErrStore, t)
      else match findAccountInstallation a.(acct_ID) t with Some i => (Replacing a i, t) | None => (Creating a, t) end
  | Creating a =>
      if x.(fails) then (Relisting a, t)
      else match CreateInstallation x.(fresh) a.(acct_ID) (installation_name a) t with Some (i, t) => (Replacing a i, t) | None => (Relisting a, t) end
  | Relisting a =>
      if x.(fails) then (Failed ErrStore, t)
      else match findAccountInstallation a.(acct_ID) t with Some i => (Replacing a i, t) | None => (Failed ErrStore, t) end
  | Replacing a i =>
      if (String.eqb i.(ai_ID) "" || String.eqb key "")%bool then (Issuing a i, t)
      else if x.(fails) then (Failed ErrStore, t)
      else (Storing a i, SoftDeleteByProvider i.(ai_ID) t)
  | Storing a i =>
      if x.(fails) then (Failed ErrStore, t)
      else match CreateExternalAPIKey i.(ai_ID) key t with Some t => (Issuing a i, t) | None => (Failed ErrStore, t) end
  | Issuing a i =>
      if x.(fails) then (Failed ErrStore, t)
      else if String.eqb i.(ai_ID) "" then (Failed ErrLoginSessionInvalid, t)
      else
        let '(hash, prefix, suffix) := APITokenFingerprint x.(fresh) in
        let expiresAt := x.(now) + DefaultLoginSessionTTL in
        match InsertSession {| sess_ID := x.(row_id); AccountID := a.(acct_ID); sess_InstallationID := i.(ai_ID); TokenHash := hash; TokenPrefix := prefix; TokenSuffix := suffix;
                               ExpiresAt := expiresAt; Revoked := false |} t with
        | Some t => (Done a i x.(fresh) expiresAt, t)
        | None => (Failed ErrStore, t)
        end
  | Done _ _ _ _ | Failed _ => (l, t)
  end.
(** [LoginWithKey] alone: at most seven statements. *)
Definition LoginWithKey (key : string) (resp : option ProbeResponse) (inputs : list Input) (t : Tables) : res LoginError (Account * AcctInstallation * string * Z) * Tables :=
  match Validate resp with
  | Err e => (Err e, t)
  | Ok identity =>
      match fold_left (fun lt x => advance key lt.1 x lt.2) (take 7 inputs) (Upserting identity, t) with
      | (Done a i token expiresAt, t) => (Ok (a, i, token, expiresAt), t)
      | (Failed e, t) => (Err e, t)
      | (_, t) => (Err ErrStore, t)
      end
  end.
Definition EnsureAccountInstallation (a : Account) (inputs : list Input) (t : Tables) : option AcctInstallation * Tables :=
  match fold_left (fun lt x => match lt.1 with Replacing _ _ => lt | l => advance "" l x lt.2 end) (take 3 inputs) (Listing a, t) with
  | (Replacing _ i, t) => (Some i, t)
  | (_, t) => (None, t)
  end.

(** ** Sessions *)

Definition VerifyLoginSessionDetails (now : Z) (token : string) (t : Tables) : res LoginError (Account * LoginSession) :=
  match GetActiveByTokenHash now (HashAPIKeySHA256 token) t with
  | None => Err ErrLoginSessionInvalid
  | Some s =>
      if String.eqb s.(AccountID) "" then Err ErrLoginSessionInvalid
      else match GetByID s.(AccountID) t with Some a => Ok (a, s) | None => Err ErrLoginSessionInvalid end
  end.
(** The installation cached in the session, or the account's. *)
Definition InstallationForAccountSession (a : Account) (s : LoginSession) (inputs : list Input) (t : Tables) : option AcctInstallation * Tables :=
  match (if String.eqb s.(sess_InstallationID) "" then None else GetInstallation a.(acct_ID) s.(sess_InstallationID) t) with
  | Some i => (Some i, t)
  | None => EnsureAccountInstallation a inputs t
  end.
(** A request of the dashboard: the cookie's account with its installation, or the status refused with. *)
Definition WithAccountCookie (now : Z) (cookie : option string) (inputs : list Input) (t : Tables) : Z + (Account * AcctInstallation) :=
  match cookie with
  | None | Some "" => inl 401
  | Some token =>
      match VerifyLoginSessionDetails now (TrimSpace token) t with
      | Err _ => inl 401
      | Ok (a, s) => match (InstallationForAccountSession a s inputs t).1 with Some i => inr (a, i) | None => inl 503 end
      end
  end.

(** ** The handlers *)

Section Handlers.
Context `{LRU Z} (lru_Remove : string -> Cache Z -> Cache Z).
Definition loginMaxFailures : Z := 5.
Definition LoginRateLimited (clock : Z) (ip : string) (c : Cache Z) : bool * Cache Z :=
  let '(count, c) := lru_Get clock ip c in (match count with Some n => loginMaxFailures <=? n | None => false end, c).
Definition NoteLoginFailure (clock : Z) (ip : string) (c : Cache Z) : Cache Z :=
  if String.eqb ip "" then c else let '(count, c) := lru_Get clock ip c in lru_Add clock ip (default 0 count + 1) c.
Definition ClearLoginFailures (ip : string) (c : Cache Z) : Cache Z := if String.eqb ip "" then c else lru_Remove ip c.
(** The status of a refusal. *)
Definition login_status (e : LoginError) : Z :=
  match e with
  | ErrKeyInvalid => 401 | ErrKeyInsufficientCredits => 402 | ErrLoginRateLimited => 429 | ErrKeyUnavailable => 503 | _ => 500
  end.
(** The status, the cookie that is set, the failures and the tables after; the probe is made only for a request that gets that far. *)
Definition LoginHandler (clock : Z) (peerIP key : string) (probe : string -> option ProbeResponse) (inputs : list Input) (c : Cache Z) (t : Tables) :
    Z * option (string * Z) * Cache Z * Tables :=
  if String.eqb key "" then (400, None, c, t)
  else
    let '(limited, c) := LoginRateLimited clock peerIP c in
    if limited : bool then (429, None, c, t)
    else match LoginWithKey key (probe key) inputs t with
         | (Ok (_, _, token, expiresAt), t) => (200, Some (token, expiresAt), ClearLoginFailures peerIP c, t)
         | (Err e, t) => (login_status e, None, match e with ErrKeyInvalid => NoteLoginFailure clock peerIP c | _ => c end, t)
         end.
(** Only the cookie is cleared. *)
Definition LogoutHandler (t : Tables) : Z * option (string * Z) * Tables := (200, None, t).
End Handlers.

(** ** Interleavings *)

Record System := { tables : Tables; logins : list (string * login) }.
Inductive event :=
| EBegin (identity : AiandIdentity) (key : string)
| EStep (n : nat) (x : Input)
| ERevoke (accountID sessionID : string)
| ERevokeAll (accountID : string).
Definition fire (s : System) (e : event) : System :=
  match e with
  | EBegin identity key => {| tables := s.(tables); logins := (s.(logins) ++ [(key, Upserting identity)])%list |}
  | EStep n x =>
      match s.(logins) !! n with
      | Some (key, l) => let '(l, t) := advance key l x s.(tables) in {| tables := t; logins := <[n := (key, l)]> s.(logins) |}
      | None => s
      end
  | ERevoke accountID sessionID => {| tables := RevokeByID accountID sessionID s.(tables); logins := s.(logins) |}
  | ERevokeAll accountID => {| tables := RevokeAllForAccount accountID s.(tables); logins := s.(logins) |}
  end.
