(* ===== verification/AccountFacts.v ===== *)
(** What self-service login guarantees: however logins interleave, a user has one account with one installation, and a session lasts until it expires or is revoked. *)

From stdpp Require Import base gmap list strings.
From Stdlib Require Import ZArith Lia Ascii.
From S2P Require Import Prelude Strings Floats Hash Lru KeyCache Auth Account.
Open Scope string_scope.
Open Scope Z_scope.

(** ** Tables *)

Definition same_account (a a' : Account) : Prop :=
  a'.(acct_ID) = a.(acct_ID) /\ a'.(AiandUserID) = a.(AiandUserID) /\ a'.(DisplayName) = a.(DisplayName) /\ a'.(acct_Deleted) = a.(acct_Deleted).
Record wf (t : Tables) : Prop := {
  wf_ids a b : a ∈ t.(accounts) -> b ∈ t.(accounts) -> a.(acct_ID) = b.(acct_ID) -> a = b;
  wf_id a : a ∈ t.(accounts) -> a.(acct_ID) <> "";
  wf_user a b : a ∈ t.(accounts) -> b ∈ t.(accounts) -> a.(acct_Deleted) = false -> b.(acct_Deleted) = false -> a.(AiandUserID) = b.(AiandUserID) -> a = b;
  wf_name a i : a ∈ t.(accounts) -> i ∈ t.(acct_installations) -> i.(ai_Deleted) = false -> i.(ai_ExternalID) = a.(acct_ID) -> i.(ai_Name) = installation_name a;
  wf_one i j : i ∈ t.(acct_installations) -> j ∈ t.(acct_installations) -> i.(ai_Deleted) = false -> j.(ai_Deleted) = false ->
    i.(ai_ExternalID) = j.(ai_ExternalID) -> i.(ai_Name) = j.(ai_Name) -> i = j;
  wf_key n m k k' : t.(login_keys) !! n = Some k -> t.(login_keys) !! m = Some k' -> k.(lk_Deleted) = false -> k'.(lk_Deleted) = false ->
    k.(lk_Installation) = k'.(lk_Installation) -> n = m;
  wf_hash s s' : s ∈ t.(sessions) -> s' ∈ t.(sessions) -> s.(TokenHash) = s'.(TokenHash) -> s = s'
}.
(** The row of a session later on: it may have been revoked. *)
Definition same_session (s s' : LoginSession) : Prop := s' = s \/ s' = revoked s.
Section Revocable.
(** Which sessions may be revoked, by account and identifier. *)
Context (may : string -> string -> Prop).
Definition later_session (s s' : LoginSession) : Prop :=
  same_session s s' /\ (s'.(Revoked) = true -> s.(Revoked) = true \/ may s.(AccountID) s.(sess_ID)).
(** Nothing is lost from one state to a later one, and only what may be revoked is. *)
Definition extends (t t' : Tables) : Prop :=
  (forall a, a ∈ t.(accounts) -> exists a', a' ∈ t'.(accounts) /\ same_account a a') /\
  (forall i, i ∈ t.(acct_installations) -> i ∈ t'.(acct_installations)) /\
  (forall s, s ∈ t.(sessions) -> exists s', s' ∈ t'.(sessions) /\ later_session s s').
Lemma later_refl s : later_session s s.
Proof. split; [by left|by left]. Qed.
Lemma later_trans a b c : later_session a b -> later_session b c -> later_session a c.
Proof.
  intros [Sab Rab] [Sbc Rbc]. split.
  - destruct Sab as [->| ->], Sbc as [->| ->]; unfold same_session; auto.
  - intros Hc. destruct (Rbc Hc) as [Hb|Hm]; [by apply Rab|]. right. by destruct Sab as [->| ->].
Qed.
Lemma kept_sessions t t' : (forall s, s ∈ t.(sessions) -> s ∈ t'.(sessions)) -> forall s, s ∈ t.(sessions) -> exists s', s' ∈ t'.(sessions) /\ later_session s s'.
Proof. intros K s Hs. exists s. split; [by apply K|apply later_refl]. Qed.
Lemma same_account_refl a : same_account a a.
Proof. done. Qed.
Lemma same_trans_account a b c : same_account a b -> same_account b c -> same_account a c.
Proof. unfold same_account. intros (-> & -> & -> & ->) (-> & -> & -> & ->). done. Qed.
Lemma extends_refl t : extends t t.
Proof. split; [intros a Ha; exists a; done|]. split; [done|by apply kept_sessions]. Qed.
Lemma extends_trans t1 t2 t3 : extends t1 t2 -> extends t2 t3 -> extends t1 t3.
Proof.
  intros (A1 & I1 & S1) (A2 & I2 & S2). split; [|split; [auto|]].
  - intros a Ha. destruct (A1 a Ha) as (b & Hb & Sb). destruct (A2 b Hb) as (c & Hc & Sc). exists c. split; [done|]. by apply (same_trans_account a b).
  - intros s Hs. destruct (S1 s Hs) as (r & Hr & Lr). destruct (S2 r Hr) as (q & Hq & Lq). exists q. split; [done|]. by apply (later_trans s r).
Qed.
Lemma same_installation_name a a' : same_account a a' -> installation_name a' = installation_name a.
Proof. intros (_ & Hu & Hd & _). unfold installation_name. by rewrite Hu, Hd. Qed.
Lemma active_user_spec user a : active_user user a = true <-> a.(AiandUserID) = user /\ a.(acct_Deleted) = false.
Proof. unfold active_user. rewrite andb_true_iff, String.eqb_eq, negb_true_iff. done. Qed.
Lemma refreshed_same org a : same_account a (refreshed org None a).
Proof. done. Qed.

(** *** The statements keep them *)

(** The accounts refreshed where the user's, none else touched. *)
Lemma upsert_effect id user org t a t' : wf t -> id <> "" -> (forall i, i ∈ t.(acct_installations) -> i.(ai_ExternalID) <> id) ->
  UpsertByAiandUser id user org None t = Some (a, t') ->
  wf t' /\ extends t t' /\ a ∈ t'.(accounts) /\ a.(acct_Deleted) = false /\ a.(AiandUserID) = user.
Proof.
  intros W Hid Hfresh. unfold UpsertByAiandUser. destruct (List.find (active_user user) (accounts t)) as [b|] eqn:F.
  - apply find_some in F as [Hin Hb]. apply list_elem_of_In in Hin. apply active_user_spec in Hb as [Hu Hd]. intros [= <- <-].
    set (g := fun b => if active_user user b then refreshed org None b else b).
    assert (G : forall c, same_account c (g c)) by (intros c; unfold g; by destruct (active_user user c)).
    assert (In : forall c, c ∈ map g (accounts t) <-> exists c0, c = g c0 /\ c0 ∈ accounts t).
    { intros c. rewrite list_elem_of_In, in_map_iff. setoid_rewrite list_elem_of_In. split; intros (c0 & ? & ?); exists c0; split; auto. }
    split; [split; cbn [accounts acct_installations login_keys sessions with_accounts]|].
    + intros c d. rewrite !In. intros (c0 & -> & Hc) (d0 & -> & Hdd). destruct (G c0) as (-> & _), (G d0) as (-> & _). intros E. by rewrite (wf_ids t W c0 d0 Hc Hdd E).
    + intros c. rewrite In. intros (c0 & -> & Hc). destruct (G c0) as (-> & _). by apply (wf_id t W).
    + intros c d. rewrite !In. intros (c0 & -> & Hc) (d0 & -> & Hdd). destruct (G c0) as (_ & -> & _ & ->), (G d0) as (_ & -> & _ & ->). intros D1 D2 E.
      by rewrite (wf_user t W c0 d0 Hc Hdd D1 D2 E).
    + intros c i. rewrite In. intros (c0 & -> & Hc) Hi Di. destruct (G c0) as (-> & _). rewrite (same_installation_name c0 (g c0) (G c0)). by apply (wf_name t W).
    + apply (wf_one t W).
    + apply (wf_key t W).
    + apply (wf_hash t W).
    + split; [|split; [|done]].
      * split; [|split; [done|by apply kept_sessions]]. intros c Hc. exists (g c). split; [|apply G]. cbn [accounts with_accounts]. apply In. eauto.
      * cbn [accounts with_accounts]. apply In. exists b. split; [|done]. unfold g. by rewrite (proj2 (active_user_spec user b) (conj Hu Hd)).
  - destruct (existsb _ (accounts t)) eqn:Ex; [done|]. intros [= <- <-]. set (a := {| acct_ID := id |}).
    assert (No : forall b, b ∈ accounts t -> acct_ID b <> id).
    { intros b Hb E. assert (X : existsb (fun a => String.eqb (acct_ID a) id) (accounts t) = true); [|congruence].
      apply existsb_exists. exists b. split; [by apply list_elem_of_In|]. by apply String.eqb_eq. }
    assert (Nu : forall b, b ∈ accounts t -> acct_Deleted b = false -> AiandUserID b <> user).
    { intros b Hb Hd E. pose proof (find_none _ _ F b (proj1 (list_elem_of_In _ _) Hb)) as Hf. by rewrite (proj2 (active_user_spec user b)) in Hf. }
    split; [split; cbn [accounts acct_installations login_keys sessions with_accounts]|].
    + intros c d Hc Hd. apply elem_of_app in Hc as [Hc|Hc%list_elem_of_singleton], Hd as [Hd|Hd%list_elem_of_singleton]; subst; cbn; try done.
      * by apply (wf_ids t W).
      * intros E. by destruct (No c Hc).
      * intros E. by destruct (No d Hd).
    + intros c Hc. apply elem_of_app in Hc as [Hc|Hc%list_elem_of_singleton]; subst; [by apply (wf_id t W)|done].
    + intros c d Hc Hd. apply elem_of_app in Hc as [Hc|Hc%list_elem_of_singleton], Hd as [Hd|Hd%list_elem_of_singleton]; subst; cbn; try done.
      * by apply (wf_user t W).
      * intros D _ E. by destruct (Nu c Hc D).
      * intros _ D E. by destruct (Nu d Hd D).
    + intros c i Hc Hi Di. apply elem_of_app in Hc as [Hc|Hc%list_elem_of_singleton]; subst; [by apply (wf_name t W)|]. cbn. intros E. by destruct (Hfresh i Hi).
    + apply (wf_one t W).
    + apply (wf_key t W).
    + apply (wf_hash t W).
    + split; [|split; [|done]]; [|set_solver]. split; [|split; [done|by apply kept_sessions]]. intros c Hc. exists c. split; [set_solver|done].
Qed.
Lemma create_effect id a a' t i t' : wf t -> a' ∈ t.(accounts) -> same_account a a' -> CreateInstallation id a.(acct_ID) (installation_name a) t = Some (i, t') ->
  wf t' /\ extends t t' /\ i ∈ t'.(acct_installations) /\ i.(ai_Deleted) = false /\ i.(ai_ExternalID) = a.(acct_ID).
Proof.
  intros W Ha Hs. unfold CreateInstallation. destruct (_ || _)%bool eqn:Ex; [done|]. apply orb_false_elim in Ex as [Ex _]. intros [= <- <-]. set (i := {| ai_ID := id |}).
  assert (No : forall j, j ∈ acct_installations t -> ai_Deleted j = false -> ai_ExternalID j = acct_ID a -> ai_Name j <> installation_name a).
  { intros j Hj Dj Ej Nj. assert (X : existsb (same_name (acct_ID a) (installation_name a)) (acct_installations t) = true); [|congruence].
    apply existsb_exists. exists j. split; [by apply list_elem_of_In|]. unfold same_name. by rewrite Ej, Nj, Dj, !String.eqb_refl. }
  split; [split; cbn [accounts acct_installations login_keys sessions with_acct_installations]|].
  - apply (wf_ids t W).
  - apply (wf_id t W).
  - apply (wf_user t W).
  - intros c j Hc Hj Dj. apply elem_of_app in Hj as [Hj|Hj%list_elem_of_singleton]; subst; [by apply (wf_name t W)|]. cbn. intros E.
    destruct Hs as (Hid & Hu & Hd & Hdel). rewrite <- Hid in E. rewrite <- (wf_ids t W a' c Ha Hc E). symmetry. by apply same_installation_name.
  - intros j k Hj Hk. apply elem_of_app in Hj as [Hj|Hj%list_elem_of_singleton], Hk as [Hk|Hk%list_elem_of_singleton]; subst; cbn; try done.
    + by apply (wf_one t W).
    + intros Dj _ E N. by destruct (No j Hj Dj E).
    + intros _ Dk E N. by destruct (No k Hk Dk (eq_sym E)).
  - apply (wf_key t W).
  - apply (wf_hash t W).
  - split; [|split; [set_solver|done]]. split; [intros c Hc; exists c; done|]. split; [set_solver|by apply kept_sessions].
Qed.
(** Only the provider keys change. *)
Definition keys_only (t t' : Tables) : Prop := t'.(accounts) = t.(accounts) /\ t'.(acct_installations) = t.(acct_installations) /\ t'.(sessions) = t.(sessions).
Lemma keys_only_wf t t' : keys_only t t' -> wf t -> (forall n m k k', t'.(login_keys) !! n = Some k -> t'.(login_keys) !! m = Some k' -> k.(lk_Deleted) = false ->
  k'.(lk_Deleted) = false -> k.(lk_Installation) = k'.(lk_Installation) -> n = m) -> wf t' /\ extends t t'.
Proof.
  intros (Ea & Ei & Es) W K. split; [split; rewrite ?Ea, ?Ei, ?Es; try apply W; exact K|]. split; [|split; [by rewrite Ei|apply kept_sessions; by rewrite Es]].
  rewrite Ea. intros a Ha. by exists a.
Qed.
Lemma replace_effect i t : wf t -> wf (SoftDeleteByProvider i t) /\ extends t (SoftDeleteByProvider i t).
Proof.
  intros W. apply keys_only_wf; [done|done|]. cbn [SoftDeleteByProvider login_keys with_login_keys]. intros n m k k' Hk Hk' Dk Dk' E.
  apply list_lookup_fmap_Some_1 in Hk as (k0 & -> & Hk), Hk' as (k1 & -> & Hk').  revert Dk Dk' E.
  destruct (live_key i k0); [done|]. destruct (live_key i k1); [done|]. intros. by apply (wf_key t W n m k0 k1).
Qed.
Lemma store_effect i key t t' : wf t -> CreateExternalAPIKey i key t = Some t' -> wf t' /\ extends t t'.
Proof.
  intros W. unfold CreateExternalAPIKey. destruct (_ || _)%bool eqn:Ex; [done|]. apply orb_false_elim in Ex as [Ex _]. intros [= <-].
  assert (No : forall n k, login_keys t !! n = Some k -> lk_Deleted k = false -> lk_Installation k <> i).
  { intros n k Hk Dk E. assert (X : existsb (live_key i) (login_keys t) = true); [|congruence].
    apply existsb_exists. exists k. split; [apply list_elem_of_In; by eapply list_elem_of_lookup_2|]. unfold live_key. by rewrite E, Dk, String.eqb_refl. }
  apply keys_only_wf; [done|done|]. cbn [login_keys with_login_keys]. intros n m k k' Hk Hk' Dk Dk' E.
  apply lookup_app_Some in Hk as [Hk|[Ln Hk]], Hk' as [Hk'|[Lm Hk']].
  - by apply (wf_key t W n m k k').
  - apply list_lookup_singleton_Some in Hk' as [_ <-]. by destruct (No n k Hk Dk E).
  - apply list_lookup_singleton_Some in Hk as [_ <-]. by destruct (No m k' Hk' Dk' (eq_sym E)).
  - apply list_lookup_singleton_Some in Hk as [? _], Hk' as [? _]. lia.
Qed.
Lemma insert_session_effect s t t' : wf t -> InsertSession s t = Some t' -> wf t' /\ extends t t' /\ s ∈ t'.(sessions).
Proof.
  intros W. unfold InsertSession. destruct (_ || _)%bool eqn:Ex; [done|]. apply orb_false_elim in Ex as [Ex _]. intros [= <-].
  assert (No : forall s', s' ∈ sessions t -> TokenHash s' <> TokenHash s).
  { intros s' Hs' E. assert (X : existsb (fun s' => String.eqb (TokenHash s') (TokenHash s)) (sessions t) = true); [|congruence].
    apply existsb_exists. exists s'. split; [by apply list_elem_of_In|]. by apply String.eqb_eq. }
  split; [split; cbn [accounts acct_installations login_keys sessions with_sessions]; try apply W|].
  - intros c d Hc Hd. apply elem_of_app in Hc as [Hc|Hc%list_elem_of_singleton], Hd as [Hd|Hd%list_elem_of_singleton]; subst; try done.
    + by apply (wf_hash t W).
    + intros E. by destruct (No c Hc).
    + intros E. by destruct (No d Hd).
  - split; [|set_solver]. split; [intros c Hc; exists c; done|]. split; [done|]. apply kept_sessions. set_solver.
Qed.
(** Revocation: rows of a session are replaced by later ones. *)
Lemma revoke_effect (p : LoginSession -> bool) t : wf t -> (forall s, p s = true -> may s.(AccountID) s.(sess_ID)) ->
  wf (with_sessions ((fun s => if p s then revoked s else s) <$> t.(sessions)) t) /\ extends t (with_sessions ((fun s => if p s then revoked s else s) <$> t.(sessions)) t).
Proof.
  intros W Hp. split.
  - split; cbn [accounts acct_installations login_keys sessions with_sessions]; try apply W. intros s s' Hs Hs'.
    apply list_elem_of_fmap in Hs as (r & -> & Hr), Hs' as (r' & -> & Hr'). intros E.
    assert (r = r') as ->; [|done]. apply (wf_hash t W); [done..|]. by destruct (p r), (p r').
  - split; [intros a Ha; by exists a|]. split; [done|]. intros s Hs. cbn [sessions with_sessions].
    exists (if p s then revoked s else s). split; [apply list_elem_of_fmap; by exists s|]. specialize (Hp s). destruct (p s); [|apply later_refl].
    split; [by right|]. intros _. right. by apply Hp.
Qed.
Lemma found_installation id t i : findAccountInstallation id t = Some i -> i ∈ t.(acct_installations) /\ i.(ai_Deleted) = false /\ i.(ai_ExternalID) = id.
Proof.
  unfold findAccountInstallation, ListForExternalID. intros Hh. apply head_Some_elem_of in Hh. apply list_elem_of_In, in_rev, filter_In in Hh as [Hin Hb].
  apply andb_prop in Hb as [He Hd]. apply String.eqb_eq in He. apply negb_true_iff in Hd. by apply list_elem_of_In in Hin.
Qed.

(** ** Logins in progress *)

Definition known (t : Tables) (a : Account) : Prop := exists a', a' ∈ t.(accounts) /\ same_account a a' /\ a.(acct_Deleted) = false.
Definition owned (t : Tables) (a : Account) (i : AcctInstallation) : Prop :=
  i ∈ t.(acct_installations) /\ i.(ai_Deleted) = false /\ i.(ai_ExternalID) = a.(acct_ID).
Definition login_ok (t : Tables) (l : login) : Prop :=
  match l with
  | Upserting _ | Failed _ => True
  | Listing a | Creating a | Relisting a => known t a
  | Replacing a i | Storing a i | Issuing a i => known t a /\ owned t a i
  | Done a i token expiresAt => known t a /\ owned t a i /\ exists s, s ∈ t.(sessions) /\ s.(AccountID) = a.(acct_ID) /\ s.(sess_InstallationID) = i.(ai_ID) /\
      s.(TokenHash) = HashAPIKeySHA256 token /\ s.(ExpiresAt) = expiresAt /\ (s.(Revoked) = true -> may s.(AccountID) s.(sess_ID))
  end.
Lemma known_extends t t' a : extends t t' -> known t a -> known t' a.
Proof. intros (A & _) (b & Hb & Sb & Hd). destruct (A b Hb) as (c & Hc & Sc). exists c. split; [done|]. split; [|done]. by apply (same_trans_account a b). Qed.
Lemma owned_extends t t' a i : extends t t' -> owned t a i -> owned t' a i.
Proof. intros (_ & I & _) (Hi & Hd & He). split; [by apply I|done]. Qed.
Lemma login_ok_extends t t' l : extends t t' -> login_ok t l -> login_ok t' l.
Proof.
  intros E. destruct l; cbn; try done; try (by apply known_extends);
    try (intros [K O]; split; [by apply (known_extends t)|by apply (owned_extends t)]).
  - intros (K & O & s & Hs & Ea & Ei & Eh & Ee & Er). split; [by apply (known_extends t)|]. split; [by apply (owned_extends t)|].
    destruct E as (_ & _ & Es). destruct (Es s Hs) as (s' & Hs' & Sm & Rv). exists s'. split; [done|].
    destruct Sm as [->| ->]; cbn in *; repeat (split; [done|]); intros H; destruct (Rv H); auto.
Qed.
(** The identifier drawn for a new account is not the external identifier of an installation already. *)
Definition drawn (l : login) (x : Input) (t : Tables) : Prop :=
  match l with Upserting _ => forall i, i ∈ t.(acct_installations) -> i.(ai_ExternalID) <> "acct_" +:+ x.(fresh) | _ => True end.
Lemma advance_ok key l x t l' t' : wf t -> login_ok t l -> drawn l x t -> advance key l x t = (l', t') -> wf t' /\ extends t t' /\ login_ok t' l'.
Proof.
  intros W O D. destruct l as [identity|a|a|a|a i|a i|a i|a i token e|e]; cbn [advance login_ok drawn] in *.
  - destruct (String.eqb (UserID identity) ""); [intros [= <- <-]; split; [done|]; split; [apply extends_refl|done]|].
    destruct (fails x); [intros [= <- <-]; split; [done|]; split; [apply extends_refl|done]|].
    destruct (UpsertByAiandUser _ _ _ None t) as [[a t1]|] eqn:E; intros [= <- <-]; [|split; [done|]; split; [apply extends_refl|done]].
    assert (Hid : "acct_" +:+ fresh x <> "") by done. destruct (upsert_effect _ _ _ _ _ _ W Hid D E) as (W' & X & Ha & Hd & _). split; [done|]. split; [done|]. exists a. done.
  - destruct (fails x); [intros [= <- <-]; split; [done|]; split; [apply extends_refl|done]|].
    destruct (findAccountInstallation _ t) as [i|] eqn:E; intros [= <- <-]; (split; [done|]; split; [apply extends_refl|]); [|done]. split; [done|]. by apply found_installation.
  - destruct (fails x); [intros [= <- <-]; split; [done|]; split; [apply extends_refl|done]|].
    destruct (CreateInstallation _ _ _ t) as [[i t1]|] eqn:E; intros [= <- <-]; [|split; [done|]; split; [apply extends_refl|done]].
    destruct O as (a' & Ha' & Sa & Hd). destruct (create_effect _ _ _ _ _ _ W Ha' Sa E) as (W' & X & Hi). split; [done|]. split; [done|]. split; [|done].
    apply (known_extends t); [done|]. by exists a'.
  - destruct (fails x); [intros [= <- <-]; split; [done|]; split; [apply extends_refl|done]|].
    destruct (findAccountInstallation _ t) as [i|] eqn:E; intros [= <- <-]; (split; [done|]; split; [apply extends_refl|]); [|done]. split; [done|]. by apply found_installation.
  - destruct (_ || _)%bool; [intros [= <- <-]; split; [done|]; split; [apply extends_refl|done]|].
    destruct (fails x); [intros [= <- <-]; split; [done|]; split; [apply extends_refl|done]|].
    intros [= <- <-]. destruct (replace_effect (ai_ID i) t W) as [W' X]. split; [done|]. split; [done|]. by apply (login_ok_extends t _ (Issuing a i)).
  - destruct (fails x); [intros [= <- <-]; split; [done|]; split; [apply extends_refl|done]|].
    destruct (CreateExternalAPIKey _ _ t) as [t1|] eqn:E; intros [= <- <-]; [|split; [done|]; split; [apply extends_refl|done]].
    destruct (store_effect _ _ _ _ W E) as [W' X]. split; [done|]. split; [done|]. by apply (login_ok_extends t _ (Issuing a i)).
  - destruct (fails x); [intros [= <- <-]; split; [done|]; split; [apply extends_refl|done]|].
    destruct (String.eqb (ai_ID i) ""); [intros [= <- <-]; split; [done|]; split; [apply extends_refl|done]|].
    destruct (APITokenFingerprint (fresh x)) as [[hash prefix] suffix] eqn:Ef.
    assert (Eh : hash = HashAPIKeySHA256 (fresh x)) by (unfold APITokenFingerprint in Ef; destruct (Nat.leb _ _); by injection Ef).
    destruct (InsertSession _ t) as [t1|] eqn:E; intros [= <- <-]; [|split; [done|]; split; [apply extends_refl|done]].
    destruct (insert_session_effect _ _ _ W E) as (W' & X & Hs). destruct O as [K Ow]. split; [done|]. split; [done|].
    split; [by apply (known_extends t)|]. split; [by apply (owned_extends t)|]. eexists. split; [exact Hs|]. cbn. by rewrite Eh.
  - intros [= <- <-]. split; [done|]. split; [apply extends_refl|done].
  - intros [= <- <-]. split; [done|]. split; [apply extends_refl|done].
Qed.
(** The sessions an event revokes may be. *)
Definition event_allowed (e : event) : Prop :=
  match e with ERevoke a i => may a i | ERevokeAll a => forall i, may a i | _ => True end.
(** The clean histories: each new account's identifier is one no installation has. *)
Definition event_drawn (s : System) (e : event) : Prop :=
  match e with EStep n x => forall key l, s.(logins) !! n = Some (key, l) -> drawn l x s.(tables) | _ => True end.
Fixpoint all_drawn (s : System) (evs : list event) : Prop := match evs with [] => True | e :: evs => event_drawn s e /\ all_drawn (fire s e) evs end.
Record sound (t0 : Tables) (s : System) : Prop := {
  sound_wf : wf s.(tables);
  sound_extends : extends t0 s.(tables);
  sound_logins key l : (key, l) ∈ s.(logins) -> login_ok s.(tables) l
}.
Lemma revoked_sound t0 s t' : sound t0 s -> wf t' -> extends s.(tables) t' -> sound t0 {| tables := t'; logins := s.(logins) |}.
Proof.
  intros [W X L] W' X'. split; cbn [tables logins]; [done|by apply (extends_trans t0 (tables s))|].
  intros key l Hl. apply (login_ok_extends (tables s)); [done|]. by apply (L key).
Qed.
Lemma fire_sound t0 s e : event_drawn s e -> event_allowed e -> sound t0 s -> sound t0 (fire s e).
Proof.
  intros D Al [W X L]. destruct e as [identity key|n x|acc sid|acc]; cbn [fire].
  - split; [done|done|]. cbn. intros key' l Hl. apply elem_of_app in Hl as [Hl|Hl%list_elem_of_singleton]; [by apply (L key')|by injection Hl as -> ->].
  - destruct (logins s !! n) as [[key l]|] eqn:En; [|by split]. destruct (advance key l x (tables s)) as [l' t'] eqn:Ea.
    assert (Hl : (key, l) ∈ logins s) by (by eapply list_elem_of_lookup_2). destruct (advance_ok key l x _ l' t' W (L key l Hl) (D key l En) Ea) as (W' & X' & O').
    split; cbn [tables logins]; [done|by apply (extends_trans t0 (tables s))|]. intros key' k Hk. apply list_elem_of_lookup in Hk as [m Hm].
    destruct (decide (n = m)) as [<-|Hne].
    + rewrite list_lookup_insert_eq in Hm by (by eapply lookup_lt_Some). by injection Hm as <- <-.
    + rewrite list_lookup_insert_ne in Hm by done. apply (login_ok_extends (tables s)); [done|]. apply (L key'). by eapply list_elem_of_lookup_2.
  - destruct (revoke_effect (fun r => String.eqb r.(AccountID) acc && String.eqb r.(sess_ID) sid && negb r.(Revoked))%bool (tables s) W) as [W' X'].
    { intros r Hr. apply andb_prop in Hr as [Hr _]. apply andb_prop in Hr as [Ha Hi]. apply String.eqb_eq in Ha as ->, Hi as ->. exact Al. }
    by apply (revoked_sound t0 s).
  - destruct (revoke_effect (fun r => String.eqb r.(AccountID) acc && negb r.(Revoked))%bool (tables s) W) as [W' X'].
    { intros r Hr. apply andb_prop in Hr as [Ha _]. apply String.eqb_eq in Ha as ->. apply Al. }
    by apply (revoked_sound t0 s).
Qed.
Lemma run_sound t0 evs : forall s, all_drawn s evs -> Forall event_allowed evs -> sound t0 s -> sound t0 (fold_left fire evs s).
Proof.
  induction evs as [|e evs IH]; intros s; [done|]. intros [D R] Al S. apply Forall_cons in Al as [Ae Al]. cbn. apply IH; [done|done|]. by apply fire_sound.
Qed.
End Revocable.

Lemma one_installation t a i j : wf t -> known t a -> owned t a i -> owned t a j -> i = j.
Proof.
  intros W (b & Hb & (Hid & _) & _) (Hi & Di & Ei) (Hj & Dj & Ej). apply (wf_one t W); try done; [congruence|].
  rewrite (wf_name t W b i Hb Hi Di), (wf_name t W b j Hb Hj Dj); congruence.
Qed.
Lemma one_account t a b : wf t -> known t a -> known t b -> a.(AiandUserID) = b.(AiandUserID) -> a.(acct_ID) = b.(acct_ID).
Proof.
  intros W (a' & Ha & (Ia & Ua & _ & Da) & Hda) (b' & Hb & (Ib & Ub & _ & Db) & Hdb) E.
  assert (a' = b') as Eq by (apply (wf_user t W); congruence). congruence.
Qed.
Lemma session_found t s now : wf t -> s ∈ t.(sessions) ->
  GetActiveByTokenHash now s.(TokenHash) t = if (negb s.(Revoked) && (now <? s.(ExpiresAt)))%bool then Some s else None.
Proof.
  intros W Hs. unfold GetActiveByTokenHash. destruct (List.find _ (sessions t)) as [s'|] eqn:F.
  - apply find_some in F as [Hin Hb]. apply list_elem_of_In in Hin. apply andb_prop in Hb as [Hb Hn]. apply andb_prop in Hb as [Hb Hr]. apply String.eqb_eq in Hb.
    assert (s' = s) as -> by (by apply (wf_hash t W)). by rewrite Hn, Hr.
  - pose proof (find_none _ _ F s (proj1 (list_elem_of_In _ _) Hs)) as Hf. cbn in Hf. rewrite String.eqb_refl in Hf. cbn in Hf. by rewrite Hf.
Qed.
Lemma one_live_key t i : wf t -> (length (List.filter (live_key i) t.(login_keys)) <= 1)%nat.
Proof.
  intros W. assert (U : forall n m k k', login_keys t !! n = Some k -> login_keys t !! m = Some k' -> live_key i k = true -> live_key i k' = true -> n = m).
  { intros n m k k' Hk Hk' Lk Lk'. unfold live_key in *. apply andb_prop in Lk as [E1 D1], Lk' as [E2 D2].
    apply String.eqb_eq in E1, E2. apply negb_true_iff in D1, D2. apply (wf_key t W n m k k'); congruence. }
  clear W. revert U. induction (login_keys t) as [|k ks IH]; intros U; [cbn; lia|]. cbn [List.filter]. destruct (live_key i k) eqn:E.
  - destruct (List.filter (live_key i) ks) as [|k' r] eqn:F; [cbn; lia|]. assert (Hin : k' ∈ ks /\ live_key i k' = true).
    { assert (H : In k' (List.filter (live_key i) ks)) by (rewrite F; by left). apply filter_In in H as [H ?]. by apply list_elem_of_In in H. }
    destruct Hin as [Hin L]. apply list_elem_of_lookup in Hin as [m Hm]. specialize (U 0%nat (S m) k k' eq_refl Hm E L). discriminate.
  - apply IH. intros n m k1 k2 H1 H2 L1 L2. by apply Nat.succ_inj, (U (S n) (S m) k1 k2).
Qed.
Lemma account_found t a : wf t -> known t a -> exists b, GetByID a.(acct_ID) t = Some b /\ same_account a b.
Proof.
  intros W (b & Hb & (Hid & Hu & Hn & Hd) & Hda). exists b. split; [|done]. unfold GetByID. destruct (List.find _ (accounts t)) as [c|] eqn:F.
  - apply find_some in F as [Hin Hc]. apply list_elem_of_In in Hin. apply andb_prop in Hc as [Hc _]. apply String.eqb_eq in Hc. f_equal. apply (wf_ids t W); congruence.
  - pose proof (find_none _ _ F b (proj1 (list_elem_of_In _ _) Hb)) as Hf. cbn in Hf. rewrite Hid, String.eqb_refl in Hf. by rewrite Hd, Hda in Hf.
Qed.

(** The events that revoke a session. *)
Definition revokes (e : event) (accountID sessionID : string) : Prop :=
  match e with ERevoke a i => a = accountID /\ i = sessionID | ERevokeAll a => a = accountID | _ => False end.
Definition revoked_by (evs : list event) (accountID sessionID : string) : Prop := exists e, e ∈ evs /\ revokes e accountID sessionID.
Lemma allowed_by evs : Forall (event_allowed (revoked_by evs)) evs.
Proof. apply Forall_forall. intros e He. destruct e; cbn; try done; [exists (ERevoke accountID sessionID)|intros i; exists (ERevokeAll accountID)]; cbn; auto. Qed.
Lemma began_sound may t0 : wf t0 -> sound may t0 {| tables := t0; logins := [] |}.
Proof. intros W. split; [done|apply extends_refl|]. intros key l Hl. by apply elem_of_nil in Hl. Qed.
(** What the token of a completed login opens. *)
Definition session_verdict (now : Z) (t : Tables) (b : Account) (sess : LoginSession) : res LoginError (Account * LoginSession) :=
  if (negb sess.(Revoked) && (now <? sess.(ExpiresAt)))%bool then Ok (b, sess) else Err ErrLoginSessionInvalid.
Lemma completed_opens may t a i token e now : wf t -> login_ok may t (Done a i token e) ->
  exists b sess, VerifyLoginSessionDetails now token t = session_verdict now t b sess /\ same_account a b /\ sess.(sess_InstallationID) = i.(ai_ID) /\
    sess.(ExpiresAt) = e /\ sess.(AccountID) = a.(acct_ID) /\ sess ∈ t.(sessions) /\ sess.(TokenHash) = HashAPIKeySHA256 token /\
    (sess.(Revoked) = true -> may sess.(AccountID) sess.(sess_ID)).
Proof.
  intros W (K & O & sess & Hs & Ea & Ei & Eh & Ee & Er). destruct (account_found _ a W K) as (b & Hb & Sb). exists b, sess. split; [|done].
  unfold VerifyLoginSessionDetails, session_verdict. rewrite <- Eh, (session_found _ sess now W Hs). destruct (_ && _)%bool; [|done]. rewrite Ea, Hb.
  destruct (String.eqb_spec (acct_ID a) "") as [E0|]; [|done]. destruct K as (c & Hc & (Hid & _) & _). by destruct (wf_id _ W c Hc); congruence.
Qed.

Lemma login_ok_weaken (may may' : string -> string -> Prop) t l : (forall a i, may a i -> may' a i) -> login_ok may t l -> login_ok may' t l.
Proof.
  intros M. destruct l; cbn; try done. intros (K & O & s & Hs & Ea & Ei & Eh & Ee & Er). split; [done|]. split; [done|]. exists s. auto 10.
Qed.
(** All sessions of an account revoked, those there were stay so. *)
Lemma revocation_final may t0 s acct evs sess : sound may t0 s -> all_drawn s (ERevokeAll acct :: evs) -> sess ∈ s.(tables).(sessions) -> sess.(AccountID) = acct ->
  let t := (fold_left fire (ERevokeAll acct :: evs) s).(tables) in
  wf t /\ exists sess', sess' ∈ t.(sessions) /\ sess'.(TokenHash) = sess.(TokenHash) /\ sess'.(Revoked) = true.
Proof.
  intros [W _ L] D Hs Ha. cbv zeta. cbn [fold_left]. destruct D as [D1 D]. set (all := fun _ _ : string => True).
  assert (Al : forall e, event_allowed all e) by (intros []; done).
  assert (S1 : sound all (tables s) (fire s (ERevokeAll acct))).
  { apply fire_sound; [done|apply Al|]. split; [done|apply extends_refl|]. intros key l Hl. apply (login_ok_weaken may); [done|by apply (L key)]. }
  set (s1 := fire s (ERevokeAll acct)) in *.
  assert (R1 : exists r, r ∈ s1.(tables).(sessions) /\ r.(TokenHash) = sess.(TokenHash) /\ r.(Revoked) = true).
  { exists (if (String.eqb sess.(AccountID) acct && negb sess.(Revoked))%bool then revoked sess else sess).
    split; [apply list_elem_of_fmap; by exists sess|]. rewrite Ha, String.eqb_refl. cbn. by destruct (Revoked sess) eqn:E. }
  destruct R1 as (r & Hr & Eh & Er).
  assert (S2 : sound all (tables s1) (fold_left fire evs s1)).
  { apply run_sound; [done|by apply Forall_forall|]. destruct S1 as [W1 _ L1]. split; [done|apply extends_refl|done]. }
  destruct S2 as [W2 (_ & _ & X) _]. split; [done|]. destruct (X r Hr) as (r' & Hr' & Sm & _). exists r'. split; [done|].
  destruct Sm as [->| ->]; [done|]. done.
Qed.

(** ** Two concurrent first logins *)

Definition nothing : Tables := {| accounts := []; acct_installations := []; login_keys := []; sessions := [] |}.
Definition input (s : string) : Input := {| fails := false; fresh := s; row_id := "row of " +:+ s; now := 0 |}.
Definition org : AiandIdentity := {| UserID := "org"; OrganizationID := "org" |}.
(** Both look for an installation before either has created it; the second's creation is refused. *)
Definition race : list event := [EBegin org "key one"; EBegin org "key two"; EStep 0 (input "a"); EStep 1 (input "b"); EStep 0 (input ""); EStep 1 (input "");
  EStep 0 (input "i1"); EStep 1 (input "i2"); EStep 1 (input ""); EStep 0 (input ""); EStep 0 (input ""); EStep 0 (input "token one");
  EStep 1 (input ""); EStep 1 (input ""); EStep 1 (input "token two"); ERevoke "acct_a" "row of token two"].
Lemma nothing_wf : wf nothing.
Proof. split; cbn; intros ? ?; set_solver. Qed.
Ltac draws := vm_compute; repeat split; intros key l E; try (injection E as <- <-); try exact I; intros i Hi; by apply elem_of_nil in Hi.
Lemma race_drawn : all_drawn {| tables := nothing; logins := [] |} race.
Proof. draws. Qed.
Definition org_account : Account := {| acct_ID := "acct_a"; AiandUserID := "org"; AiandOrganizationID := "org"; DisplayName := None; acct_Deleted := false |}.
Definition org_installation : AcctInstallation := {| ai_ID := "i1"; ai_ExternalID := "acct_a"; ai_Name := "org"; ai_Deleted := false |}.
Lemma race_logins : (fold_left fire race {| tables := nothing; logins := [] |}).(logins) =
  [("key one", Done org_account org_installation "token one" 604800); ("key two", Done org_account org_installation "token two" 604800)].
Proof. vm_compute. reflexivity. Qed.
(** Two logins that both retire the old key before either stores its own: the second is refused although no statement failed. *)
Definition tie : list event := [EBegin org "key one"; EBegin org "key two"; EStep 0 (input "a"); EStep 0 (input ""); EStep 0 (input "i1"); EStep 1 (input "b"); EStep 1 (input "");
  EStep 0 (input ""); EStep 1 (input ""); EStep 0 (input ""); EStep 1 (input ""); EStep 0 (input "token one")].
Lemma tied_login_refused : (fold_left fire tie {| tables := nothing; logins := [] |}).(logins) =
  [("key one", Done org_account org_installation "token one" 604800); ("key two", Failed ErrStore)].
Proof. vm_compute. reflexivity. Qed.
(** A key whose storage fails has already retired the one before it: the installation is left without one. *)
Lemma failed_store_retires a key t : advance key (Storing a org_installation) {| fails := true; fresh := ""; row_id := ""; now := 0 |} (SoftDeleteByProvider "i1" t) =
    (Failed ErrStore, SoftDeleteByProvider "i1" t) /\ List.filter (live_key "i1") (SoftDeleteByProvider "i1" t).(login_keys) = [].
Proof.
  split; [done|]. cbn [SoftDeleteByProvider login_keys with_login_keys]. induction (login_keys t) as [|k ks IH]; [done|]. rewrite fmap_cons. cbn [List.filter]. rewrite IH.
  destruct (live_key "i1" k) eqn:E; [|by rewrite E]. unfold live_key. cbn. by rewrite andb_false_r.
Qed.
(** A session is opened by its token until it is revoked, or expires. *)
Lemma race_sessions : let t := (fold_left fire race {| tables := nothing; logins := [] |}).(tables) in
  (exists a i, WithAccountCookie 100 (Some "token one") [] t = inr (a, i)) /\ WithAccountCookie 100 (Some "token two") [] t = inl 401 /\
  WithAccountCookie 604800 (Some "token one") [] t = inl 401.
Proof. vm_compute. eauto 10. Qed.
(** The token of a session is accepted after the logout, which only clears the cookie. *)
Lemma logout_keeps_session : exists a i, WithAccountCookie 100 (Some "token one") []
  (LogoutHandler (fold_left fire race {| tables := nothing; logins := [] |}).(tables)).2 = inr (a, i).
Proof. vm_compute. eauto. Qed.
(** A client past its failures is refused before its key is looked at. *)
Lemma limited_refused `{LRU Z} remove clock ip key probe inputs c t : key <> "" -> (LoginRateLimited clock ip c).1 = true ->
  (LoginHandler remove clock ip key probe inputs c t).1.1 = (429, None) /\ (LoginHandler remove clock ip key probe inputs c t).2 = t.
Proof.
  intros Hk Hl. unfold LoginHandler. apply String.eqb_neq in Hk as ->. destruct (LoginRateLimited clock ip c) as [limited c'].
  cbn in Hl. by rewrite Hl.
Qed.
