(* ===== verification/Schema.v ===== *)
(** Tool schemas on their way to OpenAI-compatible upstreams (internal/translate/emit_openai.go): local definitions inlined, constraints the
    upstreams refuse moved into descriptions.  [resolveSchemaRefs] recurs on the schema and, through a reference, on definitions not visited yet;
    the fuel is one more than the number of definitions. *)

From stdpp Require Import base list strings.
From Stdlib Require Import ZArith Lia.
From S2P Require Import Prelude Strings Hash Floats Any Strict.
Open Scope string_scope.
Open Scope Z_scope.

(** ** Inlining *)

Definition ref_name (m : obj) : option string := (fun ref => default ref (CutPrefix ref "#/")) <$> as_string (get "$ref" m).
Fixpoint resolveSchemaRefs (fuel : nat) (defs : obj) (visited : list string) : any -> any :=
  match fuel with
  | O => fun node => node
  | S fuel =>
      fix go (node : any) : any :=
        match node with
        | AMap v =>
            match ref_name v with
            | Some name =>
                if is_in name visited then node
                else match get name defs with Some target => resolveSchemaRefs fuel defs (name :: visited) target | None => node end
            | None => AMap (map (fun kv => (kv.1, go kv.2)) v)
            end
        | AArray v => AArray (map go v)
        | _ => node
        end
  end.
Definition schema_defs (root : obj) : obj :=
  flat_map (fun key => map (fun kv => (key +:+ "/" +:+ kv.1, kv.2)) (default [] (as_map (get key root)))) ["$defs"; "definitions"].
(** [None] is a nil map, which encodes as null. *)
Definition inlineSchemaDefs (node : any) : option any :=
  match node with
  | AMap root =>
      match schema_defs root with
      | [] => Some node
      | defs => match resolveSchemaRefs (S (length defs)) defs [] node with AMap m => Some (AMap (del "definitions" (del "$defs" m))) | _ => None end
      end
  | _ => Some node
  end.

(** ** Sanitising *)

Definition every_type : any := strings ["string"; "number"; "boolean"; "object"; "array"; "null"].
Definition addOpenAIAnyOfBranchType (node : any) : any :=
  match node with AMap m => match get "type" m with Some _ => node | None => AMap (put "type" every_type m) end | _ => node end.
Definition appendSchemaConstraintDescription `{GoFmt} (key : string) (value : any) (node : obj) : obj :=
  let note := "(" +:+ key +:+ " constraint " +:+ str_take 8 (sha1_hex (key +:+ "|" +:+ compactJSONValue value)) +:+ ")" in
  let desc := default "" (as_string (get "description" node)) in
  put "description" (AString (if String.eqb desc "" then note else desc +:+ " " +:+ note)) node.
Definition without_pattern `{GoFmt} (m : obj) : obj :=
  match get "pattern" m with Some pattern => del "pattern" (appendSchemaConstraintDescription "pattern" pattern m) | None => m end.
Definition is_array_type (m : obj) : bool := match as_string (get "type" m) with Some t => String.eqb t "array" | None => false end.
Definition with_items (m : obj) : obj := if is_array_type m then match get "items" m with Some _ => m | None => put "items" (AMap []) m end else m.
Definition sub_schema_keys : list string := ["items"; "additionalProperties"; "propertyNames"; "not"].
Definition branch_keys : list string := ["anyOf"; "oneOf"; "allOf"].
(** A node's members do not share, so each is sanitised in its place. *)
Fixpoint sanitizeOpenAIToolSchema `{GoFmt} (node : any) : any :=
  match node with
  | AMap m =>
      AMap (with_items (without_pattern (map (fun kv => (kv.1,
        let key := kv.1 in
        if is_in key sub_schema_keys then sanitizeOpenAIToolSchema kv.2
        else if String.eqb key "properties" then match kv.2 with AMap props => AMap (map (fun kv => (kv.1, sanitizeOpenAIToolSchema kv.2)) props) | _ => kv.2 end
        else if is_in key branch_keys then
          match kv.2 with
          | AArray arr => AArray (map (fun v => let v := sanitizeOpenAIToolSchema v in if String.eqb key "anyOf" then addOpenAIAnyOfBranchType v else v) arr)
          | _ => kv.2
          end
        else kv.2)) m)))
  | _ => node
  end.
(** The parameters of a function tool from a tool's schema: [None] when there are none. *)
Definition function_parameters `{JsonCodec} `{GoFmt} (schema : option string) : option string :=
  match schema with
  | None => None
  | Some raw =>
      match json_Unmarshal raw with
      | None | Some ANil => None
      | Some params => match inlineSchemaDefs params with Some params => json_Marshal (sanitizeOpenAIToolSchema params) | None => Some "null" end
      end
  end.

(** ** Inlining ends *)

Section Inline.
Context (defs : obj).
(** The references a schema holds; what stands beside a reference is ignored. *)
Fixpoint refs (v : any) : list string :=
  match v with
  | AMap m => match ref_name m with Some name => [name] | None => flat_map (fun kv => refs kv.2) m end
  | AArray l => flat_map refs l
  | _ => []
  end.
(** The recursion of the source, with no bound on its depth. *)
Inductive Resolves : list string -> any -> any -> Prop :=
| R_cycle visited v name : ref_name v = Some name -> name ∈ visited -> Resolves visited (AMap v) (AMap v)
| R_unknown visited v name : ref_name v = Some name -> get name defs = None -> Resolves visited (AMap v) (AMap v)
| R_ref visited v name target w : ref_name v = Some name -> name ∉ visited -> get name defs = Some target -> Resolves (name :: visited) target w ->
    Resolves visited (AMap v) w
| R_map visited v v' : ref_name v = None -> Forall2 (fun kv kv' => kv'.1 = kv.1 /\ Resolves visited kv.2 kv'.2) v v' -> Resolves visited (AMap v) (AMap v')
| R_array visited v v' : Forall2 (Resolves visited) v v' -> Resolves visited (AArray v) (AArray v')
| R_other visited v : (forall m, v <> AMap m) -> (forall l, v <> AArray l) -> Resolves visited v v.

Lemma is_in_elem k l : is_in k l = true <-> k ∈ l.
Proof. unfold is_in. rewrite existsb_exists. setoid_rewrite String.eqb_eq. split; [intros (x & Hx & ->); by apply list_elem_of_In|intros H; exists k; split; [by apply list_elem_of_In|done]]. Qed.
Lemma get_key k v m : get k m = Some v -> k ∈ m.*1.
Proof. induction m as [|[k' w] m IH]; [done|]. cbn. destruct (String.eqb_spec k' k) as [->|]; [intros _; left|intros H; right; by apply IH]. Qed.
(** The fuel is enough as long as it exceeds the number of definitions not visited. *)
Lemma resolve_ends fuel : forall visited v, NoDup visited -> visited ⊆ defs.*1 -> (length defs < fuel + length visited)%nat ->
  Resolves visited v (resolveSchemaRefs fuel defs visited v).
Proof.
  induction fuel as [|fuel IHf]; intros visited v N S L.
  { exfalso. pose proof (submseteq_length _ _ (NoDup_submseteq visited (defs.*1) N S)) as H. rewrite length_fmap in H. lia. }
  induction v as [| | | |l IH|m IH] using any_rect'; try (by apply R_other).
  - cbn. apply R_array. induction IH; constructor; done.
  - cbn. destruct (ref_name m) as [name|] eqn:E.
    + destruct (is_in name visited) eqn:Ei; [apply is_in_elem in Ei; by eapply R_cycle|].
      destruct (get name defs) as [target|] eqn:Eg; [|by eapply R_unknown]. assert (name ∉ visited) by (intros H; apply is_in_elem in H; congruence).
      eapply R_ref; [done|done|done|]. apply IHf; [by constructor| |cbn; lia]. apply get_key in Eg. intros x [->|Hx]%elem_of_cons; [done|by apply S].
    + apply R_map; [done|]. clear E. induction IH; constructor; done.
Qed.
Lemma refs_in_map f m r : r ∈ flat_map (fun kv : string * any => refs (f kv)) m <-> exists kv, kv ∈ m /\ r ∈ refs (f kv).
Proof. rewrite list_elem_of_In, in_flat_map. by setoid_rewrite list_elem_of_In. Qed.
Lemma refs_map (f : string * any -> any) m r : r ∈ flat_map (fun kv : string * any => refs kv.2) (map (fun kv : string * any => (kv.1, f kv)) m) <-> exists kv, kv ∈ m /\ r ∈ refs (f kv).
Proof.
  rewrite <- (refs_in_map f m r). rewrite !flat_map_concat_map, map_map. done.
Qed.
Hypothesis no_strings : forall name target s, get name defs = Some target -> target <> AString s.
Lemma resolve_string fuel : forall visited v s, resolveSchemaRefs fuel defs visited v = AString s -> v = AString s.
Proof using no_strings.
  induction fuel as [|fuel IH]; intros visited v s; [done|]. destruct v as [| | | | |m]; cbn; try done.
  destruct (ref_name m) as [name|]; [|done]. destruct (is_in name visited); [done|]. destruct (get name defs) as [target|] eqn:E; [|done].
  intros H. apply IH in H. by destruct (no_strings name target s).
Qed.
Lemma get_map (f : any -> any) k m : get k (map (fun kv => (kv.1, f kv.2)) m) = f <$> get k m.
Proof. induction m as [|[k' v] m IH]; [done|]. cbn. by destruct (String.eqb k' k). Qed.
Lemma resolve_keeps_node fuel visited m : ref_name m = None -> ref_name (map (fun kv => (kv.1, resolveSchemaRefs fuel defs visited kv.2)) m) = None.
Proof using no_strings.
  unfold ref_name. rewrite get_map. destruct (get "$ref" m) as [v|]; [|done]. cbn. destruct (resolveSchemaRefs fuel defs visited v) eqn:E; try done.
  by rewrite (resolve_string _ _ _ _ E).
Qed.
(** When no definition leads back to itself, no reference to a definition is left. *)
Lemma resolved_refs (rank : string -> nat) fuel : (forall name target r, get name defs = Some target -> r ∈ refs target -> is_Some (get r defs) -> (rank r < rank name)%nat) ->
  forall visited v, NoDup visited -> visited ⊆ defs.*1 -> (length defs < fuel + length visited)%nat ->
  (forall x r, x ∈ visited -> r ∈ refs v -> is_Some (get r defs) -> (rank r < rank x)%nat) ->
  forall r, r ∈ refs (resolveSchemaRefs fuel defs visited v) -> get r defs = None.
Proof using no_strings.
  intros Hrank. induction fuel as [|fuel IHf]; intros visited v N S L.
  { exfalso. pose proof (submseteq_length _ _ (NoDup_submseteq visited (defs.*1) N S)) as H. rewrite length_fmap in H. lia. }
  induction v as [| | | |l IH|m IH] using any_rect'; intros Hv r; try (intros H; by apply elem_of_nil in H).
  - cbn [resolveSchemaRefs refs]. intros (y & Hy & Hr)%list_elem_of_In%in_flat_map. apply in_map_iff in Hy as (x & <- & Hx).
    rewrite Forall_forall in IH. apply (IH x); [by apply list_elem_of_In| |by apply list_elem_of_In]. intros z q Hz Hq. apply Hv; [done|]. cbn.
    apply list_elem_of_In, in_flat_map. exists x. split; [done|by apply list_elem_of_In].
  - cbn [resolveSchemaRefs]. destruct (ref_name m) as [name|] eqn:E.
    + assert (Hm : refs (AMap m) = [name]) by (cbn; by rewrite E). rewrite Hm in Hv. assert (Hn : name ∈ [name]) by left.
      destruct (is_in name visited) eqn:Ei.
      { apply is_in_elem in Ei. rewrite Hm. intros ->%list_elem_of_singleton. destruct (get name defs) eqn:Eg; [|done]. specialize (Hv name name Ei Hn ltac:(by eexists)). lia. }
      destruct (get name defs) as [target|] eqn:Eg; [|by rewrite Hm; intros ->%list_elem_of_singleton].
      apply IHf.
      * constructor; [|done]. intros H. apply is_in_elem in H. congruence.
      * apply get_key in Eg. intros x [->|Hx]%elem_of_cons; [done|by apply S].
      * cbn. lia.
      * intros x q [->|Hx]%elem_of_cons Hq Dq; [by apply (Hrank name target)|]. assert (rank q < rank name)%nat by (by apply (Hrank name target)).
        assert (rank name < rank x)%nat by (apply (Hv x name); [done|done|by eexists]). lia.
    + set (g := resolveSchemaRefs (Datatypes.S fuel) defs visited) in IH.
      change (r ∈ refs (AMap (map (fun kv => (kv.1, g kv.2)) m)) -> get r defs = None).
      pose proof (resolve_keeps_node (Datatypes.S fuel) visited m E : ref_name (map (fun kv => (kv.1, g kv.2)) m) = None) as En.
      cbn [refs]. rewrite En. intros (kv & Hkv & Hr)%refs_map. rewrite Forall_forall in IH. apply (IH kv Hkv); [|done].
      intros x q Hx Hq. apply Hv; [done|]. cbn [refs]. rewrite E. apply refs_in_map. by exists kv.
Qed.
End Inline.

(** ** What sanitising leaves *)

Section Sanitise.
Context `{GoFmt}.
#[local] Opaque sha1_hex.
(** The schemas under a member. *)
Definition sub_schemas (key : string) (v : any) : list any :=
  if is_in key sub_schema_keys then [v]
  else if String.eqb key "properties" then match v with AMap props => props.*2 | _ => [] end
  else if is_in key branch_keys then match v with AArray arr => arr | _ => [] end
  else [].
Definition typed_branch (v : any) : Prop := match v with AMap m => is_Some (get "type" m) | _ => True end.
Inductive clean : any -> Prop :=
| clean_map m : get "pattern" m = None -> (is_array_type m = true -> is_Some (get "items" m)) ->
    (forall k x s, get k m = Some x -> s ∈ sub_schemas k x -> clean s) -> (forall x s, get "anyOf" m = Some x -> s ∈ sub_schemas "anyOf" x -> typed_branch s) -> clean (AMap m)
| clean_other v : (forall m, v <> AMap m) -> clean v.
Definition sanitized_member (key : string) (v : any) : any :=
  if is_in key sub_schema_keys then sanitizeOpenAIToolSchema v
  else if String.eqb key "properties" then match v with AMap props => AMap (map (fun kv => (kv.1, sanitizeOpenAIToolSchema kv.2)) props) | _ => v end
  else if is_in key branch_keys then
    match v with
    | AArray arr => AArray (map (fun v => let v := sanitizeOpenAIToolSchema v in if String.eqb key "anyOf" then addOpenAIAnyOfBranchType v else v) arr)
    | _ => v
    end
  else v.
Lemma sanitize_map m : sanitizeOpenAIToolSchema (AMap m) = AMap (with_items (without_pattern (map (fun kv => (kv.1, sanitized_member kv.1 kv.2)) m))).
Proof. reflexivity. Qed.
Lemma get_members k m : get k (map (fun kv => (kv.1, sanitized_member kv.1 kv.2)) m) = sanitized_member k <$> get k m.
Proof. induction m as [|[k' v] m IH]; [done|]. cbn [map get fst snd]. by destruct (String.eqb_spec k' k) as [->|]. Qed.
Lemma get_del k j m : get j (del k m) = if String.eqb k j then None else get j m.
Proof.
  unfold del. induction m as [|[k' v] m IH]; cbn; [by destruct (String.eqb k j)|].
  destruct (String.eqb_spec k' k) as [->|Hk]; cbn; [rewrite IH; by destruct (String.eqb k j)|].
  rewrite IH. destruct (String.eqb_spec k' j) as [->|]; [|done]. by destruct (String.eqb_spec k j) as [->|].
Qed.
Lemma get_without_pattern k m : k <> "description" -> get k (without_pattern m) = if String.eqb "pattern" k then None else get k m.
Proof.
  intros Hk. unfold without_pattern, appendSchemaConstraintDescription. destruct (get "pattern" m) as [p|] eqn:E.
  - rewrite get_del, get_put_other by done. done.
  - destruct (String.eqb_spec "pattern" k); [congruence|done].
Qed.
Lemma without_pattern_description m x : get "description" (without_pattern m) = Some x -> (exists s, x = AString s) \/ get "description" m = Some x.
Proof.
  unfold without_pattern, appendSchemaConstraintDescription. destruct (get "pattern" m); [|by right].
  rewrite get_del, get_put. change (String.eqb "pattern" "description") with false. change (String.eqb "description" "description") with true. cbv iota.
  intros [= <-]. left. by eexists.
Qed.
(** A member of a sanitised node: one of the node's sanitised, an empty schema for the items of an array, or the description. *)
Lemma sanitized_members k x m : get k (with_items (without_pattern (map (fun kv => (kv.1, sanitized_member kv.1 kv.2)) m))) = Some x ->
  (k = "items" /\ x = AMap []) \/ (k = "description" /\ exists s, x = AString s) \/ exists x0, get k m = Some x0 /\ x = sanitized_member k x0.
Proof.
  set (m' := map _ m). assert (G : forall x, get k (without_pattern m') = Some x ->
    (k = "description" /\ exists s, x = AString s) \/ exists x0, get k m = Some x0 /\ x = sanitized_member k x0).
  { intros y Hy. destruct (String.eqb_spec k "description") as [->|Hk].
    - apply without_pattern_description in Hy as [Hs|Hy]; [by left|]. unfold m' in Hy. rewrite get_members in Hy. apply fmap_Some in Hy as (x0 & ? & ->). right. eauto.
    - rewrite get_without_pattern in Hy by done. destruct (String.eqb "pattern" k); [done|].
      unfold m' in Hy. rewrite get_members in Hy. apply fmap_Some in Hy as (x0 & ? & ->). right. eauto. }
  unfold with_items. destruct (is_array_type _); [|by intros Hx; right; apply G]. destruct (get "items" (without_pattern m')) eqn:E; [by intros Hx; right; apply G|].
  rewrite get_put. destruct (String.eqb_spec "items" k) as [<-|]; [intros [= <-]; by left|]. intros Hx. right. by apply G.
Qed.
Lemma sub_sanitized k x s : s ∈ sub_schemas k (sanitized_member k x) -> exists s0, s0 ∈ sub_schemas k x /\
  (s = sanitizeOpenAIToolSchema s0 \/ s = addOpenAIAnyOfBranchType (sanitizeOpenAIToolSchema s0)) /\
  (k = "anyOf" -> s = addOpenAIAnyOfBranchType (sanitizeOpenAIToolSchema s0)).
Proof.
  unfold sub_schemas, sanitized_member. destruct (is_in k sub_schema_keys) eqn:E1.
  { intros ->%list_elem_of_singleton. exists x. split; [left|]. split; [by left|]. intros ->. done. }
  destruct (String.eqb_spec k "properties") as [->|_].
  { destruct x as [| | | | |props]; try (intros H0; by apply elem_of_nil in H0). intros ((k', v) & -> & Hin)%list_elem_of_fmap.
    apply list_elem_of_In, in_map_iff in Hin as ([k0 v0] & [= <- <-] & Hin). exists v0. split; [apply list_elem_of_fmap; exists (k0, v0); split; [done|by apply list_elem_of_In]|].
    split; [by left|done]. }
  destruct (is_in k branch_keys); [|intros H0; by apply elem_of_nil in H0]. destruct x as [| | | |arr|]; try (intros H0; by apply elem_of_nil in H0).
  intros (v & <- & Hv)%list_elem_of_In%in_map_iff. exists v. split; [by apply list_elem_of_In|]. destruct (String.eqb_spec k "anyOf") as [->|Hn]; [split; [by right|done]|].
  split; [by left|done].
Qed.
Lemma sub_smaller k x s : s ∈ sub_schemas k x -> (any_size s <= any_size x)%nat.
Proof.
  unfold sub_schemas. destruct (is_in k sub_schema_keys); [intros ->%list_elem_of_singleton; lia|]. destruct (String.eqb k "properties").
  - destruct x as [| | | | |props]; try (intros H0; by apply elem_of_nil in H0). intros (kv & -> & Hin)%list_elem_of_fmap. apply Nat.lt_le_incl, member_smaller. by apply list_elem_of_In.
  - destruct (is_in k branch_keys); [|intros H0; by apply elem_of_nil in H0]. destruct x as [| | | |arr|]; try (intros H0; by apply elem_of_nil in H0).
    intros Hin. apply Nat.lt_le_incl, element_smaller. by apply list_elem_of_In.
Qed.
Lemma clean_typed v : clean v -> clean (addOpenAIAnyOfBranchType v) /\ typed_branch (addOpenAIAnyOfBranchType v).
Proof.
  intros C. destruct v as [| | | | |m]; try done. cbn [addOpenAIAnyOfBranchType]. destruct (get "type" m) eqn:E; [split; [done|by eexists]|]. split; [|by eexists; apply get_put_same].
  inversion_clear C as [? Hp Ha Hs Hb|? Hn]; [|by destruct (Hn m)]. apply clean_map.
  - by rewrite get_put_other.
  - unfold is_array_type. by rewrite get_put_same.
  - intros k x s. rewrite get_put. destruct (String.eqb_spec "type" k) as [<-|]; [intros _ H0; by apply elem_of_nil in H0|apply Hs].
  - intros x s. rewrite get_put_other by done. apply Hb.
Qed.
Lemma sanitize_clean v : clean (sanitizeOpenAIToolSchema v).
Proof.
  induction v as [v IH] using any_size_ind. destruct v as [| | | | |m]; try (by apply clean_other). rewrite sanitize_map.
  set (m' := without_pattern _). assert (Hp : get "pattern" m' = None) by (by unfold m'; rewrite get_without_pattern).
  assert (S : forall k x s, get k (with_items m') = Some x -> s ∈ sub_schemas k x -> clean s /\ (k = "anyOf" -> typed_branch s)).
  { intros k x s Hx Hs. apply sanitized_members in Hx as [[-> ->]|[[-> [t ->]]|(x0 & Hx & ->)]].
    - apply list_elem_of_singleton in Hs as ->. split; [|done]. by apply clean_map.
    - by apply elem_of_nil in Hs.
    - apply sub_sanitized in Hs as (s0 & Hs & Es & Ea). assert (C : clean (sanitizeOpenAIToolSchema s0)).
      { apply IH. apply sub_smaller in Hs. eapply Nat.le_lt_trans; [exact Hs|]. apply (member_smaller (k, x0)). clear -Hx. induction m as [|[k' v] m IHm]; [done|]. cbn in Hx.
        destruct (String.eqb_spec k' k) as [->|]; [injection Hx as ->; by left|right; by apply IHm]. }
      split; [destruct Es as [->| ->]; [done|by apply clean_typed]|]. intros Hk. rewrite (Ea Hk). by apply clean_typed. }
  apply clean_map.
  - unfold with_items. destruct (is_array_type m'); [|done]. destruct (get "items" m'); [done|]. by rewrite get_put_other.
  - unfold with_items. destruct (is_array_type m') eqn:E; [|by rewrite E]. destruct (get "items" m') eqn:Ei; [by eexists|]. intros _. eexists. apply get_put_same.
  - intros k x s Hx Hs. by apply (S k x s).
  - intros x s Hx Hs. by apply (S "anyOf" x s).
Qed.
(** *** References *)

Lemma in_put k v m kv : kv ∈ put k v m -> kv = (k, v) \/ kv ∈ m.
Proof.
  induction m as [|[k' w] m IH]; cbn; [intros ->%list_elem_of_singleton; by left|]. destruct (String.eqb_spec k' k) as [->|].
  - intros [->|Hin]%elem_of_cons; [by left|right; by right].
  - intros [->|Hin]%elem_of_cons; [right; by left|]. destruct (IH Hin); [by left|right; by right].
Qed.
Lemma in_del k m kv : kv ∈ del k m -> kv ∈ m.
Proof. intros [Hin _]%list_elem_of_In%filter_In. by apply list_elem_of_In. Qed.
(** A node whose members hold no more references, and which is one only when the other is. *)
Lemma refs_node m m' : ref_name m' = ref_name m -> (forall kv r, kv ∈ m' -> r ∈ refs kv.2 -> exists kv', kv' ∈ m /\ r ∈ refs kv'.2) ->
  forall r, r ∈ refs (AMap m') -> r ∈ refs (AMap m).
Proof.
  intros E Hm r. cbn [refs]. rewrite E. destruct (ref_name m); [done|]. intros (kv & Hkv & Hr)%list_elem_of_In%in_flat_map. apply list_elem_of_In, in_flat_map.
  destruct (Hm kv r) as (kv' & ? & ?); [by apply list_elem_of_In|by apply list_elem_of_In|]. exists kv'. split; by apply list_elem_of_In.
Qed.
Lemma ref_name_same m m' : get "$ref" m' = get "$ref" m -> ref_name m' = ref_name m.
Proof. unfold ref_name. by intros ->. Qed.
Lemma typed_refs v r : r ∈ refs (addOpenAIAnyOfBranchType v) -> r ∈ refs v.
Proof.
  destruct v as [| | | | |m]; try done. cbn [addOpenAIAnyOfBranchType]. destruct (get "type" m); [done|]. apply refs_node; [apply ref_name_same; by rewrite get_put_other|].
  intros kv q [->|Hin]%in_put Hq; [by apply elem_of_nil in Hq|by exists kv].
Qed.
Lemma deleted_refs k m r : k <> "$ref" -> r ∈ refs (AMap (del k m)) -> r ∈ refs (AMap m).
Proof.
  intros Hk. apply refs_node; [apply ref_name_same; rewrite get_del; by destruct (String.eqb_spec k "$ref")|]. intros kv q Hin%in_del Hq. by exists kv.
Qed.
Lemma refs_array f l : (forall v r, v ∈ l -> r ∈ refs (f v) -> r ∈ refs v) -> forall r, r ∈ refs (AArray (map f l)) -> r ∈ refs (AArray l).
Proof.
  intros Hf r (y & Hy & Hr)%list_elem_of_In%in_flat_map. apply in_map_iff in Hy as (v & <- & Hv). apply list_elem_of_In, in_flat_map. exists v. split; [done|].
  apply list_elem_of_In, Hf; by apply list_elem_of_In.
Qed.
Lemma sanitize_string v s : sanitizeOpenAIToolSchema v = AString s -> v = AString s.
Proof. by destruct v. Qed.
Lemma sanitize_refs v : forall r, r ∈ refs (sanitizeOpenAIToolSchema v) -> r ∈ refs v.
Proof.
  induction v as [v IH] using any_size_ind. destruct v as [| | | | |m]; try done. rewrite sanitize_map.
  assert (M : forall k x r, (k, x) ∈ m -> r ∈ refs (sanitized_member k x) -> r ∈ refs x).
  { intros k x r Hin. assert (Lx : (any_size x < any_size (AMap m))%nat) by (apply (member_smaller (k, x)); by apply list_elem_of_In).
    unfold sanitized_member. destruct (is_in k sub_schema_keys); [by apply IH|]. destruct (String.eqb k "properties").
    - destruct x as [| | | | |props]; try done. apply refs_node.
      + unfold ref_name. rewrite get_map. destruct (get "$ref" props) as [y|]; [|done]. destruct y; done.
      + intros [k1 y] q Hy Hq. apply list_elem_of_In, in_map_iff in Hy as ([k0 y0] & [= <- <-] & Hy). exists (k0, y0). split; [by apply list_elem_of_In|]. apply IH; [|done].
        apply (member_smaller (k0, y0)) in Hy. by eapply Nat.lt_trans.
    - destruct (is_in k branch_keys); [|done]. destruct x as [| | | |arr|]; try done. apply refs_array. intros y q Hy.
      assert (any_size y < any_size (AArray arr))%nat by (apply element_smaller; by apply list_elem_of_In).
      destruct (String.eqb k "anyOf"); [intros Hq%typed_refs|intros Hq]; (apply IH; [lia|done]). }
  set (m' := map _ m). assert (E' : get "$ref" m' = get "$ref" m).
  { unfold m'. rewrite get_members. by destruct (get "$ref" m). }
  apply refs_node.
  - apply ref_name_same. unfold with_items. assert (E : get "$ref" (without_pattern m') = get "$ref" m) by (by rewrite get_without_pattern).
    destruct (is_array_type _); [|done]. destruct (get "items" _); [done|]. by rewrite get_put_other.
  - intros kv r Hin Hr. assert (Hin' : kv ∈ m' \/ refs kv.2 = []).
    { unfold with_items, without_pattern, appendSchemaConstraintDescription in Hin. assert (D : forall v, kv ∈ del "pattern" (put "description" (AString v) m') -> kv ∈ m' \/ refs kv.2 = []).
      { intros v [->|H']%in_del%in_put; [by right|by left]. }
      destruct (get "pattern" m'); (destruct (is_array_type _); [destruct (get "items" _); [|apply in_put in Hin as [->|Hin]; [by right|]]|]); eauto. }
    destruct Hin' as [Hm|E0]; [|rewrite E0 in Hr; by apply elem_of_nil in Hr]. unfold m' in Hm. apply list_elem_of_In, in_map_iff in Hm as ([k x] & <- & Hx).
    exists (k, x). split; [by apply list_elem_of_In|]. apply (M k); [by apply list_elem_of_In|done].
Qed.
End Sanitise.

(** ** The parameters sent *)

(** No definition leads back to itself: each one's references to definitions have a smaller rank than it; and none is a mere string. *)
Definition acyclic (rank : string -> nat) (defs : obj) : Prop :=
  (forall name target r, get name defs = Some target -> r ∈ refs target -> is_Some (get r defs) -> (rank r < rank name)%nat) /\
  (forall name target s, get name defs = Some target -> target <> AString s).
(** A tool's schema becomes parameters for an OpenAI-compatible upstream.  Inlining its definitions ends, whatever refers to what:
    it is what the unbounded recursion gives.  What is sent has no pattern at any sub-schema, items for every array, and a type on every branch of an anyOf; and when no
    definition leads back to itself, no reference to a definition is left in it. *)
Lemma parameters_self_contained `{JsonCodec} `{GoFmt} (raw : string) (node : any) :
  json_Unmarshal raw = Some node -> node <> ANil ->
  (forall root, node = AMap root -> Resolves (schema_defs root) [] node (resolveSchemaRefs (S (length (schema_defs root))) (schema_defs root) [] node)) /\
  match inlineSchemaDefs node with
  | None => function_parameters (Some raw) = Some "null"
  | Some params =>
      function_parameters (Some raw) = json_Marshal (sanitizeOpenAIToolSchema params) /\ clean (sanitizeOpenAIToolSchema params) /\
      forall root rank, node = AMap root -> acyclic rank (schema_defs root) ->
        forall r, r ∈ refs (sanitizeOpenAIToolSchema params) -> get r (schema_defs root) = None
  end.
Proof.
  intros Hu Hn. assert (F : function_parameters (Some raw) = match inlineSchemaDefs node with Some params => json_Marshal (sanitizeOpenAIToolSchema params) | None => Some "null" end).
  { unfold function_parameters. rewrite Hu. by destruct node. }
  split; [intros root ->; apply resolve_ends; [constructor|intros x Hx; by apply elem_of_nil in Hx|cbn; lia]|].
  rewrite F. destruct (inlineSchemaDefs node) as [params|] eqn:E; [|done]. split; [done|]. split; [apply sanitize_clean|]. intros root rank -> [Hr Hs] r Hin.
  apply sanitize_refs in Hin. unfold inlineSchemaDefs in E. destruct (schema_defs root) as [|d ds] in E, Hr, Hs |- *; [done|]. set (defs := d :: ds) in *.
  destruct (resolveSchemaRefs _ _ _ _) as [| | | | |m] eqn:R; try done. injection E as <-. do 2 (apply deleted_refs in Hin; [|done]).
  eapply (resolved_refs defs Hs rank (S (length defs)) Hr [] (AMap root)).
  - constructor.
  - intros x Hx. by apply elem_of_nil in Hx.
  - cbn. lia.
  - intros x q Hx. by apply elem_of_nil in Hx.
  - by rewrite R.
Qed.

(** A list whose definition refers to another one. *)
Definition ex_defs : obj := [("node", AMap [("type", AString "object"); ("properties", AMap [("name", AMap [("$ref", AString "#/$defs/name")])])]);
  ("name", AMap [("type", AString "string"); ("pattern", AString "^[a-z]+$")])].
Definition ex_root : obj := [("$defs", AMap ex_defs); ("type", AString "object");
  ("properties", AMap [("nodes", AMap [("type", AString "array"); ("items", AMap [("$ref", AString "#/$defs/node")])]); ("rest", AMap [("type", AString "array")]);
                       ("either", AMap [("anyOf", AArray [AMap []; AMap [("type", AString "null")]])])])].
#[local] Instance ex_codec : JsonCodec := {| json_Unmarshal := fun _ => Some (AMap ex_root); json_Marshal := fun _ => Some "schema" |}.
#[local] Instance ex_fmt : GoFmt := {| fmt_float := fun _ => "" |}.
Definition ex_rank (name : string) : nat := if String.eqb name "$defs/node" then 1 else 0.
Lemma ex_acyclic : acyclic ex_rank (schema_defs ex_root).
Proof.
  assert (G : forall name target, get name (schema_defs ex_root) = Some target ->
    (name = "$defs/node" /\ target = AMap [("type", AString "object"); ("properties", AMap [("name", AMap [("$ref", AString "#/$defs/name")])])]) \/
    (name = "$defs/name" /\ target = AMap [("type", AString "string"); ("pattern", AString "^[a-z]+$")])).
  { intros name target. change (schema_defs ex_root) with (map (fun kv : string * any => ("$defs/" +:+ kv.1, kv.2)) ex_defs). unfold ex_defs. cbn [map fst snd get].
    destruct (String.eqb_spec ("$defs/" +:+ "node") name) as [<-|_]; [intros [= <-]; by left|].
    destruct (String.eqb_spec ("$defs/" +:+ "name") name) as [<-|_]; [intros [= <-]; by right|done]. }
  split.
  - intros name target r H Hr _. destruct (G _ _ H) as [[-> ->]|[-> ->]]; [apply list_elem_of_singleton in Hr as ->; cbn; lia|by apply elem_of_nil in Hr].
  - intros name target s H. by destruct (G _ _ H) as [[_ ->]|[_ ->]].
Qed.
Lemma parameters_self_contained_witness : exists params, inlineSchemaDefs (AMap ex_root) = Some params /\ clean (sanitizeOpenAIToolSchema params) /\
  forall r, r ∈ refs (sanitizeOpenAIToolSchema params) -> get r (schema_defs ex_root) = None.
Proof.
  destruct (@parameters_self_contained ex_codec ex_fmt "schema" (AMap ex_root) eq_refl ltac:(discriminate)) as [_ H].
  destruct (inlineSchemaDefs (AMap ex_root)) as [params|] eqn:E; [|vm_compute in E; discriminate E].
  exists params. destruct H as (_ & C & R). split; [reflexivity|]. split; [exact C|]. exact (R ex_root ex_rank eq_refl ex_acyclic).
Defined.
(** Definitions that lead back to themselves keep the reference that closes the circle, to a definition that is no longer sent. *)
Lemma cyclic_reference_dangles : inlineSchemaDefs (AMap [("$defs", AMap [("tree", AMap [("items", AMap [("$ref", AString "#/$defs/tree")])])]);
    ("$ref", AString "#/$defs/tree")]) = Some (AMap [("items", AMap [("$ref", AString "#/$defs/tree")])]).
Proof. reflexivity. Qed.
