(* ===== verification/JsonWriter.v ===== *)
(** The writer of JSON text the translations stream their output through (internal/translate/jsonw.go), and the trees of values the code
    writes with it: what a balanced run of the writer leaves is the text of its tree. *)

From stdpp Require Import base list strings.
From Stdlib Require Import ZArith Lia.
From S2P Require Import Prelude Strings Sse Marshal.
Open Scope string_scope.
Open Scope Z_scope.

(** ** The writer *)

(** [out] is what has gone through the buffer. *)
Record jsonWriter := { out : string; depth : nat; first : list bool; afterKey : bool }.
Definition newJSONWriter : jsonWriter := {| out := ""; depth := 0; first := [true]; afterKey := false |}.
Definition WriteString (s : string) (w : jsonWriter) : jsonWriter :=
  {| out := w.(out) +:+ s; depth := w.(depth); first := w.(first); afterKey := w.(afterKey) |}.
Definition with_first (n : nat) (b : bool) (w : jsonWriter) : jsonWriter :=
  {| out := w.(out); depth := w.(depth); first := <[n := b]> w.(first); afterKey := w.(afterKey) |}.
Definition with_afterKey (b : bool) (w : jsonWriter) : jsonWriter := {| out := w.(out); depth := w.(depth); first := w.(first); afterKey := b |}.
Definition with_depth (n : nat) (w : jsonWriter) : jsonWriter := {| out := w.(out); depth := n; first := w.(first); afterKey := w.(afterKey) |}.
Definition sep (w : jsonWriter) : jsonWriter :=
  if w.(afterKey) then with_afterKey false w
  else match w.(first) !! w.(depth) with
       | Some true => with_first w.(depth) false w
       | _ => WriteString "," w
       end.
Definition pushFirst (w : jsonWriter) : jsonWriter :=
  if (length w.(first) <=? w.(depth))%nat then {| out := w.(out); depth := w.(depth); first := w.(first) ++ [true]; afterKey := w.(afterKey) |}
  else with_first w.(depth) true w.
Definition deeper (w : jsonWriter) : jsonWriter := pushFirst (with_depth (S w.(depth)) w).
Definition Obj (w : jsonWriter) : jsonWriter := deeper (WriteString "{" (sep w)).
Definition EndObj (w : jsonWriter) : jsonWriter := WriteString "}" (with_depth (pred w.(depth)) w).
Definition Arr (w : jsonWriter) : jsonWriter := deeper (WriteString "[" (sep w)).
Definition EndArr (w : jsonWriter) : jsonWriter := WriteString "]" (with_depth (pred w.(depth)) w).
Definition Key (name : string) (w : jsonWriter) : jsonWriter := with_afterKey true (WriteString ":" (WriteString (WriteJSONString name) (sep w))).
Definition Str (s : string) (w : jsonWriter) : jsonWriter := WriteString (WriteJSONString s) (sep w).
Definition Int (n : Z) (w : jsonWriter) : jsonWriter := WriteString (WriteJSONInt n) (sep w).
Definition Bool (b : bool) (w : jsonWriter) : jsonWriter := WriteString (if b then "true" else "false") (sep w).
Definition Null (w : jsonWriter) : jsonWriter := WriteString "null" (sep w).
Definition Raw (json : string) (w : jsonWriter) : jsonWriter := WriteString json (sep w).
Definition Bytes (w : jsonWriter) : string := w.(out).

(** ** Trees *)

(** What a run of the writer emits between two separators. *)
Inductive jv := WStr (s : string) | WInt (n : Z) | WBool (b : bool) | WNull | WRaw (json : string) | WObj (l : list (string * jv)) | WArr (l : list jv).
Fixpoint jv_rect' (P : jv -> Prop) (str : forall s, P (WStr s)) (int : forall n, P (WInt n)) (bool : forall b, P (WBool b)) (null : P WNull) (raw : forall s, P (WRaw s))
    (object : forall l, Forall (fun kv => P kv.2) l -> P (WObj l)) (array : forall l, Forall P l -> P (WArr l)) (v : jv) : P v :=
  let rec := jv_rect' P str int bool null raw object array in
  match v with
  | WStr s => str s
  | WInt n => int n
  | WBool b => bool b
  | WNull => null
  | WRaw s => raw s
  | WObj l => object l ((fix go l := match l return Forall (fun kv => P kv.2) l with
                          | [] => Forall_nil_2 _ | x :: r => Forall_cons_2 (fun kv => P kv.2) x r (rec x.2) (go r) end) l)
  | WArr l => array l ((fix go l := match l return Forall P l with [] => Forall_nil_2 P | x :: r => Forall_cons_2 P x r (rec x) (go r) end) l)
  end.
(** The calls that write a tree. *)
Fixpoint write (v : jv) (w : jsonWriter) : jsonWriter :=
  match v with
  | WStr s => Str s w
  | WInt n => Int n w
  | WBool b => Bool b w
  | WNull => Null w
  | WRaw json => Raw json w
  | WObj l => EndObj (fold_left (fun w kv => write kv.2 (Key kv.1 w)) l (Obj w))
  | WArr l => EndArr (fold_left (fun w v => write v w) l (Arr w))
  end.
(** Its text. *)
Fixpoint text (v : jv) : string :=
  match v with
  | WStr s => WriteJSONString s
  | WInt n => WriteJSONInt n
  | WBool b => if b then "true" else "false"
  | WNull => "null"
  | WRaw json => json
  | WObj l => "{" +:+ String.concat "," (map (fun kv => WriteJSONString kv.1 +:+ ":" +:+ text kv.2) l) +:+ "}"
  | WArr l => "[" +:+ String.concat "," (map text l) +:+ "]"
  end.
Fixpoint member (k : string) (l : list (string * jv)) : option jv := match l with [] => None | (k', v) :: l => if String.eqb k' k then Some v else member k l end.

(** ** A writer leaves the text of its tree *)

(** The separator due. *)
Definition due (w : jsonWriter) : string := if w.(afterKey) then "" else match w.(first) !! w.(depth) with Some true => "" | _ => "," end.
(** A piece of text written at the writer's level. *)
Record wrote (w w' : jsonWriter) (t : string) : Prop := {
  wrote_out : w'.(out) = w.(out) +:+ due w +:+ t;
  wrote_depth : w'.(depth) = w.(depth);
  wrote_key : w'.(afterKey) = false;
  wrote_first : take (S w.(depth)) w'.(first) = take (S w.(depth)) (sep w).(first)
}.
Definition open (w : jsonWriter) : Prop := (w.(depth) < length w.(first))%nat.
Lemma sep_out w : (sep w).(out) = w.(out) +:+ due w /\ (sep w).(depth) = w.(depth) /\ (sep w).(afterKey) = false /\ length (sep w).(first) = length w.(first).
Proof.
  unfold sep, due. destruct (afterKey w) eqn:E; cbn; [by rewrite str_app_nil_r|]. destruct (first w !! depth w) as [[]|]; cbn; rewrite ?str_app_nil_r, ?length_insert, ?E; done.
Qed.
Lemma sep_first w : open w -> w.(afterKey) = false -> (sep w).(first) !! w.(depth) = Some false.
Proof.
  unfold open, sep. intros Ho ->. destruct (lookup_lt_is_Some_2 _ _ Ho) as [b Hb]. rewrite Hb. destruct b; cbn; [by apply list_lookup_insert_eq|done].
Qed.
Lemma sep_below w : take w.(depth) (sep w).(first) = take w.(depth) w.(first).
Proof. unfold sep. destruct (afterKey w); [done|]. destruct (first w !! depth w) as [[]|]; cbn; [|done|done]. by rewrite take_insert_ge. Qed.
Lemma wrote_leaf w t : wrote w (WriteString t (sep w)) t.
Proof. destruct (sep_out w) as (Eo & Ed & Ek & _). split; cbn; [by rewrite Eo, str_app_assoc|done..]. Qed.
Lemma wrote_open w w' t : open w -> wrote w w' t -> open w'.
Proof.
  unfold open. intros Ho [_ Ed _ Ef]. rewrite Ed. apply (f_equal length) in Ef. rewrite !length_take in Ef. destruct (sep_out w) as (_ & _ & _ & El). lia.
Qed.
(** The pieces of an object or an array, from where it was opened. *)
Lemma wrote_pieces {A} (f : A -> jsonWriter -> jsonWriter) (t : A -> string) l :
  (forall x, x ∈ l -> forall w, open w -> w.(afterKey) = false -> wrote w (f x w) (t x)) ->
  forall w, open w -> w.(afterKey) = false -> let w' := fold_left (fun w x => f x w) l w in
  w'.(out) = w.(out) +:+ match l with [] => "" | _ => due w +:+ String.concat "," (map t l) end /\ w'.(depth) = w.(depth) /\ w'.(afterKey) = false /\
  take w.(depth) w'.(first) = take w.(depth) w.(first) /\ open w'.
Proof.
  induction l as [|x l IH]; intros Hf w Ho Hk; cbn; [by rewrite str_app_nil_r|]. assert (Hx : wrote w (f x w) (t x)) by (apply Hf; [left|done|done]).
  pose proof (wrote_open _ _ _ Ho Hx) as Ho'. destruct Hx as [Eo Ed Ek Ef]. destruct (IH (fun y Hy => Hf y ltac:(by right)) (f x w) Ho' Ek) as (Eo' & Ed' & Ek' & Ef' & Ho2).
  assert (Eb : take (depth w) (first (f x w)) = take (depth w) (first w)).
  { rewrite <- (sep_below w). apply (f_equal (take (depth w))) in Ef. by rewrite !take_take, !Nat.min_l in Ef by lia. }
  assert (Edue : due (f x w) = ",").
  { unfold due. rewrite Ek, Ed. assert (El : first (f x w) !! depth w = Some false); [|by rewrite El].
    rewrite <- (lookup_take_lt _ (S (depth w))) by lia. rewrite Ef, lookup_take_lt by lia. by apply sep_first. }
  rewrite Eo', Ed', Ek', Ed, Eo. rewrite Ed in Ef'. split; [|split; [done|split; [done|split; [by rewrite Ef'|done]]]].
  destruct l as [|y l]; [by rewrite str_app_nil_r|]. rewrite Edue. cbn [map String.concat]. by rewrite <- !str_app_assoc.
Qed.
Lemma deeper_spec w : open w -> let w' := deeper w in
  w'.(out) = w.(out) /\ w'.(depth) = S w.(depth) /\ w'.(afterKey) = w.(afterKey) /\ w'.(first) !! S w.(depth) = Some true /\
  take (S w.(depth)) w'.(first) = take (S w.(depth)) w.(first) /\ open w'.
Proof.
  unfold open, deeper, pushFirst. cbn. intros Ho. destruct (Nat.leb_spec (length (first w)) (S (depth w))); cbn.
  - assert (El : length (first w) = S (depth w)) by lia. rewrite <- El. split; [done|]. split; [done|]. split; [done|].
    split; [rewrite lookup_app_r by lia; by rewrite Nat.sub_diag|]. split; [by rewrite take_app_le by lia|]. rewrite length_app. cbn. lia.
  - split; [done|]. split; [done|]. split; [done|]. split; [by apply list_lookup_insert_eq|]. split; [by rewrite take_insert_ge|]. by rewrite length_insert.
Qed.
(** A bracketed group whose pieces are written inside. *)
Lemma wrote_group {A} (f : A -> jsonWriter -> jsonWriter) (t : A -> string) l o c :
  (forall x, x ∈ l -> forall w, open w -> w.(afterKey) = false -> wrote w (f x w) (t x)) -> forall w, open w ->
  wrote w (WriteString c (let w' := fold_left (fun w x => f x w) l (deeper (WriteString o (sep w))) in with_depth (pred w'.(depth)) w')) (o +:+ String.concat "," (map t l) +:+ c).
Proof.
  intros Hf w Ho. destruct (sep_out w) as (Eo & Ed & Ek & El). assert (Ho1 : open (WriteString o (sep w))) by (unfold open in *; cbn; rewrite Ed, El; done).
  destruct (deeper_spec _ Ho1) as (Eo2 & Ed2 & Ek2 & Et2 & Ef2 & Ho2). cbn [out depth afterKey first WriteString] in *. rewrite Ed in *.
  set (w2 := deeper (WriteString o (sep w))) in *. rewrite Ek in Ek2.
  destruct (wrote_pieces f t l Hf w2 Ho2 Ek2) as (Eo3 & Ed3 & Ek3 & Ef3 & Ho3). rewrite Ed2 in *. split; cbn [out depth afterKey first WriteString with_depth].
  - rewrite Eo3, Eo2, Eo. assert (Edue : due w2 = "") by (unfold due; by rewrite Ek2, Ed2, Et2). rewrite Edue. destruct l; rewrite ?str_app_nil_r, !str_app_assoc; done.
  - by rewrite Ed3.
  - done.
  - by rewrite Ef3.
Qed.
Lemma write_text v : forall w, open w -> wrote w (write v w) (text v).
Proof.
  induction v as [s|n|b| |s|l IH|l IH] using jv_rect'; intros w Ho; try apply wrote_leaf.
  - cbn [write text]. unfold EndObj, Obj. apply (wrote_group (fun kv w => write kv.2 (Key kv.1 w)) (fun kv => WriteJSONString kv.1 +:+ ":" +:+ text kv.2)); [|done].
    rewrite Forall_forall in IH. intros [k x] Hx w' Ho' Hk'. destruct (sep_out w') as (Eo & Ed & Ek & El).
    assert (Hop : open (Key k w')) by (unfold open in *; cbn; rewrite Ed, El; done). destruct (IH _ Hx (Key k w') Hop) as [Eo2 Ed2 Ek2 Ef2]. cbn [fst snd] in *. split.
    + rewrite Eo2. change (due (Key k w')) with "". cbn [Key out with_afterKey WriteString]. rewrite Eo, !str_app_assoc. done.
    + rewrite Ed2. cbn. by rewrite Ed.
    + done.
    + cbn [Key depth with_afterKey WriteString] in Ef2. rewrite Ed in Ef2. rewrite Ef2. done.
  - cbn [write text]. unfold EndArr, Arr. apply (wrote_group write text); [|done]. rewrite Forall_forall in IH. intros x Hx w' Ho' _. by apply IH.
Qed.
Lemma written_text v : Bytes (write v newJSONWriter) = text v.
Proof. destruct (write_text v newJSONWriter) as [Eo _ _ _]; [unfold open; cbn; lia|]. unfold Bytes. by rewrite Eo. Qed.
