(* ===== verification/EmitOpenAI.v ===== *)
(** Requests of Anthropic clients on their way to OpenAI-compatible upstreams (internal/translate/emit_openai.go, tool_choice.go,
    claudecode_tool_filter.go, server_tool_strip.go, crossformat.go, billing_header.go): messages, tools and parameters of a chat completion
    from those of a Messages request.

    The output is the tree the source writes ([JsonWriter]); a piece written with a writer of its own and embedded raw is its subtree. *)

From stdpp Require Import base list strings gmap.
From Stdlib Require Import ZArith Lia.
From S2P Require Import Prelude Strings Json Catalog Exclusions Reasoning Hash ToolIds Sse Marshal Floats Any Strict Schema JsonWriter.
Open Scope string_scope.
Open Scope Z_scope.

(** ** Options *)

Record EmitOptions := { TargetModel : string; TargetProvider : string; Capabilities : ModelSpec; IncludeStreamUsage : bool; SessionAffinity : string;
  ModelSwitched : bool; ForceReasoningEffort : string; opt_ForceEffort : string; EnableExtendedContext : bool; KeepCrossVendorOrchestrationTools : bool;
  StripOutputConfigFormat : bool }.
Definition resolveReasoningEffortFor `{GoUnicode} (opts : EmitOptions) : string :=
  if negb (String.eqb opts.(opt_ForceEffort) "") then ResolveForceEffort opts.(Capabilities) opts.(opt_ForceEffort) else opts.(ForceReasoningEffort).
Definition reasoningEffortAcceptedOnChatCompletions (opts : EmitOptions) : bool := negb (HasPrefix opts.(TargetModel) "gpt-5").
Definition toolTurnNeedsExplicitEffortNone (opts : EmitOptions) (hasTools : bool) : bool :=
  (hasTools && match FamilyFor opts.(TargetProvider) with FamilyOpenAICompat => true | _ => false end && HasPrefix opts.(TargetModel) "gpt-5.6")%bool.
Definition samplersAccepted (opts : EmitOptions) : bool := (negb (Supports opts.(Capabilities) CapReasoning) || negb (HasPrefix opts.(TargetModel) "gpt-5"))%bool.
Definition isGLM51 (model : string) : bool := String.eqb model "z-ai/glm-5.1".
Definition isQwen3Family (model : string) : bool := HasPrefix model "qwen/qwen3".
Definition modelMaxOutputTokens : gmap string Z := list_to_map
  [ ("gpt-4.1", 32768); ("gpt-4.1-mini", 32768); ("gpt-4.1-nano", 32768); ("gpt-4o", 16384); ("gpt-4o-mini", 16384); ("gpt-4-turbo", 4096); ("gpt-4", 8192);
    ("gpt-5", 128000); ("gpt-5-chat", 128000); ("gpt-5-pro", 128000); ("gpt-5-mini", 128000); ("gpt-5-nano", 128000); ("gpt-5.1", 128000); ("gpt-5.2", 128000);
    ("gpt-5.2-pro", 128000); ("gpt-5.3", 128000); ("gpt-5.4", 128000); ("gpt-5.4-pro", 128000); ("gpt-5.4-mini", 128000); ("gpt-5.4-nano", 128000);
    ("gpt-5.5", 128000); ("gpt-5.5-pro", 128000); ("gpt-5.5-mini", 128000); ("gpt-5.5-nano", 128000); ("gpt-5.6-sol", 128000); ("gpt-5.6-sol-pro", 128000);
    ("gpt-5.6-terra", 128000); ("gpt-5.6-luna", 128000); ("gpt-5.6-luna-pro", 128000); ("grok-4.5", 131072); ("grok-4.6", 131072); ("o1", 100000);
    ("o1-pro", 100000); ("o1-mini", 65536); ("o3", 100000); ("o3-pro", 100000); ("o3-mini", 100000); ("o4-mini", 100000); ("gemini-3-pro-preview", 65536);
    ("gemini-3.1-pro-preview", 65536); ("gemini-3-flash-preview", 65536); ("gemini-3.1-flash-lite-preview", 65536); ("gemini-3.1-flash-live-preview", 65536);
    ("gemini-3.5-flash-lite", 65536); ("gemini-3.6-flash", 65536); ("gemini-3.7-flash", 65536); ("gemini-2.5-pro", 65536); ("gemini-2.5-flash", 65536);
    ("gemini-2.5-flash-lite", 65536); ("gemini-2.0-flash", 8192); ("gemini-2.0-flash-lite", 8192); ("moonshotai/kimi-k3", 131072); ("qwen/qwen3.8-max", 64000);
    ("qwen/qwen3-coder-next", 16384); ("qwen/qwen3-235b-a22b-2507", 16384); ("qwen/qwen3-next-80b-a3b-instruct", 16384); ("deepseek-ai/deepseek-v4-flash", 131072);
    ("minimax/minimax-m3", 131072); ("minimax/minimax-m2.7", 65536); ("z-ai/glm-5", 65536); ("z-ai/glm-5.1", 65536); ("zai-org/glm-5.3", 131072);
    ("google/gemini-3.7-flash", 65536)].
Definition defaultMaxOutputTokenCap : Z := 8192.
Definition defaultOutputTokens (model : string) : Z :=
  match modelMaxOutputTokens !! model with Some tokenCap => if tokenCap <? defaultMaxOutputTokenCap then tokenCap else defaultMaxOutputTokenCap | None => defaultMaxOutputTokenCap end.
Definition output_cap (model : string) : Z :=
  let outputCap := default 0 (modelMaxOutputTokens !! model) in if outputCap =? 0 then defaultMaxOutputTokenCap else outputCap.
Definition clampToModelOutputCap (v : Z) (model : string) : Z := if output_cap model <? v then output_cap model else v.

(** ** Tools withheld from other vendors *)

Definition claudeCodeOnlyToolNames : list string :=
  ["Task"; "Agent"; "TaskCreate"; "TaskUpdate"; "TaskGet"; "TaskList"; "TaskOutput"; "TaskStop"; "SendMessage"; "EnterPlanMode"; "ExitPlanMode"; "UpdatePlan"; "Skill";
   "Workflow"; "AskUserQuestion"; "ToolSearch"; "TodoWrite"; "PushNotification"; "RemoteTrigger"; "EnterWorktree"; "ExitWorktree"; "LSP"; "ListMcpResourcesTool";
   "ReadMcpResourceTool"; "ListMcpResources"; "ListMcpResourceTemplates"; "ReadMcpResource"].
Definition isClaudeCodeOnlyTool (name : string) : bool := in_strings name claudeCodeOnlyToolNames.
Definition claudeCodeOrchestrationToolNames : list string :=
  ["Task"; "Agent"; "TaskCreate"; "TaskUpdate"; "TaskGet"; "TaskList"; "TaskOutput"; "TaskStop"; "Workflow"; "Skill"; "EnterPlanMode"; "ExitPlanMode"; "UpdatePlan"].
Definition isCrossVendorOrchestrationTool (name : string) : bool := in_strings name claudeCodeOrchestrationToolNames.
Definition claudeCodeAlwaysKeptToolNames : list string := ["ToolSearch"].
Definition isAlwaysKeptCrossVendorTool (name : string) : bool := in_strings name claudeCodeAlwaysKeptToolNames.
Definition shouldStripCCTool (name : string) (keepOrchestration : bool) : bool :=
  if negb (isClaudeCodeOnlyTool name) then false
  else if isAlwaysKeptCrossVendorTool name then false
  else negb (keepOrchestration && isCrossVendorOrchestrationTool name).
Definition nativeServerToolPrefixes : list string := ["web_search_"; "web_fetch_"].
Definition isNativeServerTool (toolType : string) : bool := existsb (HasPrefix toolType) nativeServerToolPrefixes.

Inductive toolChoiceKind := toolChoiceAbsent | toolChoiceAuto | toolChoiceRequired | toolChoiceNone | toolChoiceNamed | toolChoiceUnrecognized.

Section Emit.
Context `{GoUnicode} `{Gjson} `{Sjson} `{JsonCodec} `{GoFmt}.
Definition field (k : string) (r : Result) : string := StringOf (GetPath r k).
Definition filterClaudeCodeOnlyToolsFromAnthropicBody (body : string) (keepOrchestration : bool) : option (string * Z) :=
  let tools := GetBytes body "tools" in
  if (negb (Exists tools) || negb (IsArray tools))%bool then Some (body, 0)
  else
    let strip t := shouldStripCCTool (field "name" t) keepOrchestration in
    let removed := Z.of_nat (length (List.filter strip (elements tools))) in
    if removed =? 0 then Some (body, 0)
    else out ← SetRaw body "tools" (text (WArr (map (fun t => WRaw (Json.Raw t)) (List.filter (fun t => negb (strip t)) (elements tools)))));
         Some (out, removed).
(** Backwards, so that an index still names its tool. *)
Fixpoint strip_from (tools : list (nat * Result)) (body : string) (removed : Z) (strippedNames : list string) : string * Z * list string :=
  match tools with
  | [] => (body, removed, strippedNames)
  | (i, tool) :: rest =>
      if isNativeServerTool (field "type" tool) then
        match Delete body ("tools." +:+ WriteJSONInt (Z.of_nat i)) with
        | Some out => let name := field "name" tool in strip_from rest out (removed + 1) (if String.eqb name "" then strippedNames else name :: strippedNames)
        | None => strip_from rest body removed strippedNames
        end
      else strip_from rest body removed strippedNames
  end.
Definition Array (r : Result) : list Result := if IsArray r then elements r else match TypeOf r with JNull => [] | _ => [r] end.
Definition stripServerTools (body : string) : string * Z :=
  let tools := Array (GetBytes body "tools") in
  let '(body, removed, strippedNames) := strip_from (rev (zip (seq 0 (length tools)) tools)) body 0 [] in
  if removed =? 0 then (body, 0)
  else if String.eqb (StringOf (GetBytes body "tool_choice.type")) "tool" then
    if in_strings (StringOf (GetBytes body "tool_choice.name")) strippedNames then (default body (Delete body "tool_choice"), removed) else (body, removed)
  else (body, removed).
Definition anthropicToolChoice (body : string) : toolChoiceKind * string :=
  let r := GetBytes body "tool_choice" in
  if negb (Exists r) then (toolChoiceAbsent, "")
  else if negb (IsObject r) then (toolChoiceUnrecognized, "")
  else let type := field "type" r in
    if String.eqb type "auto" then (toolChoiceAuto, "")
    else if String.eqb type "any" then (toolChoiceRequired, "")
    else if String.eqb type "none" then (toolChoiceNone, "")
    else if String.eqb type "tool" then
      let name := GetPath r "name" in
      if (negb (IsStringType name) || String.eqb (StringOf name) "")%bool then (toolChoiceUnrecognized, "") else (toolChoiceNamed, StringOf name)
    else (toolChoiceUnrecognized, "").

(** ** Messages *)

Definition stripAnthropicBillingHeader (s : string) : string :=
  match CutPrefix s "x-anthropic-billing-header:" with
  | Some r => match Index r LF with Some i => str_drop (S i) r | None => "" end
  | None => s
  end.
(** The texts of the text blocks. *)
Definition block_texts (blocks : list Result) : list string :=
  omap (fun block => if String.eqb (field "type" block) "text" then let text := field "text" block in if String.eqb text "" then None else Some text else None) blocks.
Definition toolResultContentGJSON (content : Result) : string :=
  match TypeOf content with
  | JString => StringOf content
  | JJSON => if IsArray content then String.concat LF (block_texts (elements content)) else ""
  | _ => ""
  end.
Definition flattenAnthropicSystemGJSON (system : Result) : string :=
  match TypeOf system with
  | JString => stripAnthropicBillingHeader (StringOf system)
  | JJSON => if IsArray system then
               String.concat LF (List.filter (fun s => negb (String.eqb s "")) (map stripAnthropicBillingHeader (block_texts (elements system))))
             else ""
  | _ => ""
  end.
Definition buildOpenAIToolCall (block : Result) : jv :=
  let inputRaw := Json.Raw (GetPath block "input") in
  WObj [("id", WStr (clampOpenAIToolCallID (field "id" block))); ("type", WStr "function");
        ("function", WObj [("name", WStr (field "name" block)); ("arguments", WStr (if String.eqb inputRaw "" then "{}" else inputRaw))])].
Definition is_type (type : string) (block : Result) : bool := String.eqb (field "type" block) type.
Definition writeOpenAIAssistantFromAnthropic (msg : Result) : jv :=
  let content := GetPath msg "content" in
  let null := WObj [("role", WStr "assistant"); ("content", WNull)] in
  match TypeOf content with
  | JString => WObj [("role", WStr "assistant"); ("content", WRaw (Json.Raw content))]
  | JJSON =>
      if IsArray content then
        let textParts := block_texts (elements content) in
        let toolCallRaws := map buildOpenAIToolCall (List.filter (is_type "tool_use") (elements content)) in
        WObj ([("role", WStr "assistant"); ("content", match textParts with [] => WNull | _ => WStr (String.concat LF textParts) end)]
              ++ match toolCallRaws with [] => [] | _ => [("tool_calls", WArr toolCallRaws)] end)
      else null
  | _ => null
  end.
Definition buildOpenAIToolResultMessage (block : Result) : jv :=
  WObj [("role", WStr "tool"); ("tool_call_id", WStr (clampOpenAIToolCallID (field "tool_use_id" block)));
        ("content", WStr (toolResultContentGJSON (GetPath block "content")))].
(** [None] for a malformed block. *)
Definition image_url (src : Result) : option string :=
  let type := field "type" src in
  if String.eqb type "base64" then
    let mediaType := field "media_type" src in
    let data := field "data" src in
    if String.eqb data "" then None else Some ("data:" +:+ (if String.eqb mediaType "" then "image/jpeg" else mediaType) +:+ ";base64," +:+ data)
  else if String.eqb type "url" then let urlStr := field "url" src in if String.eqb urlStr "" then None else Some urlStr
  else None.
Definition buildOpenAIImagePart (block : Result) : option jv :=
  let src := GetPath block "source" in
  if negb (Exists src) then None else (fun url => WObj [("type", WStr "image_url"); ("image_url", WObj [("url", WStr url)])]) <$> image_url src.
(** The parts of the user message a block gives. *)
Definition user_parts (block : Result) : list jv :=
  if is_type "tool_result" block then
    omap (fun inner => if is_type "image" inner then buildOpenAIImagePart inner else None) (Json.visit (GetPath block "content"))
  else if is_type "text" block then [WObj [("type", WStr "text"); ("text", WStr (field "text" block))]]
  else if is_type "image" block then match buildOpenAIImagePart block with Some part => [part] | None => [] end
  else [].
Definition user_message (content : jv) : jv := WObj [("role", WStr "user"); ("content", content)].
Definition writeOpenAIUserFromAnthropic (msg : Result) : list jv :=
  let content := GetPath msg "content" in
  match TypeOf content with
  | JString => [user_message (WRaw (Json.Raw content))]
  | JJSON =>
      if IsArray content then
        let toolResults := map buildOpenAIToolResultMessage (List.filter (is_type "tool_result") (elements content)) in
        let userParts := flat_map user_parts (elements content) in
        (toolResults ++ match userParts with
                        | [] => []
                        | [part] => let p := Parse (text part) in
                                    if is_type "text" p then [user_message (WStr (field "text" p))] else [user_message (WArr userParts)]
                        | _ => [user_message (WArr userParts)]
                        end)%list
      else []
  | _ => []
  end.
Definition message_of (msg : Result) : list jv :=
  if String.eqb (field "role" msg) "assistant" then [writeOpenAIAssistantFromAnthropic msg] else writeOpenAIUserFromAnthropic msg.
Definition openai_messages (body : string) : list jv :=
  let systemText := flattenAnthropicSystemGJSON (GetBytes body "system") in
  ((if String.eqb systemText "" then [] else [WObj [("role", WStr "system"); ("content", WStr systemText)]])
   ++ flat_map message_of (Json.visit (GetBytes body "messages")))%list.
Definition writeOpenAISystemAndMessagesFromAnthropic (body : string) : list (string * jv) := [("messages", WArr (openai_messages body))].

(** ** Tools and parameters *)

Definition openAIMaxTools : nat := 128.
Definition function_tool (tool : Result) : jv :=
  let schema := GetPath tool "input_schema" in
  let desc := GetPath tool "description" in
  WObj [("type", WStr "function");
        ("function", WObj ([("name", WStr (field "name" tool))] ++ (if Exists desc then [("description", WRaw (Json.Raw desc))] else [])
                           ++ match function_parameters (if Exists schema then Some (Json.Raw schema) else None) with
                              | Some params => [("parameters", WRaw params)] | None => [] end))].
Definition writeOpenAIToolsFromAnthropic (body : string) : list (string * jv) :=
  let tools := GetBytes body "tools" in
  if (negb (Exists tools) || negb (IsArray tools) || (IntOf (GetPath tools "#") =? 0))%bool then []
  else [("tools", WArr (map function_tool (take openAIMaxTools (elements tools))))].
Definition writeOpenAIToolChoiceFromAnthropic (body : string) : list (string * jv) :=
  match anthropicToolChoice body with
  | (toolChoiceAuto, _) => [("tool_choice", WStr "auto")]
  | (toolChoiceRequired, _) => [("tool_choice", WStr "required")]
  | (toolChoiceNamed, name) => [("tool_choice", WObj [("type", WStr "function"); ("function", WObj [("name", WStr name)])])]
  | _ => []
  end.
Definition writeOpenAIMaxTokensFromAnthropic (body : string) (opts : EmitOptions) : list (string * jv) :=
  let r := GetBytes body "max_tokens" in
  let val := if Exists r then IntOf r else defaultOutputTokens opts.(TargetModel) in
  [(if Supports opts.(Capabilities) CapReasoning then "max_completion_tokens" else "max_tokens", WInt (clampToModelOutputCap val opts.(TargetModel)))].
(** A field passed on when the request has it. *)
Definition passed (body key as_key : string) (accepted : bool) : list (string * jv) :=
  let r := GetBytes body key in if (Exists r && accepted)%bool then [(as_key, WRaw (Json.Raw r))] else [].
Definition forced_effort (opts : EmitOptions) : option string :=
  let forced := resolveReasoningEffortFor opts in
  if (negb (String.eqb forced "") && Supports opts.(Capabilities) CapReasoning && reasoningEffortAcceptedOnChatCompletions opts)%bool then Some forced else None.
(** The members of the body, in order. *)
Definition chat_completion (body : string) (opts : EmitOptions) : list (string * jv) :=
  ([("model", WStr opts.(TargetModel))]
   ++ passed body "stream" "stream" true
   ++ writeOpenAISystemAndMessagesFromAnthropic body
   ++ passed body "stop_sequences" "stop" (negb (Supports opts.(Capabilities) CapReasoning))
   ++ writeOpenAIToolsFromAnthropic body
   ++ writeOpenAIToolChoiceFromAnthropic body
   ++ passed body "temperature" "temperature" (samplersAccepted opts)
   ++ passed body "top_p" "top_p" (samplersAccepted opts)
   ++ writeOpenAIMaxTokensFromAnthropic body opts
   ++ match forced_effort opts with Some forced => [("reasoning_effort", WStr forced)] | None => [] end
   ++ if (opts.(IncludeStreamUsage) && BoolOf (GetBytes body "stream"))%bool then [("stream_options", WObj [("include_usage", WBool true)])] else [])%list.
(** A value set unless the client did. *)
Definition set_absent (key : string) (set : string -> option string) (body : string) : option string := if Exists (GetBytes body key) then Some body else set body.
Definition qwen3_samplers : list (string * string) := [("temperature", "0.7"); ("top_p", "0.8"); ("presence_penalty", "1.5"); ("repetition_penalty", "1.05")].
Definition applyQwen3SamplersIfNeeded (body : string) (opts : EmitOptions) : option string :=
  if negb (isQwen3Family opts.(TargetModel)) then Some body
  else fold_left (fun body s => body ← body; set_absent s.1 (fun body => val ← ParseFloat s.2; SetFloat body s.1 val) body) qwen3_samplers (Some body).
Definition applyGLM51FlagsIfNeeded (body : string) (opts : EmitOptions) : option string :=
  if negb (isGLM51 opts.(TargetModel)) then Some body
  else
    body ← set_absent "tool_stream" (fun body => SetBool body "tool_stream" true) body;
    set_absent "chat_template_kwargs.enable_thinking" (fun body => SetBool body "chat_template_kwargs.enable_thinking" false) body.
(** What is left of the request once the tools of the client and of Anthropic's servers are taken out. *)
Definition foreign_body (body : string) (opts : EmitOptions) : option (string * Z * Z) :=
  '(body, removed) ← filterClaudeCodeOnlyToolsFromAnthropicBody body opts.(KeepCrossVendorOrchestrationTools);
  let '(body, stripped) := stripServerTools body in Some (body, removed, stripped).
Definition buildOpenAIFromAnthropic (body : string) (opts : EmitOptions) : option (string * Z * Z) :=
  '(body, CCOnlyToolsStripped, ServerToolsStripped) ← foreign_body body opts;
  out ← applyQwen3SamplersIfNeeded (Bytes (write (WObj (chat_completion body opts)) newJSONWriter)) opts;
  out ← applyGLM51FlagsIfNeeded out opts;
  Some (out, CCOnlyToolsStripped, ServerToolsStripped).

(** ** Same-format requests *)

Record EmitOverrides := { ov_Model : string; DeleteKeys : list string; SetMaxCompletionTokens : option Z; ClampMaxTokensKey : string; ClampMaxTokensValue : Z;
  ClampMaxCompTokensValue : Z; DefaultMaxTokensKey : string; DefaultMaxTokensValue : Z; InjectStreamUsage : bool }.
(** The key is deleted when the request has it. *)
Definition delete_present (body : string) (keys : list string) : list string := List.filter (fun key => Exists (GetBytes body key)) keys.
Definition resolveOpenAIOverrides (body : string) (opts : EmitOptions) : EmitOverrides :=
  let supportsReasoning := Supports opts.(Capabilities) CapReasoning in
  let hasMaxTokens := Exists (GetBytes body "max_tokens") in
  let hasMaxComp := Exists (GetBytes body "max_completion_tokens") in
  let maxTokensDeleted := (hasMaxTokens && supportsReasoning)%bool in
  let set := if (maxTokensDeleted && negb hasMaxComp)%bool then Some (IntOf (GetBytes body "max_tokens")) else None in
  let tokenCap := output_cap opts.(TargetModel) in
  let clamp := (hasMaxTokens && negb maxTokensDeleted)%bool in
  let unset := (negb hasMaxTokens && negb hasMaxComp)%bool in
  {| ov_Model := opts.(TargetModel);
     DeleteKeys := ["thinking"]
       ++ (if (negb supportsReasoning || negb (reasoningEffortAcceptedOnChatCompletions opts))%bool then delete_present body ["reasoning_effort"] else [])
       ++ (if supportsReasoning then delete_present body ["stop"; "presence_penalty"; "frequency_penalty"] else [])
       ++ (if samplersAccepted opts then [] else delete_present body ["temperature"; "top_p"])
       ++ (if maxTokensDeleted then ["max_tokens"] else []);
     SetMaxCompletionTokens := set;
     ClampMaxTokensKey := if clamp then "max_tokens" else "";
     ClampMaxTokensValue := if clamp then tokenCap else 0;
     ClampMaxCompTokensValue := if (hasMaxComp || match set with Some _ => true | None => false end)%bool then tokenCap else 0;
     DefaultMaxTokensKey := if unset then if supportsReasoning then "max_completion_tokens" else "max_tokens" else "";
     DefaultMaxTokensValue := if unset then defaultOutputTokens opts.(TargetModel) else 0;
     InjectStreamUsage := opts.(IncludeStreamUsage) |}.
(** A number above the bound becomes the bound; [above] compares the float64 of the field with it. *)
Definition clampFieldBytes (above : Result -> Z -> bool) (body key : string) (maxVal : Z) : string :=
  let r := GetBytes body key in
  if (negb (Exists r) || negb (bool_decide (TypeOf r = JNumber)))%bool then body
  else if above r maxVal then default body (SetInt body key maxVal) else body.
Definition applyOverrides (above : Result -> Z -> bool) (body : string) (ov : EmitOverrides) : option string :=
  out ← if String.eqb ov.(ov_Model) "" then Some body else SetString body "model" ov.(ov_Model);
  out ← match ov.(SetMaxCompletionTokens) with Some v => SetInt out "max_completion_tokens" v | None => Some out end;
  let out := if (negb (String.eqb ov.(ClampMaxTokensKey) "") && (0 <? ov.(ClampMaxTokensValue)))%bool then clampFieldBytes above out ov.(ClampMaxTokensKey) ov.(ClampMaxTokensValue) else out in
  let out := if 0 <? ov.(ClampMaxCompTokensValue) then clampFieldBytes above out "max_completion_tokens" ov.(ClampMaxCompTokensValue) else out in
  out ← if (negb (String.eqb ov.(DefaultMaxTokensKey) "") && (0 <? ov.(DefaultMaxTokensValue)))%bool
        then set_absent ov.(DefaultMaxTokensKey) (fun out => SetInt out ov.(DefaultMaxTokensKey) ov.(DefaultMaxTokensValue)) out else Some out;
  out ← if (ov.(InjectStreamUsage) && BoolOf (GetBytes out "stream"))%bool then SetBool out "stream_options.include_usage" true else Some out;
  fold_left (fun out key => out ← out; Delete out key) ov.(DeleteKeys) (Some out).
Definition hasNonEmptyTools (body : string) : bool :=
  let tools := GetBytes body "tools" in (Exists tools && IsArray tools && (0 <? IntOf (GetPath tools "#")))%bool.
Definition buildOpenAIFromOpenAI (above : Result -> Z -> bool) (body : string) (opts : EmitOptions) : option string :=
  body ← applyOverrides above body (resolveOpenAIOverrides body opts);
  body ← match forced_effort opts with Some forced => SetString body "reasoning_effort" forced | None => Some body end;
  body ← if toolTurnNeedsExplicitEffortNone opts (hasNonEmptyTools body) then SetString body "reasoning_effort" "none" else Some body;
  body ← applyQwen3SamplersIfNeeded body opts;
  applyGLM51FlagsIfNeeded body opts.

(** ** The request sent *)

Definition applySessionAffinity (opts : EmitOptions) : list (string * string) :=
  if (match FamilyFor opts.(TargetProvider) with FamilyOpenAICompat => true | _ => false end && negb (String.eqb opts.(SessionAffinity) ""))%bool
  then [("x-session-affinity", opts.(SessionAffinity))] else [].
Inductive Format := FormatOpenAI | FormatAnthropic.
(** The body, the headers, and the tools taken out: the client's own and those of Anthropic's servers. *)
Definition PrepareOpenAI (above : Result -> Z -> bool) (format : Format) (body : string) (opts : EmitOptions) : option (string * list (string * string) * (Z * Z)) :=
  '(out, stats) ← match format with
                  | FormatOpenAI => out ← buildOpenAIFromOpenAI above body opts; Some (out, (0, 0))
                  | FormatAnthropic => '(out, CCOnlyToolsStripped, ServerToolsStripped) ← buildOpenAIFromAnthropic body opts; Some (out, (CCOnlyToolsStripped, ServerToolsStripped))
                  end;
  Some (out, applySessionAffinity opts, stats).
End Emit.
