(* ===== verification/EmitFacts.v ===== *)
(** What the translation of a Messages request to a chat completion guarantees: calls stay paired with their results, and the limits of the
    upstream hold. *)

From stdpp Require Import base list strings gmap.
From Stdlib Require Import ZArith Lia.
From S2P Require Import Prelude Strings Json Catalog Exclusions Reasoning Hash ToolIds Sse Marshal Floats Any Strict Schema JsonWriter EmitOpenAI.
Open Scope string_scope.
Open Scope Z_scope.

(** ** A chat completion as its reader sees it *)

Definition fields_of (v : jv) : list (string * jv) := match v with WObj l => l | _ => [] end.
Definition jfield (k : string) (v : jv) : jv := default WNull (member k (fields_of v)).
Definition jstr (k : string) (v : jv) : string := match jfield k v with WStr s => s | _ => "" end.
Definition jlist (k : string) (v : jv) : list jv := match jfield k v with WArr l => l | _ => [] end.
(** The calls of a message: identifier, name, arguments. *)
Definition tool_calls (m : jv) : list (string * string * string) :=
  map (fun call => (jstr "id" call, jstr "name" (jfield "function" call), jstr "arguments" (jfield "function" call))) (jlist "tool_calls" m).
(** The call a message answers. *)
Definition answer (m : jv) : option string := if String.eqb (jstr "role" m) "tool" then Some (jstr "tool_call_id" m) else None.
(** The order the upstream requires: the answers to a message's calls come right after it, one for each, and no others. *)
Inductive paired : list jv -> Prop :=
| paired_nil : paired []
| paired_turn m answers rest : answer m = None -> map answer answers ≡ₚ map (fun call => Some call.1.1) (tool_calls m) ->
    (forall a, a ∈ answers -> tool_calls a = []) -> paired rest -> paired (m :: answers ++ rest).

Section Facts.
Context `{GoUnicode} `{Gjson} `{Sjson} `{JsonCodec} `{GoFmt}.

(** ** The conversation of a Messages request *)

Definition blocks_of (type : string) (msg : Result) : list Result :=
  let content := GetPath msg "content" in
  match TypeOf content with JJSON => if IsArray content then List.filter (is_type type) (elements content) else [] | _ => [] end.
Definition from_assistant (msg : Result) : bool := String.eqb (field "role" msg) "assistant".
Definition source_calls (msg : Result) : list Result := if from_assistant msg then blocks_of "tool_use" msg else [].
Definition source_results (msg : Result) : list Result := if from_assistant msg then [] else blocks_of "tool_result" msg.
Definition input_of (block : Result) : string := let raw := Json.Raw (GetPath block "input") in if String.eqb raw "" then "{}" else raw.
(** What Anthropic requires: the results of a message's calls are in the next message. *)
Inductive answered : list Result -> Prop :=
| answered_nil : answered []
| answered_other m rest : source_calls m = [] -> source_results m = [] -> answered rest -> answered (m :: rest)
| answered_calls m reply rest : source_calls m <> [] -> source_calls reply = [] ->
    map (field "tool_use_id") (source_results reply) ≡ₚ map (field "id") (source_calls m) -> answered rest -> answered (m :: reply :: rest).

Definition call_of (block : Result) : string * string * string := (clampOpenAIToolCallID (field "id" block), field "name" block, input_of block).
Lemma built_calls bs : map (fun call => (jstr "id" call, jstr "name" (jfield "function" call), jstr "arguments" (jfield "function" call))) (map buildOpenAIToolCall bs) = map call_of bs.
Proof. rewrite map_map. apply map_ext. done. Qed.
Lemma assistant_calls msg : tool_calls (writeOpenAIAssistantFromAnthropic msg) = map call_of (blocks_of "tool_use" msg) /\ answer (writeOpenAIAssistantFromAnthropic msg) = None.
Proof.
  unfold writeOpenAIAssistantFromAnthropic, blocks_of. destruct (TypeOf (GetPath msg "content")); try done. destruct (IsArray _); [|done].
  destruct (List.filter _ _) as [|b bs]; [done|]. split; [|done]. unfold tool_calls. rewrite <- built_calls. done.
Qed.
(** A message that neither calls nor answers. *)
Definition quiet (m : jv) : Prop := tool_calls m = [] /\ answer m = None.
Lemma user_messages msg : exists others, writeOpenAIUserFromAnthropic msg = (map buildOpenAIToolResultMessage (blocks_of "tool_result" msg) ++ others)%list /\ Forall quiet others.
Proof.
  unfold writeOpenAIUserFromAnthropic, blocks_of. destruct (TypeOf (GetPath msg "content")); try by (exists []; split; [done|constructor]).
  - eexists. split; [done|]. by repeat constructor.
  - destruct (IsArray _); [|by (exists []; split; [done|constructor])]. eexists. split; [done|]. destruct (flat_map user_parts _) as [|p [|q ps]]; [constructor| |by repeat constructor].
    destruct (is_type _ _); by repeat constructor.
Qed.
Lemma paired_quiet ms rest : Forall quiet ms -> paired rest -> paired (ms ++ rest).
Proof.
  induction 1 as [|m ms [Hc Ha] _ IH]; [done|]. intros P. cbn. apply (paired_turn m [] (ms ++ rest)); [done|by rewrite Hc|intros a Hn; by apply elem_of_nil in Hn|by apply IH].
Qed.
Lemma quiet_message msg : source_calls msg = [] -> source_results msg = [] -> Forall quiet (message_of msg).
Proof.
  unfold source_calls, source_results, message_of, from_assistant. destruct (String.eqb _ _).
  - intros E _. destruct (assistant_calls msg) as [Hc Ha]. rewrite E in Hc. by repeat constructor.
  - intros _ E. destruct (user_messages msg) as (others & -> & Q). by rewrite E.
Qed.
Lemma answers_of bs : map answer (map buildOpenAIToolResultMessage bs) = map (fun b => Some (clampOpenAIToolCallID (field "tool_use_id" b))) bs.
Proof. rewrite map_map. by apply map_ext. Qed.
Lemma messages_paired msgs : answered msgs -> paired (flat_map message_of msgs).
Proof.
  induction 1 as [|m rest Hc Hr _ IH|m reply rest Hc Hr Hp _ IH]; cbn [flat_map]; [constructor|by apply paired_quiet, IH; apply quiet_message|].
  unfold source_calls in Hc, Hp. destruct (from_assistant m) eqn:Am; [|done]. unfold source_results in Hp. destruct (from_assistant reply) eqn:Ar.
  { apply Permutation_nil_l in Hp. by destruct (blocks_of "tool_use" m). }
  unfold message_of at 1 2. unfold from_assistant in Am, Ar. rewrite Am, Ar. destruct (assistant_calls m) as [Ec Ea]. destruct (user_messages reply) as (others & -> & Q).
  rewrite <- !app_assoc. cbn [app]. apply paired_turn; [done| | |by apply paired_quiet].
  - rewrite answers_of, Ec, map_map. cbn. apply (Permutation_map (fun id => Some (clampOpenAIToolCallID id))) in Hp. by rewrite !map_map in Hp.
  - intros a (b & <- & _)%list_elem_of_In%in_map_iff. done.
Qed.
Lemma messages_calls msgs : flat_map tool_calls (flat_map message_of msgs) = map call_of (flat_map source_calls msgs).
Proof.
  induction msgs as [|m ms IH]; [done|]. cbn [flat_map]. rewrite flat_map_app, map_app, IH. f_equal. unfold message_of, source_calls, from_assistant. destruct (String.eqb _ _).
  - cbn. rewrite app_nil_r. by apply assistant_calls.
  - destruct (user_messages m) as (others & -> & Q). rewrite flat_map_app. assert (E : flat_map tool_calls others = []).
    { induction Q as [|o os [Ho _] _ IHo]; [done|]. cbn. by rewrite Ho. }
    rewrite E, app_nil_r. clear. induction (blocks_of _ _) as [|b bs IHb]; [done|]. done.
Qed.
(** The messages of the chat completion carry exactly the calls of the request, in order, and pair each with its answer when the request did; its tools are
    at most as many, and its output limit at most as large, as the upstream takes. *)
Lemma conversation_translated (body : string) (opts : EmitOptions) : exists ms key n,
  member "messages" (chat_completion body opts) = Some (WArr ms) /\
  flat_map tool_calls ms = map call_of (flat_map source_calls (Json.visit (GetBytes body "messages"))) /\
  (answered (Json.visit (GetBytes body "messages")) -> paired ms) /\
  (forall l, ("tools", WArr l) ∈ chat_completion body opts -> (length l <= 128)%nat) /\
  (key, WInt n) ∈ chat_completion body opts /\ key = (if Supports opts.(Capabilities) CapReasoning then "max_completion_tokens" else "max_tokens") /\
  n <= output_cap opts.(TargetModel).
Proof.
  exists (openai_messages body), (if Supports opts.(Capabilities) CapReasoning then "max_completion_tokens" else "max_tokens").
  eexists. split; [|split; [|split; [|split; [|split; [|split; [reflexivity|]]]]]].
  - unfold chat_completion, passed. destruct (_ && _)%bool; reflexivity.
  - unfold openai_messages. rewrite flat_map_app, messages_calls. destruct (String.eqb _ ""); reflexivity.
  - intros A. unfold openai_messages. apply paired_quiet; [|by apply messages_paired]. destruct (String.eqb _ ""); repeat constructor.
  - intros l Hl. unfold chat_completion in Hl.
    assert (P : forall k as_key acc, ("tools", WArr l) ∉ passed body k as_key acc).
    { intros k as_key acc. unfold passed. destruct (Exists (GetBytes body k) && acc)%bool; [|apply not_elem_of_nil]. intros H4%list_elem_of_singleton. discriminate H4. }
    repeat (apply elem_of_app in Hl as [Hl|Hl]; [try (by destruct (P _ _ _ Hl))|]).
    + apply list_elem_of_singleton in Hl. discriminate Hl.
    + apply list_elem_of_singleton in Hl. discriminate Hl.
    + unfold writeOpenAIToolsFromAnthropic in Hl. destruct (_ || _)%bool; [by apply elem_of_nil in Hl|]. apply list_elem_of_singleton in Hl. injection Hl as ->.
      rewrite length_map, length_take. unfold openAIMaxTools. lia.
    + unfold writeOpenAIToolChoiceFromAnthropic in Hl. destruct (anthropicToolChoice body) as [[] ?]; try (by apply elem_of_nil in Hl); apply list_elem_of_singleton in Hl; discriminate Hl.
    + apply list_elem_of_singleton in Hl. destruct (Supports _ _); discriminate Hl.
    + destruct (forced_effort opts); [apply list_elem_of_singleton in Hl; discriminate Hl|by apply elem_of_nil in Hl].
    + destruct (_ && _)%bool; [apply list_elem_of_singleton in Hl; discriminate Hl|by apply elem_of_nil in Hl].
  - unfold chat_completion, writeOpenAIMaxTokensFromAnthropic. do 8 (apply elem_of_app; right). apply elem_of_app. left. apply list_elem_of_singleton. reflexivity.
  - unfold clampToModelOutputCap. destruct (Z.ltb_spec (output_cap (TargetModel opts)) (if Exists (GetBytes body "max_tokens") then IntOf (GetBytes body "max_tokens") else defaultOutputTokens (TargetModel opts))); lia.
Qed.
End Facts.
